(* ===== verification/_CoqProject ===== *)
-Q . S2P
Prelude.v
Mem.v
Pmm.v
PmmSpec.v
PmmInit.v
Oltre.v
Kheap.v
KheapInv.v
KheapSpec.v
KheapFree.v
KheapThms.v
PmmRef.v
PmmThms.v
Attese.v
Pipe.v
PipeSpec.v
PipeThms.v
Ipc.v
IpcSpec.v
IpcInv.v
IpcSys.v
IpcNomi.v
IpcMacchina.v
IpcThms.v
Bytes.v
Esito.v
Lz4.v
Lz4Spec.v
Lz4Thms.v
Exbig.v
ExbigSpec.v
ExbigMont.v
ExbigPow.v
ExbigByte.v
ExbigThms.v
Exasn1.v
Exasn1Spec.v
Exasn1Enc.v
Exasn1Cert.v
Exasn1Thms.v
Excert.v
ExcertSpec.v
ExcertThms.v
ShaSpec.v
Sha256.v
ShaBlocco.v
Sha256Blocco.v
Sha256Flusso.v
Sha256K.v
Sha512.v
Sha512Blocco.v
ShaThms.v
ExcertSha.v
Su.v
SuSpec.v
SuPassi.v
Exuser.v
ExuserPassi.v
SuThms.v
Modulo.v
ModuloPassi.v
ModuloThms.v
Pagine.v
Paging.v
Fork.v
Memsys.v
PagingBit.v
PagingSpec.v
PagingPassi.v
PagingVista.v
ForkPassi.v
PagingCow.v
PagingDir.v
PagingMappa.v
PagingMacchina.v
PagineConti.v
PagineRif.v
PagingThms.v
MemsysPassi.v
MemsysThms.v
