(* ===== verification/Prelude.v ===== *)
(** * EX-OS: verification of memory, communication and trust

    EX-OS is a small operating system in C.  This library models, in the 32-bit
    build (the module loader and the digests in both builds), the parts on which the
    others stand and proves what makes them correct.  Source paths below are relative to the repository.

    ** The parts and how they meet

    - kernel/mm/pmm.c hands out physical pages.  A page has owners: one bit of
      the bitmap, a byte of extra owners, and past 255 of those an entry of the
      hash table [g_oltre], whose array comes from the kernel heap.
    - kernel/mm/kmalloc.c is the kernel heap.  It takes regions of pages from
      pmm.c, through the interface [PageSource].
    - kernel/mm/paging.c keeps the page tables: a directory per process, tables, and
      pages that are private, shared, promised or to be copied at the first write.
      It takes pages and counts their owners through the interface [Pagine]; fork
      gives the child the frames of the parent.
    - The memory calls of kernel/syscall/syscall_impl.c (mmap, munmap, sbrk, mprotect,
      mmio_map, fb_map) stand on paging.c and move the border of the heap of a
      process, which its threads share; paging.c also brings in the pages of the
      executable.
    - kernel/boot/rdlz4.c expands the compressed boot disk before pmm.c is
      initialised, and leaves in [BootInfo] the area that pmm.c must protect.
    - kernel/include/attese.h keeps who sleeps on an object; kernel/ipc/pipe.c
      (pipes) and kernel/ipc/ipc.c (messages, names of services) sleep and wake
      through it and through the scheduler.
    - lib/exbig (long integers), lib/exasn1 (DER and X.509) and lib/excert
      (chains and names of sites) decide whom TLS trusts: excert checks the
      signatures of what exasn1 read with the exponentiation of exbig.
    - The digests: SHA-256 in lib/libc.c, whole or in pieces, a copy of it in
      kernel/crypto/sha256.c, SHA-384 and SHA-512 in lib/excrypt/sha512.c.
    - Accounts: lib/exuser adds users to /boot/utenti and /boot/ombra and checks
      passwords for login; [sys_su] of kernel/syscall/syscall_impl.c reads the same
      files with code of its own, digests with the kernel's copy and makes the caller
      root.
    - kernel/loader/modulo.c loads a kernel module: trailer with a SHA-256, ELF
      headers, segments, relocations, entry point, table of the modules.

    ** Files

    Prelude.v   machine integers, outcomes of kernel calls, tactics
    Mem.v       byte memory with the frame relation [same_on]
    Pmm.v, PmmSpec.v, PmmInit.v      pmm.c: bitmap, allocation, initialisation
    Oltre.v                          the table [g_oltre] as a finite map
    PmmRef.v, PmmThms.v              owners of a page; the theorems on pmm.c
    Kheap.v                          kmalloc.c in byte memory
    KheapInv.v, KheapSpec.v, KheapFree.v, KheapThms.v
                                     layout invariant, kmalloc, kfree, theorems
    Attese.v                         attese.h
    Pipe.v, PipeSpec.v, PipeThms.v      pipe.c, its ring as a queue,
                                     any interleaving of processes, theorems
    Ipc.v                            ipc.c, with the calls of sched.c it makes
    IpcSpec.v, IpcInv.v, IpcSys.v, IpcNomi.v, IpcMacchina.v, IpcThms.v
                                     lines of senders, mailboxes, names, the
                                     message system as a machine, theorems
    Bytes.v, Esito.v                 byte sequences; outcomes of code that reads
                                     through pointers
    Lz4.v, Lz4Spec.v, Lz4Thms.v      rdlz4.c, the LZ4 format, theorems
    Exbig.v, ExbigSpec.v, ExbigMont.v, ExbigPow.v, ExbigByte.v, ExbigThms.v
                                     exbig.c, values, Montgomery, powers, bytes
    Exasn1.v, Exasn1Spec.v, Exasn1Enc.v, Exasn1Cert.v, Exasn1Thms.v
                                     exasn1.c, bounds, encoders, theorems
    Excert.v, ExcertSpec.v, ExcertThms.v
                                     excert.c, good chains, names, theorems
    ShaSpec.v                        FIPS 180-4, constants from the primes
    Sha256.v, Sha256K.v, Sha512.v    the three sources of digests
    ShaBlocco.v, Sha256Blocco.v, Sha256Flusso.v, Sha512Blocco.v, ShaThms.v
                                     compression, padding and pieces, theorems
    ExcertSha.v                      these digests as an instance of [CryptoOk]
    Su.v, SuSpec.v, SuPassi.v        sys_su, what the files say, lemmas
    Exuser.v, ExuserPassi.v, SuThms.v
                                     exuser.c, lemmas, theorems on both
    Modulo.v, ModuloPassi.v, ModuloThms.v
                                     modulo.c, bounds, relocations, theorems
    Pagine.v, PagineRif.v, PagineConti.v
                                     what paging asks of pmm.c, pmm.c as the
                                     instance, and the smallest allocator
    Paging.v, Fork.v                 paging.c
    PagingBit.v, PagingSpec.v        bits of the entries; uses of the frames and
                                     the invariant of the spaces
    PagingPassi.v, PagingVista.v, PagingCow.v, PagingDir.v, PagingMappa.v
                                     a page mapped, what a program sees, copy on
                                     write, directories, mapping
    ForkPassi.v, PagingMacchina.v, PagingThms.v
                                     fork, any sequence of calls, theorems
    Memsys.v, MemsysPassi.v, MemsysThms.v
                                     the memory calls, loops over pages with their
                                     way back, theorems

    ** How code becomes definitions

    A C function is a definition of the same name; a loop is a [Fixpoint] of its
    own, named after the function or after what it does.  A [uint32_t] is a [Z]
    and every operation that can wrap is written with [u32]; 64-bit
    intermediates with [u64].  Static variables and structures are records
    passed along.  The heap and the LZ4 decoder work on the bytes of memory,
    headers and canaries included; the long integers on arrays of words; the DER
    reader on a buffer with offsets for pointers.  [kpanic] is [Panic], a log
    line has no counterpart.

    Code that blocks is split where the code itself lets others run: a stretch
    with interrupts off is one function, and the steps of the systems in
    PipeSpec.v and IpcMacchina.v interleave such stretches of any number of
    processes in any order.  [pipe_crea], which reads the directory and allocates
    with interrupts on, is split at each of these points, so that what it read can be
    stale when it writes.  The wake-up that ends [ipc_send], after the interrupts are
    on again, is in the step of the deposit.  In IpcMacchina.v the rest of the kernel acts too:
    processes are born (slot and pid in one step), end, are collected, the clock
    ticks.

    Physical memory is a function of frame and word in paging.c, whose tables the
    kernel reaches at their physical address; the TLB, CR3 and the interrupt flag
    have no counterpart.  What the disk cache, the swap and the scheduler do when
    memory is short is the interface [Scambio]; the theorems are for the swap off,
    where no entry changes while a function waits ([SenzaSwap]).

    Loops that are not structural carry fuel.  It is the length of the list
    walked, the number of slots, the bytes left or the pages left, which every
    turn consumes, and running out is an outcome of its own ([NoFuel],
    [Stanco]) that the theorems exclude: they state that a call returns.  In the
    code that reads through pointers an access outside the buffers is an outcome
    too ([Fuori]), excluded the same way.

    ** What is proved

    - Heap: any sequence of allocations of sound sizes, releases and writes of the
      clients keeps the layout; [kmalloc] adds exactly the block asked for, [kfree]
      removes exactly it and merges it with its free neighbours, the aligned pair
      round-trips.  The sizes that are not sound are those that need a region whose
      pages the code counts short, at the edge of a page, and those within 4131 bytes
      of 2^32, where the count wraps; what the code does there is proved too.
    - Pages: allocation takes free pages only and fails only when there are
      none, the search with skips is first fit, initialisation leaves a page free
      exactly when its last byte is in a usable entry of the memory map and it
      touches nothing that must be protected, an owner more or less is counted exactly, the table
      of excess owners is a finite map, back-shift included; the sizes of RAM for
      which the bitmap is large enough are characterised.
    - Pipes: in every interleaving in which the directory of the pipes does not
      overflow a pipe is a queue and no reader or writer sleeps through the event
      that should wake it, and every branch of the calls is described; the overflow
      that a stale size of the directory allows can be reached with 32 pipes, and
      not with fewer.
    - Messages: mailboxes refine bounded queues, the lines of senders stay well
      formed, a sender in line is not passed over, a dying process frees the
      senders of its line; names of services are unique among the living, and a
      user process cannot take the name of another.
    - Page tables: after any sequence of the steps of the machine of
      PagingMacchina.v (the calls of the kernel, with the conditions that their
      callers establish, and the writes of the programs) the owners that the allocator
      counts are the uses in the tables and those of the kernel, a directory or a table has
      one use, and a frame that a program may write has one user unless it is meant
      to be shared.  A program sees a page change by steps of its own, and by writes
      into a frame that it shares on purpose or that is a device's, only:
      fork gives the child what the parent sees, the first write of either is seen
      by nobody else, a space destroyed gives back each use once, and a failed fork
      leaves nothing behind.  Mapping and unmapping round-trip, a promised page
      comes as zeros, splitting a 4 MB page changes no translation.
    - Memory calls: over any sequence of calls of the threads of a program, among
      steps of others, no page exists above the border of its heap.  mmap fills its
      range and nothing else or, failing, leaves no entry changed (with MAP_FIXED
      the range is empty); munmap gives back one owner per page and undoes mmap;
      sbrk never loses a page in use; undoing mmap leaves at most its new page tables
      allocated; mprotect sets the rights asked for and never
      lets a program write a frame of another; mmio_map shows registers and never
      RAM; a page of the executable has the bytes of the file, and zeros after them.
      These are for ranges where the pages to take out are not a device's and, for
      munmap, end in the space of programs.  The lengths at which mmap and mprotect
      succeed without doing anything are characterised.
    - Boot disk: decoding undoes encoding, whatever the block only the expansion
      area is written, and the boot information names a disk only when its size
      and sum are right.
    - Long integers: modular exponentiation is [base ^ e mod m], bytes
      round-trip, operations on a prepared modulus are right up to the carry that
      they drop at 4096 bits.
    - Certificates: whatever the input, reading stays inside it and every field
      that is trusted is a slice of the signed part; what an encoder writes is
      read back; an RSA signature is accepted exactly when it is PKCS#1 v1.5; a
      chain exactly when it is good; a name exactly when it matches.
    - Digests: the pieces of a message, however it is cut, give the digest of FIPS
      180-4; the kernel's copy agrees with the library's; SHA-384 and SHA-512 are
      right below 2^32 - 128 bytes and read outside the message from there on.
    - Accounts: [sys_su] makes root exactly those with the right password who are
      administrators or whose uid field reads as 0, and stays inside its arrays and
      the strings of the caller whatever the files hold; it agrees with the library's check; an added account is the one found.
    - Modules: on 32 bits the loader stays inside the file and the image on any
      input, relocates as ELF says, and on error gives back all it took and leaves
      the table as it was; on 64 bits a file exists that makes it write outside.

    ** Interfaces

    [PageSource] (PmmSpec.v) is what the heap asks of the page allocator, with
    pmm.c as the instance.  [Pagine] and [PagineOk] (Pagine.v) are what paging.c asks
    of it, with the exact number of owners of every page that a client holds;
    PagineRif.v proves that pmm.c, with the heap that holds its table, keeps it, and PagineConti.v has a small allocator to try things on.  [Crypto] and [CryptoOk] (Excert.v) are the digests
    and the ECDSA check that excert.c is given: excert.h declares them and leaves
    their definition to the program that links it.  The theorems hold for any
    functions with digests of 32, 48 and 64 bytes; [crypto_exos] of ExcertSha.v is
    the instance with the digests of the repository.

    ** Not modelled

    Pages above 4 GB ([alta_*], 64-bit build only); the return of -EINTR after a
    sleep and of -ENOMEM from the growth of a waiter set in pipe.c, which change
    no state of the pipe; log output; what a refused certificate leaves in the
    output structure; the texts of excert_perche; in exuser.c the reading of
    passwords from a keyboard or a terminal, [prossimo_uid] and
    [c_e_qualche_utente]; in modulo.c the table of functions handed to a module;
    in paging.c the handler of page faults around the functions modelled, the
    mapping of the framebuffer for the kernel, the first directory, and all of the
    64-bit paging; of the memory calls sys_dma_alloc; in rdlz4.c the test for a null
    boot information.
    The scheduler, swap, block devices, file systems, the other system
    calls, elliptic curves, SHA-1, the rest of the C library, the window system and
    the programs are outside this library: they drive hardware, are assembly, or are
    clients of the parts above.  Signals, shared memory and the curves would be the
    next parts to model. *)

From stdpp Require Export base list gmap.
From Stdlib Require Export ZArith Lia.

Declare Scope exos_scope.
Delimit Scope exos_scope with exos.
Global Open Scope Z_scope.
Global Open Scope exos_scope.

Create HintDb exos.

(** ** Machine integers

    A [uint32_t] of the kernel is a [Z]; every C operation that can leave the
    range of the type is written with the wrap-around [u32]. *)

Definition W32 : Z := 4294967296.

Definition u32 (x : Z) : Z := x mod W32.

(** [unsigned long long], [uint64_t] *)
Definition u64 (x : Z) : Z := x mod (W32 * W32).

Notation "'is_u32' x" := (0 <= x < W32) (at level 10, only parsing) : exos_scope.

(** [ALIGN_UP(val, align)] of kernel.h on a [uint32_t]. *)
Definition align_up (val align : Z) : Z :=
  Z.land (u32 (val + (align - 1))) (u32 (Z.lnot (align - 1))).

(** The signed 32-bit result convention: an error [e] is returned as [-e]. *)
Definition EPERM : Z := 1.
Definition ENOENT : Z := 2.
Definition ESRCH : Z := 3.
Definition EINTR : Z := 4.
Definition EBADF : Z := 9.
Definition EAGAIN : Z := 11.
Definition ENOMEM : Z := 12.
Definition EBUSY : Z := 16.
Definition EEXIST : Z := 17.
Definition EINVAL : Z := 22.
Definition ENFILE : Z := 23.
Definition ENOSPC : Z := 28.
Definition EPIPE : Z := 32.
Definition ETIMEDOUT : Z := 110.

(** The end of the addresses of a program, on 32 bits. *)
Definition USER_SPACE_END : Z := 0xC0000000.

(** ** Outcomes of a kernel routine

    [Ok a] is a normal return, [Panic] is [kpanic] (it never returns) and
    [NoFuel] marks a loop whose fuel ran out: the theorems show that it is not
    reached. *)

Inductive run (A : Type) : Type :=
| Ok (a : A)
| Panic
| NoFuel.
Arguments Ok {A} a.
Arguments Panic {A}.
Arguments NoFuel {A}.

#[export] Instance run_ret : MRet run := @Ok.
#[export] Instance run_bind : MBind run := fun A B f m =>
  match m with Ok a => f a | Panic => Panic | NoFuel => NoFuel end.

Lemma Ok_inj {A} (a b : A) : Ok a = Ok b -> a = b.
Proof. by injection 1. Qed.

(** ** Tactics *)

(** Linear arithmetic with [/] and [mod] by constants. *)
Ltac zdm := Z.div_mod_to_equations; lia.

(** Case analysis on the boolean comparisons of the goal. *)
Ltac bcase :=
  match goal with
  | |- context [Z.eqb ?a ?b] => destruct (Z.eqb_spec a b)
  | |- context [Z.ltb ?a ?b] => destruct (Z.ltb_spec a b)
  | |- context [Z.leb ?a ?b] => destruct (Z.leb_spec a b)
  end.

(** The same on a hypothesis. *)
Ltac bcase_in H :=
  match type of H with
  | context [Z.eqb ?a ?b] => destruct (Z.eqb_spec a b)
  | context [Z.ltb ?a ?b] => destruct (Z.ltb_spec a b)
  | context [Z.leb ?a ?b] => destruct (Z.leb_spec a b)
  end.

(** ** Lemmas on machine integers *)

Lemma u32_small x : 0 <= x < W32 -> u32 x = x.
Proof. apply Z.mod_small. Qed.

Lemma u64_small x : 0 <= x < W32 * W32 -> u64 x = x.
Proof. apply Z.mod_small. Qed.

Lemma u32_range x : 0 <= u32 x < W32.
Proof. apply Z.mod_pos_bound. reflexivity. Qed.

Lemma u32_idem x : u32 (u32 x) = u32 x.
Proof. apply u32_small, u32_range. Qed.

Lemma u32_sub_wrap x : - W32 <= x < 0 -> u32 x = x + W32.
Proof. unfold u32, W32. intros. zdm. Qed.

Lemma u32_add_wrap x : W32 <= x < 2 * W32 -> u32 x = x - W32.
Proof. unfold u32, W32. intros. zdm. Qed.

(** Rewrites away every [u32] whose argument [lia] shows in range. *)
Ltac u32s :=
  repeat match goal with
  | |- context [u32 ?x] => rewrite (u32_small x) by (unfold W32 in *; lia)
  end.

Ltac u32s_in H :=
  repeat match type of H with
  | context [u32 ?x] => rewrite (u32_small x) in H by (unfold W32 in *; lia)
  end.

Lemma land_highmask x k :
  0 <= k <= 32 -> 0 <= x < W32 -> Z.land x (W32 - 2 ^ k) = x - x mod 2 ^ k.
Proof.
  intros Hk Hx.
  assert (Hp : 0 < 2 ^ k) by (apply Z.pow_pos_nonneg; lia).
  replace (x - x mod 2 ^ k) with (Z.shiftl (Z.shiftr x k) k).
  2:{ rewrite Z.shiftl_mul_pow2, Z.shiftr_div_pow2 by lia.
      pose proof (Z.div_mod x (2 ^ k)). lia. }
  replace (W32 - 2 ^ k) with (Z.shiftl (Z.ones (32 - k)) k).
  2:{ rewrite Z.shiftl_mul_pow2, Z.ones_equiv by lia.
      rewrite Z.mul_pred_l, <- Z.pow_add_r by lia.
      replace (32 - k + k) with 32 by lia. reflexivity. }
  apply Z.bits_inj'. intros n Hn. rewrite Z.land_spec, !Z.shiftl_spec by lia.
  destruct (Z.ltb_spec n k).
  { rewrite !(Z.testbit_neg_r _ (n - k)) by lia. apply andb_false_r. }
  rewrite Z.shiftr_spec by lia. replace (n - k + k) with n by lia.
  destruct (Z.ltb_spec n 32).
  - rewrite Z.ones_spec_low by lia. apply andb_true_r.
  - rewrite Z.ones_spec_high, andb_false_r by lia.
    symmetry. replace x with (x mod 2 ^ 32) by (apply Z.mod_small; exact Hx).
    apply Z.mod_pow2_bits_high. lia.
Qed.

(** [ALIGN_UP] rounds up to a multiple of a power of two, when the addition
    does not wrap. *)
Lemma align_up_spec v k :
  0 <= k < 32 -> 0 <= v -> v + (2 ^ k - 1) < W32 ->
  align_up v (2 ^ k) = (v + (2 ^ k - 1)) / 2 ^ k * 2 ^ k.
Proof.
  intros Hk Hv Hov. unfold align_up.
  assert (Hp : 0 < 2 ^ k) by (apply Z.pow_pos_nonneg; lia).
  assert (Hle : 2 ^ k < 2 ^ 32) by (apply Z.pow_lt_mono_r; lia).
  change (2 ^ 32) with W32 in Hle.
  rewrite (u32_small (v + _)) by lia.
  replace (Z.lnot (2 ^ k - 1)) with (- 2 ^ k) by (unfold Z.lnot; lia).
  rewrite u32_sub_wrap by lia.
  replace (- 2 ^ k + W32) with (W32 - 2 ^ k) by lia.
  rewrite land_highmask by lia.
  pose proof (Z.div_mod (v + (2 ^ k - 1)) (2 ^ k)). lia.
Qed.

Lemma align_up_8 v :
  0 <= v -> v + 7 < W32 -> align_up v 8 = (v + 7) / 8 * 8.
Proof. intros. change 8 with (2 ^ 3). rewrite align_up_spec; [reflexivity|..]; simpl; lia. Qed.

Lemma align_up_4096 v :
  0 <= v -> v + 4095 < W32 -> align_up v 4096 = (v + 4095) / 4096 * 4096.
Proof. intros. change 4096 with (2 ^ 12). rewrite align_up_spec; [reflexivity|..]; simpl; lia. Qed.

(** ** Lists *)

(** Every two elements of the list, in order, are related. *)
Fixpoint pairwise {A} (R : A -> A -> Prop) (l : list A) : Prop :=
  match l with
  | [] => True
  | x :: t => Forall (R x) t /\ pairwise R t
  end.

Lemma pairwise_app {A} (R : A -> A -> Prop) l1 l2 :
  pairwise R (l1 ++ l2) <->
  pairwise R l1 /\ pairwise R l2 /\ Forall (fun x => Forall (R x) l2) l1.
Proof.
  induction l1 as [|x l1 IH]; simpl.
  - split; [intros; auto using Forall_nil_2 | tauto].
  - rewrite Forall_app, Forall_cons, IH. tauto.
Qed.

Lemma pairwise_elem {A} (R : A -> A -> Prop) l x y :
  pairwise R l -> x ∈ l -> y ∈ l -> x = y \/ R x y \/ R y x.
Proof.
  induction l as [|a l IH]; simpl; intros HP Hx Hy; [by apply elem_of_nil in Hx|].
  destruct HP as [HF HP]. rewrite Forall_forall in HF.
  apply elem_of_cons in Hx as [->|Hx]; apply elem_of_cons in Hy as [->|Hy]; eauto.
Qed.

Lemma pairwise_perm {A} (R : A -> A -> Prop) l l' :
  (forall x y, R x y -> R y x) -> l ≡ₚ l' -> pairwise R l -> pairwise R l'.
Proof.
  intros HR HP. induction HP as [|x l l' HP IH|x y l|l1 l2 l3 HP1 IH1 HP2 IH2]; simpl; auto.
  - intros [HF H]. split; [|by apply IH]. by rewrite <- HP.
  - rewrite !Forall_cons. intros [[Hxy HF] [HF' H]]. auto.
Qed.

Lemma existsb_ext {A} (f g : A -> bool) l :
  (forall x, f x = g x) -> existsb f l = existsb g l.
Proof. intros H. induction l as [|x l IH]; simpl; [done|]. by rewrite H, IH. Qed.
