(* ===== verification/Mem.v ===== *)
(** * Byte-addressed memory

    The memory the kernel reaches at its physical addresses: a finite map from
    addresses to bytes, with the little-endian 32-bit accesses the compiled C
    code performs.  [same_on] is the frame relation: two memories agree on a
    set of addresses. *)

From S2P Require Import Prelude.

Definition read8 (m : gmap Z Z) (a : Z) : Z := (default 0 (m !! a)) mod 256.

Definition write8 (m : gmap Z Z) (a v : Z) : gmap Z Z := <[a := v mod 256]> m.

Definition read32 (m : gmap Z Z) (a : Z) : Z :=
  read8 m a + 256 * read8 m (a + 1) + 65536 * read8 m (a + 2) + 16777216 * read8 m (a + 3).

Definition write32 (m : gmap Z Z) (a v : Z) : gmap Z Z :=
  write8 (write8 (write8 (write8 m a v) (a + 1) (v / 256)) (a + 2) (v / 65536))
         (a + 3) (v / 16777216).

#[global] Arguments read8 : simpl never.
#[global] Arguments write8 : simpl never.
#[global] Arguments read32 : simpl never.
#[global] Arguments write32 : simpl never.

Definition same_on (P : Z -> Prop) (m m' : gmap Z Z) : Prop :=
  forall x, P x -> read8 m' x = read8 m x.

Lemma read8_range m a : 0 <= read8 m a < 256.
Proof. apply Z.mod_pos_bound. lia. Qed.

Lemma read8_write8 m a v b :
  read8 (write8 m a v) b = if b =? a then v mod 256 else read8 m b.
Proof.
  unfold read8, write8. rewrite lookup_insert. case_decide as E; subst.
  - rewrite Z.eqb_refl. simpl. apply Z.mod_mod. lia.
  - destruct (Z.eqb_spec b a); congruence.
Qed.

Lemma read32_range m a : 0 <= read32 m a < W32.
Proof.
  unfold read32, W32. pose proof (read8_range m a). pose proof (read8_range m (a + 1)).
  pose proof (read8_range m (a + 2)). pose proof (read8_range m (a + 3)). lia.
Qed.

Lemma read8_write32_ne m a v b :
  b < a \/ a + 4 <= b -> read8 (write32 m a v) b = read8 m b.
Proof.
  intros H. unfold write32. rewrite !read8_write8.
  repeat bcase; lia.
Qed.

Lemma read32_write32_eq m a v : read32 (write32 m a v) a = u32 v.
Proof.
  unfold read32, write32. rewrite !read8_write8.
  repeat bcase; try lia. unfold u32, W32. zdm.
Qed.

Lemma read32_same m m' a :
  same_on (fun x => a <= x < a + 4) m m' -> read32 m' a = read32 m a.
Proof. intros H. unfold read32. rewrite !H by lia. reflexivity. Qed.

Lemma read32_write32_ne m a v b :
  b + 4 <= a \/ a + 4 <= b -> read32 (write32 m a v) b = read32 m b.
Proof. intros H. apply read32_same. intros x Hx. apply read8_write32_ne. lia. Qed.

Lemma read32_write8_ne m a v b :
  b + 4 <= a \/ a + 1 <= b -> read32 (write8 m a v) b = read32 m b.
Proof.
  intros H. apply read32_same. intros x Hx. rewrite read8_write8.
  bcase; [lia | reflexivity].
Qed.

Lemma write32_comm m a v b w :
  a + 4 <= b \/ b + 4 <= a -> write32 (write32 m a v) b w = write32 (write32 m b w) a v.
Proof.
  intros H. apply map_eq. intros i. unfold write32, write8. rewrite !lookup_insert.
  repeat case_decide; try lia; reflexivity.
Qed.

Lemma same_on_refl P m : same_on P m m.
Proof. by intros x _. Qed.

Lemma same_on_trans P m1 m2 m3 : same_on P m1 m2 -> same_on P m2 m3 -> same_on P m1 m3.
Proof. intros H1 H2 x Hx. by rewrite H2, H1. Qed.

Lemma same_on_weaken (P Q : Z -> Prop) m m' :
  (forall x, Q x -> P x) -> same_on P m m' -> same_on Q m m'.
Proof. intros HPQ H x Hx. by apply H, HPQ. Qed.

Lemma same_on_write32 P m m' a v :
  same_on P m m' -> (forall x, P x -> x < a \/ a + 4 <= x) -> same_on P m (write32 m' a v).
Proof. intros H Hd x Hx. rewrite read8_write32_ne by eauto. by apply H. Qed.

Lemma same_on_write8 P m m' a v :
  same_on P m m' -> ~ P a -> same_on P m (write8 m' a v).
Proof.
  intros H Hd x Hx. rewrite read8_write8.
  destruct (Z.eqb_spec x a); [subst; contradiction | by apply H].
Qed.

#[export] Hint Resolve same_on_refl : exos.

(** Simplifies 32-bit reads through the writes, with the disjointness side
    conditions left to [lia]. *)
Ltac mem_simp :=
  repeat first
    [ rewrite read32_write32_eq
    | rewrite read32_write32_ne by lia ].
