(* ===== verification/Pmm.v ===== *)
(** * Physical memory manager: the page bitmap (kernel/mm/pmm.c)

    One bit per physical page, 1 = in use.  [Pmm] is the static state of the
    file in the 32-bit build; the bitmap and the reference bytes that follow it
    are bytes of one memory, as in the kernel, so that a bit whose byte falls
    past [g_bitmap_size] is a reference byte.  The file holds the allocation
    routines; the owners of a page are in PmmRef.v. *)

From S2P Require Import Prelude Mem.

Definition PAGE_SIZE : Z := 4096.
Definition USER_SPACE_BASE : Z := 0x4000000.
Definition PMM_PAGINE_4GB : Z := 0x100000.

Record Pmm : Type := mkPmm {
  pmem : gmap Z Z;
  g_bitmap : Z;
  g_total_pages : Z;
  g_free_pages : Z;
  g_used_pages : Z;
  g_bitmap_size : Z;
  g_rif : Z;
  g_rif_size : Z;
  g_last_alloc : Z;
  g_last_alloc_k : Z
}.

Definition set_pmem (v : gmap Z Z) (s : Pmm) : Pmm :=
  mkPmm v (g_bitmap s) (g_total_pages s) (g_free_pages s) (g_used_pages s)
        (g_bitmap_size s) (g_rif s) (g_rif_size s) (g_last_alloc s) (g_last_alloc_k s).

Definition set_counts (free used : Z) (s : Pmm) : Pmm :=
  mkPmm (pmem s) (g_bitmap s) (g_total_pages s) free used
        (g_bitmap_size s) (g_rif s) (g_rif_size s) (g_last_alloc s) (g_last_alloc_k s).

Definition set_last_alloc (v : Z) (s : Pmm) : Pmm :=
  mkPmm (pmem s) (g_bitmap s) (g_total_pages s) (g_free_pages s) (g_used_pages s)
        (g_bitmap_size s) (g_rif s) (g_rif_size s) v (g_last_alloc_k s).

Definition set_last_alloc_k (v : Z) (s : Pmm) : Pmm :=
  mkPmm (pmem s) (g_bitmap s) (g_total_pages s) (g_free_pages s) (g_used_pages s)
        (g_bitmap_size s) (g_rif s) (g_rif_size s) (g_last_alloc s) v.

(** ** The bitmap macros *)

Definition bit_of (page : Z) : Z := Z.shiftl 1 (page mod 8).

Definition BITMAP_SET (page : Z) (s : Pmm) : Pmm :=
  let a := g_bitmap s + page / 8 in
  set_pmem (write8 (pmem s) a (Z.lor (read8 (pmem s) a) (bit_of page))) s.

Definition BITMAP_CLR (page : Z) (s : Pmm) : Pmm :=
  let a := g_bitmap s + page / 8 in
  set_pmem (write8 (pmem s) a (Z.land (read8 (pmem s) a) (Z.lnot (bit_of page) mod 256))) s.

Definition BITMAP_TEST (page : Z) (s : Pmm) : bool :=
  negb (Z.land (read8 (pmem s) (g_bitmap s + page / 8)) (bit_of page) =? 0).

Definition addr_to_page (addr : Z) : Z := addr / PAGE_SIZE.

Definition page_to_addr (page : Z) : Z := u32 (page * PAGE_SIZE).

(** [BITMAP_SET(i); g_free_pages--; g_used_pages++;], the three statements
    every allocation performs on a page it takes. *)
Definition prendi (i : Z) (s : Pmm) : Pmm :=
  let s := BITMAP_SET i s in
  set_counts (u32 (g_free_pages s - 1)) (u32 (g_used_pages s + 1)) s.

(** ** Marking ranges *)

Fixpoint mark_used_loop (i : Z) (n : nat) (s : Pmm) : Pmm :=
  match n with
  | O => s
  | S n =>
      let s := if BITMAP_TEST i s then s
               else let s := BITMAP_SET i s in
                    set_counts (if 0 <? g_free_pages s then g_free_pages s - 1 else g_free_pages s)
                               (u32 (g_used_pages s + 1)) s in
      mark_used_loop (i + 1) n s
  end.

Definition pmm_mark_used (base_addr length : Z) (s : Pmm) : Pmm :=
  let page_start := addr_to_page base_addr in
  let page_end := addr_to_page (u32 (base_addr + length + PAGE_SIZE - 1)) in
  let page_end := if g_total_pages s <? page_end then g_total_pages s else page_end in
  mark_used_loop page_start (Z.to_nat (page_end - page_start)) s.

Fixpoint mark_free_loop (i : Z) (n : nat) (s : Pmm) : Pmm :=
  match n with
  | O => s
  | S n =>
      let s := if BITMAP_TEST i s then
                 let s := BITMAP_CLR i s in
                 set_counts (u32 (g_free_pages s + 1))
                            (if 0 <? g_used_pages s then g_used_pages s - 1 else g_used_pages s) s
               else s in
      mark_free_loop (i + 1) n s
  end.

Definition pmm_mark_free (base_addr length : Z) (s : Pmm) : Pmm :=
  let page_start := addr_to_page base_addr in
  let page_end := addr_to_page (u32 (base_addr + length)) in
  let page_end := if g_total_pages s <? page_end then g_total_pages s else page_end in
  mark_free_loop page_start (Z.to_nat (page_end - page_start)) s.

(** ** Allocation *)

(** The body of every [for (i = da; i < a; i++) if (!BITMAP_TEST(i)) ...]
    scan: the first free page, if any. *)
Fixpoint cerca_libera (i : Z) (n : nat) (s : Pmm) : option Z :=
  match n with
  | O => None
  | S n => if BITMAP_TEST i s then cerca_libera (i + 1) n s else Some i
  end.

Definition scan (da a : Z) (s : Pmm) : option Z := cerca_libera da (Z.to_nat (a - da)) s.

Definition pmm_limite_kernel (s : Pmm) : Z :=
  let limite := addr_to_page USER_SPACE_BASE in
  if g_total_pages s <? limite then g_total_pages s else limite.

Definition pmm_alloc_page (s : Pmm) : Z * Pmm :=
  let fascia := pmm_limite_kernel s in
  if g_free_pages s =? 0 then (0, s) else
  let start := if g_last_alloc s <? fascia then fascia else g_last_alloc s in
  match scan start (g_total_pages s) s with
  | Some i => (page_to_addr i, set_last_alloc (i + 1) (prendi i s))
  | None =>
  match scan fascia start s with
  | Some i => (page_to_addr i, set_last_alloc (i + 1) (prendi i s))
  | None =>
  match scan 0 fascia s with
  | Some i => (page_to_addr i, prendi i s)
  | None => (0, s)
  end end end.

Definition pmm_alloc_page_kernel (s : Pmm) : Z * Pmm :=
  let limite := pmm_limite_kernel s in
  match scan (g_last_alloc_k s) limite s with
  | Some i => (page_to_addr i, set_last_alloc_k (i + 1) (prendi i s))
  | None =>
  match scan 0 (Z.min (g_last_alloc_k s) limite) s with
  | Some i => (page_to_addr i, set_last_alloc_k (i + 1) (prendi i s))
  | None => (0, s)
  end end.

(** The inner loop of a contiguous search: from [j], how far the free pages
    go, stopping at [fine]; it returns the final [j]. *)
Fixpoint corsa (j : Z) (n : nat) (s : Pmm) : Z :=
  match n with
  | O => j
  | S n => if BITMAP_TEST j s then j else corsa (j + 1) n s
  end.

(** The outer loop [for (i = da; i <= a - count; i++)] with its [i = j] skip.
    [consecutive] is [j - i]. *)
Fixpoint cerca_loop (i a count : Z) (fuel : nat) (s : Pmm) : option Z :=
  match fuel with
  | O => None
  | S fuel =>
      if i <=? a - count then
        if BITMAP_TEST i s then cerca_loop (i + 1) a count fuel s
        else
          let j := corsa (i + 1) (Z.to_nat (Z.min (i + count) a - (i + 1))) s in
          if j - i =? count then Some i else cerca_loop (j + 1) a count fuel s
      else None
  end.

Definition pmm_cerca_contigue (da a count : Z) (s : Pmm) : Z :=
  if (a <? count) || (a - count <? da) then a else
  default a (cerca_loop da a count (Z.to_nat (a - count - da + 1)) s).

(** [for (j = i; j < i + count; j++) { BITMAP_SET(j); ... }] *)
Fixpoint prendi_n (i : Z) (n : nat) (s : Pmm) : Pmm :=
  match n with
  | O => s
  | S n => prendi_n (i + 1) n (prendi i s)
  end.

Definition pmm_alloc_pages_kernel (count : Z) (s : Pmm) : Z * Pmm :=
  let limite := pmm_limite_kernel s in
  if count =? 0 then (0, s) else
  if count =? 1 then pmm_alloc_page_kernel s else
  if limite <? count then (0, s) else
  match cerca_loop 0 limite count (Z.to_nat (limite - count + 1)) s with
  | Some i => (page_to_addr i, prendi_n i (Z.to_nat count) s)
  | None => (0, s)
  end.

Definition pmm_alloc_pages (count : Z) (s : Pmm) : Z * Pmm :=
  let fascia := pmm_limite_kernel s in
  if count =? 0 then (0, s) else
  if count =? 1 then pmm_alloc_page s else
  if g_free_pages s <? count then (0, s) else
  let tetto := if PMM_PAGINE_4GB <? g_total_pages s then PMM_PAGINE_4GB else g_total_pages s in
  let i := pmm_cerca_contigue fascia tetto count s in
  if i =? tetto then
    let i := pmm_cerca_contigue 0 fascia count s in
    if i =? fascia then (0, s)
    else (page_to_addr i, prendi_n i (Z.to_nat count) s)
  else (page_to_addr i, prendi_n i (Z.to_nat count) s).

(** ** Queries *)

Definition pmm_is_page_free (addr : Z) (s : Pmm) : bool :=
  let page := addr_to_page addr in
  if g_total_pages s <=? page then false else negb (BITMAP_TEST page s).

Fixpoint region_loop (page : Z) (n : nat) (tot libere : Z) (s : Pmm) : Z * Z :=
  match n with
  | O => (tot, libere)
  | S n => region_loop (page + 1) n (u32 (tot + 1))
             (if BITMAP_TEST page s then libere else u32 (libere + 1)) s
  end.

Definition pmm_region_stat (base len : Z) (s : Pmm) : Z * Z :=
  let first := addr_to_page base in
  let last := addr_to_page (u32 (base + len - 1)) in
  if (len =? 0) || (g_total_pages s =? 0) then (0, 0) else
  let last := if g_total_pages s <=? last then g_total_pages s - 1 else last in
  region_loop first (Z.to_nat (last - first + 1)) 0 0 s.

(** ** Initialisation from the E820 map *)

Record E820Entry : Type := mkE820 {
  base_low : Z; base_high : Z; length_low : Z; length_high : Z; e820_type : Z
}.

Definition E820_TYPE_USABLE : Z := 1.
Definition RB_FIRMA : Z := 0x54424452.
Definition PAGING_FINESTRA_FISICA : Z := 0x3FF000.

(** The fields of [BootInfo] that [pmm_init] uses; [e820_map] is the array of
    [e820_count] entries at [e820_addr]. *)
Record BootInfo : Type := mkBootInfo {
  mem_lower : Z; mem_upper : Z;
  e820_addr : Z; e820_map : list E820Entry;
  rd_addr : Z; rd_byte : Z;
  rb_firma : Z; rb_addr : Z; rb_byte : Z
}.

Definition e820_count (info : BootInfo) : Z := Z.of_nat (length (e820_map info)).

Definition set_rb (addr byte : Z) (info : BootInfo) : BootInfo :=
  mkBootInfo (mem_lower info) (mem_upper info) (e820_addr info) (e820_map info)
             (rd_addr info) (rd_byte info) (rb_firma info) addr byte.

Definition has_e820 (info : BootInfo) : bool :=
  negb ((e820_count info =? 0) || (e820_addr info =? 0)).

(** Step 1: where RAM ends. *)
Definition max_step (max_addr : Z) (e : E820Entry) : Z :=
  if negb (e820_type e =? E820_TYPE_USABLE) then max_addr else
  if negb (base_high e =? 0) then max_addr else
  let fine := u32 (base_low e + length_low e) in
  if max_addr <? fine then fine else max_addr.

Definition pmm_max_addr (info : BootInfo) : Z :=
  if has_e820 info then fold_left max_step (e820_map info) 0
  else u32 (u32 (mem_lower info + mem_upper info) * 1024).

(** Steps 2 and 3: the sizes, the position of the two tables after the
    kernel, everything marked in use with one owner. *)
Fixpoint memset8 (a v : Z) (n : nat) (m : gmap Z Z) : gmap Z Z :=
  match n with
  | O => m
  | S n => memset8 (a + 1) v n (write8 m a v)
  end.

Definition pmm_tables (max_addr kernel_end : Z) (mem : gmap Z Z) : Pmm :=
  let max_addr := align_up max_addr PAGE_SIZE in
  let total := max_addr / PAGE_SIZE in
  let bitmap_size := align_up (total / 8) PAGE_SIZE in
  let bitmap := align_up kernel_end PAGE_SIZE in
  let rif := bitmap + bitmap_size in
  let rif_size := align_up total PAGE_SIZE in
  let mem := memset8 bitmap 255 (Z.to_nat bitmap_size) mem in
  let mem := memset8 rif 0 (Z.to_nat rif_size) mem in
  mkPmm mem bitmap total 0 total bitmap_size rif rif_size 0 0.

(** Step 4: only the usable regions are free. *)
Definition free_step (s : Pmm) (e : E820Entry) : Pmm :=
  if negb (e820_type e =? E820_TYPE_USABLE) then s else
  if negb (base_high e =? 0) then s else
  if length_low e =? 0 then s else pmm_mark_free (base_low e) (length_low e) s.

Definition pmm_free_ram (info : BootInfo) (s : Pmm) : Pmm :=
  if has_e820 info then fold_left free_step (e820_map info) s
  else
    let s := pmm_mark_free 0x1000 0x9F000 s in
    if 0 <? mem_upper info then pmm_mark_free 0x100000 (u32 (mem_upper info * 1024)) s else s.

(** Step 5: the regions that stay in use whatever the map says. *)
Definition pmm_protect (info : BootInfo) (kernel_start : Z) (s : Pmm) : Pmm :=
  let s := pmm_mark_used 0 PAGE_SIZE s in
  let s := pmm_mark_used 0x9FC00 0x60400 s in
  let s := pmm_mark_used kernel_start (u32 (g_rif s + g_rif_size s - kernel_start)) s in
  let s := pmm_mark_used 0x500 0x7B00 s in
  let s := pmm_mark_used 0x7E00 0x4300 s in
  let s := pmm_mark_used 0xC000 PAGE_SIZE s in
  let s := if negb (rd_addr info =? 0) && negb (rd_byte info =? 0)
           then pmm_mark_used (rd_addr info) (rd_byte info) s else s in
  let s := if (rb_firma info =? RB_FIRMA) && negb (rb_addr info =? 0) && negb (rb_byte info =? 0)
           then pmm_mark_used (rb_addr info) (rb_byte info) s else s in
  pmm_mark_used PAGING_FINESTRA_FISICA PAGE_SIZE s.

(** [kernel_start] and [kernel_end] are the linker's symbols; [mem] is the
    memory before the call. *)
Definition pmm_init (info : BootInfo) (kernel_start kernel_end : Z) (mem : gmap Z Z)
  : run (BootInfo * Pmm) :=
  let max_addr := pmm_max_addr info in
  if max_addr =? 0 then Panic else
  let s := pmm_tables max_addr kernel_end mem in
  let info := if (rb_firma info =? RB_FIRMA) && negb (rb_addr info =? 0) &&
                 (rb_addr info <? u32 (g_rif s + g_rif_size s))
              then set_rb 0 0 info else info in
  let s := pmm_free_ram info s in
  let s := pmm_protect info kernel_start s in
  Ok (info, set_last_alloc_k (addr_to_page 0x100000) (set_last_alloc (addr_to_page 0x100000) s)).
