(* ===== verification/PmmSpec.v ===== *)
(** * Physical memory manager: invariant and allocation theorems

    [pmm_wf] is the invariant of pmm.c: the counters agree with the bitmap, the
    bitmap covers all of RAM, page 0 is never free.  Every allocation keeps it,
    takes only free pages, and fails only when nothing suitable is free. *)

From S2P Require Import Prelude Mem Pmm.

(** ** The bitmap as a set of pages *)

Lemma bit_testbit b k : 0 <= b < 256 -> 0 <= k < 8 ->
  negb (Z.land b (Z.shiftl 1 k) =? 0) = Z.testbit b k.
Proof.
  intros Hb Hk. rewrite Z.shiftl_1_l.
  assert (H : Z.land b (2 ^ k) = if Z.testbit b k then 2 ^ k else 0).
  { apply Z.bits_inj'. intros n Hn. rewrite Z.land_spec, Z.pow2_bits_eqb by lia.
    destruct (Z.eqb_spec k n) as [->|Hne].
    - destruct (Z.testbit b n); simpl; [by rewrite Z.pow2_bits_true | by rewrite Z.testbit_0_l].
    - rewrite andb_false_r. destruct (Z.testbit b k); [|by rewrite Z.testbit_0_l].
      by rewrite Z.pow2_bits_false. }
  rewrite H. destruct (Z.testbit b k); [|reflexivity].
  destruct (Z.eqb_spec (2 ^ k) 0); [|reflexivity].
  pose proof (Z.pow_pos_nonneg 2 k). lia.
Qed.

Lemma test_testbit page s :
  BITMAP_TEST page s = Z.testbit (read8 (pmem s) (g_bitmap s + page / 8)) (page mod 8).
Proof.
  unfold BITMAP_TEST, bit_of. apply bit_testbit; [apply read8_range|].
  apply Z.mod_pos_bound; lia.
Qed.

Lemma testbit_mod256 x k : 0 <= k < 8 -> Z.testbit (x mod 256) k = Z.testbit x k.
Proof. intros. change 256 with (2 ^ 8). apply Z.mod_pow2_bits_low. lia. Qed.

Lemma test_write8 page q v s :
  BITMAP_TEST q (set_pmem (write8 (pmem s) (g_bitmap s + page / 8) v) s) =
  if q / 8 =? page / 8 then Z.testbit v (q mod 8) else BITMAP_TEST q s.
Proof.
  rewrite !test_testbit. simpl. rewrite read8_write8.
  destruct (Z.eqb_spec (q / 8) (page / 8)) as [E|E]; bcase; try lia; [|reflexivity].
  apply testbit_mod256, Z.mod_pos_bound. lia.
Qed.

Lemma page_split_eq p q : p / 8 = q / 8 -> p mod 8 = q mod 8 -> p = q.
Proof. intros. zdm. Qed.

Lemma test_set page q s :
  BITMAP_TEST q (BITMAP_SET page s) = (page =? q) || BITMAP_TEST q s.
Proof.
  unfold BITMAP_SET. rewrite test_write8.
  destruct (Z.eqb_spec (q / 8) (page / 8)) as [E|E].
  - rewrite Z.lor_spec, test_testbit, E. unfold bit_of.
    rewrite Z.shiftl_1_l, Z.pow2_bits_eqb by zdm. rewrite orb_comm. f_equal.
    destruct (Z.eqb_spec page q) as [->|]; [apply Z.eqb_refl|].
    apply Z.eqb_neq. intros F. apply page_split_eq in F; congruence.
  - destruct (Z.eqb_spec page q); [congruence|reflexivity].
Qed.

Lemma test_clr page q s :
  BITMAP_TEST q (BITMAP_CLR page s) = negb (page =? q) && BITMAP_TEST q s.
Proof.
  unfold BITMAP_CLR. rewrite test_write8.
  destruct (Z.eqb_spec (q / 8) (page / 8)) as [E|E].
  - rewrite Z.land_spec, test_testbit, E, testbit_mod256, Z.lnot_spec by zdm. unfold bit_of.
    rewrite Z.shiftl_1_l, Z.pow2_bits_eqb by zdm. rewrite andb_comm. f_equal. f_equal.
    destruct (Z.eqb_spec page q) as [->|]; [apply Z.eqb_refl|].
    apply Z.eqb_neq. intros F. apply page_split_eq in F; congruence.
  - destruct (Z.eqb_spec page q); [congruence|reflexivity].
Qed.

(** ** Counting the free pages *)

Fixpoint count_clear (f : Z -> bool) (n : nat) : Z :=
  match n with
  | O => 0
  | S n => count_clear f n + (if f (Z.of_nat n) then 0 else 1)
  end.

Definition free_count (s : Pmm) : Z :=
  count_clear (fun p => BITMAP_TEST p s) (Z.to_nat (g_total_pages s)).

Lemma count_clear_ext f g n :
  (forall p, 0 <= p < Z.of_nat n -> f p = g p) -> count_clear f n = count_clear g n.
Proof.
  induction n as [|n IH]; intros H; simpl; [reflexivity|].
  rewrite IH by (intros; apply H; lia). rewrite (H (Z.of_nat n)) by lia. reflexivity.
Qed.

Lemma count_clear_range f n : 0 <= count_clear f n <= Z.of_nat n.
Proof. induction n as [|n IH]; simpl; [lia|]. destruct (f _); lia. Qed.

Lemma count_clear_change f g n p :
  0 <= p < Z.of_nat n -> f p = false -> g p = true ->
  (forall q, q <> p -> g q = f q) -> count_clear g n = count_clear f n - 1.
Proof.
  induction n as [|n IH]; intros Hp Hf Hg He; [lia|]. simpl.
  destruct (Z.eq_dec p (Z.of_nat n)) as [->|Hne].
  - rewrite Hf, Hg, (count_clear_ext g f) by (intros; apply He; lia). lia.
  - rewrite IH, He by (auto; lia). lia.
Qed.

Lemma count_clear_zero f n :
  count_clear f n = 0 <-> (forall p, 0 <= p < Z.of_nat n -> f p = true).
Proof.
  induction n as [|n IH]; simpl; [split; [lia|reflexivity]|].
  pose proof (count_clear_range f n). split.
  - intros H0 p Hp. destruct (f (Z.of_nat n)) eqn:E; [|lia].
    destruct (Z.eq_dec p (Z.of_nat n)); [by subst|]. apply IH; lia.
  - intros H'. rewrite (H' (Z.of_nat n)) by lia. rewrite (proj2 IH); [lia|].
    intros; apply H'; lia.
Qed.

(** ** The invariant *)

Record pmm_wf (s : Pmm) : Prop := {
  wf_total : 0 < g_total_pages s <= PMM_PAGINE_4GB;
  wf_cover : g_total_pages s <= 8 * g_bitmap_size s;
  wf_rif : g_rif s = g_bitmap s + g_bitmap_size s;
  wf_free : g_free_pages s = free_count s;
  wf_used : g_used_pages s = g_total_pages s - g_free_pages s;
  wf_zero : BITMAP_TEST 0 s = true;
  wf_hint : 0 <= g_last_alloc s <= g_total_pages s;
  wf_hint_k : 0 <= g_last_alloc_k s <= g_total_pages s
}.

(** The pages from [i] to [i + n - 1] are all clear in the bitmap. *)
Definition all_free (i n : Z) (s : Pmm) : Prop :=
  forall q, i <= q < i + n -> BITMAP_TEST q s = false.

(** [s'] is [s] with exactly the pages from [i] to [i + n - 1] taken. *)
Record took (i n : Z) (s s' : Pmm) : Prop := {
  took_free : all_free i n s;
  took_bits : forall q, BITMAP_TEST q s' = (i <=? q) && (q <? i + n) || BITMAP_TEST q s;
  took_free_pages : g_free_pages s' = g_free_pages s - n;
  took_used_pages : g_used_pages s' = g_used_pages s + n;
  took_total : g_total_pages s' = g_total_pages s;
  took_tables : g_bitmap s' = g_bitmap s /\ g_bitmap_size s' = g_bitmap_size s /\ g_rif s' = g_rif s;
  took_mem : same_on (fun a => ~ (g_bitmap s <= a < g_bitmap s + g_bitmap_size s)) (pmem s) (pmem s')
}.

Lemma free_count_range s : pmm_wf s -> 0 <= free_count s <= g_total_pages s.
Proof.
  intros W. pose proof (count_clear_range (fun p => BITMAP_TEST p s) (Z.to_nat (g_total_pages s))).
  pose proof (wf_total s W). unfold free_count. lia.
Qed.

Lemma wf_page_nonzero s i : pmm_wf s -> BITMAP_TEST i s = false -> i <> 0.
Proof. intros W H ->. rewrite (wf_zero s W) in H. discriminate. Qed.

Lemma free_page_counted s i :
  pmm_wf s -> 0 <= i < g_total_pages s -> BITMAP_TEST i s = false -> 1 <= g_free_pages s.
Proof.
  intros W Hi Ht. rewrite (wf_free s W). pose proof (free_count_range s W).
  destruct (Z.eq_dec (free_count s) 0) as [E|]; [|lia].
  unfold free_count in E. rewrite count_clear_zero in E.
  rewrite (E i) in Ht by (pose proof (wf_total s W); lia). discriminate.
Qed.

Lemma prendi_took s i :
  pmm_wf s -> 0 <= i < g_total_pages s -> BITMAP_TEST i s = false ->
  took i 1 s (prendi i s).
Proof.
  intros W Hi Ht. pose proof (free_page_counted s i W Hi Ht).
  pose proof (wf_used s W). pose proof (wf_total s W). pose proof (free_count_range s W).
  pose proof (wf_free s W). unfold PMM_PAGINE_4GB in *.
  split; simpl.
  - intros q Hq. by replace q with i by lia.
  - intros q. change (BITMAP_TEST q (BITMAP_SET i s) = (i <=? q) && (q <? i + 1) || BITMAP_TEST q s).
    rewrite test_set. f_equal. repeat bcase; simpl; lia.
  - u32s. lia.
  - u32s. lia.
  - reflexivity.
  - done.
  - apply same_on_write8; [apply same_on_refl|]. pose proof (wf_cover s W). intros Hn. apply Hn. zdm.
Qed.

Lemma prendi_wf s i :
  pmm_wf s -> 0 <= i < g_total_pages s -> BITMAP_TEST i s = false -> pmm_wf (prendi i s).
Proof.
  intros W Hi Ht. pose proof (prendi_took s i W Hi Ht) as T. destruct T as [_ Tb Tf Tu Tt _ _].
  destruct W as [W1 W2 W3 W4 W5 W6 W7 W8]. split; try assumption.
  - rewrite Tf. unfold free_count. rewrite Tt.
    rewrite (count_clear_change (fun p => BITMAP_TEST p s) _ _ i); [unfold free_count in W4; lia|lia|done|..].
    + rewrite Tb. repeat bcase; simpl; lia.
    + intros q Hq. rewrite Tb. repeat bcase; simpl; try lia; reflexivity.
  - rewrite Tu, Tf, Tt. lia.
  - rewrite Tb. rewrite W6. apply orb_true_r.
Qed.

Lemma took_trans i n k s1 s2 s3 :
  0 <= n -> 0 <= k -> took i n s1 s2 -> took (i + n) k s2 s3 -> took i (n + k) s1 s3.
Proof.
  intros Hn Hk [F1 B1 C1 D1 E1 (X1 & X2 & X3) M1] [F2 B2 C2 D2 E2 (Y1 & Y2 & Y3) M2]. split; try lia.
  - intros q Hq. destruct (Z.lt_ge_cases q (i + n)); [apply F1; lia|].
    specialize (F2 q). rewrite B1 in F2. apply orb_false_iff in F2; [tauto|lia].
  - intros q. rewrite B2, B1. destruct (BITMAP_TEST q s1); rewrite ?orb_true_r, ?orb_false_r; [done|].
    repeat bcase; simpl; lia.
  - eapply same_on_trans; [exact M1|]. by rewrite <- X1, <- X2.
Qed.

Lemma took_zero i s : took i 0 s s.
Proof.
  split; try lia; try done. - intros q Hq; lia. - intros q. by replace ((i <=? q) && (q <? i + 0)) with false by lia.
Qed.

Lemma prendi_n_spec n : forall s i,
  pmm_wf s -> 0 <= i -> i + Z.of_nat n <= g_total_pages s -> all_free i (Z.of_nat n) s ->
  pmm_wf (prendi_n i n s) /\ took i (Z.of_nat n) s (prendi_n i n s).
Proof.
  induction n as [|n IH]; intros s i W Hi Ht Hf; cbn [prendi_n].
  { split; [done | apply took_zero]. }
  assert (Hti : BITMAP_TEST i s = false) by (apply Hf; lia).
  pose proof (prendi_took s i W ltac:(lia) Hti) as T1.
  pose proof (prendi_wf s i W ltac:(lia) Hti) as W1.
  destruct (IH (prendi i s) (i + 1) W1 ltac:(lia)) as [W2 T2].
  - rewrite (took_total _ _ _ _ T1). lia.
  - intros q Hq. rewrite (took_bits _ _ _ _ T1). rewrite (Hf q) by lia. repeat bcase; simpl; lia.
  - split; [exact W2|]. replace (Z.of_nat (S n)) with (1 + Z.of_nat n) by lia.
    eapply took_trans; eauto; lia.
Qed.

(** ** The scans *)

Lemma cerca_libera_Some n : forall i s p,
  cerca_libera i n s = Some p ->
  i <= p < i + Z.of_nat n /\ BITMAP_TEST p s = false /\
  (forall q, i <= q < p -> BITMAP_TEST q s = true).
Proof.
  induction n as [|n IH]; simpl; intros i s p H; [discriminate|].
  destruct (BITMAP_TEST i s) eqn:E.
  - apply IH in H as (H1 & H2 & H3). split; [lia|]. split; [done|].
    intros q Hq. destruct (Z.eq_dec q i); [by subst|]. apply H3; lia.
  - injection H as <-. split; [lia|]. split; [done|]. intros; lia.
Qed.

Lemma cerca_libera_None n : forall i s,
  cerca_libera i n s = None -> forall q, i <= q < i + Z.of_nat n -> BITMAP_TEST q s = true.
Proof.
  induction n as [|n IH]; simpl; intros i s H q Hq; [lia|].
  destruct (BITMAP_TEST i s) eqn:E; [|discriminate].
  destruct (Z.eq_dec q i); [by subst|]. apply (IH (i + 1)); [done|lia].
Qed.

Lemma scan_Some da a s p :
  scan da a s = Some p ->
  da <= p < a /\ BITMAP_TEST p s = false /\ (forall q, da <= q < p -> BITMAP_TEST q s = true).
Proof. intros H. apply cerca_libera_Some in H as (H1 & H2 & H3). split; [lia|]. tauto. Qed.

Lemma scan_None da a s :
  scan da a s = None -> forall q, da <= q < a -> BITMAP_TEST q s = true.
Proof. intros H q Hq. apply (cerca_libera_None _ _ _ H). lia. Qed.

Lemma set_last_alloc_wf s v :
  pmm_wf s -> 0 <= v <= g_total_pages s -> pmm_wf (set_last_alloc v s).
Proof. intros [] Hv. by split. Qed.

Lemma set_last_alloc_k_wf s v :
  pmm_wf s -> 0 <= v <= g_total_pages s -> pmm_wf (set_last_alloc_k v s).
Proof. intros [] Hv. by split. Qed.

Lemma limite_range s : pmm_wf s -> 0 <= pmm_limite_kernel s <= g_total_pages s.
Proof.
  intros W. pose proof (wf_total s W). unfold pmm_limite_kernel, addr_to_page, USER_SPACE_BASE, PAGE_SIZE.
  bcase; zdm.
Qed.

Lemma limite_le s : pmm_limite_kernel s <= USER_SPACE_BASE / PAGE_SIZE.
Proof. unfold pmm_limite_kernel, addr_to_page. bcase; lia. Qed.

Lemma page_to_addr_small s i :
  pmm_wf s -> 0 <= i < g_total_pages s -> page_to_addr i = i * PAGE_SIZE.
Proof.
  intros W Hi. unfold page_to_addr. pose proof (wf_total s W).
  unfold PMM_PAGINE_4GB, PAGE_SIZE in *. u32s. reflexivity.
Qed.

(** What a one-page allocation promises: it returns 0 and changes nothing, or
    it takes the page it returns. *)
Definition alloc1_ok (s : Pmm) (r : Z * Pmm) : Prop :=
  pmm_wf (snd r) /\
  ((fst r = 0 /\ snd r = s) \/
   exists i, 0 < i < g_total_pages s /\ fst r = i * PAGE_SIZE /\ took i 1 s (snd r)).

Lemma alloc1_ok_take s i s' :
  pmm_wf s -> 0 <= i < g_total_pages s -> BITMAP_TEST i s = false ->
  pmm_wf s' -> took i 1 s s' -> alloc1_ok s (page_to_addr i, s').
Proof.
  intros W Hi Ht W' T. split; [done|]. right. exists i.
  pose proof (wf_page_nonzero s i W Ht). split; [lia|]. split; [|done].
  by apply (page_to_addr_small s).
Qed.

Lemma took_set_last_alloc i n s s' v : took i n s s' -> took i n s (set_last_alloc v s').
Proof. intros []. by split. Qed.

Lemma took_set_last_alloc_k i n s s' v : took i n s s' -> took i n s (set_last_alloc_k v s').
Proof. intros []. by split. Qed.

(** A scan inside RAM that finds a page, followed by taking it; the next-fit
    hint is moved or not. *)
Lemma scan_take da a s i :
  pmm_wf s -> 0 <= da -> a <= g_total_pages s -> scan da a s = Some i ->
  0 <= i < g_total_pages s /\
  alloc1_ok s (page_to_addr i, prendi i s) /\
  alloc1_ok s (page_to_addr i, set_last_alloc (i + 1) (prendi i s)) /\
  alloc1_ok s (page_to_addr i, set_last_alloc_k (i + 1) (prendi i s)).
Proof.
  intros W Hda Ha H. apply scan_Some in H as (Hr & Ht & _).
  assert (Hi : 0 <= i < g_total_pages s) by lia.
  pose proof (prendi_wf s i W Hi Ht) as W'. pose proof (prendi_took s i W Hi Ht) as T.
  split; [done|]. split; [by apply alloc1_ok_take|].
  split; apply alloc1_ok_take; try done; auto using took_set_last_alloc, took_set_last_alloc_k.
  - apply set_last_alloc_wf; [done | simpl; lia].
  - apply set_last_alloc_k_wf; [done | simpl; lia].
Qed.

Lemma alloc1_ok_none s : pmm_wf s -> alloc1_ok s (0, s).
Proof. intros W. split; auto. Qed.

(** The start of the search of [pmm_alloc_page]. *)
Lemma start_range s :
  pmm_wf s ->
  let f := pmm_limite_kernel s in
  f <= (if g_last_alloc s <? f then f else g_last_alloc s) <= g_total_pages s.
Proof.
  intros W f. pose proof (limite_range s W). pose proof (wf_hint s W). subst f. bcase; lia.
Qed.

Lemma pmm_alloc_page_ok s : pmm_wf s -> alloc1_ok s (pmm_alloc_page s).
Proof.
  intros W. unfold pmm_alloc_page. pose proof (limite_range s W). pose proof (start_range s W) as Hs.
  simpl in Hs. destruct (Z.eqb_spec (g_free_pages s) 0); [by apply alloc1_ok_none|].
  repeat case_match; try (by apply alloc1_ok_none);
    edestruct scan_take as (_ & ? & ? & ?); eauto; lia.
Qed.

Lemma band_bound s i :
  pmm_wf s -> 0 <= i < pmm_limite_kernel s -> page_to_addr i + PAGE_SIZE <= USER_SPACE_BASE.
Proof.
  intros W Hi. pose proof (limite_range s W). pose proof (limite_le s).
  rewrite (page_to_addr_small s) by (auto; lia). unfold USER_SPACE_BASE, PAGE_SIZE in *. zdm.
Qed.

Lemma pmm_alloc_page_kernel_ok s :
  pmm_wf s -> alloc1_ok s (pmm_alloc_page_kernel s) /\
  fst (pmm_alloc_page_kernel s) + PAGE_SIZE <= USER_SPACE_BASE.
Proof.
  intros W. unfold pmm_alloc_page_kernel. pose proof (limite_range s W). pose proof (wf_hint_k s W).
  repeat case_match; try (split; [by apply alloc1_ok_none | by vm_compute]).
  all: split; [edestruct scan_take as (_ & _ & _ & ?); eauto; lia|].
  all: apply (band_bound s); [done|].
  all: match goal with H : scan _ _ _ = Some _ |- _ => apply scan_Some in H as (? & _) end; lia.
Qed.

(** The scans together cover all of RAM: the allocation fails only when every
    page is in use. *)
Lemma scan_addr_nonzero da a s i :
  pmm_wf s -> 0 <= da -> a <= g_total_pages s -> scan da a s = Some i -> page_to_addr i <> 0.
Proof.
  intros W Hda Ha H. apply scan_Some in H as (Hr & Ht & _).
  rewrite (page_to_addr_small s) by (auto; lia).
  pose proof (wf_page_nonzero s i W Ht). unfold PAGE_SIZE. lia.
Qed.

Lemma pmm_alloc_page_fails s :
  pmm_wf s -> fst (pmm_alloc_page s) = 0 ->
  forall q, 0 <= q < g_total_pages s -> BITMAP_TEST q s = true.
Proof.
  intros W. unfold pmm_alloc_page. pose proof (limite_range s W). pose proof (start_range s W) as Hs.
  simpl in Hs. destruct (Z.eqb_spec (g_free_pages s) 0) as [E0|_].
  { intros _ q Hq. rewrite (wf_free s W) in E0. unfold free_count in E0.
    rewrite count_clear_zero in E0. apply E0. lia. }
  set (st := if g_last_alloc s <? _ then _ else _) in *.
  destruct (scan st (g_total_pages s) s) eqn:E1;
    [intros F; exfalso; eapply (scan_addr_nonzero st); eauto; lia|].
  destruct (scan (pmm_limite_kernel s) st s) eqn:E2;
    [intros F; exfalso; eapply (scan_addr_nonzero (pmm_limite_kernel s) st); eauto; lia|].
  destruct (scan 0 (pmm_limite_kernel s) s) eqn:E3;
    [intros F; exfalso; eapply (scan_addr_nonzero 0); eauto; lia|].
  intros _ q Hq.
  destruct (Z.lt_ge_cases q (pmm_limite_kernel s)); [apply (scan_None _ _ _ E3); lia|].
  destruct (Z.lt_ge_cases q st); [apply (scan_None _ _ _ E2); lia | apply (scan_None _ _ _ E1); lia].
Qed.

(** The kernel band is served last: a page below it is handed out only when
    every page above it is in use. *)
Lemma pmm_alloc_page_band_last s :
  pmm_wf s -> 0 < fst (pmm_alloc_page s) < pmm_limite_kernel s * PAGE_SIZE ->
  forall q, pmm_limite_kernel s <= q < g_total_pages s -> BITMAP_TEST q s = true.
Proof.
  intros W. unfold pmm_alloc_page. pose proof (limite_range s W). pose proof (start_range s W) as Hs.
  simpl in Hs. destruct (Z.eqb_spec (g_free_pages s) 0) as [E0|_]; [simpl; lia|].
  set (st := if g_last_alloc s <? _ then _ else _) in *.
  assert (HA : forall da a i, pmm_limite_kernel s <= da -> a <= g_total_pages s ->
             scan da a s = Some i -> pmm_limite_kernel s * PAGE_SIZE <= page_to_addr i).
  { intros da a i Hda Ha Hsc. apply scan_Some in Hsc as (Hr & _).
    rewrite (page_to_addr_small s) by (auto; lia). unfold PAGE_SIZE. lia. }
  destruct (scan st (g_total_pages s) s) eqn:E1; [apply HA in E1; simpl; lia|].
  destruct (scan (pmm_limite_kernel s) st s) eqn:E2; [apply HA in E2; simpl; lia|].
  intros _ q Hq.
  destruct (Z.lt_ge_cases q st); [apply (scan_None _ _ _ E2); lia | apply (scan_None _ _ _ E1); lia].
Qed.

(** ** Contiguous pages *)

Lemma corsa_spec n : forall j s,
  let j' := corsa j n s in
  j <= j' <= j + Z.of_nat n /\ (forall q, j <= q < j' -> BITMAP_TEST q s = false) /\
  (j' = j + Z.of_nat n \/ BITMAP_TEST j' s = true).
Proof.
  induction n as [|n IH]; intros j s; cbn [corsa].
  { split; [lia|]. split; [intros; lia|]. left; lia. }
  destruct (BITMAP_TEST j s) eqn:E.
  { split; [lia|]. split; [intros; lia|]. by right. }
  destruct (IH (j + 1) s) as (H1 & H2 & H3). split; [lia|]. split.
  - intros q Hq. destruct (Z.eq_dec q j); [by subst|]. apply H2. lia.
  - destruct H3 as [->|H3]; [left; lia | by right].
Qed.

(** One turn of the outer loop: the run starting at a free page [i] is long
    enough, or no run starting between [i] and the page [j] that stopped it
    can be. *)
Lemma corsa_turn i a count s :
  1 <= count -> i <= a - count -> BITMAP_TEST i s = false ->
  let j := corsa (i + 1) (Z.to_nat (Z.min (i + count) a - (i + 1))) s in
  if j - i =? count then all_free i count s
  else i < j /\ forall q, i <= q <= j -> ~ all_free q count s.
Proof.
  intros Hc Hi Ht j. destruct (corsa_spec (Z.to_nat (Z.min (i + count) a - (i + 1))) (i + 1) s)
    as (H1 & H2 & H3). fold j in H1, H2, H3.
  destruct (Z.eqb_spec (j - i) count) as [E|E].
  - intros q Hq. destruct (Z.eq_dec q i) as [->|]; [done|]. apply H2. lia.
  - assert (Hj : BITMAP_TEST j s = true) by (destruct H3 as [H3|H3]; [lia|done]).
    split; [lia|]. intros q Hq F. rewrite (F j) in Hj by lia. discriminate.
Qed.

(** The search with the skip finds the first run of [count] free pages, as the
    plain search over every start would. *)
Lemma cerca_loop_spec a count s : 1 <= count ->
  forall fuel i, a - count - i + 1 <= Z.of_nat fuel ->
  match cerca_loop i a count fuel s with
  | Some p => i <= p <= a - count /\ all_free p count s /\
              (forall q, i <= q < p -> ~ all_free q count s)
  | None => forall q, i <= q <= a - count -> ~ all_free q count s
  end.
Proof.
  intros Hc. induction fuel as [|fuel IH]; intros i Hf; cbn [cerca_loop].
  { intros q Hq. lia. }
  destruct (Z.leb_spec i (a - count)) as [Hi|Hi]; [|intros; lia].
  destruct (BITMAP_TEST i s) eqn:Ht.
  - assert (Hn : ~ all_free i count s) by (intros F; rewrite (F i) in Ht by lia; discriminate).
    specialize (IH (i + 1) ltac:(lia)). destruct (cerca_loop (i + 1) a count fuel s).
    + destruct IH as (H1 & H2 & H3). split; [lia|]. split; [done|]. intros q Hq.
      destruct (Z.eq_dec q i); [by subst|]. apply H3; lia.
    + intros q Hq. destruct (Z.eq_dec q i); [by subst|]. apply IH; lia.
  - pose proof (corsa_turn i a count s Hc Hi Ht) as HT. cbv zeta in HT |- *.
    set (j := corsa _ _ s) in *. destruct (Z.eqb_spec (j - i) count).
    { split; [lia|]. split; [done|]. intros; lia. }
    destruct HT as [Hij HT]. specialize (IH (j + 1) ltac:(lia)).
    destruct (cerca_loop (j + 1) a count fuel s).
    + destruct IH as (H1 & H2 & H3). split; [lia|]. split; [done|]. intros q Hq.
      destruct (Z.le_gt_cases q j); [apply HT; lia | apply H3; lia].
    + intros q Hq. destruct (Z.le_gt_cases q j); [apply HT; lia | apply IH; lia].
Qed.

(** What a contiguous allocation promises. *)
Definition allocn_ok (count : Z) (s : Pmm) (r : Z * Pmm) : Prop :=
  pmm_wf (snd r) /\
  ((fst r = 0 /\ snd r = s) \/
   exists i, 0 < i /\ i + count <= g_total_pages s /\
     fst r = i * PAGE_SIZE /\ took i count s (snd r)).

Lemma allocn_ok_take count s i :
  pmm_wf s -> 1 <= count -> 0 <= i -> i + count <= g_total_pages s -> all_free i count s ->
  allocn_ok count s (page_to_addr i, prendi_n i (Z.to_nat count) s).
Proof.
  intros W Hc Hi Ht Hf.
  assert (Hnz : i <> 0) by (apply (wf_page_nonzero s i W), Hf; lia).
  destruct (prendi_n_spec (Z.to_nat count) s i) as [W' T]; try done; try lia.
  { by rewrite Z2Nat.id by lia. }
  rewrite Z2Nat.id in T by lia. split; [done|]. right. exists i.
  split; [lia|]. split; [lia|]. split; [|done]. apply (page_to_addr_small s); [done|lia].
Qed.

Lemma alloc1_allocn s r : alloc1_ok s r -> allocn_ok 1 s r.
Proof.
  intros [W [H|(i & H1 & H2 & H3)]]; split; auto.
  right. exists i. split; [lia|]. split; [lia|]. by split.
Qed.

Lemma pmm_alloc_pages_kernel_ok count s :
  pmm_wf s -> 0 <= count -> allocn_ok count s (pmm_alloc_pages_kernel count s).
Proof.
  intros W Hc. unfold pmm_alloc_pages_kernel. pose proof (limite_range s W) as HL.
  destruct (Z.eqb_spec count 0); [split; auto|].
  destruct (Z.eqb_spec count 1) as [->|]; [apply alloc1_allocn, (pmm_alloc_page_kernel_ok s W)|].
  destruct (Z.ltb_spec (pmm_limite_kernel s) count); [split; auto|].
  pose proof (cerca_loop_spec (pmm_limite_kernel s) count s ltac:(lia)
    (Z.to_nat (pmm_limite_kernel s - count + 1)) 0 ltac:(lia)) as H'.
  destruct (cerca_loop _ _ _ _ _) as [p|]; [|split; auto].
  destruct H' as (H1 & H2 & _). apply allocn_ok_take; auto; lia.
Qed.

Lemma pmm_alloc_pages_kernel_band count s :
  pmm_wf s -> 1 <= count -> fst (pmm_alloc_pages_kernel count s) <> 0 ->
  fst (pmm_alloc_pages_kernel count s) + count * PAGE_SIZE <= USER_SPACE_BASE.
Proof.
  intros W Hc. unfold pmm_alloc_pages_kernel. pose proof (limite_range s W) as HL.
  pose proof (limite_le s) as HU.
  destruct (Z.eqb_spec count 0); [simpl; lia|].
  destruct (Z.eqb_spec count 1) as [->|].
  { intros _. pose proof (proj2 (pmm_alloc_page_kernel_ok s W)). lia. }
  destruct (Z.ltb_spec (pmm_limite_kernel s) count); [simpl; lia|].
  pose proof (cerca_loop_spec (pmm_limite_kernel s) count s ltac:(lia)
    (Z.to_nat (pmm_limite_kernel s - count + 1)) 0 ltac:(lia)) as H'.
  destruct (cerca_loop _ _ _ _ _) as [p|]; [|simpl; lia].
  destruct H' as (H1 & _). intros _. simpl. rewrite (page_to_addr_small s) by (auto; lia).
  unfold USER_SPACE_BASE, PAGE_SIZE in *. zdm.
Qed.

Lemma cerca_contigue_spec da a count s :
  1 <= count -> 0 <= da ->
  let p := pmm_cerca_contigue da a count s in
  (p = a /\ forall q, da <= q <= a - count -> ~ all_free q count s) \/
  (da <= p <= a - count /\ all_free p count s /\
   forall q, da <= q < p -> ~ all_free q count s).
Proof.
  intros Hc Hda. unfold pmm_cerca_contigue.
  destruct (Z.ltb_spec a count); simpl; [left; split; [done|intros; lia]|].
  destruct (Z.ltb_spec (a - count) da); [left; split; [done|intros; lia]|].
  pose proof (cerca_loop_spec a count s Hc (Z.to_nat (a - count - da + 1)) da ltac:(lia)) as H'.
  destruct (cerca_loop _ _ _ _ _); simpl; auto.
Qed.

Lemma pmm_alloc_pages_ok count s :
  pmm_wf s -> 0 <= count -> allocn_ok count s (pmm_alloc_pages count s).
Proof.
  intros W Hc. unfold pmm_alloc_pages. pose proof (limite_range s W) as HL.
  pose proof (wf_total s W) as HT.
  destruct (Z.eqb_spec count 0); [split; auto|].
  destruct (Z.eqb_spec count 1) as [->|]; [apply alloc1_allocn, (pmm_alloc_page_ok s W)|].
  destruct (Z.ltb_spec (g_free_pages s) count); [split; auto|].
  destruct (Z.ltb_spec PMM_PAGINE_4GB (g_total_pages s)); [lia|].
  destruct (cerca_contigue_spec (pmm_limite_kernel s) (g_total_pages s) count s)
    as [[E H1]|(H1 & H2 & _)]; try lia.
  - rewrite E, Z.eqb_refl.
    destruct (cerca_contigue_spec 0 (pmm_limite_kernel s) count s)
      as [[E' H3]|(H3 & H4 & _)]; try lia.
    + rewrite E', Z.eqb_refl. split; auto.
    + destruct (Z.eqb_spec (pmm_cerca_contigue 0 (pmm_limite_kernel s) count s) (pmm_limite_kernel s)); [lia|].
      apply allocn_ok_take; auto; lia.
  - destruct (Z.eqb_spec (pmm_cerca_contigue (pmm_limite_kernel s) (g_total_pages s) count s)
      (g_total_pages s)); [lia|].
    apply allocn_ok_take; auto; lia.
Qed.

(** ** The interface the kernel heap relies on

    A source of contiguous pages below [USER_SPACE_BASE]: [busy] is the set of
    pages handed out, and an allocation returns 0 with nothing changed or the
    address of pages that were not busy and now are. *)

Class PageSource (P : Type) : Type := {
  ps_inv : P -> Prop;
  ps_busy : P -> Z -> Prop;
  ps_alloc : Z -> P -> Z * P;
  ps_alloc_ok : forall n p, ps_inv p -> 1 <= n ->
    ps_inv (snd (ps_alloc n p)) /\
    ((fst (ps_alloc n p) = 0 /\ forall k, ps_busy (snd (ps_alloc n p)) k <-> ps_busy p k) \/
     exists i, fst (ps_alloc n p) = i * PAGE_SIZE /\ 0 < i /\
       i * PAGE_SIZE + n * PAGE_SIZE <= USER_SPACE_BASE /\
       (forall k, i <= k < i + n -> ~ ps_busy p k) /\
       (forall k, ps_busy (snd (ps_alloc n p)) k <-> i <= k < i + n \/ ps_busy p k))
}.

(** A page outside RAM is never handed out: it counts as taken. *)
Definition pagina_presa (s : Pmm) (k : Z) : Prop :=
  BITMAP_TEST k s = true \/ ~ (0 <= k < g_total_pages s).

Lemma pmm_page_source_ok n s :
  pmm_wf s -> 1 <= n ->
  let r := pmm_alloc_pages_kernel n s in
  pmm_wf (snd r) /\
  ((fst r = 0 /\ forall k, pagina_presa (snd r) k <-> pagina_presa s k) \/
   exists i, fst r = i * PAGE_SIZE /\ 0 < i /\
     i * PAGE_SIZE + n * PAGE_SIZE <= USER_SPACE_BASE /\
     (forall k, i <= k < i + n -> ~ pagina_presa s k) /\
     (forall k, pagina_presa (snd r) k <-> i <= k < i + n \/ pagina_presa s k)).
Proof.
  intros W Hn. cbv zeta. unfold pagina_presa.
  destruct (pmm_alloc_pages_kernel_ok n s W ltac:(lia)) as [W' [[H0 H1]|H1]].
  { split; [done|]. left. split; [done|]. intros k. by rewrite H1. }
  destruct H1 as (i & Hi & Ht & Ha & [Tf Tb _ _ Tt _ _]). split; [done|]. right. exists i.
  split; [done|]. split; [done|]. split.
  - rewrite <- Ha. apply pmm_alloc_pages_kernel_band; auto. rewrite Ha. unfold PAGE_SIZE. lia.
  - split.
    + intros k Hk [F|F]; [|lia]. rewrite (Tf k) in F by lia. discriminate.
    + intros k. rewrite Tb, Tt, orb_true_iff, andb_true_iff, Z.leb_le, Z.ltb_lt. tauto.
Qed.

#[export] Instance pmm_page_source : PageSource Pmm := {
  ps_inv := pmm_wf;
  ps_busy := pagina_presa;
  ps_alloc := pmm_alloc_pages_kernel;
  ps_alloc_ok := pmm_page_source_ok
}.

(** The allocator as the heap sees it when the pages of [C] belong to others: they
    stay taken, and are not the heap's. *)
Lemma pmm_source_ok (C : Z -> Prop) n s :
  pmm_wf s /\ (forall k, C k -> pagina_presa s k) -> 1 <= n ->
  let r := pmm_alloc_pages_kernel n s in
  (pmm_wf (snd r) /\ (forall k, C k -> pagina_presa (snd r) k)) /\
  ((fst r = 0 /\ forall k, pagina_presa (snd r) k /\ ~ C k <-> pagina_presa s k /\ ~ C k) \/
   exists i, fst r = i * PAGE_SIZE /\ 0 < i /\
     i * PAGE_SIZE + n * PAGE_SIZE <= USER_SPACE_BASE /\
     (forall k, i <= k < i + n -> ~ (pagina_presa s k /\ ~ C k)) /\
     (forall k, pagina_presa (snd r) k /\ ~ C k <-> i <= k < i + n \/ pagina_presa s k /\ ~ C k)).
Proof.
  intros [W HC] Hn. cbv zeta. destruct (pmm_page_source_ok n s W Hn) as [W' [[E H]|(i & E & Hi & Hu & Hf & H)]].
  - split; [split; [done | intros k Hk; apply H; auto]|]. left. split; [done|]. intros k. by rewrite H.
  - split; [split; [done | intros k Hk; apply H; auto]|]. right. exists i. split_and!; try done.
    + intros k Hk [Hp _]. by apply (Hf k).
    + intros k. rewrite H. split; [tauto|]. intros [Hk|]; [|tauto]. split; [by left|]. intros Ck. by apply (Hf k Hk), HC.
Qed.

Definition pmm_source (C : Z -> Prop) : PageSource Pmm := {|
  ps_inv s := pmm_wf s /\ forall k, C k -> pagina_presa s k;
  ps_busy s k := pagina_presa s k /\ ~ C k;
  ps_alloc := pmm_alloc_pages_kernel;
  ps_alloc_ok := pmm_source_ok C
|}.
