(* ===== verification/PmmInit.v ===== *)
(** * Physical memory manager: initialisation

    What [pmm_init] leaves: the invariant [pmm_wf], the regions the kernel must
    keep, and no free page outside the usable entries of the E820 map.  The
    size of the bitmap is computed by [g_total_pages / 8], rounded to a page;
    [cover_iff] says for which sizes of RAM that is enough. *)

From S2P Require Import Prelude Mem Pmm PmmSpec.

(** ** Counters and bitmap agree (the part of the invariant that holds from
    the first step on) *)

Record cnt_ok (s : Pmm) : Prop := {
  ck_total : 0 < g_total_pages s <= PMM_PAGINE_4GB;
  ck_free : g_free_pages s = free_count s;
  ck_used : g_used_pages s = g_total_pages s - g_free_pages s
}.

(** [s'] has the tables of [s]: only bits and counters changed. *)
Record same_tables (s s' : Pmm) : Prop := {
  st_total : g_total_pages s' = g_total_pages s;
  st_bitmap : g_bitmap s' = g_bitmap s;
  st_bsize : g_bitmap_size s' = g_bitmap_size s;
  st_rif : g_rif s' = g_rif s;
  st_rsize : g_rif_size s' = g_rif_size s
}.

#[export] Instance same_tables_refl : Reflexive same_tables.
Proof. by intros s. Qed.

#[export] Instance same_tables_trans : Transitive same_tables.
Proof. intros a b c [] []. split; congruence. Qed.

Lemma cnt_range s : cnt_ok s -> 0 <= g_free_pages s <= g_total_pages s.
Proof.
  intros [H1 H2 _]. pose proof (count_clear_range (fun p => BITMAP_TEST p s)
    (Z.to_nat (g_total_pages s))). rewrite H2. unfold free_count. lia.
Qed.

(** One page marked in use, or free, by the loops of [pmm_mark_used] and
    [pmm_mark_free]. *)
Definition use1 (i : Z) (s : Pmm) : Pmm :=
  if BITMAP_TEST i s then s
  else let s := BITMAP_SET i s in
       set_counts (if 0 <? g_free_pages s then g_free_pages s - 1 else g_free_pages s)
                  (u32 (g_used_pages s + 1)) s.

Definition free1 (i : Z) (s : Pmm) : Pmm :=
  if BITMAP_TEST i s then
    let s := BITMAP_CLR i s in
    set_counts (u32 (g_free_pages s + 1))
               (if 0 <? g_used_pages s then g_used_pages s - 1 else g_used_pages s) s
  else s.

Lemma use1_ok s i :
  cnt_ok s -> 0 <= i < g_total_pages s ->
  cnt_ok (use1 i s) /\ same_tables s (use1 i s) /\
  forall q, BITMAP_TEST q (use1 i s) = (i =? q) || BITMAP_TEST q s.
Proof.
  intros C Hi. unfold use1. destruct (BITMAP_TEST i s) eqn:E.
  { split; [done|]. split; [reflexivity|]. intros q. destruct (Z.eqb_spec i q) as [->|]; simpl; [done|done]. }
  set (s1 := set_counts _ _ _).
  assert (HB : forall q, BITMAP_TEST q s1 = (i =? q) || BITMAP_TEST q s) by (intros q; apply (test_set i q s)).
  assert (HC : free_count s1 = free_count s - 1).
  { unfold free_count. apply (count_clear_change _ _ _ i); [simpl; lia|done|by rewrite HB, Z.eqb_refl|].
    intros q Hq. rewrite HB. destruct (Z.eqb_spec i q); [congruence|done]. }
  pose proof (cnt_range s C) as HR. destruct C as [C1 C2 C3].
  assert (HP : 0 < free_count s).
  { pose proof (count_clear_range (fun p => BITMAP_TEST p s1) (Z.to_nat (g_total_pages s1))) as HR1.
    unfold free_count in HC |- *. lia. }
  split; [|split; [by split | done]].
  unfold PMM_PAGINE_4GB in C1. split; [done| |]; simpl; destruct (Z.ltb_spec 0 (g_free_pages s)); try lia.
  u32s. lia.
Qed.

Lemma free1_ok s i :
  cnt_ok s -> 0 <= i < g_total_pages s ->
  cnt_ok (free1 i s) /\ same_tables s (free1 i s) /\
  forall q, BITMAP_TEST q (free1 i s) = negb (i =? q) && BITMAP_TEST q s.
Proof.
  intros C Hi. unfold free1. destruct (BITMAP_TEST i s) eqn:E.
  2:{ split; [done|]. split; [reflexivity|]. intros q. destruct (Z.eqb_spec i q) as [->|]; simpl; [done|done]. }
  set (s1 := set_counts _ _ _).
  assert (HB : forall q, BITMAP_TEST q s1 = negb (i =? q) && BITMAP_TEST q s) by (intros q; apply (test_clr i q s)).
  assert (HC : free_count s = free_count s1 - 1).
  { unfold free_count. apply (count_clear_change _ _ _ i); [simpl; lia| |done|].
    - by rewrite HB, Z.eqb_refl.
    - intros q Hq. rewrite HB. destruct (Z.eqb_spec i q); [congruence|done]. }
  pose proof (cnt_range s C) as HR. destruct C as [C1 C2 C3].
  pose proof (count_clear_range (fun p => BITMAP_TEST p s1) (Z.to_nat (g_total_pages s1))) as HR1.
  unfold free_count in HC. fold (free_count s1) in HC, HR1. fold (free_count s) in HC. simpl in HR1.
  split; [|split; [by split | done]].
  unfold PMM_PAGINE_4GB in C1.
  split; [done| |]; simpl; destruct (Z.ltb_spec 0 (g_used_pages s)); u32s; lia.
Qed.

Lemma mark_used_loop_ok n : forall s i,
  cnt_ok s -> 0 <= i -> i + Z.of_nat n <= g_total_pages s ->
  let s' := mark_used_loop i n s in
  cnt_ok s' /\ same_tables s s' /\
  forall q, BITMAP_TEST q s' = (i <=? q) && (q <? i + Z.of_nat n) || BITMAP_TEST q s.
Proof.
  induction n as [|n IH]; intros s i C Hi Hn; cbn [mark_used_loop].
  { split; [done|]. split; [reflexivity|]. intros q. repeat bcase; simpl; try done; lia. }
  destruct (use1_ok s i C ltac:(lia)) as (C1 & T1 & B1).
  destruct (IH (use1 i s) (i + 1) C1 ltac:(lia)) as (C2 & T2 & B2).
  { rewrite (st_total _ _ T1). lia. }
  split; [exact C2|]. split; [by etrans|]. intros q. etrans; [apply B2|]. rewrite B1.
  destruct (BITMAP_TEST q s); rewrite ?orb_true_r, ?orb_false_r; [done|].
  repeat bcase; simpl; try done; lia.
Qed.

Lemma mark_free_loop_ok n : forall s i,
  cnt_ok s -> 0 <= i -> i + Z.of_nat n <= g_total_pages s ->
  let s' := mark_free_loop i n s in
  cnt_ok s' /\ same_tables s s' /\
  forall q, BITMAP_TEST q s' = negb ((i <=? q) && (q <? i + Z.of_nat n)) && BITMAP_TEST q s.
Proof.
  induction n as [|n IH]; intros s i C Hi Hn; cbn [mark_free_loop].
  { split; [done|]. split; [reflexivity|]. intros q. repeat bcase; simpl; try done; lia. }
  destruct (free1_ok s i C ltac:(lia)) as (C1 & T1 & B1).
  destruct (IH (free1 i s) (i + 1) C1 ltac:(lia)) as (C2 & T2 & B2).
  { rewrite (st_total _ _ T1). lia. }
  split; [exact C2|]. split; [by etrans|]. intros q. etrans; [apply B2|]. rewrite B1.
  destruct (BITMAP_TEST q s); rewrite ?andb_true_r, ?andb_false_r; [|done].
  repeat bcase; simpl; try done; lia.
Qed.

(** The pages a [pmm_mark_used base len] covers: first byte to last byte,
    cut at the end of RAM. *)
Definition used_pages (base len : Z) (s : Pmm) (q : Z) : bool :=
  (base / PAGE_SIZE <=? q) && (q <? Z.min ((u32 (base + len + PAGE_SIZE - 1)) / PAGE_SIZE) (g_total_pages s)).

Lemma pmm_mark_used_ok s base len :
  cnt_ok s -> 0 <= base ->
  let s' := pmm_mark_used base len s in
  cnt_ok s' /\ same_tables s s' /\
  forall q, BITMAP_TEST q s' = used_pages base len s q || BITMAP_TEST q s.
Proof.
  intros C Hb. unfold pmm_mark_used, addr_to_page, used_pages. cbv zeta.
  set (e := u32 _ / PAGE_SIZE).
  set (e' := if g_total_pages s <? e then g_total_pages s else e).
  assert (He : e' = Z.min e (g_total_pages s)) by (subst e'; bcase; lia).
  set (b := base / PAGE_SIZE). rewrite <- He.
  assert (0 <= b) by (subst b; unfold PAGE_SIZE; zdm).
  destruct (Z.le_gt_cases e' b) as [Hle|Hgt].
  { replace (Z.to_nat (e' - b)) with 0%nat by lia. simpl.
    split; [done|]. split; [reflexivity|]. intros q. repeat bcase; simpl; try done; lia. }
  destruct (mark_used_loop_ok (Z.to_nat (e' - b)) s b C) as (C' & T' & B'); try lia.
  split; [exact C'|]. split; [exact T'|]. intros q. rewrite B'.
  replace (b + Z.of_nat (Z.to_nat (e' - b))) with e' by lia. done.
Qed.

Definition freed_pages (base len : Z) (s : Pmm) (q : Z) : bool :=
  (base / PAGE_SIZE <=? q) && (q <? Z.min ((u32 (base + len)) / PAGE_SIZE) (g_total_pages s)).

Lemma pmm_mark_free_ok s base len :
  cnt_ok s -> 0 <= base ->
  let s' := pmm_mark_free base len s in
  cnt_ok s' /\ same_tables s s' /\
  forall q, BITMAP_TEST q s' = negb (freed_pages base len s q) && BITMAP_TEST q s.
Proof.
  intros C Hb. unfold pmm_mark_free, addr_to_page, freed_pages. cbv zeta.
  set (e := u32 _ / PAGE_SIZE).
  set (e' := if g_total_pages s <? e then g_total_pages s else e).
  assert (He : e' = Z.min e (g_total_pages s)) by (subst e'; bcase; lia).
  set (b := base / PAGE_SIZE). rewrite <- He.
  assert (0 <= b) by (subst b; unfold PAGE_SIZE; zdm).
  destruct (Z.le_gt_cases e' b) as [Hle|Hgt].
  { replace (Z.to_nat (e' - b)) with 0%nat by lia. simpl.
    split; [done|]. split; [reflexivity|]. intros q. repeat bcase; simpl; try done; lia. }
  destruct (mark_free_loop_ok (Z.to_nat (e' - b)) s b C) as (C' & T' & B'); try lia.
  split; [exact C'|]. split; [exact T'|]. intros q. rewrite B'.
  replace (b + Z.of_nat (Z.to_nat (e' - b))) with e' by lia. done.
Qed.

(** ** Steps 1 to 3 *)

Lemma read8_memset8 v n : forall a m x,
  read8 (memset8 a v n m) x =
  if (a <=? x) && (x <? a + Z.of_nat n) then v mod 256 else read8 m x.
Proof.
  induction n as [|n IH]; intros a m x; cbn [memset8].
  { repeat bcase; simpl; try done; lia. }
  rewrite IH, read8_write8. repeat bcase; simpl; try done; lia.
Qed.

Lemma cover_iff total :
  0 <= total <= PMM_PAGINE_4GB ->
  total <= 8 * align_up (total / 8) PAGE_SIZE <->
  total mod 8 = 0 \/ (total / 8) mod PAGE_SIZE <> 0.
Proof.
  unfold PMM_PAGINE_4GB. intros H. change PAGE_SIZE with 4096.
  rewrite align_up_4096; unfold W32; [|zdm|zdm]. zdm.
Qed.

Definition pages_of (max_addr : Z) : Z := (max_addr + 4095) / 4096.

Lemma pmm_tables_ok max_addr kernel_end m :
  0 < max_addr -> max_addr + 4095 < W32 -> 0 <= kernel_end -> kernel_end + 4095 < W32 ->
  let total := pages_of max_addr in
  let s := pmm_tables max_addr kernel_end m in
  (total mod 8 = 0 \/ (total / 8) mod PAGE_SIZE <> 0) ->
  g_total_pages s = total /\ cnt_ok s /\ total <= 8 * g_bitmap_size s /\
  g_rif s = g_bitmap s + g_bitmap_size s /\
  (forall q, 0 <= q < total -> BITMAP_TEST q s = true) /\
  (forall q, 0 <= q < total -> read8 (pmem s) (g_rif s + q) = 0).
Proof.
  intros Hm Hov Hk Hkov total s Hc.
  assert (Htot : 0 < total <= PMM_PAGINE_4GB)
    by (subst total; unfold pages_of, PMM_PAGINE_4GB, W32 in *; zdm).
  assert (Ht : g_total_pages s = total).
  { subst s total. unfold pmm_tables, pages_of. simpl. change PAGE_SIZE with 4096.
    rewrite align_up_4096 by lia. by rewrite Z.div_mul by lia. }
  pose proof (proj2 (cover_iff total ltac:(lia)) Hc) as Hcov.
  assert (Hbs : g_bitmap_size s = align_up (total / 8) PAGE_SIZE) by (rewrite <- Ht; reflexivity).
  assert (Hrs : g_rif_size s = align_up total PAGE_SIZE) by (rewrite <- Ht; reflexivity).
  assert (Hr : total <= g_rif_size s).
  { rewrite Hrs. change PAGE_SIZE with 4096. unfold PMM_PAGINE_4GB, W32 in *.
    rewrite align_up_4096; unfold W32; [zdm|lia|lia]. }
  assert (HB : forall q, 0 <= q < total -> BITMAP_TEST q s = true).
  { intros q Hq. rewrite test_testbit. unfold s at 1, pmm_tables. cbn [pmem].
    rewrite !read8_memset8. change (g_bitmap s) with (align_up kernel_end PAGE_SIZE).
    fold (g_bitmap_size s). set (b := align_up kernel_end PAGE_SIZE).
    change (align_up (align_up max_addr PAGE_SIZE / PAGE_SIZE / 8) PAGE_SIZE) with (g_bitmap_size s).
    rewrite Hbs. set (A := align_up (total / 8) PAGE_SIZE) in *.
    assert (0 <= q / 8 < A) by (clearbody A; clear - Hq Hcov; zdm).
    replace (b + A <=? b + q / 8) with false by lia. simpl.
    rewrite Z2Nat.id by lia.
    rewrite (proj2 (Z.leb_le b (b + q / 8))), (proj2 (Z.ltb_lt (b + q / 8) (b + A))) by lia. simpl.
    change (255 mod 256) with (Z.ones 8). apply Z.ones_spec_low. zdm. }
  split; [done|]. split; [|split; [by rewrite Hbs|]; split; [reflexivity|]; split; [exact HB|]].
  - assert (Hz : free_count s = 0).
    { apply count_clear_zero. intros q Hq. apply HB. lia. }
    split; [by rewrite Ht | by rewrite Hz | subst s; simpl; lia].
  - intros q Hq. unfold s at 1, pmm_tables. cbn [pmem]. rewrite read8_memset8.
    change (align_up kernel_end PAGE_SIZE +
      align_up (align_up max_addr PAGE_SIZE / PAGE_SIZE / 8) PAGE_SIZE) with (g_rif s).
    change (align_up (align_up max_addr PAGE_SIZE / PAGE_SIZE) PAGE_SIZE) with (g_rif_size s).
    rewrite Z2Nat.id by lia.
    rewrite (proj2 (Z.leb_le (g_rif s) (g_rif s + q))),
      (proj2 (Z.ltb_lt (g_rif s + q) (g_rif s + g_rif_size s))) by lia. reflexivity.
Qed.

(** ** Steps 4 and 5 *)

(** An entry of the map that [pmm_init] frees, and the pages it frees. *)
Definition usable (e : E820Entry) : bool :=
  (e820_type e =? E820_TYPE_USABLE) && (base_high e =? 0) && negb (length_low e =? 0).

Lemma free_step_cases s e :
  free_step s e = if usable e then pmm_mark_free (base_low e) (length_low e) s else s.
Proof.
  unfold free_step, usable. destruct (e820_type e =? _), (base_high e =? 0), (length_low e =? 0); reflexivity.
Qed.

Lemma freed_pages_total base len s s' q :
  g_total_pages s' = g_total_pages s -> freed_pages base len s' q = freed_pages base len s q.
Proof. unfold freed_pages. by intros ->. Qed.

Lemma used_pages_total base len s s' q :
  g_total_pages s' = g_total_pages s -> used_pages base len s' q = used_pages base len s q.
Proof. unfold used_pages. by intros ->. Qed.

Lemma free_fold_ok l : forall s,
  cnt_ok s -> Forall (fun e => 0 <= base_low e) l ->
  let s' := fold_left free_step l s in
  cnt_ok s' /\ same_tables s s' /\
  forall q, BITMAP_TEST q s' =
    negb (existsb (fun e => usable e && freed_pages (base_low e) (length_low e) s q) l) && BITMAP_TEST q s.
Proof.
  induction l as [|e l IH]; intros s C HF; simpl; [by split|].
  apply Forall_cons in HF as [He HF].
  assert (H1 : cnt_ok (free_step s e) /\ same_tables s (free_step s e) /\
    forall q, BITMAP_TEST q (free_step s e) = negb (usable e && freed_pages (base_low e) (length_low e) s q) && BITMAP_TEST q s).
  { rewrite free_step_cases. destruct (usable e); [by apply pmm_mark_free_ok | by split]. }
  destruct H1 as (C1 & T1 & B1). destruct (IH (free_step s e) C1 HF) as (C2 & T2 & B2).
  split; [done|]. split; [by etrans|]. intros q. rewrite B2, B1.
  rewrite (existsb_ext _ (fun e => usable e && freed_pages (base_low e) (length_low e) s q))
    by (intros x; f_equal; apply freed_pages_total, (st_total _ _ T1)).
  by rewrite negb_orb, andb_assoc, (andb_comm (negb (existsb _ _))).
Qed.

Definition mark_range (s : Pmm) (r : Z * Z) : Pmm := pmm_mark_used (fst r) (snd r) s.

Lemma mark_fold_ok l : forall s,
  cnt_ok s -> Forall (fun r => 0 <= fst r) l ->
  let s' := fold_left mark_range l s in
  cnt_ok s' /\ same_tables s s' /\
  forall q, BITMAP_TEST q s' =
    existsb (fun r => used_pages (fst r) (snd r) s q) l || BITMAP_TEST q s.
Proof.
  induction l as [|r l IH]; intros s C HF; simpl.
  { split; [done|]. by split. }
  apply Forall_cons in HF as [Hr HF].
  destruct (pmm_mark_used_ok s (fst r) (snd r) C Hr) as (C1 & T1 & B1). fold (mark_range s r) in C1, T1, B1.
  destruct (IH (mark_range s r) C1 HF) as (C2 & T2 & B2).
  split; [done|]. split; [by etrans|]. intros q. rewrite B2, B1.
  rewrite (existsb_ext (fun x => used_pages x.1 x.2 (mark_range s r) q) (fun x => used_pages x.1 x.2 s q))
    by (intros x; apply used_pages_total, (st_total _ _ T1)).
  by rewrite orb_assoc, (orb_comm (existsb _ _)).
Qed.

(** The ranges of step 5, in the order of the code. *)
Definition protected_ranges (info : BootInfo) (kernel_start fine : Z) : list (Z * Z) :=
  [(0, PAGE_SIZE); (0x9FC00, 0x60400); (kernel_start, u32 (fine - kernel_start));
   (0x500, 0x7B00); (0x7E00, 0x4300); (0xC000, PAGE_SIZE)] ++
  (if negb (rd_addr info =? 0) && negb (rd_byte info =? 0) then [(rd_addr info, rd_byte info)] else []) ++
  (if (rb_firma info =? RB_FIRMA) && negb (rb_addr info =? 0) && negb (rb_byte info =? 0)
   then [(rb_addr info, rb_byte info)] else []) ++
  [(PAGING_FINESTRA_FISICA, PAGE_SIZE)].

#[local] Opaque pmm_mark_used.

Lemma pmm_protect_fold info kernel_start s :
  cnt_ok s ->
  pmm_protect info kernel_start s =
  fold_left mark_range (protected_ranges info kernel_start (g_rif s + g_rif_size s)) s.
Proof.
  intros C. unfold pmm_protect, protected_ranges. cbv zeta.
  destruct (pmm_mark_used_ok s 0 PAGE_SIZE C ltac:(lia)) as (C1 & T1 & _).
  destruct (pmm_mark_used_ok _ 0x9FC00 0x60400 C1 ltac:(lia)) as (_ & T2 & _).
  rewrite (st_rif _ _ T2), (st_rsize _ _ T2), (st_rif _ _ T1), (st_rsize _ _ T1).
  destruct (negb (rd_addr info =? 0) && negb (rd_byte info =? 0));
    destruct ((rb_firma info =? RB_FIRMA) && negb (rb_addr info =? 0) && negb (rb_byte info =? 0));
    cbn [app fold_left]; unfold mark_range; cbn [fst snd]; exact eq_refl.
Qed.

(** ** The whole initialisation *)

(** What [BootInfo] is assumed to hold: 32-bit fields, an E820 map, at least
    1 MB and less than 4 GB of RAM below 4 GB, a kernel and disks that end below
    4 GB. *)
Record boot_ok (info : BootInfo) (kernel_start kernel_end : Z) : Prop := {
  bo_map : has_e820 info = true;
  bo_entries : Forall (fun e => 0 <= base_low e < W32 /\ 0 <= length_low e < W32) (e820_map info);
  bo_ram : 0x100000 <= pmm_max_addr info;
  bo_4gb : pmm_max_addr info + 4095 < W32;
  bo_kernel : 0 <= kernel_start <= kernel_end;
  bo_end_4gb : kernel_end + 0x200000 < W32;
  bo_rd : 0 <= rd_addr info /\ 0 <= rd_byte info /\ rd_addr info + rd_byte info + 4095 < W32;
  bo_rb : 0 <= rb_addr info /\ 0 <= rb_byte info /\ rb_addr info + rb_byte info + 4095 < W32
}.

Definition pmm_init_info (info : BootInfo) (s : Pmm) : BootInfo :=
  if (rb_firma info =? RB_FIRMA) && negb (rb_addr info =? 0) &&
     (rb_addr info <? u32 (g_rif s + g_rif_size s))
  then set_rb 0 0 info else info.

(** The ranges are sound, whatever disks there are. *)
Lemma protected_ranges_sane info kernel_start fine :
  0 <= kernel_start < fine -> fine + 4095 < W32 ->
  0 <= rd_addr info /\ 0 <= rd_byte info /\ rd_addr info + rd_byte info + 4095 < W32 ->
  0 <= rb_addr info /\ 0 <= rb_byte info /\ rb_addr info + rb_byte info + 4095 < W32 ->
  Forall (fun r => 0 <= fst r /\ 0 < snd r /\ fst r + snd r + 4095 < W32) (protected_ranges info kernel_start fine).
Proof.
  intros Hk Hf Hd Hb. unfold protected_ranges, PAGING_FINESTRA_FISICA, PAGE_SIZE.
  rewrite (u32_small (fine - kernel_start)) by lia. apply Forall_app. split.
  { repeat (constructor; [simpl; unfold W32 in *; lia|]). constructor. }
  apply Forall_app. split; [|apply Forall_app; split].
  - destruct (Z.eqb_spec (rd_byte info) 0); rewrite ?andb_false_r; [constructor|]. destruct (_ && _); repeat constructor; simpl; lia.
  - destruct (Z.eqb_spec (rb_byte info) 0); rewrite ?andb_false_r; [constructor|]. destruct (_ && _); repeat constructor; simpl; lia.
  - repeat constructor; simpl; unfold W32; lia.
Qed.

(** The pages that are freed and kept, byte by byte. *)
Lemma freed_byte base len s q :
  0 <= base < W32 -> 0 <= len < W32 -> 0 <= q < g_total_pages s ->
  freed_pages base len s q = true <-> base + len < W32 /\ base <= q * PAGE_SIZE + 4095 < base + len.
Proof.
  intros Hb Hl Hq. unfold freed_pages, PAGE_SIZE. rewrite andb_true_iff, Z.leb_le, Z.ltb_lt, Z.min_glb_lt_iff.
  destruct (Z.lt_ge_cases (base + len) W32) as [H|H].
  - rewrite u32_small by lia. zdm.
  - rewrite u32_add_wrap by lia. split; [|lia]. unfold W32 in *. intros. zdm.
Qed.

Lemma used_byte base len s q :
  0 <= base -> 0 < len -> base + len + 4095 < W32 -> 0 <= q < g_total_pages s ->
  used_pages base len s q = true <-> exists a, a / PAGE_SIZE = q /\ base <= a < base + len.
Proof.
  intros Hb Hl Hw Hq. unfold used_pages, PAGE_SIZE. rewrite andb_true_iff, Z.leb_le, Z.ltb_lt, Z.min_glb_lt_iff, u32_small by lia.
  split.
  - intros H. exists (Z.max base (q * 4096)). zdm.
  - intros (a & <- & Ha). split; [zdm|]. split; [zdm | lia].
Qed.

Lemma tables_end max_addr kernel_end m :
  0 < max_addr -> max_addr + 4095 < W32 -> 0 <= kernel_end -> kernel_end + 0x200000 < W32 ->
  let s := pmm_tables max_addr kernel_end m in kernel_end < g_rif s + g_rif_size s /\ g_rif s + g_rif_size s + 4095 < W32.
Proof.
  intros H1 H2 H3 H4 s. unfold s, pmm_tables. cbn [g_rif g_rif_size]. change PAGE_SIZE with 4096.
  rewrite (align_up_4096 max_addr), Z.div_mul by lia. set (n := (max_addr + 4095) / 4096).
  assert (Hn : 0 < n <= 1048576) by (unfold n, W32 in *; zdm).
  rewrite !align_up_4096 by (unfold W32 in *; zdm). unfold W32 in *. zdm.
Qed.

(** A page is free exactly when its last byte is in a usable entry that begins
    and ends below 4 GB and none of its bytes is in a region to keep. *)
Definition pagina_libera (info : BootInfo) (regioni : list (Z * Z)) (q : Z) : Prop :=
  (exists e, e ∈ e820_map info /\ e820_type e = E820_TYPE_USABLE /\ base_high e = 0 /\ base_low e + length_low e < W32 /\
     base_low e <= q * PAGE_SIZE + 4095 < base_low e + length_low e) /\
  forall r a, r ∈ regioni -> a / PAGE_SIZE = q -> ~ (fst r <= a < fst r + snd r).

Lemma pmm_init_ok info kernel_start kernel_end m :
  boot_ok info kernel_start kernel_end ->
  let total := pages_of (pmm_max_addr info) in
  (total mod 8 = 0 \/ (total / 8) mod PAGE_SIZE <> 0) ->
  exists info' s, pmm_init info kernel_start kernel_end m = Ok (info', s) /\ pmm_wf s /\
    g_total_pages s = total /\ info' = pmm_init_info info s /\
    forall q, 0 <= q < total ->
      (BITMAP_TEST q s = false <-> pagina_libera info (protected_ranges info' kernel_start (g_rif s + g_rif_size s)) q).
Proof.
  intros B total Hc. destruct B as [B1 B2 B3 B4 B5 B7 B8 B9].
  unfold pmm_init. destruct (Z.eqb_spec (pmm_max_addr info) 0); [lia|]. cbv zeta.
  set (s0 := pmm_tables _ _ _). fold (pmm_init_info info s0). set (info' := pmm_init_info info s0).
  destruct (pmm_tables_ok (pmm_max_addr info) kernel_end m ltac:(lia) B4 ltac:(lia) ltac:(lia) Hc)
    as (Ht & C0 & Hcov & Hrif & HB & _). fold s0 in Ht, C0, Hcov, Hrif, HB. fold total in Ht, Hcov, HB.
  destruct (tables_end (pmm_max_addr info) kernel_end m ltac:(lia) B4 ltac:(lia) B7) as [E1 E2]. fold s0 in E1, E2.
  assert (Hmap : e820_map info' = e820_map info /\ has_e820 info' = true /\ rd_addr info' = rd_addr info /\ rd_byte info' = rd_byte info /\
                 0 <= rb_addr info' /\ 0 <= rb_byte info' /\ rb_addr info' + rb_byte info' + 4095 < W32).
  { subst info'. unfold pmm_init_info. destruct (_ && _); simpl; auto 10 with lia. }
  destruct Hmap as (Hm1 & Hm2 & Hm3 & Hm3' & Hm4).
  unfold pmm_free_ram. rewrite Hm2, Hm1.
  assert (B2' : Forall (fun e => 0 <= base_low e) (e820_map info)) by (eapply Forall_impl; [exact B2|]; simpl; lia).
  destruct (free_fold_ok (e820_map info) s0 C0 B2') as (C1 & T1 & F1).
  set (s1 := fold_left free_step _ _) in *.
  rewrite pmm_protect_fold by done.
  assert (Es1 : g_rif s1 + g_rif_size s1 = g_rif s0 + g_rif_size s0) by (by rewrite (st_rif _ _ T1), (st_rsize _ _ T1)).
  assert (HR : Forall (fun r => 0 <= fst r /\ 0 < snd r /\ fst r + snd r + 4095 < W32)
    (protected_ranges info' kernel_start (g_rif s1 + g_rif_size s1))).
  { rewrite Es1. apply protected_ranges_sane; rewrite ?Hm3, ?Hm3'; auto; lia. }
  destruct (mark_fold_ok (protected_ranges info' kernel_start (g_rif s1 + g_rif_size s1)) s1 C1) as (C2 & T2 & F2).
  { eapply Forall_impl; [exact HR|]. simpl. lia. }
  set (s2 := fold_left mark_range _ _) in *.
  set (s3 := set_last_alloc_k _ _). exists info', s3. split; [done|].
  assert (HT : g_total_pages s2 = total) by (rewrite (st_total _ _ T2), (st_total _ _ T1); done).
  assert (HT1 : g_total_pages s1 = total) by (rewrite (st_total _ _ T1); done).
  assert (Hbig : 256 <= total) by (subst total; unfold pages_of; zdm).
  split; [|split; [done|split]].
  - destruct C2 as [C2a C2b C2c].
    split; try done; simpl.
    + by rewrite (st_bsize _ _ T2), (st_bsize _ _ T1), HT.
    + by rewrite (st_rif _ _ T2), (st_rif _ _ T1), (st_bitmap _ _ T2), (st_bitmap _ _ T1),
        (st_bsize _ _ T2), (st_bsize _ _ T1).
    + change (BITMAP_TEST 0 s2 = true). rewrite F2. apply orb_true_iff. left. apply existsb_exists. exists (0, PAGE_SIZE). split; [by left|].
      unfold used_pages. simpl. change (u32 (0 + PAGE_SIZE + PAGE_SIZE - 1) / PAGE_SIZE) with 1. rewrite HT1. lia.
    + change (addr_to_page 0x100000) with 256. lia.
    + change (addr_to_page 0x100000) with 256. lia.
  - unfold info', pmm_init_info. change (g_rif s3) with (g_rif s2). change (g_rif_size s3) with (g_rif_size s2).
    by rewrite (st_rif _ _ T2), (st_rsize _ _ T2), (st_rif _ _ T1), (st_rsize _ _ T1).
  - intros q Hq. change (BITMAP_TEST q s3) with (BITMAP_TEST q s2). change (g_rif s3 + g_rif_size s3) with (g_rif s2 + g_rif_size s2).
    rewrite (st_rif _ _ T2), (st_rsize _ _ T2), F2, F1, (HB q Hq), andb_true_r, orb_false_iff, negb_false_iff.
    unfold pagina_libera.
    match goal with |- (?X /\ ?Y) <-> (?U /\ ?V) => cut ((Y <-> U) /\ (X <-> V)); [tauto|split] end.
    + rewrite existsb_exists. split; intros (e & He & H); exists e; (split; [by apply list_elem_of_In|]);
        destruct (proj1 (Forall_forall _ _) B2 e ltac:(first [exact He | by apply list_elem_of_In])) as [Hb1 Hb2].
      * apply andb_true_iff in H as [Hu H]. apply freed_byte in H; [|lia|lia|lia].
        unfold usable in Hu. apply andb_true_iff in Hu as [[Hu1 Hu2]%andb_true_iff _]. split_and!; lia.
      * destruct H as (H1 & H2 & H3 & H4). apply andb_true_iff. split; [|apply freed_byte; lia].
        unfold usable. rewrite H1, H2, Z.eqb_refl. cbn. apply negb_true_iff, Z.eqb_neq. lia.
    + rewrite Forall_forall in HR. split.
      * intros H r a Hr Ha Hin. assert (H' : existsb (fun r => used_pages r.1 r.2 s1 q) (protected_ranges info' kernel_start (g_rif s1 + g_rif_size s1)) = true); [|congruence].
        apply existsb_exists. exists r. split; [by apply list_elem_of_In|]. destruct (HR r Hr) as (? & ? & ?). apply used_byte; try lia. eauto.
      * intros H. apply not_true_is_false. intros (r & Hr & Hu)%existsb_exists. apply list_elem_of_In in Hr.
        destruct (HR r Hr) as (? & ? & ?). apply used_byte in Hu as (a & Ha & Hin); try lia. by apply (H r a).
Qed.

(** ** A small machine

    Eight megabytes of RAM with the usual hole below one megabyte, the kernel
    from one megabyte up: the concrete state of the examples. *)

Definition piccola : BootInfo :=
  mkBootInfo 640 7168 0x8000 [mkE820 0 0 0x9FC00 0 1; mkE820 0xF0000 0 0x10000 0 2; mkE820 0x100000 0 0x700000 0 1]
    0 0 0 0 0.

Definition dopo_init (r : run (BootInfo * Pmm)) : Pmm :=
  match r with Ok (_, s) => s | _ => mkPmm ∅ 0 0 0 0 0 0 0 0 0 end.

Definition pmm_piccola : Pmm := dopo_init (pmm_init piccola 0x100000 0x180000 ∅).

Lemma piccola_ok : boot_ok piccola 0x100000 0x180000.
Proof.
  assert (R : pmm_max_addr piccola = 0x800000) by (vm_compute; reflexivity). split; rewrite ?R; cbn; unfold W32.
  - done.
  - repeat constructor; cbn; lia.
  - lia.
  - lia.
  - lia.
  - lia.
  - lia.
  - lia.
Qed.

Lemma pmm_piccola_wf : pmm_wf pmm_piccola.
Proof.
  destruct (pmm_init_ok _ _ _ ∅ piccola_ok) as (i & s & E & W & _); [left; vm_compute; done|].
  unfold pmm_piccola. by rewrite E.
Qed.
