(* ===== verification/Oltre.v ===== *)
(** * References past the byte: the table [g_oltre] (kernel/mm/pmm.c)

    Pages with more than 256 owners keep the excess in an open-addressing hash
    table with linear probing and removal by shifting back.  The file models
    the four routines on the array and shows that they implement a finite map
    from pages to counts ([voce]), with the probe invariant [oltre_inv] that
    removal must restore. *)

From S2P Require Import Prelude.

(** [RifOltre]: (pagina, in_piu); an empty slot has [pagina = 0]. *)
Record Oltre : Type := mkOltre {
  g_oltre : list (Z * Z);
  g_oltre_usati : Z
}.

Definition g_oltre_posti (t : Oltre) : Z := Z.of_nat (length (g_oltre t)).

Definition slot (l : list (Z * Z)) (i : Z) : Z * Z := nth (Z.to_nat i) l (0, 0).

Definition pagina (l : list (Z * Z)) (i : Z) : Z := fst (slot l i).

Definition set_slot (l : list (Z * Z)) (i : Z) (v : Z * Z) : list (Z * Z) :=
  <[Z.to_nat i := v]> l.

(** [posti] is a power of two, so that [& (posti - 1)] is the index. *)
Definition oltre_casa (posti a : Z) : Z :=
  Z.land (Z.shiftr a 12 * 2654435761) (posti - 1).

Definition avanti (posti i : Z) : Z := Z.land (i + 1) (posti - 1).

(** The probe loop of [oltre_trova]: the index of [a], or of the first empty
    slot. *)
Fixpoint sonda (l : list (Z * Z)) (a i : Z) (fuel : nat) : run (option Z) :=
  match fuel with
  | O => NoFuel
  | S fuel =>
      if pagina l i =? 0 then Ok None else
      if pagina l i =? a then Ok (Some i)
      else sonda l a (avanti (Z.of_nat (length l)) i) fuel
  end.

Definition oltre_trova (t : Oltre) (a : Z) : run (option Z) :=
  if g_oltre_posti t =? 0 then Ok None else
  sonda (g_oltre t) a (oltre_casa (g_oltre_posti t) a) (length (g_oltre t)).

(** [while (g_oltre[j].pagina != 0) j = (j + 1) & (posti - 1);] *)
Fixpoint primo_vuoto (l : list (Z * Z)) (j : Z) (fuel : nat) : run Z :=
  match fuel with
  | O => NoFuel
  | S fuel => if pagina l j =? 0 then Ok j
              else primo_vuoto l (avanti (Z.of_nat (length l)) j) fuel
  end.

Definition metti (l : list (Z * Z)) (v : Z * Z) : run (list (Z * Z)) :=
  j ← primo_vuoto l (oltre_casa (Z.of_nat (length l)) (fst v)) (length l);
  Ok (set_slot l j v).

(** The loop of [oltre_cresci] that moves the old entries. *)
Fixpoint sposta (vecchia nuova : list (Z * Z)) : run (list (Z * Z)) :=
  match vecchia with
  | [] => Ok nuova
  | v :: vecchia =>
      if fst v =? 0 then sposta vecchia nuova
      else nuova ← metti nuova v; sposta vecchia nuova
  end.

(** [oltre_cresci]; [memoria] says whether [kmalloc] gave the new array. *)
Definition oltre_cresci (memoria : bool) (t : Oltre) : run (option Oltre) :=
  let posti := if g_oltre_posti t =? 0 then 64 else g_oltre_posti t * 2 in
  if negb memoria then Ok None else
  nuova ← sposta (g_oltre t) (replicate (Z.to_nat posti) (0, 0));
  Ok (Some (mkOltre nuova (g_oltre_usati t))).

(** [oltre_aggiungi]: [true] is the 0 of the code, [false] its -1. *)
Definition oltre_aggiungi (memoria : bool) (a : Z) (t : Oltre) : run (bool * Oltre) :=
  r ← oltre_trova t a;
  match r with
  | Some i =>
      let n := snd (slot (g_oltre t) i) in
      if n =? 0xFFFFFFFF then Ok (false, t)
      else Ok (true, mkOltre (set_slot (g_oltre t) i (a, n + 1)) (g_oltre_usati t))
  | None =>
      let stretta := g_oltre_posti t <? (g_oltre_usati t + 1) * 2 in
      t' ← (if stretta then oltre_cresci memoria t else Ok (Some t));
      match t' with
      | None => Ok (false, t)
      | Some t =>
          l ← metti (g_oltre t) (a, 1);
          Ok (true, mkOltre l (g_oltre_usati t + 1))
      end
  end.

(** [(i <= j) ? (k <= i || k > j) : (k <= i && k > j)]: the hole [i] lies on
    the way from [k] to [j]. *)
Definition in_mezzo (i j k : Z) : bool :=
  if i <=? j then (k <=? i) || (j <? k) else (k <=? i) && (j <? k).

(** The loop of [oltre_togli] that moves entries back into the hole [i]. *)
Fixpoint ricuci (l : list (Z * Z)) (i j : Z) (fuel : nat) : run (list (Z * Z)) :=
  match fuel with
  | O => NoFuel
  | S fuel =>
      let posti := Z.of_nat (length l) in
      if pagina l j =? 0 then Ok l else
      let k := oltre_casa posti (pagina l j) in
      if in_mezzo i j k then
        ricuci (set_slot (set_slot l i (slot l j)) j (0, 0)) j (avanti posti j) fuel
      else ricuci l i (avanti posti j) fuel
  end.

Definition oltre_togli (a : Z) (t : Oltre) : run (bool * Oltre) :=
  r ← oltre_trova t a;
  match r with
  | None => Ok (false, t)
  | Some i =>
      let n := u32 (snd (slot (g_oltre t) i) - 1) in
      if negb (n =? 0) then
        Ok (true, mkOltre (set_slot (g_oltre t) i (a, n)) (g_oltre_usati t))
      else
        l ← ricuci (set_slot (g_oltre t) i (0, n)) i (avanti (g_oltre_posti t) i) (length (g_oltre t));
        Ok (true, mkOltre l (g_oltre_usati t - 1))
  end.

(** ** Indices on the circle *)

Definition pow2 (N : Z) : Prop := exists k, 0 <= k /\ N = 2 ^ k.

(** Steps from [k] forward to [i]. *)
Definition dist (N k i : Z) : Z := if k <=? i then i - k else i - k + N.

Lemma pow2_pos N : pow2 N -> 0 < N.
Proof. intros (k & Hk & ->). apply Z.pow_pos_nonneg; lia. Qed.

Lemma land_pred_pow2 N x : pow2 N -> Z.land x (N - 1) = x mod N.
Proof.
  intros (k & Hk & ->). rewrite <- Z.land_ones by done. f_equal. rewrite Z.ones_equiv. lia.
Qed.

Lemma avanti_eq N i : pow2 N -> 0 <= i < N -> avanti N i = if i + 1 =? N then 0 else i + 1.
Proof.
  intros HN Hi. unfold avanti. rewrite land_pred_pow2 by done.
  destruct (Z.eqb_spec (i + 1) N) as [->|]; [apply Z.mod_same; lia | apply Z.mod_small; lia].
Qed.

Lemma casa_range N a : pow2 N -> 0 <= oltre_casa N a < N.
Proof.
  intros HN. unfold oltre_casa. rewrite land_pred_pow2 by done.
  apply Z.mod_pos_bound, pow2_pos, HN.
Qed.

Lemma dist_range N k i : 0 <= k < N -> 0 <= i < N -> 0 <= dist N k i < N.
Proof. unfold dist. intros. bcase; lia. Qed.

(** Decides facts about distances of indices in range. *)
Ltac cyc :=
  unfold dist in *;
  repeat match goal with
  | H : context [Z.leb ?a ?b] |- _ => destruct (Z.leb_spec a b)
  | |- context [Z.leb ?a ?b] => destruct (Z.leb_spec a b)
  end; lia.

Lemma dist_inj N k i j :
  0 <= k < N -> 0 <= i < N -> 0 <= j < N -> dist N k i = dist N k j -> i = j.
Proof. unfold dist. intros ???. repeat bcase; lia. Qed.

Lemma dist_avanti N k i :
  pow2 N -> 0 <= k < N -> 0 <= i < N -> dist N k i + 1 < N ->
  dist N k (avanti N i) = dist N k i + 1 /\ 0 <= avanti N i < N.
Proof.
  intros HN Hk Hi. rewrite avanti_eq by done. destruct (Z.eqb_spec (i + 1) N); unfold dist; repeat bcase; lia.
Qed.

Lemma avanti_range N i : pow2 N -> 0 <= i < N -> 0 <= avanti N i < N.
Proof. intros HN Hi. rewrite avanti_eq by done. bcase; lia. Qed.

Lemma dist_unavanti N k i :
  pow2 N -> 0 <= k < N -> 0 <= i < N -> dist N i k <> 0 ->
  dist N (avanti N i) k = dist N i k - 1.
Proof.
  intros HN Hk Hi. rewrite avanti_eq by done. destruct (Z.eqb_spec (i + 1) N); unfold dist; repeat bcase; lia.
Qed.

Lemma dist_self N i : dist N i i = 0.
Proof. unfold dist. bcase; lia. Qed.

Lemma in_mezzo_spec N i j k :
  0 <= i < N -> 0 <= j < N -> 0 <= k < N -> i <> j ->
  in_mezzo i j k = (dist N k i <? dist N k j).
Proof.
  unfold in_mezzo, dist. intros.
  destruct (Z.leb_spec k i), (Z.leb_spec k j), (Z.leb_spec i j), (Z.ltb_spec j k); simpl; bcase; lia.
Qed.

(** ** Slots *)

Lemma slot_set_eq l i v : 0 <= i < Z.of_nat (length l) -> slot (set_slot l i v) i = v.
Proof.
  intros Hi. unfold slot, set_slot. apply nth_lookup_Some.
  apply list_lookup_insert_eq. lia.
Qed.

Lemma slot_set_ne l i j v : 0 <= i -> 0 <= j -> i <> j -> slot (set_slot l i v) j = slot l j.
Proof.
  intros Hi Hj Hne. unfold slot, set_slot. rewrite !nth_lookup.
  by rewrite list_lookup_insert_ne by lia.
Qed.

Lemma length_set_slot l i v : length (set_slot l i v) = length l.
Proof. apply length_insert. Qed.

Lemma pagina_set l i j v :
  0 <= i < Z.of_nat (length l) -> 0 <= j ->
  pagina (set_slot l i v) j = if i =? j then fst v else pagina l j.
Proof.
  intros Hi Hj. unfold pagina. destruct (Z.eqb_spec i j) as [<-|Hne].
  - by rewrite slot_set_eq.
  - by rewrite slot_set_ne by lia.
Qed.

(** Occupied slots. *)
Fixpoint occupate (l : list (Z * Z)) : Z :=
  match l with
  | [] => 0
  | v :: l => (if fst v =? 0 then 0 else 1) + occupate l
  end.

Lemma slot_cons v l i : 0 <= i -> slot (v :: l) i = if i =? 0 then v else slot l (i - 1).
Proof.
  intros Hi. unfold slot. destruct (Z.eqb_spec i 0) as [->|]; [done|].
  replace (Z.to_nat i) with (S (Z.to_nat (i - 1))) by lia. done.
Qed.

Lemma occupate_range l : 0 <= occupate l <= Z.of_nat (length l).
Proof. induction l as [|v l IH]; simpl; [lia|]. bcase; lia. Qed.

Lemma occupate_set l : forall i v,
  0 <= i < Z.of_nat (length l) ->
  occupate (set_slot l i v) =
  occupate l - (if pagina l i =? 0 then 0 else 1) + (if fst v =? 0 then 0 else 1).
Proof.
  induction l as [|w l IH]; intros i v Hi; simpl in Hi; [lia|].
  unfold pagina. rewrite slot_cons by lia. unfold set_slot.
  destruct (Z.eqb_spec i 0) as [->|Hne]; simpl; [lia|].
  replace (Z.to_nat i) with (S (Z.to_nat (i - 1))) by lia. simpl.
  fold (set_slot l (i - 1) v). rewrite IH by lia. unfold pagina. lia.
Qed.

Lemma empty_slot l :
  occupate l < Z.of_nat (length l) -> exists e, 0 <= e < Z.of_nat (length l) /\ pagina l e = 0.
Proof.
  induction l as [|v l IH]; simpl; [lia|]. intros H.
  destruct (Z.eqb_spec (fst v) 0) as [E|E].
  - exists 0. split; [lia|]. done.
  - destruct IH as (e & He & Hp); [lia|]. exists (e + 1). split; [lia|].
    unfold pagina. rewrite slot_cons by lia. destruct (Z.eqb_spec (e + 1) 0); [lia|].
    replace (e + 1 - 1) with e by lia. done.
Qed.

(** ** The invariant *)

Abbreviation posti_di l := (Z.of_nat (length l)).
Abbreviation casa_di l x := (oltre_casa (posti_di l) (pagina l x)).

(** [y] is strictly before [x] on the way from the home of the entry at [x]. *)
Definition sul_cammino (l : list (Z * Z)) (x y : Z) : Prop :=
  dist (posti_di l) (casa_di l x) y < dist (posti_di l) (casa_di l x) x.

(** A page has at most one slot. *)
Definition uniq (l : list (Z * Z)) : Prop :=
  forall x y, 0 <= x < posti_di l -> 0 <= y < posti_di l ->
    pagina l x <> 0 -> pagina l x = pagina l y -> x = y.

Record tab_ok (l : list (Z * Z)) : Prop := {
  to_pow : pow2 (posti_di l);
  to_probe : forall x y, 0 <= x < posti_di l -> 0 <= y < posti_di l ->
    pagina l x <> 0 -> sul_cammino l x y -> pagina l y <> 0;
  to_uniq : uniq l
}.

Definition assente (l : list (Z * Z)) (a : Z) : Prop :=
  forall x, 0 <= x < posti_di l -> pagina l x <> a.

Definition piene (l : list (Z * Z)) : Prop :=
  forall x, 0 <= x < posti_di l -> pagina l x <> 0 -> 1 <= snd (slot l x) < W32.

(** How many references past the byte the table holds for [a]. *)
Fixpoint voce (l : list (Z * Z)) (a : Z) : Z :=
  match l with
  | [] => 0
  | v :: l => if fst v =? a then snd v else voce l a
  end.

Definition oltre_inv (t : Oltre) : Prop :=
  g_oltre_usati t = occupate (g_oltre t) /\ 2 * g_oltre_usati t <= g_oltre_posti t /\
  (g_oltre t = [] \/ tab_ok (g_oltre t)) /\ piene (g_oltre t).

Lemma voce_first l : forall x a,
  0 <= x < posti_di l -> pagina l x = a -> (forall y, 0 <= y < x -> pagina l y <> a) ->
  voce l a = snd (slot l x).
Proof.
  induction l as [|v l IH]; intros x a Hx Hp Hm; simpl in Hx; [lia|].
  unfold pagina in *. rewrite slot_cons in Hp |- * by lia. simpl.
  destruct (Z.eqb_spec x 0) as [->|Hne].
  { rewrite Hp, Z.eqb_refl. done. }
  pose proof (Hm 0 ltac:(lia)) as H0. rewrite slot_cons in H0 by lia. simpl in H0.
  destruct (Z.eqb_spec (fst v) a); [done|]. apply IH; [lia|done|].
  intros y Hy. specialize (Hm (y + 1) ltac:(lia)). rewrite slot_cons in Hm by lia.
  destruct (Z.eqb_spec (y + 1) 0); [lia|]. by replace (y + 1 - 1) with y in Hm by lia.
Qed.

Lemma voce_none l : forall a, assente l a -> voce l a = 0.
Proof.
  induction l as [|v l IH]; intros a H; simpl; [done|].
  pose proof (H 0) as H0. unfold pagina in H0. rewrite slot_cons in H0 by lia. simpl in H0.
  destruct (Z.eqb_spec (fst v) a); [exfalso; apply H0; [lia|done]|].
  apply IH. intros x Hx. specialize (H (x + 1)). unfold pagina in H |- *.
  rewrite slot_cons in H by lia. destruct (Z.eqb_spec (x + 1) 0); [lia|].
  replace (x + 1 - 1) with x in H by lia. apply H. simpl. lia.
Qed.

Lemma voce_slot l x a :
  uniq l -> 0 <= x < posti_di l -> a <> 0 -> pagina l x = a -> voce l a = snd (slot l x).
Proof.
  intros U Hx Ha Hp. apply voce_first; auto. intros y Hy Hpy.
  assert (x = y) by (apply U; [lia|lia|congruence|congruence]). lia.
Qed.

(** ** Searching *)

Lemma sonda_ok l a : tab_ok l -> a <> 0 -> occupate l < posti_di l ->
  forall fuel i,
  0 <= i < posti_di l -> posti_di l - dist (posti_di l) (oltre_casa (posti_di l) a) i <= Z.of_nat fuel ->
  (forall y, 0 <= y < posti_di l ->
     dist (posti_di l) (oltre_casa (posti_di l) a) y < dist (posti_di l) (oltre_casa (posti_di l) a) i ->
     pagina l y <> 0 /\ pagina l y <> a) ->
  exists r, sonda l a i fuel = Ok r /\
    match r with
    | Some x => 0 <= x < posti_di l /\ pagina l x = a
    | None => assente l a
    end.
Proof.
  intros T Ha Hocc. pose proof (to_pow l T) as HN. set (N := posti_di l) in *.
  pose proof (casa_range N a HN) as Hk. set (k := oltre_casa N a) in *.
  induction fuel as [|fuel IH]; intros i Hi Hf Hpre; cbn [sonda].
  { pose proof (dist_range N k i Hk Hi). lia. }
  destruct (Z.eqb_spec (pagina l i) 0) as [E|E].
  { exists None. split; [done|]. intros x Hx Hxa.
    destruct (Z.lt_ge_cases (dist N k x) (dist N k i)) as [Hlt|Hge].
    { by apply (Hpre x Hx Hlt). }
    assert (x <> i) by congruence.
    assert (dist N k x <> dist N k i) by (intros F; apply (dist_inj N k) in F; auto).
    apply (to_probe l T x i); auto; [congruence|]. unfold sul_cammino. rewrite Hxa. fold N k. lia. }
  destruct (Z.eqb_spec (pagina l i) a) as [E'|E']; [by exists (Some i)|].
  assert (Hd : dist N k i + 1 < N).
  { destruct (empty_slot l Hocc) as (e & He & Hpe). fold N in He.
    destruct (Z.lt_trichotomy (dist N k e) (dist N k i)) as [Hlt|[Heq|Hgt]].
    - destruct (Hpre e He Hlt). congruence.
    - apply (dist_inj N k) in Heq; auto. subst. congruence.
    - pose proof (dist_range N k e Hk He). lia. }
  destruct (dist_avanti N k i HN Hk Hi Hd) as [Hda Hra]. fold N. apply IH; [exact Hra|rewrite Hda; lia|].
  intros y Hy Hlt. rewrite Hda in Hlt.
  destruct (Z.eq_dec (dist N k y) (dist N k i)) as [Heq|Hne]; [|apply Hpre; auto; lia].
  apply (dist_inj N k) in Heq; auto. by subst.
Qed.

Lemma trova_ok t a :
  oltre_inv t -> a <> 0 ->
  exists r, oltre_trova t a = Ok r /\
    match r with
    | Some x => tab_ok (g_oltre t) /\ 0 <= x < g_oltre_posti t /\ pagina (g_oltre t) x = a /\
                voce (g_oltre t) a = snd (slot (g_oltre t) x)
    | None => assente (g_oltre t) a /\ voce (g_oltre t) a = 0
    end.
Proof.
  intros (H1 & H2 & H3 & H4) Ha. unfold oltre_trova, g_oltre_posti in *.
  destruct H3 as [E|T].
  { rewrite E. simpl. exists None. split; [done|]. split; [intros x Hx; simpl in Hx; lia|done]. }
  pose proof (to_pow _ T) as HN. pose proof (pow2_pos _ HN).
  destruct (Z.eqb_spec (posti_di (g_oltre t)) 0); [lia|].
  pose proof (casa_range _ a HN).
  destruct (sonda_ok (g_oltre t) a T Ha ltac:(lia) (length (g_oltre t))
    (oltre_casa (posti_di (g_oltre t)) a)) as (r & Hr & Hm); auto.
  { rewrite dist_self. lia. }
  { intros y Hy. rewrite dist_self. pose proof (dist_range _ (oltre_casa (posti_di (g_oltre t)) a) y ltac:(eauto) Hy). lia. }
  exists r. split; [done|]. destruct r as [x|].
  - destruct Hm. split; [done|]. split; [done|]. split; [done|]. apply voce_slot; auto using to_uniq.
  - split; [done|]. by apply voce_none.
Qed.

(** ** Inserting *)

Lemma voce_cases l b : uniq l -> b <> 0 ->
  assente l b \/ exists x, 0 <= x < posti_di l /\ pagina l x = b.
Proof.
  intros _ _. induction l as [|v l IH]; [left; intros x Hx; simpl in Hx; lia|].
  destruct (Z.eq_dec (fst v) b) as [E|E].
  { right. exists 0. simpl. split; [lia|done]. }
  destruct IH as [Ha|(x & Hx & Hp)].
  - left. intros x Hx. unfold pagina. rewrite slot_cons by lia.
    destruct (Z.eqb_spec x 0); [done|]. apply Ha. simpl in Hx. lia.
  - right. exists (x + 1). simpl. split; [lia|]. unfold pagina. rewrite slot_cons by lia.
    destruct (Z.eqb_spec (x + 1) 0); [lia|]. by replace (x + 1 - 1) with x by lia.
Qed.

(** Writing [v] over an empty slot or over its own page changes that page's
    count and no other. *)
Lemma voce_set l j v b :
  uniq l -> 0 <= j < posti_di l -> b <> 0 -> fst v <> 0 ->
  pagina l j = 0 \/ pagina l j = fst v ->
  (forall y, 0 <= y < posti_di l -> y <> j -> pagina l y <> fst v) ->
  uniq (set_slot l j v) /\
  voce (set_slot l j v) b = if b =? fst v then snd v else voce l b.
Proof.
  intros U Hj Hb Hv Hpj Hno.
  assert (U' : uniq (set_slot l j v)).
  { intros x y Hx Hy. rewrite length_set_slot in Hx, Hy.
    rewrite !pagina_set by lia. destruct (Z.eqb_spec j x), (Z.eqb_spec j y); subst; auto.
    - intros _ E. exfalso. by apply (Hno y).
    - intros _ E. exfalso. by apply (Hno x). }
  split; [done|]. destruct (Z.eqb_spec b (fst v)) as [->|Hne].
  - rewrite (voce_slot _ j); auto; rewrite ?length_set_slot; auto.
    + by rewrite slot_set_eq.
    + rewrite pagina_set by lia. by rewrite Z.eqb_refl.
  - destruct (voce_cases l b U Hb) as [Ha|(x & Hx & Hp)].
    + rewrite (voce_none l b Ha), voce_none; [done|]. intros x Hx. rewrite length_set_slot in Hx.
      rewrite pagina_set by lia. destruct (Z.eqb_spec j x); [congruence|by apply Ha].
    + assert (x <> j) by (intros ->; destruct Hpj; congruence).
      rewrite (voce_slot l x), (voce_slot (set_slot l j v) x); rewrite ?length_set_slot; auto.
      * by rewrite slot_set_ne by lia.
      * rewrite pagina_set by lia. by destruct (Z.eqb_spec j x).
Qed.

Lemma primo_vuoto_ok l k : pow2 (posti_di l) -> 0 <= k < posti_di l -> occupate l < posti_di l ->
  forall fuel i,
  0 <= i < posti_di l -> posti_di l - dist (posti_di l) k i <= Z.of_nat fuel ->
  (forall y, 0 <= y < posti_di l -> dist (posti_di l) k y < dist (posti_di l) k i -> pagina l y <> 0) ->
  exists j, primo_vuoto l i fuel = Ok j /\ 0 <= j < posti_di l /\ pagina l j = 0 /\
    (forall y, 0 <= y < posti_di l -> dist (posti_di l) k y < dist (posti_di l) k j -> pagina l y <> 0).
Proof.
  intros HN Hk Hocc. set (N := posti_di l) in *.
  induction fuel as [|fuel IH]; intros i Hi Hf Hpre; cbn [primo_vuoto].
  { pose proof (dist_range N k i Hk Hi). lia. }
  destruct (Z.eqb_spec (pagina l i) 0) as [E|E]; [by exists i|].
  assert (Hd : dist N k i + 1 < N).
  { destruct (empty_slot l Hocc) as (e & He & Hpe). fold N in He.
    destruct (Z.lt_trichotomy (dist N k e) (dist N k i)) as [Hlt|[Heq|Hgt]].
    - by destruct (Hpre e He Hlt).
    - apply (dist_inj N k) in Heq; auto. subst. congruence.
    - pose proof (dist_range N k e Hk He). lia. }
  destruct (dist_avanti N k i HN Hk Hi Hd) as [Hda Hra]. fold N. apply IH; [done|rewrite Hda; lia|].
  intros y Hy Hlt. rewrite Hda in Hlt.
  destruct (Z.eq_dec (dist N k y) (dist N k i)) as [Heq|Hne]; [|apply Hpre; auto; lia].
  apply (dist_inj N k) in Heq; auto. by subst.
Qed.

Lemma metti_ok l v :
  tab_ok l -> piene l -> fst v <> 0 -> 1 <= snd v < W32 -> assente l (fst v) -> occupate l < posti_di l ->
  exists l', metti l v = Ok l' /\ tab_ok l' /\ piene l' /\ length l' = length l /\
    occupate l' = occupate l + 1 /\
    (forall b, b <> 0 -> voce l' b = if b =? fst v then snd v else voce l b) /\
    (forall b, b <> 0 -> b <> fst v -> assente l b -> assente l' b).
Proof.
  intros T HP Hv Hn Has Hocc. pose proof (to_pow l T) as HN. pose proof (casa_range _ (fst v) HN) as Hk.
  destruct (primo_vuoto_ok l _ HN Hk Hocc (length l) _ Hk) as (j & Hj & Hr & He & Hpath).
  { rewrite dist_self. lia. }
  { intros y Hy. rewrite dist_self. pose proof (dist_range _ _ y Hk Hy). lia. }
  unfold metti. rewrite Hj. simpl. exists (set_slot l j v). split; [done|].
  assert (HV : forall b, b <> 0 -> uniq (set_slot l j v) /\
    voce (set_slot l j v) b = if b =? fst v then snd v else voce l b).
  { intros b Hb. apply voce_set; auto using to_uniq. }
  split; [|split; [|split; [apply length_set_slot|split; [|split]]]].
  - split; rewrite ?length_set_slot; auto; [|apply (HV 1); lia].
    intros x y Hx Hy. unfold sul_cammino. rewrite length_set_slot, !pagina_set by lia.
    destruct (Z.eqb_spec j x) as [<-|Hjx]; destruct (Z.eqb_spec j y) as [<-|Hjy]; auto.
    intros Hpx Hs. by apply (to_probe l T x y).
  - intros x Hx. rewrite length_set_slot in Hx. rewrite pagina_set by lia.
    destruct (Z.eqb_spec j x) as [<-|Hjx]; [by rewrite slot_set_eq | rewrite slot_set_ne by lia; by apply HP].
  - rewrite occupate_set by lia. rewrite He. simpl. destruct (Z.eqb_spec (fst v) 0); lia.
  - intros b Hb. by apply HV.
  - intros b Hb Hbv Hab x Hx. rewrite length_set_slot in Hx. rewrite pagina_set by lia.
    destruct (Z.eqb_spec j x); [congruence|by apply Hab].
Qed.

Lemma uniq_cons v l :
  uniq (v :: l) -> uniq l /\ (fst v <> 0 -> assente l (fst v)).
Proof.
  intros U. assert (HS : forall x, 0 <= x -> pagina (v :: l) (x + 1) = pagina l x).
  { intros x Hx. unfold pagina. rewrite slot_cons by lia. destruct (Z.eqb_spec (x + 1) 0); [lia|].
    by replace (x + 1 - 1) with x by lia. }
  split.
  - intros x y Hx Hy Hp E. specialize (U (x + 1) (y + 1)). rewrite !HS in U by lia.
    cut (x + 1 = y + 1); [lia|]. apply U; auto; simpl; lia.
  - intros Hv x Hx E. specialize (U 0 (x + 1)). rewrite HS in U by lia.
    cut (0 = x + 1); [lia|]. apply U; [simpl; lia|simpl; lia|done|]. done.
Qed.

Lemma piene_cons v l : piene (v :: l) -> piene l /\ (fst v <> 0 -> 1 <= snd v < W32).
Proof.
  intros P. split.
  - intros x Hx. specialize (P (x + 1)). unfold pagina in *. rewrite slot_cons in P by lia.
    destruct (Z.eqb_spec (x + 1) 0); [lia|]. replace (x + 1 - 1) with x in P by lia.
    apply P. simpl. lia.
  - intros Hv. apply (P 0); [simpl; lia|done].
Qed.

Lemma sposta_ok vecchia : forall nuova,
  uniq vecchia -> piene vecchia -> tab_ok nuova -> piene nuova ->
  (forall x, 0 <= x < posti_di vecchia -> pagina vecchia x <> 0 -> assente nuova (pagina vecchia x)) ->
  occupate nuova + occupate vecchia < posti_di nuova ->
  exists l', sposta vecchia nuova = Ok l' /\ tab_ok l' /\ piene l' /\ length l' = length nuova /\
    occupate l' = occupate nuova + occupate vecchia /\
    (forall b, b <> 0 -> voce l' b = voce nuova b + voce vecchia b).
Proof.
  induction vecchia as [|v l IH]; intros nuova U P T P' Hd Hocc; cbn [sposta].
  { exists nuova. simpl. split; [done|]. split; [done|]. split; [done|]. split; [done|].
    split; [lia|]. intros; lia. }
  destruct (uniq_cons v l U) as [U1 Hv]. destruct (piene_cons v l P) as [P1 Pv].
  assert (Hd1 : forall x, 0 <= x < posti_di l -> pagina l x <> 0 -> assente nuova (pagina l x)).
  { intros x Hx. specialize (Hd (x + 1)). unfold pagina in *. rewrite slot_cons in Hd by lia.
    destruct (Z.eqb_spec (x + 1) 0); [lia|]. replace (x + 1 - 1) with x in Hd by lia.
    apply Hd. simpl. lia. }
  simpl in Hocc |- *. destruct (Z.eqb_spec (fst v) 0) as [E|E].
  { destruct (IH nuova U1 P1 T P' Hd1 ltac:(lia)) as (l' & ? & ? & ? & ? & ? & HV).
    exists l'. split_and!; auto; try lia. intros b Hb. rewrite HV by done.
    destruct (Z.eqb_spec (fst v) b); [congruence|done]. }
  assert (Hav : assente nuova (fst v)) by (apply (Hd 0); [simpl; lia|done]).
  pose proof (occupate_range l).
  destruct (metti_ok nuova v T P' E (Pv E) Hav ltac:(lia)) as (l1 & -> & T1 & Q1 & L1 & O1 & V1 & A1). simpl.
  destruct (IH l1 U1 P1 T1 Q1) as (l' & -> & T2 & Q2 & L2 & O2 & V2).
  { intros x Hx Hp. apply A1; auto. intros F. apply (Hv E x Hx). congruence. }
  { rewrite L1. lia. }
  exists l'. split; [done|]. split; [done|]. split; [done|]. split; [congruence|]. split; [lia|].
  intros b Hb. rewrite V2, V1 by done. rewrite (Z.eqb_sym (fst v) b).
  destruct (Z.eqb_spec b (fst v)) as [->|]; [|done].
  rewrite (voce_none l _ (Hv E)), (voce_none nuova _ Hav). lia.
Qed.

Lemma slot_replicate n i : slot (replicate n (0, 0)) i = (0, 0).
Proof.
  unfold slot. rewrite nth_lookup. destruct (replicate n (0, 0) !! Z.to_nat i) eqn:E; [|done].
  apply lookup_replicate in E as [-> _]. done.
Qed.

Lemma occupate_replicate n : occupate (replicate n (0, 0)) = 0.
Proof. induction n as [|n IH]; simpl; [done|]. lia. Qed.

Lemma voce_replicate n b : b <> 0 -> voce (replicate n (0, 0)) b = 0.
Proof. intros Hb. apply voce_none. intros x Hx. unfold pagina. rewrite slot_replicate. simpl. lia. Qed.

Lemma tab_replicate N : pow2 N -> tab_ok (replicate (Z.to_nat N) (0, 0)) /\ piene (replicate (Z.to_nat N) (0, 0)).
Proof.
  intros HN. pose proof (pow2_pos N HN). split; [split|].
  - rewrite length_replicate, Z2Nat.id by lia. done.
  - intros x y Hx Hy. unfold pagina. rewrite slot_replicate. simpl. lia.
  - intros x y Hx Hy. unfold pagina. rewrite slot_replicate. simpl. lia.
  - intros x Hx. unfold pagina. rewrite slot_replicate. simpl. lia.
Qed.

Lemma pow2_double N : pow2 N -> pow2 (N * 2).
Proof. intros (k & Hk & ->). exists (k + 1). split; [lia|]. rewrite Z.pow_add_r by lia. lia. Qed.

(** Growing keeps every count and leaves room for one more page. *)
Lemma cresci_ok t :
  oltre_inv t ->
  exists t', oltre_cresci true t = Ok (Some t') /\ oltre_inv t' /\ tab_ok (g_oltre t') /\
    (g_oltre_usati t' + 1) * 2 <= g_oltre_posti t' /\ g_oltre_usati t' = g_oltre_usati t /\
    (forall b, b <> 0 -> voce (g_oltre t') b = voce (g_oltre t) b).
Proof.
  intros (H1 & H2 & H3 & H4). unfold oltre_cresci. cbn [negb].
  set (N := if g_oltre_posti t =? 0 then 64 else g_oltre_posti t * 2).
  assert (HN : pow2 N /\ (g_oltre_usati t + 1) * 2 <= N).
  { subst N. pose proof (occupate_range (g_oltre t)). unfold g_oltre_posti in *.
    destruct (Z.eqb_spec (posti_di (g_oltre t)) 0) as [E|E].
    - split; [exists 6; split; [lia|done] | lia].
    - destruct H3 as [H3|H3]; [rewrite H3 in E; simpl in E; lia|].
      pose proof (pow2_pos _ (to_pow _ H3)).
      split; [apply pow2_double, (to_pow _ H3) | lia]. }
  destruct HN as [HN Hroom]. pose proof (pow2_pos N HN).
  destruct (tab_replicate N HN) as [T0 P0].
  assert (U : uniq (g_oltre t)).
  { destruct H3 as [->|H3]; [intros x y Hx; simpl in Hx; lia | by apply to_uniq]. }
  destruct (sposta_ok (g_oltre t) (replicate (Z.to_nat N) (0, 0)) U H4 T0 P0)
    as (l' & -> & T' & P' & L' & O' & V').
  { intros x Hx Hp y Hy. unfold pagina at 1. rewrite slot_replicate. simpl. congruence. }
  { rewrite occupate_replicate, length_replicate. lia. }
  simpl. eexists. split; [done|]. rewrite length_replicate in L'. rewrite occupate_replicate in O'.
  unfold oltre_inv, g_oltre_posti. simpl. rewrite L', Z2Nat.id by lia.
  split; [|split; [done|split; [lia|split; [done|]]]].
  - split; [lia|]. split; [lia|]. split; [by right|done].
  - intros b Hb. rewrite V', voce_replicate by done. lia.
Qed.

(** Only the pages and the length matter to the probe invariant. *)
Lemma tab_ok_ext l l' :
  length l' = length l -> (forall y, 0 <= y -> pagina l' y = pagina l y) -> tab_ok l -> tab_ok l'.
Proof.
  intros HL HP [T1 T2 T3]. split; rewrite ?HL; auto.
  - intros x y Hx Hy. unfold sul_cammino. rewrite HL, !HP by lia. by apply T2.
  - intros x y Hx Hy. rewrite HL in Hx, Hy. rewrite !HP by lia. by apply T3.
Qed.

(** A slot's count changed: the references of its page change, nothing else. *)
Lemma conta_ok t x n :
  oltre_inv t -> tab_ok (g_oltre t) -> 0 <= x < g_oltre_posti t -> pagina (g_oltre t) x <> 0 ->
  1 <= n < W32 ->
  let t' := mkOltre (set_slot (g_oltre t) x (pagina (g_oltre t) x, n)) (g_oltre_usati t) in
  oltre_inv t' /\
  forall b, b <> 0 -> voce (g_oltre t') b =
    if b =? pagina (g_oltre t) x then n else voce (g_oltre t) b.
Proof.
  intros (I1 & I2 & _ & I4) T Hx Hp Hn. unfold oltre_inv, g_oltre_posti in *. simpl.
  set (a := pagina (g_oltre t) x) in *.
  assert (HP : forall y, 0 <= y -> pagina (set_slot (g_oltre t) x (a, n)) y = pagina (g_oltre t) y).
  { intros y Hy. rewrite pagina_set by lia. by destruct (Z.eqb_spec x y) as [<-|]. }
  split.
  - rewrite length_set_slot, occupate_set by lia. fold a. simpl. split; [lia|]. split; [lia|]. split.
    + right. apply (tab_ok_ext (g_oltre t)); auto using length_set_slot.
    + intros y Hy. rewrite length_set_slot in Hy. rewrite HP by lia. intros Hpy.
      destruct (Z.eq_dec x y) as [<-|]; [by rewrite slot_set_eq | rewrite slot_set_ne by lia; auto].
  - intros b Hb. apply (voce_set (g_oltre t) x (a, n) b); auto using to_uniq.
    intros y Hy Hyx F. apply Hyx, (to_uniq _ T); auto; simpl in F; congruence.
Qed.

(** [oltre_aggiungi] adds one reference to [a] and to no other page; it refuses
    only without memory, or at the last value of the counter. *)
Lemma aggiungi_ok memoria a t :
  oltre_inv t -> a <> 0 ->
  exists r t', oltre_aggiungi memoria a t = Ok (r, t') /\ oltre_inv t' /\
    if r then forall b, b <> 0 ->
           voce (g_oltre t') b = voce (g_oltre t) b + (if b =? a then 1 else 0)
    else t' = t /\ (memoria = false \/ voce (g_oltre t) a = 0xFFFFFFFF).
Proof.
  intros I Ha. unfold oltre_aggiungi.
  destruct (trova_ok t a I Ha) as ([x|] & -> & Hr); simpl.
  - destruct Hr as (T & Hx & Hp & Hv).
    assert (Hs : 1 <= snd (slot (g_oltre t) x) < W32) by (apply I; [done|congruence]).
    destruct (Z.eqb_spec (snd (slot (g_oltre t) x)) 0xFFFFFFFF) as [E|E].
    { exists false, t. split; [done|]. split; [done|]. split; [done|]. right. congruence. }
    destruct (conta_ok t x (snd (slot (g_oltre t) x) + 1) I T Hx) as [I' HV];
      [congruence|unfold W32 in *; lia|]. rewrite Hp in I', HV.
    eexists true, _. split; [done|]. split; [done|]. intros b Hb. rewrite HV by done.
    destruct (Z.eqb_spec b a) as [->|]; [rewrite Hv|]; lia.
  - destruct Hr as [Has Hv0].
    assert (HG : forall t1, oltre_inv t1 -> tab_ok (g_oltre t1) ->
      (g_oltre_usati t1 + 1) * 2 <= g_oltre_posti t1 -> assente (g_oltre t1) a ->
      (forall b, b <> 0 -> voce (g_oltre t1) b = voce (g_oltre t) b) ->
      exists r t', (l ← metti (g_oltre t1) (a, 1); Ok (true, mkOltre l (g_oltre_usati t1 + 1))) = Ok (r, t') /\
        oltre_inv t' /\ r = true /\ forall b, b <> 0 ->
           voce (g_oltre t') b = voce (g_oltre t) b + (if b =? a then 1 else 0)).
    { intros t1 I1 T1 Hroom Has1 HV1. destruct I1 as (J1 & J2 & _ & J4). unfold g_oltre_posti in *.
      pose proof (occupate_range (g_oltre t1)).
      destruct (metti_ok (g_oltre t1) (a, 1) T1 J4 Ha ltac:(simpl; unfold W32; lia) Has1 ltac:(lia))
        as (l' & -> & T' & P' & L' & O' & V' & _). simpl.
      eexists true, _. split; [done|]. split; [|split; [done|]].
      - unfold oltre_inv, g_oltre_posti. simpl. rewrite L'. split; [lia|]. split; [lia|]. split; [by right|done].
      - intros b Hb. simpl. rewrite V' by done. simpl. rewrite HV1 by done.
        destruct (Z.eqb_spec b a) as [->|]; lia. }
    destruct (Z.ltb_spec (g_oltre_posti t) ((g_oltre_usati t + 1) * 2)) as [Hst|Hst].
    + destruct memoria.
      * destruct (cresci_ok t I) as (t1 & -> & I1 & T1 & R1 & U1 & V1). simpl.
        destruct (HG t1) as (r & t' & Ht' & I' & -> & V'); auto; [|eexists true, _; eauto].
        destruct (voce_cases (g_oltre t1) a (to_uniq _ T1) Ha) as [F|(y & Hy & Hpy)]; [done|].
        exfalso. pose proof (voce_slot _ y a (to_uniq _ T1) Hy Ha Hpy) as F. rewrite V1, Hv0 in F by done.
        destruct I1 as (_ & _ & _ & P1). specialize (P1 y Hy ltac:(congruence)). lia.
      * simpl. exists false, t. auto.
    + simpl. destruct (HG t) as (r & t' & Ht' & I' & -> & V'); auto; [|eexists true, _; eauto].
      destruct I as (I1 & _ & [E|T] & _); [|done]. exfalso. unfold g_oltre_posti in Hst.
      rewrite E in Hst, I1. simpl in Hst, I1. lia.
Qed.

(** ** Removing *)

(** The state of the repair loop: the hole [i] may break the way to entries
    at or past the cursor [j], and to no other. *)
Record buco (l : list (Z * Z)) (i j : Z) : Prop := {
  bu_pow : pow2 (posti_di l);
  bu_i : 0 <= i < posti_di l;
  bu_j : 0 <= j < posti_di l;
  bu_ij : i <> j;
  bu_vuoto : pagina l i = 0;
  bu_uniq : uniq l;
  bu_probe : forall x y, 0 <= x < posti_di l -> 0 <= y < posti_di l ->
    pagina l x <> 0 -> sul_cammino l x y -> y = i \/ pagina l y <> 0;
  bu_fatti : forall x, 0 <= x < posti_di l -> pagina l x <> 0 ->
    0 < dist (posti_di l) i x < dist (posti_di l) i j -> ~ sul_cammino l x i
}.

(** When the cursor reaches an empty slot the table is whole again. *)
Lemma buco_fine l i j : buco l i j -> pagina l j = 0 -> tab_ok l.
Proof.
  intros [B1 B2 B3 B4 B5 B6 B7 B8] Hj. split; auto.
  intros x y Hx Hy Hpx Hs. destruct (B7 x y Hx Hy Hpx Hs) as [->|]; [|done]. exfalso.
  pose proof (casa_range (posti_di l) (pagina l x) B1) as Hk.
  assert (x <> i) by congruence. assert (x <> j) by congruence.
  destruct (Z.lt_ge_cases (dist (posti_di l) i x) (dist (posti_di l) i j)) as [Hlt|Hge].
  - apply (B8 x Hx Hpx); [|done]. split; [|done]. clear - B2 Hx H. cyc.
  - assert (Hsj : sul_cammino l x j).
    { unfold sul_cammino in *. set (k := casa_di l x) in *. set (N := posti_di l) in *.
      clearbody k N. clear - Hk B2 B3 B4 Hx Hge Hs H H0. cyc. }
    destruct (B7 x j Hx B3 Hpx Hsj); congruence.
Qed.

(** The entry at [j] may stay where it is. *)
Lemma buco_resta l i j :
  buco l i j -> pagina l j <> 0 -> ~ sul_cammino l j i ->
  dist (posti_di l) i j + 1 < posti_di l -> buco l i (avanti (posti_di l) j).
Proof.
  intros [B1 B2 B3 B4 B5 B6 B7 B8] Hj Hns Hd.
  destruct (dist_avanti (posti_di l) i j B1 B2 B3 Hd) as [Hda Hra].
  pose proof (dist_range (posti_di l) i j B2 B3).
  split; auto.
  - intros E. rewrite <- E, dist_self in Hda. lia.
  - intros x Hx Hpx. rewrite Hda. intros Hr.
    destruct (Z.eq_dec (dist (posti_di l) i x) (dist (posti_di l) i j)) as [Heq|Hne].
    + apply (dist_inj _ i) in Heq; auto. by subst.
    + apply B8; auto; lia.
Qed.

(** The entry at [j] moves into the hole. *)
Definition scambia (l : list (Z * Z)) (i j : Z) : list (Z * Z) :=
  set_slot (set_slot l i (slot l j)) j (0, 0).

Lemma length_scambia l i j : length (scambia l i j) = length l.
Proof. unfold scambia. by rewrite !length_set_slot. Qed.

Lemma slot_scambia l i j x :
  0 <= i < posti_di l -> 0 <= j < posti_di l -> i <> j -> 0 <= x ->
  slot (scambia l i j) x = if x =? j then (0, 0) else if x =? i then slot l j else slot l x.
Proof.
  intros Hi Hj Hij Hx. unfold scambia. destruct (Z.eqb_spec x j) as [->|].
  - apply slot_set_eq. by rewrite length_set_slot.
  - rewrite slot_set_ne by lia. destruct (Z.eqb_spec x i) as [->|]; [by apply slot_set_eq|].
    by rewrite slot_set_ne by lia.
Qed.

Lemma pagina_scambia l i j x :
  0 <= i < posti_di l -> 0 <= j < posti_di l -> i <> j -> 0 <= x ->
  pagina (scambia l i j) x = if x =? j then 0 else if x =? i then pagina l j else pagina l x.
Proof. intros. unfold pagina. rewrite slot_scambia by done. by repeat bcase. Qed.

Lemma scambia_uniq l i j :
  0 <= i < posti_di l -> 0 <= j < posti_di l -> i <> j -> pagina l i = 0 -> uniq l ->
  uniq (scambia l i j).
Proof.
  intros Hi Hj Hij Hp U x y Hx Hy. rewrite length_scambia in Hx, Hy.
  rewrite !pagina_scambia by lia. intros Hpx E.
  destruct (Z.eqb_spec x j); [done|]. destruct (Z.eqb_spec y j); [congruence|].
  destruct (Z.eqb_spec x i), (Z.eqb_spec y i); try congruence.
  - assert (j = y) by (apply U; auto; congruence). congruence.
  - assert (x = j) by (apply U; auto; congruence). congruence.
  - apply U; auto.
Qed.

Lemma scambia_voce l i j b :
  0 <= i < posti_di l -> 0 <= j < posti_di l -> i <> j -> pagina l i = 0 -> uniq l -> b <> 0 ->
  voce (scambia l i j) b = voce l b.
Proof.
  intros Hi Hj Hij Hp U Hb. pose proof (scambia_uniq l i j Hi Hj Hij Hp U) as U'.
  destruct (voce_cases l b U Hb) as [Ha|(x & Hx & Hpx)].
  - rewrite (voce_none l b Ha), voce_none; [done|]. intros x Hx. rewrite length_scambia in Hx.
    rewrite pagina_scambia by lia. repeat bcase; [lia|by apply Ha|by apply Ha].
  - assert (Hxi : x <> i) by congruence. rewrite (voce_slot l x b) by done.
    set (x' := if x =? j then i else x).
    assert (Hx' : 0 <= x' < posti_di l) by (subst x'; bcase; lia).
    assert (HS : slot (scambia l i j) x' = slot l x).
    { rewrite slot_scambia by lia. subst x'. destruct (Z.eqb_spec x j) as [->|].
      - destruct (Z.eqb_spec i j); [lia|]. by rewrite Z.eqb_refl.
      - destruct (Z.eqb_spec x j); [lia|]. by destruct (Z.eqb_spec x i). }
    rewrite (voce_slot _ x' b); rewrite ?length_scambia; auto; [by rewrite HS|].
    unfold pagina. by rewrite HS.
Qed.

Lemma buco_sposta l i j :
  buco l i j -> pagina l j <> 0 -> sul_cammino l j i ->
  buco (scambia l i j) j (avanti (posti_di l) j).
Proof.
  intros [B1 B2 B3 B4 B5 B6 B7 B8] Hj Hs.
  assert (HN : 2 <= posti_di l) by lia.
  pose proof (avanti_range (posti_di l) j B1 B3) as Hra.
  split; rewrite ?length_scambia; auto using scambia_uniq.
  - rewrite avanti_eq by done. bcase; lia.
  - rewrite pagina_scambia by lia. by rewrite Z.eqb_refl.
  - intros x y Hx Hy. unfold sul_cammino. rewrite length_scambia, !pagina_scambia by lia.
    destruct (Z.eqb_spec x j) as [->|Hxj]; [done|]. intros Hpx Hsy.
    destruct (Z.eqb_spec y j) as [->|Hyj]; [by left|]. right.
    destruct (Z.eqb_spec y i) as [->|Hyi]; [done|].
    destruct (Z.eqb_spec x i) as [->|Hxi].
    + destruct (B7 j y B3 Hy Hj) as [F|F]; [|congruence|done].
      unfold sul_cammino in *. lia.
    + destruct (B7 x y Hx Hy Hpx Hsy) as [F|F]; [congruence|done].
  - intros x Hx Hpx Hr. exfalso.
    rewrite avanti_eq in Hr by done. clear - B3 Hx Hr HN.
    destruct (Z.eqb_spec (j + 1) (posti_di l)); cyc.
Qed.

Lemma piene_scambia l i j :
  0 <= i < posti_di l -> 0 <= j < posti_di l -> i <> j -> piene l -> piene (scambia l i j).
Proof.
  intros Hi Hj Hij P x Hx. rewrite length_scambia in Hx.
  rewrite pagina_scambia, slot_scambia by lia. repeat bcase; simpl; try done; by apply P.
Qed.

Lemma occupate_scambia l i j :
  0 <= i < posti_di l -> 0 <= j < posti_di l -> i <> j -> pagina l i = 0 -> pagina l j <> 0 ->
  occupate (scambia l i j) = occupate l.
Proof.
  intros Hi Hj Hij Hpi Hpj. unfold scambia. rewrite occupate_set by (by rewrite length_set_slot).
  rewrite pagina_set by lia. rewrite occupate_set, Hpi by lia.
  fold (pagina l j). destruct (Z.eqb_spec i j); [lia|]. simpl. bcase; lia.
Qed.

(** The repair loop ends, at the latest, at an empty slot [e] past the
    cursor; it loses no entry. *)
Lemma ricuci_ok fuel : forall l i j e,
  buco l i j -> piene l -> 0 <= e < posti_di l -> pagina l e = 0 ->
  dist (posti_di l) i j <= dist (posti_di l) i e -> dist (posti_di l) j e < Z.of_nat fuel ->
  exists l', ricuci l i j fuel = Ok l' /\ tab_ok l' /\ piene l' /\ length l' = length l /\
    occupate l' = occupate l /\ forall b, b <> 0 -> voce l' b = voce l b.
Proof.
  induction fuel as [|fuel IH]; intros l i j e B P He Hpe Hie Hfuel; cbn [ricuci].
  { destruct B. pose proof (dist_range (posti_di l) j e bu_j0 He). lia. }
  destruct (Z.eqb_spec (pagina l j) 0) as [E|E].
  { exists l. split_and!; eauto using buco_fine. }
  pose proof (casa_range _ (pagina l j) (bu_pow _ _ _ B)) as Hk.
  rewrite (in_mezzo_spec (posti_di l)) by (destruct B; auto).
  pose proof (bu_i _ _ _ B) as Hi. pose proof (bu_j _ _ _ B) as Hj. pose proof (bu_ij _ _ _ B) as Hij.
  pose proof (bu_vuoto _ _ _ B) as Hpi. pose proof (bu_pow _ _ _ B) as HN.
  assert (Hej : e <> j) by congruence.
  assert (Hdje : dist (posti_di l) j e <> 0) by (clear - Hej He Hj; cyc).
  pose proof (dist_unavanti (posti_di l) e j HN He Hj Hdje) as Hda.
  destruct (Z.ltb_spec (dist (posti_di l) (casa_di l j) i) (dist (posti_di l) (casa_di l j) j)) as [Hs|Hs].
  - assert (Hei : e <> i) by (intros ->; clear - Hie Hij Hi Hj; cyc).
    destruct (IH (scambia l i j) j (avanti (posti_di l) j) e) as (l' & Hl' & T' & P' & L' & O' & V');
      rewrite ?length_scambia; auto.
    + by apply buco_sposta.
    + by apply piene_scambia.
    + rewrite pagina_scambia by lia. destruct (Z.eqb_spec e j), (Z.eqb_spec e i); try lia; done.
    + rewrite avanti_eq by done. clear - He Hj Hej Hdje.
      destruct (Z.eqb_spec (j + 1) (posti_di l)); cyc.
    + lia.
    + exists l'. rewrite length_scambia in L'. rewrite occupate_scambia in O' by done.
      split_and!; auto. intros b Hb. rewrite V' by done. apply scambia_voce; auto. apply (bu_uniq _ _ _ B).
  - assert (Hlt : dist (posti_di l) i j < dist (posti_di l) i e).
    { assert (dist (posti_di l) i j <> dist (posti_di l) i e); [|lia].
      intros F. apply (dist_inj _ i) in F; auto. }
    pose proof (dist_range _ i e Hi He).
    destruct (dist_avanti (posti_di l) i j HN Hi Hj ltac:(lia)) as [Hda' _].
    apply (IH l i (avanti (posti_di l) j) e); auto; [|lia|lia].
    apply buco_resta; auto; [|lia]. unfold sul_cammino. lia.
Qed.

(** The slot [x] emptied: its page is gone, and [x] is the hole of the repair. *)
Section Cancella.
Context (l : list (Z * Z)) (x n : Z).
  Hypothesis T : tab_ok l.
  Hypothesis Hx : 0 <= x < posti_di l.
  Hypothesis Hp : pagina l x <> 0.

Let l0 := set_slot l x (0, n).

Lemma cancella_pagina y : 0 <= y -> pagina l0 y = if x =? y then 0 else pagina l y.
  Proof. intros Hy. by apply pagina_set. Qed.

Lemma cancella_uniq : uniq l0.
  Proof.
    intros y z Hy Hz. unfold l0 in Hy, Hz. rewrite length_set_slot in Hy, Hz.
    rewrite !cancella_pagina by lia. intros H1 H2.
    destruct (Z.eqb_spec x y); [done|]. destruct (Z.eqb_spec x z); [congruence|].
    by apply (to_uniq _ T).
  Qed.

Lemma cancella_voce b :
    b <> 0 -> voce l0 b = if b =? pagina l x then 0 else voce l b.
  Proof.
    intros Hb. destruct (Z.eqb_spec b (pagina l x)) as [->|Hbx].
    - apply voce_none. intros y Hy. unfold l0 in Hy. rewrite length_set_slot in Hy.
      rewrite cancella_pagina by lia. destruct (Z.eqb_spec x y) as [|Hxy]; [by apply not_eq_sym|].
      intros F. apply Hxy, (to_uniq _ T); auto.
    - destruct (voce_cases l b (to_uniq _ T) Hb) as [F|(y & Hy & Hpy)].
      + rewrite (voce_none _ _ F), voce_none; [done|]. intros y Hy. unfold l0 in Hy.
        rewrite length_set_slot in Hy. rewrite cancella_pagina by lia.
        destruct (Z.eqb_spec x y); [congruence|by apply F].
      + assert (y <> x) by congruence.
        rewrite (voce_slot l y b), (voce_slot l0 y b); auto using to_uniq, cancella_uniq.
        * unfold l0. by rewrite slot_set_ne by lia.
        * unfold l0. by rewrite length_set_slot.
        * rewrite cancella_pagina by lia. by destruct (Z.eqb_spec x y).
  Qed.

Lemma cancella_piene : piene l -> piene l0.
  Proof.
    intros P y Hy. unfold l0 in Hy. rewrite length_set_slot in Hy. rewrite cancella_pagina by lia.
    destruct (Z.eqb_spec x y); [done|]. unfold l0. rewrite slot_set_ne by lia. by apply P.
  Qed.

Lemma cancella_occupate : occupate l0 = occupate l - 1.
  Proof. unfold l0. rewrite occupate_set by done. simpl. bcase; lia. Qed.

Lemma cancella_buco : 2 <= posti_di l -> buco l0 x (avanti (posti_di l) x).
  Proof.
    intros HN2. pose proof (to_pow _ T) as HN.
    assert (HL : length l0 = length l) by apply length_set_slot.
    split; rewrite ?HL; auto using avanti_range, cancella_uniq.
    - rewrite avanti_eq by done. bcase; lia.
    - rewrite cancella_pagina by lia. by rewrite Z.eqb_refl.
    - intros y z Hy Hz. unfold sul_cammino. rewrite HL, !cancella_pagina by lia.
      destruct (Z.eqb_spec x y); [done|]. intros Hpy Hsc.
      destruct (Z.eqb_spec x z) as [<-|]; [by left|]. right. by apply (to_probe _ T y z).
    - intros y Hy Hpy Hr. exfalso. rewrite avanti_eq in Hr by done. clear - Hx Hy Hr HN2.
      destruct (Z.eqb_spec (x + 1) (posti_di l)); cyc.
  Qed.

Lemma cancella_ok :
    piene l -> occupate l < posti_di l ->
    exists l', ricuci l0 x (avanti (posti_di l) x) (length l) = Ok l' /\ tab_ok l' /\ piene l' /\
      length l' = length l /\ occupate l' = occupate l - 1 /\
      forall b, b <> 0 -> voce l' b = if b =? pagina l x then 0 else voce l b.
  Proof.
    intros P Hocc. destruct (empty_slot l Hocc) as (e & He & Hpe).
    assert (Hex : e <> x) by congruence. pose proof (to_pow _ T) as HN.
    assert (HL : length l0 = length l) by apply length_set_slot.
    destruct (ricuci_ok (length l) l0 x (avanti (posti_di l) x) e)
      as (l' & -> & T' & P' & L' & O' & V'); rewrite ?HL; auto.
    - apply cancella_buco. lia.
    - by apply cancella_piene.
    - rewrite cancella_pagina by lia. by destruct (Z.eqb_spec x e).
    - rewrite avanti_eq by done. clear - He Hx Hex. destruct (Z.eqb_spec (x + 1) (posti_di l)); cyc.
    - apply (dist_range (posti_di l)); auto using avanti_range.
    - exists l'. rewrite L', HL, O', cancella_occupate. split_and!; auto.
      intros b Hb. rewrite V' by done. by apply cancella_voce.
  Qed.
End Cancella.

(** [oltre_togli] takes one reference of [a] away and leaves the others; it
    says whether there was one. *)
Lemma togli_ok a t :
  oltre_inv t -> a <> 0 ->
  exists r t', oltre_togli a t = Ok (r, t') /\ oltre_inv t' /\
    r = negb (voce (g_oltre t) a =? 0) /\
    forall b, b <> 0 -> voce (g_oltre t') b =
      voce (g_oltre t) b - (if (b =? a) && r then 1 else 0).
Proof.
  intros I Ha. unfold oltre_togli. destruct (trova_ok t a I Ha) as ([x|] & -> & Hr); simpl.
  2:{ destruct Hr as [_ Hv]. exists false, t. rewrite Hv. split_and!; auto.
      intros b Hb. rewrite andb_false_r. lia. }
  destruct Hr as (T & Hx & Hp & Hv).
  assert (Hs : 1 <= snd (slot (g_oltre t) x) < W32) by (apply I; [done|congruence]).
  set (n := snd (slot (g_oltre t) x)) in *. rewrite u32_small by lia.
  assert (Hvn : true = negb (voce (g_oltre t) a =? 0)) by (destruct (Z.eqb_spec (voce (g_oltre t) a) 0); [lia|done]).
  destruct (Z.eqb_spec (n - 1) 0) as [E|E]; simpl.
  - destruct I as (I1 & I2 & _ & I4). unfold g_oltre_posti in *.
    destruct (cancella_ok (g_oltre t) x (n - 1) T Hx ltac:(congruence) I4 ltac:(lia))
      as (l' & -> & T' & P' & L' & O' & V'). simpl.
    eexists true, _. split; [done|]. split; [|split; [done|]].
    + unfold oltre_inv, g_oltre_posti. simpl. rewrite L'. split_and!; auto; lia.
    + intros b Hb. simpl. rewrite V', Hp, andb_true_r by done. destruct (Z.eqb_spec b a) as [->|]; lia.
  - destruct (conta_ok t x (n - 1) I T Hx) as [I' HV]; [congruence|lia|]. rewrite Hp in I', HV.
    eexists true, _. split; [done|]. split; [done|]. split; [done|].
    intros b Hb. rewrite HV, andb_true_r by done. destruct (Z.eqb_spec b a) as [->|]; lia.
Qed.
