(* ===== verification/Kheap.v ===== *)
(** * The kernel heap (kernel/mm/kmalloc.c)

    First-fit allocator over a doubly linked free list, with regions obtained
    from the page allocator, block headers and canaries kept in the heap's own
    bytes.  The model works on the byte memory of Mem.v with the layout of the
    32-bit build: a block header is seven 32-bit words, a region header two.
    [klog] lines have no counterpart; [kpanic] is [Panic]. *)

From S2P Require Import Prelude Mem Pmm PmmSpec.

Definition HEAP_MAGIC : Z := 0xDEADBEEF.
Definition HEAP_CANARINO : Z := 0xC0DA5EED.
Definition HEAP_MIN_SIZE : Z := 16.
Definition HEAP_ALIGN : Z := 8.
Definition BLOCK_FREE : Z := 1.
Definition BLOCK_USED : Z := 0.
Definition BLOCK_HEADER_SIZE : Z := 28.
Definition REGION_HEADER_SIZE : Z := 8.
Definition KERNEL_HEAP_BASE : Z := 0x400000.
Definition NULL : Z := 0.

(** The static variables of kmalloc.c, the memory, and the page allocator. *)
Record KHeap (P : Type) : Type := mkKHeap {
  kmem : gmap Z Z;
  g_heap_start : Z;
  g_heap_end : Z;
  g_free_list : Z;
  g_regioni : Z;
  g_prima_regione : Z;
  g_heap_base : Z;
  g_heap_size : Z;
  g_alloc_count : Z;
  g_free_count : Z;
  g_stop_avanti : Z;
  g_stop_indietro : Z;
  g_intestazioni_rotte : Z;
  g_canarini_rotti : Z;
  kpages : P
}.
Arguments mkKHeap {P}.
Arguments kmem {P}.
Arguments g_heap_start {P}.
Arguments g_heap_end {P}.
Arguments g_free_list {P}.
Arguments g_regioni {P}.
Arguments g_prima_regione {P}.
Arguments g_heap_base {P}.
Arguments g_heap_size {P}.
Arguments g_alloc_count {P}.
Arguments g_free_count {P}.
Arguments g_stop_avanti {P}.
Arguments g_stop_indietro {P}.
Arguments g_intestazioni_rotte {P}.
Arguments g_canarini_rotti {P}.
Arguments kpages {P}.

Section Kheap.
Context {P : Type} `{PageSource P}.

Definition set_kmem (m : gmap Z Z) (h : KHeap P) : KHeap P :=
  mkKHeap m (g_heap_start h) (g_heap_end h) (g_free_list h) (g_regioni h) (g_prima_regione h)
    (g_heap_base h) (g_heap_size h) (g_alloc_count h) (g_free_count h) (g_stop_avanti h)
    (g_stop_indietro h) (g_intestazioni_rotte h) (g_canarini_rotti h) (kpages h).

Definition set_free_list (v : Z) (h : KHeap P) : KHeap P :=
  mkKHeap (kmem h) (g_heap_start h) (g_heap_end h) v (g_regioni h) (g_prima_regione h)
    (g_heap_base h) (g_heap_size h) (g_alloc_count h) (g_free_count h) (g_stop_avanti h)
    (g_stop_indietro h) (g_intestazioni_rotte h) (g_canarini_rotti h) (kpages h).

Definition set_heap_start (v : Z) (h : KHeap P) : KHeap P :=
  mkKHeap (kmem h) v (g_heap_end h) (g_free_list h) (g_regioni h) (g_prima_regione h)
    (g_heap_base h) (g_heap_size h) (g_alloc_count h) (g_free_count h) (g_stop_avanti h)
    (g_stop_indietro h) (g_intestazioni_rotte h) (g_canarini_rotti h) (kpages h).

(** [g_heap_size] and [g_heap_end], set together by [heap_expand]. *)
Definition set_heap_size (size fine : Z) (h : KHeap P) : KHeap P :=
  mkKHeap (kmem h) (g_heap_start h) fine (g_free_list h) (g_regioni h) (g_prima_regione h)
    (g_heap_base h) size (g_alloc_count h) (g_free_count h) (g_stop_avanti h)
    (g_stop_indietro h) (g_intestazioni_rotte h) (g_canarini_rotti h) (kpages h).

Definition set_regioni (r prima : Z) (h : KHeap P) : KHeap P :=
  mkKHeap (kmem h) (g_heap_start h) (g_heap_end h) (g_free_list h) r prima
    (g_heap_base h) (g_heap_size h) (g_alloc_count h) (g_free_count h) (g_stop_avanti h)
    (g_stop_indietro h) (g_intestazioni_rotte h) (g_canarini_rotti h) (kpages h).

Definition set_pages (p : P) (h : KHeap P) : KHeap P :=
  mkKHeap (kmem h) (g_heap_start h) (g_heap_end h) (g_free_list h) (g_regioni h) (g_prima_regione h)
    (g_heap_base h) (g_heap_size h) (g_alloc_count h) (g_free_count h) (g_stop_avanti h)
    (g_stop_indietro h) (g_intestazioni_rotte h) (g_canarini_rotti h) p.

(** The counters: allocations, frees, the two boundary stops, broken headers,
    broken canaries. *)
Definition add_counts (al fr av ind rot can : Z) (h : KHeap P) : KHeap P :=
  mkKHeap (kmem h) (g_heap_start h) (g_heap_end h) (g_free_list h) (g_regioni h) (g_prima_regione h)
    (g_heap_base h) (g_heap_size h) (u32 (g_alloc_count h + al)) (u32 (g_free_count h + fr))
    (u32 (g_stop_avanti h + av)) (u32 (g_stop_indietro h + ind)) (u32 (g_intestazioni_rotte h + rot))
    (u32 (g_canarini_rotti h + can)) (kpages h).

Definition put32 (a v : Z) (h : KHeap P) : KHeap P := set_kmem (write32 (kmem h) a v) h.

(** ** The fields of [KHeapBlock] and [KHeapRegion] *)

Definition b_size (h : KHeap P) (b : Z) : Z := read32 (kmem h) b.
Definition b_magic (h : KHeap P) (b : Z) : Z := read32 (kmem h) (b + 4).
Definition b_flags (h : KHeap P) (b : Z) : Z := read32 (kmem h) (b + 8).
Definition b_chiesti (h : KHeap P) (b : Z) : Z := read32 (kmem h) (b + 12).
Definition b_prev (h : KHeap P) (b : Z) : Z := read32 (kmem h) (b + 20).
Definition b_next (h : KHeap P) (b : Z) : Z := read32 (kmem h) (b + 24).

Definition put_size (b v : Z) : KHeap P -> KHeap P := put32 b v.
Definition put_magic (b v : Z) : KHeap P -> KHeap P := put32 (b + 4) v.
Definition put_flags (b v : Z) : KHeap P -> KHeap P := put32 (b + 8) v.
Definition put_chiesti (b v : Z) : KHeap P -> KHeap P := put32 (b + 12) v.
Definition put_chi (b v : Z) : KHeap P -> KHeap P := put32 (b + 16) v.
Definition put_prev (b v : Z) : KHeap P -> KHeap P := put32 (b + 20) v.
Definition put_next (b v : Z) : KHeap P -> KHeap P := put32 (b + 24) v.

Definition r_next (h : KHeap P) (r : Z) : Z := read32 (kmem h) r.
Definition r_fine (h : KHeap P) (r : Z) : Z := read32 (kmem h) (r + 4).

(** ** Helpers *)

Definition heap_align (size : Z) : Z := align_up size HEAP_ALIGN.

Definition block_valid (h : KHeap P) (b : Z) : bool :=
  negb (b =? NULL) && (b_magic h b =? HEAP_MAGIC).

Definition canarino_di (h : KHeap P) (b : Z) : Z := u32 (b + BLOCK_HEADER_SIZE + b_chiesti h b).

Definition canarino_c_e (h : KHeap P) (b : Z) : bool :=
  (b_flags h b =? BLOCK_USED) && (u32 (b_chiesti h b + 4) <=? b_size h b).

Definition canarino_scrivi (b : Z) (h : KHeap P) : KHeap P :=
  if canarino_c_e h b then put32 (canarino_di h b) HEAP_CANARINO h else h.

Definition canarino_rotto (b : Z) (h : KHeap P) : bool * KHeap P :=
  if negb (canarino_c_e h b) then (false, h) else
  if read32 (kmem h) (canarino_di h b) =? HEAP_CANARINO then (false, h)
  else (true, add_counts 0 0 0 0 0 1 h).

Definition block_next_phys (h : KHeap P) (b : Z) : Z := u32 (b + BLOCK_HEADER_SIZE + b_size h b).

Definition free_list_remove (b : Z) (h : KHeap P) : KHeap P :=
  let h := if negb (b_prev h b =? NULL) then put_next (b_prev h b) (b_next h b) h
           else set_free_list (b_next h b) h in
  let h := if negb (b_next h b =? NULL) then put_prev (b_next h b) (b_prev h b) h else h in
  let h := put_prev b NULL h in
  put_next b NULL h.

Definition free_list_add (b : Z) (h : KHeap P) : KHeap P :=
  let h := put_prev b NULL h in
  let h := put_next b (g_free_list h) h in
  let h := if negb (g_free_list h =? NULL) then put_prev (g_free_list h) b h else h in
  set_free_list b h.

(** Steps enough for every walk: a block takes at least its header, so the
    heap holds at most [g_heap_size / 28] of them, and fewer regions. *)
Definition fuel (h : KHeap P) : nat := S (Z.to_nat (g_heap_size h / BLOCK_HEADER_SIZE)).

Fixpoint regione_loop (p r : Z) (n : nat) (h : KHeap P) : run Z :=
  if r =? NULL then Ok NULL else
  match n with
  | O => NoFuel
  | S n => if (r <=? p) && (p <? r_fine h r) then Ok r else regione_loop p (r_next h r) n h
  end.

Definition regione_di (p : Z) (h : KHeap P) : run Z := regione_loop p (g_regioni h) (fuel h) h.

Definition regione_primo (r : Z) : Z := u32 (r + REGION_HEADER_SIZE).

Definition dentro_regione (h : KHeap P) (r b : Z) : bool :=
  (regione_primo r <=? b) && (u32 (b + BLOCK_HEADER_SIZE) <=? r_fine h r).

(** ** Growing the heap *)

(** The header of a fresh free block. *)
Definition blocco_nuovo (b size : Z) (h : KHeap P) : KHeap P :=
  put_next b NULL (put_prev b NULL (put_flags b BLOCK_FREE (put_magic b HEAP_MAGIC (put_size b size h)))).

(** The region that ends exactly at [virt], if any. *)
Fixpoint regione_fino_a (virt r : Z) (n : nat) (h : KHeap P) : run Z :=
  if r =? NULL then Ok NULL else
  match n with
  | O => NoFuel
  | S n => if r_fine h r =? virt then Ok r else regione_fino_a virt (r_next h r) n h
  end.

Definition heap_expand (pages : Z) (h : KHeap P) : run (Z * KHeap P) :=
  let '(phys, p) := ps_alloc pages (kpages h) in
  let h := set_pages p h in
  if phys =? 0 then Ok (NULL, h) else
  let size_bytes := u32 (pages * PAGE_SIZE) in
  let virt := phys in
  r ← regione_fino_a virt (g_regioni h) (fuel h) h;
  if negb (r =? NULL) then
    let h := put32 (r + 4) (u32 (virt + size_bytes)) h in
    let new_block := virt in
    let h := blocco_nuovo new_block (u32 (size_bytes - BLOCK_HEADER_SIZE)) h in
    Ok (new_block, set_heap_size (u32 (g_heap_size h + size_bytes)) new_block h)
  else
    let r := virt in
    let h := put32 (r + 4) (u32 (virt + size_bytes)) h in
    let h := put32 r (g_regioni h) h in
    let h := set_regioni r (if g_prima_regione h =? NULL then r else g_prima_regione h) h in
    let new_block := regione_primo r in
    let h := blocco_nuovo new_block (u32 (size_bytes - REGION_HEADER_SIZE - BLOCK_HEADER_SIZE)) h in
    Ok (new_block, set_heap_size (u32 (g_heap_size h + size_bytes)) new_block h).

(** The static state at boot, before [kmalloc_init]. *)
Definition kheap_zero (m : gmap Z Z) (p : P) : KHeap P :=
  mkKHeap m 0 0 0 0 0 0 0 0 0 0 0 0 0 p.

Definition kmalloc_init (h : KHeap P) : run (KHeap P) :=
  let h := mkKHeap (kmem h) (g_heap_start h) (g_heap_end h) NULL (g_regioni h) (g_prima_regione h)
             KERNEL_HEAP_BASE 0 (g_alloc_count h) (g_free_count h) (g_stop_avanti h)
             (g_stop_indietro h) (g_intestazioni_rotte h) (g_canarini_rotti h) (kpages h) in
  '(first_block, h) ← heap_expand 16 h;
  if first_block =? NULL then Panic else
  Ok (free_list_add first_block (set_heap_start first_block h)).

(** ** Allocation *)

(** First fit; [kpanic] on a block whose magic is wrong. *)
Fixpoint first_fit (aligned_size b : Z) (n : nat) (h : KHeap P) : run Z :=
  if b =? NULL then Ok NULL else
  match n with
  | O => NoFuel
  | S n =>
      if negb (block_valid h b) then Panic else
      if (b_flags h b =? BLOCK_FREE) && (aligned_size <=? b_size h b) then Ok b
      else first_fit aligned_size (b_next h b) n h
  end.

(** The end of [kmalloc]: the chosen block leaves the free list, its tail
    becomes a free block when it is large enough, the header is filled in. *)
Definition kmalloc_prendi (block aligned_size size chi : Z) (h : KHeap P) : KHeap P :=
  let h := free_list_remove block h in
  let leftover := u32 (b_size h block - aligned_size) in
  let h :=
    if BLOCK_HEADER_SIZE + HEAP_MIN_SIZE <=? leftover then
      let residual := u32 (block + BLOCK_HEADER_SIZE + aligned_size) in
      let h := blocco_nuovo residual (u32 (leftover - BLOCK_HEADER_SIZE)) h in
      let h := free_list_add residual h in
      put_size block aligned_size h
    else h in
  let h := put_flags block BLOCK_USED h in
  let h := put_chiesti block size h in
  let h := put_chi block chi h in
  let h := canarino_scrivi block h in
  add_counts 1 0 0 0 0 0 h.

(** [chi] is the return address of the caller. *)
Definition kmalloc (size chi : Z) (h : KHeap P) : run (Z * KHeap P) :=
  if size =? 0 then Ok (NULL, h) else
  let aligned_size := heap_align (u32 (size + 4)) in
  let aligned_size := if aligned_size <? HEAP_MIN_SIZE then HEAP_MIN_SIZE else aligned_size in
  block ← first_fit aligned_size (g_free_list h) (fuel h) h;
  if block =? NULL then
    let pages_needed := align_up (u32 (aligned_size + BLOCK_HEADER_SIZE)) PAGE_SIZE / PAGE_SIZE in
    let pages_needed := if pages_needed <? 4 then 4 else pages_needed in
    '(block, h) ← heap_expand pages_needed h;
    if block =? NULL then Ok (NULL, h)
    else
      let h := kmalloc_prendi block aligned_size size chi (free_list_add block h) in
      Ok (u32 (block + BLOCK_HEADER_SIZE), h)
  else Ok (u32 (block + BLOCK_HEADER_SIZE), kmalloc_prendi block aligned_size size chi h).

Definition kmalloc_aligned (size alignment chi : Z) (h : KHeap P) : run (Z * KHeap P) :=
  '(raw, h) ← kmalloc (u32 (size + alignment + 4)) chi h;
  if raw =? NULL then Ok (NULL, h) else
  let aligned := align_up (u32 (raw + 4)) alignment in
  Ok (aligned, put32 (u32 (aligned - 4)) raw h).

(** ** Release *)

(** The backward scan of [kfree]: the block of the region that ends where
    [block] begins, [NULL] if there is none or the chain is broken. *)
Fixpoint cerca_precedente (regione block scan : Z) (n : nat) (h : KHeap P) : run Z :=
  if negb (scan <? block) then Ok NULL else
  match n with
  | O => NoFuel
  | S n =>
      if negb (dentro_regione h regione scan) then Ok NULL else
      if negb (block_valid h scan) then Ok NULL else
      let nx := block_next_phys h scan in
      if nx =? block then Ok scan else
      if nx <=? scan then Ok NULL
      else cerca_precedente regione block nx n h
  end.

(** Coalescence with the block that follows in memory. *)
Definition kfree_avanti (regione block : Z) (h : KHeap P) : KHeap P :=
  let next_phys := block_next_phys h block in
  if negb (dentro_regione h regione next_phys) then
    add_counts 0 0 1 0 (if r_fine h regione <? next_phys then 1 else 0) 0 h
  else if block_valid h next_phys && (b_flags h next_phys =? BLOCK_FREE) then
    let h := free_list_remove next_phys h in
    put_size block (u32 (b_size h block + BLOCK_HEADER_SIZE + b_size h next_phys)) h
  else h.

(** Coalescence with the block that precedes it; the block that goes to the
    free list is returned. *)
Definition kfree_indietro (regione block : Z) (h : KHeap P) : run (Z * KHeap P) :=
  let h := if regione =? g_prima_regione h then h else add_counts 0 0 0 1 0 0 h in
  prev_phys_blk ← cerca_precedente regione block (regione_primo regione) (fuel h) h;
  if negb (prev_phys_blk =? NULL) && (b_flags h prev_phys_blk =? BLOCK_FREE) then
    let h := free_list_remove prev_phys_blk h in
    let h := put_size prev_phys_blk (u32 (b_size h prev_phys_blk + BLOCK_HEADER_SIZE + b_size h block)) h in
    Ok (prev_phys_blk, h)
  else Ok (block, h).

Definition kfree (ptr : Z) (h : KHeap P) : run (KHeap P) :=
  if ptr =? NULL then Ok h else
  let block := u32 (ptr - BLOCK_HEADER_SIZE) in
  regione ← regione_di block h;
  if regione =? NULL then Panic else
  if negb (block_valid h block) then Panic else
  if b_flags h block =? BLOCK_FREE then Ok h else
  let '(_, h) := canarino_rotto block h in
  let h := put_flags block BLOCK_FREE h in
  let h := add_counts 0 1 0 0 0 0 h in
  let h := kfree_avanti regione block h in
  '(block, h) ← kfree_indietro regione block h;
  Ok (free_list_add block h).

Definition kfree_aligned (ptr : Z) (h : KHeap P) : run (KHeap P) :=
  if ptr =? NULL then Ok h else
  kfree (read32 (kmem h) (u32 (ptr - 4))) h.

(** ** The whole-heap check *)

Fixpoint verifica_blocchi (r b guai visti : Z) (n : nat) (h : KHeap P) : run (Z * Z * KHeap P) :=
  if negb (dentro_regione h r b) then Ok (guai, visti, h) else
  match n with
  | O => NoFuel
  | S n =>
      if negb (block_valid h b) then Ok (u32 (guai + 1), visti, h) else
      if r_fine h r <? u32 (b + BLOCK_HEADER_SIZE + b_size h b) then Ok (u32 (guai + 1), u32 (visti + 1), h) else
      let '(rotto, h) := canarino_rotto b h in
      verifica_blocchi r (block_next_phys h b) (if rotto then u32 (guai + 1) else guai) (u32 (visti + 1)) n h
  end.

Fixpoint verifica_regioni (r guai visti : Z) (n : nat) (h : KHeap P) : run (Z * Z * KHeap P) :=
  if r =? NULL then Ok (guai, visti, h) else
  match n with
  | O => NoFuel
  | S n =>
      '(guai, visti, h) ← verifica_blocchi r (regione_primo r) guai visti (fuel h) h;
      verifica_regioni (r_next h r) guai visti n h
  end.

(** The number of faults found, and of blocks seen. *)
Definition kmalloc_verifica (h : KHeap P) : run (Z * Z * KHeap P) :=
  verifica_regioni (g_regioni h) 0 0 (fuel h) h.

End Kheap.
