(* ===== verification/KheapInv.v ===== *)
(** * The kernel heap: ghost layout and invariant

    The bytes of the heap are described by a layout: the regions in the order
    of [g_regioni], each tiled by its blocks.  [kst h L F] says that the state
    [h] has the layout [L] and that its free list is the list of blocks [F];
    [kinv h L] adds that the free list holds exactly the free blocks.  The
    lemmas below are the frame and replacement steps from which the operations
    of KheapSpec.v are proved. *)

From S2P Require Import Prelude Mem Pmm PmmSpec Kheap.

Record Blk : Type := mkBlk { ba : Z; bsz : Z; bused : bool; bch : Z }.
Record Reg : Type := mkReg { ra : Z; rfine : Z; rblks : list Blk }.

Definition blocks (L : list Reg) : list Blk := mjoin (rblks <$> L).

Definition frees (bs : list Blk) : list Z := ba <$> filter (fun b => bused b = false) bs.

Definition useds (bs : list Blk) : list Blk := filter (fun b => bused b = true) bs.

(** The allocated payloads: pointer and requested size. *)
Definition pays (bs : list Blk) : list (Z * Z) :=
  (fun b => (ba b + BLOCK_HEADER_SIZE, bch b)) <$> useds bs.

Definition bend (b : Blk) : Z := ba b + BLOCK_HEADER_SIZE + bsz b.

(** ** Geometry *)

Definition blk_geo (b : Blk) : Prop :=
  HEAP_MIN_SIZE <= bsz b /\ ba b mod 4 = 0 /\ bsz b mod 4 = 0 /\
  (bused b = true -> 0 <= bch b /\ bch b + 4 <= bsz b).

Fixpoint tile (a : Z) (bs : list Blk) (e : Z) : Prop :=
  match bs with
  | [] => a = e
  | b :: t => ba b = a /\ blk_geo b /\ tile (bend b) t e
  end.

Definition reg_geo (R : Reg) : Prop :=
  0 < ra R /\ ra R mod PAGE_SIZE = 0 /\ rfine R mod PAGE_SIZE = 0 /\
  rfine R <= USER_SPACE_BASE /\ rblks R <> [] /\
  tile (ra R + REGION_HEADER_SIZE) (rblks R) (rfine R).

Definition reg_disj (R S : Reg) : Prop := rfine R <= ra S \/ rfine S <= ra R.

Definition geom (L : list Reg) : Prop := Forall reg_geo L /\ pairwise reg_disj L.

Definition blk_disj (b c : Blk) : Prop := bend b <= ba c \/ bend c <= ba b.

Lemma bend_eq b : bend b = ba b + 28 + bsz b.
Proof. reflexivity. Qed.

Lemma tile_app a bs cs e :
  tile a (bs ++ cs) e <-> exists m, tile a bs m /\ tile m cs e.
Proof.
  revert a. induction bs as [|b bs IH]; intros a; simpl.
  - split; [eauto | intros (m & -> & ?); done].
  - rewrite IH. split.
    + intros (E & G & m & H1 & H2). eauto.
    + intros (m & (E & G & H1) & H2). eauto.
Qed.

Lemma tile_le a bs e : tile a bs e -> a <= e.
Proof.
  revert a. induction bs as [|b bs IH]; simpl; intros a H; [lia|].
  destruct H as (<- & (Hm & _) & Ht). apply IH in Ht. rewrite bend_eq in Ht.
  unfold HEAP_MIN_SIZE in Hm. lia.
Qed.

Lemma tile_elem a bs e b :
  tile a bs e -> b ∈ bs -> blk_geo b /\ a <= ba b /\ bend b <= e.
Proof.
  revert a. induction bs as [|c bs IH]; simpl; intros a H Hb; [by apply elem_of_nil in Hb|].
  destruct H as (<- & G & Ht). apply elem_of_cons in Hb as [->|Hb].
  - apply tile_le in Ht. split_and!; [done | lia | done].
  - destruct (IH _ Ht Hb) as (? & Hle & ?). destruct G as (Hm & _).
    rewrite bend_eq in Hle. unfold HEAP_MIN_SIZE in Hm. split_and!; [done | lia | done].
Qed.

Lemma tile_pairwise a bs e : tile a bs e -> pairwise blk_disj bs.
Proof.
  revert a. induction bs as [|c bs IH]; simpl; intros a H; [done|].
  destruct H as (<- & G & Ht). split; [|by eapply IH].
  apply Forall_forall. intros b Hb. left. by apply (tile_elem _ _ _ _ Ht Hb).
Qed.

Lemma tile_length a bs e : tile a bs e -> 44 * Z.of_nat (length bs) <= e - a.
Proof.
  revert a. induction bs as [|c bs IH]; simpl; intros a H; [lia|].
  destruct H as (<- & (Hm & _) & Ht). apply IH in Ht. rewrite bend_eq in Ht.
  unfold HEAP_MIN_SIZE in Hm. lia.
Qed.

Lemma blocks_elem L b : b ∈ blocks L <-> exists R, R ∈ L /\ b ∈ rblks R.
Proof.
  unfold blocks. rewrite list_elem_of_join. split.
  - intros (l & Hb & Hl). apply list_elem_of_fmap in Hl as (R & -> & ?). eauto.
  - intros (R & HR & Hb). exists (rblks R). split; [done|]. by apply list_elem_of_fmap_2.
Qed.

Lemma blocks_app L1 L2 : blocks (L1 ++ L2) = blocks L1 ++ blocks L2.
Proof. unfold blocks. by rewrite fmap_app, join_app. Qed.

Lemma blocks_mid L1 r f B L2 :
  blocks (L1 ++ mkReg r f B :: L2) = blocks L1 ++ B ++ blocks L2.
Proof. by rewrite blocks_app. Qed.

(** A block of the layout, with the bounds that make the arithmetic on its
    addresses exact. *)
Lemma geom_block L b :
  geom L -> b ∈ blocks L ->
  blk_geo b /\ 8 < ba b /\ bend b <= USER_SPACE_BASE.
Proof.
  intros [G _] Hb. apply blocks_elem in Hb as (R & HR & Hb).
  rewrite Forall_forall in G. destruct (G _ HR) as (H0 & _ & _ & Hf & _ & Ht).
  destruct (tile_elem _ _ _ _ Ht Hb) as (? & ? & ?).
  unfold REGION_HEADER_SIZE in *. split_and!; [done | lia | lia].
Qed.

Lemma geom_pairwise L : geom L -> pairwise blk_disj (blocks L).
Proof.
  intros [G HP]. induction L as [|R L IH]; simpl; [done|].
  change (blocks (R :: L)) with (rblks R ++ blocks L).
  apply Forall_cons in G as [GR G]. destruct HP as [HR HP].
  apply pairwise_app. split_and!; [by eapply tile_pairwise, GR | by apply IH |].
  apply Forall_forall. intros b Hb. apply Forall_forall. intros c Hc.
  apply blocks_elem in Hc as (S & HS & Hc).
  rewrite Forall_forall in G, HR. pose proof (HR _ HS) as HD.
  destruct GR as (_ & _ & _ & _ & _ & TR). destruct (G _ HS) as (_ & _ & _ & _ & _ & TS).
  destruct (tile_elem _ _ _ _ TR Hb) as (? & ? & ?). destruct (tile_elem _ _ _ _ TS Hc) as (? & ? & ?).
  unfold blk_disj, REGION_HEADER_SIZE in *. destruct HD; lia.
Qed.

Lemma geom_disj L b c :
  geom L -> b ∈ blocks L -> c ∈ blocks L -> b = c \/ bend b <= ba c \/ bend c <= ba b.
Proof.
  intros G Hb Hc. destruct (pairwise_elem _ _ _ _ (geom_pairwise _ G) Hb Hc) as [?|[[?|?]|[?|?]]]; auto.
Qed.

(** Blocks are determined by their addresses. *)
Lemma geom_inj L b c : geom L -> b ∈ blocks L -> c ∈ blocks L -> ba b = ba c -> b = c.
Proof.
  intros G Hb Hc E. destruct (geom_block _ _ G Hb) as ((? & _) & _ & _).
  destruct (geom_block _ _ G Hc) as ((? & _) & _ & _). unfold HEAP_MIN_SIZE in *.
  destruct (geom_disj _ _ _ G Hb Hc) as [?|[?|?]]; [done | | ]; rewrite bend_eq in *; lia.
Qed.

(** No block reaches into the header of a region. *)
Lemma geom_header L b R :
  geom L -> b ∈ blocks L -> R ∈ L -> ra R + 8 <= ba b \/ bend b <= ra R.
Proof.
  intros [G HP] Hb HR. apply blocks_elem in Hb as (S & HS & Hb).
  rewrite Forall_forall in G. destruct (G _ HS) as (_ & _ & _ & _ & _ & TS).
  destruct (tile_elem _ _ _ _ TS Hb) as ((HG & _) & ? & ?).
  unfold REGION_HEADER_SIZE, HEAP_MIN_SIZE in *.
  destruct (G _ HR) as (_ & _ & _ & _ & _ & TR). apply tile_le in TR.
  unfold REGION_HEADER_SIZE in *.
  destruct (pairwise_elem _ _ _ _ HP HS HR) as [->|[[?|?]|[?|?]]]; rewrite bend_eq in *; lia.
Qed.

Lemma geom_region L R :
  geom L -> R ∈ L -> 0 < ra R /\ ra R + 52 <= rfine R /\ rfine R <= USER_SPACE_BASE.
Proof.
  intros [G _] HR. rewrite Forall_forall in G. destruct (G _ HR) as (? & _ & _ & ? & Hn & TR).
  split_and!; [done | | done]. destruct (rblks R) as [|b t] eqn:E; [done|]. apply tile_length in TR.
  unfold REGION_HEADER_SIZE in TR. simpl in TR. lia.
Qed.

(** ** Memory predicates *)

Definition blk_ok (m : gmap Z Z) (b : Blk) : Prop :=
  read32 m (ba b) = bsz b /\ read32 m (ba b + 4) = HEAP_MAGIC /\
  read32 m (ba b + 8) = (if bused b then BLOCK_USED else BLOCK_FREE) /\
  (bused b = true ->
     read32 m (ba b + 12) = bch b /\ read32 m (ba b + 28 + bch b) = HEAP_CANARINO).

(** A segment of the free list, from the predecessor [p] to the successor [n]. *)
Fixpoint dll (m : gmap Z Z) (p : Z) (F : list Z) (n : Z) : Prop :=
  match F with
  | [] => True
  | b :: t => read32 m (b + 20) = p /\ read32 m (b + 24) = hd n t /\ dll m b t n
  end.

Fixpoint rlist (m : gmap Z Z) (r : Z) (L : list Reg) : Prop :=
  match L with
  | [] => r = NULL
  | R :: t => r = ra R /\ read32 m (ra R + 4) = rfine R /\ rlist m (read32 m (ra R)) t
  end.

(** The bytes [blk_ok] depends on. *)
Definition blk_foot (b : Blk) (x : Z) : Prop :=
  ba b <= x < ba b + 12 \/
  (bused b = true /\ (ba b + 12 <= x < ba b + 16 \/ ba b + 28 + bch b <= x < ba b + 32 + bch b)).

Lemma blk_ok_same m m' b : same_on (blk_foot b) m m' -> blk_ok m b -> blk_ok m' b.
Proof.
  intros Hs (H1 & H2 & H3 & H4). unfold blk_ok.
  assert (Hr : forall a, (forall x, a <= x < a + 4 -> blk_foot b x) -> read32 m' a = read32 m a).
  { intros a Ha. apply read32_same. eapply same_on_weaken; [exact Ha | exact Hs]. }
  rewrite !(Hr (ba b)), !(Hr (ba b + 4)), !(Hr (ba b + 8)) by (unfold blk_foot; intros; lia).
  split_and!; try done. intros Hu. rewrite (Hr (ba b + 12)), (Hr (ba b + 28 + bch b)); auto;
    unfold blk_foot; intros; right; split; auto; lia.
Qed.

Lemma blk_ok_outside m m' b lo hi :
  blk_geo b -> same_on (fun x => ~ (lo <= x < hi)) m m' -> bend b <= lo \/ hi <= ba b ->
  blk_ok m b -> blk_ok m' b.
Proof.
  intros (? & _ & _ & Hu) Hs Hd. apply blk_ok_same. eapply same_on_weaken; [|exact Hs].
  intros x Hx. rewrite bend_eq in Hd. unfold HEAP_MIN_SIZE in *.
  destruct Hx as [?|[E ?]]; [lia|]. specialize (Hu E). lia.
Qed.

Lemma dll_same m m' p F n :
  (forall b, b ∈ F -> same_on (fun x => b + 20 <= x < b + 28) m m') -> dll m p F n -> dll m' p F n.
Proof.
  revert p. induction F as [|b F IH]; simpl; intros p Hs H; [done|].
  destruct H as (H1 & H2 & H3). assert (Hb := Hs b ltac:(by left)).
  split_and!; [rewrite <- H1 | rewrite <- H2 | apply IH; [|done]; intros; apply Hs; by right];
    apply read32_same; (eapply same_on_weaken; [|exact Hb]); simpl; intros; lia.
Qed.

Lemma dll_app m p F1 F2 n :
  dll m p (F1 ++ F2) n <-> dll m p F1 (hd n F2) /\ dll m (default p (last F1)) F2 n.
Proof.
  revert p. induction F1 as [|b F1 IH]; intros p; simpl; [tauto|].
  rewrite IH. replace (hd n (F1 ++ F2)) with (hd (hd n F2) F1) by by destruct F1.
  replace (default p (last (b :: F1))) with (default b (last F1)) by (rewrite last_cons; by destruct (last F1)).
  tauto.
Qed.

Lemma dll_snoc m p F1 q n :
  dll m p (F1 ++ [q]) n <->
  dll m p F1 q /\ read32 m (q + 20) = default p (last F1) /\ read32 m (q + 24) = n.
Proof. rewrite dll_app. simpl. tauto. Qed.

Lemma rlist_same m m' r L :
  (forall R, R ∈ L -> same_on (fun x => ra R <= x < ra R + 8) m m') -> rlist m r L -> rlist m' r L.
Proof.
  revert r. induction L as [|R L IH]; simpl; intros r Hs H; [done|].
  destruct H as (H1 & H2 & H3). assert (HR := Hs R ltac:(by left)).
  rewrite (read32_same m m' (ra R)), (read32_same m m' (ra R + 4));
    [| (eapply same_on_weaken; [|exact HR]); simpl; intros; lia ..].
  split_and!; [done | done |]. apply IH; [|done]. intros; apply Hs; by right.
Qed.

(** ** The free list operations *)

(** Nodes far enough apart that their link fields do not meet. *)
Definition spaced (F : list Z) : Prop :=
  Forall (fun b => 0 < b < W32 - 28) F /\ pairwise (fun b c => b + 28 <= c \/ c + 28 <= b) F.

Definition off_links (F : list Z) (x : Z) : Prop :=
  Forall (fun b => x < b + 20 \/ b + 28 <= x) F.

Lemma spaced_cons b F :
  spaced (b :: F) <->
  0 < b < W32 - 28 /\ Forall (fun c => b + 28 <= c \/ c + 28 <= b) F /\ spaced F.
Proof. unfold spaced. rewrite Forall_cons. simpl. tauto. Qed.

Lemma spaced_app F G :
  spaced (F ++ G) <->
  spaced F /\ spaced G /\ Forall (fun b => Forall (fun c => b + 28 <= c \/ c + 28 <= b) G) F.
Proof. unfold spaced. rewrite Forall_app, pairwise_app. tauto. Qed.

(** A bound on all elements from another bound in the context. *)
Ltac forall_lia :=
  match goal with
  | HF : Forall _ ?l |- Forall _ ?l => solve [eapply Forall_impl; [exact HF | simpl; intros; lia]]
  end.

(** The link fields of a segment survive a write elsewhere. *)
Lemma dll_write32 m p F n a v :
  Forall (fun c => a + 4 <= c + 20 \/ c + 28 <= a) F -> dll m p F n -> dll (write32 m a v) p F n.
Proof.
  intros HF. apply dll_same. intros b Hb. rewrite Forall_forall in HF. specialize (HF b Hb).
  apply same_on_write32; [done|]. intros; lia.
Qed.

(** ** Bytes of the allocated blocks *)

Definition used_bytes (L : list Reg) (x : Z) : Prop :=
  exists b, b ∈ blocks L /\ bused b = true /\ ba b <= x < bend b.

Definition hsum (L : list Reg) : Z := foldr (fun R s => rfine R - ra R + s) 0 L.

Lemma frees_elem bs f : f ∈ frees bs <-> exists b, b ∈ bs /\ bused b = false /\ ba b = f.
Proof.
  unfold frees. rewrite list_elem_of_fmap. setoid_rewrite list_elem_of_filter.
  split; [intros (b & -> & ? & ?) | intros (b & ? & ? & <-)]; eauto.
Qed.

Lemma frees_app bs cs : frees (bs ++ cs) = frees bs ++ frees cs.
Proof. unfold frees. by rewrite filter_app, fmap_app. Qed.

Lemma pays_app bs cs : pays (bs ++ cs) = pays bs ++ pays cs.
Proof. unfold pays, useds. by rewrite filter_app, fmap_app. Qed.

#[export] Instance frees_perm : Proper ((≡ₚ) ==> (≡ₚ)) frees.
Proof. intros bs cs HB. unfold frees. by rewrite HB. Qed.

#[export] Instance useds_perm : Proper ((≡ₚ) ==> (≡ₚ)) useds.
Proof. intros bs cs HB. unfold useds. by rewrite HB. Qed.

#[export] Instance pays_perm : Proper ((≡ₚ) ==> (≡ₚ)) pays.
Proof. intros bs cs HB. unfold pays. by rewrite HB. Qed.

Lemma frees_cons b bs : frees (b :: bs) = if bused b then frees bs else ba b :: frees bs.
Proof. unfold frees. rewrite filter_cons. by destruct (bused b). Qed.

Lemma pays_cons b bs :
  pays (b :: bs) = if bused b then (ba b + BLOCK_HEADER_SIZE, bch b) :: pays bs else pays bs.
Proof. unfold pays, useds. rewrite filter_cons. by destruct (bused b). Qed.

Lemma useds_app bs cs : useds (bs ++ cs) = useds bs ++ useds cs.
Proof. apply filter_app. Qed.

Lemma useds_cons b bs : useds (b :: bs) = if bused b then b :: useds bs else useds bs.
Proof. unfold useds. rewrite filter_cons. by destruct (bused b). Qed.

Lemma useds_elem bs b : b ∈ useds bs <-> b ∈ bs /\ bused b = true.
Proof. unfold useds. rewrite list_elem_of_filter. tauto. Qed.

(** [used_bytes] depends on the allocated blocks only. *)
Lemma used_bytes_mono L L' x :
  (forall b, b ∈ useds (blocks L) -> b ∈ useds (blocks L')) -> used_bytes L x -> used_bytes L' x.
Proof.
  intros Hsub (b & Hb & Ub & Hx). destruct (proj1 (useds_elem _ _) (Hsub b (proj2 (useds_elem _ _) (conj Hb Ub)))).
  by exists b.
Qed.

Lemma spaced_frees L F :
  geom L -> NoDup F -> (forall f, f ∈ F -> f ∈ frees (blocks L)) -> spaced F.
Proof.
  intros G. induction F as [|f F IH]; intros N HF; [by split|].
  apply NoDup_cons in N as [Nf N]. apply spaced_cons.
  assert (Hf := HF f ltac:(by left)). apply frees_elem in Hf as (b & Hb & Fb & <-).
  destruct (geom_block _ _ G Hb) as ((Gb & _) & Lb & Ub). rewrite bend_eq in Ub.
  unfold USER_SPACE_BASE, HEAP_MIN_SIZE, W32 in *.
  split_and!; [lia | lia | | apply IH; auto; intros; apply HF; by right].
  apply Forall_forall. intros c Hc. assert (Hc' := HF c ltac:(by right)).
  apply frees_elem in Hc' as (d & Hd & Fd & <-).
  destruct (geom_block _ _ G Hd) as ((Gd & _) & _ & _). unfold HEAP_MIN_SIZE in *.
  destruct (geom_disj _ _ _ G Hb Hd) as [->|?]; [done|]. rewrite !bend_eq in *. lia.
Qed.

Lemma tile_unique a bs e a' e' : bs <> [] -> tile a bs e -> tile a' bs e' -> a = a' /\ e = e'.
Proof.
  revert a a'. induction bs as [|b bs IH]; intros a a' N; [done|]. simpl.
  intros (<- & _ & Ht) (<- & _ & Ht'). split; [done|].
  destruct bs as [|c bs]; [simpl in *; congruence|].
  by destruct (IH (bend b) (bend b) ltac:(done) Ht Ht').
Qed.

(** Replacing the blocks of one stretch of a region. *)
Lemma geom_replace L1 r f B1 M B2 L2 M' lo hi :
  geom (L1 ++ mkReg r f (B1 ++ M ++ B2) :: L2) -> M <> [] -> M' <> [] ->
  tile lo M hi -> tile lo M' hi ->
  geom (L1 ++ mkReg r f (B1 ++ M' ++ B2) :: L2).
Proof.
  intros [G HP] N N' HM HM'. split.
  - apply Forall_app in G as [G1 G2]. apply Forall_cons in G2 as [GR G2].
    apply Forall_app. split; [done|]. apply Forall_cons. split; [|done].
    destruct GR as (R1 & R2 & R3 & R4 & R5 & R6). simpl in *.
    unfold reg_geo; simpl. split_and!; try done.
    { destruct B1; [|done]. by destruct M'. }
    apply tile_app in R6 as (x & T1 & T2). apply tile_app in T2 as (y & T2 & T3).
    destruct (tile_unique _ _ _ _ _ N HM T2) as [-> ->].
    apply tile_app. exists x. split; [done|]. apply tile_app. by exists y.
  - apply pairwise_app in HP as (P1 & P2 & P3). apply pairwise_app. simpl in *.
    split_and!; try apply P2; try done.
    eapply Forall_impl; [exact P3|]. simpl. intros R HR. apply Forall_cons in HR as [HR ?].
    by apply Forall_cons.
Qed.

(** The rest of the layout stays out of that stretch. *)
Lemma geom_others L1 r f B1 M B2 L2 lo hi b :
  geom (L1 ++ mkReg r f (B1 ++ M ++ B2) :: L2) -> M <> [] -> tile lo M hi ->
  b ∈ blocks L1 ++ B1 ++ B2 ++ blocks L2 -> blk_geo b /\ (bend b <= lo \/ hi <= ba b).
Proof.
  intros G N HM Hb.
  assert (Hbl : b ∈ blocks (L1 ++ mkReg r f (B1 ++ M ++ B2) :: L2)) by (rewrite blocks_mid; set_solver).
  split; [by apply (geom_block _ _ G Hbl)|].
  destruct G as [GF GP]. apply Forall_app in GF as [G1 G2]. apply Forall_cons in G2 as [GR G2].
  destruct GR as (R1 & R2 & R3 & R4 & R5 & R6). simpl in *.
  assert (R6' := R6). apply tile_le in R6'. unfold REGION_HEADER_SIZE in *.
  apply tile_app in R6 as (x & T1 & T2). apply tile_app in T2 as (y & T2 & T3).
  destruct (tile_unique _ _ _ _ _ N HM T2) as [-> ->].
  assert (E1 := tile_le _ _ _ T1). assert (E3 := tile_le _ _ _ T3).
  apply pairwise_app in GP as (P1 & P2 & P3). simpl in P2. destruct P2 as [P2 _].
  rewrite !elem_of_app in Hb. destruct Hb as [Hb|[Hb|[Hb|Hb]]].
  - apply blocks_elem in Hb as (S & HS & Hb). rewrite Forall_forall in P3, G1.
    specialize (P3 S HS). apply Forall_cons in P3 as [P3 _]. destruct (G1 _ HS) as (_ & _ & _ & _ & _ & TS).
    destruct (tile_elem _ _ _ _ TS Hb) as (? & ? & ?). unfold reg_disj, REGION_HEADER_SIZE in *.
    simpl in P3. lia.
  - left. by apply (tile_elem _ _ _ _ T1 Hb).
  - right. by apply (tile_elem _ _ _ _ T3 Hb).
  - apply blocks_elem in Hb as (S & HS & Hb). rewrite Forall_forall in P2, G2.
    specialize (P2 S HS). destruct (G2 _ HS) as (_ & _ & _ & _ & _ & TS).
    destruct (tile_elem _ _ _ _ TS Hb) as (? & ? & ?). unfold reg_disj, REGION_HEADER_SIZE in *.
    simpl in P2. lia.
Qed.

(** Nor does the stretch reach a region header. *)
Lemma geom_headers L1 r f B1 M B2 L2 lo hi R :
  geom (L1 ++ mkReg r f (B1 ++ M ++ B2) :: L2) -> M <> [] -> tile lo M hi ->
  R ∈ L1 ++ mkReg r f (B1 ++ M ++ B2) :: L2 -> ra R + 8 <= lo \/ hi <= ra R.
Proof.
  intros [GF GP] N HM HR. rewrite Forall_forall in GF. assert (GR := GF _ HR).
  destruct (GF (mkReg r f (B1 ++ M ++ B2))) as (R1 & R2 & R3 & R4 & R5 & R6); [set_solver|]. simpl in *.
  assert (E : r + 8 <= lo /\ hi <= f).
  { apply tile_app in R6 as (x & T1 & T2). apply tile_app in T2 as (y & T2 & T3).
    destruct (tile_unique _ _ _ _ _ N HM T2) as [-> ->].
    apply tile_le in T1. apply tile_le in T3. unfold REGION_HEADER_SIZE in *. lia. }
  destruct GR as (_ & _ & _ & _ & _ & TR). apply tile_le in TR. unfold REGION_HEADER_SIZE in *.
  destruct (pairwise_elem _ _ _ (mkReg r f (B1 ++ M ++ B2)) GP HR ltac:(set_solver)) as [->|[[?|?]|[?|?]]];
    simpl in *; lia.
Qed.

Section Frame.
Context (L : list Reg) (F : list Z) (m m' : gmap Z Z).
Hypotheses (G : geom L) (HF : forall f, f ∈ F -> f ∈ frees (blocks L))
  (Hs : same_on (off_links F) m m').

(** Link writes of free blocks stay away from the heads of all blocks ... *)
Lemma links_heads b : b ∈ blocks L -> same_on (fun x => ba b <= x < ba b + 20) m m'.
Proof.
  intros Hb. eapply same_on_weaken; [|exact Hs]. intros x Hx. apply Forall_forall. intros f Hf.
  apply HF, frees_elem in Hf as (c & Hc & Fc & <-).
  destruct (geom_block _ _ G Hb) as ((? & _) & _ & _). destruct (geom_block _ _ G Hc) as ((? & _) & _ & _).
  unfold HEAP_MIN_SIZE in *. destruct (geom_disj _ _ _ G Hb Hc) as [->|?]; rewrite ?bend_eq in *; lia.
Qed.

(** ... and from the bytes of the allocated ones. *)
Lemma links_used : same_on (used_bytes L) m m'.
Proof.
  eapply same_on_weaken; [|exact Hs]. intros x (b & Hb & Ub & Hx). apply Forall_forall. intros f Hf.
  apply HF, frees_elem in Hf as (c & Hc & Fc & <-).
  destruct (geom_block _ _ G Hc) as ((? & _) & _ & _). unfold HEAP_MIN_SIZE in *.
  destruct (geom_disj _ _ _ G Hb Hc) as [->|?]; [congruence | rewrite ?bend_eq in *; lia].
Qed.

Lemma links_blk : Forall (blk_ok m) (blocks L) -> Forall (blk_ok m') (blocks L).
Proof.
  intros HB. rewrite Forall_forall in HB |- *. intros b Hb. generalize (HB b Hb). apply blk_ok_same.
  intros x [Hx|[Ub Hx]].
  - apply (links_heads b Hb). lia.
  - apply links_used. exists b. split_and!; [done | done | ..];
      destruct (geom_block _ _ G Hb) as ((? & _ & _ & Hu) & _ & _); specialize (Hu Ub);
      unfold HEAP_MIN_SIZE in *; rewrite ?bend_eq; lia.
Qed.

Lemma links_rlist r : rlist m r L -> rlist m' r L.
Proof.
  apply rlist_same. intros R HR. eapply same_on_weaken; [|exact Hs]. intros x Hx.
  apply Forall_forall. intros f Hf. apply HF, frees_elem in Hf as (c & Hc & Fc & <-).
  destruct (geom_block _ _ G Hc) as ((? & _) & _ & _). unfold HEAP_MIN_SIZE in *.
  destruct (geom_header _ _ _ G Hc HR); rewrite ?bend_eq in *; lia.
Qed.
End Frame.

Section Steps.
Context {P : Type} `{PageSource P}.
Implicit Types (h : KHeap P).

Lemma kmem_put32 a v h : kmem (put32 a v h) = write32 (kmem h) a v.
Proof. reflexivity. Qed.

Lemma kmem_counts a1 a2 a3 a4 a5 a6 h : kmem (add_counts a1 a2 a3 a4 a5 a6 h) = kmem h.
Proof. reflexivity. Qed.

(** The state with another memory and another head of the free list. *)
Definition relink (m : gmap Z Z) (fl : Z) (h : KHeap P) : KHeap P := set_free_list fl (set_kmem m h).

Lemma free_list_add_eq b h :
  free_list_add b h =
  relink (let m := write32 (write32 (kmem h) (b + 20) NULL) (b + 24) (g_free_list h) in
          if g_free_list h =? NULL then m else write32 m (g_free_list h + 20) b) b h.
Proof. unfold free_list_add, put_prev, put_next, put32. simpl. by destruct (g_free_list h =? NULL). Qed.

Lemma free_list_add_dll b F h :
  g_free_list h = hd NULL F -> dll (kmem h) NULL F NULL -> spaced (b :: F) ->
  exists m', free_list_add b h = relink m' b h /\ dll m' NULL (b :: F) NULL /\
    same_on (off_links (b :: F)) (kmem h) m'.
Proof.
  intros Hh Hd Hs. rewrite free_list_add_eq. eexists. split; [reflexivity|].
  apply spaced_cons in Hs as (Hb & Hbf & Hs). rewrite Hh.
  destruct F as [|f F]; simpl.
  - split.
    + mem_simp. done.
    + intros x Hx. apply Forall_cons in Hx as [Hx _]. rewrite !read8_write32_ne by lia. done.
  - apply spaced_cons in Hs as (Hf & Hff & Hs). apply Forall_cons in Hbf as [Hbf Hbf'].
    replace (f =? NULL) with false by (symmetry; apply Z.eqb_neq; unfold NULL; lia).
    simpl in Hd. destruct Hd as (H1 & H2 & H3). split.
    + mem_simp. u32s. rewrite H2. split_and!; try done.
      repeat apply dll_write32; try done.
      * eapply Forall_impl; [exact Hff|]. simpl. intros; lia.
      * eapply Forall_impl; [exact Hbf'|]. simpl. intros; lia.
      * eapply Forall_impl; [exact Hbf'|]. simpl. intros; lia.
    + intros x Hx. apply Forall_cons in Hx as [Hx Hx']. apply Forall_cons in Hx' as [Hx' _].
      rewrite !read8_write32_ne by lia. done.
Qed.

Lemma free_list_remove_eq b h p n :
  b_prev h b = p -> b_next h b = n -> p <> b -> n <> b ->
  (n + 28 <= b \/ b + 28 <= n \/ n = NULL) -> (p + 28 <= b \/ b + 28 <= p \/ p = NULL) ->
  free_list_remove b h =
  relink (let m := if p =? NULL then kmem h else write32 (kmem h) (p + 24) n in
          let m := if n =? NULL then m else write32 m (n + 20) p in
          write32 (write32 m (b + 20) NULL) (b + 24) NULL)
    (if p =? NULL then n else g_free_list h) h.
Proof.
  intros Hp Hn Hpb Hnb Dn Dp.
  unfold free_list_remove, b_prev, b_next, put_prev, put_next, put32 in *. simpl. rewrite Hp, Hn.
  destruct (Z.eqb_spec p NULL) as [->|Np]; simpl.
  - rewrite Hn, Hp. by destruct (n =? NULL).
  - destruct Dp as [Dp|[Dp|?]]; [..|done]; mem_simp; rewrite Hn, Hp; by destruct (n =? NULL).
Qed.

Lemma hd_app_cons (n : Z) F1 (b : Z) F2 : hd n (F1 ++ b :: F2) = hd b F1.
Proof. by destruct F1. Qed.

Lemma free_list_remove_dll F1 b F2 h :
  g_free_list h = hd NULL (F1 ++ b :: F2) -> dll (kmem h) NULL (F1 ++ b :: F2) NULL ->
  spaced (F1 ++ b :: F2) ->
  exists m', free_list_remove b h = relink m' (hd NULL (F1 ++ F2)) h /\
    dll m' NULL (F1 ++ F2) NULL /\ same_on (off_links (F1 ++ b :: F2)) (kmem h) m'.
Proof.
  intros Hh Hd Hs.
  apply spaced_app in Hs as (Hs1 & Hs2 & Hs12). apply spaced_cons in Hs2 as (Hb & Hb2 & Hs2).
  apply dll_app in Hd as [Hd1 Hd2]. simpl in Hd2. destruct Hd2 as (Hp & Hn & Hd2).
  rewrite hd_app_cons in Hh. simpl in Hd1.
  assert (Hb1 : Forall (fun c => b + 28 <= c \/ c + 28 <= b) F1).
  { eapply Forall_impl; [exact Hs12|]. simpl. intros x Hx. apply Forall_cons in Hx. lia. }
  destruct F1 as [|q F1 _] using rev_ind.
  - simpl in Hp, Hh. destruct F2 as [|n F2]; simpl in Hn.
    + rewrite (free_list_remove_eq b h NULL NULL) by (unfold b_prev, b_next, NULL in *; auto; lia).
      eexists. split; [reflexivity|]. split; [done|].
      intros x Hx. apply Forall_cons in Hx as [Hx _]. simpl. rewrite !read8_write32_ne by lia. done.
    + apply Forall_cons in Hb2 as [Hbn Hb2]. apply spaced_cons in Hs2 as (Hn0 & Hn2 & Hs2).
      rewrite (free_list_remove_eq b h NULL n) by (unfold b_prev, b_next, NULL in *; auto; lia).
      eexists. split; [reflexivity|]. simpl in Hd2 |- *. destruct Hd2 as (E1 & E2 & Hd2).
      replace (n =? NULL) with false by (symmetry; apply Z.eqb_neq; unfold NULL; lia).
      split.
      * mem_simp. split_and!; [done|done|].
        repeat apply dll_write32; try done; forall_lia.
      * intros x Hx. apply Forall_cons in Hx as [Hx Hx']. apply Forall_cons in Hx' as [Hx' _].
        rewrite !read8_write32_ne by lia. done.
  - rewrite last_snoc in Hp. simpl in Hp.
    apply Forall_app in Hb1 as [Hb1 Hbq]. apply Forall_cons in Hbq as [Hbq _].
    apply spaced_app in Hs1 as (Hs1 & Hq & Hq1). apply spaced_cons in Hq as (Hq & _ & _).
    assert (Hq1' : Forall (fun c => c + 28 <= q \/ q + 28 <= c) F1).
    { eapply Forall_impl; [exact Hq1|]. simpl. intros x Hx. apply Forall_cons in Hx. lia. }
    apply Forall_app in Hs12 as [Hs12 Hq2]. apply Forall_cons in Hq2 as [Hq2 _].
    apply Forall_cons in Hq2 as [_ Hq2].
    apply dll_snoc in Hd1 as (Hd1 & E1 & E2).
    assert (Hhd : forall l, hd NULL ((F1 ++ [q]) ++ l) = hd q F1) by (intros; by destruct F1).
    rewrite Hhd. assert (Hhq : g_free_list h = hd q F1) by (rewrite Hh; by destruct F1).
    destruct F2 as [|n F2].
    + simpl in Hn.
      rewrite (free_list_remove_eq b h q NULL) by (unfold b_prev, b_next, NULL in *; auto; lia).
      replace (q =? NULL) with false by (symmetry; apply Z.eqb_neq; unfold NULL; lia).
      rewrite Hhq. eexists. split; [reflexivity|]. rewrite app_nil_r. cbn zeta. rewrite Z.eqb_refl.
      split.
      * apply dll_snoc. mem_simp. split_and!; [|done|done].
        repeat apply dll_write32; try done; forall_lia.
      * intros x Hx. apply Forall_app in Hx as [Hx Hx']. apply Forall_app in Hx as [_ Hx].
        apply Forall_cons in Hx as [Hx _]. apply Forall_cons in Hx' as [Hx' _].
        rewrite !read8_write32_ne by lia. done.
    + simpl in Hn. apply Forall_cons in Hb2 as [Hbn Hb2]. apply spaced_cons in Hs2 as (Hn0 & Hn2 & Hs2).
      apply Forall_cons in Hq2 as [Hqn Hq2].
      assert (Hn1 : Forall (fun c => c + 28 <= n \/ n + 28 <= c) F1).
      { eapply Forall_impl; [exact Hs12|]. simpl. intros x Hx. apply Forall_cons in Hx as [_ Hx].
        apply Forall_cons in Hx. lia. }
      simpl in Hd2. destruct Hd2 as (E3 & E4 & Hd2).
      rewrite (free_list_remove_eq b h q n) by (unfold b_prev, b_next, NULL in *; auto; lia).
      replace (q =? NULL) with false by (symmetry; apply Z.eqb_neq; unfold NULL; lia).
      rewrite Hhq. eexists. split; [reflexivity|]. cbn zeta.
      replace (n =? NULL) with false by (symmetry; apply Z.eqb_neq; unfold NULL; lia).
      split.
      * apply dll_app. simpl. rewrite last_snoc, dll_snoc. simpl. mem_simp. u32s.
        split_and!; try done;
          repeat apply dll_write32; try done; forall_lia.
      * intros x Hx. apply Forall_app in Hx as [Hx Hx']. apply Forall_app in Hx as [_ Hx].
        apply Forall_cons in Hx as [Hx _]. apply Forall_cons in Hx' as [Hx' Hx'']. apply Forall_cons in Hx'' as [Hx'' _].
        rewrite !read8_write32_ne by lia. done.
Qed.

(** ** The invariant *)

Record kst (h : KHeap P) (L : list Reg) (F : list Z) : Prop := mkKst {
  k_geom : geom L;
  k_reg : rlist (kmem h) (g_regioni h) L;
  k_blk : Forall (blk_ok (kmem h)) (blocks L);
  k_head : g_free_list h = hd NULL F;
  k_dll : dll (kmem h) NULL F NULL;
  k_nodup : NoDup F;
  k_free : forall f, f ∈ F -> f ∈ frees (blocks L);
  k_size : g_heap_size h = hsum L;
  k_inv : ps_inv (kpages h);
  k_busy : forall R i, R ∈ L -> ra R <= i * PAGE_SIZE < rfine R -> ps_busy (kpages h) i
}.

Definition kinv (h : KHeap P) (L : list Reg) : Prop :=
  exists F, kst h L F /\ F ≡ₚ frees (blocks L).

Lemma kst_remove h L F1 b F2 :
  kst h L (F1 ++ b :: F2) ->
  exists m', free_list_remove b h = relink m' (hd NULL (F1 ++ F2)) h /\
    kst (free_list_remove b h) L (F1 ++ F2) /\ same_on (off_links (F1 ++ b :: F2)) (kmem h) m'.
Proof.
  intros [G Hr Hb Hh Hd Hn Hf Hz Hi Hbu].
  destruct (free_list_remove_dll F1 b F2 h Hh Hd) as (m' & E & Hd' & Hs).
  { by apply (spaced_frees L). }
  exists m'. split_and!; [done | | done]. rewrite E.
  split; simpl; try done.
  - by apply (links_rlist L _ (kmem h) m' G Hf Hs).
  - by apply (links_blk L _ (kmem h) m' G Hf Hs).
  - rewrite <- Permutation_middle in Hn. by apply NoDup_cons in Hn as [_ ?].
  - intros f Hf'. apply Hf. set_solver.
Qed.

Lemma kst_add h L F b :
  kst h L F -> b ∉ F -> b ∈ frees (blocks L) ->
  exists m', free_list_add b h = relink m' b h /\
    kst (free_list_add b h) L (b :: F) /\ same_on (off_links (b :: F)) (kmem h) m'.
Proof.
  intros [G Hr Hb Hh Hd Hn Hf Hz Hi Hbu] Nb Fb.
  assert (Hf' : forall f, f ∈ b :: F -> f ∈ frees (blocks L)) by (intros f [->|?]%elem_of_cons; auto).
  assert (Hn' : NoDup (b :: F)) by (apply NoDup_cons; auto).
  destruct (free_list_add_dll b F h Hh Hd) as (m' & E & Hd' & Hs).
  { by apply (spaced_frees L). }
  exists m'. split_and!; [done | | done]. rewrite E.
  split; simpl; try done.
  - by apply (links_rlist L _ (kmem h) m' G Hf' Hs).
  - by apply (links_blk L _ (kmem h) m' G Hf' Hs).
Qed.

(** The fields the invariant looks at beside the memory and the free list. *)
Definition same_globals (h h' : KHeap P) : Prop :=
  g_regioni h' = g_regioni h /\ g_free_list h' = g_free_list h /\
  g_heap_size h' = g_heap_size h /\ kpages h' = kpages h.

Lemma same_globals_refl h : same_globals h h.
Proof. done. Qed.

Lemma same_globals_trans h1 h2 h3 : same_globals h1 h2 -> same_globals h2 h3 -> same_globals h1 h3.
Proof. unfold same_globals. intuition congruence. Qed.

Lemma same_globals_put32 h h' a v : same_globals h h' -> same_globals h (put32 a v h').
Proof. done. Qed.

Lemma same_globals_counts h h' a1 a2 a3 a4 a5 a6 :
  same_globals h h' -> same_globals h (add_counts a1 a2 a3 a4 a5 a6 h').
Proof. done. Qed.

(** Rewriting a stretch of blocks that are not on the free list. *)
Lemma kst_replace h h' L1 r f B1 M B2 L2 F M' lo hi :
  kst h (L1 ++ mkReg r f (B1 ++ M ++ B2) :: L2) F -> same_globals h h' ->
  M <> [] -> M' <> [] -> tile lo M hi -> tile lo M' hi ->
  (forall b, b ∈ M -> ba b ∉ F) ->
  same_on (fun x => ~ (lo <= x < hi)) (kmem h) (kmem h') -> Forall (blk_ok (kmem h')) M' ->
  kst h' (L1 ++ mkReg r f (B1 ++ M' ++ B2) :: L2) F.
Proof.
  intros [G Hr Hb Hh Hd Hn Hf Hz Hi Hbu] (E1 & E2 & E3 & E4) N N' TM TM' HF Hs HM'.
  set (L := L1 ++ mkReg r f (B1 ++ M ++ B2) :: L2) in *.
  assert (Hf' : forall f', f' ∈ F -> exists b, b ∈ blocks L1 ++ B1 ++ B2 ++ blocks L2 /\ bused b = false /\ ba b = f').
  { intros f' Hf'. assert (HF' := Hf f' Hf'). apply frees_elem in HF' as (b & Hb' & Fb & <-).
    exists b. split_and!; try done. unfold L in Hb'. rewrite blocks_mid, !elem_of_app in Hb'.
    rewrite !elem_of_app. destruct Hb' as [?|[[?|[Hb'|?]]|?]]; auto. by destruct (HF b Hb'). }
  split; rewrite ?E1, ?E2, ?E3, ?E4; try done.
  - by eapply geom_replace.
  - assert (Hr' : rlist (kmem h') (g_regioni h) L).
    { eapply rlist_same; [|exact Hr]. intros R HR. eapply same_on_weaken; [|exact Hs]. simpl.
      intros x Hx. destruct (geom_headers _ _ _ _ _ _ _ _ _ R G N TM HR); lia. }
    clear - Hr'. unfold L in Hr'. generalize dependent (g_regioni h). clear.
    induction L1 as [|R L1 IH]; simpl; [done|]. intros z (? & ? & ?). split_and!; auto.
  - unfold L in Hb. rewrite blocks_mid in Hb |- *. rewrite !Forall_app in Hb |- *.
    destruct Hb as (Hb1 & (Hb2 & Hb3 & Hb4) & Hb5).
    split_and!; try done; apply Forall_forall; intros b Hb; rewrite Forall_forall in *;
      (destruct (geom_others _ _ _ _ _ _ _ _ _ b G N TM) as [Gb Db]; [set_solver|];
       eapply blk_ok_outside; eauto).
  - eapply dll_same; [|exact Hd]. intros b Hb'. destruct (Hf' _ Hb') as (c & Hc & Fc & <-).
    destruct (geom_others _ _ _ _ _ _ _ _ _ c G N TM Hc) as [(Gb & _) Db].
    unfold HEAP_MIN_SIZE in *. rewrite bend_eq in Db.
    eapply same_on_weaken; [|exact Hs]. simpl. intros; lia.
  - intros f' Hf''. destruct (Hf' _ Hf'') as (c & Hc & Fc & <-). apply frees_elem. exists c.
    split_and!; try done. rewrite blocks_mid. set_solver.
  - rewrite Hz. unfold L. clear. induction L1 as [|R L1 IH]; simpl; lia.
  - intros R i HR Hi'. apply elem_of_app in HR as [HR|HR].
    + apply (Hbu R i); [unfold L; set_solver | done].
    + apply elem_of_cons in HR as [->|HR].
      * apply (Hbu (mkReg r f (B1 ++ M ++ B2)) i); [unfold L; set_solver | done].
      * apply (Hbu R i); [unfold L; set_solver | done].
Qed.

Lemma put_size_add b v res h :
  b + 4 <= res -> g_free_list h = NULL \/ b + 4 <= g_free_list h \/ g_free_list h + 28 <= b ->
  put_size b v (free_list_add res h) = free_list_add res (put_size b v h).
Proof.
  intros Hr Hf. rewrite !free_list_add_eq. unfold put_size.
  transitivity (relink (write32 (let m := write32 (write32 (kmem h) (res + 20) NULL) (res + 24) (g_free_list h) in
    if g_free_list h =? NULL then m else write32 m (g_free_list h + 20) res) b v) res h); [done|].
  transitivity (relink (let m := write32 (write32 (write32 (kmem h) b v) (res + 20) NULL) (res + 24) (g_free_list h) in
    if g_free_list h =? NULL then m else write32 m (g_free_list h + 20) res) res h); [|done].
  f_equal. cbv zeta. destruct (Z.eqb_spec (g_free_list h) NULL).
  - rewrite (write32_comm _ _ _ b), (write32_comm _ _ _ b) by lia. done.
  - rewrite (write32_comm _ (g_free_list h + 20) _ b) by lia.
    rewrite (write32_comm _ (res + 24) _ b), (write32_comm _ (res + 20) _ b) by lia. done.
Qed.

Lemma kst_counts h L F a1 a2 a3 a4 a5 a6 : kst h L F -> kst (add_counts a1 a2 a3 a4 a5 a6 h) L F.
Proof. by intros []. Qed.

Lemma fuel_set_pages p h : fuel (set_pages p h) = fuel h.
Proof. done. Qed.

Lemma regioni_set_pages p h : g_regioni (set_pages p h) = g_regioni h.
Proof. done. Qed.

Lemma kmem_set_pages p h : kmem (set_pages p h) = kmem h.
Proof. done. Qed.

Lemma fino_a_set_pages p h v n r : regione_fino_a v r n (set_pages p h) = regione_fino_a v r n h.
Proof. revert r. induction n as [|n IH]; intros r; simpl; [done|]. by rewrite IH. Qed.

Lemma kst_set_pages p h L F :
  kst h L F -> ps_inv p -> (forall k, ps_busy (kpages h) k -> ps_busy p k) -> kst (set_pages p h) L F.
Proof. intros [] Hi Hb. split; simpl; eauto. Qed.

(** [heap_expand] with the fields it reads taken from the initial state. *)
Lemma heap_expand_eq pages h phys p r :
  ps_alloc pages (kpages h) = (phys, p) -> phys <> 0 ->
  regione_fino_a phys (g_regioni h) (fuel h) h = Ok r ->
  let sz := u32 (pages * PAGE_SIZE) in
  let hs := u32 (g_heap_size h + sz) in
  heap_expand pages h =
  Ok (if r =? NULL then
        let nb := regione_primo phys in
        (nb, set_heap_size hs nb (blocco_nuovo nb (u32 (sz - REGION_HEADER_SIZE - BLOCK_HEADER_SIZE))
          (set_regioni phys (if g_prima_regione h =? NULL then phys else g_prima_regione h)
            (put32 phys (g_regioni h) (put32 (phys + 4) (u32 (phys + sz)) (set_pages p h))))))
      else
        (phys, set_heap_size hs phys (blocco_nuovo phys (u32 (sz - BLOCK_HEADER_SIZE))
          (put32 (r + 4) (u32 (phys + sz)) (set_pages p h))))).
Proof.
  intros Ea Hn Er sz hs. unfold heap_expand. rewrite Ea.
  rewrite (proj2 (Z.eqb_neq phys 0)) by done.
  rewrite fino_a_set_pages, fuel_set_pages, regioni_set_pages, Er. cbn [mbind run_bind].
  by destruct (r =? NULL).
Qed.

(** What the invariant sees of the states [heap_expand] builds. *)
Lemma globals_estesa a v nb sz hs p h :
  let h' := set_heap_size hs nb (blocco_nuovo nb sz (put32 a v (set_pages p h))) in
  g_regioni h' = g_regioni h /\ g_free_list h' = g_free_list h /\ g_heap_size h' = hs /\ kpages h' = p /\
  kmem h' = kmem (blocco_nuovo nb sz (put32 a v h)).
Proof. done. Qed.

Lemma globals_nuova a v b w r pr nb sz hs p h :
  let h' := set_heap_size hs nb (blocco_nuovo nb sz (set_regioni r pr (put32 b w (put32 a v (set_pages p h))))) in
  g_regioni h' = r /\ g_free_list h' = g_free_list h /\ g_heap_size h' = hs /\ kpages h' = p /\
  kmem h' = kmem (blocco_nuovo nb sz (put32 b w (put32 a v h))).
Proof. done. Qed.

Lemma kmem_relink m fl h : kmem (relink m fl h) = m.
Proof. reflexivity. Qed.

End Steps.

(** Memory of a state built by field writes. *)
Ltac kmem_simp :=
  unfold put_size, put_magic, put_flags, put_chiesti, put_chi, put_prev, put_next,
    b_size, b_magic, b_flags, b_chiesti, b_prev, b_next in *;
  rewrite ?kmem_counts, ?kmem_relink, ?kmem_put32.

#[export] Hint Resolve same_globals_refl same_globals_put32 same_globals_counts : exos.
