(* ===== verification/KheapSpec.v ===== *)
(** * The kernel heap: correctness of the operations

    [kmalloc], [kfree], [kmalloc_aligned], [kfree_aligned], [kmalloc_init] and
    [kmalloc_verifica] against the layout of KheapInv.v: no operation panics or
    runs away on a well-formed heap, allocation adds exactly the requested
    payload, release removes exactly it, and the bytes of every other
    allocated block are untouched. *)

From S2P Require Import Prelude Mem Pmm PmmSpec Kheap KheapInv.

Lemma split_block L x :
  x ∈ blocks L -> exists L1 r f B1 B2 L2, L = L1 ++ mkReg r f (B1 ++ [x] ++ B2) :: L2.
Proof.
  intros Hx. apply blocks_elem in Hx as ([r f B] & HR & Hx). simpl in Hx.
  apply list_elem_of_split in HR as (L1 & L2 & ->). apply list_elem_of_split in Hx as (B1 & B2 & ->).
  by exists L1, r, f, B1, B2, L2.
Qed.

Lemma tile_one x : blk_geo x -> tile (ba x) [x] (bend x).
Proof. done. Qed.

(** The bytes of allocated blocks lie outside a stretch of free ones. *)
Lemma used_outside L1 r f B1 M B2 L2 lo hi x :
  geom (L1 ++ mkReg r f (B1 ++ M ++ B2) :: L2) -> M <> [] -> tile lo M hi ->
  Forall (fun b => bused b = false) M ->
  used_bytes (L1 ++ mkReg r f (B1 ++ M ++ B2) :: L2) x -> ~ (lo <= x < hi).
Proof.
  intros G N TM HM (b & Hb & Ub & Hx). rewrite blocks_mid, !elem_of_app in Hb.
  assert (Hb' : b ∈ blocks L1 ++ B1 ++ B2 ++ blocks L2).
  { rewrite !elem_of_app. destruct Hb as [?|[[?|[Hb|?]]|?]]; auto.
    rewrite Forall_forall in HM. rewrite (HM b Hb) in Ub. done. }
  destruct (geom_others _ _ _ _ _ _ _ _ _ b G N TM Hb') as [_ ?]. lia.
Qed.

(** How the lists of free blocks and payloads change with a stretch. *)
Lemma pays_mid L1 r f B1 M B2 L2 :
  pays (blocks (L1 ++ mkReg r f (B1 ++ M ++ B2) :: L2)) ≡ₚ
  pays M ++ pays (blocks L1 ++ B1 ++ B2 ++ blocks L2).
Proof. rewrite blocks_mid, !pays_app. solve_Permutation. Qed.

Lemma frees_mid L1 r f B1 M B2 L2 :
  frees (blocks (L1 ++ mkReg r f (B1 ++ M ++ B2) :: L2)) ≡ₚ
  frees M ++ frees (blocks L1 ++ B1 ++ B2 ++ blocks L2).
Proof. rewrite blocks_mid, !frees_app. solve_Permutation. Qed.

(** ** Fuel *)

Lemma blocks_length L : geom L -> 44 * Z.of_nat (length (blocks L)) + 8 * Z.of_nat (length L) <= hsum L.
Proof.
  intros [G _]. induction L as [|R L IH]; [done|]. apply Forall_cons in G as [GR G].
  change (blocks (R :: L)) with (rblks R ++ blocks L). rewrite length_app. simpl.
  destruct GR as (_ & _ & _ & _ & _ & T). apply tile_length in T. specialize (IH G).
  unfold REGION_HEADER_SIZE in *. lia.
Qed.

Lemma regions_length L : geom L -> (length L <= length (blocks L))%nat.
Proof.
  intros [G _]. induction L as [|R L IH]; [done|]. apply Forall_cons in G as [GR G].
  change (blocks (R :: L)) with (rblks R ++ blocks L). rewrite length_app. simpl.
  destruct GR as (_ & _ & _ & _ & N & _). specialize (IH G). destruct (rblks R); [done|]. simpl. lia.
Qed.

Lemma frees_length bs : (length (frees bs) <= length bs)%nat.
Proof. unfold frees. rewrite length_fmap. apply length_filter. Qed.

(** Disjoint regions below [USER_SPACE_BASE] cannot add up to more than it, so
    the size counter does not wrap. *)
Lemma hsum_bound L : geom L -> hsum L <= USER_SPACE_BASE.
Proof.
  intros G. set (cells := foldr (fun R l => seqZ (ra R) (rfine R - ra R) ++ l) [] L).
  assert (Hel : forall K x, x ∈ foldr (fun R l => seqZ (ra R) (rfine R - ra R) ++ l) [] K ->
                exists R, R ∈ K /\ ra R <= x < rfine R).
  { induction K as [|R K IH]; simpl; intros x Hx; [by apply elem_of_nil in Hx|].
    apply elem_of_app in Hx as [Hx|Hx].
    - apply elem_of_seqZ in Hx. exists R. split; [by left | lia].
    - apply IH in Hx as (S & HS & Hx). exists S. split; [by right | done]. }
  assert (Hlen : Z.of_nat (length cells) = hsum L).
  { unfold cells. clear Hel cells. assert (HR := fun R => geom_region L R G). clear G.
    induction L as [|R L IH]; [done|]. simpl. rewrite length_app, length_seqZ, Nat2Z.inj_add.
    rewrite IH by (intros; apply HR; by right). destruct (HR R ltac:(by left)). lia. }
  assert (Hnd : NoDup cells).
  { destruct G as [GF GP]. unfold cells. clear Hlen cells. induction L as [|R L IH]; [constructor|].
    apply Forall_cons in GF as [_ GF]. destruct GP as [HR GP]. simpl. apply NoDup_app. split_and!.
    - apply NoDup_seqZ.
    - intros x Hx Hx'. apply elem_of_seqZ in Hx. apply Hel in Hx' as (S & HS & Hx').
      rewrite Forall_forall in HR. specialize (HR S HS). unfold reg_disj in HR. lia.
    - by apply IH. }
  rewrite <- Hlen.
  assert (Hsub : cells ⊆+ seqZ 0 USER_SPACE_BASE).
  { apply NoDup_submseteq; [done|]. intros x Hx. apply Hel in Hx as (R & HR & Hx).
    destruct (geom_region _ _ G HR) as (? & ? & ?). apply elem_of_seqZ. lia. }
  apply submseteq_length in Hsub. rewrite length_seqZ in Hsub. unfold USER_SPACE_BASE in *. lia.
Qed.

#[local] Opaque set_kmem set_free_list set_heap_start set_heap_size set_regioni set_pages add_counts
  free_list_add free_list_remove read32 write32.

Section Ops.
Context {P : Type} `{PageSource P}.
Implicit Types (h : KHeap P).

Lemma fuel_blocks h L F : kst h L F -> (length (blocks L) < fuel h)%nat.
Proof.
  intros K. pose proof (blocks_length L (k_geom _ _ _ K)) as HL. unfold fuel.
  rewrite (k_size _ _ _ K). unfold BLOCK_HEADER_SIZE.
  assert (Z.of_nat (length (blocks L)) <= hsum L / 28) by (apply Z.div_le_lower_bound; lia). lia.
Qed.

Lemma kst_block h L F x :
  kst h L F -> x ∈ blocks L -> blk_ok (kmem h) x /\ blk_geo x /\ 8 < ba x /\ bend x <= USER_SPACE_BASE.
Proof.
  intros K Hx. split; [|by apply (geom_block L), Hx; apply (k_geom _ _ _ K)].
  pose proof (k_blk _ _ _ K) as HB. rewrite Forall_forall in HB. auto.
Qed.

(** ** First fit *)

Lemma first_fit_ok h L F0 F sz n :
  kst h L F0 -> (forall f, f ∈ F -> f ∈ frees (blocks L)) -> (exists p, dll (kmem h) p F NULL) ->
  (length F <= n)%nat ->
  (first_fit sz (hd NULL F) n h = Ok NULL /\
     forall b, b ∈ blocks L -> ba b ∈ F -> bsz b < sz) \/
  (exists b, first_fit sz (hd NULL F) n h = Ok (ba b) /\ b ∈ blocks L /\ ba b ∈ F /\ sz <= bsz b).
Proof.
  intros K HF Hd. revert n. induction F as [|f F IH]; intros n Hn.
  - left. split; [by destruct n|]. intros b _ Hb. by apply elem_of_nil in Hb.
  - destruct Hd as (p & Hp & Hx & Hd). simpl in Hn. destruct n as [|n]; [lia|].
    assert (Hf := HF f ltac:(by left)). apply frees_elem in Hf as (b & Hb & Fb & <-).
    destruct (kst_block _ _ _ _ K Hb) as ((O1 & O2 & O3 & _) & Gb & Lb & Ub). rewrite Fb in O3.
    assert (E : (ba b =? NULL) = false) by (apply Z.eqb_neq; unfold NULL; lia).
    simpl. unfold block_valid, b_magic, b_flags, b_size, b_next. rewrite E, O1, O2, O3, Hx. simpl.
    destruct (Z.leb_spec sz (bsz b)) as [Hs|Hs].
    + right. exists b. split_and!; auto. by left.
    + destruct (IH ltac:(intros; apply HF; by right) ltac:(eauto) n ltac:(lia)) as [[Hr Hall]|(c & Hr & Hc & Hcf & Hcs)].
      * left. split; [done|]. intros c Hc [Ec|Hcf]%elem_of_cons; [|by apply Hall].
        by rewrite <- (geom_inj _ _ _ (k_geom _ _ _ K) Hb Hc (eq_sym Ec)).
      * right. exists c. split_and!; auto. by right.
Qed.

(** ** Marking a block used *)

Definition prendi_uso (b size chi : Z) (h : KHeap P) : KHeap P :=
  canarino_scrivi b (put_chi b chi (put_chiesti b size (put_flags b BLOCK_USED h))).

Lemma kst_use h L1 r f B1 x B2 L2 F size chi :
  kst h (L1 ++ mkReg r f (B1 ++ [x] ++ B2) :: L2) F -> ba x ∉ F ->
  0 <= size -> size + 4 <= bsz x ->
  kst (prendi_uso (ba x) size chi h)
    (L1 ++ mkReg r f (B1 ++ [mkBlk (ba x) (bsz x) true size] ++ B2) :: L2) F /\
  same_on (fun y => ~ (ba x <= y < bend x)) (kmem h) (kmem (prendi_uso (ba x) size chi h)).
Proof.
  intros K NF Hs0 Hs.
  assert (Hx : x ∈ blocks (L1 ++ mkReg r f (B1 ++ [x] ++ B2) :: L2)) by (rewrite blocks_mid; set_solver).
  destruct (kst_block _ _ _ _ K Hx) as ((O1 & O2 & O3 & _) & Gx & Lx & Ux).
  assert (Ux' := Ux). rewrite bend_eq in Ux'. unfold USER_SPACE_BASE in Ux'.
  assert (E : kmem (prendi_uso (ba x) size chi h) =
    write32 (write32 (write32 (write32 (kmem h) (ba x + 8) BLOCK_USED) (ba x + 12) size) (ba x + 16) chi)
      (ba x + 28 + size) HEAP_CANARINO).
  { unfold prendi_uso, canarino_scrivi, canarino_c_e, canarino_di. kmem_simp. mem_simp.
    rewrite O1. unfold BLOCK_USED, BLOCK_HEADER_SIZE. u32s.
    rewrite (proj2 (Z.leb_le _ _)) by lia. rewrite Z.eqb_refl. cbn [andb]. by rewrite !kmem_put32. }
  assert (Es : same_on (fun y => ~ (ba x <= y < bend x)) (kmem h) (kmem (prendi_uso (ba x) size chi h))).
  { rewrite E. destruct Gx as (Gx & _). unfold HEAP_MIN_SIZE in *.
    repeat apply same_on_write32; try apply same_on_refl; rewrite bend_eq; intros y Hy; lia. }
  split; [|done].
  eapply (kst_replace h); [exact K | | done | done | by apply tile_one | | | exact Es |].
  - unfold prendi_uso, canarino_scrivi. kmem_simp. destruct (canarino_c_e _ _); auto 10 with exos.
  - destruct Gx as (G1 & G2 & G3 & _). apply (tile_one (mkBlk (ba x) (bsz x) true size)).
    split_and!; try done.
  - intros b ->%list_elem_of_singleton. done.
  - apply Forall_singleton. unfold blk_ok. rewrite E. cbn [ba bsz bused bch]. mem_simp. unfold BLOCK_USED. u32s.
    rewrite O1, O2. done.
Qed.

(** ** Splitting *)

Lemma kmem_blocco_nuovo b size h :
  kmem (blocco_nuovo b size h) =
  write32 (write32 (write32 (write32 (write32 (kmem h) b size) (b + 4) HEAP_MAGIC) (b + 8) BLOCK_FREE)
    (b + 20) NULL) (b + 24) NULL.
Proof. unfold blocco_nuovo. by kmem_simp. Qed.

Lemma same_globals_blocco h h' b size : same_globals h h' -> same_globals h (blocco_nuovo b size h').
Proof. unfold blocco_nuovo. kmem_simp. auto 10 with exos. Qed.

Lemma kst_split h L1 r f B1 x B2 L2 F al :
  kst h (L1 ++ mkReg r f (B1 ++ [x] ++ B2) :: L2) F -> ba x ∉ F -> bused x = false ->
  HEAP_MIN_SIZE <= al -> al mod 4 = 0 -> al + 44 <= bsz x ->
  let res := ba x + 28 + al in
  let h' := put_size (ba x) al (blocco_nuovo res (bsz x - al - 28) h) in
  kst h' (L1 ++ mkReg r f (B1 ++ [mkBlk (ba x) al false 0; mkBlk res (bsz x - al - 28) false 0] ++ B2) :: L2) F /\
  same_on (fun y => ~ (ba x <= y < bend x)) (kmem h) (kmem h').
Proof.
  intros K NF Fx Ha Ha4 Hl res h'.
  assert (Hx : x ∈ blocks (L1 ++ mkReg r f (B1 ++ [x] ++ B2) :: L2)) by (rewrite blocks_mid; set_solver).
  destruct (kst_block _ _ _ _ K Hx) as ((O1 & O2 & O3 & _) & Gx & Lx & Ux).
  assert (Gx' := Gx). destruct Gx' as (G1 & G2 & G3 & _).
  rewrite Fx in O3. assert (Ux' := Ux). rewrite bend_eq in Ux'. unfold USER_SPACE_BASE in Ux'.
  unfold HEAP_MIN_SIZE in *.
  assert (E : kmem h' = write32 (kmem (blocco_nuovo res (bsz x - al - 28) h)) (ba x) al) by (unfold h'; by kmem_simp).
  rewrite kmem_blocco_nuovo in E.
  assert (Es : same_on (fun y => ~ (ba x <= y < bend x)) (kmem h) (kmem h')).
  { rewrite E. repeat apply same_on_write32; try apply same_on_refl; rewrite bend_eq; intros y Hy; lia. }
  split; [|done].
  eapply (kst_replace h); [exact K | | done | done | by apply tile_one | | | exact Es |].
  - unfold h'. kmem_simp. apply same_globals_put32, same_globals_blocco, same_globals_refl.
  - unfold res. cbn [tile ba bsz]. rewrite !bend_eq. cbn [ba bsz].
    unfold blk_geo, HEAP_MIN_SIZE. cbn [ba bsz bused]. split_and!; try done; zdm.
  - intros b ->%list_elem_of_singleton. done.
  - apply Forall_cons. split; [|apply Forall_singleton]; unfold blk_ok; rewrite E;
      cbn [ba bsz bused bch]; unfold res; mem_simp; unfold HEAP_MAGIC, BLOCK_FREE; u32s; rewrite ?O2, ?O3; done.
Qed.

(** ** Taking a block *)

Lemma perm_drop (F1 F2 G : list Z) x : F1 ++ x :: F2 ≡ₚ x :: G -> F1 ++ F2 ≡ₚ G.
Proof. rewrite <- Permutation_middle. apply Permutation_cons_inv. Qed.

Lemma nodup_drop (F1 F2 : list Z) x : NoDup (F1 ++ x :: F2) -> x ∉ F1 ++ F2.
Proof. rewrite <- Permutation_middle. by intros [? _]%NoDup_cons. Qed.

(** [kmalloc_prendi] with the writes of the split in layout order. *)
Lemma prendi_eq h L1 r f B1 x B2 L2 F al size chi :
  HEAP_MIN_SIZE <= al -> al <= bsz x ->
  kst (free_list_remove (ba x) h) (L1 ++ mkReg r f (B1 ++ [x] ++ B2) :: L2) F ->
  ba x ∉ F ->
  kmalloc_prendi (ba x) al size chi h =
  let h1 := free_list_remove (ba x) h in
  let h2 := if al + 44 <=? bsz x then
              free_list_add (ba x + 28 + al)
                (put_size (ba x) al (blocco_nuovo (ba x + 28 + al) (bsz x - al - 28) h1))
            else h1 in
  add_counts 1 0 0 0 0 0 (prendi_uso (ba x) size chi h2).
Proof.
  intros Ha Hl K NF. unfold kmalloc_prendi, prendi_uso.
  assert (Hx : x ∈ blocks (L1 ++ mkReg r f (B1 ++ [x] ++ B2) :: L2)) by (rewrite blocks_mid; set_solver).
  destruct (kst_block _ _ _ _ K Hx) as ((O1 & _) & _ & Lx & Ux).
  rewrite bend_eq in Ux. unfold USER_SPACE_BASE in Ux. unfold HEAP_MIN_SIZE, BLOCK_HEADER_SIZE in *.
  set (h1 := free_list_remove (ba x) h) in *. unfold b_size. rewrite O1. u32s. cbv zeta.
  assert (Hd : g_free_list h1 = NULL \/ ba x + 4 <= g_free_list h1 \/ g_free_list h1 + 28 <= ba x).
  { rewrite (k_head _ _ _ K). destruct F as [|g F]; [by left|]. right. simpl.
    pose proof (k_free _ _ _ K g ltac:(by left)) as Hg. apply frees_elem in Hg as (c & Hc & _ & <-).
    destruct (kst_block _ _ _ _ K Hc) as (_ & (Gc & _) & _). unfold HEAP_MIN_SIZE in Gc.
    destruct (geom_disj _ _ _ (k_geom _ _ _ K) Hx Hc) as [->|?]; [destruct NF; by left|].
    rewrite !bend_eq in *. lia. }
  replace (28 + 16 <=? bsz x - al) with (al + 44 <=? bsz x)
    by (destruct (Z.leb_spec (al + 44) (bsz x)), (Z.leb_spec (28 + 16) (bsz x - al)); lia).
  destruct (Z.leb_spec (al + 44) (bsz x)); [|reflexivity].
  u32s. pose proof (put_size_add (ba x) al (ba x + 28 + al) (blocco_nuovo (ba x + 28 + al) (bsz x - al - 28) h1)) as Eh.
  destruct (same_globals_blocco h1 h1 (ba x + 28 + al) (bsz x - al - 28) (same_globals_refl h1)) as (_ & Ef & _).
  rewrite Ef in Eh. by rewrite (Eh ltac:(lia) Hd).
Qed.

Lemma used_bytes_sub L1 r f B1 M B2 L2 M' y :
  Forall (fun b => bused b = false) M ->
  used_bytes (L1 ++ mkReg r f (B1 ++ M ++ B2) :: L2) y ->
  used_bytes (L1 ++ mkReg r f (B1 ++ M' ++ B2) :: L2) y.
Proof.
  intros HM (b & Hb & Ub & Hy). exists b. split_and!; try done; try lia.
  rewrite blocks_mid in *. rewrite Forall_forall in HM. rewrite !elem_of_app in *.
  destruct Hb as [?|[[?|[Hb|?]]|?]]; auto. rewrite (HM b Hb) in Ub. done.
Qed.

Lemma prendi_ok h L F x al size chi :
  kst h L F -> F ≡ₚ frees (blocks L) -> x ∈ blocks L -> bused x = false ->
  HEAP_MIN_SIZE <= al -> al mod 4 = 0 -> al <= bsz x -> 0 <= size -> size + 4 <= al ->
  exists L', kinv (kmalloc_prendi (ba x) al size chi h) L' /\
    pays (blocks L') ≡ₚ (ba x + 28, size) :: pays (blocks L) /\
    same_on (used_bytes L) (kmem h) (kmem (kmalloc_prendi (ba x) al size chi h)).
Proof.
  intros K HF Hx Fx Ha Ha4 Hal Hs0 Hs.
  destruct (split_block _ _ Hx) as (L1 & r & f & B1 & B2 & L2 & EL). rewrite EL in *.
  assert (Hin : ba x ∈ F) by (rewrite HF; apply frees_elem; eauto).
  apply list_elem_of_split in Hin as (F1 & F2 & ->).
  destruct (kst_remove _ _ _ _ _ K) as (m1 & E1 & K1 & S1).
  assert (NF := nodup_drop _ _ _ (k_nodup _ _ _ K)).
  assert (HF' : F1 ++ F2 ≡ₚ frees (blocks L1 ++ B1 ++ B2 ++ blocks L2)).
  { rewrite frees_mid, frees_cons, Fx in HF. by apply perm_drop in HF. }
  assert (G := k_geom _ _ _ K).
  destruct (kst_block _ _ _ _ K Hx) as (_ & Gx & Lx & Ux).
  assert (S1' : same_on (used_bytes (L1 ++ mkReg r f (B1 ++ [x] ++ B2) :: L2)) (kmem h) (kmem (free_list_remove (ba x) h))).
  { rewrite E1. eapply links_used; [exact G | | exact S1]. apply (k_free _ _ _ K). }
  assert (Hout : forall m m', same_on (fun y => ~ (ba x <= y < bend x)) m m' ->
    same_on (used_bytes (L1 ++ mkReg r f (B1 ++ [x] ++ B2) :: L2)) m m').
  { intros m m' Hm. eapply same_on_weaken; [|exact Hm]. intros y. apply used_outside; auto.
    all: first [done | by apply tile_one | by apply Forall_singleton]. }
  rewrite (prendi_eq h L1 r f B1 x B2 L2 (F1 ++ F2) al size chi Ha Hal K1 NF). cbv zeta.
  set (h1 := free_list_remove (ba x) h) in *. clearbody h1. rewrite !kmem_counts.
  destruct (Z.leb_spec (al + 44) (bsz x)) as [Hsp|Hsp].
  - destruct (kst_split _ _ _ _ _ _ _ _ _ al K1 NF Fx Ha Ha4 ltac:(lia)) as [K2 S2]. cbv zeta in *.
    set (res := ba x + 28 + al) in *.
    set (h2 := put_size (ba x) al (blocco_nuovo res (bsz x - al - 28) h1)) in *. clearbody h2.
    set (x1 := mkBlk (ba x) al false 0) in *. set (x2 := mkBlk res (bsz x - al - 28) false 0) in *.
    assert (G2 := k_geom _ _ _ K2).
    assert (NF2 : res ∉ F1 ++ F2).
    { rewrite HF'. intros Hr. apply frees_elem in Hr as (c & Hc & _ & Ec).
      destruct (geom_others _ _ _ _ _ _ _ _ _ c G ltac:(done) (tile_one x Gx) Hc) as [(Gc & _) Dc].
      rewrite !bend_eq in Dc. unfold res, HEAP_MIN_SIZE in *. lia. }
    destruct (kst_add _ _ _ res K2 NF2) as (m3 & E3 & K3 & S3).
    { rewrite frees_mid, frees_cons, frees_cons. set_solver. }
    set (h3 := free_list_add res h2) in *. clearbody h3.
    destruct (kst_use h3 L1 r f B1 x1 (x2 :: B2) L2 (res :: F1 ++ F2) size chi K3) as [K4 S4]; [|done..|].
    { apply not_elem_of_cons. split; [|done]. change (ba x1) with (ba x). unfold res, HEAP_MIN_SIZE in *. lia. }
    eexists. split_and!.
    + exists (res :: F1 ++ F2). split; [apply kst_counts; exact K4|].
      change (B1 ++ [?a] ++ x2 :: B2) with (B1 ++ [a; x2] ++ B2).
      rewrite frees_mid, !frees_cons. simpl. by rewrite HF'.
    + change (B1 ++ [?a] ++ x2 :: B2) with (B1 ++ [a; x2] ++ B2).
      rewrite (pays_mid L1 r f B1 [x]), pays_mid, !pays_cons, Fx. done.
    + eapply same_on_trans; [exact S1'|]. eapply same_on_trans; [apply Hout; exact S2|].
      eapply same_on_trans.
      * eapply same_on_weaken; [intros y; apply (used_bytes_sub L1 r f B1 [x] B2 L2 [x1; x2]); by apply Forall_singleton|].
        rewrite <- (kmem_relink m3 res h2), <- E3 in S3.
        eapply links_used; [exact G2 | | exact S3].
        intros g [->|Hg]%elem_of_cons; [rewrite frees_mid, frees_cons, frees_cons; set_solver | by apply (k_free _ _ _ K2)].
      * apply Hout. eapply same_on_weaken; [|exact S4]. simpl. intros y Hy.
        rewrite !bend_eq in *. simpl. lia.
  - destruct (kst_use h1 L1 r f B1 x B2 L2 (F1 ++ F2) size chi K1 NF Hs0 ltac:(lia)) as [K4 S4].
    eexists. split_and!.
    + exists (F1 ++ F2). split; [apply kst_counts; exact K4|]. by rewrite frees_mid, !frees_cons.
    + rewrite (pays_mid L1 r f B1 [x]), pays_mid, !pays_cons, Fx. done.
    + eapply same_on_trans; [exact S1' | apply Hout; exact S4].
Qed.

(** ** Growing the heap *)

Lemma regione_fino_a_ok h L virt n r :
  geom L -> rlist (kmem h) r L -> (length L <= n)%nat ->
  (regione_fino_a virt r n h = Ok NULL /\ forall R, R ∈ L -> rfine R <> virt) \/
  (exists R, R ∈ L /\ regione_fino_a virt r n h = Ok (ra R) /\ rfine R = virt).
Proof.
  intros G. assert (HR := fun R => geom_region L R G). clear G. revert r n.
  induction L as [|R L IH]; simpl; intros r n Hl Hn.
  - left. subst. split; [by destruct n|]. intros R HR'. by apply elem_of_nil in HR'.
  - destruct Hl as (-> & Hf & Hl). destruct n as [|n]; [lia|]. simpl.
    destruct (HR R ltac:(by left)) as (H0 & _ & _).
    rewrite (proj2 (Z.eqb_neq _ _)) by (unfold NULL; lia). unfold r_fine, r_next. rewrite Hf.
    destruct (Z.eqb_spec (rfine R) virt) as [E|E].
    + right. exists R. split_and!; [by left | done | done].
    + destruct (IH ltac:(intros; apply HR; by right) _ n Hl ltac:(lia)) as [[-> Hno]|(S & HS & -> & HE)].
      * left. split; [done|]. intros S [->|HS]%elem_of_cons; auto.
      * right. exists S. split_and!; [by right | done | done].
Qed.

(** Pages that were not busy do not meet the regions of the heap. *)
Lemma fresh_pages h L F i n R :
  kst h L F -> 0 < i -> 1 <= n -> (forall k, i <= k < i + n -> ~ ps_busy (kpages h) k) -> R ∈ L ->
  i * PAGE_SIZE + n * PAGE_SIZE <= ra R \/ rfine R <= i * PAGE_SIZE.
Proof.
  intros K Hi Hn Hb HR. pose proof (k_geom _ _ _ K) as [GF _]. rewrite Forall_forall in GF.
  destruct (GF R HR) as (R1 & R2 & R3 & _). unfold PAGE_SIZE in *.
  destruct (geom_region _ _ (k_geom _ _ _ K) HR) as (_ & R4 & _).
  destruct (Z.le_gt_cases (i * 4096 + n * 4096) (ra R)); [by left|].
  destruct (Z.le_gt_cases (rfine R) (i * 4096)); [by right|].
  exfalso. apply (Hb (Z.max i (ra R / 4096))); [zdm|].
  apply (k_busy _ _ _ K R); [done|]. unfold PAGE_SIZE. zdm.
Qed.

(** The page allocator's answer, as a hypothesis on two states. *)
Definition grown (i n : Z) (h h' : KHeap P) : Prop :=
  0 < i /\ 1 <= n /\ i * PAGE_SIZE + n * PAGE_SIZE <= USER_SPACE_BASE /\
  (forall k, i <= k < i + n -> ~ ps_busy (kpages h) k) /\ ps_inv (kpages h') /\
  (forall k, ps_busy (kpages h') k <-> i <= k < i + n \/ ps_busy (kpages h) k) /\
  g_free_list h' = g_free_list h /\ g_heap_size h' = g_heap_size h + n * PAGE_SIZE.

(** The links of the free list lie in the regions. *)
Lemma free_inside h L F f :
  kst h L F -> f ∈ F -> exists R, R ∈ L /\ ra R + 8 <= f /\ f + 28 <= rfine R.
Proof.
  intros K Hf. apply (k_free _ _ _ K), frees_elem in Hf as (b & Hb & _ & <-).
  apply blocks_elem in Hb as (R & HR & Hb). exists R. split; [done|].
  pose proof (k_geom _ _ _ K) as [GF _]. rewrite Forall_forall in GF.
  destruct (GF R HR) as (_ & _ & _ & _ & _ & T).
  destruct (tile_elem _ _ _ _ T Hb) as ((G1 & _) & ? & ?). rewrite bend_eq in *.
  unfold HEAP_MIN_SIZE, REGION_HEADER_SIZE in *. lia.
Qed.

Lemma kst_new_region h h' L F i n :
  kst h L F -> grown i n h h' ->
  let virt := i * PAGE_SIZE in let sz := n * PAGE_SIZE in
  let x := mkBlk (virt + 8) (sz - 36) false 0 in
  same_on (fun y => ~ (virt <= y < virt + sz)) (kmem h) (kmem h') ->
  read32 (kmem h') (virt + 4) = virt + sz -> read32 (kmem h') virt = g_regioni h ->
  blk_ok (kmem h') x -> g_regioni h' = virt ->
  kst h' (mkReg virt (virt + sz) [x] :: L) F.
Proof.
  intros K (Hi & Hn & Hu & Hfr & Hinv & Hbu & Efl & Esz) virt sz x Hs Hr4 Hr0 Hx Hreg.
  assert (Hdis : forall R, R ∈ L -> virt + sz <= ra R \/ rfine R <= virt) by (intros; by eapply fresh_pages).
  assert (Hin := fun R => geom_region L R (k_geom _ _ _ K)).
  split; try done.
  - destruct (k_geom _ _ _ K) as [GF GP]. split.
    + apply Forall_cons. split; [|done]. unfold reg_geo, PAGE_SIZE, REGION_HEADER_SIZE in *. cbn [ra rfine rblks].
      split_and!; try done; [unfold virt; lia | unfold virt, PAGE_SIZE; zdm | unfold virt, sz, PAGE_SIZE; zdm |].
      cbn [tile]. rewrite bend_eq. unfold blk_geo, HEAP_MIN_SIZE. cbn [ba bsz bused x].
      unfold virt, sz, PAGE_SIZE in *. split_and!; try done; try zdm.
    + split; [|done]. apply Forall_forall. intros R HR. unfold reg_disj. simpl. destruct (Hdis R HR); auto.
  - cbn [rlist ra rfine]. split_and!; [done | done |]. rewrite Hr0. eapply rlist_same; [|exact (k_reg _ _ _ K)].
    intros R HR. eapply same_on_weaken; [|exact Hs]. intros y Hy. simpl in Hy.
    destruct (Hdis R HR); destruct (Hin R HR) as (? & ? & ?); lia.
  - change (blocks (mkReg virt (virt + sz) [x] :: L)) with (x :: blocks L). apply Forall_cons. split; [done|].
    pose proof (k_blk _ _ _ K) as HB. rewrite Forall_forall in HB |- *. intros b Hb.
    eapply blk_ok_outside; [| exact Hs | | by apply HB].
    + by apply (geom_block L b (k_geom _ _ _ K)).
    + apply blocks_elem in Hb as (R & HR & Hb). destruct (k_geom _ _ _ K) as [GF _]. rewrite Forall_forall in GF.
      destruct (GF R HR) as (_ & _ & _ & _ & _ & T). destruct (tile_elem _ _ _ _ T Hb) as (_ & ? & ?).
      unfold REGION_HEADER_SIZE in *. destruct (Hdis R HR); lia.
  - rewrite Efl. apply (k_head _ _ _ K).
  - eapply dll_same; [|exact (k_dll _ _ _ K)]. intros f Hf. eapply same_on_weaken; [|exact Hs].
    destruct (free_inside _ _ _ _ K Hf) as (R & HR & ? & ?). simpl. intros y Hy. destruct (Hdis R HR); lia.
  - apply (k_nodup _ _ _ K).
  - intros f Hf. change (blocks (mkReg virt (virt + sz) [x] :: L)) with (x :: blocks L).
    rewrite frees_cons. simpl. right. by apply (k_free _ _ _ K).
  - rewrite Esz, (k_size _ _ _ K). simpl. unfold sz. lia.
  - intros R k [->|HR]%elem_of_cons Hk; apply Hbu.
    + left. cbn [ra rfine] in Hk. unfold virt, sz, PAGE_SIZE in *. lia.
    + right. by apply (k_busy _ _ _ K R).
Qed.

(** The same memory with the end of one region moved. *)
Lemma rlist_extend m m' z L1 r f f' B B' L2 :
  (forall R, R ∈ L1 ++ L2 -> same_on (fun y => ra R <= y < ra R + 8) m m') ->
  read32 m' r = read32 m r -> read32 m' (r + 4) = f' ->
  rlist m z (L1 ++ mkReg r f B :: L2) -> rlist m' z (L1 ++ mkReg r f' B' :: L2).
Proof.
  intros Hs E E'. revert z. induction L1 as [|R L1 IH]; simpl; intros z (H1 & H2 & H3).
  - rewrite E, E'. split_and!; [done | done |]. eapply rlist_same; [|exact H3]. intros; apply Hs. set_solver.
  - assert (HR := Hs R ltac:(set_solver)).
    rewrite (read32_same m m' (ra R)), (read32_same m m' (ra R + 4));
      [| (eapply same_on_weaken; [|exact HR]); simpl; intros; lia ..].
    split_and!; [done | done |]. apply IH; [|done]. intros; apply Hs. set_solver.
Qed.

Lemma kst_extend_region h h' L1 r B L2 F i n :
  let virt := i * PAGE_SIZE in let sz := n * PAGE_SIZE in
  let x := mkBlk virt (sz - 28) false 0 in
  kst h (L1 ++ mkReg r virt B :: L2) F -> grown i n h h' ->
  same_on (fun y => ~ (virt <= y < virt + sz) /\ ~ (r + 4 <= y < r + 8)) (kmem h) (kmem h') ->
  read32 (kmem h') (r + 4) = virt + sz -> blk_ok (kmem h') x -> g_regioni h' = g_regioni h ->
  kst h' (L1 ++ mkReg r (virt + sz) (B ++ [x]) :: L2) F.
Proof.
  intros virt sz x K (Hi & Hn & Hu & Hfr & Hinv & Hbu & Efl & Esz) Hs Hr4 Hx Hreg.
  set (L := L1 ++ mkReg r virt B :: L2) in *. assert (G := k_geom _ _ _ K).
  assert (Hdis : forall R, R ∈ L -> virt + sz <= ra R \/ rfine R <= virt) by (intros; by eapply fresh_pages).
  assert (Hin := fun R => geom_region L R G).
  assert (HrL : mkReg r virt B ∈ L) by (unfold L; set_solver).
  assert (HbL : blocks (L1 ++ mkReg r (virt + sz) (B ++ [x]) :: L2) ≡ₚ x :: blocks L).
  { unfold L. rewrite !blocks_mid. solve_Permutation. }
  assert (Hpos : 4096 <= sz) by (unfold sz, PAGE_SIZE; lia).
  destruct (Hin _ HrL) as (Hr0 & Hrf & _). cbn [ra rfine] in Hr0, Hrf.
  (* the header that changes, seen from the rest of the heap *)
  assert (Hhd : forall R, R ∈ L1 ++ L2 -> ra R + 8 <= r \/ virt <= ra R \/ rfine R <= r).
  { intros R HR. destruct G as [_ GP]. apply pairwise_app in GP as (_ & [P2 _] & P3).
    rewrite Forall_forall in P2, P3. apply elem_of_app in HR as [HR|HR].
    - specialize (P3 R HR). apply Forall_cons in P3 as [P3 _]. unfold reg_disj in P3. simpl in P3.
      destruct (Hin R ltac:(unfold L; set_solver)); lia.
    - specialize (P2 R HR). unfold reg_disj in P2. simpl in P2. lia. }
  assert (Hblk : forall b, b ∈ blocks L -> same_on (fun y => ba b <= y < bend b) (kmem h) (kmem h')).
  { intros b Hb. eapply same_on_weaken; [|exact Hs]. simpl. intros y Hy. split.
    - apply blocks_elem in Hb as (R & HR & Hb). destruct G as [GF _]. rewrite Forall_forall in GF.
      destruct (GF R HR) as (_ & _ & _ & _ & _ & T). destruct (tile_elem _ _ _ _ T Hb) as (_ & ? & ?).
      unfold REGION_HEADER_SIZE in *. destruct (Hdis R HR); lia.
    - destruct (geom_header _ _ _ G Hb HrL); simpl in *; lia. }
  split; try done.
  - destruct G as [GF GP]. split.
    + apply Forall_app in GF as [G1 G2]. apply Forall_cons in G2 as [(R1 & R2 & R3 & R4 & R5 & R6) G2].
      apply Forall_app. split; [done|]. apply Forall_cons. split; [|done]. simpl in *.
      unfold reg_geo, PAGE_SIZE, REGION_HEADER_SIZE in *. cbn [ra rfine rblks].
      split_and!; try done; [unfold virt, sz, PAGE_SIZE; zdm | by destruct B |].
      apply tile_app. exists virt. split; [done|].
      cbn [tile]. rewrite bend_eq. unfold blk_geo, HEAP_MIN_SIZE. cbn [ba bsz bused x].
      unfold virt, sz, PAGE_SIZE in *. split_and!; try done; try zdm.
    + apply pairwise_app in GP as (P1 & [P2 P2'] & P3). apply pairwise_app. simpl in *. split_and!; try done.
      * rewrite Forall_forall in P2 |- *. intros R HR. specialize (P2 R HR). unfold reg_disj in *. simpl in *.
        destruct (Hdis R ltac:(unfold L; set_solver)); destruct (Hin R ltac:(unfold L; set_solver)); lia.
      * rewrite Forall_forall in P3 |- *. intros R HR. specialize (P3 R HR).
        apply Forall_cons in P3 as [P3 P3']. apply Forall_cons. split; [|done]. unfold reg_disj in *. simpl in *.
        destruct (Hdis R ltac:(unfold L; set_solver)); destruct (Hin R ltac:(unfold L; set_solver)); lia.
  - rewrite Hreg. eapply (rlist_extend (kmem h)); [| | exact Hr4 | exact (k_reg _ _ _ K)].
    + intros R HR. eapply same_on_weaken; [|exact Hs]. simpl. intros y Hy.
      assert (R ∈ L) by (unfold L; set_solver).
      destruct (Hhd R HR) as [?|[?|?]]; destruct (Hdis R ltac:(done)); destruct (Hin R ltac:(done)); lia.
    + apply read32_same. eapply same_on_weaken; [|exact Hs]. simpl. intros y Hy. lia.
  - rewrite HbL. apply Forall_cons. split; [done|].
    pose proof (k_blk _ _ _ K) as HB. rewrite Forall_forall in HB |- *. intros b Hb.
    eapply blk_ok_same; [| by apply HB]. eapply same_on_weaken; [|by apply (Hblk b)]. simpl.
    destruct (geom_block _ _ G Hb) as ((G1 & _ & _ & G4) & _ & _). unfold HEAP_MIN_SIZE in *.
    intros y [Hy|[Ub Hy]]; rewrite bend_eq; [lia|]. specialize (G4 Ub). lia.
  - rewrite Efl. apply (k_head _ _ _ K).
  - eapply dll_same; [|exact (k_dll _ _ _ K)]. intros f Hf.
    apply (k_free _ _ _ K), frees_elem in Hf as (b & Hb & _ & <-).
    eapply same_on_weaken; [|by apply (Hblk b)]. simpl.
    destruct (geom_block _ _ G Hb) as ((G1 & _) & _ & _). unfold HEAP_MIN_SIZE in *.
    intros y Hy; rewrite bend_eq; lia.
  - apply (k_nodup _ _ _ K).
  - intros f Hf. apply (k_free _ _ _ K), frees_elem in Hf as (b & Hb & Fb & <-). apply frees_elem.
    exists b. split_and!; try done. rewrite HbL. by right.
  - rewrite Esz, (k_size _ _ _ K). unfold L. clear. induction L1 as [|R L1 IH]; simpl; lia.
  - intros R k HR Hk. apply Hbu. apply elem_of_app in HR as [HR|[->|HR]%elem_of_cons].
    + right. apply (k_busy _ _ _ K R); [unfold L; set_solver | done].
    + cbn [ra rfine] in Hk. destruct (Z.lt_ge_cases (k * PAGE_SIZE) virt).
      * right. apply (k_busy _ _ _ K (mkReg r virt B)); [done | simpl; lia].
      * left. unfold virt, sz, PAGE_SIZE in *. lia.
    + right. apply (k_busy _ _ _ K R); [unfold L; set_solver | done].
Qed.

Definition expanded (h : KHeap P) (L : list Reg) (F : list Z) (pages : Z) (r : Z * KHeap P) : Prop :=
  let '(b, h') := r in
  (b = NULL /\ fst (ps_alloc pages (kpages h)) = 0 /\ kst h' L F /\ kmem h' = kmem h) \/
  (b <> NULL /\ exists L' x, kst h' L' F /\ x ∈ blocks L' /\ ba x = b /\ bused x = false /\ (b ∉ F) /\
     pages * PAGE_SIZE - 36 <= bsz x /\ (blocks L' ≡ₚ (x :: blocks L)) /\
     same_on (used_bytes L) (kmem h) (kmem h')).

(** A fresh block is not on the free list. *)
Lemma fresh_not_free h L F i n b :
  kst h L F -> 0 < i -> 1 <= n -> (forall k, i <= k < i + n -> ~ ps_busy (kpages h) k) ->
  i * PAGE_SIZE <= b < i * PAGE_SIZE + n * PAGE_SIZE -> b ∉ F.
Proof.
  intros K Hi Hn Hfr Hb Hf. destruct (free_inside _ _ _ _ K Hf) as (R & HR & ? & ?).
  destruct (fresh_pages _ _ _ i n R K Hi Hn Hfr HR); lia.
Qed.

Lemma used_fresh h L F i n y :
  kst h L F -> 0 < i -> 1 <= n -> (forall k, i <= k < i + n -> ~ ps_busy (kpages h) k) ->
  used_bytes L y -> ~ (i * PAGE_SIZE <= y < i * PAGE_SIZE + n * PAGE_SIZE).
Proof.
  intros K Hi Hn Hfr (b & Hb & _ & Hy). apply blocks_elem in Hb as (R & HR & Hb).
  destruct (k_geom _ _ _ K) as [GF _]. rewrite Forall_forall in GF.
  destruct (GF R HR) as (_ & _ & _ & _ & _ & T). destruct (tile_elem _ _ _ _ T Hb) as (_ & ? & ?).
  unfold REGION_HEADER_SIZE in *. destruct (fresh_pages _ _ _ i n R K Hi Hn Hfr HR); lia.
Qed.

Lemma blocco_nuovo_ok b size h :
  0 <= size < W32 -> blk_ok (kmem (blocco_nuovo b size h)) (mkBlk b size false 0).
Proof.
  intros Hs. rewrite kmem_blocco_nuovo. unfold blk_ok. cbn [ba bsz bused bch]. mem_simp.
  unfold HEAP_MAGIC, BLOCK_FREE. u32s. done.
Qed.

Lemma same_on_blocco (Q : Z -> Prop) m b size h :
  same_on Q m (kmem h) -> (forall y, Q y -> y < b \/ b + 28 <= y) ->
  same_on Q m (kmem (blocco_nuovo b size h)).
Proof.
  intros Hs Hq. rewrite kmem_blocco_nuovo. repeat apply same_on_write32; try done;
    intros y Hy; destruct (Hq y Hy); lia.
Qed.

Lemma read32_blocco a b size h :
  a + 4 <= b -> read32 (kmem (blocco_nuovo b size h)) a = read32 (kmem h) a.
Proof. intros. rewrite kmem_blocco_nuovo. mem_simp. done. Qed.

Lemma heap_expand_ok h L F pages :
  kst h L F -> 1 <= pages ->
  exists r, heap_expand pages h = Ok r /\ expanded h L F pages r.
Proof.
  intros K Hp.
  pose proof (ps_alloc_ok pages (kpages h) (k_inv _ _ _ K) Hp) as [Hinv Hal]. unfold expanded.
  destruct (ps_alloc pages (kpages h)) as [phys p] eqn:Ea. cbn [fst snd] in *.
  destruct Hal as [[-> Hbu]|(i & -> & Hi & Hu & Hfr & Hbu)].
  { exists (NULL, set_pages p h). split; [unfold heap_expand; by rewrite Ea|]. left.
    split_and!; try done. apply kst_set_pages; try done. intros k Hk. by apply Hbu. }
  assert (Hv : i * PAGE_SIZE + pages * PAGE_SIZE < W32 /\ 4096 <= pages * PAGE_SIZE /\ 4096 <= i * PAGE_SIZE)
    by (unfold PAGE_SIZE, USER_SPACE_BASE, W32 in *; lia).
  destruct Hv as (Hv & Hv1 & Hv2).
  assert (Hlen : (length L <= fuel h)%nat).
  { pose proof (fuel_blocks _ _ _ K). pose proof (regions_length L (k_geom _ _ _ K)). lia. }
  assert (Hsz : u32 (g_heap_size h + pages * PAGE_SIZE) = g_heap_size h + pages * PAGE_SIZE).
  { rewrite (k_size _ _ _ K). pose proof (hsum_bound L (k_geom _ _ _ K)) as Hb.
    pose proof (blocks_length L (k_geom _ _ _ K)) as Hb'.
    apply u32_small. unfold USER_SPACE_BASE, W32, PAGE_SIZE in *. lia. }
  assert (Hgr : forall h', g_free_list h' = g_free_list h -> g_heap_size h' = g_heap_size h + pages * PAGE_SIZE ->
    kpages h' = p -> grown i pages h h') by (intros h' ? ? E; unfold grown; by rewrite E).
  destruct (regione_fino_a_ok h L (i * PAGE_SIZE) (fuel h) (g_regioni h) (k_geom _ _ _ K) (k_reg _ _ _ K) Hlen)
    as [[Er _]|([r f B] & HR & Er & HE)].
  - rewrite (heap_expand_eq _ _ _ _ _ Ea ltac:(unfold PAGE_SIZE in *; lia) Er).
    eexists. split; [reflexivity|]. rewrite Z.eqb_refl.
    unfold regione_primo, REGION_HEADER_SIZE, BLOCK_HEADER_SIZE. rewrite Hsz || idtac.
    rewrite (u32_small (pages * PAGE_SIZE)) by lia. rewrite Hsz. u32s. right. split; [unfold NULL; lia|].
    match goal with |- context [kst ?st _ _] => set (h' := st) end.
    destruct (globals_nuova (i * PAGE_SIZE + 4) (i * PAGE_SIZE + pages * PAGE_SIZE) (i * PAGE_SIZE) (g_regioni h)
       (i * PAGE_SIZE) (if g_prima_regione h =? NULL then i * PAGE_SIZE else g_prima_regione h) (i * PAGE_SIZE + 8)
       (pages * PAGE_SIZE - 8 - 28) (g_heap_size h + pages * PAGE_SIZE) p h) as (Q1 & Q2 & Q3 & Q4 & Q5).
    fold h' in Q1, Q2, Q3, Q4, Q5. clearbody h'.
    set (x := mkBlk (i * PAGE_SIZE + 8) (pages * PAGE_SIZE - 36) false 0).
    exists (mkReg (i * PAGE_SIZE) (i * PAGE_SIZE + pages * PAGE_SIZE) [x] :: L), x.
    replace (pages * PAGE_SIZE - 8 - 28) with (pages * PAGE_SIZE - 36) in Q5 by lia.
    assert (Hsm : same_on (fun y => ~ (i * PAGE_SIZE <= y < i * PAGE_SIZE + pages * PAGE_SIZE)) (kmem h) (kmem h')).
    { rewrite Q5. apply same_on_blocco; [|intros; lia]. rewrite !kmem_put32.
      repeat apply same_on_write32; try apply same_on_refl; intros; lia. }
    split_and!.
    + apply (kst_new_region h); auto.
      * rewrite Q5, read32_blocco by lia. rewrite !kmem_put32. mem_simp. by u32s.
      * rewrite Q5, read32_blocco by lia. rewrite !kmem_put32. mem_simp. apply u32_small.
        destruct L as [|[r f B] L']; pose proof (k_reg _ _ _ K) as Hr; simpl in Hr; [subst; rewrite Hr; by compute|].
        destruct Hr as [-> _]. destruct (geom_region _ _ (k_geom _ _ _ K) ltac:(by left)); simpl in *.
        unfold USER_SPACE_BASE, W32 in *. lia.
      * rewrite Q5. apply blocco_nuovo_ok. lia.
    + by left.
    + done.
    + done.
    + apply (fresh_not_free h _ F i pages _ K); auto; lia.
    + unfold x; cbn [bsz]; lia.
    + done.
    + eapply same_on_weaken; [|exact Hsm]. intros y. by eapply used_fresh.
  - cbn [rfine ra] in HE, Er. subst f.
    destruct (geom_region _ _ (k_geom _ _ _ K) HR) as (Hr0 & Hr1 & _). cbn [ra rfine] in Hr0, Hr1.
    rewrite (heap_expand_eq _ _ _ _ _ Ea ltac:(unfold PAGE_SIZE in *; lia) Er).
    eexists. split; [reflexivity|]. rewrite (proj2 (Z.eqb_neq r NULL)) by (unfold NULL; lia).
    unfold BLOCK_HEADER_SIZE.
    rewrite (u32_small (pages * PAGE_SIZE)) by lia. rewrite Hsz. u32s. right. split; [unfold NULL; lia|].
    match goal with |- context [kst ?st _ _] => set (h' := st) end.
    destruct (globals_estesa (r + 4) (i * PAGE_SIZE + pages * PAGE_SIZE) (i * PAGE_SIZE)
       (pages * PAGE_SIZE - 28) (g_heap_size h + pages * PAGE_SIZE) p h) as (Q1 & Q2 & Q3 & Q4 & Q5).
    fold h' in Q1, Q2, Q3, Q4, Q5. clearbody h'.
    set (x := mkBlk (i * PAGE_SIZE) (pages * PAGE_SIZE - 28) false 0).
    apply list_elem_of_split in HR as (L1 & L2 & ->).
    exists (L1 ++ mkReg r (i * PAGE_SIZE + pages * PAGE_SIZE) (B ++ [x]) :: L2), x.
    assert (Hsm : same_on (fun y => ~ (i * PAGE_SIZE <= y < i * PAGE_SIZE + pages * PAGE_SIZE) /\ ~ (r + 4 <= y < r + 8))
                    (kmem h) (kmem h')).
    { rewrite Q5. apply same_on_blocco; [|intros; lia]. rewrite !kmem_put32.
      repeat apply same_on_write32; try apply same_on_refl; intros; lia. }
    split_and!; try done.
    + apply (kst_extend_region h); auto.
      * rewrite Q5, read32_blocco by lia. rewrite !kmem_put32. mem_simp. by u32s.
      * rewrite Q5. apply blocco_nuovo_ok. lia.
    + rewrite blocks_mid. set_solver.
    + apply (fresh_not_free h _ F i pages _ K); auto; lia.
    + unfold x; cbn [bsz]; lia.
    + rewrite !blocks_mid. solve_Permutation.
    + eapply same_on_weaken; [|exact Hsm]. intros y Hy. split; [by eapply used_fresh|].
      destruct Hy as (b & Hb & _ & Hy).
      destruct (geom_header _ _ (mkReg r (i * PAGE_SIZE) B) (k_geom _ _ _ K) Hb ltac:(set_solver)); simpl in *; lia.
Qed.

(** ** Allocation *)

(** The block size [kmalloc] looks for, and the pages it asks for. *)
Definition richiesta (size : Z) : Z :=
  let al := heap_align (u32 (size + 4)) in if al <? HEAP_MIN_SIZE then HEAP_MIN_SIZE else al.

Definition pagine (al : Z) : Z :=
  let n := align_up (u32 (al + BLOCK_HEADER_SIZE)) PAGE_SIZE / PAGE_SIZE in if n <? 4 then 4 else n.

(** Sizes for which a grown heap has room for the region header too: the block
    fits in the four pages that are asked for at least, or it does not leave less
    than the eight bytes of that header in its last page. *)
Definition non_di_bordo (size : Z) : Prop := richiesta size < 16352 \/ richiesta size mod 4096 <> 4064.

Lemma richiesta_ok size :
  0 < size <= W32 - 4132 ->
  HEAP_MIN_SIZE <= richiesta size /\ richiesta size mod 8 = 0 /\ size + 4 <= richiesta size <= size + 16 /\
  richiesta size <= W32 - 4128.
Proof.
  intros Hs. unfold richiesta, heap_align, HEAP_ALIGN, HEAP_MIN_SIZE. u32s.
  rewrite align_up_8 by (unfold W32 in *; lia). unfold W32 in *. bcase; split_and!; zdm.
Qed.

Lemma pagine_ok al :
  HEAP_MIN_SIZE <= al -> al mod 8 = 0 -> al <= W32 - 4128 ->
  4 <= pagine al /\ al + 28 <= pagine al * PAGE_SIZE /\
  (al < 16352 \/ al mod 4096 <> 4064 -> al + 36 <= pagine al * PAGE_SIZE).
Proof.
  intros H1 H2 H3. unfold pagine, BLOCK_HEADER_SIZE, PAGE_SIZE, HEAP_MIN_SIZE in *. u32s.
  rewrite align_up_4096 by (unfold W32 in *; lia). rewrite Z.div_mul by lia.
  bcase; split_and!; zdm.
Qed.

Lemma kmalloc_eq size chi h :
  0 < size ->
  kmalloc size chi h =
  (block ← first_fit (richiesta size) (g_free_list h) (fuel h) h;
   if block =? NULL then
     '(block, h) ← heap_expand (pagine (richiesta size)) h;
     if block =? NULL then Ok (NULL, h)
     else Ok (u32 (block + BLOCK_HEADER_SIZE),
              kmalloc_prendi block (richiesta size) size chi (free_list_add block h))
   else Ok (u32 (block + BLOCK_HEADER_SIZE), kmalloc_prendi block (richiesta size) size chi h)).
Proof. intros Hs. unfold kmalloc. by rewrite (proj2 (Z.eqb_neq size 0)) by lia. Qed.

Definition allocated (h h' : KHeap P) (L : list Reg) (p size : Z) : Prop :=
  p <> NULL /\ p mod 4 = 0 /\
  exists L', kinv h' L' /\ pays (blocks L') ≡ₚ ((p, size) :: pays (blocks L)) /\
    same_on (used_bytes L) (kmem h) (kmem h').

Definition refused (h h' : KHeap P) (L : list Reg) (size : Z) : Prop :=
  kinv h' L /\ kmem h' = kmem h /\
  (forall b, b ∈ blocks L -> bused b = false -> bsz b < richiesta size) /\
  fst (ps_alloc (pagine (richiesta size)) (kpages h)) = 0.

Lemma ptr_u32 h L F x :
  kst h L F -> x ∈ blocks L ->
  u32 (ba x + BLOCK_HEADER_SIZE) = ba x + 28 /\ ba x + 28 <> NULL /\ (ba x + 28) mod 4 = 0.
Proof.
  intros K Hx. destruct (kst_block _ _ _ _ K Hx) as (_ & (G1 & G2 & _) & Lx & Ux).
  rewrite bend_eq in Ux. unfold HEAP_MIN_SIZE, USER_SPACE_BASE, BLOCK_HEADER_SIZE, NULL in *.
  u32s. split_and!; [done | lia | zdm].
Qed.

Lemma kmalloc_spec h L size chi :
  kinv h L -> 0 < size <= W32 - 4132 -> non_di_bordo size ->
  exists p h', kmalloc size chi h = Ok (p, h') /\
    ((p = NULL /\ refused h h' L size) \/ allocated h h' L p size).
Proof.
  intros (F & K & HF) Hs Hb. rewrite kmalloc_eq by lia.
  destruct (richiesta_ok size Hs) as (A1 & A2 & A3 & A4).
  destruct (pagine_ok (richiesta size) A1 A2 A4) as (P1 & P2 & P3). specialize (P3 Hb).
  unfold non_di_bordo in Hb. set (al := richiesta size) in *.
  assert (Ha4 : al mod 4 = 0) by zdm.
  assert (Hfu : (length F <= fuel h)%nat).
  { pose proof (fuel_blocks _ _ _ K). pose proof (frees_length (blocks L)).
    pose proof (Permutation_length HF). lia. }
  pose proof (first_fit_ok h L F F al (fuel h) K (k_free _ _ _ K) (ex_intro (fun p => dll (kmem h) p F NULL) NULL (k_dll _ _ _ K)) Hfu) as Hff.
  rewrite <- (k_head _ _ _ K) in Hff.
  destruct Hff as [[-> Hno]|(x & -> & Hx & Hxf & Hxs)]; cbn [mbind run_bind].
  - rewrite Z.eqb_refl. destruct (heap_expand_ok h L F (pagine al) K ltac:(lia)) as ([b h1] & -> & HE).
    cbn [mbind run_bind].
    destruct HE as [(-> & He & K1 & Em)|(Nb & L1 & x & K1 & Hx & <- & Fx & NF & Hsz & HB & S1)].
    + rewrite Z.eqb_refl. exists NULL, h1. split; [done|]. left. split; [done|]. split_and!; [by exists F | done | | done].
      intros b Hb' Fb. apply Hno; [done|]. rewrite HF. apply frees_elem; eauto.
    + rewrite (proj2 (Z.eqb_neq _ _) Nb). destruct (ptr_u32 _ _ _ _ K1 Hx) as (-> & N0 & M4).
      destruct (kst_add h1 L1 F (ba x) K1 NF) as (m2 & E2 & K2 & S2); [apply frees_elem; eauto|].
      assert (HF2 : ba x :: F ≡ₚ frees (blocks L1)).
      { by rewrite HB, frees_cons, Fx, HF. }
      destruct (prendi_ok _ L1 _ x al size chi K2 HF2 Hx Fx A1 Ha4 ltac:(lia) ltac:(lia) ltac:(lia))
        as (L3 & K3 & HP & S3).
      eexists _, _. split; [reflexivity|]. right. split_and!; [done | done |]. exists L3. split_and!; [done | |].
      * rewrite HP, HB, pays_cons, Fx. done.
      * assert (Hub : forall y, used_bytes L y -> used_bytes L1 y).
        { intros y (c & Hc & Uc & Hy). exists c. split; [rewrite HB; by right | done]. }
        eapply same_on_trans; [exact S1|]. eapply same_on_trans; (eapply same_on_weaken; [exact Hub|]); [|exact S3].
        rewrite <- (kmem_relink m2 (ba x) h1), <- E2 in S2. eapply links_used; [exact (k_geom _ _ _ K1) | | exact S2].
        intros f [->|Hf]%elem_of_cons; [apply frees_elem; eauto | by apply (k_free _ _ _ K1)].
  - destruct (ptr_u32 _ _ _ _ K Hx) as (-> & N0 & M4).
    rewrite (proj2 (Z.eqb_neq _ _)) by (destruct (kst_block _ _ _ _ K Hx) as (_ & _ & ? & _); unfold NULL; lia).
    assert (Fx : bused x = false).
    { apply (k_free _ _ _ K), frees_elem in Hxf as (c & Hc & Fc & Ec).
      by rewrite <- (geom_inj _ _ _ (k_geom _ _ _ K) Hc Hx Ec). }
    destruct (prendi_ok _ L _ x al size chi K HF Hx Fx A1 Ha4 Hxs ltac:(lia) ltac:(lia)) as (L3 & K3 & HP & S3).
    eexists _, _. split; [reflexivity|]. right. split_and!; [done | done |]. exists L3. done.
Qed.

End Ops.
