(* ===== verification/KheapFree.v ===== *)
(** * The kernel heap: release and coalescence

    [kfree] on a well-formed heap: the walk to the region, the two
    coalescences and the return to the free list, and the consequences for
    [kfree_aligned], a second release and the whole-heap check. *)

From S2P Require Import Prelude Mem Pmm PmmSpec Kheap KheapInv KheapSpec.

#[local] Opaque set_kmem set_free_list set_heap_start set_heap_size set_regioni set_pages add_counts
  free_list_add free_list_remove read32 write32.

Section Free.
Context {P : Type} `{PageSource P}.
Implicit Types (h : KHeap P).

(** ** Walks *)

Lemma rlist_fine m z L R : rlist m z L -> R ∈ L -> read32 m (ra R + 4) = rfine R.
Proof.
  revert z. induction L as [|S L IH]; simpl; intros z Hl HR; [by apply elem_of_nil in HR|].
  destruct Hl as (_ & Hf & Hl). apply elem_of_cons in HR as [->|HR]; eauto.
Qed.

(** [regione_di] finds the one region that holds the address. *)
Lemma regione_loop_in h L p R n z :
  geom L -> rlist (kmem h) z L -> R ∈ L -> ra R <= p < rfine R -> (length L <= n)%nat ->
  regione_loop p z n h = Ok (ra R).
Proof.
  intros G. assert (HR := fun R => geom_region L R G). destruct G as [_ GP]. revert z n.
  induction L as [|S L IH]; intros z n Hl Hin Hp Hn; [by apply elem_of_nil in Hin|].
  destruct Hl as (-> & Hf & Hl). simpl in Hn. destruct n as [|n]; [lia|]. simpl.
  destruct (HR S ltac:(by left)) as (H0 & H1 & _). destruct GP as [GS GP].
  rewrite (proj2 (Z.eqb_neq _ _)) by (unfold NULL; lia). unfold r_fine, r_next. rewrite Hf.
  apply elem_of_cons in Hin as [->|Hin].
  - rewrite (proj2 (Z.leb_le _ _)), (proj2 (Z.ltb_lt _ _)) by lia. done.
  - rewrite Forall_forall in GS. specialize (GS R Hin). unfold reg_disj in GS.
    replace ((ra S <=? p) && (p <? rfine S)) with false.
    + apply IH; auto; [intros; apply HR; by right | lia].
    + symmetry. apply andb_false_iff. rewrite Z.leb_gt, Z.ltb_ge. lia.
Qed.

(** ... and none for an address outside the heap. *)
Lemma regione_loop_out h L p n z :
  geom L -> rlist (kmem h) z L -> (forall R, R ∈ L -> ~ (ra R <= p < rfine R)) -> (length L <= n)%nat ->
  regione_loop p z n h = Ok NULL.
Proof.
  intros G. assert (HR := fun R => geom_region L R G). clear G. revert z n.
  induction L as [|S L IH]; intros z n Hl Hout Hn; [simpl in Hl; subst; by destruct n|].
  destruct Hl as (-> & Hf & Hl). simpl in Hn. destruct n as [|n]; [lia|]. simpl.
  destruct (HR S ltac:(by left)) as (H0 & H1 & _).
  rewrite (proj2 (Z.eqb_neq _ _)) by (unfold NULL; lia). unfold r_fine, r_next. rewrite Hf.
  pose proof (Hout S ltac:(by left)) as Hs.
  replace ((ra S <=? p) && (p <? rfine S)) with false.
  - apply IH; auto; [intros; apply HR; by right | intros; apply Hout; by right | lia].
  - symmetry. apply andb_false_iff. rewrite Z.leb_gt, Z.ltb_ge. lia.
Qed.

Lemma kst_fuel_regions h L F : kst h L F -> (length L <= fuel h)%nat.
Proof.
  intros K. pose proof (fuel_blocks _ _ _ K). pose proof (regions_length L (k_geom _ _ _ K)). lia.
Qed.

Lemma block_valid_ok h L F x : kst h L F -> x ∈ blocks L -> block_valid h (ba x) = true.
Proof.
  intros K Hx. destruct (kst_block _ _ _ _ K Hx) as ((_ & O2 & _) & _ & Lx & _).
  unfold block_valid, b_magic. rewrite O2, (proj2 (Z.eqb_neq _ _)) by (unfold NULL; lia). done.
Qed.

Lemma block_next_ok h L F x : kst h L F -> x ∈ blocks L -> block_next_phys h (ba x) = bend x.
Proof.
  intros K Hx. destruct (kst_block _ _ _ _ K Hx) as ((O1 & _) & (G1 & _) & Lx & Ux).
  rewrite bend_eq in Ux. unfold block_next_phys, b_size, BLOCK_HEADER_SIZE, HEAP_MIN_SIZE, USER_SPACE_BASE in *.
  rewrite O1, bend_eq. u32s. done.
Qed.

(** The place of a stretch in its region. *)
Lemma region_stretch L1 r f B1 M B2 L2 :
  geom (L1 ++ mkReg r f (B1 ++ M ++ B2) :: L2) ->
  exists lo hi, tile (r + 8) B1 lo /\ tile lo M hi /\ tile hi B2 f.
Proof.
  intros [GF _]. rewrite Forall_forall in GF.
  destruct (GF (mkReg r f (B1 ++ M ++ B2)) ltac:(set_solver)) as (_ & _ & _ & _ & _ & T). simpl in T.
  apply tile_app in T as (lo & T1 & T2). apply tile_app in T2 as (hi & T2 & T3). by exists lo, hi.
Qed.

Lemma dentro_ok h L F R b :
  kst h L F -> R ∈ L ->
  0 <= b < W32 - 28 -> dentro_regione h (ra R) b = (ra R + 8 <=? b) && (b + 28 <=? rfine R).
Proof.
  intros K HR Hb. destruct (geom_region _ _ (k_geom _ _ _ K) HR) as (? & ? & ?).
  unfold dentro_regione, regione_primo, r_fine, REGION_HEADER_SIZE, BLOCK_HEADER_SIZE.
  rewrite (rlist_fine _ _ _ _ (k_reg _ _ _ K) HR). unfold USER_SPACE_BASE in *. u32s. done.
Qed.

Lemma cerca_precedente_ok h L F R x D scan n :
  kst h L F -> R ∈ L -> (forall d, d ∈ D -> d ∈ blocks L /\ ra R + 8 <= ba d /\ bend d <= rfine R) ->
  tile scan D (ba x) -> (length D <= n)%nat ->
  cerca_precedente (ra R) (ba x) scan n h = Ok (default NULL (ba <$> last D)).
Proof.
  intros K HR. revert scan n. induction D as [|d D IH]; intros scan n HD T Hn.
  - simpl in T. subst. destruct n; simpl; by rewrite Z.ltb_irrefl.
  - simpl in T, Hn. destruct T as (<- & Gd & T). destruct n as [|n]; [lia|].
    destruct (HD d ltac:(by left)) as (Hd & Hd1 & Hd2). assert (HT := tile_le _ _ _ T).
    destruct (kst_block _ _ _ _ K Hd) as (_ & _ & Ld & Ud). destruct Gd as (Gd & _).
    assert (E : bend d = ba d + 28 + bsz d) by done. unfold HEAP_MIN_SIZE, USER_SPACE_BASE in *.
    simpl. rewrite (proj2 (Z.ltb_lt _ _)) by lia. cbn [negb].
    rewrite (dentro_ok _ _ _ _ _ K HR) by (unfold W32; lia).
    rewrite !(proj2 (Z.leb_le _ _)) by lia. cbn [andb negb].
    rewrite (block_valid_ok _ _ _ _ K Hd), (block_next_ok _ _ _ _ K Hd). cbn [negb].
    destruct D as [|e D].
    + simpl in T. rewrite T, Z.eqb_refl. done.
    + assert (T' := T). destruct T' as (Ee & (Ge & _) & Te). apply tile_le in Te. rewrite bend_eq in Te.
      unfold HEAP_MIN_SIZE in Ge.
      rewrite (proj2 (Z.eqb_neq _ _)) by lia. rewrite (proj2 (Z.leb_gt _ _)) by lia.
      rewrite (IH (bend d) n); auto; [|simpl in *; lia]. intros; apply HD. by right.
Qed.

(** ** A block on its way to the free list

    [pend]: the layout holds the free block [x], not yet on the free list,
    which holds all the others. *)
Definition pend (h : KHeap P) (L1 : list Reg) (r f : Z) (B1 : list Blk) (x : Blk) (B2 : list Blk)
    (L2 : list Reg) : Prop :=
  bused x = false /\
  exists F, kst h (L1 ++ mkReg r f (B1 ++ [x] ++ B2) :: L2) F /\
    F ≡ₚ frees (blocks L1 ++ B1 ++ B2 ++ blocks L2).

Lemma others_not_mid L1 r f B1 x B2 L2 :
  geom (L1 ++ mkReg r f (B1 ++ [x] ++ B2) :: L2) -> ba x ∉ frees (blocks L1 ++ B1 ++ B2 ++ blocks L2).
Proof.
  intros G Hf. apply frees_elem in Hf as (c & Hc & _ & Ec).
  destruct (geom_block _ x G ltac:(rewrite blocks_mid; set_solver)) as (Gx & _ & _).
  destruct (geom_others _ _ _ _ [x] _ _ _ _ c G ltac:(done) (tile_one x Gx) Hc) as [(Gc & _) Dc].
  destruct Gx as (Gx & _). rewrite !bend_eq in Dc. unfold HEAP_MIN_SIZE in *. lia.
Qed.

Lemma pend_elim h L1 r f B1 x B2 L2 :
  pend h L1 r f B1 x B2 L2 ->
  exists F, kst h (L1 ++ mkReg r f (B1 ++ [x] ++ B2) :: L2) F /\ bused x = false /\
    (F ≡ₚ frees (blocks L1 ++ B1 ++ B2 ++ blocks L2)) /\ (ba x ∉ F) /\
    x ∈ blocks (L1 ++ mkReg r f (B1 ++ [x] ++ B2) :: L2) /\
    mkReg r f (B1 ++ [x] ++ B2) ∈ L1 ++ mkReg r f (B1 ++ [x] ++ B2) :: L2.
Proof.
  intros (Fx & F & K & HF). exists F. split_and!; try done.
  - rewrite HF. apply (others_not_mid L1 r f), (k_geom _ _ _ K).
  - rewrite blocks_mid. set_solver.
  - set_solver.
Qed.

(** Two free neighbours become one block. *)
Lemma kst_merge h L1 r f B1 x y B2 L2 F :
  kst h (L1 ++ mkReg r f (B1 ++ [x; y] ++ B2) :: L2) F ->
  bused x = false -> bused y = false -> ba x ∉ F -> ba y ∉ F ->
  let z := mkBlk (ba x) (bsz x + 28 + bsz y) false 0 in
  let h' := put_size (ba x) (u32 (b_size h (ba x) + BLOCK_HEADER_SIZE + b_size h (ba y))) h in
  kst h' (L1 ++ mkReg r f (B1 ++ [z] ++ B2) :: L2) F /\
  same_on (fun a => ~ (ba x <= a < ba x + 4)) (kmem h) (kmem h').
Proof.
  intros K Fx Fy Nx Ny z h'.
  assert (Hx : x ∈ blocks (L1 ++ mkReg r f (B1 ++ [x; y] ++ B2) :: L2)) by (rewrite blocks_mid; set_solver).
  assert (Hy : y ∈ blocks (L1 ++ mkReg r f (B1 ++ [x; y] ++ B2) :: L2)) by (rewrite blocks_mid; set_solver).
  destruct (kst_block _ _ _ _ K Hx) as ((O1 & O2 & O3 & _) & Gx & Lx & Ux). rewrite Fx in O3.
  destruct (kst_block _ _ _ _ K Hy) as ((Q1 & _) & Gy & Ly & Uy).
  destruct (region_stretch _ _ _ _ _ _ _ (k_geom _ _ _ K)) as (lo & hi & _ & T & _).
  destruct T as (E1 & _ & E2 & _ & E3). simpl in E3. subst lo hi. rewrite bend_eq in *.
  assert (Gx' := Gx). assert (Gy' := Gy). destruct Gx' as (X1 & X2 & X3 & _). destruct Gy' as (Y1 & Y2 & Y3 & _).
  unfold HEAP_MIN_SIZE, USER_SPACE_BASE in *.
  assert (E : kmem h' = write32 (kmem h) (ba x) (bsz x + 28 + bsz y)).
  { unfold h'. kmem_simp. rewrite O1, Q1. unfold BLOCK_HEADER_SIZE. u32s. done. }
  assert (Es : same_on (fun a => ~ (ba x <= a < ba x + 4)) (kmem h) (kmem h')).
  { rewrite E. apply same_on_write32; [apply same_on_refl | intros; lia]. }
  split; [|done].
  eapply (kst_replace h); [exact K | | done | done | | | | |].
  - unfold h', put_size. auto with exos.
  - simpl. split_and!; [done | done | done | done | reflexivity].
  - simpl. unfold blk_geo, HEAP_MIN_SIZE. rewrite !bend_eq. simpl. split_and!; try done; zdm.
  - intros b [->|[->|Hb]%elem_of_cons]%elem_of_cons; [done | done | by apply elem_of_nil in Hb].
  - eapply same_on_weaken; [|exact Es]. simpl. intros a Ha. rewrite bend_eq in Ha. lia.
  - apply Forall_singleton. unfold blk_ok, z. rewrite E. cbn [ba bsz bused bch]. mem_simp. u32s.
    rewrite O2, O3. done.
Qed.

Lemma useds_free b bs : bused b = false -> useds (b :: bs) = useds bs.
Proof. intros E. by rewrite useds_cons, E. Qed.

(** Taking a free neighbour off the list leaves the allocated bytes and every
    block head in place. *)
Lemma remove_frame h L F b :
  kst h L F -> b ∈ F -> exists F1 F2, F = F1 ++ b :: F2 /\ kst (free_list_remove b h) L (F1 ++ F2) /\
    same_on (used_bytes L) (kmem h) (kmem (free_list_remove b h)) /\
    (forall c, c ∈ blocks L -> same_on (fun a => ba c <= a < ba c + 20) (kmem h) (kmem (free_list_remove b h))).
Proof.
  intros K Hb. apply list_elem_of_split in Hb as (F1 & F2 & ->). exists F1, F2. split; [done|].
  destruct (kst_remove _ _ _ _ _ K) as (m1 & E1 & K1 & S1). split; [done|].
  rewrite E1, kmem_relink. split.
  - eapply links_used; [exact (k_geom _ _ _ K) | apply (k_free _ _ _ K) | exact S1].
  - intros c Hc. eapply links_heads; [exact (k_geom _ _ _ K) | apply (k_free _ _ _ K) | exact S1 | done].
Qed.

(** What becomes of the blocks after the one released, and of those before it:
    the neighbour is taken in if it is free. *)
Definition dopo (x : Blk) (B2 : list Blk) (z : Blk) (B2' : list Blk) : Prop :=
  (B2' = B2 /\ bend z = bend x /\ forall y, head B2 = Some y -> bused y = true) \/
  exists y, B2 = y :: B2' /\ bused y = false /\ bend z = bend y.

Definition prima (B1 : list Blk) (x : Blk) (B1' : list Blk) (z : Blk) : Prop :=
  (B1' = B1 /\ ba z = ba x /\ forall w, last B1 = Some w -> bused w = true) \/
  exists w, B1 = B1' ++ [w] /\ bused w = false /\ ba z = ba w.

Lemma pend_avanti h L1 r f B1 x B2 L2 :
  pend h L1 r f B1 x B2 L2 ->
  exists x' B2', pend (kfree_avanti r (ba x) h) L1 r f B1 x' B2' L2 /\
    ba x' = ba x /\ useds B2' = useds B2 /\ dopo x B2 x' B2' /\
    same_on (used_bytes (L1 ++ mkReg r f (B1 ++ [x] ++ B2) :: L2)) (kmem h) (kmem (kfree_avanti r (ba x) h)).
Proof.
  intros Hp. destruct (pend_elim _ _ _ _ _ _ _ _ Hp) as (F & K & Fx & HF & Nx & Hx & HR).
  assert (G := k_geom _ _ _ K).
  destruct (kst_block _ _ _ _ K Hx) as (_ & (Gx & _) & Lx & Ux). rewrite bend_eq in Ux.
  unfold HEAP_MIN_SIZE, USER_SPACE_BASE in *.
  destruct (region_stretch _ _ _ _ _ _ _ G) as (lo & hi & T1 & T2 & T3).
  destruct T2 as (<- & _ & T2). simpl in T2. subst hi. assert (T3' := tile_le _ _ _ T3). apply tile_le in T1.
  unfold kfree_avanti. rewrite (block_next_ok _ _ _ _ K Hx).
  assert (Hd := dentro_ok _ _ _ _ (bend x) K HR ltac:(rewrite bend_eq; unfold W32; lia)).
  cbn [ra rfine] in Hd. rewrite Hd. clear Hd.
  rewrite (proj2 (Z.leb_le (r + 8) (bend x))) by (rewrite bend_eq; lia). cbn [andb].
  destruct B2 as [|y B2].
  - simpl in T3. rewrite T3, (proj2 (Z.leb_gt _ _)) by lia. cbn [negb].
    exists x, []. split_and!; try done; [|by left]. split; [done|]. exists F. split; [|done]. by apply kst_counts.
  - destruct T3 as (Ey & (Gy & _) & T3). assert (T3'' := tile_le _ _ _ T3). rewrite bend_eq in T3''.
    unfold HEAP_MIN_SIZE in Gy. rewrite <- Ey, (proj2 (Z.leb_le _ _)) by lia. cbn [negb].
    assert (Hy : y ∈ blocks (L1 ++ mkReg r f (B1 ++ [x] ++ y :: B2) :: L2)) by (rewrite blocks_mid; set_solver).
    rewrite (block_valid_ok _ _ _ _ K Hy). cbn [andb].
    destruct (kst_block _ _ _ _ K Hy) as ((_ & _ & Q3 & _) & _). unfold b_flags at 1 2. rewrite Q3.
    destruct (bused y) eqn:Fy.
    { exists x, (y :: B2). split_and!; try done. left. split_and!; try done. by intros ? [= <-]. }
    change (BLOCK_FREE =? BLOCK_FREE) with true. cbv iota.
    destruct (remove_frame h _ F (ba y) K) as (Fa & Fb & -> & K1 & S1 & _).
    { rewrite HF. apply frees_elem. exists y. split_and!; [set_solver | done | done]. }
    set (h1 := free_list_remove (ba y) h) in *. clearbody h1.
    assert (Nd := k_nodup _ _ _ K).
    destruct (kst_merge h1 L1 r f B1 x y B2 L2 (Fa ++ Fb) K1 Fx Fy) as [K2 S2]; [set_solver | by apply nodup_drop |].
    eexists _, B2. split_and!; [split; [|exists (Fa ++ Fb); split; [exact K2|]] | | | |].
    + done.
    + apply (perm_drop _ _ _ (ba y)). rewrite HF, !frees_app, frees_cons, Fy. solve_Permutation.
    + done.
    + by rewrite useds_free.
    + right. exists y. split_and!; try done. rewrite !bend_eq in *. cbn [ba bsz]. lia.
    + eapply same_on_trans; [exact S1|]. eapply same_on_weaken; [|exact S2]. intros a Ha Hlt.
      refine (used_outside L1 r f B1 [x] (y :: B2) L2 (ba x) (bend x) a G _ _ _ Ha _);
        [done | apply tile_one, (kst_block _ _ _ _ K Hx) | by apply Forall_singleton | rewrite bend_eq; lia].
Qed.

Lemma pend_indietro h L1 r f B1 x B2 L2 :
  pend h L1 r f B1 x B2 L2 ->
  exists x' B1' h', kfree_indietro r (ba x) h = Ok (ba x', h') /\ pend h' L1 r f B1' x' B2 L2 /\
    useds B1' = useds B1 /\ bend x' = bend x /\ (ba x' = ba x \/ ba x' + 28 <= ba x) /\ prima B1 x B1' x' /\
    same_on (used_bytes (L1 ++ mkReg r f (B1 ++ [x] ++ B2) :: L2)) (kmem h) (kmem h') /\
    same_on (fun a => ba x <= a < ba x + 12) (kmem h) (kmem h').
Proof.
  intros Hp0. unfold kfree_indietro.
  set (h0 := if r =? g_prima_regione h then h else add_counts 0 0 0 1 0 0 h).
  assert (Em : kmem h0 = kmem h) by (unfold h0; destruct (r =? _); [done | apply kmem_counts]).
  rewrite <- Em.
  assert (Hp : pend h0 L1 r f B1 x B2 L2).
  { destruct Hp0 as (Fx & F & K & HF). split; [done|]. exists F. split; [|done].
    unfold h0. destruct (r =? _); [done | by apply kst_counts]. }
  clearbody h0. clear Hp0 Em h. rename h0 into h.
  destruct (pend_elim _ _ _ _ _ _ _ _ Hp) as (F & K & Fx & HF & Nx & Hx & HR).
  assert (G := k_geom _ _ _ K).
  destruct (region_stretch _ _ _ _ _ _ _ G) as (lo & hi & T1 & T2 & T3). destruct T2 as (<- & _ & T2).
  simpl in T2. subst hi.
  destruct (geom_region _ _ G HR) as (R1 & R2 & R3). cbn [ra rfine] in *.
  assert (HB : forall d, d ∈ B1 -> d ∈ blocks (L1 ++ mkReg r f (B1 ++ [x] ++ B2) :: L2)).
  { intros d Hd. rewrite blocks_mid. set_solver. }
  replace (regione_primo r) with (r + 8)
    by (unfold regione_primo, REGION_HEADER_SIZE, USER_SPACE_BASE in *; u32s; done).
  pose proof (cerca_precedente_ok h _ F (mkReg r f (B1 ++ [x] ++ B2)) x B1 (r + 8) (fuel h) K HR) as Hc.
  cbn [ra rfine] in Hc. rewrite Hc; clear Hc; cycle 1.
  { intros d Hd. destruct (tile_elem _ _ _ _ T1 Hd) as (_ & ? & ?). cbn [ra rfine].
    split_and!; [auto | done |]. apply tile_le in T3. rewrite bend_eq in T3.
    destruct (kst_block _ _ _ _ K Hx) as (_ & (Gx & _) & _). unfold HEAP_MIN_SIZE in *. lia. }
  { done. }
  { pose proof (fuel_blocks _ _ _ K) as Hf. rewrite blocks_mid, !length_app in Hf. lia. }
  cbn [mbind run_bind].
  destruct B1 as [|w B1 _] using rev_ind.
  { simpl. exists x, [], h. split_and!; auto; try done. by left. }
  replace (default NULL (ba <$> last (B1 ++ [w]))) with (ba w) by (by rewrite last_snoc).
  assert (Hw : w ∈ blocks (L1 ++ mkReg r f ((B1 ++ [w]) ++ [x] ++ B2) :: L2)) by (apply HB; set_solver).
  destruct (kst_block _ _ _ _ K Hw) as ((_ & _ & Q3 & _) & Gw & Lw & Uw).
  rewrite (proj2 (Z.eqb_neq (ba w) NULL)) by (unfold NULL; lia). cbn [negb andb]. unfold b_flags. rewrite Q3.
  destruct (bused w) eqn:Fw.
  { change (BLOCK_USED =? BLOCK_FREE) with false. cbv iota. exists x, (B1 ++ [w]), h. split_and!; auto; try done.
    left. split_and!; try done. intros w'. rewrite last_snoc. by intros [= <-]. }
  change (BLOCK_FREE =? BLOCK_FREE) with true. cbv iota.
  apply tile_app in T1 as (q & T1 & (<- & _ & Tw)). simpl in Tw.
  destruct (remove_frame h _ F (ba w) K) as (Fa & Fb & -> & K1 & S1 & S1h).
  { rewrite HF. apply frees_elem. exists w. split_and!; [set_solver | done | done]. }
  specialize (S1h x Hx).
  set (h1 := free_list_remove (ba w) h) in *. clearbody h1.
  assert (Nd := k_nodup _ _ _ K). rewrite <- app_assoc in K1. simpl in K1.
  destruct (kst_merge h1 L1 r f B1 w x B2 L2 (Fa ++ Fb) K1 Fw Fx) as [K2 S2]; [by apply nodup_drop | set_solver |].
  eexists (mkBlk (ba w) _ false 0), B1, _. split; [reflexivity|].
  destruct Gw as (Gw & _). unfold HEAP_MIN_SIZE in Gw. rewrite bend_eq in Tw.
  split_and!; [split; [|exists (Fa ++ Fb); split; [exact K2|]] | | | | | |].
  - done.
  - apply (perm_drop _ _ _ (ba w)). rewrite HF, !frees_app, !frees_cons, Fw. solve_Permutation.
  - by rewrite useds_app, useds_free, app_nil_r.
  - rewrite !bend_eq. simpl. lia.
  - simpl. lia.
  - right. by exists w.
  - eapply same_on_trans; [exact S1|]. eapply same_on_weaken; [|exact S2]. intros a Ha Hlt.
    rewrite <- app_assoc in Ha, G.
    refine (used_outside L1 r f B1 [w] ([x] ++ B2) L2 (ba w) (bend w) a G _ _ _ Ha _);
      [done | apply tile_one, (kst_block _ _ _ _ K Hw) | by apply Forall_singleton | rewrite bend_eq; lia].
  - eapply same_on_trans; [eapply same_on_weaken; [|exact S1h]; simpl; intros; lia|].
    eapply same_on_weaken; [|exact S2]. simpl. intros a Ha. lia.
Qed.

Lemma pend_add h L1 r f B1 x B2 L2 :
  pend h L1 r f B1 x B2 L2 ->
  kinv (free_list_add (ba x) h) (L1 ++ mkReg r f (B1 ++ [x] ++ B2) :: L2) /\
  same_on (used_bytes (L1 ++ mkReg r f (B1 ++ [x] ++ B2) :: L2)) (kmem h) (kmem (free_list_add (ba x) h)) /\
  same_on (fun a => ba x <= a < ba x + 20 \/ ba x + 28 <= a < bend x) (kmem h) (kmem (free_list_add (ba x) h)).
Proof.
  intros Hp. destruct (pend_elim _ _ _ _ _ _ _ _ Hp) as (F & K & Fx & HF & Nx & Hx & HR).
  assert (G := k_geom _ _ _ K).
  assert (Hfx : ba x ∈ frees (blocks (L1 ++ mkReg r f (B1 ++ [x] ++ B2) :: L2))) by (apply frees_elem; eauto).
  destruct (kst_add h _ F (ba x) K Nx Hfx) as (m1 & E1 & K1 & S1).
  split; [|rewrite E1, kmem_relink; split].
  - exists (ba x :: F). split; [done|]. rewrite frees_mid, frees_cons, Fx. simpl. by rewrite HF.
  - eapply links_used; [exact G | | exact S1].
    intros g [->|Hg]%elem_of_cons; [done | by apply (k_free _ _ _ K)].
  - eapply same_on_weaken; [|exact S1]. intros a Ha. apply Forall_cons. split; [lia|].
    apply Forall_forall. intros g Hg. rewrite HF in Hg. apply frees_elem in Hg as (c & Hc & _ & <-).
    destruct (kst_block _ _ _ _ K Hx) as (_ & Gx & _).
    destruct (geom_others _ _ _ _ [x] _ _ _ _ c G ltac:(done) (tile_one x Gx) Hc) as [(Gc & _) Dc].
    destruct Gx as (Gx & _). rewrite !bend_eq in *. unfold HEAP_MIN_SIZE in *. lia.
Qed.

(** A used block whose flag is cleared. *)
Lemma kst_unuse h L1 r f B1 x B2 L2 F :
  kst h (L1 ++ mkReg r f (B1 ++ [x] ++ B2) :: L2) F -> F ≡ₚ frees (blocks (L1 ++ mkReg r f (B1 ++ [x] ++ B2) :: L2)) ->
  bused x = true ->
  pend (put_flags (ba x) BLOCK_FREE h) L1 r f B1 (mkBlk (ba x) (bsz x) false 0) B2 L2 /\
  same_on (fun a => ~ (ba x <= a < bend x)) (kmem h) (kmem (put_flags (ba x) BLOCK_FREE h)).
Proof.
  intros K HF Ux.
  assert (Hx : x ∈ blocks (L1 ++ mkReg r f (B1 ++ [x] ++ B2) :: L2)) by (rewrite blocks_mid; set_solver).
  destruct (kst_block _ _ _ _ K Hx) as ((O1 & O2 & O3 & _) & Gx & Lx & Bx).
  assert (Gx' := Gx). destruct Gx' as (G1 & G2 & G3 & _). unfold HEAP_MIN_SIZE in *.
  assert (Es : same_on (fun a => ~ (ba x <= a < bend x)) (kmem h) (kmem (put_flags (ba x) BLOCK_FREE h))).
  { kmem_simp. apply same_on_write32; [apply same_on_refl|]. intros a Ha. rewrite bend_eq in Ha. lia. }
  assert (HF' : F ≡ₚ frees (blocks L1 ++ B1 ++ B2 ++ blocks L2)).
  { rewrite HF, frees_mid, frees_cons, Ux. done. }
  split; [|done]. split; [done|]. exists F. split; [|done].
  eapply (kst_replace h); [exact K | | done | done | by apply tile_one | | | exact Es |].
  - unfold put_flags. auto with exos.
  - apply (tile_one (mkBlk (ba x) (bsz x) false 0)). split_and!; done.
  - intros b ->%list_elem_of_singleton. rewrite HF'. apply (others_not_mid L1 r f), (k_geom _ _ _ K).
  - apply Forall_singleton. unfold blk_ok. cbn [ba bsz bused bch]. kmem_simp. mem_simp.
    unfold BLOCK_FREE. u32s. rewrite O1, O2. done.
Qed.

Lemma canarino_ok h L F x :
  kst h L F -> x ∈ blocks L -> canarino_rotto (ba x) h = (false, h).
Proof.
  intros K Hx. destruct (kst_block _ _ _ _ K Hx) as ((O1 & O2 & O3 & O4) & (_ & _ & _ & G4) & Lx & Bx).
  unfold canarino_rotto, canarino_c_e, b_flags. rewrite O3. destruct (bused x) eqn:Ux; [|done].
  destruct (O4 eq_refl) as [O5 O6]. destruct (G4 eq_refl) as [G5 G6].
  rewrite bend_eq in Bx. unfold USER_SPACE_BASE, canarino_di, b_chiesti, b_size, BLOCK_HEADER_SIZE in *.
  rewrite O5, O1. u32s. rewrite (proj2 (Z.leb_le _ _)) by lia. cbn. by rewrite O6, Z.eqb_refl.
Qed.

(** What [kfree] sees of a pointer that is not free. *)
Lemma kfree_guards h L F x ptr :
  kst h L F -> x ∈ blocks L -> bused x = true -> ptr = ba x + 28 ->
  exists R, R ∈ L /\ x ∈ rblks R /\
    kfree ptr h = ('(block, h) ← kfree_indietro (ra R) (ba x)
                     (kfree_avanti (ra R) (ba x) (add_counts 0 1 0 0 0 0 (put_flags (ba x) BLOCK_FREE h)));
                   Ok (free_list_add block h)).
Proof.
  intros K Hx Ux ->. destruct (kst_block _ _ _ _ K Hx) as ((_ & _ & O3 & _) & (G1 & _) & Lx & Bx).
  rewrite bend_eq in Bx. unfold USER_SPACE_BASE, HEAP_MIN_SIZE in *.
  assert (Hx' := Hx). apply blocks_elem in Hx' as (R & HR & HxR). exists R. split_and!; try done.
  destruct (k_geom _ _ _ K) as [GF _]. rewrite Forall_forall in GF.
  destruct (GF R HR) as (_ & _ & _ & _ & _ & T). destruct (tile_elem _ _ _ _ T HxR) as (_ & T1 & T2).
  rewrite bend_eq in T2. unfold REGION_HEADER_SIZE in *.
  unfold kfree, NULL, BLOCK_HEADER_SIZE. rewrite (proj2 (Z.eqb_neq _ _)) by lia.
  replace (ba x + 28 - 28) with (ba x) by lia. u32s. unfold regione_di.
  rewrite (regione_loop_in h L (ba x) R); [ | apply (k_geom _ _ _ K) | apply (k_reg _ _ _ K) | done | lia | by eapply kst_fuel_regions].
  cbn [mbind run_bind].
  destruct (geom_region _ _ (k_geom _ _ _ K) HR) as (? & _ & _).
  rewrite (proj2 (Z.eqb_neq _ _)) by lia. rewrite (block_valid_ok _ _ _ _ K Hx). cbn [negb].
  unfold b_flags at 1. rewrite O3, Ux. change (BLOCK_USED =? BLOCK_FREE) with false. cbv iota.
  by rewrite (canarino_ok _ _ _ _ K Hx).
Qed.

Lemma pays_elem bs p n :
  (p, n) ∈ pays bs <-> exists b, b ∈ bs /\ bused b = true /\ p = ba b + 28 /\ n = bch b.
Proof.
  unfold pays, useds. rewrite list_elem_of_fmap. setoid_rewrite list_elem_of_filter. unfold BLOCK_HEADER_SIZE. split.
  - intros (b & E & Ub & Hb). injection E as -> ->. exists b. done.
  - intros (b & Hb & Ub & -> & ->). exists b. done.
Qed.

(** [L'] is [L] with the block of payload [p] free and one with its free
    neighbours. *)
Definition fuso (L L' : list Reg) (p : Z) : Prop :=
  exists L1 r f B1 x B2 B1' z B2' L2,
    L = L1 ++ mkReg r f (B1 ++ x :: B2) :: L2 /\ p = ba x + BLOCK_HEADER_SIZE /\
    L' = L1 ++ mkReg r f (B1' ++ z :: B2') :: L2 /\ bused z = false /\ prima B1 x B1' z /\ dopo x B2 z B2'.

Definition released (h h' : KHeap P) (L : list Reg) (p n : Z) : Prop :=
  exists L', kinv h' L' /\ (pays (blocks L) ≡ₚ (p, n) :: pays (blocks L')) /\
    same_on (used_bytes L') (kmem h) (kmem h') /\ fuso L L' p.

Lemma useds_mid L1 r f B1 M B2 L2 :
  useds (blocks (L1 ++ mkReg r f (B1 ++ M ++ B2) :: L2)) =
  useds (blocks L1) ++ useds B1 ++ useds M ++ useds B2 ++ useds (blocks L2).
Proof. by rewrite blocks_mid, !useds_app, <- !app_assoc. Qed.

Lemma kfree_spec h L p n :
  kinv h L -> (p, n) ∈ pays (blocks L) ->
  exists h', kfree p h = Ok h' /\ released h h' L p n /\ kfree p h' = Ok h'.
Proof.
  intros (F & K & HF) Hp. apply pays_elem in Hp as (x & Hx & Ux & Ep & ->).
  destruct (kfree_guards h L F x p K Hx Ux Ep) as ([r f B] & HR & HxB & ->). cbn [ra rblks] in *.
  apply list_elem_of_split in HR as (L1 & L2 & ->). apply list_elem_of_split in HxB as (B1 & B2 & ->).
  change (B1 ++ x :: B2) with (B1 ++ [x] ++ B2) in *.
  destruct (kst_unuse _ _ _ _ _ _ _ _ _ K HF Ux) as [P1 S1]. set (x1 := mkBlk (ba x) (bsz x) false 0) in *.
  set (h1 := put_flags (ba x) BLOCK_FREE h) in *. clearbody h1.
  assert (P1' : pend (add_counts 0 1 0 0 0 0 h1) L1 r f B1 x1 B2 L2).
  { destruct P1 as (Fx & F1 & K1 & HF1). split; [done|]. exists F1. split; [by apply kst_counts | done]. }
  destruct (pend_avanti _ _ _ _ _ _ _ _ P1') as (x2 & B2' & P2 & A2 & Y2 & DD & S2). change (ba x1) with (ba x) in *.
  rewrite kmem_counts in S2. set (h2 := kfree_avanti r (ba x) (add_counts 0 1 0 0 0 0 h1)) in *. clearbody h2.
  rewrite <- A2.
  destruct (pend_indietro _ _ _ _ _ _ _ _ P2) as (x3 & B1' & h3 & -> & P3 & Y1 & E3 & D3 & PP & S3 & S3').
  cbn [mbind run_bind]. destruct (pend_add _ _ _ _ _ _ _ _ P3) as (K4 & S4 & S4').
  eexists. split; [reflexivity|]. set (h4 := free_list_add (ba x3) h3) in *. clearbody h4.
  split.
  - exists (L1 ++ mkReg r f (B1' ++ [x3] ++ B2') :: L2). split; [done|].
    assert (HU : useds (blocks (L1 ++ mkReg r f (B1' ++ [x3] ++ B2') :: L2)) =
                 useds (blocks L1) ++ useds B1 ++ useds B2 ++ useds (blocks L2)).
    { rewrite useds_mid, useds_free by apply P3. by rewrite Y1, Y2. }
    assert (HS : forall M b, b ∈ useds (blocks (L1 ++ mkReg r f (B1' ++ [x3] ++ B2') :: L2)) ->
                   b ∈ useds (blocks (L1 ++ mkReg r f (B1 ++ M ++ B2) :: L2))).
    { intros M b. rewrite HU, useds_mid. set_solver. }
    assert (HS' : forall M b, b ∈ useds (blocks (L1 ++ mkReg r f (B1' ++ [x3] ++ B2') :: L2)) ->
                   b ∈ useds (blocks (L1 ++ mkReg r f (B1 ++ M ++ B2') :: L2))).
    { intros M b. rewrite HU, useds_mid, Y2. set_solver. }
    split; [|split].
    + unfold pays. rewrite HU, useds_mid, useds_cons, Ux, !fmap_app, Ep. unfold BLOCK_HEADER_SIZE.
      rewrite fmap_cons. solve_Permutation.
    + destruct P1 as (Fx1 & F1 & K1 & _). assert (G1 := k_geom _ _ _ K1).
      assert (Hx1 : x1 ∈ blocks (L1 ++ mkReg r f (B1 ++ [x1] ++ B2) :: L2)) by (rewrite blocks_mid; set_solver).
      eapply same_on_trans; [eapply same_on_weaken; [|exact S1]|].
      { intros a Ha. eapply used_bytes_mono in Ha; [|apply (HS [x1])].
        refine (used_outside L1 r f B1 [x1] B2 L2 (ba x1) (bend x1) a G1 _ _ _ Ha);
          [done | apply tile_one, (kst_block _ _ _ _ K1 Hx1) | by apply Forall_singleton]. }
      eapply same_on_trans; [eapply same_on_weaken; [|exact S2]; intros a; apply used_bytes_mono, HS|].
      eapply same_on_trans; [eapply same_on_weaken; [|exact S3]; intros a; apply used_bytes_mono, HS' | exact S4].
    + exists L1, r, f, B1, x, B2, B1', x3, B2', L2. split_and!; try done; [by apply P3 | |].
      * destruct PP as [(? & Ea & ?)|(w & ? & ? & Ea)]; [left | right; exists w]; split_and!; try done; congruence.
      * destruct DD as [(? & Eb & ?)|(y & ? & ? & Eb)]; [left | right; exists y]; split_and!; try done; by rewrite E3, Eb.
  - destruct (pend_elim _ _ _ _ _ _ _ _ P2) as (F2 & K2 & Fx2 & _ & _ & Hx2 & _).
    destruct (kst_block _ _ _ _ K2 Hx2) as ((_ & O2 & O3 & _) & (G2 & _) & Lx2 & Bx2). rewrite Fx2 in O3.
    unfold HEAP_MIN_SIZE in G2. assert (Bx2' := Bx2). rewrite bend_eq in Bx2'. unfold USER_SPACE_BASE in Bx2'.
    assert (Hsame : same_on (fun a => ba x2 <= a < ba x2 + 12) (kmem h2) (kmem h4)).
    { eapply same_on_trans; [exact S3'|]. eapply same_on_weaken; [|exact S4']. simpl. intros a Ha.
      rewrite E3, bend_eq. lia. }
    assert (Q2 : read32 (kmem h4) (ba x2 + 4) = HEAP_MAGIC).
    { rewrite <- O2. apply read32_same. eapply same_on_weaken; [|exact Hsame]. simpl. intros; lia. }
    assert (Q3 : read32 (kmem h4) (ba x2 + 8) = BLOCK_FREE).
    { rewrite <- O3. apply read32_same. eapply same_on_weaken; [|exact Hsame]. simpl. intros; lia. }
    assert (Hreg : r <= ba x2 < f).
    { destruct (region_stretch _ _ _ _ _ _ _ (k_geom _ _ _ K2)) as (lo & hi & T1 & T2 & T3).
      destruct T2 as (<- & _ & T2). simpl in T2. subst hi. apply tile_le in T1. apply tile_le in T3.
      rewrite bend_eq in T3. lia. }
    destruct K4 as (F4 & K4 & _).
    unfold kfree, NULL, BLOCK_HEADER_SIZE. rewrite Ep, <- A2, (proj2 (Z.eqb_neq _ _)) by lia.
    replace (ba x2 + 28 - 28) with (ba x2) by lia. u32s. unfold regione_di.
    rewrite (regione_loop_in h4 _ (ba x2) (mkReg r f (B1' ++ [x3] ++ B2')) _ _ (k_geom _ _ _ K4) (k_reg _ _ _ K4));
      [ | set_solver | done | by eapply kst_fuel_regions].
    cbn [mbind run_bind ra].
    destruct (geom_region _ (mkReg r f (B1' ++ [x3] ++ B2')) (k_geom _ _ _ K4) ltac:(set_solver)) as (Hr0 & _ & _).
    simpl in Hr0. rewrite (proj2 (Z.eqb_neq _ _)) by lia. unfold block_valid, b_magic, b_flags.
    rewrite Q2, Q3, (proj2 (Z.eqb_neq _ _)) by (unfold NULL; lia). done.
Qed.

(** A pointer outside every region stops the kernel. *)
Lemma kfree_foreign h L p :
  kinv h L -> p <> NULL ->
  (forall R, R ∈ L -> ~ (ra R <= u32 (p - BLOCK_HEADER_SIZE) < rfine R)) -> kfree p h = Panic.
Proof.
  intros (F & K & _) Np Hout. unfold kfree. rewrite (proj2 (Z.eqb_neq _ _) Np). unfold regione_di.
  rewrite (regione_loop_out h L); [done | apply (k_geom _ _ _ K) | apply (k_reg _ _ _ K) | done | by eapply kst_fuel_regions].
Qed.

End Free.
