(* ===== verification/KheapThms.v ===== *)
(** * The kernel heap: the whole component

    Initialisation, the aligned entry points, the heap check, writes of the
    clients, and the heap as a state machine: every sequence of allocations,
    releases and client writes keeps the invariant. *)

From S2P Require Import Prelude Mem Pmm PmmSpec Kheap KheapInv KheapSpec KheapFree PmmInit.

#[local] Opaque set_kmem set_free_list set_heap_start set_heap_size set_regioni set_pages add_counts
  free_list_add free_list_remove read32 write32.

Section Thms.
Context {P : Type} `{PageSource P}.
Implicit Types (h : KHeap P).

(** ** Initialisation *)

Lemma kst_set_heap_start h L F v : kst h L F -> kst (set_heap_start v h) L F.
Proof. Transparent set_heap_start. by intros []. Opaque set_heap_start. Qed.

Lemma kmalloc_init_spec m p :
  ps_inv p ->
  (kmalloc_init (kheap_zero m p) = Panic /\ fst (ps_alloc 16 p) = 0) \/
  (exists h L, kmalloc_init (kheap_zero m p) = Ok h /\ kinv h L /\ pays (blocks L) = []).
Proof.
  intros Hp. unfold kmalloc_init, kheap_zero. cbn [kmem g_heap_start g_heap_end g_regioni g_prima_regione
    g_alloc_count g_free_count g_stop_avanti g_stop_indietro g_intestazioni_rotte g_canarini_rotti kpages].
  set (h0 := mkKHeap m _ _ _ _ _ _ _ _ _ _ _ _ _ p).
  assert (K0 : kst h0 [] []).
  { split; try done; try by constructor; by intros ? ?%elem_of_nil.
    all: intros; match goal with E : _ ∈ [] |- _ => by apply elem_of_nil in E end. }
  destruct (heap_expand_ok h0 [] [] 16 K0 ltac:(lia)) as ([b h1] & -> & HE). cbn [mbind run_bind].
  destruct HE as [(-> & He & _)|(Nb & L1 & x & K1 & Hx & <- & Fx & NF & _ & HB & _)].
  - left. done.
  - right. rewrite (proj2 (Z.eqb_neq _ _) Nb).
    apply (kst_set_heap_start _ _ _ (ba x)) in K1.
    destruct (kst_add _ L1 [] (ba x) K1 NF) as (m2 & _ & K2 & _); [apply frees_elem; eauto|].
    eexists _, L1. split; [reflexivity|]. split.
    + exists [ba x]. split; [done|]. by rewrite HB, frees_cons, Fx.
    + apply Permutation_nil. symmetry. by rewrite HB, pays_cons, Fx.
Qed.

(** ** Writes inside an allocated payload *)

Lemma kinv_payload h L p n m' :
  kinv h L -> (p, n) ∈ pays (blocks L) -> same_on (fun a => ~ (p <= a < p + n)) (kmem h) m' ->
  kinv (set_kmem m' h) L.
Proof.
  Transparent set_kmem.
  intros (F & K & HF) Hp Hs. apply pays_elem in Hp as (x & Hx & Ux & -> & ->).
  exists F. split; [|done].
  destruct (kst_block _ _ _ _ K Hx) as (Ox & Gx & Lx & Bx). assert (Gx' := Gx).
  destruct Gx' as (G1 & _ & _ & G4). destruct (G4 Ux) as [G5 G6]. unfold HEAP_MIN_SIZE in *.
  destruct (split_block _ _ Hx) as (L1 & r & f & B1 & B2 & L2 & ->).
  eapply (kst_replace h); [exact K | done | done | done | by apply tile_one | by apply tile_one | | |].
  - intros b ->%list_elem_of_singleton Hf. rewrite HF in Hf.
    apply frees_elem in Hf as (c & Hc & Fc & Ec).
    rewrite (geom_inj _ _ _ (k_geom _ _ _ K) Hc Hx Ec) in Fc. congruence.
  - eapply same_on_weaken; [|exact Hs]. simpl. intros a Ha. rewrite bend_eq in Ha. lia.
  - apply Forall_singleton. eapply blk_ok_same; [|exact Ox].
    eapply same_on_weaken; [|exact Hs]. simpl. intros a [Ha|[_ Ha]]; lia.
Qed.
#[local] Opaque set_kmem.

(** Payloads of allocated blocks do not overlap. *)
Lemma pays_disjoint L :
  geom L -> pairwise (fun a b => a.1 + a.2 <= b.1 \/ b.1 + b.2 <= a.1) (pays (blocks L)).
Proof.
  intros G. assert (HG := fun b => geom_block L b G). pose proof (geom_pairwise L G) as HP.
  clear G. revert HG HP. generalize (blocks L) as bs. induction bs as [|b bs IH]; intros HG HP; [done|].
  destruct HP as [Hb HP]. specialize (IH ltac:(intros; apply HG; by right) HP).
  rewrite pays_cons. destruct (bused b) eqn:Ub; [|done]. split; [|done].
  apply Forall_forall. intros [p n] Hp. apply pays_elem in Hp as (c & Hc & Uc & -> & ->).
  rewrite Forall_forall in Hb. specialize (Hb c Hc).
  destruct (HG b ltac:(by left)) as ((B1 & _ & _ & B2) & _). destruct (HG c ltac:(by right)) as ((C1 & _ & _ & C2) & _).
  specialize (B2 Ub). specialize (C2 Uc). unfold blk_disj, BLOCK_HEADER_SIZE in *. rewrite !bend_eq in Hb. simpl. lia.
Qed.

(** An allocated payload lies in the kernel band. *)
Lemma pays_bounds h L p n :
  kinv h L -> (p, n) ∈ pays (blocks L) -> 28 < p /\ 0 <= n /\ p + n + 4 <= USER_SPACE_BASE.
Proof.
  intros (F & K & _) Hp. apply pays_elem in Hp as (x & Hx & Ux & -> & ->).
  destruct (kst_block _ _ _ _ K Hx) as (_ & (G1 & _ & _ & G4) & Lx & Bx). specialize (G4 Ux).
  rewrite bend_eq in Bx. lia.
Qed.

(** The bytes of the allocated payloads, as the clients see them. *)
Definition pay_bytes (A : list (Z * Z)) (y : Z) : Prop := exists p n, (p, n) ∈ A /\ p <= y < p + n.

Lemma pay_used L y : geom L -> pay_bytes (pays (blocks L)) y -> used_bytes L y.
Proof.
  intros G (p & n & Hp & Hy). apply pays_elem in Hp as (b & Hb & Ub & -> & ->). exists b.
  destruct (geom_block _ _ G Hb) as ((G1 & _ & _ & G4) & _). specialize (G4 Ub). rewrite bend_eq.
  split_and!; auto; lia.
Qed.

Lemma same_pays h L m m' :
  kinv h L -> same_on (used_bytes L) m m' -> same_on (pay_bytes (pays (blocks L))) m m'.
Proof.
  intros (F & K & _). apply same_on_weaken. intros y. apply pay_used, (k_geom _ _ _ K).
Qed.

(** A payload added to the others is apart from them. *)
Lemma pays_new_disjoint h L p n A y :
  kinv h L -> pays (blocks L) ≡ₚ (p, n) :: A -> pay_bytes A y -> ~ (p <= y < p + n).
Proof.
  intros (F & K & _) HP (q & k & Hq & Hy). pose proof (pays_disjoint L (k_geom _ _ _ K)) as HD.
  apply (pairwise_perm _ _ ((p, n) :: A)) in HD; [|intros; lia | done].
  destruct HD as [HF _]. rewrite Forall_forall in HF. specialize (HF _ Hq). simpl in HF. lia.
Qed.

(** ** The aligned entry points *)

Lemma kmalloc_aligned_spec h L size k chi :
  kinv h L -> 0 < size -> 2 <= k < 32 -> size + 2 ^ k + 4 <= W32 - 4132 ->
  non_di_bordo (size + 2 ^ k + 4) ->
  exists ptr h', kmalloc_aligned size (2 ^ k) chi h = Ok (ptr, h') /\
    ((ptr = NULL /\ refused h h' L (size + 2 ^ k + 4)) \/
     (exists raw L', ptr mod 2 ^ k = 0 /\ raw + 4 <= ptr /\ ptr + size <= raw + (size + 2 ^ k + 4) /\
        read32 (kmem h') (ptr - 4) = raw /\ kinv h' L' /\
        (pays (blocks L') ≡ₚ (raw, size + 2 ^ k + 4) :: pays (blocks L)) /\
        same_on (pay_bytes (pays (blocks L))) (kmem h) (kmem h'))).
Proof.
  intros K Hs Hk Hb Hn. assert (Hp : 0 < 2 ^ k) by (apply Z.pow_pos_nonneg; lia).
  unfold kmalloc_aligned. set (al := 2 ^ k) in *. rewrite (u32_small (size + al + 4)) by (unfold W32 in *; lia).
  destruct (kmalloc_spec h L (size + al + 4) chi K ltac:(lia) Hn) as (raw & h1 & -> & [[-> Hr]|Ha]);
    cbn [mbind run_bind]; [exists NULL, h1; by auto|].
  destruct Ha as (Nr & M4 & L' & K1 & HP & S1). rewrite (proj2 (Z.eqb_neq _ _) Nr).
  assert (Hin : (raw, size + al + 4) ∈ pays (blocks L')) by (rewrite HP; by left).
  destruct (pays_bounds _ _ _ _ K1 Hin) as (Hr1 & _ & Hr2). unfold USER_SPACE_BASE in *.
  rewrite (u32_small (raw + 4)) by (unfold W32; lia).
  assert (Ea : align_up (raw + 4) al = (raw + 4 + (al - 1)) / al * al) by (apply align_up_spec; unfold W32; lia).
  set (ptr := align_up (raw + 4) al) in *.
  assert (Hpt : raw + 4 <= ptr < raw + 4 + al).
  { rewrite Ea. pose proof (Z.div_mod (raw + 4 + (al - 1)) al ltac:(lia)).
    pose proof (Z.mod_pos_bound (raw + 4 + (al - 1)) al ltac:(lia)). nia. }
  rewrite (u32_small (ptr - 4)) by (unfold W32; lia).
  eexists _, _. split; [reflexivity|]. right. exists raw, L'.
  assert (Hsm : same_on (fun a => ~ (raw <= a < raw + (size + al + 4))) (kmem h1) (kmem (put32 (ptr - 4) raw h1))).
  { rewrite kmem_put32. apply same_on_write32; [apply same_on_refl | intros; lia]. }
  split_and!.
  - rewrite Ea. apply Z.mod_mul. lia.
  - lia.
  - lia.
  - rewrite kmem_put32. mem_simp. apply u32_small. unfold W32; lia.
  - unfold put32. apply (kinv_payload h1 L' raw (size + al + 4)); [done | done|]. by rewrite kmem_put32 in Hsm.
  - done.
  - eapply same_on_trans; [by apply (same_pays h)|]. eapply same_on_weaken; [|exact Hsm].
    intros a Ha. by apply (pays_new_disjoint h1 L' raw _ _ a K1 HP).
Qed.

(** [kfree_aligned] undoes [kmalloc_aligned]. *)
Lemma kfree_aligned_spec h L ptr raw n :
  kinv h L -> (raw, n) ∈ pays (blocks L) -> raw + 4 <= ptr <= raw + n -> read32 (kmem h) (ptr - 4) = raw ->
  exists h', kfree_aligned ptr h = Ok h' /\ released h h' L raw n.
Proof.
  intros K Hin Hp Hr. destruct (pays_bounds _ _ _ _ K Hin) as (? & ? & ?). unfold USER_SPACE_BASE in *.
  unfold kfree_aligned. rewrite (proj2 (Z.eqb_neq _ _)) by (unfold NULL; lia).
  rewrite u32_small by (unfold W32; lia). rewrite Hr.
  destruct (kfree_spec h L raw n K Hin) as (h' & E & R & _). eauto.
Qed.

(** ** The heap check

    It is meant for heaps whose clients may have written past their blocks, so
    it is stated without the canaries: [kshape] is the invariant less them. *)

Definition head_ok (m : gmap Z Z) (b : Blk) : Prop :=
  read32 m (ba b) = bsz b /\ read32 m (ba b + 4) = HEAP_MAGIC /\
  read32 m (ba b + 8) = (if bused b then BLOCK_USED else BLOCK_FREE) /\
  (bused b = true -> read32 m (ba b + 12) = bch b).

Definition rotto (m : gmap Z Z) (b : Blk) : bool :=
  bused b && negb (read32 m (ba b + 28 + bch b) =? HEAP_CANARINO).

Definition rotti (m : gmap Z Z) (bs : list Blk) : Z := foldr (fun b k => Z.b2z (rotto m b) + k) 0 bs.

Record kshape (h : KHeap P) (L : list Reg) : Prop := mkShape {
  s_geom : geom L;
  s_reg : rlist (kmem h) (g_regioni h) L;
  s_head : Forall (head_ok (kmem h)) (blocks L);
  s_size : g_heap_size h = hsum L
}.

(** The check changes a counter and nothing else. *)
Definition visto (k : Z) (h h' : KHeap P) : Prop :=
  kmem h' = kmem h /\ g_regioni h' = g_regioni h /\ g_heap_size h' = g_heap_size h /\
  g_free_list h' = g_free_list h /\ g_canarini_rotti h' = u32 (g_canarini_rotti h + k).

Lemma visto_shape k h h' L : visto k h h' -> kshape h L -> kshape h' L.
Proof. intros (E1 & E2 & E3 & _) [G R B S]. split; rewrite ?E1, ?E2, ?E3; done. Qed.

Lemma visto_trans j k h1 h2 h3 : visto j h1 h2 -> visto k h2 h3 -> visto (j + k) h1 h3.
Proof.
  intros (A1 & A2 & A3 & A4 & A5) (B1 & B2 & B3 & B4 & B5). split_and!; try congruence.
  rewrite B5, A5. unfold u32. rewrite Zplus_mod_idemp_l. f_equal. lia.
Qed.

Lemma visto_fuel k h h' : visto k h h' -> fuel h' = fuel h.
Proof. intros (_ & _ & E & _). unfold fuel. by rewrite E. Qed.

Lemma canarino_rotto_ok h L b :
  kshape h L -> b ∈ blocks L -> 0 <= g_canarini_rotti h < W32 ->
  exists h', canarino_rotto (ba b) h = (rotto (kmem h) b, h') /\ visto (Z.b2z (rotto (kmem h) b)) h h'.
Proof.
  intros [G _ HB _] Hb Hc. rewrite Forall_forall in HB. destruct (HB b Hb) as (O1 & O2 & O3 & O4).
  destruct (geom_block _ _ G Hb) as ((G1 & _ & _ & G4) & Lb & Ub). rewrite bend_eq in Ub.
  unfold USER_SPACE_BASE, HEAP_MIN_SIZE in *.
  assert (V0 : visto 0 h h) by (split_and!; try done; rewrite Z.add_0_r, u32_small; done).
  unfold canarino_rotto, canarino_c_e, rotto, b_flags. rewrite O3.
  destruct (bused b) eqn:Eb; [|by exists h].
  specialize (G4 eq_refl). rewrite Z.eqb_refl. unfold canarino_di, b_chiesti, b_size, BLOCK_HEADER_SIZE.
  rewrite (O4 eq_refl), O1. u32s. rewrite (proj2 (Z.leb_le _ _)) by lia. cbn [andb negb].
  destruct (read32 (kmem h) (ba b + 28 + bch b) =? HEAP_CANARINO); [by exists h|].
  eexists. split; [reflexivity|]. Transparent add_counts. done.
Qed.
#[local] Opaque add_counts.

Lemma rotti_bound m bs : 0 <= rotti m bs <= Z.of_nat (length bs).
Proof. induction bs as [|b bs IH]; simpl; [lia|]. destruct (rotto m b); simpl; lia. Qed.

Lemma verifica_blocchi_ok D L R guai visti n b h :
  kshape h L -> R ∈ L -> (forall d, d ∈ D -> d ∈ blocks L /\ ra R + 8 <= ba d) ->
  0 <= g_canarini_rotti h < W32 -> tile b D (rfine R) -> ra R + 8 <= b -> (length D <= n)%nat ->
  0 <= guai -> 0 <= visti -> guai + Z.of_nat (length D) < W32 -> visti + Z.of_nat (length D) < W32 ->
  exists h', verifica_blocchi (ra R) b guai visti n h =
      Ok (guai + rotti (kmem h) D, visti + Z.of_nat (length D), h') /\ visto (rotti (kmem h) D) h h'.
Proof.
  revert guai visti n b h. induction D as [|d D IH]; intros guai visti n b h S HR HD Hc T Hb Hn Hg Hv Hg' Hv'.
  - simpl in T. subst b. destruct (geom_region _ _ (s_geom _ _ S) HR) as (? & ? & ?).
    exists h. replace (verifica_blocchi (ra R) (rfine R) guai visti n h) with (Ok (guai, visti, h)).
    + split; [simpl; by rewrite !Z.add_0_r|]. split_and!; try done. by rewrite Z.add_0_r, u32_small.
    + assert (E : dentro_regione h (ra R) (rfine R) = false).
      { unfold dentro_regione, r_fine. rewrite (rlist_fine _ _ _ _ (s_reg _ _ S) HR).
        unfold BLOCK_HEADER_SIZE, USER_SPACE_BASE in *. u32s.
        rewrite (proj2 (Z.leb_gt (rfine R + 28) (rfine R))) by lia. apply andb_false_r. }
      destruct n; simpl; by rewrite E.
  - simpl in T, Hn. destruct T as (<- & (Gd & _) & T). destruct n as [|n]; [lia|].
    destruct (HD d ltac:(by left)) as (Hd & Hd8). assert (T' := tile_le _ _ _ T). rewrite bend_eq in T'.
    destruct (geom_region _ _ (s_geom _ _ S) HR) as (? & ? & ?). unfold HEAP_MIN_SIZE, USER_SPACE_BASE in *.
    pose proof (s_head _ _ S) as HB. rewrite Forall_forall in HB. destruct (HB d Hd) as (O1 & O2 & _ & _).
    assert (Hrf := rlist_fine _ _ _ _ (s_reg _ _ S) HR). cbn [verifica_blocchi].
    assert (E : dentro_regione h (ra R) (ba d) = true).
    { unfold dentro_regione, r_fine, regione_primo, BLOCK_HEADER_SIZE, REGION_HEADER_SIZE. rewrite Hrf. u32s.
      by rewrite !(proj2 (Z.leb_le _ _)) by lia. }
    assert (E2 : block_valid h (ba d) = true).
    { unfold block_valid, b_magic. rewrite O2, (proj2 (Z.eqb_neq _ _)) by (unfold NULL; lia). done. }
    rewrite E, E2. cbn [negb]. unfold r_fine, b_size. rewrite Hrf, O1. unfold BLOCK_HEADER_SIZE.
    rewrite (u32_small (ba d + 28 + bsz d)) by (unfold W32; lia). rewrite (proj2 (Z.ltb_ge _ _)) by lia.
    destruct (canarino_rotto_ok h L d S Hd Hc) as (h1 & -> & V1). cbn [length] in *.
    set (k := Z.b2z (rotto (kmem h) d)) in *. assert (Hk : 0 <= k <= 1) by (unfold k; destruct (rotto _ _); simpl; lia).
    destruct (IH (guai + k) (visti + 1) n (bend d) h1) as (h2 & E3 & V2).
    + by eapply visto_shape.
    + done.
    + intros e He. apply HD. by right.
    + destruct V1 as (_ & _ & _ & _ & ->). apply u32_range.
    + done.
    + rewrite bend_eq. lia.
    + lia.
    + lia.
    + lia.
    + lia.
    + lia.
    + exists h2. replace (block_next_phys h1 (ba d)) with (bend d).
      * rewrite (u32_small (visti + 1)) by lia.
        replace (if rotto (kmem h) d then u32 (guai + 1) else guai) with (guai + k).
        2:{ unfold k. destruct (rotto _ _); simpl; [rewrite u32_small by lia|]; lia. }
        rewrite E3. destruct V1 as (Ek & V1). rewrite Ek in E3, V2 |- *. simpl. fold k. split.
        -- f_equal. f_equal. f_equal; lia.
        -- replace (k + rotti (kmem h) D) with (k + rotti (kmem h) D) by lia.
           eapply visto_trans; [|exact V2]. by split.
      * unfold block_next_phys, b_size. destruct V1 as (-> & _). rewrite O1, bend_eq. unfold BLOCK_HEADER_SIZE. by u32s.
Qed.

Lemma rotti_app m bs cs : rotti m (bs ++ cs) = rotti m bs + rotti m cs.
Proof. induction bs as [|b bs IH]; simpl; lia. Qed.

Lemma verifica_regioni_ok L L0 guai visti n z h :
  kshape h L0 -> (forall R, R ∈ L -> R ∈ L0) -> rlist (kmem h) z L -> 0 <= g_canarini_rotti h < W32 ->
  (length L <= n)%nat -> 0 <= guai -> 0 <= visti ->
  guai + Z.of_nat (length (blocks L)) < W32 -> visti + Z.of_nat (length (blocks L)) < W32 ->
  exists h', verifica_regioni z guai visti n h =
      Ok (guai + rotti (kmem h) (blocks L), visti + Z.of_nat (length (blocks L)), h') /\
    visto (rotti (kmem h) (blocks L)) h h'.
Proof.
  revert guai visti n z h. induction L as [|R L IH]; intros guai visti n z h S HL Hr Hc Hn Hg Hv Hg' Hv'.
  - simpl in Hr. subst z. exists h. simpl. rewrite !Z.add_0_r. split; [by destruct n|].
    split_and!; try done. by rewrite Z.add_0_r, u32_small.
  - destruct Hr as (-> & _ & Hr). simpl in Hn. destruct n as [|n]; [lia|].
    change (blocks (R :: L)) with (rblks R ++ blocks L) in *. rewrite length_app in *.
    assert (HR : R ∈ L0) by (apply HL; by left).
    destruct (geom_region _ _ (s_geom _ _ S) HR) as (R1 & R2 & R3). unfold USER_SPACE_BASE in *.
    pose proof (s_geom _ _ S) as [GF _]. rewrite Forall_forall in GF.
    destruct (GF R HR) as (_ & _ & _ & _ & _ & T). cbn [verifica_regioni].
    rewrite (proj2 (Z.eqb_neq _ _)) by (unfold NULL; lia).
    unfold regione_primo. unfold REGION_HEADER_SIZE in *. rewrite (u32_small (ra R + 8)) by (unfold W32; lia).
    destruct (verifica_blocchi_ok (rblks R) L0 R guai visti (fuel h) (ra R + 8) h S HR) as (h1 & -> & V1); auto; try lia.
    + intros d Hd. split; [apply blocks_elem; eauto|]. by apply (tile_elem _ _ _ _ T Hd).
    + unfold fuel. rewrite (s_size _ _ S). unfold BLOCK_HEADER_SIZE.
      apply list_elem_of_split in HR as (La & Lb & ->).
      pose proof (blocks_length _ (s_geom _ _ S)) as Hbl.
      assert (length (rblks R) <= length (blocks (La ++ R :: Lb)))%nat.
      { rewrite blocks_app. change (blocks (R :: Lb)) with (rblks R ++ blocks Lb). rewrite !length_app. lia. }
      assert (Z.of_nat (length (rblks R)) <= hsum (La ++ R :: Lb) / 28) by (apply Z.div_le_lower_bound; lia). lia.
    + cbn [mbind run_bind]. assert (Ek := V1). destruct Ek as (Ek & _).
      pose proof (rotti_bound (kmem h) (rblks R)).
      unfold r_next. rewrite Ek.
      destruct (IH (guai + rotti (kmem h) (rblks R)) (visti + Z.of_nat (length (rblks R))) n (read32 (kmem h) (ra R)) h1)
        as (h2 & -> & V2); try lia.
      * by eapply visto_shape.
      * intros; apply HL; by right.
      * by rewrite Ek.
      * destruct V1 as (_ & _ & _ & _ & ->). apply u32_range.
      * exists h2. rewrite Ek in V2 |- *. rewrite rotti_app. split; [f_equal; f_equal; f_equal; lia|].
        by eapply visto_trans.
Qed.

Lemma verifica_spec h L :
  kshape h L -> 0 <= g_canarini_rotti h < W32 ->
  exists h', kmalloc_verifica h = Ok (rotti (kmem h) (blocks L), Z.of_nat (length (blocks L)), h') /\
    visto (rotti (kmem h) (blocks L)) h h'.
Proof.
  intros S Hc. pose proof (hsum_bound L (s_geom _ _ S)) as Hb. pose proof (blocks_length L (s_geom _ _ S)) as Hbl.
  unfold USER_SPACE_BASE in *.
  destruct (verifica_regioni_ok L L 0 0 (fuel h) (g_regioni h) h S ltac:(auto) (s_reg _ _ S) Hc) as (h' & E & V);
    try (unfold W32; lia).
  - unfold fuel. rewrite (s_size _ _ S). unfold BLOCK_HEADER_SIZE. pose proof (regions_length L (s_geom _ _ S)).
    assert (Z.of_nat (length L) <= hsum L / 28) by (apply Z.div_le_lower_bound; lia). lia.
  - exists h'. unfold kmalloc_verifica. by rewrite E.
Qed.

Lemma kinv_shape h L : kinv h L -> kshape h L.
Proof.
  intros (F & K & _). split; try apply K. pose proof (k_blk _ _ _ K) as HB.
  eapply Forall_impl; [exact HB|]. intros b (O1 & O2 & O3 & O4). split_and!; auto. intros Hu. by apply O4.
Qed.

Lemma kinv_sani h L : kinv h L -> rotti (kmem h) (blocks L) = 0.
Proof.
  intros (F & K & _). pose proof (k_blk _ _ _ K) as HB. induction (blocks L) as [|b bs IH]; [done|].
  apply Forall_cons in HB as [(_ & _ & _ & O4) HB]. simpl. rewrite IH by done. unfold rotto.
  destruct (bused b); [|done]. by rewrite (proj2 (O4 eq_refl)), Z.eqb_refl.
Qed.

(** ** The pages of the heap

    Only growing the heap touches the page allocator. *)

Lemma kpages_free_list_remove b h : kpages (free_list_remove b h) = kpages h.
Proof.
  Transparent free_list_remove. unfold free_list_remove.
  by destruct (negb (b_prev h b =? NULL)); cbv zeta; case_match.
Qed.

Lemma kpages_free_list_add b h : kpages (free_list_add b h) = kpages h.
Proof. rewrite free_list_add_eq. done. Qed.
#[local] Opaque free_list_remove.

Lemma kpages_put32 a v h : kpages (put32 a v h) = kpages h.
Proof. done. Qed.

Lemma kpages_counts a1 a2 a3 a4 a5 a6 h : kpages (add_counts a1 a2 a3 a4 a5 a6 h) = kpages h.
Proof. done. Qed.

Lemma kpages_canarino b h r h' : canarino_rotto b h = (r, h') -> kpages h' = kpages h.
Proof.
  unfold canarino_rotto. destruct (negb (canarino_c_e h b)); [by injection 1 as <- <-|].
  destruct (_ =? HEAP_CANARINO); injection 1 as <- <-; [done | apply kpages_counts].
Qed.

Lemma kpages_avanti r b h : kpages (kfree_avanti r b h) = kpages h.
Proof.
  unfold kfree_avanti. destruct (negb (dentro_regione _ _ _)); [apply kpages_counts|].
  destruct (_ && _); [|done]. unfold put_size. cbv zeta. rewrite kpages_put32. apply kpages_free_list_remove.
Qed.

Lemma kpages_indietro r b h b' h' : kfree_indietro r b h = Ok (b', h') -> kpages h' = kpages h.
Proof.
  unfold kfree_indietro. set (h0 := if r =? g_prima_regione h then h else _).
  assert (K0 : kpages h0 = kpages h) by (unfold h0; destruct (r =? _); [done | apply kpages_counts]).
  clearbody h0. rewrite <- K0.
  destruct (cerca_precedente _ _ _ _ h0) as [w| |]; cbn [mbind run_bind]; [|done|done].
  destruct (_ && _); [|by injection 1 as <- <-]. unfold put_size. intros E. apply Ok_inj in E.
  apply (f_equal snd) in E. cbn [snd] in E. rewrite <- E, kpages_put32. apply kpages_free_list_remove.
Qed.

Lemma kpages_kfree p h h' : kfree p h = Ok h' -> kpages h' = kpages h.
Proof.
  unfold kfree. destruct (p =? NULL); [by injection 1 as <-|].
  destruct (regione_di _ h) as [r| |]; cbn [mbind run_bind]; [|done|done].
  destruct (r =? NULL); [done|]. destruct (negb (block_valid h _)); [done|].
  destruct (b_flags h _ =? BLOCK_FREE); [by injection 1 as <-|].
  destruct (canarino_rotto _ h) as [c h1] eqn:E1. apply kpages_canarino in E1. cbv zeta.
  destruct (kfree_indietro _ _ _) as [[b' h2]| |] eqn:E2; cbn [mbind run_bind]; [|done|done].
  apply kpages_indietro in E2. rewrite kpages_avanti, kpages_counts in E2.
  unfold put_flags in E2. rewrite kpages_put32 in E2.
  intros E. apply Ok_inj in E. rewrite <- E, kpages_free_list_add. congruence.
Qed.

Lemma kpages_prendi b al size chi h : kpages (kmalloc_prendi b al size chi h) = kpages h.
Proof.
  unfold kmalloc_prendi. set (h1 := free_list_remove b h).
  assert (K1 : kpages h1 = kpages h) by apply kpages_free_list_remove. clearbody h1. rewrite <- K1. cbv zeta.
  set (h2 := if _ <=? _ then _ else h1).
  assert (K2 : kpages h2 = kpages h1).
  { unfold h2. destruct (_ <=? _); [|done]. unfold put_size. rewrite kpages_put32, kpages_free_list_add.
    unfold blocco_nuovo, put_next, put_prev, put_flags, put_magic, put_size. by rewrite !kpages_put32. }
  clearbody h2. rewrite <- K2, kpages_counts. unfold canarino_scrivi, put_chi, put_chiesti, put_flags.
  destruct (canarino_c_e _ _); by rewrite !kpages_put32.
Qed.

Lemma kpages_heap_expand n h b h' :
  heap_expand n h = Ok (b, h') -> kpages h' = snd (ps_alloc n (kpages h)).
Proof.
  unfold heap_expand. destruct (ps_alloc n (kpages h)) as [phys q]. cbn [snd].
  destruct (phys =? 0); [by injection 1 as <- <-|].
  destruct (regione_fino_a _ _ _ _) as [r| |]; cbn [mbind run_bind]; [|done|done].
  destruct (negb (r =? NULL)); by injection 1 as <- <-.
Qed.

Lemma kpages_kmalloc size chi h p h' :
  kmalloc size chi h = Ok (p, h') ->
  kpages h' = kpages h \/ exists n, kpages h' = snd (ps_alloc n (kpages h)) /\ 4 <= n.
Proof.
  unfold kmalloc. destruct (size =? 0); [injection 1 as <- <-; by left|].
  cbv zeta. set (al := if _ <? HEAP_MIN_SIZE then _ else _).
  destruct (first_fit _ _ _ h) as [b| |]; cbn [mbind run_bind]; [|done|done].
  destruct (b =? NULL).
  - set (n := if _ <? 4 then 4 else _). assert (4 <= n) by (unfold n; bcase; lia).
    destruct (heap_expand n h) as [[b' h1]| |] eqn:E; cbn [mbind run_bind]; [|done|done].
    apply kpages_heap_expand in E. intros Hk. right. exists n. split; [|done]. rewrite <- E.
    destruct (b' =? NULL); injection Hk as <- <-; [done|].
    rewrite kpages_prendi. apply kpages_free_list_add.
  - injection 1 as <- <-. left. apply kpages_prendi.
Qed.

(** ** The heap and its clients as a state machine

    A state is the heap with the list of the live allocations.  A client
    allocates, releases what it holds, and writes bytes of its own payloads. *)

Inductive kstep : KHeap P * list (Z * Z) -> KHeap P * list (Z * Z) -> Prop :=
| ks_malloc h A size chi p h' :
    0 < size <= W32 - 4132 -> non_di_bordo size ->
    kmalloc size chi h = Ok (p, h') -> p <> NULL -> kstep (h, A) (h', (p, size) :: A)
| ks_refused h A size chi h' :
    0 < size <= W32 - 4132 -> non_di_bordo size ->
    kmalloc size chi h = Ok (NULL, h') -> kstep (h, A) (h', A)
| ks_free h A1 p n A2 h' :
    kfree p h = Ok h' -> kstep (h, A1 ++ (p, n) :: A2) (h', A1 ++ A2)
| ks_write h A p n a v :
    (p, n) ∈ A -> p <= a < p + n -> kstep (h, A) (set_kmem (write8 (kmem h) a v) h, A).

Definition live (s : KHeap P * list (Z * Z)) : Prop :=
  exists L, kinv s.1 L /\ pays (blocks L) ≡ₚ s.2.

Lemma kstep_live s s' : kstep s s' -> live s -> live s'.
Proof.
  intros St (L & K & HA). destruct St as [h A size chi p h' Hs Hb E Np|h A size chi h' Hs Hb E|h A1 p n A2 h' E|h A p n a v Hin Ha];
    simpl in *.
  - destruct (kmalloc_spec h L size chi K Hs Hb) as (p' & h'' & E' & D). rewrite E in E'. injection E' as <- <-.
    destruct D as [[? _]|(_ & _ & L' & K' & HP & _)]; [done|]. exists L'. split; [done|]. simpl. by rewrite HP, HA.
  - destruct (kmalloc_spec h L size chi K Hs Hb) as (p' & h'' & E' & D). rewrite E in E'. injection E' as <- <-.
    destruct D as [[_ (K' & _)]|(? & _)]; [|done]. by exists L.
  - assert (Hin : (p, n) ∈ pays (blocks L)) by (rewrite HA; set_solver).
    destruct (kfree_spec h L p n K Hin) as (h'' & E' & (L' & K' & HP & _) & _). rewrite E in E'. injection E' as <-.
    exists L'. split; [done|]. simpl. apply (Permutation_cons_inv (a := (p, n))).
    rewrite <- HP, HA. by rewrite Permutation_middle.
  - exists L. split; [|done]. eapply kinv_payload; [done | rewrite HA; exact Hin |].
    apply same_on_write8; [apply same_on_refl | lia].
Qed.

Lemma kreach_live s s' : rtc kstep s s' -> live s -> live s'.
Proof. induction 1; eauto using kstep_live. Qed.

End Thms.

(** ** The claims *)

Section Claims.
Context {P : Type} `{PageSource P}.
Implicit Types (h : KHeap P).

(** C1: from [kmalloc_init] on, whatever allocations of a sound size, releases and
    writes inside their own payloads the clients perform in whatever order, the live
    payloads never overlap and lie below [USER_SPACE_BASE], every one of them can be
    released, every further request of no bytes or of a sound size returns (no
    [kpanic], no endless walk), and [kmalloc_verifica] finds no fault.  A sound size
    is of 1 to 2^32 - 4132 bytes and, if its block has 16352 bytes or more, the block
    and its header do not leave just four bytes of their last page.  For the other
    sizes kmalloc.c goes wrong: [kmalloc_page_edge_overruns] and
    [kmalloc_huge_request_wraps]. *)
Theorem kheap_sequences_safe (m : gmap Z Z) (p : P) (h0 h : KHeap P) (A : list (Z * Z)) :
  ps_inv p -> kmalloc_init (kheap_zero m p) = Ok h0 -> rtc kstep (h0, []) (h, A) ->
  pairwise (fun a b => a.1 + a.2 <= b.1 \/ b.1 + b.2 <= a.1) A /\
  (forall q n, (q, n) ∈ A -> 28 < q /\ q + n + 4 <= USER_SPACE_BASE) /\
  (forall q n, (q, n) ∈ A -> exists h', kfree q h = Ok h') /\
  (forall size chi, size = 0 \/ 0 < size <= W32 - 4132 /\ non_di_bordo size -> exists r, kmalloc size chi h = Ok r) /\
  (0 <= g_canarini_rotti h < W32 -> exists visti h', kmalloc_verifica h = Ok (0, visti, h')).
Proof.
  intros Hp Hi Hr.
  destruct (kmalloc_init_spec m p Hp) as [[E _]|(h0' & L0 & E & K0 & HP0)]; rewrite Hi in E; [done|].
  injection E as <-. destruct (kreach_live _ _ Hr) as (L & K & HA); [exists L0; by rewrite HP0|]. simpl in *.
  split_and!.
  - eapply pairwise_perm; [|exact HA|]; [intros; lia|]. destruct K as (F & K & _). apply pays_disjoint, (k_geom _ _ _ K).
  - intros q n Hq. destruct (pays_bounds h L q n K) as (? & ? & ?); [by rewrite HA | lia].
  - intros q n Hq. destruct (kfree_spec h L q n K) as (h' & E & _); [by rewrite HA | eauto].
  - intros size chi [->|[Hs Hb]]; [by eexists|]. destruct (kmalloc_spec h L size chi K Hs Hb) as (q & h' & E & _). eauto.
  - intros Hc. destruct (verifica_spec h L (kinv_shape _ _ K) Hc) as (h' & E & _).
    rewrite (kinv_sani _ _ K) in E. eauto.
Qed.

(** C21: [kmalloc] of 0 bytes returns [NULL] and does nothing.  [kmalloc] of a sound
    size (1 to 2^32 - 4132 bytes, and not of a block of 16352 bytes or more that with
    its header leaves just four bytes of its last page) on a well-formed heap always
    returns.  Either it returns a word-aligned pointer to a new payload of the
    requested size, disjoint from every live payload, with all live payload bytes
    unchanged; or it returns [NULL], and then no free block was large enough and the
    page allocator refused the pages, and the heap is as before. *)
Theorem kmalloc_correct h L size chi :
  kinv h L -> size = 0 \/ 0 < size <= W32 - 4132 /\ non_di_bordo size ->
  exists p h', kmalloc size chi h = Ok (p, h') /\
    ((size = 0 /\ p = NULL /\ h' = h) \/
     (0 < size /\ p = NULL /\ kinv h' L /\ kmem h' = kmem h /\
      (forall b, b ∈ blocks L -> bused b = false -> bsz b < size + 16) /\
      fst (ps_alloc (pagine (richiesta size)) (kpages h)) = 0) \/
     (0 < size /\ p <> NULL /\ p mod 4 = 0 /\ exists L', kinv h' L' /\
        (pays (blocks L') ≡ₚ (p, size) :: pays (blocks L)) /\
        (forall y, pay_bytes (pays (blocks L)) y -> ~ (p <= y < p + size)) /\
        same_on (pay_bytes (pays (blocks L))) (kmem h) (kmem h'))).
Proof.
  intros K [->|[Hs Hb]]; [exists NULL, h; by auto|].
  destruct (kmalloc_spec h L size chi K Hs Hb) as (p & h' & E & D). exists p, h'. split; [done|]. right.
  destruct D as [[-> (K' & Em & Hn & Ha)]|(Np & M & L' & K' & HP & S)]; [left | right]; split_and!; try done; try lia.
  - intros b Hb' Fb. specialize (Hn b Hb' Fb). destruct (richiesta_ok size Hs) as (_ & _ & ? & _). lia.
  - exists L'. split_and!; try done; [|by apply (same_pays h)].
    intros y Hy. by eapply pays_new_disjoint.
Qed.

(** C22: [kfree] of a live payload returns, removes exactly that payload from
    the live ones and changes no byte of another live payload.  The blocks are those
    of before, but for the one released, which is free and one with the block that
    follows it in the region, if that was free, and with the one that precedes it, if
    that was free ([fuso]); the invariant holds, and releasing the same pointer again
    right after changes nothing. *)
Theorem kfree_correct h L p n :
  kinv h L -> (p, n) ∈ pays (blocks L) ->
  exists h' L', kfree p h = Ok h' /\ kinv h' L' /\ (pays (blocks L) ≡ₚ (p, n) :: pays (blocks L')) /\
    same_on (pay_bytes (pays (blocks L'))) (kmem h) (kmem h') /\ fuso L L' p /\ kfree p h' = Ok h'.
Proof.
  intros K Hin. destruct (kfree_spec h L p n K Hin) as (h' & E & (L' & K' & HP & S & Hf) & E2).
  exists h', L'. split_and!; try done. by apply (same_pays h').
Qed.

(** [kfree] of a pointer that lies in no region of the heap is a
    [kpanic]. *)
Theorem kfree_foreign_panics h L p :
  kinv h L -> p <> NULL ->
  (forall R, R ∈ L -> ~ (ra R <= u32 (p - BLOCK_HEADER_SIZE) < rfine R)) -> kfree p h = Panic.
Proof. apply kfree_foreign. Qed.

(** [kmalloc_aligned] followed by [kfree_aligned]: the pointer is a
    multiple of the alignment, the [size] bytes behind it lie in the raw
    payload, and releasing it gives back a heap with the same live payloads. *)
Theorem kmalloc_aligned_roundtrip h L size k chi :
  kinv h L -> 0 < size -> 2 <= k < 32 -> size + 2 ^ k + 4 <= W32 - 4132 -> non_di_bordo (size + 2 ^ k + 4) ->
  exists ptr h1, kmalloc_aligned size (2 ^ k) chi h = Ok (ptr, h1) /\
    (ptr = NULL \/
     ptr mod 2 ^ k = 0 /\
     (forall y, pay_bytes (pays (blocks L)) y -> ~ (ptr <= y < ptr + size)) /\
     exists h2 L2, kfree_aligned ptr h1 = Ok h2 /\ kinv h2 L2 /\ (pays (blocks L2) ≡ₚ pays (blocks L))).
Proof.
  intros K Hs Hk Hb Hn. destruct (kmalloc_aligned_spec h L size k chi K Hs Hk Hb Hn) as (ptr & h1 & E & D).
  exists ptr, h1. split; [done|]. destruct D as [[-> _]|(raw & L1 & M & H1 & H2 & Hr & K1 & HP & _)]; [by left|]. right.
  assert (0 < 2 ^ k) by (apply Z.pow_pos_nonneg; lia).
  split_and!; [done | |].
  - intros y Hy Hlt. apply (pays_new_disjoint h1 L1 raw _ _ y K1 HP Hy). lia.
  - destruct (kfree_aligned_spec h1 L1 ptr raw (size + 2 ^ k + 4) K1) as (h2 & E2 & L2 & K2 & HP2 & _);
      [rewrite HP; by left | lia | done |].
    exists h2, L2. split_and!; try done. apply (Permutation_cons_inv (a := (raw, size + 2 ^ k + 4))). by rewrite <- HP2, HP.
Qed.

(** [kmalloc_verifica] on a heap whose block headers are sound counts
    exactly the allocated blocks whose canary word was overwritten, visits
    every block, and changes nothing but its own counter. *)
Theorem verifica_counts_broken_canaries h L :
  kshape h L -> 0 <= g_canarini_rotti h < W32 ->
  exists h', kmalloc_verifica h = Ok (rotti (kmem h) (blocks L), Z.of_nat (length (blocks L)), h') /\
    kmem h' = kmem h /\ g_canarini_rotti h' = u32 (g_canarini_rotti h + rotti (kmem h) (blocks L)).
Proof.
  intros S Hc. destruct (verifica_spec h L S Hc) as (h' & E & (E1 & _ & _ & _ & E2)). eauto.
Qed.

(** [kmalloc_init] stops the kernel exactly when the page allocator
    refuses the first sixteen pages; otherwise the heap is well formed and
    empty of allocations. *)
Theorem kmalloc_init_correct m p :
  ps_inv p ->
  (kmalloc_init (kheap_zero m p) = Panic /\ fst (ps_alloc 16 p) = 0) \/
  (exists h L, kmalloc_init (kheap_zero m p) = Ok h /\ kinv h L /\ pays (blocks L) = []).
Proof. apply kmalloc_init_spec. Qed.

End Claims.

(** Requests of more than 2^32 - 4132 bytes wrap around: the heap asks for four
    pages, and from 2^32 - 11 bytes on a block of the minimum size is looked for. *)
Theorem kmalloc_huge_request_wraps size :
  W32 - 4132 < size < W32 -> pagine (richiesta size) = 4 /\ (W32 - 11 <= size -> richiesta size = HEAP_MIN_SIZE).
Proof.
  intros Hs. assert (F : forallb (fun s => (pagine (richiesta s) =? 4) && ((s <? W32 - 11) || (richiesta s =? HEAP_MIN_SIZE)))
    (seqZ (W32 - 4131) 4131) = true) by (vm_compute; reflexivity).
  rewrite forallb_forall in F. specialize (F size). rewrite <- list_elem_of_In, elem_of_seqZ in F. specialize (F ltac:(lia)).
  apply andb_true_iff in F as [F1 F2]. split; [lia|]. intros H. apply orb_true_iff in F2. lia.
Qed.

(** ** Examples on the small machine *)

Definition heap_o (r : run (KHeap Pmm)) : KHeap Pmm :=
  match r with Ok h => h | _ => kheap_zero ∅ pmm_piccola end.

Definition heap_piccolo : KHeap Pmm := heap_o (kmalloc_init (kheap_zero ∅ pmm_piccola)).

Lemma pmm_piccola_ps : ps_inv pmm_piccola.
Proof. exact pmm_piccola_wf. Qed.

Definition riuscita {A} (r : run A) : bool := match r with Ok _ => true | _ => false end.

Lemma heap_o_ok r : riuscita r = true -> r = Ok (heap_o r).
Proof. by destruct r. Qed.

Lemma heap_piccolo_init : kmalloc_init (kheap_zero ∅ pmm_piccola) = Ok heap_piccolo.
Proof. apply heap_o_ok. vm_compute. reflexivity. Qed.

#[local] Opaque heap_piccolo pmm_piccola.

Lemma heap_piccolo_ok : exists L, kinv heap_piccolo L /\ pays (blocks L) = [].
Proof.
  destruct (kmalloc_init_spec ∅ pmm_piccola pmm_piccola_ps) as [[E _]|(h & L & E & K & HP)];
    rewrite heap_piccolo_init in E; [done|]. apply Ok_inj in E as ->. eauto.
Qed.

(** The heap after one allocation of a hundred bytes. *)
Definition dopo_cento : Z * KHeap Pmm :=
  match kmalloc 100 7 heap_piccolo with Ok r => r | _ => (0, heap_piccolo) end.

Lemma dopo_cento_eq : kmalloc 100 7 heap_piccolo = Ok (dopo_cento.1, dopo_cento.2) /\ dopo_cento.1 = 53284.
Proof.
  assert (E : riuscita (kmalloc 100 7 heap_piccolo) = true) by (vm_compute; reflexivity).
  split; [|vm_compute; reflexivity]. unfold dopo_cento.
  destruct (kmalloc 100 7 heap_piccolo) as [[p h]| |]; [done | discriminate E | discriminate E].
Qed.

#[local] Opaque dopo_cento.

Lemma cento_sano : 0 < 100 <= W32 - 4132 /\ non_di_bordo 100.
Proof. split; [unfold W32; lia|]. left. vm_compute. reflexivity. Qed.

Lemma dopo_cento_ok : exists L, kinv dopo_cento.2 L /\ (53284, 100) ∈ pays (blocks L).
Proof.
  destruct heap_piccolo_ok as (L & K & _). destruct dopo_cento_eq as [E Ep]. destruct cento_sano as [Hs Hb].
  destruct (kmalloc_spec heap_piccolo L 100 7 K Hs Hb) as (p & h & E' & D). rewrite E in E'. apply Ok_inj in E'. apply (f_equal fst) in E' as E1. apply (f_equal snd) in E' as E2. simpl in E1, E2. subst p h.
  rewrite Ep in D. destruct D as [[? _]|(_ & _ & L' & K' & HP & _)]; [done|].
  exists L'. split; [done|]. rewrite HP. by left.
Qed.

Lemma kheap_sequences_safe_witness :
  exists h', kfree 53284 dopo_cento.2 = Ok h'.
Proof.
  destruct cento_sano as [Hs Hb]. destruct dopo_cento_eq as [E Ep].
  destruct (kheap_sequences_safe ∅ pmm_piccola heap_piccolo dopo_cento.2 [(53284, 100)]
    pmm_piccola_ps heap_piccolo_init) as (_ & _ & Hf & _).
  - rewrite <- Ep. apply rtc_once, (ks_malloc _ _ _ 7 _ _ Hs Hb E). rewrite Ep. done.
  - apply (Hf 53284 100). by left.
Defined.

Lemma kmalloc_correct_witness : exists p h', kmalloc 100 7 heap_piccolo = Ok (p, h').
Proof.
  destruct heap_piccolo_ok as (L & K & _).
  destruct (kmalloc_correct heap_piccolo L 100 7 K (or_intror cento_sano)) as (p & h' & E & _). eauto.
Defined.

Lemma kfree_correct_witness : exists h', kfree 53284 dopo_cento.2 = Ok h' /\ kfree 53284 h' = Ok h'.
Proof.
  destruct dopo_cento_ok as (L & K & Hin).
  destruct (kfree_correct dopo_cento.2 L 53284 100 K Hin) as (h' & L' & E & _ & _ & _ & _ & E2). eauto.
Defined.

Lemma kfree_foreign_panics_witness : kfree 0x9000000 heap_piccolo = Panic.
Proof.
  destruct heap_piccolo_ok as (L & K & _). apply (kfree_foreign_panics heap_piccolo L); [done | done |].
  intros R HR. destruct K as (F & K & _). destruct (geom_region _ _ (k_geom _ _ _ K) HR) as (_ & _ & Hu).
  replace (u32 (0x9000000 - BLOCK_HEADER_SIZE)) with 0x8FFFFE4 by (vm_compute; reflexivity).
  unfold USER_SPACE_BASE in Hu. lia.
Defined.

Lemma kmalloc_aligned_roundtrip_witness :
  exists ptr h1, kmalloc_aligned 100 (2 ^ 8) 7 heap_piccolo = Ok (ptr, h1).
Proof.
  destruct heap_piccolo_ok as (L & K & _).
  destruct (kmalloc_aligned_roundtrip heap_piccolo L 100 8 7 K) as (ptr & h1 & E & _);
    [lia | lia | vm_compute; congruence | left; vm_compute; reflexivity | eauto].
Defined.

Lemma verifica_counts_broken_canaries_witness :
  exists k v h', kmalloc_verifica dopo_cento.2 = Ok (k, v, h') /\ kmem h' = kmem dopo_cento.2.
Proof.
  destruct dopo_cento_ok as (L & K & _).
  destruct (verifica_counts_broken_canaries dopo_cento.2 L (kinv_shape _ _ K)) as (h' & E & Em & _);
    [vm_compute; split; congruence | eauto].
Defined.

Lemma kmalloc_init_correct_witness :
  (kmalloc_init (kheap_zero ∅ pmm_piccola) = Panic /\ fst (ps_alloc 16 pmm_piccola) = 0) \/
  (exists h L, kmalloc_init (kheap_zero ∅ pmm_piccola) = Ok h /\ kinv h L /\ pays (blocks L) = []).
Proof. exact (kmalloc_init_correct ∅ pmm_piccola pmm_piccola_ps). Defined.

Lemma kmalloc_huge_request_wraps_witness : richiesta 0xFFFFFFFC = HEAP_MIN_SIZE.
Proof. apply kmalloc_huge_request_wraps; unfold W32; lia. Defined.

(** A canary overwritten by its client: the word behind the payload changed. *)
Definition dopo_sbordo : KHeap Pmm := set_kmem (write8 (kmem dopo_cento.2) (53284 + 100) 0) dopo_cento.2.

Definition guai_visti (r : run (Z * Z * KHeap Pmm)) : option (Z * Z) :=
  match r with Ok (g, v, _) => Some (g, v) | _ => None end.

Example sbordo_visto : guai_visti (kmalloc_verifica dopo_sbordo) = Some (1, 2).
Proof. vm_compute. reflexivity. Qed.

(** The heap whose next pages are held by someone else, so that growing it
    opens a second region. *)
Definition heap_staccato : KHeap Pmm :=
  set_pages (snd (pmm_alloc_pages_kernel 2 (kpages heap_piccolo))) heap_piccolo.

(** What [kmalloc] leaves behind: the end of the new region, the head of the
    free list and the size it claims. *)
Definition resto (r : run (Z * KHeap Pmm)) : option (Z * Z * Z) :=
  match r with
  | Ok (_, h) => Some (r_fine h (g_regioni h), g_free_list h, b_size h (g_free_list h))
  | _ => None
  end.

(** a request whose block size is 32 bytes short of a whole number of
    pages, when the heap grows with a new region, overruns it: the region
    header takes eight of the bytes counted for the block, the size left over
    wraps around, and a block of almost 4 GB that starts past the end of the
    region is put on the free list. *)
Theorem kmalloc_page_edge_overruns :
  resto (kmalloc 69596 7 heap_staccato) = Some (0x30000, 0x30004, W32 - 32).
Proof. vm_compute. reflexivity. Qed.
