(* ===== verification/PmmRef.v ===== *)
(** * Owners of a page: [pmm_ref_inc], [pmm_free_page], [pmm_ref_count]

    A page in use has one owner, plus the byte of the page in [g_rif], plus
    the entry of the page in the table [g_oltre] (Oltre.v).  The table lives in
    the kernel heap: growing it calls [kmalloc] and [kfree] of Kheap.v, which
    may in turn take pages from the same allocator, so the state here is the
    heap (with the page allocator inside), the table, and the pointer to its
    array. *)

From S2P Require Import Prelude Mem Pmm PmmSpec PmmInit Oltre Kheap KheapInv KheapSpec KheapFree KheapThms.

Definition RIF_MAX : Z := 255.

Definition rif_at (s : Pmm) (page : Z) : Z := read8 (pmem s) (g_rif s + page).

Definition set_rif (page v : Z) (s : Pmm) : Pmm := set_pmem (write8 (pmem s) (g_rif s + page) v) s.

(** ** The operations *)

Definition pmm_free_page (addr : Z) (st : Pmm * Oltre) : run (Pmm * Oltre) :=
  let '(s, t) := st in
  if addr =? 0 then Ok (s, t) else
  if negb (addr mod PAGE_SIZE =? 0) then Ok (s, t) else
  let page := addr_to_page addr in
  if g_total_pages s <=? page then Ok (s, t) else
  if negb (BITMAP_TEST page s) then Ok (s, t) else
  if negb (g_rif s =? 0) && (0 <? rif_at s page) then
    '(tolto, t) ← oltre_togli addr t;
    Ok ((if (tolto : bool) then s else set_rif page (rif_at s page - 1) s), t)
  else
    let s := BITMAP_CLR page s in
    let s := set_counts (u32 (g_free_pages s + 1)) (u32 (g_used_pages s - 1)) s in
    Ok ((if page <? g_last_alloc s then set_last_alloc page s else s), t).

(** [pmm_free_pages]: pages [i] to [count - 1] from [addr]. *)
Fixpoint free_pages_loop (addr i : Z) (n : nat) (st : Pmm * Oltre) : run (Pmm * Oltre) :=
  match n with
  | O => Ok st
  | S n => st ← pmm_free_page (u32 (addr + i * PAGE_SIZE)) st; free_pages_loop addr (i + 1) n st
  end.

Definition pmm_free_pages (addr count : Z) (st : Pmm * Oltre) : run (Pmm * Oltre) :=
  free_pages_loop addr 0 (Z.to_nat count) st.

Definition pmm_ref_count (addr : Z) (st : Pmm * Oltre) : run Z :=
  let '(s, t) := st in
  if g_rif s =? 0 then Ok 0 else
  let page := addr_to_page addr in
  if g_total_pages s <=? page then Ok 0 else
  if negb (BITMAP_TEST page s) then Ok 0 else
  r ← (if rif_at s page =? RIF_MAX then oltre_trova t addr else Ok None);
  Ok (u32 (1 + rif_at s page + match r with Some i => snd (slot (g_oltre t) i) | None => 0 end)).

(** The heap, the table and the address of its array. *)
Record Rif : Type := mkRif { rif_heap : KHeap Pmm; rif_tab : Oltre; rif_ptr : Z }.

Definition rif_pmm (s : Rif) : Pmm * Oltre := (kpages (rif_heap s), rif_tab s).

(** [sizeof(RifOltre)]. *)
Definition RIF_OLTRE_SIZE : Z := 8.

(** [oltre_aggiungi] with the two calls of [oltre_cresci] to the heap: the new
    array is allocated before the entries move, the old one released after. *)
Definition rif_aggiungi (addr chi : Z) (s : Rif) : run (bool * Rif) :=
  let t := rif_tab s in
  r ← oltre_trova t addr;
  let cresce := match r with Some _ => false | None => g_oltre_posti t <? (g_oltre_usati t + 1) * 2 end in
  if cresce then
    let posti := if g_oltre_posti t =? 0 then 64 else g_oltre_posti t * 2 in
    '(nuova, h) ← kmalloc (u32 (posti * RIF_OLTRE_SIZE)) chi (rif_heap s);
    '(ok, t') ← oltre_aggiungi (negb (nuova =? NULL)) addr t;
    if nuova =? NULL then Ok (ok, mkRif h t' (rif_ptr s)) else
    h ← (if rif_ptr s =? NULL then Ok h else kfree (rif_ptr s) h);
    Ok (ok, mkRif h t' nuova)
  else
    '(ok, t') ← oltre_aggiungi true addr t;
    Ok (ok, mkRif (rif_heap s) t' (rif_ptr s)).

Definition put_rif (page v : Z) (h : KHeap Pmm) : KHeap Pmm := set_pages (set_rif page v (kpages h)) h.

(** [true] is the 0 of the code, [false] its -1. *)
Definition pmm_ref_inc (addr chi : Z) (s : Rif) : run (bool * Rif) :=
  let p := kpages (rif_heap s) in
  if g_rif p =? 0 then Ok (false, s) else
  if negb (addr mod PAGE_SIZE =? 0) then Ok (false, s) else
  let page := addr_to_page addr in
  if g_total_pages p <=? page then Ok (false, s) else
  if negb (BITMAP_TEST page p) then Ok (false, s) else
  if rif_at p page <? RIF_MAX then
    Ok (true, mkRif (put_rif page (rif_at p page + 1) (rif_heap s)) (rif_tab s) (rif_ptr s))
  else rif_aggiungi addr chi s.

(** ** The invariant

    The table holds an entry only for a page in use whose byte is full; the
    byte of a free page is zero. *)

Record rif_ok (s : Pmm) (t : Oltre) : Prop := {
  ro_wf : pmm_wf s;
  ro_bitmap : 0 < g_bitmap s;
  ro_tab : oltre_inv t;
  ro_entry : forall a, a <> 0 -> voce (g_oltre t) a <> 0 ->
    a mod PAGE_SIZE = 0 /\ 0 <= a / PAGE_SIZE < g_total_pages s /\
    BITMAP_TEST (a / PAGE_SIZE) s = true /\ rif_at s (a / PAGE_SIZE) = RIF_MAX;
  ro_zero : forall q, 0 <= q < g_total_pages s -> BITMAP_TEST q s = false -> rif_at s q = 0
}.

(** The owners of page [q], counted from the tables. *)
Definition owners (s : Pmm) (t : Oltre) (q : Z) : Z :=
  if BITMAP_TEST q s then 1 + rif_at s q + voce (g_oltre t) (q * PAGE_SIZE) else 0.

(** ** The byte of a page and the bitmap do not meet *)

Lemma rif_pos s t : rif_ok s t -> 0 < g_rif s /\ 0 < g_bitmap_size s.
Proof.
  intros [W B _ _ _]. pose proof (wf_cover s W). pose proof (wf_total s W). rewrite (wf_rif s W). lia.
Qed.

Lemma test_set_rif s q page v :
  pmm_wf s -> 0 <= q < g_total_pages s -> 0 <= page -> BITMAP_TEST q (set_rif page v s) = BITMAP_TEST q s.
Proof.
  intros W Hq Hp. unfold BITMAP_TEST, set_rif. cbn [pmem g_bitmap set_pmem]. rewrite read8_write8.
  pose proof (wf_cover s W). rewrite (wf_rif s W).
  destruct (Z.eqb_spec (g_bitmap s + q / 8) (g_bitmap s + g_bitmap_size s + page)); [zdm | done].
Qed.

Lemma rif_set_rif s q page v :
  rif_at (set_rif page v s) q = if q =? page then v mod 256 else rif_at s q.
Proof.
  unfold rif_at, set_rif. cbn [pmem g_rif set_pmem]. rewrite read8_write8.
  destruct (Z.eqb_spec q page) as [->|]; [by rewrite Z.eqb_refl|]. destruct (Z.eqb_spec (g_rif s + q) (g_rif s + page)); [lia | done].
Qed.

Lemma wf_set_rif s page v : pmm_wf s -> 0 <= page -> pmm_wf (set_rif page v s).
Proof.
  intros W Hp. pose proof (wf_total s W) as HT. split; try apply W.
  - change (g_free_pages s = free_count (set_rif page v s)). rewrite (wf_free s W). unfold free_count.
    apply count_clear_ext. intros q Hq. symmetry. apply test_set_rif; auto. simpl in *. lia.
  - rewrite test_set_rif; auto; [apply W | lia].
Qed.

Lemma rif_range s q : 0 <= rif_at s q < 256.
Proof. apply read8_range. Qed.

(** ** Releasing an owner *)

Lemma free1_rif s q page :
  pmm_wf s -> 0 <= page < g_total_pages s -> 0 <= q -> rif_at (free1 page s) q = rif_at s q.
Proof.
  intros W Hp Hq. unfold free1. destruct (BITMAP_TEST page s); [|done].
  unfold rif_at, BITMAP_CLR. cbn [pmem g_rif set_pmem set_counts]. rewrite read8_write8.
  pose proof (wf_cover s W). rewrite (wf_rif s W).
  destruct (Z.eqb_spec (g_bitmap s + g_bitmap_size s + q) (g_bitmap s + page / 8)); [zdm | done].
Qed.

Lemma free1_wf s q :
  pmm_wf s -> 0 < q < g_total_pages s -> BITMAP_TEST q s = true ->
  pmm_wf (free1 q s) /\ same_tables s (free1 q s) /\
  (forall r, BITMAP_TEST r (free1 q s) = negb (q =? r) && BITMAP_TEST r s) /\
  free1 q s = set_counts (u32 (g_free_pages s + 1)) (u32 (g_used_pages s - 1)) (BITMAP_CLR q s).
Proof.
  intros W Hq Ht. assert (C : cnt_ok s) by (split; apply W).
  destruct (free1_ok s q C ltac:(lia)) as (C' & T & HB).
  assert (Hu : 0 < g_used_pages s).
  { rewrite (wf_used s W). pose proof (cnt_range _ C') as HR. pose proof (cnt_range s C).
    pose proof (wf_total s W). rewrite (st_total _ _ T) in HR. unfold free1 in HR. rewrite Ht in HR. cbn in HR.
    unfold PMM_PAGINE_4GB in *. u32s_in HR. lia. }
  split_and!; [|done|done|].
  - destruct T as [T1 T2 T3 T4 T5]. destruct C' as [C1 C2 C3]. split; rewrite ?T1, ?T2, ?T3, ?T4; try apply W; try done.
    + rewrite C3, T1. done.
    + rewrite HB, (wf_zero s W). destruct (Z.eqb_spec q 0); [lia | done].
    + unfold free1. rewrite Ht. cbn. apply W.
    + unfold free1. rewrite Ht. cbn. apply W.
  - unfold free1. rewrite Ht. cbn. f_equal. rewrite (proj2 (Z.ltb_lt _ _)) by done.
    pose proof (wf_used s W). pose proof (wf_total s W). pose proof (cnt_range s C). unfold PMM_PAGINE_4GB in *. u32s. done.
Qed.

Lemma page_addr q : 0 < q -> (q * PAGE_SIZE =? 0) = false /\ (q * PAGE_SIZE) mod PAGE_SIZE = 0 /\
  addr_to_page (q * PAGE_SIZE) = q.
Proof.
  intros Hq. unfold addr_to_page, PAGE_SIZE. split_and!; [apply Z.eqb_neq; lia | apply Z.mod_mul; lia | apply Z.div_mul; lia].
Qed.

(** [voce] of the address of another page. *)
Lemma addr_neq q r : q <> r -> (r * PAGE_SIZE =? q * PAGE_SIZE) = false.
Proof. intros. apply Z.eqb_neq. unfold PAGE_SIZE. lia. Qed.

Definition lost_owner (s : Pmm) (t : Oltre) (q : Z) (s' : Pmm) (t' : Oltre) : Prop :=
  rif_ok s' t' /\ g_total_pages s' = g_total_pages s /\
  owners s' t' q = owners s t q - 1 /\
  (forall r, 0 < r < g_total_pages s -> r <> q ->
     owners s' t' r = owners s t r /\ BITMAP_TEST r s' = BITMAP_TEST r s).

Lemma voce_nonneg t a : oltre_inv t -> a <> 0 -> 0 <= voce (g_oltre t) a < W32.
Proof.
  intros I Ha. destruct (trova_ok t a I Ha) as ([x|] & _ & Hr).
  - destruct Hr as (_ & Hx & Hp & ->). destruct I as (_ & _ & _ & HP). specialize (HP x Hx ltac:(congruence)). lia.
  - destruct Hr as [_ ->]. unfold W32. lia.
Qed.

Lemma free_page_spec s t q :
  rif_ok s t -> 0 < q < g_total_pages s -> BITMAP_TEST q s = true ->
  exists s' t', pmm_free_page (q * PAGE_SIZE) (s, t) = Ok (s', t') /\ lost_owner s t q s' t'.
Proof.
  intros I Hq Ht. destruct (page_addr q ltac:(lia)) as (E0 & E1 & E2). pose proof (rif_pos _ _ I) as [Hr Hbs].
  assert (Ea : q * PAGE_SIZE <> 0) by (by apply Z.eqb_neq).
  assert (Eq : q * PAGE_SIZE / PAGE_SIZE = q) by exact E2.
  destruct I as [W B T HE HZ]. unfold pmm_free_page. rewrite E0, E1, E2. cbn [negb Z.eqb].
  rewrite (proj2 (Z.leb_gt _ _)) by lia. rewrite Ht. cbn [negb].
  rewrite (proj2 (Z.eqb_neq (g_rif s) 0)) by lia. cbn [negb andb].
  pose proof (rif_range s q) as Rq.
  destruct (Z.ltb_spec 0 (rif_at s q)) as [Hp|Hp].
  - destruct (togli_ok (q * PAGE_SIZE) t T Ea) as (r & t' & -> & T' & Er & HV). cbn [mbind run_bind].
    destruct r.
    + exists s, t'. split; [done|]. split_and!; [split; auto | done | |].
      * intros a Ha Hv. apply HE; [done|]. intros F. rewrite HV, F in Hv by done.
        destruct (Z.eqb_spec a (q * PAGE_SIZE)) as [->|]; simpl in Hv; [|lia].
        symmetry in Er. apply negb_true_iff, Z.eqb_neq in Er. lia.
      * unfold owners. rewrite Ht, HV, Z.eqb_refl by done. simpl. lia.
      * intros x Hx Nx. split; [|done]. unfold owners. destruct (BITMAP_TEST x s); [|done].
        rewrite HV by (unfold PAGE_SIZE; lia). rewrite addr_neq by congruence. simpl. lia.
    + symmetry in Er. apply negb_false_iff, Z.eqb_eq in Er.
      exists (set_rif q (rif_at s q - 1) s), t'. split; [done|].
      assert (HV' : forall a, a <> 0 -> voce (g_oltre t') a = voce (g_oltre t) a).
      { intros a Ha. rewrite HV, andb_false_r by done. lia. }
      split_and!; [split | done | |].
      * apply wf_set_rif; [done | lia].
      * done.
      * done.
      * intros a Ha Hv. rewrite HV' in Hv by done. destruct (HE a Ha Hv) as (A1 & A2 & A3 & A4).
        split; [done|]. split; [done|]. split; [rewrite test_set_rif by (auto; lia); done|]. rewrite rif_set_rif.
        destruct (Z.eqb_spec (a / PAGE_SIZE) q) as [Eaq|]; [|done]. exfalso. apply Hv.
        rewrite <- Er. f_equal. unfold PAGE_SIZE in *. zdm.
      * intros x Hx Fx. change (0 <= x < g_total_pages s) in Hx.
        rewrite test_set_rif in Fx by (auto; lia). rewrite rif_set_rif.
        destruct (Z.eqb_spec x q) as [->|]; [congruence | by apply HZ].
      * unfold owners. rewrite test_set_rif, Ht, rif_set_rif, Z.eqb_refl, HV', Er by (auto; lia).
        rewrite Z.mod_small by lia. lia.
      * intros x Hx Nx. rewrite test_set_rif by (auto; lia). split; [|done]. unfold owners.
        rewrite test_set_rif, rif_set_rif by (auto; lia). rewrite (proj2 (Z.eqb_neq x q)) by done.
        rewrite HV' by (unfold PAGE_SIZE; lia). done.
  - assert (Z0 : rif_at s q = 0) by lia.
    destruct (free1_wf s q W Hq Ht) as (W1 & S1 & HB & E3). cbv zeta.
    change (set_counts (u32 (g_free_pages (BITMAP_CLR q s) + 1)) (u32 (g_used_pages (BITMAP_CLR q s) - 1)) (BITMAP_CLR q s))
      with (set_counts (u32 (g_free_pages s + 1)) (u32 (g_used_pages s - 1)) (BITMAP_CLR q s)).
    rewrite <- E3. set (s1 := free1 q s) in *.
    assert (R1 : forall x, 0 <= x -> rif_at s1 x = rif_at s x) by (intros; apply free1_rif; auto; lia).
    assert (Vq : voce (g_oltre t) (q * PAGE_SIZE) = 0).
    { destruct (Z.eq_dec (voce (g_oltre t) (q * PAGE_SIZE)) 0) as [|Nv]; [done|].
      destruct (HE _ Ea Nv) as (_ & _ & _ & F). rewrite Eq, Z0 in F. discriminate F. }
    assert (HL : lost_owner s t q s1 t).
    { split_and!; [split | apply S1 | |]; auto.
      - rewrite (st_bitmap _ _ S1). done.
      - intros a Ha Hv. destruct (HE a Ha Hv) as (A1 & A2 & A3 & A4). rewrite (st_total _ _ S1), HB, R1, A3, A4 by lia.
        split; [done|]. split; [done|]. split; [|done]. destruct (Z.eqb_spec q (a / PAGE_SIZE)) as [Eaq|]; [|done].
        rewrite <- Eaq, Z0 in A4. discriminate A4.
      - intros x Hx Fx. rewrite (st_total _ _ S1) in Hx. rewrite HB in Fx. rewrite R1 by lia.
        destruct (Z.eqb_spec q x) as [<-|]; [done | by apply HZ].
      - unfold owners. rewrite HB, Z.eqb_refl, Ht, Z0, Vq. done.
      - intros x Hx Nx. rewrite HB. rewrite (proj2 (Z.eqb_neq q x)) by congruence. split; [|done].
        unfold owners. rewrite HB, R1 by lia. rewrite (proj2 (Z.eqb_neq q x)) by congruence. done. }
    destruct (q <? g_last_alloc s1); [|eauto].
    exists (set_last_alloc q s1), t. split; [done|].
    destruct HL as ([L1 L2 L3 L4 L5] & L6 & L7 & L8). split_and!; [split; auto | done | done | done].
    apply set_last_alloc_wf; [done|]. rewrite (st_total _ _ S1). lia.
Qed.

(** ** Counting *)

Lemma ref_count_spec s t q :
  rif_ok s t -> 0 < q < g_total_pages s ->
  pmm_ref_count (q * PAGE_SIZE) (s, t) = Ok (u32 (owners s t q)).
Proof.
  intros I Hq. pose proof (rif_pos _ _ I) as [Hr _]. destruct (page_addr q ltac:(lia)) as (E0 & _ & E2).
  destruct I as [W B T HE HZ]. unfold pmm_ref_count, owners. rewrite (proj2 (Z.eqb_neq (g_rif s) 0)) by lia.
  rewrite E2, (proj2 (Z.leb_gt _ _)) by lia. destruct (BITMAP_TEST q s); [|done]. cbn [negb].
  assert (Ea : q * PAGE_SIZE <> 0) by (by apply Z.eqb_neq).
  destruct (Z.eqb_spec (rif_at s q) RIF_MAX) as [E|E].
  - destruct (trova_ok t _ T Ea) as (r & -> & Hm). cbn [mbind run_bind]. destruct r as [x|].
    + destruct Hm as (_ & _ & _ & ->). done.
    + destruct Hm as [_ ->]. done.
  - cbn [mbind run_bind]. destruct (Z.eq_dec (voce (g_oltre t) (q * PAGE_SIZE)) 0) as [->|Nv]; [done|].
    destruct (HE _ Ea Nv) as (_ & _ & _ & F). change (q * PAGE_SIZE / PAGE_SIZE) with (addr_to_page (q * PAGE_SIZE)) in F.
    rewrite E2 in F. done.
Qed.

(** ** The pages the heap takes when the table grows *)

Lemma took_rif_ok i n s s' t :
  rif_ok s t -> pmm_wf s' -> 0 < i -> i + n <= g_total_pages s -> took i n s s' ->
  rif_ok s' t /\ g_total_pages s' = g_total_pages s /\
  (forall q, 0 <= q < g_total_pages s -> rif_at s' q = rif_at s q) /\
  (forall q, BITMAP_TEST q s = true -> BITMAP_TEST q s' = true).
Proof.
  intros [W B T HE HZ] W' Hi Hn [TF TB _ _ TT (TB1 & TB2 & TR) TM].
  assert (HR : forall q, 0 <= q < g_total_pages s -> rif_at s' q = rif_at s q).
  { intros q Hq. unfold rif_at. rewrite TR. apply TM. rewrite (wf_rif s W). lia. }
  assert (HB : forall q, BITMAP_TEST q s = true -> BITMAP_TEST q s' = true).
  { intros q Hq. rewrite TB, Hq. apply orb_true_r. }
  split_and!; auto. split; auto.
  - by rewrite TB1.
  - intros a Ha Hv. destruct (HE a Ha Hv) as (A1 & A2 & A3 & A4). rewrite TT, HR by lia. auto.
  - intros q Hq Fq. rewrite TT in Hq. rewrite HR by lia. apply HZ; [lia|].
    rewrite TB in Fq. apply orb_false_iff in Fq. tauto.
Qed.

Lemma alloc_rif_ok n s t :
  rif_ok s t -> 1 <= n ->
  let s' := snd (ps_alloc n s) in
  rif_ok s' t /\ g_total_pages s' = g_total_pages s /\
  (forall q, 0 <= q < g_total_pages s -> rif_at s' q = rif_at s q) /\
  (forall q, BITMAP_TEST q s = true -> BITMAP_TEST q s' = true).
Proof.
  intros I Hn. cbv zeta. change (ps_alloc n s) with (pmm_alloc_pages_kernel n s).
  destruct (pmm_alloc_pages_kernel_ok n s (ro_wf _ _ I) ltac:(lia)) as [W' [[_ ->]|(i & Hi & Ht & _ & HT)]].
  - split_and!; auto.
  - eapply took_rif_ok; eauto; lia.
Qed.

(** ** The size of the table *)

Lemma metti_length l v l' : metti l v = Ok l' -> length l' = length l.
Proof.
  unfold metti. destruct (primo_vuoto _ _ _) as [j| |]; cbn [mbind run_bind]; [|done|done].
  injection 1 as <-. apply length_set_slot.
Qed.

Lemma sposta_length vecchia nuova l' : sposta vecchia nuova = Ok l' -> length l' = length nuova.
Proof.
  revert nuova. induction vecchia as [|v vecchia IH]; intros nuova; simpl; [by injection 1 as <-|].
  destruct (fst v =? 0); [apply IH|]. destruct (metti nuova v) as [l| |] eqn:E; cbn [mbind run_bind]; [|done|done].
  intros Hs. rewrite (IH _ Hs). by eapply metti_length.
Qed.

Definition posti_nuovi (t : Oltre) : Z := if g_oltre_posti t =? 0 then 64 else g_oltre_posti t * 2.

Lemma aggiungi_posti memoria a t ok t' r :
  oltre_aggiungi memoria a t = Ok (ok, t') -> oltre_trova t a = Ok r ->
  g_oltre_posti t' =
  if match r with Some _ => false | None => g_oltre_posti t <? (g_oltre_usati t + 1) * 2 end && memoria
  then posti_nuovi t else g_oltre_posti t.
Proof.
  intros HA Hr. unfold oltre_aggiungi in HA. rewrite Hr in HA. cbn [mbind run_bind] in HA. destruct r as [x|].
  - destruct (_ =? _); injection HA as <- <-; [done|]. unfold g_oltre_posti. cbn [g_oltre]. by rewrite length_set_slot.
  - destruct (g_oltre_posti t <? _); simpl in HA |- *.
    + unfold oltre_cresci in HA. destruct memoria; simpl in HA; [|by injection HA as <- <-].
      fold (posti_nuovi t) in HA. assert (0 <= posti_nuovi t) by (unfold posti_nuovi, g_oltre_posti; bcase; lia).
      destruct (sposta _ _) as [l| |] eqn:E; simpl in HA; [|done|done].
      destruct (metti l _) as [l2| |] eqn:E2; simpl in HA; [|done|done]. injection HA as <- <-.
      unfold g_oltre_posti. cbn [g_oltre]. rewrite (metti_length _ _ _ E2), (sposta_length _ _ _ E), length_replicate. lia.
    + destruct (metti _ _) as [l2| |] eqn:E2; simpl in HA; [|done|done]. injection HA as <- <-.
      unfold g_oltre_posti. cbn [g_oltre]. by rewrite (metti_length _ _ _ E2).
Qed.

(** Array sizes are powers of two, never at the edge of a page. *)
Lemma pow2_non_di_bordo N : pow2 N -> 2 <= N -> N * 8 <= W32 - 4132 -> non_di_bordo (N * 8).
Proof.
  intros (k & Hk & ->) H2 Hb. unfold non_di_bordo, richiesta, heap_align, HEAP_ALIGN, HEAP_MIN_SIZE.
  rewrite (u32_small (2 ^ k * 8 + 4)) by (unfold W32 in *; lia). rewrite align_up_8 by (unfold W32 in *; lia).
  destruct (Z.le_gt_cases 9 k).
  - right. replace (2 ^ k * 8) with (2 ^ (k - 9) * 4096).
    2:{ replace k with ((k - 9) + 9) at 2 by lia. rewrite Z.pow_add_r by lia. lia. }
    assert (0 < 2 ^ (k - 9)) by (apply Z.pow_pos_nonneg; lia). bcase; zdm.
  - left. assert (2 ^ k <= 2 ^ 8) by (apply Z.pow_le_mono_r; lia). bcase; zdm.
Qed.

(** ** One owner more *)

(** The heap, seen by its functions when the pages of [C] are not its own. *)
Lemma kmalloc_source C size chi h : @kmalloc Pmm (pmm_source C) size chi h = kmalloc size chi h.
Proof. reflexivity. Qed.

(** [C] are the pages of the clients: whatever the heap takes is not among them. *)
Definition rif_inv (C : Z -> Prop) (s : Rif) (L : list Reg) : Prop :=
  @kinv Pmm (pmm_source C) (rif_heap s) L /\ rif_ok (kpages (rif_heap s)) (rif_tab s) /\
  ((rif_ptr s = NULL /\ g_oltre_posti (rif_tab s) = 0) \/
   (rif_ptr s <> NULL /\ 2 <= g_oltre_posti (rif_tab s) /\
    (rif_ptr s, g_oltre_posti (rif_tab s) * RIF_OLTRE_SIZE) ∈ pays (blocks L))).

Definition rif_owners (s : Rif) (q : Z) : Z := owners (kpages (rif_heap s)) (rif_tab s) q.

Definition in_uso (s : Rif) (q : Z) : Prop :=
  0 < q < g_total_pages (kpages (rif_heap s)) /\ BITMAP_TEST q (kpages (rif_heap s)) = true.

(** The effect of [pmm_ref_inc] on the owners: [k] more for [q], the pages in
    use keep theirs. *)
Definition gained (k : Z) (s : Rif) (q : Z) (s' : Rif) : Prop :=
  forall r, in_uso s r -> in_uso s' r /\ rif_owners s' r = rif_owners s r + (if r =? q then k else 0).

(** Other pages, the heap's among them, and other clients. *)
Lemma kinv_cambia C C' p h L :
  @kinv Pmm (pmm_source C) h L -> pmm_wf p -> (forall k, C' k -> pagina_presa p k) ->
  (forall k, pagina_presa (kpages h) k -> ~ C k -> pagina_presa p k /\ ~ C' k) -> @kinv Pmm (pmm_source C') (set_pages p h) L.
Proof.
  intros (F & K & HF) W HC HB. exists F. split; [|done]. destruct K. split; try done.
  intros R i HR Hi. destruct (k_busy R i HR Hi). by apply HB.
Qed.

(** A heap without clients, then with the pages of [C] that are not its own. *)
Lemma kinv_source C h L :
  kinv h L -> (forall k, C k -> pagina_presa (kpages h) k /\ forall R, R ∈ L -> ~ ra R <= k * PAGE_SIZE < rfine R) ->
  @kinv Pmm (pmm_source C) h L.
Proof.
  intros (F & [G Hr Hb Hh Hd Hn Hf Hz Hi Hbu] & HF) HC. exists F. split; [|done]. split; auto.
  - split; [done|]. intros k Hk. by apply HC.
  - intros R i HR Hri. split; [by apply (Hbu R)|]. intros Ci. by apply (proj2 (HC i Ci) R HR).
Qed.

Lemma presa_set_rif s k page v : pmm_wf s -> 0 <= page -> pagina_presa s k -> pagina_presa (set_rif page v s) k.
Proof.
  intros W Hp [Hk|Hk]; [|by right]. destruct (decide (0 <= k < g_total_pages s)) as [Hr|]; [|by right].
  left. by rewrite test_set_rif.
Qed.

Lemma kinv_put_rif C h L page v :
  @kinv Pmm (pmm_source C) h L -> 0 <= page -> @kinv Pmm (pmm_source C) (put_rif page v h) L.
Proof.
  intros K Hp. assert (K' := K). destruct K' as (F & K' & _). destruct (k_inv _ _ _ K') as [W HC].
  apply (kinv_cambia C C); [done | by apply wf_set_rif | |].
  - intros k Hk. apply presa_set_rif; auto.
  - intros k Hk Nk. split; [by apply presa_set_rif | done].
Qed.

Lemma inc_byte s t q :
  rif_ok s t -> 0 < q < g_total_pages s -> BITMAP_TEST q s = true -> rif_at s q < RIF_MAX ->
  rif_ok (set_rif q (rif_at s q + 1) s) t.
Proof.
  intros [W B T HE HZ] Hq Ht Hr. pose proof (rif_range s q). unfold RIF_MAX in *. split; auto.
  - apply wf_set_rif; [done | lia].
  - intros a Ha Hv. destruct (HE a Ha Hv) as (A1 & A2 & A3 & A4). split; [done|]. split; [done|].
    split; [by rewrite test_set_rif by (auto; lia)|]. rewrite rif_set_rif.
    destruct (Z.eqb_spec (a / PAGE_SIZE) q) as [E|]; [|done]. rewrite E in A4. unfold RIF_MAX in A4. lia.
  - intros x Hx Fx. change (0 <= x < g_total_pages s) in Hx. rewrite test_set_rif in Fx by (auto; lia).
    rewrite rif_set_rif. destruct (Z.eqb_spec x q) as [->|]; [congruence | by apply HZ].
Qed.

(** The table with a new entry for a page whose byte is full. *)
Lemma inc_entry s t t' q (ok : bool) :
  rif_ok s t -> 0 < q < g_total_pages s -> BITMAP_TEST q s = true -> rif_at s q = RIF_MAX -> oltre_inv t' ->
  (if ok then forall b, b <> 0 -> voce (g_oltre t') b = voce (g_oltre t) b + (if b =? q * PAGE_SIZE then 1 else 0)
   else t' = t) ->
  rif_ok s t' /\
  forall r, 0 < r -> owners s t' r = owners s t r + (if (r =? q) && ok then 1 else 0) \/ BITMAP_TEST r s = false.
Proof.
  intros [W B T HE HZ] Hq Ht Hr T' HV. destruct ok; [|subst t'; split; [by split | intros; left; rewrite andb_false_r; lia]].
  split; [split; auto|].
  - intros a Ha Hv. rewrite HV in Hv by done. destruct (Z.eqb_spec a (q * PAGE_SIZE)) as [->|]; [|apply HE; auto; lia].
    destruct (page_addr q ltac:(lia)) as (_ & E1 & E2). unfold addr_to_page in E2. rewrite E2. auto with lia.
  - intros r Hr0. unfold owners. destruct (BITMAP_TEST r s); [|by right]. left.
    rewrite HV by (unfold PAGE_SIZE; lia). rewrite andb_true_r.
    destruct (Z.eqb_spec r q) as [->|]; [rewrite Z.eqb_refl; lia|]. rewrite addr_neq by congruence. lia.
Qed.

Lemma posti_nuovi_pow2 t :
  oltre_inv t -> pow2 (posti_nuovi t) /\ 2 <= posti_nuovi t <= Z.max 64 (2 * g_oltre_posti t).
Proof.
  intros (_ & _ & HT & _). unfold posti_nuovi, g_oltre_posti in *.
  destruct (Z.eqb_spec (Z.of_nat (length (g_oltre t))) 0) as [E|E].
  - split; [exists 6; split; [lia | done] | lia].
  - destruct HT as [HT|HT]; [rewrite HT in E; done|]. pose proof (pow2_pos _ (to_pow _ HT)).
    split; [apply pow2_double, (to_pow _ HT) | lia].
Qed.

Lemma kmalloc_rif_ok size chi h p h' t :
  rif_ok (kpages h) t -> kmalloc size chi h = Ok (p, h') ->
  rif_ok (kpages h') t /\ g_total_pages (kpages h') = g_total_pages (kpages h) /\
  (forall q, 0 <= q < g_total_pages (kpages h) -> rif_at (kpages h') q = rif_at (kpages h) q) /\
  (forall q, BITMAP_TEST q (kpages h) = true -> BITMAP_TEST q (kpages h') = true).
Proof.
  intros I E. destruct (kpages_kmalloc _ _ _ _ _ E) as [->|(n & -> & Hn)]; [by auto|].
  apply (alloc_rif_ok n (kpages h) t I). lia.
Qed.

(** The old array goes, the new one stays. *)
Lemma swap_arrays C h L p m nuova n :
  @kinv Pmm (pmm_source C) h L -> 0 < m -> 0 < n -> (p, m) ∈ pays (blocks L) -> (nuova, n) ∈ pays (blocks L) -> nuova <> p ->
  exists h' L', kfree p h = Ok h' /\ @kinv Pmm (pmm_source C) h' L' /\ (nuova, n) ∈ pays (blocks L') /\ kpages h' = kpages h.
Proof.
  intros K Hm Hn Hp Hq Ne. destruct (kfree_spec h L p m K Hp) as (h' & E & (L' & K' & HP & _) & _).
  exists h', L'. split_and!; [done | done | | by eapply kpages_kfree].
  rewrite HP in Hq. apply elem_of_cons in Hq as [Hq|]; [congruence | done].
Qed.

(** The array of the table lies in the kernel band. *)
Lemma posti_bound C s L : rif_inv C s L -> g_oltre_posti (rif_tab s) <= 2 ^ 26.
Proof.
  intros (K & _ & [[_ ->]|(_ & _ & Hin)]); [lia|]. pose proof (pays_bounds _ _ _ _ K Hin) as Hb.
  unfold RIF_OLTRE_SIZE, USER_SPACE_BASE in *. lia.
Qed.

Lemma rif_aggiungi_spec C s L q chi :
  rif_inv C s L -> in_uso s q -> rif_at (kpages (rif_heap s)) q = RIF_MAX ->
  exists ok s' L', rif_aggiungi (q * PAGE_SIZE) chi s = Ok (ok, s') /\ rif_inv C s' L' /\
    gained (if ok then 1 else 0) s q s'.
Proof.
  intros RI [Hq Ht] Hr. pose proof (posti_bound _ _ _ RI) as Hb. destruct RI as (K & I & HP). destruct s as [h t ptr]. cbn [rif_heap rif_tab rif_ptr] in *.
  assert (Ea : q * PAGE_SIZE <> 0) by (unfold PAGE_SIZE; lia). pose proof (ro_tab _ _ I) as T.
  unfold rif_aggiungi. cbn [rif_heap rif_tab rif_ptr].
  destruct (trova_ok t _ T Ea) as (r & Er & _). rewrite Er. cbn [mbind run_bind].
  set (cresce := match r with Some _ => false | None => _ end) in *. fold (posti_nuovi t).
  (* the table step, common to the three exits *)
  assert (STEP : forall memoria h', rif_ok (kpages h') t ->
    g_total_pages (kpages h') = g_total_pages (kpages h) ->
    (forall x, 0 <= x < g_total_pages (kpages h) -> rif_at (kpages h') x = rif_at (kpages h) x) ->
    (forall x, BITMAP_TEST x (kpages h) = true -> BITMAP_TEST x (kpages h') = true) ->
    exists ok t', oltre_aggiungi memoria (q * PAGE_SIZE) t = Ok (ok, t') /\
      g_oltre_posti t' = (if cresce && memoria then posti_nuovi t else g_oltre_posti t) /\
      rif_ok (kpages h') t' /\
      forall ptr', gained (if ok then 1 else 0) (mkRif h t ptr) q (mkRif h' t' ptr')).
  { intros memoria h' I' HT HR HB. destruct (aggiungi_ok memoria _ t T Ea) as (ok & t' & E & T' & HV).
    exists ok, t'. split; [done|]. split; [by apply (aggiungi_posti _ _ _ _ _ _ E Er)|].
    destruct (inc_entry (kpages h') t t' q ok I') as [I2 HO]; auto.
    { lia. } { rewrite HR by lia. done. } { destruct ok; [done | apply HV]. }
    split; [done|]. intros ptr' x [Hx Tx]. cbn [rif_heap rif_tab] in *. split; [split; [cbn; lia | cbn; auto]|].
    unfold rif_owners. cbn [rif_heap rif_tab]. destruct (HO x ltac:(lia)) as [->|F]; [|rewrite HB in F; done].
    unfold owners. rewrite Tx, HB, HR by (auto; lia). destruct (x =? q), ok; simpl; lia. }
  destruct cresce eqn:Ec.
  - destruct (posti_nuovi_pow2 t T) as [Hpw Hpb].
    assert (HN : posti_nuovi t * 8 <= W32 - 4132) by (unfold W32; lia).
    unfold RIF_OLTRE_SIZE. rewrite (u32_small (posti_nuovi t * 8)) by (unfold W32 in *; lia).
    destruct (kmalloc_spec h L (posti_nuovi t * 8) chi K ltac:(lia) (pow2_non_di_bordo _ Hpw ltac:(lia) HN))
      as (nuova & h1 & Ek & D). rewrite kmalloc_source in Ek. rewrite Ek. cbn [mbind run_bind].
    destruct (kmalloc_rif_ok _ _ _ _ _ t I Ek) as (I1 & HT & HR & HB).
    destruct (STEP (negb (nuova =? NULL)) h1 I1 HT HR HB) as (ok & t' & -> & Ep & I2 & HG). cbn [mbind run_bind].
    destruct D as [[-> (K1 & _)]|(Nn & _ & L1 & K1 & HP1 & _)].
    + rewrite Z.eqb_refl in *. simpl in Ep. eexists _, _, L. split; [reflexivity|]. split; [|apply HG].
      split_and!; [done | done |]. cbn [rif_ptr rif_tab]. by rewrite Ep.
    + rewrite (proj2 (Z.eqb_neq _ _) Nn) in *. simpl in Ep.
      assert (Hn1 : (nuova, posti_nuovi t * 8) ∈ pays (blocks L1)) by (rewrite HP1; by left).
      destruct HP as [[-> E0]|(Np & Hp2 & Hin)].
      * rewrite Z.eqb_refl. cbn [mbind run_bind]. eexists _, _, L1. split; [reflexivity|]. split; [|apply HG].
        split_and!; [done | done |]. cbn [rif_ptr rif_tab]. right. rewrite Ep. split_and!; auto. lia.
      * rewrite (proj2 (Z.eqb_neq _ _) Np). unfold RIF_OLTRE_SIZE in *.
        assert (Ne : nuova <> ptr).
        { intros ->. apply (pays_new_disjoint h1 L1 ptr (posti_nuovi t * 8) (pays (blocks L)) ptr K1 HP1); [|lia].
          exists ptr, (g_oltre_posti t * 8). split; [done | lia]. }
        destruct (swap_arrays C h1 L1 ptr (g_oltre_posti t * 8) nuova (posti_nuovi t * 8) K1) as (h2 & L2 & -> & K2 & Hn2 & Ek2);
          auto; try lia; [rewrite HP1; by right|].
        cbn [mbind run_bind]. eexists _, _, L2. split; [reflexivity|]. split.
        -- split_and!; [done | cbn [rif_heap]; by rewrite Ek2 |]. cbn [rif_ptr rif_tab]. right. rewrite Ep.
           split_and!; auto. lia.
        -- intros x Hx. destruct (HG nuova x Hx) as [G1 G2]. unfold in_uso, rif_owners in *. cbn [rif_heap rif_tab] in *.
           by rewrite Ek2.
  - destruct (STEP true h I) as (ok & t' & -> & Ep & I2 & HG); auto. cbn [mbind run_bind].
    eexists _, _, L. split; [reflexivity|]. split; [|apply HG]. split_and!; [done | done |].
    cbn [rif_ptr rif_tab]. simpl in Ep. by rewrite Ep.
Qed.

Lemma ref_inc_spec C s L q chi :
  rif_inv C s L -> in_uso s q ->
  exists ok s' L', pmm_ref_inc (q * PAGE_SIZE) chi s = Ok (ok, s') /\ rif_inv C s' L' /\
    gained (if ok then 1 else 0) s q s' /\
    (ok = false -> rif_at (kpages (rif_heap s)) q = RIF_MAX).
Proof.
  intros I U. assert (I' := I). assert (U' := U). destruct I' as (K & R & HP). destruct U' as [Hq Ht].
  destruct (page_addr q ltac:(lia)) as (_ & E1 & E2). pose proof (rif_pos _ _ R) as [Hr _].
  unfold pmm_ref_inc. rewrite (proj2 (Z.eqb_neq _ 0)) by lia. rewrite E1, E2. cbn [negb Z.eqb].
  rewrite (proj2 (Z.leb_gt _ _)) by lia. rewrite Ht. cbn [negb].
  pose proof (rif_range (kpages (rif_heap s)) q).
  destruct (Z.ltb_spec (rif_at (kpages (rif_heap s)) q) RIF_MAX) as [Hl|Hl].
  - eexists true, _, L. split; [reflexivity|]. split_and!; [| |done].
    + split_and!; [apply kinv_put_rif; [done | lia] | | done].
      change (kpages (rif_heap (mkRif (put_rif q (rif_at (kpages (rif_heap s)) q + 1) (rif_heap s)) (rif_tab s) (rif_ptr s))))
        with (set_rif q (rif_at (kpages (rif_heap s)) q + 1) (kpages (rif_heap s))).
      by apply inc_byte.
    + intros x [Hx Tx]. unfold in_uso, rif_owners, owners.
      change (kpages (rif_heap (mkRif (put_rif q (rif_at (kpages (rif_heap s)) q + 1) (rif_heap s)) (rif_tab s) (rif_ptr s))))
        with (set_rif q (rif_at (kpages (rif_heap s)) q + 1) (kpages (rif_heap s))).
      cbn [rif_tab]. pose proof (ro_wf _ _ R) as W. rewrite test_set_rif, rif_set_rif by (auto; lia). rewrite Tx. split; [done|].
      unfold RIF_MAX in *. destruct (Z.eqb_spec x q) as [->|]; [rewrite Z.mod_small by lia|]; lia.
  - unfold RIF_MAX in Hl. assert (Er : rif_at (kpages (rif_heap s)) q = RIF_MAX) by (unfold RIF_MAX; lia).
    destruct (rif_aggiungi_spec C s L q chi I U Er) as (ok & s' & L' & E & I' & G). exists ok, s', L'. auto.
Qed.
