(* ===== verification/PmmThms.v ===== *)
(** * Physical memory manager: the claims

    Allocation of one page and of contiguous pages, the search they share,
    initialisation from the E820 map, the table of excess owners and the
    counting of owners, each stated on its own with a concrete instance. *)

From S2P Require Import Prelude Mem Pmm PmmSpec PmmInit Oltre Kheap KheapInv KheapSpec KheapFree KheapThms PmmRef.

(** ** Allocation *)

(** [pmm_alloc_page] keeps the invariant and either takes one page that was
    free, sets its bit and no other and moves one unit between the counters,
    or returns 0 with the state unchanged, and then no page was free; a page of
    the kernel band is given only when no page above it is free. *)
Theorem pmm_alloc_page_correct (s : Pmm) :
  pmm_wf s ->
  let r := pmm_alloc_page s in
  pmm_wf (snd r) /\
  ((fst r = 0 /\ snd r = s /\ forall q, 0 <= q < g_total_pages s -> BITMAP_TEST q s = true) \/
   exists i, 0 < i < g_total_pages s /\ fst r = i * PAGE_SIZE /\ took i 1 s (snd r) /\
     (i < pmm_limite_kernel s ->
      forall q, pmm_limite_kernel s <= q < g_total_pages s -> BITMAP_TEST q s = true)).
Proof.
  intros W r. destruct (pmm_alloc_page_ok s W) as [W' D]. fold r in W', D. split; [done|].
  destruct D as [[E1 E2]|(i & Hi & E & T)].
  - left. split_and!; auto. by apply pmm_alloc_page_fails.
  - right. exists i. split_and!; auto; try lia. intros Hl. apply pmm_alloc_page_band_last; auto.
    fold r. rewrite E. unfold PAGE_SIZE. lia.
Qed.

Lemma pmm_alloc_page_correct_witness : pmm_wf (snd (pmm_alloc_page pmm_piccola)).
Proof. exact (proj1 (pmm_alloc_page_correct pmm_piccola pmm_piccola_wf)). Defined.

(** [pmm_alloc_pages_kernel] takes [count] contiguous pages that were all
    free, below [USER_SPACE_BASE], and touches no other bit; or it returns 0
    with the state unchanged. *)
Theorem pmm_alloc_pages_kernel_correct (count : Z) (s : Pmm) :
  pmm_wf s -> 1 <= count ->
  let r := pmm_alloc_pages_kernel count s in
  pmm_wf (snd r) /\
  ((fst r = 0 /\ snd r = s) \/
   exists i, 0 < i /\ fst r = i * PAGE_SIZE /\ i * PAGE_SIZE + count * PAGE_SIZE <= USER_SPACE_BASE /\
     all_free i count s /\ took i count s (snd r)).
Proof.
  intros W Hc r. destruct (pmm_alloc_pages_kernel_ok count s W ltac:(lia)) as [W' D]. fold r in W', D. split; [done|].
  destruct D as [D|(i & Hi & Ht & E & T)]; [by left|]. right. exists i. split_and!; auto; [|apply T].
  rewrite <- E. apply pmm_alloc_pages_kernel_band; auto. fold r. rewrite E. unfold PAGE_SIZE. lia.
Qed.

Lemma pmm_alloc_pages_kernel_correct_witness : pmm_wf (snd (pmm_alloc_pages_kernel 16 pmm_piccola)).
Proof. exact (proj1 (pmm_alloc_pages_kernel_correct 16 pmm_piccola pmm_piccola_wf ltac:(lia))). Defined.

(** the search with skips returns the first run of [count] free pages, the
    one a search that tries every start would return, and the end of the range
    exactly when there is none. *)
Theorem pmm_cerca_contigue_first_fit (da a count : Z) (s : Pmm) :
  1 <= count -> 0 <= da ->
  let p := pmm_cerca_contigue da a count s in
  (p = a /\ forall q, da <= q <= a - count -> ~ all_free q count s) \/
  (da <= p <= a - count /\ all_free p count s /\ forall q, da <= q < p -> ~ all_free q count s).
Proof. apply cerca_contigue_spec. Qed.

Lemma pmm_cerca_contigue_first_fit_witness :
  pmm_cerca_contigue 0 2048 300 pmm_piccola = 0x182 /\ all_free 0x182 300 pmm_piccola.
Proof.
  assert (E : pmm_cerca_contigue 0 2048 300 pmm_piccola = 0x182) by (vm_compute; reflexivity).
  split; [exact E|]. destruct (pmm_cerca_contigue_first_fit 0 2048 300 pmm_piccola ltac:(lia) ltac:(lia)) as [[F _]|(_ & H & _)].
  - rewrite E in F. discriminate F.
  - rewrite E in H. exact H.
Defined.

(** ** Initialisation *)

(** C36: [pmm_init] gives the invariant, and says of every page of RAM whether it is
    free: it is when its last byte belongs to a usable E820 entry that begins and ends
    below 4 GB (a page that is usable only in its last part is free too), and no byte
    of it belongs to a region that the kernel must keep: its image with the two
    tables, the BIOS areas, the RAM disks, the window of paging.  The boot map is an
    E820 map of 1 MB to 4 GB of RAM with 32-bit fields, kernel and disks end below
    4 GB, and the number of pages is one for which the bitmap has a bit for every
    page ([pmm_bitmap_covers_iff]). *)
Theorem pmm_init_correct (info : BootInfo) (kernel_start kernel_end : Z) (m : gmap Z Z) :
  boot_ok info kernel_start kernel_end ->
  (pages_of (pmm_max_addr info) mod 8 = 0 \/ (pages_of (pmm_max_addr info) / 8) mod PAGE_SIZE <> 0) ->
  exists info' s, pmm_init info kernel_start kernel_end m = Ok (info', s) /\ pmm_wf s /\
    g_total_pages s = pages_of (pmm_max_addr info) /\ info' = pmm_init_info info s /\
    forall q, 0 <= q < g_total_pages s ->
      (BITMAP_TEST q s = false <->
       (exists e, e ∈ e820_map info /\ e820_type e = E820_TYPE_USABLE /\ base_high e = 0 /\ base_low e + length_low e < W32 /\
          base_low e <= q * PAGE_SIZE + 4095 < base_low e + length_low e) /\
       forall r a, r ∈ protected_ranges info' kernel_start (g_rif s + g_rif_size s) -> a / PAGE_SIZE = q ->
         ~ (fst r <= a < fst r + snd r)).
Proof.
  intros B Hc. destruct (pmm_init_ok info kernel_start kernel_end m B Hc) as (i & s & E & W & HT & HI & HF).
  exists i, s. rewrite HT. split_and!; try done.
Qed.

Lemma pmm_init_correct_witness : exists i s, pmm_init piccola 0x100000 0x180000 ∅ = Ok (i, s) /\ pmm_wf s.
Proof.
  destruct (pmm_init_correct piccola 0x100000 0x180000 ∅ piccola_ok) as (i & s & E & W & _);
    [left; vm_compute; reflexivity | eauto].
Defined.

(** the bitmap [pmm_init] lays out ([g_total_pages / 8] bytes rounded up to
    pages) has a bit for every page of RAM exactly when the number of pages is
    a multiple of eight or its eighth is not a multiple of the page size; with,
    say, 32769 pages of RAM (128 MB and one page) the last bit falls in the
    table of owners behind it. *)
Theorem pmm_bitmap_covers_iff (total : Z) :
  0 <= total <= PMM_PAGINE_4GB ->
  g_total_pages (pmm_tables (total * PAGE_SIZE) 0x180000 ∅) <= 8 * g_bitmap_size (pmm_tables (total * PAGE_SIZE) 0x180000 ∅) <->
  total mod 8 = 0 \/ (total / 8) mod PAGE_SIZE <> 0 \/ total = PMM_PAGINE_4GB.
Proof.
  intros H. unfold pmm_tables. cbn [g_total_pages g_bitmap_size].
  destruct (Z.eq_dec total PMM_PAGINE_4GB) as [->|Hn].
  { split; [auto|]. intros _. vm_compute. congruence. }
  assert (E : align_up (total * PAGE_SIZE) PAGE_SIZE / PAGE_SIZE = total).
  { unfold PMM_PAGINE_4GB, PAGE_SIZE in *. rewrite align_up_4096 by (unfold W32; lia). zdm. }
  rewrite E, (cover_iff total H). tauto.
Qed.

Lemma pmm_bitmap_covers_iff_witness :
  ~ (g_total_pages (pmm_tables (32769 * PAGE_SIZE) 0x180000 ∅) <= 8 * g_bitmap_size (pmm_tables (32769 * PAGE_SIZE) 0x180000 ∅)).
Proof.
  intros F. apply (proj1 (pmm_bitmap_covers_iff 32769 ltac:(unfold PMM_PAGINE_4GB; lia))) in F.
  destruct F as [F|[F|F]]; [discriminate F | apply F; reflexivity | discriminate F].
Defined.

(** ** The table of excess owners *)

(** [oltre_aggiungi] on a table that satisfies the probe invariant always
    ends, keeps the invariant, and adds one to the count of [a] and to no
    other; it refuses only when memory is refused or the counter is full, and
    then the table is unchanged. *)
Theorem oltre_aggiungi_correct (memoria : bool) (a : Z) (t : Oltre) :
  oltre_inv t -> a <> 0 ->
  exists r t', oltre_aggiungi memoria a t = Ok (r, t') /\ oltre_inv t' /\
    if r then forall b, b <> 0 -> voce (g_oltre t') b = voce (g_oltre t) b + (if b =? a then 1 else 0)
    else t' = t /\ (memoria = false \/ voce (g_oltre t) a = 0xFFFFFFFF).
Proof. apply aggiungi_ok. Qed.

(** [oltre_togli], with its removal by shifting back, always ends, keeps
    the probe invariant, takes one from the count of [a] when it has one and
    changes no other count. *)
Theorem oltre_togli_correct (a : Z) (t : Oltre) :
  oltre_inv t -> a <> 0 ->
  exists r t', oltre_togli a t = Ok (r, t') /\ oltre_inv t' /\ r = negb (voce (g_oltre t) a =? 0) /\
    forall b, b <> 0 -> voce (g_oltre t') b = voce (g_oltre t) b - (if (b =? a) && r then 1 else 0).
Proof. apply togli_ok. Qed.

Lemma oltre_vuota_inv : oltre_inv (mkOltre [] 0).
Proof. split_and!; [done | done | by left |]. intros x Hx. simpl in Hx. lia. Qed.

Lemma oltre_aggiungi_correct_witness :
  exists r t', oltre_aggiungi true 0x5000 (mkOltre [] 0) = Ok (r, t') /\ oltre_inv t'.
Proof.
  destruct (oltre_aggiungi_correct true 0x5000 (mkOltre [] 0) oltre_vuota_inv ltac:(lia)) as (r & t' & E & I & _). eauto.
Defined.

(** One entry, as [oltre_aggiungi] leaves it. *)
Definition oltre_uno : Oltre :=
  match oltre_aggiungi true 0x5000 (mkOltre [] 0) with Ok (_, t) => t | _ => mkOltre [] 0 end.

Lemma oltre_uno_inv : oltre_inv oltre_uno.
Proof.
  destruct (aggiungi_ok true 0x5000 (mkOltre [] 0) oltre_vuota_inv ltac:(lia)) as (r & t' & E & I & _).
  unfold oltre_uno. by rewrite E.
Qed.

Lemma oltre_togli_correct_witness :
  exists r t', oltre_togli 0x5000 oltre_uno = Ok (r, t') /\ oltre_inv t' /\ r = true.
Proof.
  destruct (oltre_togli_correct 0x5000 oltre_uno oltre_uno_inv ltac:(lia)) as (r & t' & E & I & Er & _).
  exists r, t'. split_and!; [exact E | exact I | rewrite Er; vm_compute; reflexivity].
Defined.

(** ** Owners of a page *)

(** [pmm_free_page] on a page in use takes away exactly one of its owners:
    the page goes back to the system when it had one and stays in use when it
    had more; no other page gains or loses an owner, and the contract between
    byte and table (an entry only while the byte is full) still holds. *)
Theorem pmm_free_page_drops_one_owner (s : Pmm) (t : Oltre) (q : Z) :
  rif_ok s t -> 0 < q < g_total_pages s -> BITMAP_TEST q s = true ->
  exists s' t', pmm_free_page (q * PAGE_SIZE) (s, t) = Ok (s', t') /\ rif_ok s' t' /\
    owners s' t' q = owners s t q - 1 /\
    (BITMAP_TEST q s' = true <-> 1 < owners s t q) /\
    (forall r, 0 < r < g_total_pages s -> r <> q ->
       owners s' t' r = owners s t r /\ BITMAP_TEST r s' = BITMAP_TEST r s).
Proof.
  intros I Hq Ht. destruct (free_page_spec s t q I Hq Ht) as (s' & t' & E & I' & HT & HO & HR).
  exists s', t'. split_and!; auto.
  assert (Hpos : BITMAP_TEST q s' = true -> 1 <= owners s' t' q).
  { intros Hb. unfold owners. rewrite Hb. pose proof (rif_range s' q).
    pose proof (voce_nonneg t' (q * PAGE_SIZE) (ro_tab _ _ I') ltac:(unfold PAGE_SIZE; lia)). lia. }
  split; [intros Hb; specialize (Hpos Hb); lia|]. intros Ho.
  destruct (BITMAP_TEST q s') eqn:Eb; [done|]. unfold owners in HO at 1. rewrite Eb in HO. lia.
Qed.

(** [pmm_ref_inc] on a page in use ends with the heap, the page allocator
    and the table well formed; when it succeeds the page has one owner more and
    every other page in use has the owners it had, also when counting needed a
    larger table and the heap had to grow for it; it can refuse only when the
    byte of the page is full. *)
Theorem pmm_ref_inc_adds_one_owner (C : Z -> Prop) (s : Rif) (L : list Reg) (q chi : Z) :
  rif_inv C s L -> in_uso s q ->
  exists ok s' L', pmm_ref_inc (q * PAGE_SIZE) chi s = Ok (ok, s') /\ rif_inv C s' L' /\
    (forall r, in_uso s r -> in_uso s' r /\
       rif_owners s' r = rif_owners s r + (if (r =? q) && ok then 1 else 0)) /\
    (ok = false -> rif_at (kpages (rif_heap s)) q = RIF_MAX).
Proof.
  intros I U. destruct (ref_inc_spec C s L q chi I U) as (ok & s' & L' & E & I' & G & F).
  exists ok, s', L'. split_and!; auto. intros r Ur. destruct (G r Ur) as [G1 G2]. split; [done|].
  rewrite G2. destruct (r =? q), ok; done.
Qed.

(** [pmm_ref_count] returns the owners the tables record. *)
Theorem pmm_ref_count_correct (s : Pmm) (t : Oltre) (q : Z) :
  rif_ok s t -> 0 < q < g_total_pages s -> pmm_ref_count (q * PAGE_SIZE) (s, t) = Ok (u32 (owners s t q)).
Proof. apply ref_count_spec. Qed.

(** The small machine with its heap and an empty table. *)
Definition rif_piccolo : Rif := mkRif heap_piccolo (mkOltre [] 0) NULL.

Definition byte_zero (s : Pmm) : bool :=
  forallb (fun q => BITMAP_TEST q s || (rif_at s q =? 0)) (seqZ 0 (g_total_pages s)).

Lemma byte_zero_ok s q : byte_zero s = true -> 0 <= q < g_total_pages s -> BITMAP_TEST q s = false -> rif_at s q = 0.
Proof.
  unfold byte_zero. intros HB Hq Ht. rewrite forallb_forall in HB.
  assert (Hin : q ∈ seqZ 0 (g_total_pages s)) by (apply elem_of_seqZ; lia).
  apply list_elem_of_In in Hin. specialize (HB q Hin). rewrite Ht in HB. by apply Z.eqb_eq.
Qed.

Lemma rif_ok_piccolo s : pmm_wf s -> 0 < g_bitmap s -> byte_zero s = true -> rif_ok s (mkOltre [] 0).
Proof.
  intros W B Z0. split; [done | done | apply oltre_vuota_inv | by intros a _ [] | intros; by apply byte_zero_ok].
Qed.

Lemma pmm_piccola_rif : rif_ok pmm_piccola (mkOltre [] 0).
Proof. apply rif_ok_piccolo; [apply pmm_piccola_wf | vm_compute; reflexivity | vm_compute; reflexivity]. Qed.

Lemma rif_piccolo_inv : exists L, rif_inv (fun _ => False) rif_piccolo L.
Proof.
  destruct heap_piccolo_ok as (L & K & _). exists L. destruct K as (F & K & HF). split_and!; [| | by left].
  { apply kinv_source; [by exists F | tauto]. }
  apply rif_ok_piccolo; [apply (k_inv _ _ _ K) | vm_compute; reflexivity | vm_compute; reflexivity].
Qed.

Lemma pmm_free_page_drops_one_owner_witness :
  exists s' t', pmm_free_page (13 * PAGE_SIZE) (snd (pmm_alloc_pages_kernel 16 pmm_piccola), mkOltre [] 0) = Ok (s', t').
Proof.
  set (s := snd (pmm_alloc_pages_kernel 16 pmm_piccola)).
  destruct (pmm_free_page_drops_one_owner s (mkOltre [] 0) 13) as (s' & t' & E & _).
  - apply rif_ok_piccolo; [apply (pmm_alloc_pages_kernel_ok 16 pmm_piccola pmm_piccola_wf ltac:(lia))
      | vm_compute; reflexivity | vm_compute; reflexivity].
  - vm_compute. split; reflexivity.
  - vm_compute. reflexivity.
  - eauto.
Defined.

Lemma pmm_ref_inc_adds_one_owner_witness :
  exists ok s', pmm_ref_inc (13 * PAGE_SIZE) 7 rif_piccolo = Ok (ok, s').
Proof.
  destruct rif_piccolo_inv as (L & I).
  destruct (pmm_ref_inc_adds_one_owner (fun _ => False) rif_piccolo L 13 7 I) as (ok & s' & L' & E & _);
    [split; [vm_compute; split; reflexivity | vm_compute; reflexivity] | eauto].
Defined.

Lemma pmm_ref_count_correct_witness : pmm_ref_count (13 * PAGE_SIZE) (pmm_piccola, mkOltre [] 0) = Ok 0.
Proof.
  rewrite (pmm_ref_count_correct pmm_piccola (mkOltre [] 0) 13 pmm_piccola_rif); [|vm_compute; split; reflexivity].
  vm_compute. reflexivity.
Defined.
