(* ===== verification/Attese.v ===== *)
(** * Who waits on an object (kernel/include/attese.h)

    The first waiter inline, the others in an array that doubles.  The set of
    waiters is [attesi]; a change of the object wakes all of them. *)

From S2P Require Import Prelude.

(** [posti] is the length of the array [altri]; the first [att_n] slots are in
    use. *)
Record Attese : Type := mkAttese { uno : Z; altri : list Z; att_n : nat }.

Definition posti (a : Attese) : nat := length (altri a).

Definition attese_c_e (a : Attese) (pid : Z) : bool :=
  (uno a =? pid) || existsb (fun x => x =? pid) (take (att_n a) (altri a)).

(** [true]: registered, or already there; [false]: no room. *)
Definition attese_metti (a : Attese) (pid : Z) : bool * Attese :=
  if attese_c_e a pid then (true, a) else
  if uno a =? 0 then (true, mkAttese pid (altri a) (att_n a)) else
  if (posti a <=? att_n a)%nat then (false, a) else
  (true, mkAttese (uno a) (<[att_n a := pid]> (altri a)) (S (att_n a))).

(** The loop of [attese_togli]: the slot of [pid] among the first [n]. *)
Fixpoint posto_di (l : list Z) (pid : Z) (i n : nat) : option nat :=
  match n with
  | O => None
  | S n => if nth i l 0 =? pid then Some i else posto_di l pid (S i) n
  end.

Definition attese_togli (a : Attese) (pid : Z) : Attese :=
  if uno a =? pid then
    match att_n a with
    | O => mkAttese 0 (altri a) 0
    | S n => mkAttese (nth n (altri a) 0) (altri a) n
    end
  else
    match posto_di (altri a) pid 0 (att_n a) with
    | None => a
    | Some i => mkAttese (uno a) (<[i := nth (att_n a - 1) (altri a) 0]> (altri a)) (att_n a - 1)
    end.

(** The pids woken, in order, and the emptied list. *)
Definition attese_sveglia_locked (a : Attese) : list Z * Attese :=
  ((if uno a =? 0 then [] else [uno a]) ++ take (att_n a) (altri a), mkAttese 0 (altri a) 0).

(** [attese_cresci] has two critical sections with [kmalloc] between them: the
    first reads the size to ask for, the second installs the array [nuovo],
    whose bytes are whatever the heap left there, unless someone else grew it
    meanwhile. *)
Definition attese_cresci_chiedi (a : Attese) : nat := if (posti a =? 0)%nat then 8 else posti a * 2.

Definition attese_cresci_installa (nuovo : list Z) (a : Attese) : Attese :=
  if (posti a <? length nuovo)%nat
  then mkAttese (uno a) (take (att_n a) (altri a) ++ drop (att_n a) nuovo) (att_n a)
  else a.

Definition attese_rimetti (salva : Attese) : Attese := mkAttese 0 (altri salva) 0.

(** ** The waiters *)

Definition attesi (a : Attese) : list Z :=
  (if uno a =? 0 then [] else [uno a]) ++ take (att_n a) (altri a).

Record att_ok (a : Attese) : Prop := {
  ao_room : (att_n a <= posti a)%nat;
  ao_first : uno a = 0 -> att_n a = 0%nat;
  ao_nodup : NoDup (attesi a);
  ao_zero : 0 ∉ attesi a
}.

Lemma existsb_elem l pid : existsb (fun x => x =? pid) l = true <-> pid ∈ l.
Proof.
  rewrite existsb_exists. split.
  - intros (x & Hx & E). apply Z.eqb_eq in E as ->. by apply list_elem_of_In.
  - intros H. exists pid. split; [by apply list_elem_of_In | apply Z.eqb_refl].
Qed.

Lemma c_e_spec a pid : pid <> 0 -> attese_c_e a pid = true <-> pid ∈ attesi a.
Proof.
  intros Hp. unfold attese_c_e, attesi. rewrite orb_true_iff, existsb_elem, elem_of_app.
  destruct (Z.eqb_spec (uno a) 0) as [->|]; rewrite Z.eqb_eq.
  - split; [intros [E|]; [congruence | auto] | intros [[]%elem_of_nil|]; auto].
  - rewrite list_elem_of_singleton. split; intros [->|]; auto.
Qed.

Lemma metti_spec a pid :
  att_ok a -> pid <> 0 ->
  let '(r, a') := attese_metti a pid in
  att_ok a' /\
  (if r then forall q, q ∈ attesi a' <-> q = pid \/ q ∈ attesi a
   else a' = a /\ (pid ∉ attesi a) /\ att_n a = posti a).
Proof.
  intros [R F N Z0] Hp. unfold attese_metti. destruct (attese_c_e a pid) eqn:Ec.
  { apply c_e_spec in Ec; [|done]. split; [by split|]. intros q. split; [auto | intros [->|]; auto]. }
  assert (Nc : pid ∉ attesi a) by (intros H; apply c_e_spec in H; congruence).
  destruct (Z.eqb_spec (uno a) 0) as [E|E].
  { assert (En := F E). assert (Ea : attesi (mkAttese pid (altri a) (att_n a)) = pid :: attesi a).
    { unfold attesi. simpl. rewrite E, (proj2 (Z.eqb_neq pid 0) Hp). done. }
    split; [split|].
    - done.
    - simpl. intros; congruence.
    - rewrite Ea. by apply NoDup_cons.
    - rewrite Ea. apply not_elem_of_cons. auto.
    - intros q. rewrite Ea. apply elem_of_cons. }
  destruct (Nat.leb_spec (posti a) (att_n a)) as [Hl|Hl].
  { split; [by split|]. split_and!; auto. lia. }
  assert (Ea : attesi (mkAttese (uno a) (<[att_n a := pid]> (altri a)) (S (att_n a))) = attesi a ++ [pid]).
  { unfold attesi. simpl. rewrite <- app_assoc. f_equal.
    rewrite (take_S_r _ _ pid) by (apply list_lookup_insert_eq; exact Hl).
    by rewrite take_insert_ge by lia. }
  split; [split|].
  - unfold posti in *. simpl. rewrite length_insert. lia.
  - simpl. intros. congruence.
  - rewrite Ea. apply NoDup_app. split_and!; auto; [|apply NoDup_singleton].
    intros x Hx ->%list_elem_of_singleton. done.
  - rewrite Ea, elem_of_app, list_elem_of_singleton. intros [|]; [done | congruence].
  - intros q. rewrite Ea, elem_of_app, list_elem_of_singleton. tauto.
Qed.

Lemma posto_di_spec l pid i n :
  match posto_di l pid i n with
  | Some j => (i <= j < i + n)%nat /\ nth j l 0 = pid
  | None => forall j, (i <= j < i + n)%nat -> nth j l 0 <> pid
  end.
Proof.
  revert i. induction n as [|n IH]; intros i; simpl; [intros; lia|].
  destruct (Z.eqb_spec (nth i l 0) pid) as [E|E]; [split; [lia | done]|].
  specialize (IH (S i)). destruct (posto_di l pid (S i) n) as [j|].
  - destruct IH. split; [lia | done].
  - intros j Hj. destruct (decide (j = i)) as [->|]; [done|]. apply IH. lia.
Qed.

(** Moving the last of the first [S n] slots into slot [i]. *)
Lemma take_swap_last (l : list Z) i n :
  (i <= n)%nat -> (n < length l)%nat ->
  take (S n) l ≡ₚ nth i l 0 :: take n (<[i := nth n l 0]> l).
Proof.
  intros Hi Hn. assert (Hln : l !! n = Some (nth n l 0)) by (by destruct (nth_lookup_or_length l n 0); [|lia]).
  rewrite (take_S_r _ _ _ Hln).
  destruct (decide (i = n)) as [->|Hne].
  { rewrite take_insert_ge by lia. by rewrite Permutation_app_comm. }
  assert (Hli : take n l !! i = Some (nth i l 0)).
  { rewrite lookup_take_lt by lia. by destruct (nth_lookup_or_length l i 0); [|lia]. }
  rewrite take_insert_lt by lia. rewrite insert_take_drop by (rewrite length_take; lia).
  rewrite <- (take_drop_middle _ _ _ Hli) at 1. solve_Permutation.
Qed.

Lemma togli_att_spec a pid :
  att_ok a -> pid <> 0 ->
  att_ok (attese_togli a pid) /\ forall q, q ∈ attesi (attese_togli a pid) <-> q ∈ attesi a /\ q <> pid.
Proof.
  intros A Hp. assert (A' := A). destruct A' as [R F N Z0].
  assert (HP : forall a', (att_n a' <= posti a')%nat -> (uno a' = 0 -> att_n a' = 0%nat) ->
    attesi a ≡ₚ pid :: attesi a' -> att_ok a' /\ forall q, q ∈ attesi a' <-> q ∈ attesi a /\ q <> pid).
  { intros a' R' F' HPm. assert (N' := N). rewrite HPm in N'. apply NoDup_cons in N' as [N1 N2]. split.
    - split; auto. intros H0. apply Z0. rewrite HPm. by right.
    - intros q. rewrite HPm, elem_of_cons. split; [intros Hq; split; [auto | congruence] | intros [[->|] ?]; done]. }
  unfold attese_togli. destruct (Z.eqb_spec (uno a) pid) as [E|E].
  - destruct (att_n a) as [|n] eqn:En.
    + apply HP; [simpl; lia | done |]. unfold attesi. simpl. rewrite En, E, (proj2 (Z.eqb_neq pid 0) Hp). done.
    + unfold posti in R.
      assert (Hln : altri a !! n = Some (nth n (altri a) 0)) by (by destruct (nth_lookup_or_length (altri a) n 0); [|lia]).
      assert (Hnz : nth n (altri a) 0 <> 0).
      { intros F0. apply Z0. unfold attesi. rewrite En, (take_S_r _ _ _ Hln), F0. set_solver. }
      apply HP; [unfold posti; simpl; lia | simpl; intros; done |].
      unfold attesi. simpl. rewrite En, E, (take_S_r _ _ _ Hln), (proj2 (Z.eqb_neq pid 0) Hp), (proj2 (Z.eqb_neq _ 0) Hnz).
      simpl. by rewrite Permutation_app_comm.
  - pose proof (posto_di_spec (altri a) pid 0 (att_n a)) as HD.
    destruct (posto_di (altri a) pid 0 (att_n a)) as [i|].
    + destruct HD as [Hi Hv]. unfold posti in R. destruct (att_n a) as [|n] eqn:En; [lia|].
      replace (S n - 1)%nat with n by lia.
      assert (U0 : uno a <> 0) by (intros U; specialize (F U); lia).
      apply HP; [unfold posti; simpl; rewrite length_insert; lia | simpl; intros; done |].
      unfold attesi. simpl. rewrite En, (proj2 (Z.eqb_neq _ 0) U0).
      rewrite (take_swap_last (altri a) i n) by lia. rewrite Hv. solve_Permutation.
    + split; [done|]. intros q. split; [|tauto]. intros Hq. split; [done|]. intros ->.
      unfold attesi in Hq. apply elem_of_app in Hq as [Hq|Hq].
      * destruct (uno a =? 0); [by apply elem_of_nil in Hq | apply list_elem_of_singleton in Hq; congruence].
      * apply list_elem_of_lookup in Hq as (j & Hj). apply lookup_take_Some in Hj as [Hj Hlt].
        apply (HD j); [lia|]. by apply nth_lookup_Some.
Qed.

Lemma sveglia_spec a :
  att_ok a -> attese_sveglia_locked a = (attesi a, mkAttese 0 (altri a) 0) /\
  att_ok (mkAttese 0 (altri a) 0) /\ attesi (mkAttese 0 (altri a) 0) = [].
Proof.
  intros [R F N Z0]. split; [done|]. split; [|done].
  split; simpl; [lia | done | constructor | apply not_elem_of_nil].
Qed.

Lemma installa_spec nuovo a :
  att_ok a -> att_ok (attese_cresci_installa nuovo a) /\ attesi (attese_cresci_installa nuovo a) = attesi a.
Proof.
  intros A. unfold attese_cresci_installa. destruct (Nat.ltb_spec (posti a) (length nuovo)) as [Hl|]; [|done].
  assert (E : attesi (mkAttese (uno a) (take (att_n a) (altri a) ++ drop (att_n a) nuovo) (att_n a)) = attesi a).
  { unfold attesi. simpl. f_equal. pose proof (ao_room a A). unfold posti in *.
    rewrite take_app_le by (rewrite length_take; lia). rewrite take_take. f_equal. lia. }
  split; [|done]. destruct A as [R F N Z0]. unfold posti in *. split; rewrite ?E; auto. simpl.
  unfold posti. simpl. rewrite length_app, length_take, length_drop. lia.
Qed.

(** After growing there is room for one more. *)
Lemma installa_room nuovo a :
  att_ok a -> length nuovo = attese_cresci_chiedi a ->
  (att_n (attese_cresci_installa nuovo a) < posti (attese_cresci_installa nuovo a))%nat.
Proof.
  intros [R _ _ _] Hl. unfold attese_cresci_installa, attese_cresci_chiedi in *. rewrite Hl.
  assert (Hlt : (posti a < (if (posti a =? 0)%nat then 8 else posti a * 2))%nat)
    by (destruct (Nat.eqb_spec (posti a) 0); lia).
  rewrite (proj2 (Nat.ltb_lt _ _) Hlt). unfold posti in *. simpl.
  rewrite length_app, length_take, length_drop, Hl. lia.
Qed.
