(* ===== verification/Pipe.v ===== *)
(** * Pipes (kernel/ipc/pipe.c)

    The table of pipes, with the set of processes asleep in a read or a write.  A
    stretch of code between [interrupts_disable] and [interrupts_enable] is one
    function here; [pipe_crea], which also works outside of them, is a sequence of
    steps ([crea_passo]), and a blocking call is a loop of rounds ([pipe_leggi_giro],
    [pipe_scrivi_giro]) whose outcome says whether the call returns, goes to
    sleep or has to make room among the waiters first. *)

From S2P Require Import Prelude Attese.

Definition PIPE_DIM : Z := 4096.
Definition PIPE_TRANCHE : Z := 1024.

Record Pipe : Type := mkPipe {
  usata : bool;
  testa : Z;
  quanti : Z;
  lettori : Z;
  scrittori : Z;
  att_lettori : Attese;
  att_scrittori : Attese;
  buf : list Z
}.

(** [g_pipe_dir], an array allocated for [g_pipe_dir_posti] pointers, the first [g_pipe_n] of them
    in use; [dormono] are the pids asleep in the [sched_block] of [pipe_leggi] and
    [pipe_scrivi]. *)
Record Tabella : Type := mkTab {
  g_pipe : list Pipe;
  g_pipe_dir_posti : Z;
  dormono : gset Z
}.

Definition g_pipe_n (s : Tabella) : Z := Z.of_nat (length (g_pipe s)).

Definition set_ring (t q : Z) (b : list Z) (p : Pipe) : Pipe :=
  mkPipe (usata p) t q (lettori p) (scrittori p) (att_lettori p) (att_scrittori p) b.

Definition set_ends (l s : Z) (p : Pipe) : Pipe :=
  mkPipe (usata p) (testa p) (quanti p) l s (att_lettori p) (att_scrittori p) (buf p).

Definition set_att (al as_ : Attese) (p : Pipe) : Pipe :=
  mkPipe (usata p) (testa p) (quanti p) (lettori p) (scrittori p) al as_ (buf p).

Definition set_pipe (h : Z) (p : Pipe) (s : Tabella) : Tabella :=
  mkTab (<[Z.to_nat h := p]> (g_pipe s)) (g_pipe_dir_posti s) (dormono s).

(** [sched_unblock_locked] on each pid: those not asleep are left alone. *)
Definition sveglia (pids : list Z) (s : Tabella) : Tabella :=
  mkTab (g_pipe s) (g_pipe_dir_posti s) (dormono s ∖ list_to_set pids).

Definition addormenta (pid : Z) (s : Tabella) : Tabella :=
  mkTab (g_pipe s) (g_pipe_dir_posti s) ({[pid]} ∪ dormono s).

(** ** Handles *)

Definition nessuno (a : Attese) : Attese := mkAttese 0 (altri a) 0.

Definition pipe_libera_se_orfana (p : Pipe) : Pipe :=
  if (lettori p =? 0) && (scrittori p =? 0)
  then mkPipe false 0 0 (lettori p) (scrittori p) (nessuno (att_lettori p)) (nessuno (att_scrittori p)) (buf p)
  else p.

Definition pipe_da_handle (h : Z) (s : Tabella) : option Pipe :=
  if (h <? 0) || (g_pipe_n s <=? h) then None else
  match g_pipe s !! Z.to_nat h with
  | Some p => if usata p then Some p else None
  | None => None
  end.

(** ** Creation *)

Fixpoint primo_libero (l : list Pipe) (h : Z) : option Z :=
  match l with
  | [] => None
  | p :: l => if usata p then primo_libero l (h + 1) else Some h
  end.

(** A pipe is born with one reader and one writer. *)
Definition pipe_nasce (p : Pipe) : Pipe :=
  mkPipe true 0 0 1 1 (nessuno (att_lettori p)) (nessuno (att_scrittori p)) (buf p).

(** The allocated structure: zeroed but for the buffer, which keeps the bytes
    [sporco] found in memory. *)
Definition pipe_nuova (sporco : list Z) : Pipe :=
  mkPipe false 0 0 0 0 (mkAttese 0 [] 0) (mkAttese 0 [] 0) sporco.

(** [pipe_crea] runs with interrupts on but for two stretches; between them it
    calls [kmalloc] twice and reads the two sizes of the directory without a
    lock.  Where a creator is between two steps, with what its local variables
    hold: the bytes of [nuova], the [g_pipe_n] it read, the [posti] of the
    directory it asked for ([Some posti] if it was allocated). *)
Inductive crea_pc : Type :=
| CreaCerca
| CreaAlloca
| CreaLeggeN (sporco : list Z)
| CreaLeggePosti (sporco : list Z) (n : Z)
| CreaRaddoppia (sporco : list Z)
| CreaDir (sporco : list Z) (posti : Z)
| CreaMette (sporco : list Z) (dir : option Z)
| CreaTorna (ret : Z).

(** The first stretch: an unused pipe, taken. *)
Definition pipe_crea_cerca (s : Tabella) : option Z * Tabella :=
  match primo_libero (g_pipe s) 0 with
  | Some h =>
      match g_pipe s !! Z.to_nat h with
      | Some p => (Some h, set_pipe h (pipe_nasce p) s)
      | None => (None, s)
      end
  | None => (None, s)
  end.

(** [posti] from a read of [g_pipe_dir_posti]. *)
Definition pipe_crea_posti (posti : Z) : Z := if posti =? 0 then 16 else u32 (posti * 2).

(** The pointers that fit in what is asked of [kmalloc]: [posti] of four bytes
    each, a product of 32 bits. *)
Definition capienza (posti : Z) : Z := u32 (posti * 4) / 4.

(** [if (g_pipe_n < g_pipe_dir_posti) ...]; [None] is a write outside the
    directory. *)
Definition pipe_crea_aggiunge (sporco : list Z) (s : Tabella) : option Tabella :=
  if g_pipe_n s <? g_pipe_dir_posti s then
    if capienza (g_pipe_dir_posti s) <=? g_pipe_n s then None
    else Some (mkTab (g_pipe s ++ [pipe_nuova sporco]) (g_pipe_dir_posti s) (dormono s))
  else Some s.

(** The second stretch: with a directory [dir] of [posti] places, if the one in
    use is still full its pointers are copied into [dir], which takes its place;
    then the new pipe is added if there is room. *)
Definition pipe_crea_mette (sporco : list Z) (dir : option Z) (s : Tabella) : option Tabella :=
  match dir with
  | Some posti =>
      if g_pipe_dir_posti s <=? g_pipe_n s then
        if capienza posti <? g_pipe_n s then None
        else pipe_crea_aggiunge sporco (mkTab (g_pipe s) posti (dormono s))
      else pipe_crea_aggiunge sporco s
  | None => pipe_crea_aggiunge sporco s
  end.

(** One step of a creator, during which nobody else runs: a stretch with
    interrupts off, a call of [kmalloc] (whose answer is [memoria], and whose
    block holds the bytes [sporco]), or the read of a word. *)
Definition crea_passo (memoria : bool) (sporco : list Z) (pc : crea_pc) (s : Tabella)
  : option (crea_pc * Tabella) :=
  match pc with
  | CreaCerca =>
      match pipe_crea_cerca s with
      | (Some h, s) => Some (CreaTorna h, s)
      | (None, s) => Some (CreaAlloca, s)
      end
  | CreaAlloca => Some (if memoria then CreaLeggeN sporco else CreaTorna (- ENFILE), s)
  | CreaLeggeN b => Some (CreaLeggePosti b (g_pipe_n s), s)
  | CreaLeggePosti b n => Some (if g_pipe_dir_posti s <=? n then CreaRaddoppia b else CreaMette b None, s)
  | CreaRaddoppia b => Some (CreaDir b (pipe_crea_posti (g_pipe_dir_posti s)), s)
  | CreaDir b posti => Some (if memoria then CreaMette b (Some posti) else CreaTorna (- ENFILE), s)
  | CreaMette b dir =>
      match pipe_crea_mette b dir s with
      | Some s => Some (CreaCerca, s)
      | None => None
      end
  | CreaTorna r => Some (CreaTorna r, s)
  end.

(** The whole call when nobody else runs; [Ok None] is a write outside the
    directory. *)
Fixpoint crea_corri (memoria memoria_dir : bool) (sporco : list Z) (n : nat) (pc : crea_pc) (s : Tabella)
  : run (option (Z * Tabella)) :=
  match pc with
  | CreaTorna r => Ok (Some (r, s))
  | _ =>
      match n with
      | O => NoFuel
      | S n =>
          match crea_passo (match pc with CreaDir _ _ => memoria_dir | _ => memoria end) sporco pc s with
          | Some (pc, s) => crea_corri memoria memoria_dir sporco n pc s
          | None => Ok None
          end
      end
  end.

Definition pipe_crea (memoria memoria_dir : bool) (sporco : list Z) (n : nat) (s : Tabella) : run (option (Z * Tabella)) :=
  crea_corri memoria memoria_dir sporco n CreaCerca s.

(** ** Opening and closing ends *)

Definition pipe_apri_lettore (h : Z) (s : Tabella) : Tabella :=
  match pipe_da_handle h s with
  | None => s
  | Some p => set_pipe h (set_ends (u32 (lettori p + 1)) (scrittori p) p) s
  end.

Definition pipe_apri_scrittore (h : Z) (s : Tabella) : Tabella :=
  match pipe_da_handle h s with
  | None => s
  | Some p => set_pipe h (set_ends (lettori p) (u32 (scrittori p + 1)) p) s
  end.

Definition pipe_chiudi_lettore_locked (h : Z) (s : Tabella) : Tabella :=
  match pipe_da_handle h s with
  | None => s
  | Some p =>
      let p := if 0 <? lettori p then set_ends (lettori p - 1) (scrittori p) p else p in
      let '(svegli, p) :=
        if lettori p =? 0 then
          let '(w, a) := attese_sveglia_locked (att_scrittori p) in (w, set_att (att_lettori p) a p)
        else ([], p) in
      sveglia svegli (set_pipe h (pipe_libera_se_orfana p) s)
  end.

Definition pipe_chiudi_scrittore_locked (h : Z) (s : Tabella) : Tabella :=
  match pipe_da_handle h s with
  | None => s
  | Some p =>
      let p := if 0 <? scrittori p then set_ends (lettori p) (scrittori p - 1) p else p in
      let '(svegli, p) :=
        if scrittori p =? 0 then
          let '(w, a) := attese_sveglia_locked (att_lettori p) in (w, set_att a (att_scrittori p) p)
        else ([], p) in
      sveglia svegli (set_pipe h (pipe_libera_se_orfana p) s)
  end.

Definition pipe_disponibili (h : Z) (s : Tabella) : Z :=
  match pipe_da_handle h s with Some p => quanti p | None => - EBADF end.

(** (quanti, spazio, lettori, scrittori), or [None] for -EBADF. *)
Definition pipe_stato_locked (h : Z) (s : Tabella) : option (Z * Z * Z * Z) :=
  match pipe_da_handle h s with
  | Some p => Some (quanti p, PIPE_DIM - quanti p, lettori p, scrittori p)
  | None => None
  end.

Definition pipe_attesa_registra_locked (h : Z) (per_lettura : bool) (pid : Z) (s : Tabella) : bool * Tabella :=
  match pipe_da_handle h s with
  | None => (false, s)
  | Some p =>
      if per_lettura then
        let '(r, a) := attese_metti (att_lettori p) pid in (r, set_pipe h (set_att a (att_scrittori p) p) s)
      else
        let '(r, a) := attese_metti (att_scrittori p) pid in (r, set_pipe h (set_att (att_lettori p) a p) s)
  end.

Definition pipe_attesa_togli_locked (h : Z) (per_lettura : bool) (pid : Z) (s : Tabella) : Tabella :=
  match pipe_da_handle h s with
  | None => s
  | Some p =>
      if per_lettura then set_pipe h (set_att (attese_togli (att_lettori p) pid) (att_scrittori p) p) s
      else set_pipe h (set_att (att_lettori p) (attese_togli (att_scrittori p) pid) p) s
  end.

(** ** Reading and writing *)

(** [appoggio[i] = p->buf[(p->testa + i) % PIPE_DIM]] for [i] to [i + n - 1]. *)
Fixpoint copia_fuori (b : list Z) (t i : Z) (n : nat) : list Z :=
  match n with
  | O => []
  | S n => nth (Z.to_nat ((t + i) mod PIPE_DIM)) b 0 :: copia_fuori b t (i + 1) n
  end.

(** [p->buf[(inizio + i) % PIPE_DIM] = appoggio[i]]. *)
Fixpoint copia_dentro (b : list Z) (inizio i : Z) (dati : list Z) : list Z :=
  match dati with
  | [] => b
  | x :: dati => copia_dentro (<[Z.to_nat ((inizio + i) mod PIPE_DIM) := x]> b) inizio (i + 1) dati
  end.

(** The outcome of one round: the call returns [ret] (with the bytes read),
    the caller sleeps, or the list of waiters has to grow first. *)
Inductive esito : Type :=
| Torna (ret : Z) (byte : list Z)
| Dorme
| Cresce.

(** The end of [pipe_leggi], with interrupts off and data in the ring. *)
Definition pipe_prendi (h n : Z) (p : Pipe) (s : Tabella) : esito * Tabella :=
  let presi := if n <? quanti p then n else quanti p in
  let appoggio := copia_fuori (buf p) (testa p) 0 (Z.to_nat presi) in
  let p := set_ring ((testa p + presi) mod PIPE_DIM) (quanti p - presi) (buf p) p in
  let '(w, a) := attese_sveglia_locked (att_scrittori p) in
  (Torna presi appoggio, sveglia w (set_pipe h (set_att (att_lettori p) a p) s)).

(** One round of the loop of [pipe_leggi]; [cur] is [proc_get_current()]. *)
Definition pipe_leggi_giro (h n : Z) (nonblocca : bool) (cur : option Z) (s : Tabella) : esito * Tabella :=
  match pipe_da_handle h s with
  | None => (Torna (- EBADF) [], s)
  | Some p =>
      if 0 <? quanti p then pipe_prendi h n p s else
      if scrittori p =? 0 then (Torna 0 [], s) else
      if nonblocca then (Torna (- EAGAIN) [], s) else
      match cur with
      | None => (Torna (- EAGAIN) [], s)
      | Some pid =>
          let '(r, a) := attese_metti (att_lettori p) pid in
          if negb r then (Cresce, s)
          else (Dorme, addormenta pid (set_pipe h (set_att a (att_scrittori p) p) s))
      end
  end.

(** The end of [pipe_scrivi], with interrupts off and room in the ring. *)
Definition pipe_metti (h : Z) (dati : list Z) (p : Pipe) (s : Tabella) : esito * Tabella :=
  let n := Z.of_nat (length dati) in
  let spazio := PIPE_DIM - quanti p in
  let messi := if n <? spazio then n else spazio in
  let inizio := (testa p + quanti p) mod PIPE_DIM in
  let p := set_ring (testa p) (quanti p + messi) (copia_dentro (buf p) inizio 0 (take (Z.to_nat messi) dati)) p in
  let '(w, a) := attese_sveglia_locked (att_lettori p) in
  (Torna messi [], sveglia w (set_pipe h (set_att a (att_scrittori p) p) s)).

Definition pipe_scrivi_giro (h : Z) (dati : list Z) (nonblocca : bool) (cur : option Z) (s : Tabella)
  : esito * Tabella :=
  match pipe_da_handle h s with
  | None => (Torna (- EBADF) [], s)
  | Some p =>
      if lettori p =? 0 then (Torna (- EPIPE) [], s) else
      if quanti p <? PIPE_DIM then pipe_metti h dati p s else
      if nonblocca then (Torna (- EAGAIN) [], s) else
      match cur with
      | None => (Torna (- EAGAIN) [], s)
      | Some pid =>
          let '(r, a) := attese_metti (att_scrittori p) pid in
          if negb r then (Cresce, s)
          else (Dorme, addormenta pid (set_pipe h (set_att (att_lettori p) a p) s))
      end
  end.

(** What the calls do before the loop: nothing to do for no bytes, and at most
    [PIPE_TRANCHE] of them. *)
Definition pipe_leggi_entra (n : Z) : option Z :=
  if n =? 0 then None else Some (if PIPE_TRANCHE <? n then PIPE_TRANCHE else n).

Definition pipe_scrivi_entra (dati : list Z) : option (list Z) :=
  if Z.of_nat (length dati) =? 0 then None
  else Some (take (Z.to_nat PIPE_TRANCHE) dati).

(** [attese_cresci] on one side of a pipe found before by its handle. *)
Definition pipe_cresci (h : Z) (per_lettura : bool) (nuovo : list Z) (s : Tabella) : Tabella :=
  if h <? 0 then s else
  match g_pipe s !! Z.to_nat h with
  | None => s
  | Some p =>
      if per_lettura then set_pipe h (set_att (attese_cresci_installa nuovo (att_lettori p)) (att_scrittori p) p) s
      else set_pipe h (set_att (att_lettori p) (attese_cresci_installa nuovo (att_scrittori p)) p) s
  end.
