(* ===== verification/PipeSpec.v ===== *)
(** * Pipes: the ring is a queue

    The content of a pipe is the list [contenuto] of the bytes between [testa]
    and [testa + quanti] on the ring.  Reading takes a prefix of it, writing
    appends to it; the table invariant [tab_ok] is kept by every operation. *)

From S2P Require Import Prelude Attese Pipe.

Definition contenuto (p : Pipe) : list Z := copia_fuori (buf p) (testa p) 0 (Z.to_nat (quanti p)).

Record pipe_ok (p : Pipe) : Prop := {
  po_testa : 0 <= testa p < PIPE_DIM;
  po_quanti : 0 <= quanti p <= PIPE_DIM;
  po_buf : Z.of_nat (length (buf p)) = PIPE_DIM;
  po_ends : 0 <= lettori p < W32 /\ 0 <= scrittori p < W32;
  po_attl : att_ok (att_lettori p);
  po_atts : att_ok (att_scrittori p)
}.

(** ** The ring *)

Lemma length_fuori b t i n : length (copia_fuori b t i n) = n.
Proof. revert i. induction n as [|n IH]; intros i; simpl; [done | by rewrite IH]. Qed.

Lemma fuori_app b t i n m :
  copia_fuori b t i (n + m) = copia_fuori b t i n ++ copia_fuori b t (i + Z.of_nat n) m.
Proof.
  revert i. induction n as [|n IH]; intros i; simpl; [f_equal; lia|].
  rewrite IH. f_equal. f_equal. f_equal. lia.
Qed.

Lemma fuori_shift b t k i n : copia_fuori b ((t + k) mod PIPE_DIM) i n = copia_fuori b t (k + i) n.
Proof.
  revert i. induction n as [|n IH]; intros i; simpl; [done|]. f_equal.
  - f_equal. f_equal. rewrite Zplus_mod_idemp_l. f_equal. lia.
  - rewrite IH. f_equal. lia.
Qed.

Lemma fuori_ext b b' t i n :
  (forall x, i <= x < i + Z.of_nat n ->
     nth (Z.to_nat ((t + x) mod PIPE_DIM)) b' 0 = nth (Z.to_nat ((t + x) mod PIPE_DIM)) b 0) ->
  copia_fuori b' t i n = copia_fuori b t i n.
Proof.
  revert i. induction n as [|n IH]; intros i Hx; simpl; [done|].
  rewrite Hx by lia. f_equal. apply IH. intros; apply Hx; lia.
Qed.

Lemma length_dentro b s i d : length (copia_dentro b s i d) = length b.
Proof. revert b i. induction d as [|x d IH]; intros b i; simpl; [done|]. by rewrite IH, length_insert. Qed.

(** What a slot holds after the copy: the byte whose distance from the start
    of the copy is its index, or what it held. *)
Lemma nth_dentro d : forall b s i x,
  Z.of_nat (length b) = PIPE_DIM -> Z.of_nat (length d) <= PIPE_DIM -> 0 <= x < PIPE_DIM ->
  let k := (x - (s + i)) mod PIPE_DIM in
  nth (Z.to_nat x) (copia_dentro b s i d) 0 =
  if k <? Z.of_nat (length d) then nth (Z.to_nat k) d 0 else nth (Z.to_nat x) b 0.
Proof.
  induction d as [|y d IH]; intros b s i x Hb Hd Hx k; cbn [copia_dentro length].
  { unfold k, PIPE_DIM. destruct (Z.ltb_spec ((x - (s + i)) mod 4096) (Z.of_nat 0)); [zdm | done]. }
  assert (Hk : 0 <= k < PIPE_DIM) by (unfold k, PIPE_DIM; zdm).
  cbn [length] in Hd. rewrite IH by (rewrite ?length_insert; lia).
  set (k' := (x - (s + (i + 1))) mod PIPE_DIM).
  assert (Hy : 0 <= (s + i) mod PIPE_DIM < PIPE_DIM) by (unfold PIPE_DIM; zdm).
  destruct (Z.eq_dec k 0) as [E|E].
  - assert (Ex : x = (s + i) mod PIPE_DIM) by (unfold k, PIPE_DIM in *; zdm).
    assert (Ek : k' = PIPE_DIM - 1) by (unfold k', k, PIPE_DIM in *; zdm).
    rewrite (proj2 (Z.ltb_ge k' _)) by lia. rewrite E, (proj2 (Z.ltb_lt _ _)) by lia. simpl.
    rewrite <- Ex. rewrite !nth_lookup. rewrite list_lookup_insert_eq by lia. done.
  - assert (Ek : k' = k - 1) by (unfold k', k, PIPE_DIM in *; zdm).
    rewrite Ek. destruct (Z.ltb_spec (k - 1) (Z.of_nat (length d))).
    + rewrite (proj2 (Z.ltb_lt _ _)) by lia. replace (Z.to_nat k) with (S (Z.to_nat (k - 1))) by lia. done.
    + rewrite (proj2 (Z.ltb_ge _ _)) by lia. rewrite !nth_lookup. rewrite list_lookup_insert_ne; [done|].
      intros F. apply E. unfold k, PIPE_DIM in *. zdm.
Qed.

Lemma fuori_list b t i d :
  (forall j, 0 <= j < Z.of_nat (length d) -> nth (Z.to_nat ((t + (i + j)) mod PIPE_DIM)) b 0 = nth (Z.to_nat j) d 0) ->
  copia_fuori b t i (length d) = d.
Proof.
  revert i. induction d as [|y d IH]; intros i Hj; simpl; [done|]. f_equal.
  - specialize (Hj 0 ltac:(simpl; lia)). rewrite Z.add_0_r in Hj. done.
  - apply IH. intros j Hj'. specialize (Hj (j + 1) ltac:(simpl; lia)).
    replace (Z.to_nat (j + 1)) with (S (Z.to_nat j)) in Hj by lia. simpl in Hj. rewrite <- Hj. do 3 f_equal. lia.
Qed.

(** Appending to the ring. *)
Lemma ring_append b t q d :
  Z.of_nat (length b) = PIPE_DIM -> 0 <= q -> q + Z.of_nat (length d) <= PIPE_DIM ->
  copia_fuori (copia_dentro b ((t + q) mod PIPE_DIM) 0 d) t 0 (Z.to_nat (q + Z.of_nat (length d))) =
  copia_fuori b t 0 (Z.to_nat q) ++ d.
Proof.
  intros Hb Hq Hd. replace (Z.to_nat (q + Z.of_nat (length d))) with (Z.to_nat q + length d)%nat by lia.
  rewrite fuori_app. rewrite Z2Nat.id by lia. f_equal.
  - apply fuori_ext. intros x Hx. rewrite nth_dentro by (unfold PIPE_DIM in *; try zdm; lia).
    rewrite (proj2 (Z.ltb_ge _ _)); [done|]. unfold PIPE_DIM in *. zdm.
  - apply fuori_list. intros j Hj. rewrite nth_dentro by (unfold PIPE_DIM in *; try zdm; lia).
    assert (E : ((t + (0 + q + j)) mod PIPE_DIM - ((t + q) mod PIPE_DIM + 0)) mod PIPE_DIM = j) by (unfold PIPE_DIM in *; zdm).
    replace (0 + q + j) with (q + j) in E by lia. replace (t + (0 + q + j)) with (t + (q + j)) by lia || idtac.
    rewrite E, (proj2 (Z.ltb_lt _ _)) by lia. done.
Qed.

Lemma contenuto_length p : pipe_ok p -> Z.of_nat (length (contenuto p)) = quanti p.
Proof. intros O. unfold contenuto. rewrite length_fuori. pose proof (po_quanti p O). lia. Qed.

(** * Pipes: any number of processes, any interleaving

    The processes are interleaved at the granularity of the code: a step is one
    stretch with interrupts off.  The state carries, beside the table, what was
    written to and read from each pipe since its creation.  Every reachable
    state satisfies [sys_ok]: each pipe is a queue of the bytes written and not
    yet read, and every sleeping process is registered with a pipe whose state
    still justifies the sleep, so the event it waits for will wake it. *)


(** The reason a registered process has to sleep. *)
Definition attende (p : Pipe) (pid : Z) : Prop :=
  (pid ∈ attesi (att_lettori p) /\ quanti p = 0 /\ 0 < scrittori p) \/
  (pid ∈ attesi (att_scrittori p) /\ quanti p = PIPE_DIM /\ 0 < lettori p).

Definition in_attesa (s : Tabella) (pid : Z) : Prop :=
  exists h p, g_pipe s !! h = Some p /\ usata p = true /\ attende p pid.

(** The table with the history of each handle. *)
Record Sys : Type := mkSys { tab : Tabella; scritti : Z -> list Z; letti : Z -> list Z }.

Definition aggiorna (f : Z -> list Z) (h : Z) (v : list Z) : Z -> list Z :=
  fun k => if k =? h then v else f k.

Record sys_ok (s : Sys) : Prop := {
  so_pipes : forall h p, g_pipe (tab s) !! h = Some p -> pipe_ok p;
  so_fifo : forall h p, g_pipe (tab s) !! Z.to_nat h = Some p -> 0 <= h -> usata p = true ->
    scritti s h = letti s h ++ contenuto p;
  so_sleep : forall pid, pid ∈ dormono (tab s) -> in_attesa (tab s) pid
}.

(** The bytes a write took, from what the call returned. *)
Definition messi_di (e : esito) (dati : list Z) : list Z :=
  match e with Torna r _ => take (Z.to_nat r) dati | _ => [] end.

Definition presi_di (e : esito) : list Z := match e with Torna _ b => b | _ => [] end.

(** The stretches with interrupts off of every call but [pipe_crea], each by a
    process that is awake; [ps_segnale] is a wake-up by anybody else.  The ends of
    a pipe are fewer than 2^32. *)
Inductive pstep : Sys -> Sys -> Prop :=
| ps_apri_lettore s h :
    (forall p, pipe_da_handle h (tab s) = Some p -> lettori p < W32 - 1) ->
    pstep s (mkSys (pipe_apri_lettore h (tab s)) (scritti s) (letti s))
| ps_apri_scrittore s h :
    (forall p, pipe_da_handle h (tab s) = Some p -> scrittori p < W32 - 1) ->
    pstep s (mkSys (pipe_apri_scrittore h (tab s)) (scritti s) (letti s))
| ps_chiudi_lettore s h : pstep s (mkSys (pipe_chiudi_lettore_locked h (tab s)) (scritti s) (letti s))
| ps_chiudi_scrittore s h : pstep s (mkSys (pipe_chiudi_scrittore_locked h (tab s)) (scritti s) (letti s))
| ps_registra s h per_lettura pid :
    pid <> 0 -> pstep s (mkSys (snd (pipe_attesa_registra_locked h per_lettura pid (tab s))) (scritti s) (letti s))
| ps_togli s h per_lettura pid :
    pid <> 0 -> pid ∉ dormono (tab s) ->
    pstep s (mkSys (pipe_attesa_togli_locked h per_lettura pid (tab s)) (scritti s) (letti s))
| ps_leggi s pid h n nonblocca e t' :
    pid <> 0 -> pid ∉ dormono (tab s) -> 0 < n <= PIPE_TRANCHE ->
    pipe_leggi_giro h n nonblocca (Some pid) (tab s) = (e, t') ->
    pstep s (mkSys t' (scritti s) (aggiorna (letti s) h (letti s h ++ presi_di e)))
| ps_scrivi s pid h dati nonblocca e t' :
    pid <> 0 -> pid ∉ dormono (tab s) -> 0 < Z.of_nat (length dati) <= PIPE_TRANCHE ->
    pipe_scrivi_giro h dati nonblocca (Some pid) (tab s) = (e, t') ->
    pstep s (mkSys t' (aggiorna (scritti s) h (scritti s h ++ messi_di e dati)) (letti s))
| ps_cresci s h per_lettura nuovo : pstep s (mkSys (pipe_cresci h per_lettura nuovo (tab s)) (scritti s) (letti s))
| ps_segnale s pid : pstep s (mkSys (sveglia [pid] (tab s)) (scritti s) (letti s)).

(** ** One pipe changes *)

Lemma da_handle_Some h s p :
  pipe_da_handle h s = Some p -> 0 <= h /\ g_pipe s !! Z.to_nat h = Some p /\ usata p = true.
Proof.
  unfold pipe_da_handle. destruct (Z.ltb_spec h 0); [done|]. simpl. destruct (_ <=? _); [done|].
  destruct (g_pipe s !! Z.to_nat h) as [q|]; [|done]. destruct (usata q) eqn:E; [|done]. intros [= ->]. done.
Qed.

(** The effect on the invariant of replacing pipe [h] and waking some sleepers:
    what the operation must show. *)
Lemma sys_ok_set s h p p' d sc le :
  sys_ok s -> 0 <= h -> g_pipe (tab s) !! Z.to_nat h = Some p -> pipe_ok p' ->
  (usata p' = true -> sc h = le h ++ contenuto p') ->
  (forall k, k <> h -> sc k = scritti s k /\ le k = letti s k) ->
  (forall pid, pid ∈ d -> in_attesa (tab s) pid \/ (usata p' = true /\ attende p' pid)) ->
  (forall pid, pid ∈ d -> usata p = true -> attende p pid -> usata p' = true /\ attende p' pid) ->
  sys_ok (mkSys (mkTab (<[Z.to_nat h := p']> (g_pipe (tab s))) (g_pipe_dir_posti (tab s)) d) sc le).
Proof.
  intros [O Q W] Hh Hp Op Hq Hlog Hd Ha. assert (Hlen := lookup_lt_Some _ _ _ Hp). split; cbn [tab g_pipe dormono scritti letti].
  - intros k q Hk. apply list_lookup_insert_Some in Hk as [(<- & <- & _)|[_ Hk]]; [done | by eapply O].
  - intros k q Hk Hk0 Uk. apply list_lookup_insert_Some in Hk as [(Ek & <- & _)|[Nk Hk]].
    + assert (k = h) as -> by lia. auto.
    + destruct (Hlog k) as [-> ->]; [intros ->; done|]. by apply Q.
  - intros pid Hpid. unfold in_attesa. cbn [g_pipe]. destruct (Hd pid Hpid) as [(k & q & Hk & Uk & Ak)|[U A]].
    + destruct (decide (k = Z.to_nat h)) as [->|Nk].
      * rewrite Hp in Hk. injection Hk as <-. destruct (Ha pid Hpid Uk Ak) as [U A].
        exists (Z.to_nat h), p'. split_and!; auto. by apply list_lookup_insert_eq.
      * exists k, q. split_and!; auto. by rewrite list_lookup_insert_ne.
    + exists (Z.to_nat h), p'. split_and!; auto. by apply list_lookup_insert_eq.
Qed.

(** The histories are unchanged. *)
Lemma sys_ok_set_same s h p p' d :
  sys_ok s -> 0 <= h -> g_pipe (tab s) !! Z.to_nat h = Some p -> pipe_ok p' ->
  (usata p' = true -> usata p = true /\ contenuto p' = contenuto p) ->
  d ⊆ dormono (tab s) ->
  (forall pid, pid ∈ d -> usata p = true -> attende p pid -> usata p' = true /\ attende p' pid) ->
  sys_ok (mkSys (mkTab (<[Z.to_nat h := p']> (g_pipe (tab s))) (g_pipe_dir_posti (tab s)) d) (scritti s) (letti s)).
Proof.
  intros I Hh Hp Op Hq Hd Ha. eapply sys_ok_set; eauto.
  - intros U. destruct (Hq U) as [U' ->]. by apply (so_fifo s I).
  - intros pid Hpid. left. by apply (so_sleep s I), Hd.
Qed.

Lemma pipe_ok_da s h p : sys_ok s -> pipe_da_handle h (tab s) = Some p -> pipe_ok p.
Proof. intros I E. apply da_handle_Some in E as (_ & E & _). by apply (so_pipes s I _ _ E). Qed.

(** ** Each step *)

Lemma nessuno_ok a : att_ok a -> att_ok (nessuno a).
Proof. intros A. by apply sveglia_spec. Qed.

Lemma orfana_ok p : pipe_ok p -> pipe_ok (pipe_libera_se_orfana p).
Proof.
  intros [P1 P2 P3 P4 P5 P6]. unfold pipe_libera_se_orfana. destruct (_ && _); [|by split].
  split; simpl; auto using nessuno_ok; unfold PIPE_DIM; lia.
Qed.

Lemma step_apri_lettore s h :
  sys_ok s -> (forall p, pipe_da_handle h (tab s) = Some p -> lettori p < W32 - 1) ->
  sys_ok (mkSys (pipe_apri_lettore h (tab s)) (scritti s) (letti s)).
Proof.
  intros I Hw. unfold pipe_apri_lettore. destruct (pipe_da_handle h (tab s)) as [p|] eqn:E; [|by destruct s].
  assert (Op := pipe_ok_da _ _ _ I E). specialize (Hw p eq_refl). apply da_handle_Some in E as (Hh & E & U).
  destruct Op as [P1 P2 P3 [P4 P4'] P5 P6]. rewrite u32_small by lia.
  eapply sys_ok_set_same; eauto; [split; simpl; auto; lia|].
  intros pid _ _ [A|(A1 & A2 & A3)]; (split; [done|]); [by left | right; simpl; split_and!; auto; lia].
Qed.

Lemma step_apri_scrittore s h :
  sys_ok s -> (forall p, pipe_da_handle h (tab s) = Some p -> scrittori p < W32 - 1) ->
  sys_ok (mkSys (pipe_apri_scrittore h (tab s)) (scritti s) (letti s)).
Proof.
  intros I Hw. unfold pipe_apri_scrittore. destruct (pipe_da_handle h (tab s)) as [p|] eqn:E; [|by destruct s].
  assert (Op := pipe_ok_da _ _ _ I E). specialize (Hw p eq_refl). apply da_handle_Some in E as (Hh & E & U).
  destruct Op as [P1 P2 P3 [P4 P4'] P5 P6]. rewrite u32_small by lia.
  eapply sys_ok_set_same; eauto; [split; simpl; auto; lia|].
  intros pid _ _ [(A1 & A2 & A3)|A]; (split; [done|]); [left; simpl; split_and!; auto; lia | by right].
Qed.

Lemma not_in_diff (d : gset Z) l pid : pid ∈ d ∖ list_to_set l -> pid ∈ d /\ pid ∉ l.
Proof. rewrite elem_of_difference, elem_of_list_to_set. tauto. Qed.

Lemma step_chiudi_lettore s h :
  sys_ok s -> sys_ok (mkSys (pipe_chiudi_lettore_locked h (tab s)) (scritti s) (letti s)).
Proof.
  intros I. unfold pipe_chiudi_lettore_locked. destruct (pipe_da_handle h (tab s)) as [p|] eqn:E; [|by destruct s].
  assert (Op := pipe_ok_da _ _ _ I E). apply da_handle_Some in E as (Hh & E & U).
  set (p1 := if 0 <? lettori p then _ else p).
  assert (O1 : pipe_ok p1 /\ usata p1 = true /\ contenuto p1 = contenuto p /\ quanti p1 = quanti p /\
    scrittori p1 = scrittori p /\ att_lettori p1 = att_lettori p /\ att_scrittori p1 = att_scrittori p /\
    lettori p1 <= lettori p).
  { unfold p1. destruct (Z.ltb_spec 0 (lettori p)); simpl; split_and!; auto; try lia.
    destruct Op as [P1 P2 P3 P4 P5 P6]. split; simpl; auto; lia. }
  clearbody p1. destruct O1 as (O1 & U1 & C1 & Q1 & S1 & AL & AS & L1).
  destruct (Z.eqb_spec (lettori p1) 0) as [L0|L0].
  - assert (Oa : pipe_ok (set_att (att_lettori p1) (nessuno (att_scrittori p1)) p1)).
    { destruct O1 as [P1 P2 P3 P4 P5 P6]. split; simpl; auto using nessuno_ok. }
    apply orfana_ok in Oa. eapply sys_ok_set_same; eauto.
    + unfold pipe_libera_se_orfana. destruct (_ && _); [done|]. intros _. split; [done|]. exact C1.
    + apply subseteq_difference_l. done.
    + intros pid Hpid _ A. apply not_in_diff in Hpid as [_ Hw]. rewrite AS in Hw.
      destruct A as [(A1 & A2 & A3)|(A1 & _)]; [|done].
      unfold pipe_libera_se_orfana. simpl. rewrite L0, S1, (proj2 (Z.eqb_neq (scrittori p) 0)) by lia. simpl.
      split; [done|]. left. simpl. by rewrite AL, Q1, S1.
  - assert (Pe := po_ends _ O1). apply orfana_ok in O1. eapply sys_ok_set_same; eauto.
    + unfold pipe_libera_se_orfana. destruct (_ && _); [done|]. done.
    + apply subseteq_difference_l. done.
    + intros pid Hpid _ A. unfold pipe_libera_se_orfana. rewrite (proj2 (Z.eqb_neq _ _) L0). simpl.
      split; [done|]. unfold attende. rewrite AL, AS, Q1, S1.
      destruct A as [A|(A1 & A2 & A3)]; [by left | right]. split_and!; auto. lia.
Qed.

Lemma step_chiudi_scrittore s h :
  sys_ok s -> sys_ok (mkSys (pipe_chiudi_scrittore_locked h (tab s)) (scritti s) (letti s)).
Proof.
  intros I. unfold pipe_chiudi_scrittore_locked. destruct (pipe_da_handle h (tab s)) as [p|] eqn:E; [|by destruct s].
  assert (Op := pipe_ok_da _ _ _ I E). apply da_handle_Some in E as (Hh & E & U).
  set (p1 := if 0 <? scrittori p then _ else p).
  assert (O1 : pipe_ok p1 /\ usata p1 = true /\ contenuto p1 = contenuto p /\ quanti p1 = quanti p /\
    lettori p1 = lettori p /\ att_lettori p1 = att_lettori p /\ att_scrittori p1 = att_scrittori p).
  { unfold p1. destruct (Z.ltb_spec 0 (scrittori p)); simpl; split_and!; auto; try lia.
    destruct Op as [P1 P2 P3 P4 P5 P6]. split; simpl; auto; lia. }
  clearbody p1. destruct O1 as (O1 & U1 & C1 & Q1 & L1 & AL & AS).
  assert (Pe := po_ends _ O1).
  destruct (Z.eqb_spec (scrittori p1) 0) as [S0|S0].
  - assert (Oa : pipe_ok (set_att (nessuno (att_lettori p1)) (att_scrittori p1) p1)).
    { destruct O1 as [P1 P2 P3 P4 P5 P6]. split; simpl; auto using nessuno_ok. }
    apply orfana_ok in Oa. eapply sys_ok_set_same; eauto.
    + unfold pipe_libera_se_orfana. destruct (_ && _); [done|]. intros _. split; [done|]. exact C1.
    + apply subseteq_difference_l. done.
    + intros pid Hpid _ A. apply not_in_diff in Hpid as [_ Hw]. rewrite AL in Hw.
      destruct A as [(A1 & _)|(A1 & A2 & A3)]; [done|].
      unfold pipe_libera_se_orfana. simpl. rewrite L1, (proj2 (Z.eqb_neq (lettori p) 0)) by lia. simpl.
      split; [done|]. right. simpl. by rewrite AS, Q1, L1.
  - apply orfana_ok in O1. eapply sys_ok_set_same; eauto.
    + unfold pipe_libera_se_orfana. destruct (_ && _); [done|]. done.
    + apply subseteq_difference_l. done.
    + intros pid Hpid _ A. unfold pipe_libera_se_orfana. rewrite (proj2 (Z.eqb_neq _ _) S0), andb_false_r.
      split; [done|]. unfold attende. rewrite AL, AS, Q1, L1.
      destruct A as [(A1 & A2 & A3)|A]; [left | by right]. split_and!; auto. lia.
Qed.

(** Registering adds a waiter and keeps the others. *)
Lemma metti_keeps a pid r a' q :
  att_ok a -> pid <> 0 -> attese_metti a pid = (r, a') ->
  att_ok a' /\ (q ∈ attesi a -> q ∈ attesi a') /\ (r = true -> pid ∈ attesi a').
Proof.
  intros A Hp E. pose proof (metti_spec a pid A Hp) as M. rewrite E in M. destruct M as [A' M]. split; [done|].
  destruct r; [split; intros; apply M; auto | destruct M as [-> _]; done].
Qed.

Lemma step_registra s h b pid :
  sys_ok s -> pid <> 0 -> sys_ok (mkSys (snd (pipe_attesa_registra_locked h b pid (tab s))) (scritti s) (letti s)).
Proof.
  intros I Hp. unfold pipe_attesa_registra_locked. destruct (pipe_da_handle h (tab s)) as [p|] eqn:E; [|by destruct s].
  assert (Op := pipe_ok_da _ _ _ I E). apply da_handle_Some in E as (Hh & E & U). destruct Op as [P1 P2 P3 P4 P5 P6].
  destruct b.
  - destruct (attese_metti (att_lettori p) pid) as [r a] eqn:Em.
    assert (M := fun q => metti_keeps _ _ _ _ q P5 Hp Em). eapply sys_ok_set_same; eauto.
    + split; simpl; auto. apply (M 0).
    + intros q _ _ [(A1 & A2)|A]; (split; [done|]); [left; split; [by apply M | done] | by right].
  - destruct (attese_metti (att_scrittori p) pid) as [r a] eqn:Em.
    assert (M := fun q => metti_keeps _ _ _ _ q P6 Hp Em). eapply sys_ok_set_same; eauto.
    + split; simpl; auto. apply (M 0).
    + intros q _ _ [A|(A1 & A2)]; (split; [done|]); [by left | right; split; [by apply M | done]].
Qed.

Lemma step_togli s h b pid :
  sys_ok s -> pid <> 0 -> pid ∉ dormono (tab s) ->
  sys_ok (mkSys (pipe_attesa_togli_locked h b pid (tab s)) (scritti s) (letti s)).
Proof.
  intros I Hp Nd. unfold pipe_attesa_togli_locked. destruct (pipe_da_handle h (tab s)) as [p|] eqn:E; [|by destruct s].
  assert (Op := pipe_ok_da _ _ _ I E). apply da_handle_Some in E as (Hh & E & U). destruct Op as [P1 P2 P3 P4 P5 P6].
  destruct b.
  - destruct (togli_att_spec _ _ P5 Hp) as [A' M]. eapply sys_ok_set_same; eauto; [split; simpl; auto|].
    intros q Hq _ [(A1 & A2)|A]; (split; [done|]); [left | by right]. split; [|done]. apply M. split; [done | congruence].
  - destruct (togli_att_spec _ _ P6 Hp) as [A' M]. eapply sys_ok_set_same; eauto; [split; simpl; auto|].
    intros q Hq _ [A|(A1 & A2)]; (split; [done|]); [by left | right]. split; [|done]. apply M. split; [done | congruence].
Qed.

Lemma step_cresci s h b nuovo :
  sys_ok s -> sys_ok (mkSys (pipe_cresci h b nuovo (tab s)) (scritti s) (letti s)).
Proof.
  intros I. unfold pipe_cresci. destruct (Z.ltb_spec h 0); [by destruct s|].
  destruct (g_pipe (tab s) !! Z.to_nat h) as [p|] eqn:E; [|by destruct s].
  assert (Op := so_pipes s I _ _ E). destruct Op as [P1 P2 P3 P4 P5 P6]. destruct b.
  - destruct (installa_spec nuovo _ P5) as [A' M]. eapply sys_ok_set_same; eauto; [split; simpl; auto|].
    intros q _ Uq A. split; [done|]. unfold attende. simpl. by rewrite M.
  - destruct (installa_spec nuovo _ P6) as [A' M]. eapply sys_ok_set_same; eauto; [split; simpl; auto|].
    intros q _ Uq A. split; [done|]. unfold attende. simpl. by rewrite M.
Qed.

(** The data path: a read takes the front of the queue ... *)
Lemma prendi_contenuto p n :
  pipe_ok p -> 0 < n ->
  let presi := if n <? quanti p then n else quanti p in
  contenuto p = copia_fuori (buf p) (testa p) 0 (Z.to_nat presi) ++
    contenuto (set_ring ((testa p + presi) mod PIPE_DIM) (quanti p - presi) (buf p) p).
Proof.
  intros [P1 P2 P3 P4 P5 P6] Hn presi. assert (0 <= presi <= quanti p) by (unfold presi; bcase; lia).
  unfold contenuto. simpl. rewrite fuori_shift.
  replace (Z.to_nat (quanti p)) with (Z.to_nat presi + Z.to_nat (quanti p - presi))%nat by lia.
  rewrite fuori_app, Z2Nat.id by lia. f_equal. f_equal. lia.
Qed.

Lemma aggiorna_eq f h v : aggiorna f h v h = v.
Proof. unfold aggiorna. by rewrite Z.eqb_refl. Qed.

Lemma aggiorna_ne f h v k : k <> h -> aggiorna f h v k = f k.
Proof. intros. unfold aggiorna. by rewrite (proj2 (Z.eqb_neq k h)). Qed.

Lemma sys_ok_ext s sc le :
  sys_ok s -> (forall k, sc k = scritti s k) -> (forall k, le k = letti s k) -> sys_ok (mkSys (tab s) sc le).
Proof.
  intros [O Q W] Hs Hl. split; cbn [tab scritti letti]; auto. intros h p Hh H0 U. rewrite Hs, Hl. by apply Q.
Qed.

Lemma aggiorna_nil f h k : aggiorna f h (f h ++ []) k = f k.
Proof. unfold aggiorna. destruct (Z.eqb_spec k h) as [->|]; [apply app_nil_r | done]. Qed.

Lemma step_leggi s pid h n nb e t' :
  sys_ok s -> pid <> 0 -> 0 < n <= PIPE_TRANCHE ->
  pipe_leggi_giro h n nb (Some pid) (tab s) = (e, t') ->
  sys_ok (mkSys t' (scritti s) (aggiorna (letti s) h (letti s h ++ presi_di e))).
Proof.
  intros I Hp Hn. unfold pipe_leggi_giro.
  assert (Hid : forall r, (Torna r [], tab s) = (e, t') ->
    sys_ok (mkSys t' (scritti s) (aggiorna (letti s) h (letti s h ++ presi_di e)))).
  { intros r [= <- <-]. apply sys_ok_ext; [done | done | intros; apply aggiorna_nil]. }
  destruct (pipe_da_handle h (tab s)) as [p|] eqn:E; [|apply Hid].
  assert (Op := pipe_ok_da _ _ _ I E). assert (Op' := Op). apply da_handle_Some in E as (Hh & E & U).
  destruct Op' as [P1 P2 P3 P4 P5 P6].
  destruct (Z.ltb_spec 0 (quanti p)) as [Hq|Hq].
  - unfold pipe_prendi. intros [= <- <-]. cbn [presi_di].
    pose proof (prendi_contenuto p n Op ltac:(lia)) as HC. cbv zeta in HC.
    set (presi := if n <? quanti p then n else quanti p) in *.
    assert (Hpr : 0 < presi <= quanti p) by (unfold presi; bcase; lia).
    eapply sys_ok_set; eauto.
    + split; simpl; auto; [unfold PIPE_DIM; zdm | lia | by apply nessuno_ok].
    + intros _. rewrite aggiorna_eq, <- app_assoc. rewrite (so_fifo s I h p E Hh U). f_equal. exact HC.
    + intros k Hk. by rewrite aggiorna_ne.
    + intros q Hq'. left. apply (so_sleep s I). apply not_in_diff in Hq'. tauto.
    + intros q Hq' _ [(_ & A2 & _)|(A1 & _)]; [lia|]. apply not_in_diff in Hq' as [_ F]. done.
  - destruct (Z.eqb_spec (scrittori p) 0) as [S0|S0]; [apply Hid|]. destruct nb; [apply Hid|].
    destruct (attese_metti (att_lettori p) pid) as [r a] eqn:Em.
    assert (M := fun q => metti_keeps _ _ _ _ q P5 Hp Em). destruct r; cbn [negb]; intros [= <- <-]; cbn [presi_di].
    2:{ apply sys_ok_ext; [done | done | intros; apply aggiorna_nil]. }
    assert (Hw : attende (set_att a (att_scrittori p) p) pid) by (left; simpl; split_and!; [by apply (M 0) | lia | lia]).
    eapply sys_ok_set; eauto.
    + split; simpl; auto. apply (M 0).
    + intros _. rewrite aggiorna_eq, app_nil_r. exact (so_fifo s I h p E Hh U).
    + intros k Hk. by rewrite aggiorna_ne.
    + intros q Hq'. cbn in Hq'. apply elem_of_union in Hq' as [->%elem_of_singleton|Hq']; [by right|].
      left. by apply (so_sleep s I).
    + intros q _ _ [(A1 & A2)|A]; (split; [done|]); [left; split; [by apply M | done] | by right].
Qed.

Lemma step_scrivi s pid h dati nb e t' :
  sys_ok s -> pid <> 0 -> 0 < Z.of_nat (length dati) ->
  pipe_scrivi_giro h dati nb (Some pid) (tab s) = (e, t') ->
  sys_ok (mkSys t' (aggiorna (scritti s) h (scritti s h ++ messi_di e dati)) (letti s)).
Proof.
  intros I Hp Hn. unfold pipe_scrivi_giro.
  assert (Hid : forall r, (r <=? 0) = true -> (Torna r [], tab s) = (e, t') ->
    sys_ok (mkSys t' (aggiorna (scritti s) h (scritti s h ++ messi_di e dati)) (letti s))).
  { intros r Hr%Z.leb_le [= <- <-]. cbn [messi_di]. replace (Z.to_nat r) with 0%nat by lia.
    apply sys_ok_ext; [done | intros; apply aggiorna_nil | done]. }
  destruct (pipe_da_handle h (tab s)) as [p|] eqn:E; [|by apply Hid].
  assert (Op := pipe_ok_da _ _ _ I E). apply da_handle_Some in E as (Hh & E & U).
  destruct Op as [P1 P2 P3 P4 P5 P6].
  destruct (Z.eqb_spec (lettori p) 0) as [L0|L0]; [by apply Hid|].
  destruct (Z.ltb_spec (quanti p) PIPE_DIM) as [Hq|Hq].
  - unfold pipe_metti. intros [= <- <-]. cbn [messi_di].
    set (messi := if Z.of_nat (length dati) <? PIPE_DIM - quanti p then Z.of_nat (length dati) else PIPE_DIM - quanti p).
    assert (Hm : 0 < messi <= PIPE_DIM - quanti p /\ messi <= Z.of_nat (length dati)) by (unfold messi; bcase; lia).
    assert (Hl : Z.of_nat (length (take (Z.to_nat messi) dati)) = messi) by (rewrite length_take; lia).
    eapply sys_ok_set; eauto.
    + split; simpl; auto; [lia | by rewrite length_dentro | by apply nessuno_ok].
    + intros _. rewrite aggiorna_eq, (so_fifo s I h p E Hh U), <- app_assoc. f_equal. unfold contenuto. simpl.
      rewrite <- ring_append by (try done; lia). by rewrite Hl.
    + intros k Hk. by rewrite aggiorna_ne.
    + intros q Hq'. left. apply (so_sleep s I). apply not_in_diff in Hq'. tauto.
    + intros q Hq' _ [(A1 & _)|(_ & A2 & _)]; [|lia]. apply not_in_diff in Hq' as [_ F]. done.
  - destruct nb; [by apply Hid|]. destruct (attese_metti (att_scrittori p) pid) as [r a] eqn:Em.
    assert (M := fun q => metti_keeps _ _ _ _ q P6 Hp Em). destruct r; cbn [negb]; intros [= <- <-]; cbn [messi_di].
    2:{ apply sys_ok_ext; [done | intros; apply aggiorna_nil | done]. }
    assert (Hw : attende (set_att (att_lettori p) a p) pid) by (right; simpl; split_and!; [by apply (M 0) | lia | lia]).
    eapply sys_ok_set; eauto.
    + split; simpl; auto. apply (M 0).
    + intros _. rewrite aggiorna_eq, app_nil_r. exact (so_fifo s I h p E Hh U).
    + intros k Hk. by rewrite aggiorna_ne.
    + intros q Hq'. cbn in Hq'. apply elem_of_union in Hq' as [->%elem_of_singleton|Hq']; [by right|].
      left. by apply (so_sleep s I).
    + intros q _ _ [A|(A1 & A2)]; (split; [done|]); [by left | right; split; [by apply M | done]].
Qed.

Lemma primo_libero_spec l h0 :
  match primo_libero l h0 with
  | Some h => h0 <= h /\ exists p, l !! Z.to_nat (h - h0) = Some p /\ usata p = false
  | None => forall p, p ∈ l -> usata p = true
  end.
Proof.
  revert h0. induction l as [|p l IH]; intros h0; simpl; [by intros p ?%elem_of_nil|].
  destruct (usata p) eqn:U.
  - specialize (IH (h0 + 1)). destruct (primo_libero l (h0 + 1)) as [h|].
    + destruct IH as (Hh & q & Hq & Uq). split; [lia|]. exists q. split; [|done].
      replace (Z.to_nat (h - h0)) with (S (Z.to_nat (h - (h0 + 1)))) by lia. done.
    + intros q [->|Hq]%elem_of_cons; auto.
  - split; [lia|]. exists p. by rewrite Z.sub_diag.
Qed.

(** A table with one more unused pipe. *)
Lemma sys_ok_nuova s sporco np :
  sys_ok s -> Z.of_nat (length sporco) = PIPE_DIM ->
  sys_ok (mkSys (mkTab (g_pipe (tab s) ++ [pipe_nuova sporco]) np (dormono (tab s))) (scritti s) (letti s)).
Proof.
  intros [O Q W] Hs. assert (A0 : att_ok (mkAttese 0 [] 0)).
  { split; simpl; [unfold posti; simpl; lia | done | constructor | apply not_elem_of_nil]. }
  split; cbn [tab g_pipe dormono scritti letti].
  - intros h p Hp. apply lookup_app_Some in Hp as [Hp|[_ Hp]]; [by eapply O|].
    apply list_lookup_singleton_Some in Hp as [_ <-]. split; simpl; auto; unfold PIPE_DIM, W32 in *; lia.
  - intros h p Hp Hh U. apply lookup_app_Some in Hp as [Hp|[_ Hp]]; [by apply Q|].
    apply list_lookup_singleton_Some in Hp as [_ <-]. done.
  - intros pid Hpid. destruct (W pid Hpid) as (h & p & Hp & U & A). exists h, p. split_and!; auto.
    by apply lookup_app_l_Some.
Qed.

(** ** Creation, step by step

    The machine: the system, and the creators with the point where each is. *)

Record Macchina : Type := mkMac { sys : Sys; creano : gmap Z crea_pc }.

(** A pipe is born: its history starts again. *)
Definition nata (pc pc' : crea_pc) (s : Sys) (t' : Tabella) : Sys :=
  match pc, pc' with
  | CreaCerca, CreaTorna h => mkSys t' (aggiorna (scritti s) h []) (aggiorna (letti s) h [])
  | _, _ => mkSys t' (scritti s) (letti s)
  end.

Inductive mstep : Macchina -> Macchina -> Prop :=
| ms_chiamata s s' c : pstep s s' -> mstep (mkMac s c) (mkMac s' c)
| ms_entra s c pid : c !! pid = None -> mstep (mkMac s c) (mkMac s (<[pid := CreaCerca]> c))
| ms_crea s c pid pc memoria sporco pc' t' :
    c !! pid = Some pc -> Z.of_nat (length sporco) = PIPE_DIM ->
    crea_passo memoria sporco pc (tab s) = Some (pc', t') ->
    mstep (mkMac s c) (mkMac (nata pc pc' s t') (<[pid := pc']> c))
| ms_torna s c pid r : c !! pid = Some (CreaTorna r) -> mstep (mkMac s c) (mkMac s (delete pid c)).

(** The bytes of a pipe being made. *)
Definition pc_ok (pc : crea_pc) : Prop :=
  match pc with
  | CreaLeggeN b | CreaLeggePosti b _ | CreaRaddoppia b | CreaDir b _ | CreaMette b _ => Z.of_nat (length b) = PIPE_DIM
  | _ => True
  end.

Definition mac_ok (m : Macchina) : Prop := sys_ok (sys m) /\ map_Forall (fun _ => pc_ok) (creano m).

Lemma step_cerca s h t' :
  sys_ok s -> pipe_crea_cerca (tab s) = (Some h, t') ->
  sys_ok (mkSys t' (aggiorna (scritti s) h []) (aggiorna (letti s) h [])).
Proof.
  intros I. unfold pipe_crea_cerca. pose proof (primo_libero_spec (g_pipe (tab s)) 0) as HL.
  destruct (primo_libero (g_pipe (tab s)) 0) as [h'|]; [|done].
  destruct HL as (Hh & p & Hp & Up). rewrite Z.sub_0_r in Hp. rewrite Hp. intros [= <- <-].
  assert (Op := so_pipes s I _ _ Hp). destruct Op as [P1 P2 P3 P4 P5 P6].
  eapply sys_ok_set; eauto.
  - split; simpl; auto using nessuno_ok; unfold PIPE_DIM, W32; lia.
  - intros _. rewrite !aggiorna_eq. done.
  - intros k Hk. by rewrite !aggiorna_ne.
  - intros pid Hpid. left. by apply (so_sleep s I).
  - intros pid _ F. congruence.
Qed.

Lemma cerca_None s t' : pipe_crea_cerca s = (None, t') -> t' = s.
Proof.
  unfold pipe_crea_cerca. destruct (primo_libero (g_pipe s) 0) as [h|]; [|by intros [= <-]].
  destruct (g_pipe s !! Z.to_nat h); [done | by intros [= <-]].
Qed.

(** Sizes of the directory do not matter to the pipes. *)
Lemma sys_ok_posti s np :
  sys_ok s -> sys_ok (mkSys (mkTab (g_pipe (tab s)) np (dormono (tab s))) (scritti s) (letti s)).
Proof. intros [O Q W]. by split. Qed.

Lemma step_aggiunge s np b t' :
  sys_ok s -> Z.of_nat (length b) = PIPE_DIM ->
  pipe_crea_aggiunge b (mkTab (g_pipe (tab s)) np (dormono (tab s))) = Some t' -> sys_ok (mkSys t' (scritti s) (letti s)).
Proof.
  intros I Hb. unfold pipe_crea_aggiunge. cbn [g_pipe g_pipe_dir_posti dormono]. destruct (_ <? _).
  - destruct (_ <=? _); [done|]. intros [= <-]. by apply sys_ok_nuova.
  - intros [= <-]. by apply sys_ok_posti.
Qed.

Lemma step_mette s b dir t' :
  sys_ok s -> Z.of_nat (length b) = PIPE_DIM -> pipe_crea_mette b dir (tab s) = Some t' ->
  sys_ok (mkSys t' (scritti s) (letti s)).
Proof.
  intros I Hb. assert (Et : tab s = mkTab (g_pipe (tab s)) (g_pipe_dir_posti (tab s)) (dormono (tab s))) by (by destruct (tab s)).
  unfold pipe_crea_mette. destruct dir as [posti|].
  - destruct (_ <=? _); [destruct (_ <? _); [done|]; by apply step_aggiunge|]. rewrite Et. by apply step_aggiunge.
  - rewrite Et. by apply step_aggiunge.
Qed.

Lemma step_crea s pc memoria sporco pc' t' :
  sys_ok s -> pc_ok pc -> Z.of_nat (length sporco) = PIPE_DIM -> crea_passo memoria sporco pc (tab s) = Some (pc', t') ->
  sys_ok (nata pc pc' s t') /\ pc_ok pc'.
Proof.
  intros I Hpc Hs. assert (Es : mkSys (tab s) (scritti s) (letti s) = s) by (by destruct s).
  destruct pc as [| |b|b n|b|b posti|b dir|r]; cbn [crea_passo]; cbn [pc_ok] in Hpc.
  - destruct (pipe_crea_cerca (tab s)) as [[h|] t1] eqn:E; intros [= <- <-]; cbn [nata].
    + split; [by apply step_cerca | done].
    + apply cerca_None in E as ->. by rewrite Es.
  - intros [= <- <-]. destruct memoria; cbn [nata]; rewrite Es; by split.
  - intros [= <- <-]. cbn [nata]. rewrite Es. by split.
  - intros [= <- <-]. destruct (_ <=? _); cbn [nata]; rewrite Es; by split.
  - intros [= <- <-]. cbn [nata]. rewrite Es. by split.
  - intros [= <- <-]. destruct memoria; cbn [nata]; rewrite Es; by split.
  - destruct (pipe_crea_mette b dir (tab s)) as [t1|] eqn:E; [|done]. intros [= <- <-]. cbn [nata]. split; [|done].
    by apply (step_mette s b dir).
  - intros [= <- <-]. cbn [nata]. rewrite Es. by split.
Qed.

Lemma pstep_ok s s' : pstep s s' -> sys_ok s -> sys_ok s'.
Proof.
  intros St I. destruct St.
  - by apply step_apri_lettore.
  - by apply step_apri_scrittore.
  - by apply step_chiudi_lettore.
  - by apply step_chiudi_scrittore.
  - by apply step_registra.
  - by apply step_togli.
  - by eapply step_leggi.
  - eapply step_scrivi; eauto. lia.
  - by apply step_cresci.
  - destruct I as [O Q W]. split; cbn [tab scritti letti g_pipe sveglia dormono]; auto.
    intros q [Hq _]%elem_of_difference. by apply W.
Qed.

Lemma mstep_ok m m' : mstep m m' -> mac_ok m -> mac_ok m'.
Proof.
  intros St [I C]. destruct St as [s s' c St|s c pid E|s c pid pc memoria sporco pc' t' E Hs Ep|s c pid r E]; cbn [sys creano] in *.
  - split; [by apply (pstep_ok s) | done].
  - split; [done|]. by apply map_Forall_insert_2.
  - destruct (step_crea s pc memoria sporco pc' t' I (C _ _ E) Hs Ep) as [I' Hpc]. split; [done|]. by apply map_Forall_insert_2.
  - split; [done|]. by apply map_Forall_delete.
Qed.

Lemma mreach_ok m m' : rtc mstep m m' -> mac_ok m -> mac_ok m'.
Proof. induction 1; eauto using mstep_ok. Qed.

(** The system at boot: no pipe, nobody asleep, nobody making one. *)
Definition sys_vuoto : Sys := mkSys (mkTab [] 0 ∅) (fun _ => []) (fun _ => []).
Definition mac_vuota : Macchina := mkMac sys_vuoto ∅.

Lemma mac_vuota_ok : mac_ok mac_vuota.
Proof. split; [split; simpl; done | apply map_Forall_empty]. Qed.

(** ** The directory

    As long as the second stretches stay inside it, the directory in use has room
    for its pipes, and a creator holds a directory that is at most twice as large.
    The number of pipes never falls, so that it bounds every state of the past. *)

Definition pot (x : Z) : Prop := exists k, 0 <= k /\ x = 16 * 2 ^ k.

Definition dir_chiesta (pc : crea_pc) : option Z :=
  match pc with CreaDir _ p => Some p | CreaMette _ d => d | _ => None end.

Definition dir_ok (m : Macchina) : Prop :=
  let t := tab (sys m) in
  g_pipe_n t < 2 ^ 28 ->
  g_pipe_n t <= g_pipe_dir_posti t <= Z.max 16 (2 * g_pipe_n t) /\ (g_pipe_dir_posti t = 0 \/ pot (g_pipe_dir_posti t)) /\
  forall pid pc p, creano m !! pid = Some pc -> dir_chiesta pc = Some p -> pot p /\ p <= Z.max 16 (2 * g_pipe_dir_posti t).

Lemma pot_min x : pot x -> 16 <= x.
Proof. intros (k & Hk & ->). pose proof (Z.pow_pos_nonneg 2 k ltac:(lia) Hk). lia. Qed.

Lemma pot_doppio x : pot x -> pot (x * 2).
Proof. intros (k & Hk & ->). exists (k + 1). rewrite Z.pow_add_r by lia. lia. Qed.

(** Powers of two: the larger is at least twice the smaller. *)
Lemma pot_salto x y : pot x -> pot y -> x < y -> 2 * x <= y.
Proof.
  intros (j & Hj & ->) (k & Hk & ->) H. assert (j < k) by (destruct (Z.lt_ge_cases j k); [done|];
    pose proof (Z.pow_le_mono_r 2 k j); lia).
  pose proof (Z.pow_le_mono_r 2 (j + 1) k ltac:(lia) ltac:(lia)) as G. rewrite Z.pow_add_r in G by lia. lia.
Qed.

Lemma capienza_piccola p : 0 <= p < 2 ^ 30 -> capienza p = p.
Proof. intros H. unfold capienza. rewrite u32_small by (unfold W32; lia). apply Z.div_mul. lia. Qed.

Lemma g_pipe_n_nonneg t : 0 <= g_pipe_n t.
Proof. unfold g_pipe_n. lia. Qed.

Lemma mettipipe_n h p t : g_pipe_n (set_pipe h p t) = g_pipe_n t.
Proof. unfold g_pipe_n, set_pipe. cbn [g_pipe]. by rewrite length_insert. Qed.

(** Every other call leaves the directory as it is. *)
Lemma pstep_dir s s' : pstep s s' -> g_pipe_n (tab s') = g_pipe_n (tab s) /\ g_pipe_dir_posti (tab s') = g_pipe_dir_posti (tab s).
Proof.
  intros St. destruct St as [s h _|s h _|s h|s h|s h b pid _|s h b pid _ _|s pid h n nb e t' _ _ _ E|s pid h dati nb e t' _ _ _ E|s h b nuovo|s pid];
    cbn [tab].
  - unfold pipe_apri_lettore. destruct (pipe_da_handle _ _); [by rewrite mettipipe_n | done].
  - unfold pipe_apri_scrittore. destruct (pipe_da_handle _ _); [by rewrite mettipipe_n | done].
  - unfold pipe_chiudi_lettore_locked. destruct (pipe_da_handle _ _); [|done]. case_match. split; [apply mettipipe_n | done].
  - unfold pipe_chiudi_scrittore_locked. destruct (pipe_da_handle _ _); [|done]. case_match. split; [apply mettipipe_n | done].
  - unfold pipe_attesa_registra_locked. destruct (pipe_da_handle _ _); [|done]. destruct b; case_match; (split; [apply mettipipe_n | done]).
  - unfold pipe_attesa_togli_locked. destruct (pipe_da_handle _ _); [|done]. destruct b; (split; [apply mettipipe_n | done]).
  - unfold pipe_leggi_giro, pipe_prendi in E. repeat (case_match; simplify_eq; try done); (split; [apply mettipipe_n | done]).
  - unfold pipe_scrivi_giro, pipe_metti in E. repeat (case_match; simplify_eq; try done); (split; [apply mettipipe_n | done]).
  - unfold pipe_cresci. destruct (_ <? _); [done|]. destruct (g_pipe _ !! _); [|done]. destruct b; (split; [apply mettipipe_n | done]).
  - done.
Qed.

(** What the second stretch does to the sizes, and when it goes outside. *)
Lemma mette_dir b dir t :
  g_pipe_n t < 2 ^ 28 -> g_pipe_n t <= g_pipe_dir_posti t <= Z.max 16 (2 * g_pipe_n t) ->
  (g_pipe_dir_posti t = 0 \/ pot (g_pipe_dir_posti t)) ->
  (forall p, dir = Some p -> pot p /\ p <= Z.max 16 (2 * g_pipe_dir_posti t)) ->
  match pipe_crea_mette b dir t with
  | Some t' =>
      g_pipe_dir_posti t <= g_pipe_dir_posti t' /\ g_pipe_n t <= g_pipe_n t' <= g_pipe_dir_posti t' /\
      g_pipe_dir_posti t' <= Z.max 16 (2 * g_pipe_n t) /\ (g_pipe_dir_posti t' = 0 \/ pot (g_pipe_dir_posti t'))
  | None => exists p, dir = Some p /\ g_pipe_n t = g_pipe_dir_posti t /\ 2 * p <= g_pipe_n t
  end.
Proof.
  intros Hn Hd Hp Hc. pose proof (g_pipe_n_nonneg t) as H0.
  assert (HA : forall np, g_pipe_dir_posti t <= np <= Z.max 16 (2 * g_pipe_n t) -> (np = 0 \/ pot np) ->
    match pipe_crea_aggiunge b (mkTab (g_pipe t) np (dormono t)) with
    | Some t' => g_pipe_dir_posti t <= g_pipe_dir_posti t' /\ g_pipe_n t <= g_pipe_n t' <= g_pipe_dir_posti t' /\
        g_pipe_dir_posti t' <= Z.max 16 (2 * g_pipe_n t) /\ (g_pipe_dir_posti t' = 0 \/ pot (g_pipe_dir_posti t'))
    | None => False
    end).
  { intros np Hnp Hpot. unfold pipe_crea_aggiunge. change (g_pipe_n (mkTab _ _ _)) with (g_pipe_n t). cbn [g_pipe_dir_posti g_pipe dormono].
    rewrite capienza_piccola by lia. destruct (Z.ltb_spec (g_pipe_n t) np).
    - rewrite (proj2 (Z.leb_gt np (g_pipe_n t))) by lia. unfold g_pipe_n in *. cbn [g_pipe g_pipe_dir_posti]. rewrite length_app. cbn [length].
      split_and!; try done; lia.
    - change (g_pipe_n (mkTab (g_pipe t) np (dormono t))) with (g_pipe_n t). cbn [g_pipe_dir_posti]. split_and!; try done; lia. }
  assert (Et : t = mkTab (g_pipe t) (g_pipe_dir_posti t) (dormono t)) by (by destruct t).
  assert (HS := HA (g_pipe_dir_posti t) ltac:(lia) Hp). rewrite <- Et in HS.
  unfold pipe_crea_mette. destruct dir as [p|]; [|by destruct (pipe_crea_aggiunge b t)].
  destruct (Hc p eq_refl) as [Pp Hle]. pose proof (pot_min p Pp).
  destruct (Z.leb_spec (g_pipe_dir_posti t) (g_pipe_n t)); [|by destruct (pipe_crea_aggiunge b t)].
  rewrite capienza_piccola by lia. destruct (Z.ltb_spec p (g_pipe_n t)).
  - exists p. split; [done|]. split; [lia|]. replace (g_pipe_n t) with (g_pipe_dir_posti t) by lia.
    destruct Hp as [E|Pd]; [lia|]. apply pot_salto; [done | done | lia].
  - specialize (HA p ltac:(lia) (or_intror Pp)). by destruct (pipe_crea_aggiunge b _).
Qed.

Lemma crea_dir pc memoria sporco t pc' t' :
  crea_passo memoria sporco pc t = Some (pc', t') ->
  match pc with
  | CreaMette b dir => pc' = CreaCerca /\ pipe_crea_mette b dir t = Some t'
  | _ => g_pipe_n t' = g_pipe_n t /\ g_pipe_dir_posti t' = g_pipe_dir_posti t /\
      (dir_chiesta pc' = None \/ dir_chiesta pc' = dir_chiesta pc \/ dir_chiesta pc' = Some (pipe_crea_posti (g_pipe_dir_posti t)))
  end.
Proof.
  destruct pc as [| |b|b n|b|b posti|b dir|r]; cbn [crea_passo].
  - unfold pipe_crea_cerca. destruct (primo_libero _ _) as [h|]; [destruct (g_pipe t !! _)|]; intros [= <- <-];
      rewrite ?mettipipe_n; cbn [dir_chiesta]; auto.
  - intros [= <- <-]. split_and!; auto. destruct memoria; auto.
  - intros [= <- <-]. auto.
  - intros [= <- <-]. split_and!; auto. destruct (_ <=? _); auto.
  - intros [= <- <-]. auto.
  - intros [= <- <-]. split_and!; auto. destruct memoria; auto.
  - destruct (pipe_crea_mette b dir t); [|done]. by intros [= <- <-].
  - intros [= <- <-]. auto.
Qed.

Lemma posti_pot t : g_pipe_dir_posti t < 2 ^ 30 -> (g_pipe_dir_posti t = 0 \/ pot (g_pipe_dir_posti t)) ->
  pot (pipe_crea_posti (g_pipe_dir_posti t)) /\ pipe_crea_posti (g_pipe_dir_posti t) <= Z.max 16 (2 * g_pipe_dir_posti t).
Proof.
  intros Hl [E|Hp]; unfold pipe_crea_posti.
  - rewrite E. cbn [Z.eqb]. split; [by exists 0 | lia].
  - pose proof (pot_min _ Hp). rewrite (proj2 (Z.eqb_neq _ 0)), u32_small by (unfold W32; lia). split; [by apply pot_doppio | lia].
Qed.

Lemma tab_nata pc pc' s t' : tab (nata pc pc' s t') = t'.
Proof. by destruct pc, pc'. Qed.

Lemma mstep_dir m m' : mstep m m' -> dir_ok m -> dir_ok m'.
Proof.
  unfold dir_ok. intros St I. destruct St as [s s' c St|s c pid E|s c pid pc memoria sporco pc' t' E Hs Ep|s c pid r E]; cbn [sys creano] in *.
  - destruct (pstep_dir s s' St) as [-> ->]. done.
  - intros Hn. destruct (I Hn) as (H1 & H2 & H3). split_and!; try done; try lia. intros q pc p Hq Hd.
    apply lookup_insert_Some in Hq as [[<- <-]|[_ Hq]]; [done | by apply (H3 q pc)].
  - rewrite tab_nata. apply crea_dir in Ep. intros Hn. assert (Hcase : (exists b dir, pc = CreaMette b dir) \/
      (forall b dir, pc <> CreaMette b dir)) by (destruct pc; eauto; right; congruence).
    destruct Hcase as [(b & dir & ->)|Hno].
    + destruct Ep as [-> Ep]. assert (Hn0 : g_pipe_n (tab s) < 2 ^ 28).
      { destruct (Z.lt_ge_cases (g_pipe_n (tab s)) (2 ^ 28)); [done|]. exfalso.
        unfold pipe_crea_mette, pipe_crea_aggiunge in Ep. clear I.
        repeat (case_match; simplify_eq); unfold g_pipe_n in *; cbn [g_pipe] in *; rewrite ?length_app in *; cbn [length] in *; lia. }
      destruct (I Hn0) as (H1 & H2 & H3). pose proof (mette_dir b dir (tab s) Hn0 H1 H2) as HM. rewrite Ep in HM.
      destruct HM as (M1 & M2 & M3 & M4); [intros p ->; by apply (H3 pid (CreaMette b (Some p)))|].
      split; [lia|]. split; [done|]. intros q pc p Hq Hd. apply lookup_insert_Some in Hq as [[<- <-]|[_ Hq]]; [done|].
      destruct (H3 q pc p Hq Hd). split; [done | lia].
    + assert (Ep' : g_pipe_n t' = g_pipe_n (tab s) /\ g_pipe_dir_posti t' = g_pipe_dir_posti (tab s) /\
        (dir_chiesta pc' = None \/ dir_chiesta pc' = dir_chiesta pc \/
         dir_chiesta pc' = Some (pipe_crea_posti (g_pipe_dir_posti (tab s))))) by (destruct pc; try done; by destruct (Hno sporco0 dir)).
      clear Ep. destruct Ep' as (E1 & E2 & E3). rewrite E1, E2 in *. destruct (I Hn) as (H1 & H2 & H3). split; [lia|]. split; [done|].
      intros q pcq p Hq Hd. apply lookup_insert_Some in Hq as [[<- <-]|[_ Hq]]; [|by apply (H3 q pcq)].
      destruct E3 as [E3|[E3|E3]]; rewrite E3 in Hd; [done | by apply (H3 pid pc)|]. injection Hd as <-.
      apply posti_pot; [lia | done].
  - intros Hn. destruct (I Hn) as (H1 & H2 & H3). split; [lia|]. split; [done|]. intros q pc p Hq Hd.
    apply lookup_delete_Some in Hq as [_ Hq]. by apply (H3 q pc).
Qed.

Lemma mreach_dir m m' : rtc mstep m m' -> dir_ok m -> dir_ok m'.
Proof. induction 1; eauto using mstep_dir. Qed.

Lemma mac_vuota_dir : dir_ok mac_vuota.
Proof. intros _. cbn [mac_vuota sys sys_vuoto tab g_pipe_dir_posti creano]. change (g_pipe_n _) with 0. split; [lia|]. split; [by left|]. intros pid pc p Hq. by rewrite lookup_empty in Hq. Qed.
