(* ===== verification/PipeThms.v ===== *)
(** * Pipes and waiters: the claims *)

From S2P Require Import Prelude Attese Pipe PipeSpec.

(** ** The system of processes *)

(** C18: whatever processes create, open, close, read, write, poll and are
    woken, every pipe in use is a FIFO queue: the bytes written to it since its
    creation are the bytes read from it followed by its content, which fits the
    ring.  The processes are interleaved at every stretch with interrupts off and,
    inside [pipe_crea], at every call of [kmalloc] and every read of a size of the
    directory; the ends of a pipe are fewer than 2^32, and the runs are those in
    which no creator has yet written outside the directory ([pipe_dir_overflow]
    says when one can). *)
Theorem pipe_fifo (m : Macchina) (h : Z) (p : Pipe) :
  rtc mstep mac_vuota m -> pipe_da_handle h (tab (sys m)) = Some p ->
  scritti (sys m) h = letti (sys m) h ++ contenuto p /\ Z.of_nat (length (contenuto p)) = quanti p /\ 0 <= quanti p <= PIPE_DIM.
Proof.
  intros Hr E. destruct (mreach_ok _ _ Hr mac_vuota_ok) as [I _]. pose proof (pipe_ok_da _ _ _ I E) as O.
  apply da_handle_Some in E as (Hh & E & U).
  split_and!; [by apply (so_fifo _ I) | by apply contenuto_length | apply O | apply O].
Qed.

(** C37: no wake-up is lost by the blocking calls.  In every state of a run of any
    processes that create, open, close, read, write, poll and are woken, interleaved at
    every stretch with interrupts off and, inside [pipe_crea], at every [kmalloc] and
    every read of a size of the directory, with fewer than 2^32 ends of a pipe and no
    write outside the directory so far, a process asleep in [pipe_leggi] or
    [pipe_scrivi] is registered with a pipe in use whose state still justifies the sleep:
    an empty pipe with a writer for a reader, a full pipe with a reader for a writer.
    A process asleep in [sys_poll], which may also wake at a tick, is not counted among
    these. *)
Theorem pipe_no_lost_wakeup (m : Macchina) (pid : Z) :
  rtc mstep mac_vuota m -> pid ∈ dormono (tab (sys m)) ->
  exists h p, g_pipe (tab (sys m)) !! h = Some p /\ usata p = true /\
    ((pid ∈ attesi (att_lettori p) /\ quanti p = 0 /\ 0 < scrittori p) \/
     (pid ∈ attesi (att_scrittori p) /\ quanti p = PIPE_DIM /\ 0 < lettori p)).
Proof. intros Hr Hp. exact (so_sleep _ (proj1 (mreach_ok _ _ Hr mac_vuota_ok)) pid Hp). Qed.

(** the event wakes the sleepers: a write that stores bytes and the close
    of the last writer leave no registered reader asleep; a read that takes
    bytes and the close of the last reader leave no registered writer asleep. *)
Theorem pipe_event_wakes (t : Tabella) (h pid : Z) (p : Pipe) :
  pipe_da_handle h t = Some p ->
  (forall dati nb cur r t', pipe_scrivi_giro h dati nb cur t = (Torna r [], t') -> 0 < r ->
     pid ∈ attesi (att_lettori p) -> pid ∉ dormono t') /\
  (forall n nb cur r b t', pipe_leggi_giro h n nb cur t = (Torna r b, t') -> 0 < r ->
     pid ∈ attesi (att_scrittori p) -> pid ∉ dormono t') /\
  (scrittori p = 1 -> pid ∈ attesi (att_lettori p) -> pid ∉ dormono (pipe_chiudi_scrittore_locked h t)) /\
  (lettori p = 1 -> pid ∈ attesi (att_scrittori p) -> pid ∉ dormono (pipe_chiudi_lettore_locked h t)).
Proof.
  intros E. split_and!.
  - intros dati nb cur r t'. unfold pipe_scrivi_giro. rewrite E.
    destruct (lettori p =? 0); [intros [= <- <-]; unfold EPIPE; lia|].
    destruct (quanti p <? PIPE_DIM).
    + unfold pipe_metti. intros [= <- <-] _ Hin. cbn. rewrite elem_of_difference, elem_of_list_to_set. tauto.
    + destruct nb; [intros [= <- <-]; unfold EAGAIN; lia|]. destruct cur as [q|]; [|intros [= <- <-]; unfold EAGAIN; lia].
      destruct (attese_metti _ q) as [[] a]; discriminate.
  - intros n nb cur r b t'. unfold pipe_leggi_giro. rewrite E. destruct (0 <? quanti p).
    + unfold pipe_prendi. intros [= <- <- <-] _ Hin. cbn. rewrite elem_of_difference, elem_of_list_to_set. tauto.
    + destruct (scrittori p =? 0); [intros [= <- <- <-]; lia|].
      destruct nb; [intros [= <- <- <-]; unfold EAGAIN; lia|].
      destruct cur as [q|]; [|intros [= <- <- <-]; unfold EAGAIN; lia].
      destruct (attese_metti _ q) as [[] a]; discriminate.
  - intros S1 Hin. unfold pipe_chiudi_scrittore_locked, attese_sveglia_locked. rewrite E, S1.
    change (0 <? 1) with true. cbv iota. cbn [scrittori set_ends att_lettori]. change (1 - 1 =? 0) with true. cbv iota.
    unfold sveglia. cbn [dormono]. rewrite elem_of_difference, elem_of_list_to_set. tauto.
  - intros L1 Hin. unfold pipe_chiudi_lettore_locked, attese_sveglia_locked. rewrite E, L1.
    change (0 <? 1) with true. cbv iota. cbn [lettori set_ends att_scrittori]. change (1 - 1 =? 0) with true. cbv iota.
    unfold sveglia. cbn [dormono]. rewrite elem_of_difference, elem_of_list_to_set. tauto.
Qed.

(** ** The branches of a call *)

Lemma da_handle_set h t p :
  pipe_da_handle h t = Some p -> forall q d, usata q = true ->
  pipe_da_handle h (mkTab (<[Z.to_nat h := q]> (g_pipe t)) (g_pipe_dir_posti t) d) = Some q.
Proof.
  intros E q d Uq. unfold pipe_da_handle in *. unfold g_pipe_n in *. cbn [g_pipe]. rewrite length_insert.
  destruct ((h <? 0) || (Z.of_nat (length (g_pipe t)) <=? h)) eqn:Eh; [done|]. apply orb_false_iff in Eh as [E1 E2].
  rewrite list_lookup_insert_eq by lia. by rewrite Uq.
Qed.

(** one round of [pipe_leggi]: a closed handle is EBADF; data present is
    returned at once, the first [min n quanti] bytes of the queue, which loses
    exactly them; an empty pipe is end of file without writers, EAGAIN for a
    descriptor that must not block, and otherwise the caller is registered and
    asleep or must make room first, with the queue untouched. *)
Theorem pipe_leggi_branches (h n pid : Z) (nb : bool) (t : Tabella) (p : Pipe) :
  pipe_da_handle h t = Some p -> pipe_ok p -> 0 < n <= PIPE_TRANCHE -> pid <> 0 ->
  let '(e, t') := pipe_leggi_giro h n nb (Some pid) t in
  if 0 <? quanti p then
    e = Torna (Z.min n (quanti p)) (take (Z.to_nat (Z.min n (quanti p))) (contenuto p)) /\
    exists p', pipe_da_handle h t' = Some p' /\ contenuto p' = drop (Z.to_nat (Z.min n (quanti p))) (contenuto p)
  else if scrittori p =? 0 then e = Torna 0 [] /\ t' = t
  else if nb then e = Torna (- EAGAIN) [] /\ t' = t
  else (e = Dorme /\ pid ∈ dormono t' /\ exists p', pipe_da_handle h t' = Some p' /\
          contenuto p' = contenuto p /\ pid ∈ attesi (att_lettori p')) \/
       (e = Cresce /\ t' = t /\ att_n (att_lettori p) = posti (att_lettori p)).
Proof.
  intros E O Hn Hp. assert (O' := O). destruct O' as [P1 P2 P3 P4 P5 P6].
  assert (HS := da_handle_set h t p E).
  unfold pipe_leggi_giro. rewrite E. assert (U : usata p = true) by (apply da_handle_Some in E; tauto).
  destruct (Z.ltb_spec 0 (quanti p)) as [Hq|Hq].
  - unfold pipe_prendi. pose proof (prendi_contenuto p n O ltac:(lia)) as HC. cbv zeta in HC.
    replace (if n <? quanti p then n else quanti p) with (Z.min n (quanti p)) in * by (bcase; lia).
    set (k := Z.min n (quanti p)) in *. cbv iota beta. split.
    + f_equal. rewrite HC. rewrite take_app_length' by (by rewrite length_fuori). done.
    + eexists. split; [apply HS; done|]. rewrite HC. rewrite drop_app_length' by (by rewrite length_fuori). done.
  - destruct (Z.eqb_spec (scrittori p) 0); [done|]. destruct nb; [done|].
    pose proof (metti_spec _ _ P5 Hp) as M. destruct (attese_metti (att_lettori p) pid) as [[] a]; cbn [negb].
    + left. split_and!; [done | cbn; set_solver |]. eexists. split; [apply HS; done|]. split; [done|].
      simpl. apply M. by left.
    + right. split_and!; auto. apply M.
Qed.

(** one round of [pipe_scrivi]: without readers it is EPIPE; with room it
    stores the first bytes of the data, as many as fit, at the end of the
    queue and returns their number; a full pipe is EAGAIN for a descriptor
    that must not block, otherwise the caller is registered and asleep or must
    make room first. *)
Theorem pipe_scrivi_branches (h pid : Z) (dati : list Z) (nb : bool) (t : Tabella) (p : Pipe) :
  pipe_da_handle h t = Some p -> pipe_ok p -> 0 < Z.of_nat (length dati) <= PIPE_TRANCHE -> pid <> 0 ->
  let '(e, t') := pipe_scrivi_giro h dati nb (Some pid) t in
  let messi := Z.min (Z.of_nat (length dati)) (PIPE_DIM - quanti p) in
  if lettori p =? 0 then e = Torna (- EPIPE) [] /\ t' = t
  else if quanti p <? PIPE_DIM then
    e = Torna messi [] /\ 0 < messi /\
    exists p', pipe_da_handle h t' = Some p' /\ contenuto p' = contenuto p ++ take (Z.to_nat messi) dati
  else if nb then e = Torna (- EAGAIN) [] /\ t' = t
  else (e = Dorme /\ pid ∈ dormono t' /\ exists p', pipe_da_handle h t' = Some p' /\
          contenuto p' = contenuto p /\ pid ∈ attesi (att_scrittori p')) \/
       (e = Cresce /\ t' = t /\ att_n (att_scrittori p) = posti (att_scrittori p)).
Proof.
  intros E O Hn Hp. assert (O' := O). destruct O' as [P1 P2 P3 P4 P5 P6].
  assert (HS := da_handle_set h t p E).
  unfold pipe_scrivi_giro. rewrite E. assert (U : usata p = true) by (apply da_handle_Some in E; tauto).
  destruct (lettori p =? 0); [done|]. destruct (Z.ltb_spec (quanti p) PIPE_DIM) as [Hq|Hq].
  - unfold pipe_metti. set (messi := Z.min _ _).
    replace (if Z.of_nat (length dati) <? PIPE_DIM - quanti p then Z.of_nat (length dati) else PIPE_DIM - quanti p)
      with messi by (unfold messi; bcase; lia).
    assert (Hm : 0 < messi <= PIPE_DIM - quanti p /\ messi <= Z.of_nat (length dati)) by (unfold messi; lia).
    clearbody messi. cbv iota beta. split_and!; [done | lia |]. eexists. split; [apply HS; done|].
    unfold contenuto. simpl. assert (Hl : Z.of_nat (length (take (Z.to_nat messi) dati)) = messi) by (rewrite length_take; lia).
    rewrite <- ring_append by (try done; lia). by rewrite Hl.
  - destruct nb; [done|]. pose proof (metti_spec _ _ P6 Hp) as M.
    destruct (attese_metti (att_scrittori p) pid) as [[] a]; cbn [negb].
    + left. split_and!; [done | cbn; set_solver |]. eexists. split; [apply HS; done|]. split; [done|].
      simpl. apply M. by left.
    + right. split_and!; auto. apply M.
Qed.

(** ** Creation *)

Lemma primo_libero_app l p h0 :
  (forall q, q ∈ l -> usata q = true) -> usata p = false ->
  primo_libero (l ++ [p]) h0 = Some (h0 + Z.of_nat (length l)).
Proof.
  revert h0. induction l as [|q l IH]; intros h0 Hl Hp; simpl.
  - rewrite Hp. f_equal. lia.
  - rewrite (Hl q) by (by left). rewrite IH; auto; [f_equal; lia | intros; apply Hl; by right].
Qed.

(** A turn that finds an unused pipe. *)
Lemma cerca_trova t h :
  primo_libero (g_pipe t) 0 = Some h ->
  exists t' p, pipe_crea_cerca t = (Some h, t') /\ pipe_da_handle h t' = Some p /\
    quanti p = 0 /\ lettori p = 1 /\ scrittori p = 1 /\
    (forall k q, pipe_da_handle k t = Some q -> k <> h /\ pipe_da_handle k t' = Some q).
Proof.
  intros E. pose proof (primo_libero_spec (g_pipe t) 0) as HL. unfold pipe_crea_cerca. rewrite E in HL |- *.
  destruct HL as (Hh & p & Hp & Up). rewrite Z.sub_0_r in Hp. rewrite Hp. eexists _, (pipe_nasce p).
  split; [reflexivity|]. pose proof (lookup_lt_Some _ _ _ Hp) as Hlt. split_and!; try done.
  - unfold pipe_da_handle, set_pipe, g_pipe_n. cbn [g_pipe]. rewrite length_insert.
    rewrite (proj2 (Z.ltb_ge h 0)), (proj2 (Z.leb_gt _ _)) by lia. by rewrite list_lookup_insert_eq.
  - intros k q Hk. apply da_handle_Some in Hk as (Hk0 & Hk & Uk).
    assert (Nk : k <> h) by (intros ->; congruence). split; [done|].
    pose proof (lookup_lt_Some _ _ _ Hk) as Hlk.
    unfold pipe_da_handle, set_pipe, g_pipe_n. cbn [g_pipe]. rewrite length_insert.
    rewrite (proj2 (Z.ltb_ge k 0)), (proj2 (Z.leb_gt _ _)) by lia. rewrite list_lookup_insert_ne by lia.
    simpl. by rewrite Hk, Uk.
Qed.

(** The second stretch when nobody ran since the sizes were read. *)
Lemma mette_subito b t :
  0 <= g_pipe_n t <= g_pipe_dir_posti t -> g_pipe_dir_posti t < 2 ^ 28 -> exists np,
  pipe_crea_mette b (if g_pipe_dir_posti t <=? g_pipe_n t then Some (pipe_crea_posti (g_pipe_dir_posti t)) else None) t =
  Some (mkTab (g_pipe t ++ [pipe_nuova b]) np (dormono t)).
Proof.
  intros Hn Hp. unfold pipe_crea_mette, pipe_crea_posti. destruct (Z.leb_spec (g_pipe_dir_posti t) (g_pipe_n t)) as [Hl|Hl].
  - set (np := if g_pipe_dir_posti t =? 0 then 16 else u32 (g_pipe_dir_posti t * 2)). exists np.
    assert (Hnp : g_pipe_n t < np < 2 ^ 30).
    { unfold np. destruct (Z.eqb_spec (g_pipe_dir_posti t) 0); [lia|]. rewrite u32_small by (unfold W32; lia). lia. }
    rewrite capienza_piccola, (proj2 (Z.ltb_ge np (g_pipe_n t))) by lia. unfold pipe_crea_aggiunge.
    change (g_pipe_n (mkTab (g_pipe t) np (dormono t))) with (g_pipe_n t). cbn [g_pipe_dir_posti g_pipe dormono].
    rewrite capienza_piccola, (proj2 (Z.ltb_lt (g_pipe_n t) np)), (proj2 (Z.leb_gt np (g_pipe_n t))) by lia. done.
  - exists (g_pipe_dir_posti t). unfold pipe_crea_aggiunge.
    rewrite capienza_piccola, (proj2 (Z.ltb_lt _ (g_pipe_dir_posti t))), (proj2 (Z.leb_gt (g_pipe_dir_posti t) _)) by lia. done.
Qed.

(** [pipe_crea] with memory available and nobody else running returns after at
    most two turns of its loop; the handle denotes an empty pipe with one reader
    and one writer, and every pipe that was in use is as it was. *)
Theorem pipe_crea_correct (sporco : list Z) (t : Tabella) :
  g_pipe_n t <= g_pipe_dir_posti t -> g_pipe_dir_posti t < 2 ^ 28 ->
  exists h t' p, pipe_crea true true sporco 8 t = Ok (Some (h, t')) /\ pipe_da_handle h t' = Some p /\
    quanti p = 0 /\ lettori p = 1 /\ scrittori p = 1 /\
    (forall k q, pipe_da_handle k t = Some q -> k <> h /\ pipe_da_handle k t' = Some q).
Proof.
  intros Hn Hp. pose proof (g_pipe_n_nonneg t). unfold pipe_crea. destruct (primo_libero (g_pipe t) 0) as [h|] eqn:E.
  { destruct (cerca_trova t h E) as (t' & p & EG & HR). exists h, t', p. cbn [crea_corri crea_passo]. rewrite EG. done. }
  pose proof (primo_libero_spec (g_pipe t) 0) as HL. rewrite E in HL.
  destruct (mette_subito sporco t ltac:(lia) Hp) as (np & EM). set (t1 := mkTab _ np _) in EM.
  destruct (cerca_trova t1 (0 + Z.of_nat (length (g_pipe t)))) as (t' & p & EG & H1 & H2 & H3 & H4 & H5);
    [by apply primo_libero_app|].
  exists (0 + Z.of_nat (length (g_pipe t))), t', p.
  assert (EN : pipe_crea_cerca t = (None, t)) by (unfold pipe_crea_cerca; by rewrite E). split.
  { cbn [crea_corri crea_passo]. rewrite EN. cbn [crea_corri crea_passo].
    destruct (g_pipe_dir_posti t <=? g_pipe_n t); cbn [crea_corri crea_passo]; rewrite EM; cbn [crea_corri crea_passo]; by rewrite EG. }
  split_and!; try done. intros k q Hk. apply H5. unfold pipe_da_handle, g_pipe_n in *. cbn [g_pipe t1].
  rewrite length_app. destruct ((k <? 0) || (Z.of_nat (length (g_pipe t)) <=? k)) eqn:Ek; [done|].
  apply orb_false_iff in Ek as [E1 E2]. apply Z.leb_gt in E2. simpl.
  rewrite E1, (proj2 (Z.leb_gt _ _)) by lia. simpl. rewrite lookup_app_l by lia. done.
Qed.

(** ** Waiters *)

(** A list of waiters is a set without a ceiling: registering adds the pid
    or finds the array full, removing takes out exactly that pid, waking
    returns all of them, growing keeps them, and after growing the pid that
    found no room is registered. *)
Theorem attese_set (a : Attese) (pid : Z) (nuovo : list Z) :
  att_ok a -> pid <> 0 -> length nuovo = attese_cresci_chiedi a ->
  (let '(r, a') := attese_metti a pid in
   att_ok a' /\ if r then forall q, q ∈ attesi a' <-> q = pid \/ q ∈ attesi a else a' = a) /\
  (att_ok (attese_togli a pid) /\ forall q, q ∈ attesi (attese_togli a pid) <-> q ∈ attesi a /\ q <> pid) /\
  (attese_sveglia_locked a).1 = attesi a /\ attesi (attese_sveglia_locked a).2 = [] /\
  attesi (attese_cresci_installa nuovo a) = attesi a /\
  (attese_metti (attese_cresci_installa nuovo a) pid).1 = true.
Proof.
  intros A Hp Hl. split_and!.
  - pose proof (metti_spec a pid A Hp) as M. destruct (attese_metti a pid) as [[] a'].
    + done.
    + destruct M as [M1 M2]. split; [done | apply M2].
  - by apply togli_att_spec.
  - by apply togli_att_spec.
  - done.
  - done.
  - by apply installa_spec.
  - destruct (installa_spec nuovo a A) as [A' _]. pose proof (metti_spec _ pid A' Hp) as M.
    pose proof (installa_room nuovo a A Hl) as R.
    destruct (attese_metti (attese_cresci_installa nuovo a) pid) as [[] a']; [done|].
    destruct M as (_ & _ & _ & F). lia.
Qed.

(** ** A concrete run *)

Definition zeri : list Z := replicate 4096 0.

Lemma zeri_length : Z.of_nat (length zeri) = PIPE_DIM.
Proof. reflexivity. Qed.

(** The next step of process [pid] in [pipe_crea], with memory to spare: it
    enters, goes on, or leaves. *)
Definition mossa_crea (m : Macchina) (pid : Z) : option Macchina :=
  match creano m !! pid with
  | None => Some (mkMac (sys m) (<[pid := CreaCerca]> (creano m)))
  | Some (CreaTorna r) => Some (mkMac (sys m) (delete pid (creano m)))
  | Some pc =>
      match crea_passo true zeri pc (tab (sys m)) with
      | Some (pc', t') => Some (mkMac (nata pc pc' (sys m) t') (<[pid := pc']> (creano m)))
      | None => None
      end
  end.

Fixpoint corsa_crea (l : list Z) (m : Macchina) : option Macchina :=
  match l with
  | [] => Some m
  | pid :: l => match mossa_crea m pid with Some m => corsa_crea l m | None => None end
  end.

Lemma mossa_crea_ok m pid m' : mossa_crea m pid = Some m' -> mstep m m'.
Proof.
  destruct m as [s c]. unfold mossa_crea. cbn [sys creano]. destruct (c !! pid) as [pc|] eqn:E; [|intros [= <-]; by constructor].
  assert (H : match crea_passo true zeri pc (tab s) with
      | Some (pc', t') => Some (mkMac (nata pc pc' s t') (<[pid := pc']> c)) | None => None end = Some m' -> mstep (mkMac s c) m').
  { destruct (crea_passo true zeri pc (tab s)) as [[pc' t']|] eqn:Ep; [|done]. intros [= <-].
    apply (ms_crea s c pid pc true zeri pc' t' E zeri_length Ep). }
  destruct pc; try exact H. intros [= <-]. by apply (ms_torna s c pid ret).
Qed.

Lemma corsa_crea_ok l : forall m m', corsa_crea l m = Some m' -> rtc mstep m m'.
Proof.
  induction l as [|pid l IH]; intros m m'; cbn [corsa_crea]; [intros [= <-]; apply rtc_refl|].
  destruct (mossa_crea m pid) as [m1|] eqn:E; [|done]. intros Hr. eapply rtc_l; [by apply (mossa_crea_ok m pid) | by apply IH].
Qed.

Definition mac_o (r : option Macchina) : Macchina := match r with Some m => m | None => mac_vuota end.

(** Process 1 reads that the directory has no place, and asks for one of 16;
    before it goes on, process 2 makes 32 pipes. *)
Definition corsa_persa : list Z := replicate 7 1 ++ replicate 260 2.

Definition mac_persa : Macchina := mac_o (corsa_crea corsa_persa mac_vuota).

Definition esce (m : Macchina) (pid : Z) : bool :=
  match creano m !! pid with
  | Some pc => match crea_passo true zeri pc (tab (sys m)) with None => true | Some _ => false end
  | None => false
  end.

Lemma persa_conti : is_Some (corsa_crea corsa_persa mac_vuota) /\ g_pipe_n (tab (sys mac_persa)) = 32 /\ esce mac_persa 1 = true.
Proof.
  assert (E : match corsa_crea corsa_persa mac_vuota with Some m => (g_pipe_n (tab (sys m)) =? 32) && esce m 1 | None => false end = true)
    by (vm_compute; reflexivity).
  unfold mac_persa, mac_o. destruct (corsa_crea corsa_persa mac_vuota) as [m|]; [|discriminate E].
  apply andb_true_iff in E as [E1 E2]. apply Z.eqb_eq in E1. by split_and!; eauto.
Qed.

(** A creator that read the size of the directory before others doubled it twice
    copies the pointers past the end of its own: with fewer than 32 pipes no
    creator can go outside (the one that does holds a directory of at most half
    the pipes), and with 32 there is a run after which one does. *)
Theorem pipe_dir_overflow :
  (forall m pid pc memoria sporco, rtc mstep mac_vuota m -> creano m !! pid = Some pc -> g_pipe_n (tab (sys m)) < 2 ^ 28 ->
     crea_passo memoria sporco pc (tab (sys m)) = None ->
     exists b posti, pc = CreaMette b (Some posti) /\ 16 <= posti /\ 2 * posti <= g_pipe_n (tab (sys m)) /\ 32 <= g_pipe_n (tab (sys m))) /\
  (exists m pid pc, rtc mstep mac_vuota m /\ creano m !! pid = Some pc /\ g_pipe_n (tab (sys m)) = 32 /\
     crea_passo true zeri pc (tab (sys m)) = None).
Proof.
  split.
  - intros m pid pc memoria sporco Hr Hpid Hn E. destruct (mreach_dir _ _ Hr mac_vuota_dir Hn) as (H1 & H2 & H3).
    destruct pc as [| |b|b n|b|b posti|b dir|r]; cbn [crea_passo] in E; try done.
    { by destruct (pipe_crea_cerca (tab (sys m))) as [[]]. }
    pose proof (mette_dir b dir (tab (sys m)) Hn H1 H2 ltac:(intros p ->; by apply (H3 pid (CreaMette b (Some p))))) as HM.
    destruct (pipe_crea_mette b dir (tab (sys m))); [done|]. destruct HM as (p & -> & M1 & M2).
    pose proof (pot_min p (proj1 (H3 pid (CreaMette b (Some p)) p Hpid eq_refl))). exists b, p. split_and!; try done; lia.
  - destruct persa_conti as ([m Em] & Hn & He). unfold mac_persa in Hn, He. rewrite Em in Hn, He. cbn [mac_o] in Hn, He.
    unfold esce in He. destruct (creano m !! 1) as [pc|] eqn:E; [|done]. exists m, 1, pc. split; [by apply (corsa_crea_ok corsa_persa)|].
    split; [done|]. split; [done|]. by destruct (crea_passo true zeri pc (tab (sys m))).
Qed.

(** Process 1 makes a pipe, three bytes are written by process 5, two are read
    by 6. *)
Definition mac1 : Macchina := mac_o (corsa_crea (replicate 10 1) mac_vuota).
Definition sys1 : Sys := sys mac1.
Definition tab1 : Tabella := tab sys1.
Definition tab2 : Tabella := snd (pipe_scrivi_giro 0 [10; 20; 30] false (Some 5) tab1).
Definition pipe0 (t : Tabella) : Pipe := match g_pipe t with p :: _ => p | [] => pipe_nuova [] end.

Definition sys2 : Sys :=
  mkSys tab2 (aggiorna (scritti sys1) 0 (scritti sys1 0 ++ [10; 20; 30])) (letti sys1).
Definition mac2 : Macchina := mkMac sys2 (creano mac1).
(** Process 6 reads from the empty pipe and falls asleep. *)
Definition sys_dorme : Sys :=
  mkSys (snd (pipe_leggi_giro 0 100 false (Some 6) tab1)) (scritti sys1) (aggiorna (letti sys1) 0 (letti sys1 0 ++ [])).

Lemma mac1_reach : rtc mstep mac_vuota mac1.
Proof.
  apply (corsa_crea_ok (replicate 10 1)). unfold mac1.
  assert (E : match corsa_crea (replicate 10 1) mac_vuota with Some _ => true | None => false end = true) by (vm_compute; reflexivity).
  by destruct (corsa_crea (replicate 10 1) mac_vuota).
Qed.

Lemma mac2_reach : rtc mstep mac_vuota mac2.
Proof.
  eapply rtc_r; [exact mac1_reach|]. change mac1 with (mkMac sys1 (creano mac1)). apply ms_chiamata.
  apply (ps_scrivi sys1 5 0 [10; 20; 30] false (Torna 3 []) tab2); [done | vm_compute; discriminate | unfold PIPE_TRANCHE; simpl; lia | vm_compute; reflexivity].
Qed.

Lemma pipe_fifo_witness : scritti sys2 0 = letti sys2 0 ++ contenuto (pipe0 tab2) /\ contenuto (pipe0 tab2) = [10; 20; 30].
Proof.
  split; [|vm_compute; reflexivity]. apply (pipe_fifo mac2 0 (pipe0 tab2) mac2_reach). vm_compute; reflexivity.
Defined.

Lemma pipe_no_lost_wakeup_witness :
  exists h p, g_pipe (tab sys_dorme) !! h = Some p /\ usata p = true /\
    ((6 ∈ attesi (att_lettori p) /\ quanti p = 0 /\ 0 < scrittori p) \/
     (6 ∈ attesi (att_scrittori p) /\ quanti p = PIPE_DIM /\ 0 < lettori p)).
Proof.
  apply (pipe_no_lost_wakeup (mkMac sys_dorme (creano mac1)) 6).
  - eapply rtc_r; [exact mac1_reach|]. change mac1 with (mkMac sys1 (creano mac1)) at 1. apply ms_chiamata.
    apply (ps_leggi sys1 6 0 100 false Dorme); [done | vm_compute; discriminate | unfold PIPE_TRANCHE; lia | vm_compute; reflexivity].
  - vm_compute. reflexivity.
Defined.

Lemma pipe0_ok : pipe_ok (pipe0 tab1) /\ pipe_ok (pipe0 tab2).
Proof.
  split; [apply (pipe_ok_da sys1 0 _ (proj1 (mreach_ok _ _ mac1_reach mac_vuota_ok))); vm_compute; reflexivity
         | apply (pipe_ok_da sys2 0 _ (proj1 (mreach_ok _ _ mac2_reach mac_vuota_ok))); vm_compute; reflexivity].
Qed.

Lemma pipe_event_wakes_witness :
  6 ∉ dormono (snd (pipe_scrivi_giro 0 [7] false (Some 5) (tab sys_dorme))).
Proof.
  destruct (pipe_event_wakes (tab sys_dorme) 0 6 (pipe0 (tab sys_dorme)) ltac:(vm_compute; reflexivity)) as (H & _).
  apply (H [7] false (Some 5) 1); [reflexivity | lia | by left].
Defined.

Lemma pipe_leggi_branches_witness :
  fst (pipe_leggi_giro 0 2 false (Some 6) tab2) = Torna 2 [10; 20].
Proof.
  pose proof (pipe_leggi_branches 0 2 6 false tab2 (pipe0 tab2) ltac:(vm_compute; reflexivity) (proj2 pipe0_ok)
    ltac:(unfold PIPE_TRANCHE; lia) ltac:(lia)) as H.
  destruct (pipe_leggi_giro 0 2 false (Some 6) tab2) as [e t']. exact (proj1 H).
Defined.

Lemma pipe_scrivi_branches_witness :
  fst (pipe_scrivi_giro 0 [1; 2] false (Some 5) tab2) = Torna 2 [].
Proof.
  pose proof (pipe_scrivi_branches 0 5 [1; 2] false tab2 (pipe0 tab2) ltac:(vm_compute; reflexivity) (proj2 pipe0_ok)
    ltac:(unfold PIPE_TRANCHE; simpl; lia) ltac:(lia)) as H.
  destruct (pipe_scrivi_giro 0 [1; 2] false (Some 5) tab2) as [e t']. exact (proj1 H).
Defined.

Lemma attese_set_witness :
  (attese_metti (attese_cresci_installa (replicate 8 0) (mkAttese 5 [] 0)) 6).1 = true.
Proof.
  assert (A : att_ok (mkAttese 5 [] 0)).
  { split; unfold posti, attesi; simpl; [lia | lia | apply NoDup_singleton | intros H%list_elem_of_singleton; lia]. }
  exact (proj2 (proj2 (proj2 (proj2 (proj2 (attese_set (mkAttese 5 [] 0) 6 (replicate 8 0) A ltac:(lia) eq_refl)))))).
Defined.
