(* ===== verification/Ipc.v ===== *)
(** * Inter-process messages (kernel/ipc/ipc.c)

    Every process has a mailbox of [IPC_MAILBOX_DEPTH] messages and, in front of
    it, a line of the senders that found it full: a doubly linked list threaded
    through the process control blocks, whose front members hold a promised
    slot.  A [Process *] is the slot number of the process table.  A stretch of
    code with the interrupts off is one function; the blocking calls are loops
    of such rounds, whose outcome is [Rende r] (the call returns) or [Dorme]
    ([sched_block]). *)

From S2P Require Import Prelude.

Definition IPC_MSG_MAX_DATA : Z := 1536.
Definition IPC_MAILBOX_DEPTH : Z := 4.
Definition IPC_NAME_LEN : nat := 16.
Definition IPC_NOMI_MAX : nat := 128.
Definition IPC_SEND_ATTESA_TICK : Z := 1000.
Definition IPC_SENDER_KERNEL : Z := 0.
Definition IPC_TYPE_IRQ_NOTIFY : Z := 4294967295.
Definition IPC_SENZA_ATTESA : Z := 2147483648.

Inductive ProcState : Type :=
| PROC_UNUSED | PROC_READY | PROC_RUNNING | PROC_BLOCKED | PROC_ZOMBIE | PROC_SLEEPING | PROC_NASCENTE.

#[export] Instance ProcState_eq_dec : EqDecision ProcState.
Proof. solve_decision. Defined.

Record IpcMessage : Type := mkMsg {
  sender_pid : Z;
  tipo : Z;
  len : Z;
  data : list Z
}.

(** The fields of the PCB that the scheduler keeps. *)
Record Sched : Type := mkSched {
  pid : Z;
  state : ProcState;
  uid : Z;
  block_until : Z;
  interrotto : bool
}.

(** The mailbox. *)
Record Casella : Type := mkCas {
  ipc_mailbox : list IpcMessage;
  ipc_head : Z;
  ipc_tail : Z;
  ipc_count : Z
}.

(** The line in front of the mailbox. *)
Record Fila : Type := mkFila {
  ipc_fila_testa : option nat;
  ipc_fila_coda : option nat;
  ipc_riservati : Z
}.

(** The place of the process in the line of another one. *)
Record Posto : Type := mkPosto {
  ipc_fila_su : option nat;
  ipc_fila_prima : option nat;
  ipc_fila_dopo : option nat;
  ipc_fila_concesso : bool
}.

Record Process : Type := mkProc {
  sch : Sched;
  cas : Casella;
  fila : Fila;
  posto : Posto
}.

Record IpcNome : Type := mkNome {
  npid : Z;
  nome : list Z
}.

(** [PROC_POSTO i] for [i < g_proc_posti], the registry of names and the clock. *)
Record Mondo : Type := mkMondo {
  PROC_POSTO : nat -> Process;
  g_proc_posti : nat;
  g_nomi : list IpcNome;
  g_ticks : Z
}.

(** ** Updates of one field *)

Definition upd (i : nat) (f : Process -> Process) (s : Mondo) : Mondo :=
  mkMondo (fun j => if decide (j = i) then f (PROC_POSTO s j) else PROC_POSTO s j)
    (g_proc_posti s) (g_nomi s) (g_ticks s).

Definition su_sch (f : Sched -> Sched) (p : Process) : Process := mkProc (f (sch p)) (cas p) (fila p) (posto p).
Definition su_cas (f : Casella -> Casella) (p : Process) : Process := mkProc (sch p) (f (cas p)) (fila p) (posto p).
Definition su_fila (f : Fila -> Fila) (p : Process) : Process := mkProc (sch p) (cas p) (f (fila p)) (posto p).
Definition su_posto (f : Posto -> Posto) (p : Process) : Process := mkProc (sch p) (cas p) (fila p) (f (posto p)).

Definition set_state (v : ProcState) (x : Sched) : Sched := mkSched (pid x) v (uid x) (block_until x) (interrotto x).
Definition set_block_until (v : Z) (x : Sched) : Sched := mkSched (pid x) (state x) (uid x) v (interrotto x).
Definition set_testa (v : option nat) (x : Fila) : Fila := mkFila v (ipc_fila_coda x) (ipc_riservati x).
Definition set_coda (v : option nat) (x : Fila) : Fila := mkFila (ipc_fila_testa x) v (ipc_riservati x).
Definition set_riservati (v : Z) (x : Fila) : Fila := mkFila (ipc_fila_testa x) (ipc_fila_coda x) v.
Definition set_prima (v : option nat) (x : Posto) : Posto := mkPosto (ipc_fila_su x) v (ipc_fila_dopo x) (ipc_fila_concesso x).
Definition set_dopo (v : option nat) (x : Posto) : Posto := mkPosto (ipc_fila_su x) (ipc_fila_prima x) v (ipc_fila_concesso x).
Definition set_concesso (v : bool) (x : Posto) : Posto := mkPosto (ipc_fila_su x) (ipc_fila_prima x) (ipc_fila_dopo x) v.

Definition state_of (s : Mondo) (i : nat) : ProcState := state (sch (PROC_POSTO s i)).
Definition pid_of (s : Mondo) (i : nat) : Z := pid (sch (PROC_POSTO s i)).

(** ** The calls of the scheduler that ipc.c makes (kernel/sched/sched.c) *)

(** The first slot from [i], of the [n] that follow, that satisfies [q]. *)
Fixpoint primo (q : nat -> bool) (n i : nat) : option nat :=
  match n with
  | O => None
  | S n => if q i then Some i else primo q n (S i)
  end.

Definition proc_get_by_pid (s : Mondo) (p : Z) : option nat :=
  primo (fun i => (pid_of s i =? p) && negb (bool_decide (state_of s i = PROC_UNUSED))) (g_proc_posti s) 0.

(** The scan stops at the first slot of that pid that is being born (nobody is
    woken) or asleep (it becomes ready, its deadline disarmed). *)
Definition sched_unblock_locked (p : Z) (s : Mondo) : Mondo :=
  match primo (fun i => (pid_of s i =? p) &&
                (bool_decide (state_of s i = PROC_NASCENTE) || bool_decide (state_of s i = PROC_BLOCKED)))
          (g_proc_posti s) 0 with
  | Some i =>
      if decide (state_of s i = PROC_BLOCKED)
      then upd i (su_sch (fun x => set_state PROC_READY (set_block_until 0 x))) s
      else s
  | None => s
  end.

Definition sched_block (self : nat) (s : Mondo) : Mondo :=
  upd self (su_sch (set_state PROC_BLOCKED)) s.

(** [if (w->state == PROC_BLOCKED) sched_unblock_locked(w->pid)] *)
Definition sveglia (w : nat) (s : Mondo) : Mondo :=
  if decide (state_of s w = PROC_BLOCKED) then sched_unblock_locked (pid_of s w) s else s.

(** ** The line in front of a full mailbox *)

Definition fila_togli (w : nat) (s : Mondo) : Mondo :=
  let p := posto (PROC_POSTO s w) in
  match ipc_fila_su p with
  | None => s
  | Some d =>
      let s1 := match ipc_fila_prima p with
                | Some a => upd a (su_posto (set_dopo (ipc_fila_dopo p))) s
                | None => upd d (su_fila (set_testa (ipc_fila_dopo p))) s
                end in
      let s2 := match ipc_fila_dopo p with
                | Some b => upd b (su_posto (set_prima (ipc_fila_prima p))) s1
                | None => upd d (su_fila (set_coda (ipc_fila_prima p))) s1
                end in
      let r := ipc_riservati (fila (PROC_POSTO s2 d)) in
      let s3 := if ipc_fila_concesso p && (0 <? r)
                then upd d (su_fila (set_riservati (r - 1))) s2 else s2 in
      upd w (su_posto (fun _ => mkPosto None None None false)) s3
  end.

Definition fila_metti (d w : nat) (s : Mondo) : Mondo :=
  let c := ipc_fila_coda (fila (PROC_POSTO s d)) in
  let s1 := upd w (su_posto (fun _ => mkPosto (Some d) c None false)) s in
  let s2 := match c with
            | Some a => upd a (su_posto (set_dopo (Some w))) s1
            | None => upd d (su_fila (set_testa (Some w))) s1
            end in
  upd d (su_fila (set_coda (Some w))) s2.

(** The loop of [fila_avanza] from [w] on; [n] bounds the turns. *)
Fixpoint avanza_loop (n : nat) (d : nat) (w : option nat) (s : Mondo) : run Mondo :=
  match w with
  | None => Ok s
  | Some w =>
      match n with
      | O => NoFuel
      | S n =>
          let f := fila (PROC_POSTO s d) in
          let concesso := ipc_fila_concesso (posto (PROC_POSTO s w)) in
          if negb concesso && (IPC_MAILBOX_DEPTH <=? u32 (ipc_count (cas (PROC_POSTO s d)) + ipc_riservati f))
          then Ok s
          else
            let s1 := if concesso then s
                      else upd d (su_fila (set_riservati (u32 (ipc_riservati f + 1))))
                             (upd w (su_posto (set_concesso true)) s) in
            let s2 := sveglia w s1 in
            avanza_loop n d (ipc_fila_dopo (posto (PROC_POSTO s2 w))) s2
      end
  end.

Definition fila_avanza (d : nat) (s : Mondo) : run Mondo :=
  avanza_loop (g_proc_posti s) d (ipc_fila_testa (fila (PROC_POSTO s d))) s.

(** [d = w->ipc_fila_su; fila_togli(w); if (d != NULL) fila_avanza(d);] *)
Definition lascia_fila (w : nat) (s : Mondo) : run Mondo :=
  match ipc_fila_su (posto (PROC_POSTO s w)) with
  | None => Ok (fila_togli w s)
  | Some d => fila_avanza d (fila_togli w s)
  end.

Fixpoint congeda_loop (n : nat) (p : nat) (s : Mondo) : run Mondo :=
  match ipc_fila_testa (fila (PROC_POSTO s p)) with
  | None => Ok s
  | Some w =>
      match n with
      | O => NoFuel
      | S n => congeda_loop n p (sveglia w (fila_togli w s))
      end
  end.

Definition ipc_processo_finito (p : nat) (s : Mondo) : run Mondo :=
  s ← match ipc_fila_su (posto (PROC_POSTO s p)) with
      | Some d => fila_avanza d (fila_togli p s)
      | None => Ok s
      end;
  s ← congeda_loop (g_proc_posti s) p s;
  Ok (upd p (su_fila (set_riservati 0)) s).

(** ** Delivery *)

(** [src] over the first bytes of a buffer. *)
Definition copia (src dst : list Z) : list Z := src ++ drop (length src) dst.

(** One message written at [ipc_tail]; [bytes] overwrite the start of [data]. *)
Definition deposita (mitt ty n : Z) (bytes : list Z) (c : Casella) : Casella :=
  let t := Z.to_nat (ipc_tail c) in
  mkCas (alter (fun m => mkMsg mitt ty n (copia bytes (data m))) t (ipc_mailbox c))
    (ipc_head c) (u32 (ipc_tail c + 1) mod IPC_MAILBOX_DEPTH) (u32 (ipc_count c + 1)).

Definition morto (st : ProcState) : bool :=
  bool_decide (st = PROC_UNUSED) || bool_decide (st = PROC_ZOMBIE).

(** The four bytes of a [uint32_t]. *)
Definition u32_bytes (x : Z) : list Z :=
  [x mod 256; x / 256 mod 256; x / 65536 mod 256; x / 16777216 mod 256].

Definition ipc_notify_irq (dest_pid irq_num : Z) (s : Mondo) : Z * Mondo :=
  match proc_get_by_pid s dest_pid with
  | None => (0, s)
  | Some d =>
      if morto (state_of s d) then (0, s) else
      if ipc_count (cas (PROC_POSTO s d)) <? IPC_MAILBOX_DEPTH then
        let s1 := upd d (su_cas (deposita IPC_SENDER_KERNEL IPC_TYPE_IRQ_NOTIFY 4 (u32_bytes irq_num))) s in
        (1, if decide (state_of s1 d = PROC_BLOCKED) then sched_unblock_locked dest_pid s1 else s1)
      else (0, s)
  end.

Inductive esito : Type :=
| Rende (r : Z)
| Dorme.

(** The arguments of [ipc_send] after its first lines: the clipped length, the
    flag, the type without it, the deadline and the bytes ([None] is NULL). *)
Record Invio : Type := mkInvio {
  dest_pid : Z;
  senza : bool;
  i_tipo : Z;
  i_len : Z;
  i_data : option (list Z);
  scadenza : Z
}.

Definition ipc_send_entra (dp ty : Z) (bytes : option (list Z)) (n : Z) (s : Mondo) : Invio :=
  let n := if IPC_MSG_MAX_DATA <? n then IPC_MSG_MAX_DATA else n in
  let sc := u32 (g_ticks s + IPC_SEND_ATTESA_TICK) in
  mkInvio dp (negb (Z.land ty IPC_SENZA_ATTESA =? 0))
    (Z.land ty (u32 (Z.lnot IPC_SENZA_ATTESA))) n bytes (if sc =? 0 then 1 else sc).

(** Who may take a slot of [d]. *)
Definition posto_per (self d : nat) (inv : Invio) (s : Mondo) : bool :=
  let c := ipc_count (cas (PROC_POSTO s d)) in
  if senza inv then c <? IPC_MAILBOX_DEPTH
  else if decide (ipc_fila_su (posto (PROC_POSTO s self)) = Some d)
  then ipc_fila_concesso (posto (PROC_POSTO s self)) && (c <? IPC_MAILBOX_DEPTH)
  else bool_decide (ipc_fila_testa (fila (PROC_POSTO s d)) = None)
       && (u32 (c + ipc_riservati (fila (PROC_POSTO s d))) <? IPC_MAILBOX_DEPTH).

(** The bytes the copy loop writes over the start of the slot. *)
Definition payload (inv : Invio) : list Z :=
  match i_data inv with
  | Some b => if 0 <? i_len inv then take (Z.to_nat (i_len inv)) b else []
  | None => []
  end.

(** One turn of the loop of [ipc_send] by the process [self], [dest] being what
    [proc_get_by_pid] returned at the top of the turn. *)
Definition ipc_send_giro (self : nat) (dest : option nat) (inv : Invio) (s : Mondo)
  : run (esito * Mondo) :=
  let via := s ← lascia_fila self s; Ok (Rende (- ESRCH), s) in
  match dest with
  | None => via
  | Some d =>
      if morto (state_of s d) then via else
      if posto_per self d inv s then
        let s1 := if decide (ipc_fila_su (posto (PROC_POSTO s self)) = Some d) then fila_togli self s else s in
        let s2 := upd d (su_cas (deposita (pid_of s1 self) (i_tipo inv) (i_len inv) (payload inv))) s1 in
        Ok (Rende 0, if decide (state_of s2 d = PROC_BLOCKED) then sched_unblock_locked (dest_pid inv) s2 else s2)
      else if senza inv then Ok (Rende (- EBUSY), s)
      else if scadenza inv <=? g_ticks s then
        s ← lascia_fila self s; Ok (Rende (- EBUSY), s)
      else
        s ← (if decide (ipc_fila_su (posto (PROC_POSTO s self)) = Some d) then Ok s
             else s ← lascia_fila self s; Ok (fila_metti d self s));
        Ok (Dorme, sched_block self (upd self (su_sch (set_block_until (scadenza inv))) s))
  end.

(** ** Reception *)

(** The deadline of [ipc_recv_timeout]: 0 is "none". *)
Definition ipc_recv_scadenza (timeout_ms : Z) (s : Mondo) : Z :=
  if 0 <? timeout_ms then
    let ticks := u32 (timeout_ms + 9) / 10 in
    let ticks := if ticks =? 0 then 1 else ticks in
    let sc := u32 (g_ticks s + ticks) in
    if sc =? 0 then 1 else sc
  else 0.

(** What a reception writes: the three fields of [out] and the bytes of [buf]. *)
Record Ricevuto : Type := mkRic {
  r_sender : Z;
  r_tipo : Z;
  r_len : Z;
  r_buf : list Z
}.

Definition estrai (c : Casella) : Casella :=
  mkCas (ipc_mailbox c) (u32 (ipc_head c + 1) mod IPC_MAILBOX_DEPTH) (ipc_tail c) (u32 (ipc_count c - 1)).

Definition msg0 : IpcMessage := mkMsg 0 0 0 [].

(** One turn of the loop of [ipc_recv_timeout]; [svegliato] is true when the
    turn follows a sleep. *)
Definition ipc_recv_giro (self : nat) (buf_len sc : Z) (svegliato : bool) (s : Mondo)
  : run (esito * option Ricevuto * Mondo) :=
  if svegliato && interrotto (sch (PROC_POSTO s self)) then Ok (Rende (- EINTR), None, s) else
  let c := cas (PROC_POSTO s self) in
  if 0 <? ipc_count c then
    let slot := nth (Z.to_nat (ipc_head c)) (ipc_mailbox c) msg0 in
    let copy_len := if buf_len <? len slot then buf_len else len slot in
    let s1 := upd self (su_sch (set_block_until 0)) (upd self (su_cas estrai) s) in
    s2 ← match ipc_fila_testa (fila (PROC_POSTO s1 self)) with
         | Some _ => fila_avanza self s1
         | None => Ok s1
         end;
    Ok (Rende 0, Some (mkRic (sender_pid slot) (tipo slot) (len slot) (take (Z.to_nat copy_len) (data slot))), s2)
  else if negb (sc =? 0) && (sc <=? g_ticks s) then
    Ok (Rende (- ETIMEDOUT), None, upd self (su_sch (set_block_until 0)) s)
  else
    Ok (Dorme, None, sched_block self (upd self (su_sch (set_block_until sc)) s)).

(** ** The registry of names *)

(** A C string: the byte at [k], the terminator beyond the last one. *)
Definition car (a : list Z) (k : nat) : Z := nth k a 0.

Fixpoint nome_uguale_loop (n j : nat) (a b : list Z) : bool :=
  match n with
  | O => true
  | S n =>
      if negb (car a j =? car b j) then false
      else if car a j =? 0 then true
      else nome_uguale_loop n (S j) a b
  end.

Definition nome_uguale (a b : list Z) : bool := nome_uguale_loop IPC_NAME_LEN 0 a b.

Definition voce_viva (s : Mondo) (v : IpcNome) : bool :=
  if npid v =? 0 then false else
  match proc_get_by_pid s (npid v) with
  | None => false
  | Some p => negb (morto (state_of s p))
  end.

(** [while (name[len] && len < IPC_NAME_LEN - 1) len++;] *)
Fixpoint nome_len (n l : nat) (name : list Z) : nat :=
  match n with
  | O => l
  | S n => if negb (car name l =? 0) && (Z.of_nat l <? Z.of_nat IPC_NAME_LEN - 1) then nome_len n (S l) name else l
  end.

(** The digits of [v], least significant first ([rov]). *)
Fixpoint cifre (n : nat) (v : Z) : list Z :=
  match n with
  | O => []
  | S n => if 0 <? v then (48 + v mod 10) :: cifre n (v / 10) else []
  end.

(** [atteso]: the uid in decimal and a colon. *)
Definition atteso (u : Z) : list Z := rev (cifre 10 u) ++ [58].

Fixpoint prefisso_ok (k : nat) (att name : list Z) : bool :=
  match att with
  | [] => true
  | c :: att => (car name k =? c) && prefisso_ok (S k) att name
  end.

(** The copy of a name into its entry, the terminator included. *)
Fixpoint scrivi_nome (n k : nat) (name dst : list Z) : list Z :=
  match n with
  | O => dst
  | S n =>
      let dst := <[k := car name k]> dst in
      if car name k =? 0 then dst else scrivi_nome n (S k) name dst
  end.

Definition con_nomi (l : list IpcNome) (s : Mondo) : Mondo :=
  mkMondo (PROC_POSTO s) (g_proc_posti s) l (g_ticks s).

Definition voce0 : IpcNome := mkNome 0 [].
Definition voce (s : Mondo) (i : nat) : IpcNome := nth i (g_nomi s) voce0.

(** [name] is [None] for NULL; [self] is the current process, if any. *)
Definition ipc_register (self : option nat) (name : option (list Z)) (s : Mondo) : Z * Mondo :=
  match name with
  | None => (- EINVAL, s)
  | Some name =>
      if car name 0 =? 0 then (- EINVAL, s) else
      let l := nome_len IPC_NAME_LEN 0 name in
      if negb (car name l =? 0) then (- EINVAL, s) else
      match primo (fun i => voce_viva s (voce s i) && nome_uguale (nome (voce s i)) name) IPC_NOMI_MAX 0 with
      | Some _ => (- EEXIST, s)
      | None =>
          let permesso :=
            match self with
            | Some p => let u := uid (sch (PROC_POSTO s p)) in
                        if negb (u =? 0) then prefisso_ok 0 (atteso u) name else true
            | None => true
            end in
          if negb permesso then (- EPERM, s) else
          match primo (fun i => negb (voce_viva s (voce s i))) IPC_NOMI_MAX 0 with
          | None => (- ENOSPC, s)
          | Some i =>
              let v := mkNome (match self with Some p => pid_of s p | None => 0 end)
                         (scrivi_nome IPC_NAME_LEN 0 name (nome (voce s i))) in
              (0, con_nomi (<[i := v]> (g_nomi s)) s)
          end
      end
  end.

(** The conversion of a [uint32_t] to [int32_t]. *)
Definition s32 (x : Z) : Z := if x <? 2147483648 then x else x - W32.

Definition ipc_lookup (name : option (list Z)) (s : Mondo) : Z :=
  match name with
  | None => - EINVAL
  | Some name =>
      if car name 0 =? 0 then - EINVAL else
      match primo (fun i => voce_viva s (voce s i) && nome_uguale (nome (voce s i)) name) IPC_NOMI_MAX 0 with
      | Some i => s32 (npid (voce s i))
      | None => - ENOENT
      end
  end.

Definition svuota (c : Casella) : Casella := mkCas (ipc_mailbox c) 0 0 0.

Definition ipc_cleanup_process (p : Z) (s : Mondo) : run Mondo :=
  let chi s := primo (fun i => pid_of s i =? p) (g_proc_posti s) 0 in
  s1 ← match chi s with
       | Some i => ipc_processo_finito i s
       | None => Ok s
       end;
  let s2 := match chi s1 with
            | Some i => upd i (su_cas svuota) s1
            | None => s1
            end in
  Ok (con_nomi (map (fun v => if npid v =? p then mkNome 0 (nome v) else v) (g_nomi s2)) s2).
