(* ===== verification/IpcSpec.v ===== *)
(** * The line in front of a mailbox: specification of its operations

    [linee s L R]: for every process [d] the control blocks hold exactly the
    doubly linked list [L d], whose first [R d] members are the promised ones. *)

From stdpp Require Import functions.
From S2P Require Import Prelude Ipc.

(** ** Reading a field after an update *)

Abbreviation sc s j := (sch (PROC_POSTO s j)).
Abbreviation ca s j := (cas (PROC_POSTO s j)).
Abbreviation fi s j := (fila (PROC_POSTO s j)).
Abbreviation po s j := (posto (PROC_POSTO s j)).

Section upd.
Context (s : Mondo) (i j : nat).

Lemma upd_same f : PROC_POSTO (upd i f s) i = f (PROC_POSTO s i).
Proof. unfold upd; cbn. by rewrite decide_True. Qed.

Lemma upd_other f : j <> i -> PROC_POSTO (upd i f s) j = PROC_POSTO s j.
Proof. intros. unfold upd; cbn. by rewrite decide_False. Qed.

Lemma sc_sch f : sc (upd i (su_sch f) s) j = if decide (j = i) then f (sc s j) else sc s j.
Proof. unfold upd; cbn. by case_decide. Qed.
Lemma sc_cas f : sc (upd i (su_cas f) s) j = sc s j.
Proof. unfold upd; cbn. by case_decide. Qed.
Lemma sc_fila f : sc (upd i (su_fila f) s) j = sc s j.
Proof. unfold upd; cbn. by case_decide. Qed.
Lemma sc_posto f : sc (upd i (su_posto f) s) j = sc s j.
Proof. unfold upd; cbn. by case_decide. Qed.

Lemma ca_sch f : ca (upd i (su_sch f) s) j = ca s j.
Proof. unfold upd; cbn. by case_decide. Qed.
Lemma ca_cas f : ca (upd i (su_cas f) s) j = if decide (j = i) then f (ca s j) else ca s j.
Proof. unfold upd; cbn. by case_decide. Qed.
Lemma ca_fila f : ca (upd i (su_fila f) s) j = ca s j.
Proof. unfold upd; cbn. by case_decide. Qed.
Lemma ca_posto f : ca (upd i (su_posto f) s) j = ca s j.
Proof. unfold upd; cbn. by case_decide. Qed.

Lemma fi_sch f : fi (upd i (su_sch f) s) j = fi s j.
Proof. unfold upd; cbn. by case_decide. Qed.
Lemma fi_cas f : fi (upd i (su_cas f) s) j = fi s j.
Proof. unfold upd; cbn. by case_decide. Qed.
Lemma fi_fila f : fi (upd i (su_fila f) s) j = if decide (j = i) then f (fi s j) else fi s j.
Proof. unfold upd; cbn. by case_decide. Qed.
Lemma fi_posto f : fi (upd i (su_posto f) s) j = fi s j.
Proof. unfold upd; cbn. by case_decide. Qed.

Lemma po_sch f : po (upd i (su_sch f) s) j = po s j.
Proof. unfold upd; cbn. by case_decide. Qed.
Lemma po_cas f : po (upd i (su_cas f) s) j = po s j.
Proof. unfold upd; cbn. by case_decide. Qed.
Lemma po_fila f : po (upd i (su_fila f) s) j = po s j.
Proof. unfold upd; cbn. by case_decide. Qed.
Lemma po_posto f : po (upd i (su_posto f) s) j = if decide (j = i) then f (po s j) else po s j.
Proof. unfold upd; cbn. by case_decide. Qed.
End upd.

Create Rewrite HintDb ipc.
#[export] Hint Rewrite sc_sch sc_cas sc_fila sc_posto ca_sch ca_cas ca_fila ca_posto
  fi_sch fi_cas fi_fila fi_posto po_sch po_cas po_fila po_posto : ipc.

Ltac ipcs := autorewrite with ipc.

(** What is neither a link nor a state: the size of the table, the names, the
    clock. *)
Definition stesso_resto (s s' : Mondo) : Prop :=
  g_proc_posti s' = g_proc_posti s /\ g_nomi s' = g_nomi s /\ g_ticks s' = g_ticks s.

(** The links, the states and the mailboxes, compared one by one. *)
Definition stesse_caselle (s s' : Mondo) : Prop := forall j, ca s' j = ca s j.
Definition stessi_stati (s s' : Mondo) : Prop := forall j, sc s' j = sc s j.

(** ** Scans of the process table *)

Lemma primo_spec q n i :
  match primo q n i with
  | Some j => (i <= j < i + n)%nat /\ q j = true /\ forall k, (i <= k < j)%nat -> q k = false
  | None => forall k, (i <= k < i + n)%nat -> q k = false
  end.
Proof.
  revert i. induction n as [|n IH]; intros i; cbn [primo]; [intros; lia|].
  destruct (q i) eqn:E.
  - repeat split; [lia|lia|done|]. intros; lia.
  - specialize (IH (S i)). destruct (primo q n (S i)) as [j|].
    + destruct IH as (H1 & H2 & H3). repeat split; [lia|lia|done|].
      intros k Hk. destruct (decide (k = i)) as [->|]; [done|]. apply H3; lia.
    + intros k Hk. destruct (decide (k = i)) as [->|]; [done|]. apply IH; lia.
Qed.

Lemma primo_some q n i j :
  primo q n i = Some j -> (i <= j < i + n)%nat /\ q j = true /\ forall k, (i <= k < j)%nat -> q k = false.
Proof. intros H. pose proof (primo_spec q n i) as Hs. by rewrite H in Hs. Qed.

Lemma primo_none q n i : primo q n i = None -> forall k, (i <= k < i + n)%nat -> q k = false.
Proof. intros H. pose proof (primo_spec q n i) as Hs. by rewrite H in Hs. Qed.

(** The only slot that satisfies [q] is the one found. *)
Lemma primo_unico q n j :
  (j < n)%nat -> q j = true -> (forall k, (k < n)%nat -> q k = true -> k = j) -> primo q n 0 = Some j.
Proof.
  intros Hj Hq Hu. pose proof (primo_spec q n 0) as Hs. destruct (primo q n 0) as [k|].
  - destruct Hs as (H1 & H2 & _). f_equal. apply Hu; [lia|done].
  - specialize (Hs j). rewrite Hq in Hs. discriminate Hs; lia.
Qed.

Lemma primo_ext q q' n i : (forall k, q k = q' k) -> primo q n i = primo q' n i.
Proof. intros H. revert i. induction n as [|n IH]; intros i; cbn; [done|]. by rewrite H, IH. Qed.

(** ** Processes: the slots in use have different pids *)

Record pids_ok (s : Mondo) : Prop := mkPids {
  pk_range : forall i, state_of s i <> PROC_UNUSED -> (i < g_proc_posti s)%nat;
  pk_unique : forall i j, state_of s i <> PROC_UNUSED -> state_of s j <> PROC_UNUSED ->
    pid_of s i = pid_of s j -> i = j
}.

Lemma proc_get_by_pid_in_use s d :
  pids_ok s -> state_of s d <> PROC_UNUSED -> proc_get_by_pid s (pid_of s d) = Some d.
Proof.
  intros [Hr Hu] Hd. apply primo_unico; [by apply Hr| |].
  - rewrite Z.eqb_refl, bool_decide_eq_false_2 by done. done.
  - intros k _. rewrite andb_true_iff, negb_true_iff, bool_decide_eq_false.
    intros [He Hs]. apply Hu; [done|done|lia].
Qed.

Lemma proc_get_by_pid_some s p d :
  proc_get_by_pid s p = Some d ->
  (d < g_proc_posti s)%nat /\ pid_of s d = p /\ state_of s d <> PROC_UNUSED.
Proof.
  intros H. apply primo_some in H as (H1 & H2 & _).
  rewrite andb_true_iff, negb_true_iff, bool_decide_eq_false in H2. split; [lia|]. split; [lia|tauto].
Qed.

(** What [sched_unblock_locked] does to the scheduling fields of its process. *)
Definition svegliato (x : Sched) : Sched :=
  if decide (state x = PROC_BLOCKED) then mkSched (pid x) PROC_READY (uid x) 0 (interrotto x) else x.

Lemma svegliato_pid x : pid (svegliato x) = pid x.
Proof. unfold svegliato. by case_decide. Qed.

Lemma svegliato_not_blocked x : state (svegliato x) <> PROC_BLOCKED.
Proof. unfold svegliato. by case_decide. Qed.

Lemma svegliato_idem x : svegliato (svegliato x) = svegliato x.
Proof. unfold svegliato at 1. rewrite decide_False; [done|]. apply svegliato_not_blocked. Qed.

Lemma svegliato_unused x : state (svegliato x) = PROC_UNUSED <-> state x = PROC_UNUSED.
Proof. unfold svegliato. case_decide as H; [|done]. cbn. rewrite H. split; discriminate. Qed.

Lemma svegliato_morto x : morto (state (svegliato x)) = morto (state x).
Proof. unfold svegliato. case_decide as H; [|done]. cbn. by rewrite H. Qed.

(** Only scheduling fields change. *)
Definition solo_stati (s s' : Mondo) : Prop :=
  stesso_resto s s' /\ stesse_caselle s s' /\
  (forall j, fi s' j = fi s j) /\ (forall j, po s' j = po s j).

Lemma unblock_solo_stati p s : solo_stati s (sched_unblock_locked p s).
Proof.
  unfold sched_unblock_locked. destruct (primo _ _ _) as [i|]; [case_decide|];
    repeat split; intros j; ipcs; done.
Qed.

(** Waking a process in use by its pid wakes that process and no other. *)
Lemma unblock_sc s w j :
  pids_ok s -> state_of s w <> PROC_UNUSED ->
  sc (sched_unblock_locked (pid_of s w) s) j = if decide (j = w) then svegliato (sc s w) else sc s j.
Proof.
  intros [Hr Hu] Hw. unfold sched_unblock_locked.
  set (q := fun i => _).
  assert (Hq : forall k, q k = true -> k = w).
  { intros k. unfold q. rewrite andb_true_iff, orb_true_iff, !bool_decide_eq_true. intros [He [Hs|Hs]];
      (apply Hu; [by rewrite Hs|done|lia]). }
  destruct (primo q (g_proc_posti s) 0) as [i|] eqn:E.
  - apply primo_some in E as (_ & E & _). apply Hq in E as ->.
    case_decide as Hb.
    + ipcs. case_decide as Hj; [|done]. subst j. unfold svegliato. by rewrite decide_True.
    + case_decide as Hj; [|done]. subst j. unfold svegliato. by rewrite decide_False.
  - case_decide as Hj; [|done]. subst j. unfold svegliato. rewrite decide_False; [done|].
    intros Hb. pose proof (primo_none _ _ _ E w) as Hn. unfold q in Hn.
    rewrite Z.eqb_refl in Hn. unfold state_of in Hn. rewrite Hb in Hn. discriminate Hn.
    split; [lia|]. apply Hr. unfold state_of. by rewrite Hb.
Qed.

Lemma sveglia_solo_stati w s : solo_stati s (sveglia w s).
Proof. unfold sveglia. case_decide; [apply unblock_solo_stati|]. by repeat split. Qed.

Lemma sveglia_sc s w j :
  pids_ok s -> sc (sveglia w s) j = if decide (j = w) then svegliato (sc s w) else sc s j.
Proof.
  intros Hp. unfold sveglia. case_decide as Hb.
  - apply unblock_sc; [done|]. by rewrite Hb.
  - case_decide as Hj; [|done]. subst j. unfold svegliato. by rewrite decide_False.
Qed.

(** [pids_ok] looks only at pids, at which slots are in use and at the size. *)
Lemma pids_ok_ext s s' :
  g_proc_posti s' = g_proc_posti s -> (forall j, pid_of s' j = pid_of s j) ->
  (forall j, state_of s' j = PROC_UNUSED <-> state_of s j = PROC_UNUSED) -> pids_ok s -> pids_ok s'.
Proof.
  intros Hn Hpid Hst [Hr Hu]. split.
  - intros i. rewrite Hst, Hn. apply Hr.
  - intros i j. rewrite !Hst, !Hpid. apply Hu.
Qed.

Lemma pids_ok_sveglia w s : pids_ok s -> pids_ok (sveglia w s).
Proof.
  intros Hp. pose proof (sveglia_solo_stati w s) as ((Hn & _) & _).
  eapply pids_ok_ext; [exact Hn| | |exact Hp]; intros j; unfold pid_of, state_of;
    rewrite sveglia_sc by done; case_decide as Hj; [subst j|done|subst j|done].
  - apply svegliato_pid.
  - apply svegliato_unused.
Qed.

Lemma pids_ok_stati s s' : stesso_resto s s' -> stessi_stati s s' -> pids_ok s -> pids_ok s'.
Proof.
  intros (Hn & _) Hs. apply pids_ok_ext; [done| |]; intros j; unfold pid_of, state_of; by rewrite Hs.
Qed.

(** ** The representation of the lines *)

Definition pre (l : list nat) (k : nat) : option nat :=
  match k with O => None | S k => l !! k end.

Definition nessun_posto : Posto := mkPosto None None None false.

Record line_ok (s : Mondo) (d : nat) (l : list nat) (r : nat) : Prop := mkLine {
  lk_fila : fi s d = mkFila (head l) (last l) (Z.of_nat r);
  lk_r : (r <= length l)%nat;
  lk_nodup : NoDup l;
  lk_posto : forall k w, l !! k = Some w ->
    po s w = mkPosto (Some d) (pre l k) (l !! S k) (bool_decide (k < r)%nat)
}.

Record linee (s : Mondo) (L : nat -> list nat) (R : nat -> nat) : Prop := mkLinee {
  li_ok : forall d, line_ok s d (L d) (R d);
  li_in : forall w d, ipc_fila_su (po s w) = Some d -> w ∈ L d;
  li_out : forall w, ipc_fila_su (po s w) = None -> po s w = nessun_posto
}.

Lemma linee_ext s s' L R :
  (forall j, fi s' j = fi s j) -> (forall j, po s' j = po s j) -> linee s L R -> linee s' L R.
Proof.
  intros Hf Hp [H1 H2 H3]. split.
  - intros d. destruct (H1 d) as [A B C D]. split; [by rewrite Hf|done|done|].
    intros k w Hk. rewrite Hp. by apply D.
  - intros w d. rewrite Hp. apply H2.
  - intros w. rewrite Hp. apply H3.
Qed.

(** A process of the line [d] stands in [d]'s line and in no other. *)
Lemma linee_su s L R d w : linee s L R -> w ∈ L d -> ipc_fila_su (po s w) = Some d.
Proof. intros H [k Hk]%list_elem_of_lookup. by rewrite (lk_posto _ _ _ _ (li_ok _ _ _ H d) k w Hk). Qed.

Lemma linee_disj s L R d d' w : linee s L R -> w ∈ L d -> w ∈ L d' -> d = d'.
Proof. intros H H1 H2. eapply linee_su in H1; [|done]. eapply linee_su in H2; [|done]. congruence. Qed.

Lemma linee_index s L R w d :
  linee s L R -> ipc_fila_su (po s w) = Some d -> exists k, L d !! k = Some w.
Proof. intros H Hs. by apply list_elem_of_lookup, (li_in _ _ _ H). Qed.

(** ** [fila_togli] *)

Lemma togli_po s w d u :
  ipc_fila_su (po s w) = Some d ->
  po (fila_togli w s) u =
    if decide (u = w) then nessun_posto else
    mkPosto (ipc_fila_su (po s u))
      (if decide (ipc_fila_dopo (po s w) = Some u) then ipc_fila_prima (po s w) else ipc_fila_prima (po s u))
      (if decide (ipc_fila_prima (po s w) = Some u) then ipc_fila_dopo (po s w) else ipc_fila_dopo (po s u))
      (ipc_fila_concesso (po s u)).
Proof.
  intros Hd. unfold fila_togli. rewrite Hd.
  destruct (ipc_fila_prima (po s w)) as [a|]; destruct (ipc_fila_dopo (po s w)) as [b|];
    destruct (ipc_fila_concesso (po s w) && _); ipcs;
    destruct (po s u) eqn:Eu; repeat case_decide; simplify_eq/=; done.
Qed.

Lemma togli_fi s w d j :
  ipc_fila_su (po s w) = Some d ->
  fi (fila_togli w s) j =
    if decide (j = d) then
      mkFila (match ipc_fila_prima (po s w) with Some _ => ipc_fila_testa (fi s d) | None => ipc_fila_dopo (po s w) end)
        (match ipc_fila_dopo (po s w) with Some _ => ipc_fila_coda (fi s d) | None => ipc_fila_prima (po s w) end)
        (if ipc_fila_concesso (po s w) && (0 <? ipc_riservati (fi s d)) then ipc_riservati (fi s d) - 1
         else ipc_riservati (fi s d))
    else fi s j.
Proof.
  intros Hd. unfold fila_togli. rewrite Hd.
  destruct (ipc_fila_prima (po s w)) as [a|]; destruct (ipc_fila_dopo (po s w)) as [b|];
    ipcs; rewrite ?decide_True by done;
    destruct (ipc_fila_concesso (po s w)); cbn [andb];
    try (destruct (0 <? _) eqn:E); ipcs; case_decide as Hj; try subst j;
    destruct (fi s d) eqn:Ed; cbn in *; rewrite ?E; done.
Qed.

Lemma togli_frame s w : stesso_resto s (fila_togli w s) /\ stesse_caselle s (fila_togli w s) /\ stessi_stati s (fila_togli w s).
Proof.
  unfold fila_togli. destruct (ipc_fila_su _) as [d|]; [|by repeat split].
  destruct (ipc_fila_prima _); destruct (ipc_fila_dopo _); destruct (ipc_fila_concesso _ && _);
    repeat split; intros j; ipcs; done.
Qed.

Lemma togli_none s w : ipc_fila_su (po s w) = None -> fila_togli w s = s.
Proof. unfold fila_togli. by intros ->. Qed.

Lemma delete_lookup {A} (l : list A) i k :
  delete i l !! k = if decide (k < i)%nat then l !! k else l !! S k.
Proof.
  revert i k. induction l as [|x l IH]; intros [|i] [|k]; try done.
  - cbn. by case_decide.
  - change (delete i l !! k = if decide (S k < S i)%nat then l !! k else l !! S k).
    rewrite IH. repeat case_decide; done || lia.
Qed.

Lemma delete_length {A} (l : list A) i x : l !! i = Some x -> S (length (delete i l)) = length l.
Proof. intros H. pose proof (length_delete l i (mk_is_Some _ _ H)). apply lookup_lt_Some in H. lia. Qed.

Lemma head_pre (l : list nat) : head l = l !! 0%nat.
Proof. by destruct l. Qed.

Lemma last_pre (l : list nat) : last l = pre l (length l).
Proof. rewrite last_lookup. destruct l; done. Qed.

Lemma nodup_at (l : list nat) i k w u :
  NoDup l -> l !! i = Some w -> l !! k = Some u -> (u = w <-> k = i).
Proof.
  intros Hn Hi Hk. split; [intros ->; by eapply NoDup_lookup|]. intros ->. congruence.
Qed.

Lemma pre_at (l : list nat) i k u :
  NoDup l -> l !! k = Some u -> (pre l i = Some u <-> i = S k).
Proof.
  intros Hn Hk. destruct i as [|i]; cbn; [split; [discriminate|lia]|].
  split; [intros Hi; f_equal; by eapply NoDup_lookup|]. by intros [= ->].
Qed.

Lemma succ_at (l : list nat) i k u :
  NoDup l -> l !! k = Some u -> (l !! S i = Some u <-> k = S i).
Proof. intros Hn Hk. split; [intros Hi; by eapply NoDup_lookup|]. by intros ->. Qed.

(** The members of the shortened line point at their new neighbours. *)
Lemma delete_links (l : list nat) i w k u :
  NoDup l -> l !! i = Some w -> delete i l !! k = Some u ->
  let k0 := if decide (k < i)%nat then k else S k in
  l !! k0 = Some u /\ k0 <> i /\
  (if decide (l !! S i = Some u) then pre l i else pre l k0) = pre (delete i l) k /\
  (if decide (pre l i = Some u) then l !! S i else l !! S k0) = delete i l !! S k.
Proof.
  intros Hn Hi. rewrite delete_lookup. intros Hk.
  assert (Hk0 : l !! (if decide (k < i)%nat then k else S k) = Some u) by (by case_decide).
  split; [exact Hk0|].
  pose proof (succ_at l i _ u Hn Hk0) as Hs. pose proof (pre_at l i _ u Hn Hk0) as Hp.
  clear Hk. revert Hs Hp. case_decide as Hlt; intros Hs Hp.
  - split; [lia|]. rewrite decide_False by (rewrite Hs; lia). split.
    + destruct k; cbn; [done|]. by rewrite delete_lookup, decide_True by lia.
    + rewrite delete_lookup. case_decide as H1.
      * apply Hp in H1 as ->. by rewrite decide_False by lia.
      * case_decide as H2; [done|]. assert (i = S k) by lia. tauto.
  - split; [lia|]. rewrite (decide_False (P := pre l i = Some u)) by (rewrite Hp; lia). split.
    + case_decide as H1.
      * apply Hs in H1. assert (k = i) as -> by lia. destruct i; cbn; [done|].
        by rewrite delete_lookup, decide_True by lia.
      * assert (k <> i) by (intros ->; tauto). destruct k; [lia|]. cbn. by rewrite delete_lookup, decide_False by lia.
    + by rewrite delete_lookup, decide_False by lia.
Qed.

Lemma delete_ends (l : list nat) i w :
  l !! i = Some w ->
  head (delete i l) = match pre l i with Some _ => head l | None => l !! S i end /\
  last (delete i l) = match l !! S i with Some _ => last l | None => pre l i end.
Proof.
  intros Hi. pose proof (lookup_lt_Some _ _ _ Hi) as Hlt. rewrite !head_pre. split.
  - rewrite delete_lookup. destruct i as [|i]; cbn; [done|].
    destruct (lookup_lt_is_Some_2 l i) as [x Hx]; [lia|]. by rewrite Hx.
  - rewrite !last_pre. pose proof (delete_length _ _ _ Hi) as Hl.
    destruct (l !! S i) as [x|] eqn:Ex.
    + apply lookup_lt_Some in Ex. rewrite <- Hl. destruct (length (delete i l)) as [|m] eqn:Em; [lia|].
      cbn. rewrite delete_lookup, decide_False by lia. done.
    + apply lookup_ge_None in Ex. assert (length (delete i l) = i) as -> by lia.
      destruct i as [|i]; cbn; [done|]. by rewrite delete_lookup, decide_True by lia.
Qed.

Lemma elem_delete (l : list nat) i w u : l !! i = Some w -> u ∈ l -> u <> w -> u ∈ delete i l.
Proof.
  intros Hi [k Hk]%list_elem_of_lookup Hu. apply list_elem_of_lookup.
  exists (if decide (k < i)%nat then k else pred k). rewrite delete_lookup.
  assert (k <> i) by congruence.
  destruct (decide (k < i)%nat); [by rewrite decide_True|]. rewrite decide_False by lia.
  by replace (S (pred k)) with k by lia.
Qed.

Definition tolto (i r : nat) : nat := if decide (i < r)%nat then pred r else r.

Lemma line_ok_togli s d l r i w :
  line_ok s d l r -> l !! i = Some w -> line_ok (fila_togli w s) d (delete i l) (tolto i r).
Proof.
  intros [Hf Hr Hn Hp] Hi. pose proof (Hp _ _ Hi) as Hw.
  assert (Hsu : ipc_fila_su (po s w) = Some d) by (by rewrite Hw).
  pose proof (delete_length _ _ _ Hi) as Hl. pose proof (lookup_lt_Some _ _ _ Hi) as Hlt.
  split.
  - rewrite (togli_fi _ _ _ _ Hsu), decide_True by done. rewrite Hw, Hf. cbn.
    destruct (delete_ends _ _ _ Hi) as [-> ->]. f_equal. unfold tolto.
    destruct (decide (i < r)%nat) as [H|H].
    + rewrite bool_decide_eq_true_2 by done. cbn [andb]. destruct (Z.ltb_spec 0 (Z.of_nat r)); lia.
    + rewrite bool_decide_eq_false_2 by done. done.
  - unfold tolto. destruct (decide (i < r)%nat); lia.
  - eapply sublist_NoDup; [exact Hn|]. apply sublist_delete.
  - intros k u Hk. destruct (delete_links l i w k u Hn Hi Hk) as (H1 & H2 & H3 & H4).
    rewrite (togli_po _ _ _ _ Hsu), decide_False.
    2:{ intros ->. apply H2. by eapply NoDup_lookup. }
    rewrite (Hp _ _ H1), Hw. cbn [ipc_fila_su ipc_fila_prima ipc_fila_dopo ipc_fila_concesso].
    rewrite H3, H4. f_equal. apply bool_decide_ext. unfold tolto. clear H1 H3 H4.
    repeat case_decide; lia.
Qed.

(** The lines after [w], at place [i] of the line of [d], has left it. *)
Lemma linee_togli s L R d i w :
  linee s L R -> L d !! i = Some w ->
  linee (fila_togli w s) (<[d := delete i (L d)]> L) (<[d := tolto i (R d)]> R).
Proof.
  intros H Hi. assert (Hin : w ∈ L d) by (by eapply list_elem_of_lookup_2).
  pose proof (linee_su _ _ _ _ _ H Hin) as Hsu.
  pose proof (lk_posto _ _ _ _ (li_ok _ _ _ H d) _ _ Hi) as Hw.
  assert (Hnb : forall u, ipc_fila_prima (po s w) = Some u \/ ipc_fila_dopo (po s w) = Some u -> u ∈ L d).
  { intros u. rewrite Hw. cbn. intros [Hu|Hu].
    - destruct i as [|i]; [done|]. cbn in Hu. by eapply list_elem_of_lookup_2.
    - by eapply list_elem_of_lookup_2. }
  split.
  - intros d'. destruct (decide (d' = d)) as [->|Hne].
    + rewrite !fn_lookup_insert. apply line_ok_togli; [apply H|done].
    + rewrite !fn_lookup_insert_ne by done. destruct (li_ok _ _ _ H d') as [A B C D]. split; [|done|done|].
      * by rewrite (togli_fi _ _ _ _ Hsu), decide_False by done.
      * intros k u Hk. assert (Hu : u ∈ L d') by (by eapply list_elem_of_lookup_2).
        assert (Hnu : u ∉ L d) by (intros Hu'; apply Hne; by eapply linee_disj).
        rewrite (togli_po _ _ _ _ Hsu), !decide_False; [by rewrite (D _ _ Hk)|..].
        -- intros E. apply Hnu, Hnb. by left.
        -- intros E. apply Hnu, Hnb. by right.
        -- by intros ->.
  - intros u d'. rewrite (togli_po _ _ _ _ Hsu). destruct (decide (u = w)) as [Hu|Hu]; [done|]. cbn. intros Hs.
    pose proof (li_in _ _ _ H _ _ Hs) as Hud. destruct (decide (d' = d)) as [->|Hne].
    + rewrite fn_lookup_insert. by eapply elem_delete.
    + by rewrite fn_lookup_insert_ne by done.
  - intros u. rewrite (togli_po _ _ _ _ Hsu). destruct (decide (u = w)) as [Hu|Hu]; [done|]. cbn. intros Hs.
    pose proof (li_out _ _ _ H _ Hs) as Hu0. rewrite Hu0. cbn. rewrite !decide_False; [done|..].
    + intros E. assert (Hx : u ∈ L d) by (apply Hnb; by left). eapply linee_su in Hx; [|done]. congruence.
    + intros E. assert (Hx : u ∈ L d) by (apply Hnb; by right). eapply linee_su in Hx; [|done]. congruence.
Qed.

Lemma linee_eq s L R L' R' :
  (forall d, L' d = L d) -> (forall d, R' d = R d) -> linee s L R -> linee s L' R'.
Proof.
  intros HL HR [H1 H2 H3]. split; [|intros w d; rewrite HL; apply H2|done].
  intros d. rewrite HL, HR. apply H1.
Qed.

(** ** [fila_metti] *)

Lemma metti_frame d w s :
  stesso_resto s (fila_metti d w s) /\ stesse_caselle s (fila_metti d w s) /\ stessi_stati s (fila_metti d w s).
Proof.
  unfold fila_metti. destruct (ipc_fila_coda _); repeat split; intros j; ipcs; done.
Qed.

Lemma metti_po s d w u :
  ipc_fila_coda (fi s d) <> Some w ->
  po (fila_metti d w s) u =
    if decide (u = w) then mkPosto (Some d) (ipc_fila_coda (fi s d)) None false
    else if decide (ipc_fila_coda (fi s d) = Some u) then set_dopo (Some w) (po s u) else po s u.
Proof.
  intros Hw. unfold fila_metti. destruct (ipc_fila_coda (fi s d)) as [a|]; ipcs.
  - destruct (decide (u = w)) as [Hu|Hu]; [by rewrite decide_False by congruence|].
    destruct (decide (u = a)) as [E|E]; [by rewrite decide_True by congruence|by rewrite decide_False by congruence].
  - by destruct (decide (u = w)).
Qed.

Lemma metti_fi s d w j :
  fi (fila_metti d w s) j =
    if decide (j = d) then
      mkFila (match ipc_fila_coda (fi s d) with Some _ => ipc_fila_testa (fi s d) | None => Some w end)
        (Some w) (ipc_riservati (fi s d))
    else fi s j.
Proof.
  unfold fila_metti. destruct (ipc_fila_coda (fi s d)) as [a|]; ipcs; case_decide as Hj; try done; by subst j.
Qed.

Lemma app_links (l : list nat) w k u :
  (w ∉ l) -> NoDup l -> l !! k = Some u ->
  pre (l ++ [w]) k = pre l k /\
  (l ++ [w]) !! S k = if decide (last l = Some u) then Some w else l !! S k.
Proof.
  intros Hw Hn Hk. pose proof (lookup_lt_Some _ _ _ Hk) as Hlt. split.
  - destruct k; cbn; [done|]. by rewrite lookup_app_l by lia.
  - pose proof (pre_at l (length l) k u Hn Hk) as Hp. rewrite <- last_pre in Hp.
    destruct (decide (last l = Some u)) as [H|H].
    + apply Hp in H. rewrite <- H, lookup_app_r by lia. by rewrite Nat.sub_diag.
    + rewrite lookup_app_l; [done|]. assert (length l <> S k) by tauto. lia.
Qed.

Lemma linee_metti s L R d w :
  linee s L R -> ipc_fila_su (po s w) = None -> linee (fila_metti d w s) (<[d := L d ++ [w]]> L) R.
Proof.
  intros H Hw. destruct (li_ok _ _ _ H d) as [Hf Hr Hn Hp].
  assert (Hnot : forall d', w ∉ L d').
  { intros d' Hin. eapply linee_su in Hin; [|done]. congruence. }
  assert (Hc : ipc_fila_coda (fi s d) = last (L d)) by (by rewrite Hf).
  assert (Hlast : forall u, last (L d) = Some u -> u ∈ L d).
  { intros u. rewrite last_lookup. apply list_elem_of_lookup_2. }
  assert (Hcw : ipc_fila_coda (fi s d) <> Some w).
  { rewrite Hc. intros E. by eapply Hnot, Hlast. }
  split.
  - intros d'. destruct (decide (d' = d)) as [->|Hne].
    + rewrite fn_lookup_insert. split.
      * rewrite metti_fi, decide_True by done. rewrite Hf. cbn. rewrite last_snoc. f_equal.
        destruct (L d) as [|x l] eqn:El; [done|]. cbn [head app].
        destruct (last (x :: l)) eqn:E; [done|]. apply last_None in E. done.
      * rewrite length_app. lia.
      * apply NoDup_app. split; [done|]. split; [|apply NoDup_singleton].
        intros x Hx ->%list_elem_of_singleton. by eapply Hnot.
      * intros k u Hk. rewrite metti_po by done. rewrite Hc.
        apply lookup_snoc_Some in Hk as [[Hlt Hk]|[-> <-]].
        -- assert (u <> w) by (intros ->; eapply Hnot, list_elem_of_lookup_2; done).
           rewrite decide_False by done. destruct (app_links (L d) w k u) as [-> ->]; [done|done|done|].
           rewrite (Hp _ _ Hk). by destruct (decide (last (L d) = Some u)).
        -- rewrite decide_True by done. f_equal.
           ++ rewrite last_pre. destruct (length (L d)) eqn:E; cbn; [done|].
              rewrite lookup_app_l by lia. done.
           ++ symmetry. apply lookup_ge_None_2. rewrite length_app. cbn. lia.
           ++ symmetry. apply bool_decide_eq_false_2. lia.
    + rewrite fn_lookup_insert_ne by done. destruct (li_ok _ _ _ H d') as [A B C D]. split; [|done|done|].
      * by rewrite metti_fi, decide_False by done.
      * intros k u Hk. assert (Hu : u ∈ L d') by (by eapply list_elem_of_lookup_2).
        rewrite metti_po, !decide_False; [by apply D|..]; [|by intros ->; eapply Hnot|done].
        rewrite Hc. intros E. apply Hne. eapply linee_disj; [done|done|]. by apply Hlast.
  - intros u d'. rewrite metti_po by done. destruct (decide (u = w)) as [->|Hu].
    + cbn. intros [= <-]. rewrite fn_lookup_insert. apply elem_of_app. right. by apply list_elem_of_singleton.
    + intros Hs. assert (Hin : u ∈ L d').
      { apply (li_in _ _ _ H). destruct (decide (_ = Some u)); done. }
      destruct (decide (d' = d)) as [->|Hne].
      * rewrite fn_lookup_insert. apply elem_of_app. by left.
      * by rewrite fn_lookup_insert_ne.
  - intros u. rewrite metti_po by done. destruct (decide (u = w)) as [->|Hu]; [by intros [=]|].
    destruct (decide (ipc_fila_coda (fi s d) = Some u)) as [E|E]; [|apply (li_out _ _ _ H)].
    cbn. intros Hs. rewrite Hc in E. apply Hlast in E. eapply linee_su in E; [|done]. congruence.
Qed.

(** ** [fila_avanza] *)

Lemma linee_prometti s L R d w :
  linee s L R -> L d !! R d = Some w ->
  linee (upd d (su_fila (set_riservati (Z.of_nat (S (R d))))) (upd w (su_posto (set_concesso true)) s))
    L (<[d := S (R d)]> R).
Proof.
  intros H Hw. destruct (li_ok _ _ _ H d) as [Hf Hr Hn Hp]. split.
  - intros d'. destruct (decide (d' = d)) as [->|Hne].
    + rewrite fn_lookup_insert. split; [|by apply lookup_lt_Some in Hw|done|].
      * ipcs. rewrite decide_True by done. by rewrite Hf.
      * intros k u Hk. ipcs. pose proof (nodup_at _ _ _ _ _ Hn Hw Hk) as Hu. rewrite (Hp _ _ Hk).
        destruct (decide (u = w)) as [E|E]; unfold set_concesso; cbn; f_equal; symmetry.
        -- apply bool_decide_eq_true_2. lia.
        -- apply bool_decide_ext. assert (k <> R d) by tauto. lia.
    + rewrite fn_lookup_insert_ne by done. destruct (li_ok _ _ _ H d') as [A B C D]. split; [|done|done|].
      * ipcs. by rewrite decide_False.
      * intros k u Hk. ipcs. rewrite decide_False; [by apply D|]. intros ->. apply Hne.
        eapply linee_disj; [done|by eapply list_elem_of_lookup_2|by eapply list_elem_of_lookup_2].
  - intros u d'. ipcs. intros Hs. apply (li_in _ _ _ H). by destruct (decide (u = w)).
  - intros u. ipcs. destruct (decide (u = w)) as [->|Hu]; [|apply (li_out _ _ _ H)].
    cbn. rewrite (Hp _ _ Hw). by intros [=].
Qed.

(** How many of a line hold a promise after [fila_avanza], with [c] messages in
    the mailbox and [r] promises before. *)
Definition promessi (c : Z) (r n : nat) : nat := Nat.max r (Nat.min n (4 - Z.to_nat c)).

(** What changes from [s] to [s'] when the processes in [ws] are woken and
    links move: no mailbox, no name, no clock. *)
Record svegliati (ws : list nat) (s s' : Mondo) : Prop := mkSvegliati {
  sv_resto : stesso_resto s s';
  sv_cas : stesse_caselle s s';
  sv_sc : forall j, sc s' j = if decide (j ∈ ws) then svegliato (sc s j) else sc s j
}.

Lemma svegliati_pids ws s s' : svegliati ws s s' -> pids_ok s -> pids_ok s'.
Proof.
  intros [(Hn & _) _ Hs]. apply pids_ok_ext; [done| |]; intros j; unfold pid_of, state_of; rewrite Hs;
    destruct (decide (j ∈ ws)); auto using svegliato_pid, svegliato_unused.
Qed.

Lemma stesso_resto_trans s1 s2 s3 : stesso_resto s1 s2 -> stesso_resto s2 s3 -> stesso_resto s1 s3.
Proof. unfold stesso_resto. intuition congruence. Qed.

Lemma svegliati_trans ws1 ws2 s1 s2 s3 :
  svegliati ws1 s1 s2 -> svegliati ws2 s2 s3 -> svegliati (ws1 ++ ws2) s1 s3.
Proof.
  intros [A1 A2 A3] [B1 B2 B3]. split; [by eapply stesso_resto_trans|intros j; by rewrite B2, A2|].
  intros j. rewrite B3, A3.
  destruct (decide (j ∈ ws1)) as [H1|H1]; destruct (decide (j ∈ ws2)) as [H2|H2];
    destruct (decide (j ∈ ws1 ++ ws2)) as [H|H]; rewrite ?svegliato_idem; try done;
    rewrite elem_of_app in H; tauto.
Qed.

Lemma svegliati_nil s s' : stesso_resto s s' -> stesse_caselle s s' -> stessi_stati s s' -> svegliati [] s s'.
Proof. intros A B C. split; [done|done|]. intros j. rewrite C. by destruct (decide (j ∈ [])) as [[]%not_elem_of_nil|]. Qed.

Lemma svegliati_refl s : svegliati [] s s.
Proof. by apply svegliati_nil. Qed.

Lemma sveglia_svegliati w s : pids_ok s -> svegliati [w] s (sveglia w s).
Proof.
  intros Hp. destruct (sveglia_solo_stati w s) as (A & B & _). split; [done|done|].
  intros j. rewrite sveglia_sc by done.
  destruct (decide (j = w)) as [H|H]; destruct (decide (j ∈ [w])) as [H'|H']; try by subst;
    rewrite list_elem_of_singleton in H'; done.
Qed.

Lemma linee_sveglia w s L R : linee s L R -> linee (sveglia w s) L R.
Proof. destruct (sveglia_solo_stati w s) as (_ & _ & A & B). by apply linee_ext. Qed.

Lemma drop_take_here (l : list nat) k r w :
  l !! k = Some w -> (k < r)%nat -> drop k (take r l) = w :: drop (S k) (take r l).
Proof. intros Hk Hr. apply drop_S. by rewrite lookup_take, decide_True. Qed.

Lemma drop_take_end (l : list nat) k r : (r <= k \/ length l <= k)%nat -> drop k (take r l) = [].
Proof. intros H. apply drop_ge. rewrite length_take. lia. Qed.

Definition avanza_post (L : nat -> list nat) (R : nat -> nat) (d k : nat) (s s' : Mondo) : Prop :=
  let r := promessi (ipc_count (ca s d)) (R d) (length (L d)) in
  linee s' L (<[d := r]> R) /\ svegliati (drop k (take r (L d))) s s'.

(** The walk from place [k]: it promises and wakes, in order, and always ends. *)
Lemma avanza_loop_spec n : forall s L R d k,
  linee s L R -> pids_ok s -> 0 <= ipc_count (ca s d) <= IPC_MAILBOX_DEPTH -> (R d <= 4)%nat ->
  (k <= R d)%nat -> (length (L d) - k <= n)%nat ->
  exists s', avanza_loop n d (L d !! k) s = Ok s' /\ avanza_post L R d k s s'.
Proof.
  unfold avanza_post, IPC_MAILBOX_DEPTH. induction n as [|n IH]; intros s L R d k H Hpid Hc HR Hk Hn.
  all: destruct (li_ok _ _ _ H d) as [Hf Hr Hnd Hp].
  all: assert (Hstop : forall r, r = R d -> linee s L (<[d := r]> R)) by
    (intros r ->; eapply linee_eq; [done| |exact H]; intros d';
     destruct (decide (d' = d)) as [->|]; [by rewrite fn_lookup_insert|by rewrite fn_lookup_insert_ne]).
  all: destruct (L d !! k) as [w|] eqn:Ew; cbn [avanza_loop].
  - apply lookup_lt_Some in Ew. lia.
  - apply lookup_ge_None in Ew. eexists. split; [done|]. split; [apply Hstop; unfold promessi; lia|].
    rewrite drop_take_end by lia. apply svegliati_refl.
  - pose proof (lookup_lt_Some _ _ _ Ew) as Hlt. rewrite (Hp _ _ Ew), Hf. cbn [ipc_fila_concesso ipc_riservati].
    unfold IPC_MAILBOX_DEPTH. rewrite (u32_small (_ + _)) by (unfold W32; lia).
    destruct (decide (k < R d)%nat) as [Hkr|Hkr].
    + rewrite (bool_decide_eq_true_2 (k < R d)%nat) by done. cbn [negb andb].
      destruct (IH (sveglia w s) L R d (S k)) as (s' & Es & Hl & Hs);
        [by apply linee_sveglia|by apply pids_ok_sveglia| |lia|lia|lia|].
      { destruct (sveglia_solo_stati w s) as (_ & Hca & _). rewrite Hca. lia. }
      destruct (sveglia_solo_stati w s) as (_ & Hca & _ & Hpo). rewrite Hpo, (Hp _ _ Ew).
      cbn [ipc_fila_dopo]. exists s'. split; [done|]. rewrite Hca in Hl, Hs. split; [done|].
      rewrite (drop_take_here _ _ _ _ Ew) by (unfold promessi; lia).
      eapply (svegliati_trans [w]); [by apply sveglia_svegliati|done].
    + assert (k = R d) as -> by lia. rewrite (bool_decide_eq_false_2 (R d < R d)%nat) by done. cbn [negb andb].
      destruct (Z.leb_spec 4 (ipc_count (ca s d) + Z.of_nat (R d))) as [Hfull|Hroom].
      * eexists. split; [done|]. split; [apply Hstop; unfold promessi; lia|].
        rewrite drop_take_end by (unfold promessi; lia). apply svegliati_refl.
      * rewrite (u32_small (_ + 1)) by (unfold W32; lia).
        replace (Z.of_nat (R d) + 1) with (Z.of_nat (S (R d))) by lia.
        set (s1 := upd d _ (upd w _ s)).
        assert (H1 : linee s1 L (<[d := S (R d)]> R)) by (by apply linee_prometti).
        assert (Hf1 : svegliati [] s s1) by (apply svegliati_nil; [done| |]; intros j; unfold s1; ipcs; done).
        assert (Hp1 : pids_ok s1) by (by eapply svegliati_pids).
        assert (Hca1 : ca s1 d = ca s d) by (apply (sv_cas _ _ _ Hf1)).
        destruct (sveglia_solo_stati w s1) as (_ & Hca & _ & Hpo).
        destruct (IH (sveglia w s1) L (<[d := S (R d)]> R) d (S (R d))) as (s' & Es & Hl & Hs);
          rewrite ?fn_lookup_insert; [by apply linee_sveglia|by apply pids_ok_sveglia| |lia|lia|lia|].
        { rewrite Hca, Hca1. lia. }
        rewrite fn_lookup_insert in Hl, Hs. rewrite Hca, Hca1 in Hl, Hs.
        assert (Hm : promessi (ipc_count (ca s d)) (S (R d)) (length (L d)) =
                     promessi (ipc_count (ca s d)) (R d) (length (L d))) by (unfold promessi; lia).
        rewrite Hm in Hl, Hs.
        exists s'. split.
        -- rewrite Hpo. unfold s1. ipcs. rewrite decide_True by done. cbn [set_concesso ipc_fila_dopo].
           rewrite (Hp _ _ Ew). cbn [ipc_fila_dopo]. exact Es.
        -- split.
           ++ eapply linee_eq; [done| |exact Hl]. intros d'.
              destruct (decide (d' = d)) as [->|]; [by rewrite !fn_lookup_insert|by rewrite !fn_lookup_insert_ne].
           ++ rewrite (drop_take_here _ _ _ _ Ew) by (unfold promessi; lia).
              eapply (svegliati_trans []); [done|]. eapply (svegliati_trans [w]); [by apply sveglia_svegliati|done].
  - apply lookup_ge_None in Ew. eexists. split; [done|]. split; [apply Hstop; unfold promessi; lia|].
    rewrite drop_take_end by lia. apply svegliati_refl.
Qed.

Lemma NoDup_bounded (l : list nat) n : NoDup l -> (forall x, x ∈ l -> (x < n)%nat) -> (length l <= n)%nat.
Proof.
  intros Hn Hb. rewrite <- (length_seq n 0). apply submseteq_length, NoDup_submseteq; [done|].
  intros x Hx. apply elem_of_seq. specialize (Hb x Hx). lia.
Qed.

(** The members of the lines are slots of the table. *)
Definition in_tavola (s : Mondo) (L : nat -> list nat) : Prop :=
  forall d w, w ∈ L d -> (w < g_proc_posti s)%nat.

Lemma fila_avanza_spec s L R d :
  linee s L R -> pids_ok s -> in_tavola s L ->
  0 <= ipc_count (ca s d) <= IPC_MAILBOX_DEPTH -> (R d <= 4)%nat ->
  exists s', fila_avanza d s = Ok s' /\ avanza_post L R d 0 s s'.
Proof.
  intros H Hp Ht Hc HR. unfold fila_avanza.
  assert (Hh : ipc_fila_testa (fi s d) = L d !! 0%nat).
  { rewrite (lk_fila _ _ _ _ (li_ok _ _ _ H d)). apply head_pre. }
  rewrite Hh. apply avanza_loop_spec; [done|done|done|done|lia|].
  assert (length (L d) <= g_proc_posti s)%nat; [|lia].
  apply NoDup_bounded; [apply (li_ok _ _ _ H d)|apply Ht].
Qed.
