(* ===== verification/IpcInv.v ===== *)
(** * The invariant of the mailboxes and of the lines in front of them

    [ipc_inv_p P s L R] is the invariant, with the two clauses on sleeping
    senders asked only of the destinations that satisfy [P]; the operations that
    open a gap at one destination close it by ending with [fila_avanza]. *)

From stdpp Require Import functions.
From S2P Require Import Prelude Ipc IpcSpec.

(** ** The ring of messages *)

Record cas_ok (c : Casella) : Prop := mkCasOk {
  ck_len : length (ipc_mailbox c) = 4%nat;
  ck_head : 0 <= ipc_head c < IPC_MAILBOX_DEPTH;
  ck_count : 0 <= ipc_count c <= IPC_MAILBOX_DEPTH;
  ck_tail : ipc_tail c = (ipc_head c + ipc_count c) mod IPC_MAILBOX_DEPTH
}.

Definition slot (c : Casella) (i : Z) : IpcMessage := nth (Z.to_nat i) (ipc_mailbox c) msg0.

(** The messages waiting, the oldest first. *)
Definition messaggi (c : Casella) : list IpcMessage :=
  (fun k => slot c ((ipc_head c + Z.of_nat k) mod IPC_MAILBOX_DEPTH)) <$> seq 0 (Z.to_nat (ipc_count c)).

Ltac quattro := match goal with
  | H : 0 <= ?x < IPC_MAILBOX_DEPTH |- _ =>
      assert (x = 0 \/ x = 1 \/ x = 2 \/ x = 3) as [->|[->|[->| ->]]] by (unfold IPC_MAILBOX_DEPTH in H; lia); clear H
  end.

Lemma deposita_ok c mitt ty n b :
  cas_ok c -> ipc_count c < IPC_MAILBOX_DEPTH ->
  cas_ok (deposita mitt ty n b c) /\
  messaggi (deposita mitt ty n b c) =
    messaggi c ++ [mkMsg mitt ty n (copia b (data (slot c (ipc_tail c))))] /\
  ipc_count (deposita mitt ty n b c) = ipc_count c + 1.
Proof.
  destruct c as [m h t q]. intros [Hl Hh Hc Ht] Hq. cbn in *. subst t.
  do 5 (destruct m as [|? m]; try discriminate Hl).
  assert (Hq' : 0 <= q < IPC_MAILBOX_DEPTH) by lia. clear Hc Hq.
  quattro; quattro; (split; [split; cbn; unfold IPC_MAILBOX_DEPTH; done || lia|done]).
Qed.

Lemma estrai_ok c :
  cas_ok c -> 0 < ipc_count c ->
  cas_ok (estrai c) /\ messaggi c = slot c (ipc_head c) :: messaggi (estrai c) /\
  ipc_count (estrai c) = ipc_count c - 1.
Proof.
  destruct c as [m h t q]. intros [Hl Hh Hc Ht] Hq. cbn in *. subst t.
  do 5 (destruct m as [|? m]; try discriminate Hl).
  assert (exists q', q = q' + 1) as [q' ->] by (exists (q - 1); lia).
  assert (Hq' : 0 <= q' < IPC_MAILBOX_DEPTH) by lia. clear Hc Hq.
  quattro; quattro; (split; [split; cbn; unfold IPC_MAILBOX_DEPTH; done || lia|done]).
Qed.

Lemma svuota_ok c : cas_ok c -> cas_ok (svuota c).
Proof. intros [A B C D]. split; cbn; unfold IPC_MAILBOX_DEPTH in *; done || lia. Qed.

Lemma messaggi_length c : cas_ok c -> Z.of_nat (length (messaggi c)) = ipc_count c.
Proof. intros [_ _ H _]. unfold messaggi. rewrite length_fmap, length_seq. lia. Qed.

(** ** The invariant *)

Record ipc_inv_p (P : nat -> Prop) (s : Mondo) (L : nat -> list nat) (R : nat -> nat) : Prop := mkInv {
  iv_lin : linee s L R;
  iv_pid : pids_ok s;
  iv_cas : forall d, cas_ok (ca s d);
  iv_r4 : forall d, (R d <= 4)%nat;
  iv_vivi : forall d w, w ∈ L d -> morto (state_of s w) = false;
  iv_dest : forall d, L d <> [] -> morto (state_of s d) = false;
  iv_sveglio : forall d k w, P d -> L d !! k = Some w -> (k < R d)%nat ->
    state_of s w = PROC_BLOCKED -> ipc_count (ca s d) = IPC_MAILBOX_DEPTH;
  iv_fame : forall d, P d -> (R d < length (L d))%nat -> 0 < ipc_count (ca s d) + Z.of_nat (R d)
}.

Abbreviation ipc_inv := (ipc_inv_p (fun _ => True)).

Lemma inv_weaken (P Q : nat -> Prop) s L R : (forall d, Q d -> P d) -> ipc_inv_p P s L R -> ipc_inv_p Q s L R.
Proof. intros H [A B C D E F G I]. split; eauto. Qed.

Lemma inv_eq P s L R L' R' :
  (forall d, L' d = L d) -> (forall d, R' d = R d) -> ipc_inv_p P s L R -> ipc_inv_p P s L' R'.
Proof.
  intros HL HR [A B C D E F G I]. split; [by eapply linee_eq|done|done|..]; intros d; rewrite ?HL, ?HR; eauto. 
Qed.

Lemma non_morto_unused st : morto st = false -> st <> PROC_UNUSED.
Proof. by intros H ->. Qed.

Lemma inv_tavola P s L R : ipc_inv_p P s L R -> in_tavola s L.
Proof. intros H d w Hw. apply (pk_range _ (iv_pid _ _ _ _ H)), non_morto_unused. by eapply iv_vivi. Qed.

(** Waking processes keeps the invariant. *)
Lemma svegliati_morto ws s s' j : svegliati ws s s' -> morto (state_of s' j) = morto (state_of s j).
Proof. intros H. unfold state_of. rewrite (sv_sc _ _ _ H). destruct (decide _); [apply svegliato_morto|done]. Qed.

Lemma svegliati_blocked ws s s' j :
  svegliati ws s s' -> state_of s' j = PROC_BLOCKED -> state_of s j = PROC_BLOCKED /\ (j ∉ ws).
Proof.
  intros H. unfold state_of. rewrite (sv_sc _ _ _ H). destruct (decide (j ∈ ws)); [|done].
  intros E. exfalso. by eapply svegliato_not_blocked.
Qed.

Lemma inv_svegliati P ws s s' L R :
  ipc_inv_p P s L R -> svegliati ws s s' -> linee s' L R -> ipc_inv_p P s' L R.
Proof.
  intros [A B C D E F G I] Hs Hl. split; [done|by eapply svegliati_pids| |done| | | |].
  - intros d. rewrite (sv_cas _ _ _ Hs). apply C.
  - intros d w Hw. rewrite (svegliati_morto _ _ _ _ Hs). by eapply E.
  - intros d Hd. rewrite (svegliati_morto _ _ _ _ Hs). by apply F.
  - intros d k w HP Hk Hr Hb. rewrite (sv_cas _ _ _ Hs). eapply G; [done|done|done|]. by eapply svegliati_blocked.
  - intros d. rewrite (sv_cas _ _ _ Hs). apply I.
Qed.

Lemma inv_sveglia P s L R w : ipc_inv_p P s L R -> ipc_inv_p P (sveglia w s) L R.
Proof.
  intros H. eapply inv_svegliati; [done|apply sveglia_svegliati, H|]. apply linee_sveglia, H.
Qed.

(** A member leaves: only the clauses on its destination may fail. *)
Lemma inv_togli P s L R d i w :
  ipc_inv_p P s L R -> L d !! i = Some w ->
  ipc_inv_p (fun x => P x /\ x <> d) (fila_togli w s) (<[d := delete i (L d)]> L) (<[d := tolto i (R d)]> R).
Proof.
  intros [A B C D E F G I] Hi. destruct (togli_frame s w) as (Hr & Hc & Hs).
  assert (Hst : forall j, state_of (fila_togli w s) j = state_of s j).
  { intros j. unfold state_of. by rewrite Hs. }
  assert (Hsub : forall d' x, x ∈ (<[d := delete i (L d)]> L) d' -> x ∈ L d').
  { intros d' x. destruct (decide (d' = d)) as [->|Hne]; [|by rewrite fn_lookup_insert_ne].
    rewrite fn_lookup_insert. intros Hx. eapply elem_of_submseteq; [exact Hx|]. apply sublist_submseteq, sublist_delete. }
  split; [by apply linee_togli|by eapply pids_ok_stati|intros x; rewrite Hc; apply C| | | | |].
  - intros x. destruct (decide (x = d)) as [->|]; [rewrite fn_lookup_insert|by rewrite fn_lookup_insert_ne].
    specialize (D d). unfold tolto. destruct (decide (i < R d)%nat); lia.
  - intros d' x Hx. rewrite Hst. by eapply E, Hsub.
  - intros d' Hd'. rewrite Hst. apply F. intros E0. apply Hd'.
    destruct (decide (d' = d)) as [->|Hne]; [|by rewrite fn_lookup_insert_ne].
    rewrite fn_lookup_insert. by rewrite E0.
  - intros d' k x [HP Hne]. rewrite !fn_lookup_insert_ne by done. rewrite Hst, Hc. by apply G.
  - intros d' [HP Hne]. rewrite !fn_lookup_insert_ne by done. rewrite Hc. by apply I.
Qed.

(** [fila_avanza] repairs the clauses on its destination. *)
Lemma inv_avanza P s L R d :
  ipc_inv_p P s L R ->
  let r := promessi (ipc_count (ca s d)) (R d) (length (L d)) in
  exists s', fila_avanza d s = Ok s' /\ ipc_inv_p (fun x => P x \/ x = d) s' L (<[d := r]> R) /\
    svegliati (take r (L d)) s s'.
Proof.
  intros H r. pose proof (ck_count _ (iv_cas _ _ _ _ H d)) as Hc. pose proof (iv_r4 _ _ _ _ H d) as H4.
  destruct (fila_avanza_spec s L R d) as (s' & Es & Hl & Hs);
    [apply H|apply H|by eapply inv_tavola|done|done|].
  fold r in Hl, Hs. rewrite drop_0 in Hs. exists s'. split; [done|]. split; [|done].
  pose proof (lk_r _ _ _ _ (li_ok _ _ _ (iv_lin _ _ _ _ H) d)) as Hrl.
  destruct H as [A B C D E F G I]. split; [done|by eapply svegliati_pids| | | | | |].
  - intros x. rewrite (sv_cas _ _ _ Hs). apply C.
  - intros x. destruct (decide (x = d)) as [->|]; [rewrite fn_lookup_insert|by rewrite fn_lookup_insert_ne].
    unfold r, promessi. lia.
  - intros d' x Hx. rewrite (svegliati_morto _ _ _ _ Hs). by eapply E.
  - intros d' Hd. rewrite (svegliati_morto _ _ _ _ Hs). by apply F.
  - intros d' k w HP Hk Hr Hb. rewrite (sv_cas _ _ _ Hs). destruct (svegliati_blocked _ _ _ _ Hs Hb) as [Hb' Hn].
    destruct (decide (d' = d)) as [->|Hne].
    + rewrite fn_lookup_insert in Hr. exfalso. apply Hn. apply list_elem_of_lookup. exists k.
      by rewrite lookup_take, decide_True.
    + rewrite fn_lookup_insert_ne in Hr by done. destruct HP as [HP|HP]; [|done]. by eapply G.
  - intros d' HP Hr. rewrite (sv_cas _ _ _ Hs). destruct (decide (d' = d)) as [->|Hne].
    + rewrite fn_lookup_insert in *. unfold r, promessi, IPC_MAILBOX_DEPTH in *. lia.
    + rewrite fn_lookup_insert_ne in * by done. destruct HP as [HP|HP]; [|done]. by apply I.
Qed.

(** ** Leaving a line, ending *)

Lemma togli_solo s w d : ipc_fila_su (po s w) = Some d -> po (fila_togli w s) w = nessun_posto.
Proof. intros H. by rewrite (togli_po _ _ _ _ H), decide_True. Qed.

(** [svegliati] and the links of the processes outside a line. *)
Lemma linee_fuori s L R w : linee s L R -> (forall d, w ∉ L d) -> po s w = nessun_posto.
Proof.
  intros H Hw. apply (li_out _ _ _ H). destruct (ipc_fila_su (po s w)) as [d|] eqn:E; [|done].
  exfalso. eapply Hw, (li_in _ _ _ H), E.
Qed.

Lemma nodup_delete_notin (l : list nat) i w : NoDup l -> l !! i = Some w -> w ∉ delete i l.
Proof.
  intros Hn Hi [k Hk]%list_elem_of_lookup. destruct (delete_links l i w k w Hn Hi Hk) as (H & Hne & _).
  apply Hne. by eapply NoDup_lookup.
Qed.

(** The process [w] leaves the line it stands in, if any: the promise it held
    goes on, the other lines are untouched. *)
Lemma inv_lascia P s L R w :
  ipc_inv_p P s L R ->
  exists s' L' R' ws, lascia_fila w s = Ok s' /\ ipc_inv_p P s' L' R' /\ svegliati ws s s' /\
    po s' w = nessun_posto /\ (w ∉ ws) /\
    (forall d, match ipc_fila_su (po s w) with
               | Some d0 => if decide (d = d0) then
                   exists i, L d !! i = Some w /\ L' d = delete i (L d) /\
                     R' d = promessi (ipc_count (ca s d)) (tolto i (R d)) (length (L' d)) /\ ws = take (R' d) (L' d)
                   else L' d = L d /\ R' d = R d
               | None => L' d = L d /\ R' d = R d /\ s' = s
               end).
Proof.
  intros H. unfold lascia_fila. pose proof (iv_lin _ _ _ _ H) as Hl.
  destruct (ipc_fila_su (po s w)) as [d|] eqn:Ed.
  - destruct (linee_index _ _ _ _ _ Hl Ed) as [i Hi].
    pose proof (inv_togli _ _ _ _ _ _ _ H Hi) as H1. destruct (togli_frame s w) as (Fr & Fc & Fs).
    destruct (inv_avanza _ _ _ _ d H1) as (s' & Es & H2 & Hs). rewrite !fn_lookup_insert, Fc in *.
    assert (Hn : w ∉ delete i (L d)) by (apply nodup_delete_notin; [apply (li_ok _ _ _ Hl)|done]).
    eexists s', _, _, _. split; [exact Es|]. split; [eapply inv_weaken; [|exact H2]|].
    { intros x HP. destruct (decide (x = d)); [by right|left; done]. }
    split; [eapply (svegliati_trans []); [by apply svegliati_nil|exact Hs]|].
    split; [|split].
    + eapply linee_fuori; [apply H2|]. intros d'. destruct (decide (d' = d)) as [->|Hne].
      * by rewrite fn_lookup_insert.
      * rewrite fn_lookup_insert_ne by done. intros Hw. eapply linee_su in Hw; [|done]. congruence.
    + cbn. intros Hw. apply Hn. eapply elem_of_submseteq; [exact Hw|]. apply sublist_submseteq, sublist_take.
    + intros d'. destruct (decide (d' = d)) as [->|Hne]; [|by rewrite !fn_lookup_insert_ne].
      exists i. by rewrite !fn_lookup_insert.
  - rewrite togli_none by done. exists s, L, R, []. split; [done|]. split; [done|].
    split; [apply svegliati_refl|]. split; [by apply (li_out _ _ _ Hl)|]. split; [apply not_elem_of_nil|]. done.
Qed.

(** The farewell loop empties the line of [p] and wakes everybody in it. *)
Lemma congeda_spec n : forall s L R p,
  ipc_inv_p (fun x => x <> p) s L R -> (length (L p) <= n)%nat ->
  exists s', congeda_loop n p s = Ok s' /\ ipc_inv_p (fun x => x <> p) s' (<[p := []]> L) (<[p := 0%nat]> R) /\
    svegliati (L p) s s'.
Proof.
  induction n as [|n IH]; intros s L R p H Hn; pose proof (iv_lin _ _ _ _ H) as Hl;
    destruct (li_ok _ _ _ Hl p) as [Hf Hr Hnd Hp]; cbn [congeda_loop]; rewrite Hf; cbn [ipc_fila_testa];
    destruct (L p) as [|w l] eqn:EL; cbn [head]; try (cbn in Hn; lia).
  1,2: exists s; split; [done|]; split; [|apply svegliati_refl];
    (eapply inv_eq; [| |exact H]; intros x; destruct (decide (x = p)) as [->|];
     [rewrite fn_lookup_insert|by rewrite fn_lookup_insert_ne|rewrite fn_lookup_insert|by rewrite fn_lookup_insert_ne];
     [done|cbn in Hr; lia]).
  assert (Hi : L p !! 0%nat = Some w) by (by rewrite EL).
  pose proof (inv_togli _ _ _ _ _ _ _ H Hi) as H1. destruct (togli_frame s w) as (Fr & Fc & Fs).
  apply (inv_sveglia _ _ _ _ w) in H1 as H2.
  destruct (IH (sveglia w (fila_togli w s)) (<[p := delete 0%nat (L p)]> L) (<[p := tolto 0 (R p)]> R) p)
    as (s' & Es & H3 & Hs).
  { eapply inv_weaken; [|exact H2]. by intros x Hx. }
  { rewrite fn_lookup_insert, EL. cbn in *. lia. }
  exists s'. split; [done|]. rewrite fn_lookup_insert, EL in Hs. split.
  - eapply inv_eq; [| |exact H3]; intros x; destruct (decide (x = p)) as [->|];
      by rewrite ?fn_lookup_insert, ?fn_lookup_insert_ne.
  - eapply (svegliati_trans []); [by apply svegliati_nil|].
    eapply (svegliati_trans [w]); [apply sveglia_svegliati, H1|exact Hs].
Qed.

Lemma inv_finito s L R p :
  ipc_inv s L R ->
  exists s' L' R' ws, ipc_processo_finito p s = Ok s' /\ ipc_inv s' L' R' /\ svegliati ws s s' /\
    L' p = [] /\ po s' p = nessun_posto /\ (forall w, w ∈ L p -> w <> p -> (w ∈ ws) /\ po s' w = nessun_posto) /\
    (p ∉ ws) /\
    (forall d, d <> p -> ipc_fila_su (po s p) <> Some d -> L' d = L d /\ R' d = R d) /\
    (forall d, d <> p -> ipc_fila_su (po s p) = Some d ->
       exists i, L d !! i = Some p /\ L' d = delete i (L d) /\
         R' d = promessi (ipc_count (ca s d)) (tolto i (R d)) (length (L' d)) /\
         forall w, w ∈ take (R' d) (L' d) -> w ∈ ws).
Proof.
  intros H. unfold ipc_processo_finito.
  assert (E1 : match ipc_fila_su (po s p) with
               | Some d => fila_avanza d (fila_togli p s) | None => Ok s end = lascia_fila p s).
  { unfold lascia_fila. destruct (ipc_fila_su (po s p)) eqn:E; [done|]. by rewrite togli_none. }
  rewrite E1. destruct (inv_lascia _ _ _ _ p H) as (s1 & L1 & R1 & ws1 & -> & H1 & Hs1 & Hp1 & Hn1 & HL1).
  cbn [mbind run_bind].
  assert (Hlen : (length (L1 p) <= g_proc_posti s1)%nat).
  { apply NoDup_bounded; [apply (li_ok _ _ _ (iv_lin _ _ _ _ H1))|]. intros x. apply (inv_tavola _ _ _ _ H1). }
  destruct (congeda_spec (g_proc_posti s1) s1 L1 R1 p) as (s2 & -> & H2 & Hs2); [|done|].
  { eapply inv_weaken; [|exact H1]. done. }
  cbn [mbind run_bind].
  pose proof (iv_lin _ _ _ _ H2) as Hl2. pose proof (iv_lin _ _ _ _ H1) as Hl1.
  assert (Hpn : forall d, p ∉ L1 d). { intros d Hd. eapply linee_su in Hd; [|done]. by rewrite Hp1 in Hd. }
  assert (Hf2 : fi s2 p = mkFila None None 0).
  { rewrite (lk_fila _ _ _ _ (li_ok _ _ _ Hl2 p)). by rewrite !fn_lookup_insert. }
  set (s3 := upd p _ s2).
  assert (Hfi : forall j, fi s3 j = fi s2 j).
  { intros j. unfold s3. ipcs. destruct (decide (j = p)) as [->|]; [by rewrite Hf2|done]. }
  assert (Hpo : forall j, po s3 j = po s2 j) by (intros j; unfold s3; by ipcs).
  assert (Hs3 : svegliati [] s2 s3).
  { apply svegliati_nil; [done| |]; intros j; unfold s3; by ipcs. }
  assert (Hl3 : linee s3 (<[p := []]> L1) (<[p := 0%nat]> R1)) by (by eapply linee_ext).
  exists s3, (<[p := []]> L1), (<[p := 0%nat]> R1), (ws1 ++ L1 p). split; [done|].
  assert (H3 : ipc_inv s3 (<[p := []]> L1) (<[p := 0%nat]> R1)).
  { pose proof (inv_svegliati _ _ _ _ _ _ H2 Hs3 Hl3) as [A B C D E F G I].
    split; [done|done|done|done|done|done| |].
    - intros d k w _. destruct (decide (d = p)) as [->|]; [by rewrite fn_lookup_insert|]. by apply G.
    - intros d _. destruct (decide (d = p)) as [->|]; [rewrite !fn_lookup_insert; cbn; lia|]. by apply I. }
  split; [exact H3|].
  split. { rewrite <- (app_nil_r (ws1 ++ L1 p)). eapply svegliati_trans; [|exact Hs3]. by eapply svegliati_trans. }
  split; [by rewrite fn_lookup_insert|].
  assert (Hout : forall w, w ∈ L1 p \/ w = p -> po s3 w = nessun_posto).
  { intros w Hw. eapply linee_fuori; [exact Hl3|]. intros d. destruct (decide (d = p)) as [->|Hne].
    - rewrite fn_lookup_insert. apply not_elem_of_nil.
    - rewrite fn_lookup_insert_ne by done. intros Hd. destruct Hw as [Hw| ->]; [|by eapply Hpn].
      apply Hne. exact (linee_disj _ _ _ _ _ _ Hl1 Hd Hw). }
  split; [by apply Hout; right|].
  assert (HLp : forall w, w ∈ L p -> w <> p -> w ∈ L1 p).
  { intros w Hw Hne. specialize (HL1 p). destruct (ipc_fila_su (po s p)) as [d0|] eqn:E; [|by destruct HL1 as [-> _]].
    destruct (decide (p = d0)) as [Hd0|Hd0]; [|by destruct HL1 as [-> _]].
    destruct HL1 as (i & Hi & -> & _). by eapply elem_delete. }
  split. { intros w Hw Hne. split; [apply elem_of_app; right; by apply HLp|]. apply Hout. left. by apply HLp. }
  split. { intros [Hw|Hw]%elem_of_app; [done|by eapply Hpn]. }
  split.
  - intros d Hd Hsu. rewrite !fn_lookup_insert_ne by done. specialize (HL1 d).
    destruct (ipc_fila_su (po s p)) as [d0|] eqn:E; [|by destruct HL1 as (? & ? & _)].
    by rewrite decide_False in HL1 by congruence.
  - intros d Hd Hsu. rewrite !fn_lookup_insert_ne by done. specialize (HL1 d). rewrite Hsu, decide_True in HL1 by done.
    destruct HL1 as (i & Hi & HL' & HR' & ->). exists i. split; [done|]. split; [done|]. split; [done|].
    intros w Hw. apply elem_of_app. by left.
Qed.
