(* ===== verification/IpcSys.v ===== *)
(** * The calls of ipc.c keep the invariant, and what each does to the mailboxes *)

From stdpp Require Import functions.
From S2P Require Import Prelude Ipc IpcSpec IpcInv.

(** ** Small steps on one control block *)

Lemma unblock_svegliati p s : exists ws, svegliati ws s (sched_unblock_locked p s) /\
  forall w, w ∈ ws -> state_of s w = PROC_BLOCKED.
Proof.
  destruct (unblock_solo_stati p s) as (A & B & _). unfold sched_unblock_locked in *.
  destruct (primo _ _ _) as [i|]; [case_decide as Hb|].
  - exists [i]. split; [|by intros w ->%list_elem_of_singleton]. split; [done|done|]. intros j. ipcs.
    destruct (decide (j = i)) as [E|E]; destruct (decide (j ∈ [i])) as [E'|E']; rewrite list_elem_of_singleton in E';
      try done. subst j. unfold svegliato. by rewrite decide_True.
  - exists []. split; [apply svegliati_refl|by intros w ?%not_elem_of_nil].
  - exists []. split; [apply svegliati_refl|by intros w ?%not_elem_of_nil].
Qed.

Lemma inv_unblock P s L R p : ipc_inv_p P s L R -> ipc_inv_p P (sched_unblock_locked p s) L R.
Proof.
  intros H. destruct (unblock_svegliati p s) as (ws & Hs & _). eapply inv_svegliati; [done|done|].
  destruct (unblock_solo_stati p s) as (_ & _ & A & B). eapply linee_ext; [done|done|apply H].
Qed.

(** A change of the scheduling fields of [p] that keeps its pid and its being
    alive or not. *)
Lemma inv_sched P s L R p f :
  ipc_inv_p P s L R -> pid (f (sc s p)) = pid (sc s p) ->
  (state (f (sc s p)) = PROC_UNUSED <-> state (sc s p) = PROC_UNUSED) ->
  (morto (state (sc s p)) = false -> morto (state (f (sc s p))) = false) ->
  (forall d k, L d !! k = Some p -> (k < R d)%nat -> state (f (sc s p)) = PROC_BLOCKED ->
     state (sc s p) = PROC_BLOCKED \/ ipc_count (ca s d) = IPC_MAILBOX_DEPTH) ->
  ipc_inv_p P (upd p (su_sch f) s) L R.
Proof.
  intros [A B C D E F G I] Hpid Hun Hm Hb.
  assert (Hst : forall j, state_of (upd p (su_sch f) s) j = if decide (j = p) then state (f (sc s p)) else state_of s j).
  { intros j. unfold state_of. ipcs. by destruct (decide (j = p)) as [->|]. }
  split.
  - eapply linee_ext; [| |exact A]; intros j; by ipcs.
  - apply (pids_ok_ext s); [done| | |exact B]; intros j; [unfold pid_of; ipcs|rewrite Hst];
      destruct (decide (j = p)) as [->|]; done.
  - intros d. ipcs. apply C.
  - done.
  - intros d w Hw. rewrite Hst. destruct (decide (w = p)) as [->|]; [apply Hm|]; by eapply E.
  - intros d Hd. rewrite Hst. destruct (decide (d = p)) as [->|]; [apply Hm|]; by apply F.
  - intros d k w HP Hk Hr. rewrite Hst. ipcs. destruct (decide (w = p)) as [->|]; [|by eapply G].
    intros Hs. destruct (Hb d k Hk Hr Hs) as [H|H]; [by eapply G|done].
  - intros d. ipcs. apply I.
Qed.

(** A change of one mailbox. *)
Lemma inv_casella (P : nat -> Prop) s L R p f :
  ipc_inv_p (fun x => P x /\ x <> p) s L R -> cas_ok (f (ca s p)) ->
  (P p -> forall k w, L p !! k = Some w -> (k < R p)%nat -> state_of s w = PROC_BLOCKED ->
     ipc_count (f (ca s p)) = IPC_MAILBOX_DEPTH) ->
  (P p -> (R p < length (L p))%nat -> 0 < ipc_count (f (ca s p)) + Z.of_nat (R p)) ->
  ipc_inv_p P (upd p (su_cas f) s) L R.
Proof.
  intros [A B C D E F G I] Hok H1 H2.
  assert (Hst : forall j, state_of (upd p (su_cas f) s) j = state_of s j) by (intros j; unfold state_of; by ipcs).
  assert (Hca : forall j, ca (upd p (su_cas f) s) j = if decide (j = p) then f (ca s p) else ca s j).
  { intros j. ipcs. by destruct (decide (j = p)) as [->|]. }
  split.
  - eapply linee_ext; [| |exact A]; intros j; by ipcs.
  - apply (pids_ok_stati s); [done| |exact B]. intros j. by ipcs.
  - intros d. rewrite Hca. by destruct (decide (d = p)) as [->|].
  - done.
  - intros d w Hw. rewrite Hst. by eapply E.
  - intros d Hd. rewrite Hst. by eapply F.
  - intros d k w HP Hk Hr. rewrite Hst, Hca. destruct (decide (d = p)) as [->|]; [by eapply H1|by eapply G].
  - intros d HP Hr. rewrite Hca. destruct (decide (d = p)) as [->|]; [by apply H2|by apply I].
Qed.

Lemma inv_deposita (P : nat -> Prop) s L R d mitt ty n b :
  ipc_inv_p (fun x => P x /\ x <> d) s L R -> ipc_count (ca s d) < IPC_MAILBOX_DEPTH ->
  (forall k w, L d !! k = Some w -> (k < R d)%nat -> state_of s w <> PROC_BLOCKED) ->
  ipc_inv_p P (upd d (su_cas (deposita mitt ty n b)) s) L R.
Proof.
  intros H Hc Hb. destruct (deposita_ok (ca s d) mitt ty n b) as (Hok & _ & Hq); [apply H|done|].
  pose proof (ck_count _ (iv_cas _ _ _ _ H d)).
  apply inv_casella; [done|done| |].
  - intros _ k w Hk Hr Hw. by destruct (Hb k w Hk Hr).
  - intros _ _. rewrite Hq. lia.
Qed.

(** A new sender at the end of the line of [d]. *)
Lemma inv_metti s L R d w :
  ipc_inv s L R -> ipc_fila_su (po s w) = None -> morto (state_of s w) = false ->
  morto (state_of s d) = false ->
  (L d <> [] \/ IPC_MAILBOX_DEPTH <= ipc_count (ca s d) + Z.of_nat (R d)) ->
  ipc_inv (fila_metti d w s) (<[d := L d ++ [w]]> L) R.
Proof.
  intros [A B C D E F G I] Hsu Hw Hd Hwhy. destruct (metti_frame d w s) as (Fr & Fc & Fs).
  assert (Hst : forall j, state_of (fila_metti d w s) j = state_of s j) by (intros j; unfold state_of; by rewrite Fs).
  pose proof (lk_r _ _ _ _ (li_ok _ _ _ A d)) as Hr.
  split; [by apply linee_metti|by eapply pids_ok_stati|intros x; rewrite Fc; apply C|done| | | |].
  - intros d' x. rewrite Hst. destruct (decide (d' = d)) as [->|]; [rewrite fn_lookup_insert|rewrite fn_lookup_insert_ne by done; apply E].
    intros [Hx|Hx]%elem_of_app; [by eapply E|]. apply list_elem_of_singleton in Hx as ->. done.
  - intros d'. rewrite Hst. destruct (decide (d' = d)) as [->|]; [done|rewrite fn_lookup_insert_ne by done; apply F].
  - intros d' k x HP. rewrite Hst, Fc. destruct (decide (d' = d)) as [->|];
      [rewrite fn_lookup_insert|rewrite fn_lookup_insert_ne by done; by apply G].
    intros Hk Hkr. rewrite lookup_app_l in Hk by lia. by eapply G.
  - intros d' HP. rewrite Fc. destruct (decide (d' = d)) as [->|];
      [rewrite fn_lookup_insert|rewrite fn_lookup_insert_ne by done; by apply I].
    intros _. pose proof (ck_count _ (C d)). unfold IPC_MAILBOX_DEPTH in *.
    destruct Hwhy as [Hne|]; [|lia]. destruct (decide (R d < length (L d))%nat) as [Hlt|]; [by apply I|].
    destruct (L d); [done|]. cbn in *. lia.
Qed.

(** ** What no call changes: pids, which processes are alive, names, clock *)

Record quadro (s s' : Mondo) : Prop := mkQuadro {
  qu_resto : stesso_resto s s';
  qu_pid : forall j, pid_of s' j = pid_of s j;
  qu_unused : forall j, state_of s' j = PROC_UNUSED <-> state_of s j = PROC_UNUSED;
  qu_morto : forall j, morto (state_of s' j) = morto (state_of s j)
}.

#[export] Instance quadro_preorder : PreOrder quadro.
Proof.
  split.
  - intros s. by split.
  - intros s1 s2 s3 [A1 B1 C1 D1] [A2 B2 C2 D2]. split; [by eapply stesso_resto_trans| | |]; intros j.
    + by rewrite B2.
    + by rewrite C2.
    + by rewrite D2.
Qed.

Lemma quadro_svegliati ws s s' : svegliati ws s s' -> quadro s s'.
Proof.
  intros H. split; [apply H| | |]; intros j.
  - unfold pid_of. rewrite (sv_sc _ _ _ H). destruct (decide _); [apply svegliato_pid|done].
  - unfold state_of. rewrite (sv_sc _ _ _ H). destruct (decide _); [apply svegliato_unused|done].
  - by eapply svegliati_morto.
Qed.

Lemma quadro_stati s s' : stesso_resto s s' -> stessi_stati s s' -> quadro s s'.
Proof. intros H Hs. split; [done| | |]; intros j; unfold pid_of, state_of; by rewrite Hs. Qed.

Lemma quadro_casella s p f : quadro s (upd p (su_cas f) s).
Proof. apply quadro_stati; [done|]. intros j. by ipcs. Qed.

Lemma quadro_unblock s p : quadro s (sched_unblock_locked p s).
Proof. destruct (unblock_svegliati p s) as (ws & H & _). by eapply quadro_svegliati. Qed.

Lemma quadro_sched s p f :
  pid (f (sc s p)) = pid (sc s p) -> morto (state (sc s p)) = false -> morto (state (f (sc s p))) = false ->
  quadro s (upd p (su_sch f) s).
Proof.
  intros H1 H2 H3. split; [done| | |]; intros j; unfold pid_of, state_of; ipcs;
    destruct (decide (j = p)) as [->|]; try done; [|congruence].
  split; intros E; [by rewrite E in H3|by rewrite E in H2].
Qed.

(** ** One turn of [ipc_send] *)

(** Who may take a slot, in terms of the line: without waiting, any free slot;
    in line, with a promise; anybody else, when the line is empty. *)
Lemma posto_per_spec s L R self d inv :
  ipc_inv s L R ->
  posto_per self d inv s = true <->
  ipc_count (ca s d) < IPC_MAILBOX_DEPTH /\
  (senza inv = true \/ (exists k, L d !! k = Some self /\ (k < R d)%nat) \/ (self ∉ L d) /\ L d = []).
Proof.
  intros H. pose proof (iv_lin _ _ _ _ H) as Hl. destruct (li_ok _ _ _ Hl d) as [Hf Hr Hn Hp].
  pose proof (ck_count _ (iv_cas _ _ _ _ H d)) as Hc. unfold posto_per.
  destruct (senza inv); [rewrite Z.ltb_lt; intuition|].
  destruct (decide (ipc_fila_su (po s self) = Some d)) as [E|E].
  - destruct (linee_index _ _ _ _ _ Hl E) as [k Hk]. rewrite (Hp _ _ Hk). cbn [ipc_fila_concesso].
    rewrite andb_true_iff, bool_decide_eq_true, Z.ltb_lt. split; [intros [H1 H2]; split; [done|]; right; left; by exists k|].
    intros [H1 [H2|[(k' & Hk' & H2)|[H2 H3]]]]; [done| |].
    + assert (k = k') as -> by (by eapply NoDup_lookup). done.
    + destruct H2. by eapply list_elem_of_lookup_2.
  - assert (Hnot : self ∉ L d). { intros Hin. apply E. by eapply linee_su. }
    rewrite Hf. cbn [ipc_fila_testa ipc_riservati]. rewrite andb_true_iff, bool_decide_eq_true, Z.ltb_lt.
    pose proof (iv_r4 _ _ _ _ H d). unfold IPC_MAILBOX_DEPTH in *. rewrite u32_small by (unfold W32; lia).
    split.
    + intros [H1 H2]. destruct (L d); [|done]. cbn in *. split; [lia|]. right; right. done.
    + intros [H1 [H2|[(k & Hk & _)|[_ H2]]]]; [done|by destruct Hnot; eapply list_elem_of_lookup_2|].
      rewrite H2 in *. cbn in *. split; [done|lia].
Qed.

(** What a turn of [ipc_send] does. *)
Definition fuori (s s' : Mondo) (self : nat) : Prop :=
  po s' self = nessun_posto /\ stesse_caselle s s' /\ sc s' self = sc s self.

Definition esito_invio (self : nat) (dest : option nat) (inv : Invio) (s : Mondo) (L : nat -> list nat)
  (e : esito) (s' : Mondo) (L' : nat -> list nat) : Prop :=
  match dest with
  | None => e = Rende (- ESRCH) /\ fuori s s' self
  | Some d =>
      if morto (state_of s d) then e = Rende (- ESRCH) /\ fuori s s' self
      else if posto_per self d inv s then
        e = Rende 0 /\ (ipc_fila_su (po s self) = Some d -> po s' self = nessun_posto) /\
        (forall j, ca s' j = if decide (j = d) then deposita (pid_of s self) (i_tipo inv) (i_len inv) (payload inv) (ca s d)
                             else ca s j) /\
        (dest_pid inv = pid_of s d -> state_of s' d <> PROC_BLOCKED)
      else if senza inv then e = Rende (- EBUSY) /\ s' = s
      else if scadenza inv <=? g_ticks s then e = Rende (- EBUSY) /\ fuori s s' self
      else e = Dorme /\ stesse_caselle s s' /\ state_of s' self = PROC_BLOCKED /\
        block_until (sc s' self) = scadenza inv /\
        (if decide (self ∈ L d) then L' d = L d else L' d = L d ++ [self])
  end.

Lemma unblock_not_blocked s d :
  pids_ok s -> morto (state_of s d) = false ->
  state_of (if decide (state_of s d = PROC_BLOCKED) then sched_unblock_locked (pid_of s d) s else s) d <> PROC_BLOCKED.
Proof.
  intros Hp Hd. destruct (decide (state_of s d = PROC_BLOCKED)); [|done].
  unfold state_of at 1. rewrite unblock_sc by (done || by apply non_morto_unused).
  rewrite decide_True by done. apply svegliato_not_blocked.
Qed.

Lemma lascia_fuori s s' self ws : svegliati ws s s' -> (self ∉ ws) -> po s' self = nessun_posto -> fuori s s' self.
Proof. intros Hs Hn Hp. split; [done|]. split; [apply Hs|]. by rewrite (sv_sc _ _ _ Hs), decide_False. Qed.

Section send.
Context (s : Mondo) (L : nat -> list nat) (R : nat -> nat) (self d : nat) (inv : Invio).
Context (H : ipc_inv s L R) (Hself : morto (state_of s self) = false).

(** The delivery itself. *)
Lemma send_delivers :
  morto (state_of s d) = false -> posto_per self d inv s = true ->
  let s1 := if decide (ipc_fila_su (po s self) = Some d) then fila_togli self s else s in
  let s2 := upd d (su_cas (deposita (pid_of s1 self) (i_tipo inv) (i_len inv) (payload inv))) s1 in
  let s3 := if decide (state_of s2 d = PROC_BLOCKED) then sched_unblock_locked (dest_pid inv) s2 else s2 in
  exists L' R', ipc_inv s3 L' R' /\ esito_invio self (Some d) inv s L (Rende 0) s3 L' /\ quadro s s3.
Proof.
  intros Hd Hposto s1 s2 s3. pose proof (iv_lin _ _ _ _ H) as Hl.
  pose proof Hposto as [Hc _]%(posto_per_spec _ _ _ _ _ _ H).
  assert (Hnb : forall k w, L d !! k = Some w -> (k < R d)%nat -> state_of s w <> PROC_BLOCKED).
  { intros k w Hk Hr Hb. pose proof (iv_sveglio _ _ _ _ H d k w I Hk Hr Hb). lia. }
  assert (H1 : exists L' R', ipc_inv_p (fun x => True /\ x <> d) s1 L' R' /\ stesse_caselle s s1 /\ stessi_stati s s1 /\
     (forall k w, L' d !! k = Some w -> (k < R' d)%nat -> state_of s w <> PROC_BLOCKED) /\
     (ipc_fila_su (po s self) = Some d -> po s1 self = nessun_posto)).
  { unfold s1. destruct (decide (ipc_fila_su (po s self) = Some d)) as [E|E].
    - destruct (linee_index _ _ _ _ _ Hl E) as [i Hi]. destruct (togli_frame s self) as (_ & Fc & Fs).
      eexists _, _. split; [by eapply inv_togli|]. split; [done|]. split; [done|].
      split; [|intros _; by eapply togli_solo].
      intros k w. rewrite !fn_lookup_insert. intros Hk Hr.
      destruct (delete_links _ _ _ _ _ (lk_nodup _ _ _ _ (li_ok _ _ _ Hl d)) Hi Hk) as (Hk' & Hne & _).
      eapply Hnb; [exact Hk'|]. unfold tolto in Hr. clear Hk'. revert Hne.
      destruct (decide (k < i)%nat); destruct (decide (i < R d)%nat); lia.
    - exists L, R. split; [eapply inv_weaken; [|exact H]; done|].
      repeat split; done. }
  destruct H1 as (L' & R' & H1 & Fc & Fs & Hnb' & Hpo).
  assert (H2 : ipc_inv s2 L' R').
  { apply (inv_deposita (fun _ => True)); [exact H1|by rewrite Fc|].
    intros k w Hk Hr. unfold state_of. rewrite Fs. by eapply Hnb'. }
  exists L', R'.
  assert (H3 : ipc_inv s3 L' R').
  { unfold s3. destruct (decide (state_of s2 d = PROC_BLOCKED)); [by apply inv_unblock|done]. }
  split; [exact H3|].
  assert (Hq : quadro s s3).
  { transitivity s1; [|transitivity s2; [apply quadro_casella|]].
    - apply quadro_stati; [|done]. unfold s1. destruct (decide _); [apply togli_frame|done].
    - unfold s3. destruct (decide (state_of s2 d = PROC_BLOCKED)); [apply quadro_unblock|done]. }
  split; [|exact Hq]. unfold esito_invio. rewrite Hd, Hposto.
  assert (Hs3 : solo_stati s2 s3).
  { unfold s3. destruct (decide (state_of s2 d = PROC_BLOCKED)); [apply unblock_solo_stati|by repeat split]. }
  destruct Hs3 as (_ & F3c & _ & F3p). split; [done|]. split; [|split].
  - intros E. rewrite F3p. unfold s2. ipcs. by apply Hpo.
  - intros j. rewrite F3c. unfold s2. ipcs. rewrite Fc.
    unfold pid_of. rewrite Fs. by destruct (decide (j = d)) as [->|].
  - assert (Hpid : pid_of s d = pid_of s2 d) by (unfold pid_of, s2; ipcs; by rewrite Fs).
    assert (Hst2 : state_of s2 d = state_of s d) by (unfold state_of, s2; ipcs; by rewrite Fs).
    intros Hdp. unfold s3. rewrite Hdp, Hpid. apply unblock_not_blocked; [apply H2|]. by rewrite Hst2.
Qed.

(** The sender goes to sleep in the line of [d]. *)
Lemma send_sleeps :
  morto (state_of s d) = false -> posto_per self d inv s = false -> senza inv = false -> g_ticks s < scadenza inv ->
  exists s' L' R',
    (s0 ← (if decide (ipc_fila_su (po s self) = Some d) then Ok s
           else s ← lascia_fila self s; Ok (fila_metti d self s));
     Ok (Dorme, sched_block self (upd self (su_sch (set_block_until (scadenza inv))) s0))) = Ok (Dorme, s') /\
    ipc_inv s' L' R' /\ esito_invio self (Some d) inv s L Dorme s' L' /\ quadro s s'.
Proof.
  intros Hd Hposto Hsenza Ht. pose proof (iv_lin _ _ _ _ H) as Hl.
  pose proof (posto_per_spec s L R self d inv H) as Hpp. rewrite Hposto in Hpp.
  pose proof (ck_count _ (iv_cas _ _ _ _ H d)) as Hcd.
  assert (H1 : exists s1 L1 R1, (if decide (ipc_fila_su (po s self) = Some d) then Ok s
           else s ← lascia_fila self s; Ok (fila_metti d self s)) = Ok s1 /\ ipc_inv s1 L1 R1 /\
           stesse_caselle s s1 /\ quadro s s1 /\ sc s1 self = sc s self /\
           (if decide (self ∈ L d) then L1 d = L d else L1 d = L d ++ [self]) /\
           (forall d' k, L1 d' !! k = Some self -> (k < R1 d')%nat -> ipc_count (ca s1 d') = IPC_MAILBOX_DEPTH)).
  { destruct (decide (ipc_fila_su (po s self) = Some d)) as [E|E].
    - destruct (linee_index _ _ _ _ _ Hl E) as [i Hi].
      assert (Hin : self ∈ L d) by (by eapply list_elem_of_lookup_2).
      exists s, L, R. split; [done|]. split; [done|]. split; [done|]. split; [done|]. split; [done|].
      rewrite decide_True by done.
      split; [done|]. intros d' k Hk Hr.
      assert (d' = d) as -> by (eapply linee_disj; [done|by eapply list_elem_of_lookup_2|done]).
      destruct (Z.eq_dec (ipc_count (ca s d)) IPC_MAILBOX_DEPTH) as [?|Hne]; [done|].
      exfalso. apply (diff_false_true). apply Hpp. split; [lia|]. right; left. by exists k.
    - destruct (inv_lascia _ _ _ _ self H) as (s1 & L1 & R1 & ws & -> & H1 & Hs1 & Hp1 & Hn1 & HL1).
      cbn [mbind run_bind].
      assert (Hnot : self ∉ L d). { intros Hin. apply E. by eapply linee_su. }
      assert (HLd : L1 d = L d /\ R1 d = R d).
      { specialize (HL1 d). destruct (ipc_fila_su (po s self)) as [d0|]; [|by destruct HL1 as (? & ? & _)].
        by rewrite decide_False in HL1 by congruence. }
      destruct HLd as [HLd HRd]. destruct (metti_frame d self s1) as (_ & Fc & Fs).
      eexists _, _, R1. split; [done|]. split; [apply (inv_metti s1 L1 R1 d self)|].
      + done.
      + by rewrite Hp1.
      + by rewrite (svegliati_morto _ _ _ _ Hs1).
      + by rewrite (svegliati_morto _ _ _ _ Hs1).
      + rewrite HLd, HRd, (sv_cas _ _ _ Hs1).
        destruct (L d) as [|x l] eqn:El; [right|by left]. destruct (Z.lt_ge_cases (ipc_count (ca s d)) IPC_MAILBOX_DEPTH); [|lia].
        exfalso. apply diff_false_true, Hpp. split; [done|]. right; right. by split; [exact Hnot|].
      + split; [intros j; by rewrite Fc, (sv_cas _ _ _ Hs1)|].
        split; [transitivity s1; [by eapply quadro_svegliati|by apply quadro_stati; [apply metti_frame|]]|].
        split; [by rewrite Fs, (sv_sc _ _ _ Hs1), decide_False|]. rewrite decide_False by done.
        split; [by rewrite fn_lookup_insert, HLd|].
        intros d' k Hk Hr. exfalso. destruct (decide (d' = d)) as [->|Hne].
        * rewrite fn_lookup_insert, HLd in Hk. pose proof (lk_r _ _ _ _ (li_ok _ _ _ Hl d)) as Hrl.
          rewrite lookup_app_l in Hk by lia. apply Hnot. by eapply list_elem_of_lookup_2.
        * rewrite fn_lookup_insert_ne in Hk by done.
          eapply list_elem_of_lookup_2, linee_su in Hk; [|apply H1]. by rewrite Hp1 in Hk. }
  destruct H1 as (s1 & L1 & R1 & -> & H1 & Fc & Hq & Fs & HL1 & Hprom). cbn [mbind run_bind].
  eexists _, L1, R1. split; [done|]. split.
  - unfold sched_block. apply inv_sched; [apply inv_sched; [exact H1|done|done|done|]|..].
    + intros d' k Hk Hr Hs. by left.
    + done.
    + ipcs. rewrite decide_True by done. cbn. rewrite Fs. split; [done|]. intros E.
      unfold state_of in Hself. by rewrite E in Hself.
    + ipcs. rewrite decide_True by done. done.
    + intros d' k Hk Hr _. right. ipcs. by eapply Hprom.
  - split.
    2:{ transitivity s1; [exact Hq|]. unfold sched_block.
        transitivity (upd self (su_sch (set_block_until (scadenza inv))) s1); apply quadro_sched; try done;
          ipcs; rewrite ?decide_True by done; cbn; by rewrite Fs. }
    unfold esito_invio. rewrite Hd, Hposto, Hsenza, (proj2 (Z.leb_gt _ _)) by lia.
    split; [done|]. split; [|split; [|split]].
    + intros j. unfold sched_block. ipcs. apply Fc.
    + unfold sched_block, state_of. ipcs. by rewrite !decide_True by done.
    + unfold sched_block. ipcs. by rewrite !decide_True by done.
    + exact HL1.
Qed.
End send.

(** Every turn of [ipc_send] ends, keeps the invariant and does what
    [esito_invio] says. *)
Lemma send_spec s L R self dest inv :
  ipc_inv s L R -> morto (state_of s self) = false ->
  exists e s' L' R', ipc_send_giro self dest inv s = Ok (e, s') /\ ipc_inv s' L' R' /\
    esito_invio self dest inv s L e s' L' /\ quadro s s'.
Proof.
  intros H Hself. unfold ipc_send_giro.
  destruct (inv_lascia _ _ _ _ self H) as (s1 & L1 & R1 & ws & Elas & H1 & Hs1 & Hp1 & Hn1 & _).
  pose proof (lascia_fuori _ _ _ _ Hs1 Hn1 Hp1) as Hout. pose proof (quadro_svegliati _ _ _ Hs1) as Hq.
  destruct dest as [d|]; [|rewrite Elas; by eexists _, s1, L1, R1].
  destruct (morto (state_of s d)) eqn:Hd.
  { rewrite Elas. eexists _, s1, L1, R1. split; [done|]. split; [done|]. split; [|done]. unfold esito_invio. by rewrite Hd. }
  destruct (posto_per self d inv s) eqn:Hposto.
  { destruct (send_delivers s L R self d inv H Hd Hposto) as (L' & R' & H2 & He). by eexists _, _, L', R'. }
  destruct (senza inv) eqn:Hsenza.
  { eexists _, s, L, R. split; [done|]. split; [done|]. split; [|done]. unfold esito_invio. by rewrite Hd, Hposto, Hsenza. }
  destruct (Z.leb_spec (scadenza inv) (g_ticks s)) as [Ht|Ht].
  { rewrite Elas. eexists _, s1, L1, R1. split; [done|]. split; [done|]. split; [|done]. unfold esito_invio.
    by rewrite Hd, Hposto, Hsenza, (proj2 (Z.leb_le _ _) Ht). }
  destruct (send_sleeps s L R self d inv H Hself Hd Hposto Hsenza Ht) as (s' & L' & R' & E & H2 & He).
  by eexists _, s', L', R'.
Qed.

(** ** One turn of [ipc_recv_timeout] *)

Definition esito_ricezione (self : nat) (buf_len scad : Z) (svegl : bool) (s : Mondo)
  (L : nat -> list nat) (R : nat -> nat)
  (e : esito) (r : option Ricevuto) (s' : Mondo) (L' : nat -> list nat) (R' : nat -> nat) : Prop :=
  if svegl && interrotto (sc s self) then e = Rende (- EINTR) /\ r = None /\ s' = s
  else match messaggi (ca s self) with
  | m :: q =>
      e = Rende 0 /\
      r = Some (mkRic (sender_pid m) (tipo m) (len m) (take (Z.to_nat (Z.min buf_len (len m))) (data m))) /\
      messaggi (ca s' self) = q /\ (forall j, j <> self -> ca s' j = ca s j) /\ L' = L /\
      R' self = promessi (ipc_count (ca s self) - 1) (R self) (length (L self)) /\
      (forall w, w ∈ take (R' self) (L self) -> state_of s' w <> PROC_BLOCKED)
  | [] =>
      r = None /\ stesse_caselle s s' /\
      if negb (scad =? 0) && (scad <=? g_ticks s) then e = Rende (- ETIMEDOUT) /\ block_until (sc s' self) = 0
      else e = Dorme /\ state_of s' self = PROC_BLOCKED /\ block_until (sc s' self) = scad
  end.

Lemma messaggi_nil c : cas_ok c -> messaggi c = [] <-> ipc_count c = 0.
Proof. intros H. rewrite <- (messaggi_length c H). split; [by intros ->|]. intros E. apply nil_length_inv. lia. Qed.

Lemma recv_spec s L R self buf_len scad svegl :
  ipc_inv s L R -> morto (state_of s self) = false -> ipc_fila_su (po s self) = None ->
  exists e r s' L' R', ipc_recv_giro self buf_len scad svegl s = Ok (e, r, s') /\ ipc_inv s' L' R' /\
    esito_ricezione self buf_len scad svegl s L R e r s' L' R' /\ quadro s s'.
Proof.
  intros H Hself Hsu. unfold ipc_recv_giro, esito_ricezione.
  destruct (svegl && interrotto (sc s self)); [by eexists _, _, s, L, R|].
  pose proof (iv_cas _ _ _ _ H self) as Hcas. pose proof (ck_count _ Hcas) as Hc.
  assert (Hout : forall d k, L d !! k = Some self -> False).
  { intros d k Hk. eapply list_elem_of_lookup_2, linee_su in Hk; [|apply H]. congruence. }
  destruct (Z.ltb_spec 0 (ipc_count (ca s self))) as [Hpos|Hzero].
  - destruct (estrai_ok _ Hcas Hpos) as (Hok & -> & Hq).
    set (s0 := upd self (su_cas estrai) s). set (s1 := upd self (su_sch (set_block_until 0)) s0).
    assert (H1 : ipc_inv_p (fun x => x <> self) s1 L R).
    { apply inv_sched; [|by ipcs|by ipcs|by ipcs|by intros d k Hk; destruct (Hout _ _ Hk)].
      apply (inv_casella (fun x => x <> self)); [by eapply inv_weaken; [|exact H]|done|done|done]. }
    assert (Hca1 : forall j, ca s1 j = if decide (j = self) then estrai (ca s self) else ca s j).
    { intros j. unfold s1, s0. ipcs. by destruct (decide (j = self)) as [->|]. }
    assert (H2 : exists s2 R', match ipc_fila_testa (fi s1 self) with
                 | Some _ => fila_avanza self s1 | None => Ok s1 end = Ok s2 /\ ipc_inv s2 L R' /\
                 svegliati (take (R' self) (L self)) s1 s2 /\
                 R' self = promessi (ipc_count (ca s1 self)) (R self) (length (L self))).
    { pose proof (lk_fila _ _ _ _ (li_ok _ _ _ (iv_lin _ _ _ _ H1) self)) as Hf.
      pose proof (lk_r _ _ _ _ (li_ok _ _ _ (iv_lin _ _ _ _ H1) self)) as Hr. rewrite Hf. cbn [ipc_fila_testa].
      destruct (inv_avanza _ _ _ _ self H1) as (s2 & Es & H2 & Hs). destruct (L self) as [|x l] eqn:El; cbn [head].
      - assert (R self = 0%nat) as HR0 by (cbn in Hr; lia). exists s1, R. split; [done|]. split.
        + destruct H1 as [A B C D E F G I]. split; [done|done|done|done|done|done| |].
          * intros d k w _. destruct (decide (d = self)) as [->|]; [by rewrite El|by apply G].
          * intros d _. destruct (decide (d = self)) as [->|]; [rewrite El; cbn; lia|by apply I].
        + rewrite HR0. cbn [take]. split; [apply svegliati_refl|]. unfold promessi. cbn. lia.
      - eexists s2, _. split; [done|]. split; [eapply inv_weaken; [|exact H2]|].
        + intros y _. destruct (decide (y = self)); auto.
        + by rewrite fn_lookup_insert. }
    destruct H2 as (s2 & R' & -> & H2 & Hs & HR'). cbn [mbind run_bind].
    assert (Hca2 : forall j, ca s2 j = if decide (j = self) then estrai (ca s self) else ca s j).
    { intros j. by rewrite (sv_cas _ _ _ Hs). }
    rewrite Hca1, decide_True, Hq in HR' by done.
    eexists _, _, s2, L, R'. split; [done|]. split; [done|].
    split; [|transitivity s1; [|by eapply quadro_svegliati]; transitivity s0; [apply quadro_casella|];
      apply quadro_sched; unfold s0; by ipcs]. split; [done|].
    split. { unfold slot. do 2 f_equal. f_equal. bcase; lia. }
    split; [by rewrite Hca2, decide_True|]. split; [intros j Hj; by rewrite Hca2, decide_False|].
    split; [done|]. split; [done|]. intros w Hw. unfold state_of. rewrite (sv_sc _ _ _ Hs), decide_True by done.
    apply svegliato_not_blocked.
  - rewrite (proj2 (messaggi_nil _ Hcas)) by lia.
    assert (Hno : forall d k, L d !! k = Some self -> (k < R d)%nat -> forall P : Prop, P).
    { intros d k Hk. by destruct (Hout _ _ Hk). }
    destruct (negb (scad =? 0) && (scad <=? g_ticks s)).
    + eexists _, _, _, L, R. split; [done|]. split; [apply inv_sched; [done|done|done|done|intros d k Hk Hr; apply (Hno d k Hk Hr)]|].
      split; [|by apply quadro_sched].
      split; [done|]. split; [intros j; by ipcs|]. split; [done|]. ipcs. by rewrite decide_True.
    + eexists _, _, _, L, R. split; [done|]. unfold sched_block.
      assert (Hnu : state (sc s self) <> PROC_UNUSED) by (by apply non_morto_unused).
      split; [apply inv_sched; [apply inv_sched; [done|done|done|done|intros d k Hk Hr; apply (Hno d k Hk Hr)]|by ipcs|by ipcs; rewrite decide_True|done|intros d k Hk Hr; apply (Hno d k Hk Hr)]|].
      split; [|transitivity (upd self (su_sch (set_block_until scad)) s); apply quadro_sched; try done;
        ipcs; by rewrite ?decide_True].
      split; [done|]. split; [intros j; by ipcs|]. split; [done|]. unfold state_of. ipcs.
      by rewrite !decide_True.
Qed.

(** ** Interrupt notifications *)

Lemma notify_spec s L R dp irq :
  ipc_inv s L R ->
  exists r s', ipc_notify_irq dp irq s = (r, s') /\ ipc_inv s' L R /\ quadro s s' /\
  match proc_get_by_pid s dp with
  | Some d =>
      if negb (morto (state_of s d)) && (ipc_count (ca s d) <? IPC_MAILBOX_DEPTH) then
        r = 1 /\ state_of s' d <> PROC_BLOCKED /\
        forall j, ca s' j = if decide (j = d)
          then deposita IPC_SENDER_KERNEL IPC_TYPE_IRQ_NOTIFY 4 (u32_bytes irq) (ca s d) else ca s j
      else r = 0 /\ s' = s
  | None => r = 0 /\ s' = s
  end.
Proof.
  intros H. unfold ipc_notify_irq. destruct (proc_get_by_pid s dp) as [d|] eqn:Ed; [|by eexists _, _].
  apply proc_get_by_pid_some in Ed as (_ & <- & Hu).
  destruct (morto (state_of s d)) eqn:Hm; [by eexists _, _|]. cbn [negb andb].
  destruct (Z.ltb_spec (ipc_count (ca s d)) IPC_MAILBOX_DEPTH) as [Hc|Hc]; [|by eexists _, _].
  set (s1 := upd d _ s).
  assert (H1 : ipc_inv s1 L R).
  { apply (inv_deposita (fun _ => True)); [by eapply inv_weaken; [|exact H]|done|].
    intros k w Hk Hr Hb. pose proof (iv_sveglio _ _ _ _ H d k w I Hk Hr Hb). lia. }
  assert (Hpid : pid_of s d = pid_of s1 d) by (unfold pid_of, s1; by ipcs).
  eexists _, _. split; [done|]. split.
  - destruct (decide (state_of s1 d = PROC_BLOCKED)); [by apply inv_unblock|done].
  - split.
    { transitivity s1; [apply quadro_casella|].
      destruct (decide (state_of s1 d = PROC_BLOCKED)); [apply quadro_unblock|done]. }
    split; [done|]. split.
    + rewrite Hpid. apply unblock_not_blocked; [apply H1|]. unfold state_of, s1. by ipcs.
    + intros j. assert (Hca : ca s1 j = if decide (j = d) then
         deposita IPC_SENDER_KERNEL IPC_TYPE_IRQ_NOTIFY 4 (u32_bytes irq) (ca s d) else ca s j).
      { unfold s1. ipcs. by destruct (decide (j = d)) as [->|]. }
      destruct (decide (state_of s1 d = PROC_BLOCKED)); [|exact Hca].
      destruct (unblock_solo_stati (pid_of s d) s1) as (_ & Fc & _). by rewrite Fc.
Qed.

(** ** Cleaning up after a dead process *)

Definition chi (s : Mondo) (p : Z) : option nat := primo (fun i => pid_of s i =? p) (g_proc_posti s) 0.

Lemma svegliati_chi ws s s' p : svegliati ws s s' -> chi s' p = chi s p.
Proof.
  intros H. unfold chi. destruct (sv_resto _ _ _ H) as (-> & _). apply primo_ext. intros k.
  unfold pid_of. rewrite (sv_sc _ _ _ H). destruct (decide _); [by rewrite svegliato_pid|done].
Qed.

Lemma cleanup_spec s L R p :
  ipc_inv s L R ->
  exists s' L' R' (ws : list nat), ipc_cleanup_process p s = Ok s' /\ ipc_inv s' L' R' /\
    g_proc_posti s' = g_proc_posti s /\ g_ticks s' = g_ticks s /\
    (forall j, sc s' j = if decide (j ∈ ws) then svegliato (sc s j) else sc s j) /\
    (forall j, ca s' j = if decide (chi s p = Some j) then svuota (ca s j) else ca s j) /\
    (forall d, chi s p <> Some d -> L d = [] -> L' d = []) /\
    (forall j, (forall d, j ∉ L d) -> forall d, j ∉ L' d) /\
    g_nomi s' = map (fun v => if npid v =? p then mkNome 0 (nome v) else v) (g_nomi s).
Proof.
  intros H. unfold ipc_cleanup_process. fold (chi s p).
  assert (H1 : exists s1 L1 R1 ws, match chi s p with Some i => ipc_processo_finito i s | None => Ok s end = Ok s1 /\
    ipc_inv s1 L1 R1 /\ svegliati ws s s1 /\ (forall i, chi s p = Some i -> L1 i = []) /\
    (forall d w, w ∈ L1 d -> w ∈ L d)).
  { destruct (chi s p) as [i|]; [|exists s, L, R, []; by split; [|split; [|split; [apply svegliati_refl|]]]].
    destruct (inv_finito s L R i H) as (s1 & L1 & R1 & ws & -> & H1 & Hs & HLi & _ & _ & _ & Hsame & Hother).
    exists s1, L1, R1, ws. split; [done|]. split; [done|]. split; [done|]. split; [by intros j [= ->]|].
    intros d w Hw. destruct (decide (d = i)) as [->|Hne]; [rewrite HLi in Hw; by apply not_elem_of_nil in Hw|].
    destruct (decide (ipc_fila_su (po s i) = Some d)) as [E|E].
    - destruct (Hother d Hne E) as (k & _ & HL' & _). rewrite HL' in Hw.
      eapply elem_of_submseteq; [exact Hw|]. apply sublist_submseteq, sublist_delete.
    - destruct (Hsame d Hne E) as [HL' _]. by rewrite <- HL'. }
  destruct H1 as (s1 & L1 & R1 & ws & -> & H1 & Hs & HL1 & Hsub). cbn [mbind run_bind]. fold (chi s1 p).
  rewrite (svegliati_chi _ _ _ _ Hs). destruct (sv_resto _ _ _ Hs) as (E1 & E2 & E3).
  set (s2 := match chi s p with Some i => upd i (su_cas svuota) s1 | None => s1 end).
  assert (H2 : ipc_inv s2 L1 R1).
  { unfold s2. destruct (chi s p) as [i|] eqn:Ei; [|done]. specialize (HL1 i eq_refl).
    apply (inv_casella (fun _ => True)); [by eapply inv_weaken; [|exact H1]|apply svuota_ok, H1| |]; rewrite HL1; [done|cbn; lia]. }
  assert (F : g_proc_posti s2 = g_proc_posti s1 /\ g_nomi s2 = g_nomi s1 /\ g_ticks s2 = g_ticks s1 /\
    (forall j, sc s2 j = sc s1 j) /\ (forall j, ca s2 j = if decide (chi s p = Some j) then svuota (ca s1 j) else ca s1 j)).
  { unfold s2. destruct (chi s p) as [i|]; repeat split; intros j; ipcs; try done.
    destruct (decide (j = i)) as [->|]; [by rewrite decide_True|by rewrite decide_False by congruence]. }
  destruct F as (F1 & F2 & F3 & F4 & F5).
  eexists _, L1, R1, ws. split; [done|]. split; [|split; [|split; [|split; [|split; [|split; [|split]]]]]].
  - destruct H2 as [A B C D E0 F G I]. split; [|by apply (pids_ok_ext s2)|done|done|done|done|done|done].
    by apply (linee_ext s2).
  - cbn. congruence.
  - cbn. congruence.
  - intros j. cbn. rewrite F4. apply Hs.
  - intros j. cbn. rewrite F5. by rewrite (sv_cas _ _ _ Hs).
  - intros d _ HLd. destruct (L1 d) as [|x l] eqn:E; [done|]. exfalso.
    apply (not_elem_of_nil x). rewrite <- HLd. apply Hsub. rewrite E. apply list_elem_of_here.
  - intros j Hj d Hd. by eapply Hj, Hsub.
  - cbn. by rewrite F2, E2.
Qed.
