(* ===== verification/IpcNomi.v ===== *)
(** * The registry of service names: specification

    A name is the string [cstr] up to the terminator; an entry is live when its
    process is.  [nomi_ok]: two live entries never carry the same name, and an
    entry never outlives the control block it points at. *)

From S2P Require Import Prelude Ipc IpcSpec.

(** The characters before the terminator, at most [n] of them. *)
Fixpoint cstr_from (n j : nat) (a : list Z) : list Z :=
  match n with
  | O => []
  | S n => if car a j =? 0 then [] else car a j :: cstr_from n (S j) a
  end.

Definition cstr (a : list Z) : list Z := cstr_from IPC_NAME_LEN 0 a.

Lemma nome_uguale_loop_spec n : forall j a b,
  nome_uguale_loop n j a b = bool_decide (cstr_from n j a = cstr_from n j b).
Proof.
  induction n as [|n IH]; intros j a b; cbn [nome_uguale_loop cstr_from]; [done|].
  destruct (Z.eqb_spec (car a j) (car b j)) as [E|E]; cbn [negb].
  - rewrite <- E. destruct (Z.eqb_spec (car a j) 0); [done|]. rewrite IH. apply bool_decide_ext.
    split; [by intros ->|by intros [= ->]].
  - symmetry. apply bool_decide_eq_false_2.
    destruct (Z.eqb_spec (car a j) 0); destruct (Z.eqb_spec (car b j) 0); congruence.
Qed.

Lemma nome_uguale_spec a b : nome_uguale a b = true <-> cstr a = cstr b.
Proof. unfold nome_uguale. rewrite nome_uguale_loop_spec. apply bool_decide_eq_true. Qed.

Lemma scrivi_nome_spec n : forall k name dst,
  (k + n <= length dst)%nat ->
  length (scrivi_nome n k name dst) = length dst /\
  (forall j, (j < k)%nat -> car (scrivi_nome n k name dst) j = car dst j) /\
  cstr_from n k (scrivi_nome n k name dst) = cstr_from n k name.
Proof.
  assert (Hcar : forall (dst : list Z) k v j, (k < length dst)%nat ->
    car (<[k := v]> dst) j = if decide (j = k) then v else car dst j).
  { intros dst k v j Hk. unfold car. rewrite !nth_lookup. destruct (decide (j = k)) as [->|].
    - by rewrite list_lookup_insert_eq.
    - by rewrite list_lookup_insert_ne. }
  induction n as [|n IH]; intros k name dst Hl; cbn [scrivi_nome cstr_from]; [done|].
  destruct (Z.eqb_spec (car name k) 0) as [E|E].
  - rewrite length_insert. split; [done|]. split.
    + intros j Hj. rewrite Hcar, decide_False by lia. done.
    + rewrite Hcar, decide_True by lia. by rewrite E.
  - destruct (IH (S k) name (<[k := car name k]> dst)) as (H1 & H2 & H3); [rewrite length_insert; lia|].
    rewrite length_insert in H1. split; [done|]. split.
    + intros j Hj. rewrite H2, Hcar, decide_False by lia. done.
    + rewrite H2, Hcar, decide_True by lia. rewrite (proj2 (Z.eqb_neq _ _)) by done. by rewrite H3.
Qed.

Lemma cstr_scritto name dst :
  length dst = IPC_NAME_LEN -> cstr (scrivi_nome IPC_NAME_LEN 0 name dst) = cstr name.
Proof. intros H. apply scrivi_nome_spec. lia. Qed.

(** ** Live entries *)

Lemma voce_viva_spec s v :
  pids_ok s ->
  voce_viva s v = true <-> npid v <> 0 /\ exists i, pid_of s i = npid v /\ morto (state_of s i) = false.
Proof.
  intros Hp. unfold voce_viva. destruct (Z.eqb_spec (npid v) 0) as [E|E].
  { split; [done|]. by intros [? _]. }
  split.
  - destruct (proc_get_by_pid s (npid v)) as [i|] eqn:Ei; [|done].
    apply proc_get_by_pid_some in Ei as (_ & Hpid & _). intros Hm%negb_true_iff. split; [done|]. by exists i.
  - intros (_ & i & Hpid & Hm). rewrite <- Hpid.
    rewrite proc_get_by_pid_in_use; [by rewrite Hm|done|]. intros Hu. by rewrite Hu in Hm.
Qed.

Record nomi_ok (s : Mondo) : Prop := mkNomiOk {
  nk_len : length (g_nomi s) = IPC_NOMI_MAX;
  nk_nome : forall i, (i < IPC_NOMI_MAX)%nat -> length (nome (voce s i)) = IPC_NAME_LEN;
  nk_vivo : forall i, npid (voce s i) <> 0 -> exists p, pid_of s p = npid (voce s i) /\ state_of s p <> PROC_UNUSED;
  nk_unico : forall i j, voce_viva s (voce s i) = true -> voce_viva s (voce s j) = true ->
    cstr (nome (voce s i)) = cstr (nome (voce s j)) -> i = j
}.

Lemma voce_oltre s i : length (g_nomi s) = IPC_NOMI_MAX -> (IPC_NOMI_MAX <= i)%nat -> voce s i = voce0.
Proof. intros Hl Hi. unfold voce. apply nth_overflow. lia. Qed.

Lemma voce_viva_dentro s i : length (g_nomi s) = IPC_NOMI_MAX -> voce_viva s (voce s i) = true -> (i < IPC_NOMI_MAX)%nat.
Proof.
  intros Hl Hv. destruct (decide (i < IPC_NOMI_MAX)%nat); [done|]. rewrite voce_oltre in Hv by (done || lia). done.
Qed.

(** The scan of the registry for a name. *)
Definition cerca_nome (s : Mondo) (name : list Z) : option nat :=
  primo (fun i => voce_viva s (voce s i) && nome_uguale (nome (voce s i)) name) IPC_NOMI_MAX 0.

Lemma cerca_nome_spec s name i :
  nomi_ok s -> cerca_nome s name = Some i <-> voce_viva s (voce s i) = true /\ cstr (nome (voce s i)) = cstr name.
Proof.
  intros H. unfold cerca_nome. split.
  - intros (_ & Hq & _)%primo_some. by rewrite andb_true_iff, nome_uguale_spec in Hq.
  - intros [Hv Hn]. apply primo_unico.
    + eapply voce_viva_dentro; [apply H|done].
    + by rewrite andb_true_iff, nome_uguale_spec.
    + intros k _. rewrite andb_true_iff, nome_uguale_spec. intros [Hv' Hn'].
      apply (nk_unico _ H); [done|done|congruence].
Qed.

Lemma cerca_nome_none s name :
  nomi_ok s -> cerca_nome s name = None ->
  forall i, voce_viva s (voce s i) = true -> cstr (nome (voce s i)) <> cstr name.
Proof.
  intros H Hc i Hv Hn. assert (cerca_nome s name = Some i) by (by apply cerca_nome_spec). congruence.
Qed.

(** The checks of [ipc_register] on the name and on the caller. *)
Definition nome_valido (name : list Z) : bool :=
  negb (car name 0 =? 0) && (car name (nome_len IPC_NAME_LEN 0 name) =? 0).

Definition permesso (self : option nat) (name : list Z) (s : Mondo) : bool :=
  match self with
  | Some p => let u := uid (sch (PROC_POSTO s p)) in
              if negb (u =? 0) then prefisso_ok 0 (atteso u) name else true
  | None => true
  end.

Definition voce_libera (s : Mondo) : option nat :=
  primo (fun i => negb (voce_viva s (voce s i))) IPC_NOMI_MAX 0.

(** [ipc_register], branch by branch. *)
Lemma register_eq self name s :
  ipc_register self (Some name) s =
    if negb (nome_valido name) then (- EINVAL, s) else
    match cerca_nome s name with
    | Some _ => (- EEXIST, s)
    | None =>
        if negb (permesso self name s) then (- EPERM, s) else
        match voce_libera s with
        | None => (- ENOSPC, s)
        | Some i => (0, con_nomi (<[i := mkNome (match self with Some p => pid_of s p | None => 0 end)
                         (scrivi_nome IPC_NAME_LEN 0 name (nome (voce s i)))]> (g_nomi s)) s)
        end
    end.
Proof.
  unfold ipc_register, nome_valido. destruct (car name 0 =? 0); [done|]. cbn [negb andb].
  by destruct (car name (nome_len IPC_NAME_LEN 0 name) =? 0).
Qed.

Lemma voce_con_nomi s i v j :
  (i < length (g_nomi s))%nat ->
  voce (con_nomi (<[i := v]> (g_nomi s)) s) j = if decide (j = i) then v else voce s j.
Proof.
  intros Hi. unfold voce. cbn [con_nomi g_nomi]. rewrite !nth_lookup. destruct (decide (j = i)) as [->|].
  - by rewrite list_lookup_insert_eq.
  - by rewrite list_lookup_insert_ne.
Qed.

(** A live caller that registers a new name: the entry is live, and it is the
    only live one with that name. *)
Lemma register_ok s p name s' :
  pids_ok s -> nomi_ok s -> morto (state_of s p) = false -> pid_of s p <> 0 ->
  ipc_register (Some p) (Some name) s = (0, s') ->
  nomi_ok s' /\ exists i, voce_viva s' (voce s' i) = true /\ npid (voce s' i) = pid_of s p /\
    cstr (nome (voce s' i)) = cstr name.
Proof.
  intros Hp H Hm Hpid. rewrite register_eq.
  destruct (nome_valido name); [|done]. cbn [negb]. destruct (cerca_nome s name) eqn:Ec; [done|].
  destruct (permesso (Some p) name s); [|done]. cbn [negb].
  destruct (voce_libera s) as [i|] eqn:Ei; [|done]. intros [= <-].
  apply primo_some in Ei as (Hi & Hfree & _). apply negb_true_iff in Hfree.
  pose proof (nk_len _ H) as Hlen. set (v := mkNome _ _). set (s' := con_nomi _ s).
  assert (Hv : forall j, voce s' j = if decide (j = i) then v else voce s j) by (intros j; apply voce_con_nomi; lia).
  assert (Hviva : forall w, voce_viva s' w = voce_viva s w) by done.
  assert (Hvv : voce_viva s v = true) by (apply voce_viva_spec; [done|]; split; [done|]; by exists p).
  assert (Hcv : cstr (nome v) = cstr name) by (apply cstr_scritto, (nk_nome _ H); lia).
  pose proof (cerca_nome_none _ _ H Ec) as Hnew. split.
  - split.
    + unfold s'. cbn. by rewrite length_insert.
    + intros j Hj. rewrite Hv. destruct (decide (j = i)); [|by apply (nk_nome _ H)].
      assert (Hni : length (nome (voce s i)) = IPC_NAME_LEN) by (apply (nk_nome _ H); lia).
      change (length (scrivi_nome IPC_NAME_LEN 0 name (nome (voce s i))) = IPC_NAME_LEN).
      by rewrite (proj1 (scrivi_nome_spec IPC_NAME_LEN 0 name (nome (voce s i)) ltac:(lia))).
    + intros j. rewrite Hv. destruct (decide (j = i)); [|apply (nk_vivo _ H)].
      intros _. exists p. split; [done|]. intros Hu. change (state_of s p = PROC_UNUSED) in Hu. by rewrite Hu in Hm.
    + intros j k. rewrite !Hv, !Hviva. destruct (decide (j = i)) as [->|Hj]; destruct (decide (k = i)) as [->|Hk]; [done|..].
      * intros _ Hk' E. exfalso. eapply Hnew; [exact Hk'|]. by rewrite <- E.
      * intros Hj' _ E. exfalso. eapply Hnew; [exact Hj'|]. by rewrite E.
      * apply (nk_unico _ H).
  - exists i. by rewrite Hv, Hviva, decide_True.
Qed.

(** ** The prefix rule *)

Lemma prefisso_ok_spec att : forall k name,
  prefisso_ok k att name = true <-> forall i c, att !! i = Some c -> car name (k + i) = c.
Proof.
  induction att as [|c att IH]; intros k name; cbn [prefisso_ok]; [done|].
  rewrite andb_true_iff, Z.eqb_eq, IH. split.
  - intros [H1 H2] [|i] c'; cbn; [intros [= <-]; by rewrite Nat.add_0_r|].
    intros Hi. rewrite <- (H2 i c' Hi). f_equal. lia.
  - intros H. split; [rewrite <- (H 0%nat c eq_refl); f_equal; lia|].
    intros i c' Hi. rewrite <- (H (S i) c' Hi). f_equal. lia.
Qed.

(** The number a string of decimal digits, the least significant first, denotes. *)
Fixpoint valore (l : list Z) : Z :=
  match l with [] => 0 | c :: l => (c - 48) + 10 * valore l end.

Definition cifra (c : Z) : Prop := 48 <= c < 58.

Lemma cifre_spec n : forall v, 0 <= v < 10 ^ Z.of_nat n -> valore (cifre n v) = v /\ Forall cifra (cifre n v).
Proof.
  induction n as [|n IH]; intros v Hv; cbn [cifre].
  - cbn in Hv. split; [cbn; lia|constructor].
  - destruct (Z.ltb_spec 0 v) as [H0|H0].
    + rewrite Nat2Z.inj_succ, Z.pow_succ_r in Hv by lia.
      destruct (IH (v / 10)) as [H1 H2]; [split; [apply Z.div_pos; lia|apply Z.div_lt_upper_bound; lia]|].
      cbn [valore]. rewrite H1. split; [zdm|]. constructor; [unfold cifra; zdm|done].
    + split; [cbn; lia|constructor].
Qed.

(** Two runs of digits ended by a colon and read off the same string are the
    same run. *)
Lemma cifre_prefisso (l1 l2 : list Z) k name :
  Forall cifra l1 -> Forall cifra l2 ->
  prefisso_ok k (l1 ++ [58]) name = true -> prefisso_ok k (l2 ++ [58]) name = true -> l1 = l2.
Proof.
  revert l2 k. induction l1 as [|c l1 IH]; intros [|c' l2] k H1 H2; cbn [app prefisso_ok];
    rewrite ?andb_true_iff, ?Z.eqb_eq; intros [E1 T1] [E2 T2].
  - done.
  - apply Forall_inv in H2. unfold cifra in H2. lia.
  - apply Forall_inv in H1. unfold cifra in H1. lia.
  - rewrite <- E1, <- E2. f_equal. eapply (IH l2 (S k)); [by eapply Forall_inv_tail|by eapply Forall_inv_tail|done|done].
Qed.

Lemma atteso_inj u v name :
  0 <= u < W32 -> 0 <= v < W32 ->
  prefisso_ok 0 (atteso u) name = true -> prefisso_ok 0 (atteso v) name = true -> u = v.
Proof.
  intros Hu Hv H1 H2. unfold W32 in *.
  destruct (cifre_spec 10 u) as [Eu Fu]; [cbn; lia|]. destruct (cifre_spec 10 v) as [Ev Fv]; [cbn; lia|].
  assert (E : rev (cifre 10 u) = rev (cifre 10 v)).
  { eapply cifre_prefisso; [by apply Forall_rev|by apply Forall_rev|exact H1|exact H2]. }
  rewrite <- Eu, <- Ev. f_equal. by rewrite <- (rev_involutive (cifre 10 u)), E, rev_involutive.
Qed.
