(* ===== verification/IpcMacchina.v ===== *)
(** * The message system as a machine

    The steps of [ipc_step] are the critical sections of ipc.c, run by any
    process in any order, and what the rest of the kernel does to the control
    blocks meanwhile: birth, end, collection, scheduling, the clock.  Every step
    is labelled with what it does to the mailboxes, and the mailboxes refine
    bounded queues ([coda_step]). *)

From stdpp Require Import functions.
From S2P Require Import Prelude Ipc IpcSpec IpcInv IpcSys IpcNomi.

(** ** The abstract queues *)

Record Abs : Type := mkAbs {
  a_sender : Z;
  a_tipo : Z;
  a_len : Z;
  a_bytes : list Z
}.

Inductive evento : Type :=
| Consegna (d : nat) (a : Abs)
| Preleva (d : nat) (buf_len : Z) (r : Ricevuto)
| Azzera (d : nat)
| Altro.

(** A reception returns the message: its three fields and its bytes, cut at the
    buffer; [resto] is what lies in the slot beyond the bytes that were sent. *)
Definition restituisce (a : Abs) (buf_len : Z) (r : Ricevuto) : Prop :=
  r_sender r = a_sender a /\ r_tipo r = a_tipo a /\ r_len r = a_len a /\
  exists resto, r_buf r = take (Z.to_nat (Z.min buf_len (a_len a))) (a_bytes a ++ resto).

Inductive coda_step : (nat -> list Abs) -> evento -> (nat -> list Abs) -> Prop :=
| coda_consegna q d a :
    Z.of_nat (length (q d)) < IPC_MAILBOX_DEPTH -> coda_step q (Consegna d a) (<[d := q d ++ [a]]> q)
| coda_preleva q d bl r a rest :
    q d = a :: rest -> restituisce a bl r -> coda_step q (Preleva d bl r) (<[d := rest]> q)
| coda_azzera q d : coda_step q (Azzera d) (<[d := []]> q)
| coda_altro q : coda_step q Altro q.

Inductive coda_run : list evento -> (nat -> list Abs) -> Prop :=
| coda_vuota : coda_run [] (fun _ => [])
| coda_poi tr q e q' : coda_run tr q -> coda_step q e q' -> coda_run (tr ++ [e]) q'.

(** A slot of the ring holds an abstract message. *)
Definition conforme (a : Abs) (m : IpcMessage) : Prop :=
  sender_pid m = a_sender a /\ tipo m = a_tipo a /\ len m = a_len a /\ a_bytes a `prefix_of` data m.

Definition rappresenta (q : nat -> list Abs) (s : Mondo) : Prop :=
  forall d, Forall2 conforme (q d) (messaggi (ca s d)).

(** ** The machine *)

Definition casella0 : Casella := mkCas (replicate 4 (mkMsg 0 0 0 (replicate 1536 0))) 0 0 0.

(** A PCB zeroed by [pcb_alloc], with the state, the pid and the uid it gets. *)
Definition pcb (p u : Z) (st : ProcState) : Process :=
  mkProc (mkSched p st u 0 false) casella0 (mkFila None None 0) nessun_posto.

Definition ipc_boot (n : nat) : Mondo :=
  mkMondo (fun _ => pcb 0 0 PROC_UNUSED) n (replicate IPC_NOMI_MAX (mkNome 0 (replicate IPC_NAME_LEN 0))) 0.

Definition invio_abs (s : Mondo) (self : nat) (inv : Invio) : Abs :=
  mkAbs (pid_of s self) (i_tipo inv) (i_len inv) (payload inv).

Definition irq_abs (irq : Z) : Abs := mkAbs IPC_SENDER_KERNEL IPC_TYPE_IRQ_NOTIFY 4 (u32_bytes irq).

Inductive ipc_step : Mondo -> evento -> Mondo -> Prop :=
(** a turn of [ipc_send]; [dest] is the pointer it looked up before *)
| step_send s s' self dest inv e :
    state_of s self = PROC_RUNNING ->
    ipc_send_giro self dest inv s = Ok (e, s') ->
    ipc_step s (match e, dest with Rende 0, Some d => Consegna d (invio_abs s self inv) | _, _ => Altro end) s'
(** a turn of [ipc_recv_timeout]: the caller is not inside [ipc_send] *)
| step_recv s s' self bl scad svegl e r :
    state_of s self = PROC_RUNNING -> ipc_fila_su (po s self) = None ->
    ipc_recv_giro self bl scad svegl s = Ok (e, r, s') ->
    ipc_step s (match r with Some r => Preleva self bl r | None => Altro end) s'
(** an interrupt notification *)
| step_irq s s' dp irq r :
    ipc_notify_irq dp irq s = (r, s') ->
    ipc_step s (match proc_get_by_pid s dp with
                | Some d => if r =? 1 then Consegna d (irq_abs irq) else Altro
                | None => Altro end) s'
(** a process ends (proc_exit, proc_kill): [ipc_processo_finito], then zombie *)
| step_fine s s1 p :
    morto (state_of s p) = false -> ipc_processo_finito p s = Ok s1 ->
    ipc_step s Altro (upd p (su_sch (set_state PROC_ZOMBIE)) s1)
(** a zombie is collected (proc_reap_zombie): [ipc_cleanup_process], then free *)
| step_raccolta s s1 p :
    state_of s p = PROC_ZOMBIE -> ipc_cleanup_process (pid_of s p) s = Ok s1 ->
    ipc_step s (match chi s (pid_of s p) with Some i => Azzera i | None => Altro end)
      (upd p (su_sch (fun x => mkSched 0 PROC_UNUSED (uid x) (block_until x) (interrotto x))) s1)
(** a process is born in a free slot with a pid nobody has *)
| step_nascita s i p u :
    (i < g_proc_posti s)%nat -> state_of s i = PROC_UNUSED -> p <> 0 ->
    (forall j, state_of s j <> PROC_UNUSED -> pid_of s j <> p) ->
    ipc_step s (Azzera i) (upd i (fun _ => pcb p u PROC_NASCENTE) s)
(** the table of processes grows *)
| step_cresce s n :
    ipc_step s Altro (mkMondo (PROC_POSTO s) (g_proc_posti s + n) (g_nomi s) (g_ticks s))
(** the scheduler, a signal or a deadline moves a live process; only a process
    that is not in a line goes to sleep for a reason of its own *)
| step_stato s p x :
    morto (state_of s p) = false -> morto (state x) = false -> pid x = pid_of s p -> uid x = uid (sc s p) ->
    (state x = PROC_BLOCKED -> ipc_fila_su (po s p) = None) ->
    ipc_step s Altro (upd p (su_sch (fun _ => x)) s)
(** the clock *)
| step_tick s :
    ipc_step s Altro (mkMondo (PROC_POSTO s) (g_proc_posti s) (g_nomi s) (u32 (g_ticks s + 1)))
(** a process registers a name *)
| step_nome s s' self name r :
    state_of s self = PROC_RUNNING -> ipc_register (Some self) name s = (r, s') -> ipc_step s Altro s'.

Inductive ipc_reach : Mondo -> list evento -> Prop :=
| reach_boot n : ipc_reach (ipc_boot n) []
| reach_step s tr e s' : ipc_reach s tr -> ipc_step s e s' -> ipc_reach s' (tr ++ [e]).

(** ** The invariant of the whole *)

Record sistema (s : Mondo) (q : nat -> list Abs) : Prop := mkSis {
  si_ipc : exists L R, ipc_inv s L R;
  si_nomi : nomi_ok s;
  si_pid : forall i, state_of s i <> PROC_UNUSED -> pid_of s i <> 0;
  si_code : rappresenta q s
}.

Lemma morto_running s p : state_of s p = PROC_RUNNING -> morto (state_of s p) = false.
Proof. by intros ->. Qed.

(** Entries stay good when no control block in use disappears and no entry
    comes to life. *)
Lemma nomi_ok_mono s s' :
  g_nomi s' = g_nomi s -> nomi_ok s ->
  (forall i, npid (voce s i) <> 0 -> forall p, pid_of s p = npid (voce s i) -> state_of s p <> PROC_UNUSED ->
     exists p', pid_of s' p' = npid (voce s i) /\ state_of s' p' <> PROC_UNUSED) ->
  (forall i, voce_viva s' (voce s i) = true -> voce_viva s (voce s i) = true) ->
  nomi_ok s'.
Proof.
  intros Hn [A B C D] H1 H2. assert (Hv : forall i, voce s' i = voce s i) by (intros i; unfold voce; by rewrite Hn).
  split; [by rewrite Hn|intros i; rewrite Hv; apply B| |].
  - intros i. rewrite Hv. intros Hi. destruct (C i Hi) as (p & Hp & Hu). by eapply H1.
  - intros i j. rewrite !Hv. intros Hi Hj. apply D; by apply H2.
Qed.

Lemma quadro_nomi s s' : quadro s s' -> pids_ok s -> pids_ok s' -> nomi_ok s -> nomi_ok s'.
Proof.
  intros [(_ & Hn & _) Hp Hu Hm] Hok Hok' H. eapply nomi_ok_mono; [done|done| |].
  - intros i _ p Hpi Hpu. exists p. by rewrite Hp, Hu.
  - intros i. rewrite !voce_viva_spec by done. intros (H0 & p & Hpi & Hpm). split; [done|].
    exists p. by rewrite <- Hp, <- Hm.
Qed.

Lemma quadro_pid s s' :
  quadro s s' -> (forall i, state_of s i <> PROC_UNUSED -> pid_of s i <> 0) ->
  forall i, state_of s' i <> PROC_UNUSED -> pid_of s' i <> 0.
Proof. intros Hq H i. rewrite (qu_pid _ _ Hq), (qu_unused _ _ Hq). apply H. Qed.

(** A step that keeps the frame: only the queues are left to check. *)
Lemma sistema_quadro s s' q q' L R :
  sistema s q -> ipc_inv s' L R -> quadro s s' -> rappresenta q' s' -> sistema s' q'.
Proof.
  intros [(L0 & R0 & A) B C D] H Hq Hr. split; [by exists L, R| |by eapply quadro_pid|done].
  eapply quadro_nomi; [done|apply A|apply H|done].
Qed.

Lemma rappresenta_stesse q s s' : rappresenta q s -> stesse_caselle s s' -> rappresenta q s'.
Proof. intros H Hc d. rewrite Hc. apply H. Qed.

(** A delivery, on the ring and on the queue. *)
Lemma rappresenta_deposita q s s' d mitt ty n b :
  rappresenta q s -> cas_ok (ca s d) -> ipc_count (ca s d) < IPC_MAILBOX_DEPTH ->
  (forall j, ca s' j = if decide (j = d) then deposita mitt ty n b (ca s d) else ca s j) ->
  coda_step q (Consegna d (mkAbs mitt ty n b)) (<[d := q d ++ [mkAbs mitt ty n b]]> q) /\
  rappresenta (<[d := q d ++ [mkAbs mitt ty n b]]> q) s'.
Proof.
  intros H Hok Hc Hca. split.
  - constructor. rewrite (Forall2_length _ _ _ (H d)). rewrite messaggi_length by done. lia.
  - intros j. rewrite Hca. destruct (decide (j = d)) as [->|Hne].
    + rewrite fn_lookup_insert. destruct (deposita_ok (ca s d) mitt ty n b Hok Hc) as (_ & -> & _).
      apply Forall2_app; [apply H|]. constructor; [|constructor]. repeat split. by exists (drop (length b) (data (slot (ca s d) (ipc_tail (ca s d))))).
    + rewrite fn_lookup_insert_ne by done. apply H.
Qed.

Lemma restituisce_conforme a m bl :
  conforme a m ->
  restituisce a bl (mkRic (sender_pid m) (tipo m) (len m) (take (Z.to_nat (Z.min bl (len m))) (data m))).
Proof. intros (H1 & H2 & H3 & x & H4). rewrite H1, H2, H3, H4. repeat split. by exists x. Qed.

(** ** Each step keeps the invariant and is a step of the queues *)

Definition simula (s : Mondo) (q : nat -> list Abs) (e : evento) (s' : Mondo) : Prop :=
  exists q', coda_step q e q' /\ sistema s' q'.

Lemma simula_send s q s' self dest inv e :
  sistema s q -> state_of s self = PROC_RUNNING -> ipc_send_giro self dest inv s = Ok (e, s') ->
  simula s q (match e, dest with Rende 0, Some d => Consegna d (invio_abs s self inv) | _, _ => Altro end) s'.
Proof.
  intros H Hrun E. destruct (si_ipc _ _ H) as (L & R & HI).
  destruct (send_spec s L R self dest inv HI (morto_running _ _ Hrun)) as (e' & s1 & L' & R' & E' & HI' & He & Hq).
  rewrite E in E'. apply Ok_inj in E' as [= <- <-].
  assert (Hcase : (exists d, dest = Some d /\ e = Rende 0 /\ ipc_count (ca s d) < IPC_MAILBOX_DEPTH /\
     forall j, ca s' j = if decide (j = d) then deposita (pid_of s self) (i_tipo inv) (i_len inv) (payload inv) (ca s d)
                         else ca s j) \/ (stesse_caselle s s' /\ e <> Rende 0)).
  { unfold esito_invio, fuori in He. destruct dest as [d|]; [|right; by destruct He as (-> & _ & ? & _)].
    destruct (morto (state_of s d)); [right; by destruct He as (-> & _ & ? & _)|].
    destruct (posto_per self d inv s) eqn:Hp.
    - left. exists d. destruct He as (-> & _ & Hca & _). apply (posto_per_spec _ _ _ _ _ _ HI) in Hp as [Hc _]. done.
    - right. destruct (senza inv); [by destruct He as (-> & ->)|].
      destruct (scadenza inv <=? g_ticks s); [by destruct He as (-> & _ & ? & _)|by destruct He as (-> & ? & _)]. }
  destruct Hcase as [(d & -> & -> & Hc & Hca)|[Hca Hne]].
  - destruct (rappresenta_deposita q s s' d _ _ _ _ (si_code _ _ H) (iv_cas _ _ _ _ HI d) Hc Hca) as [Hstep Hr].
    eexists. split; [exact Hstep|]. by eapply sistema_quadro.
  - exists q. split; [|eapply sistema_quadro; [done|done|done|]; by eapply rappresenta_stesse, Hca; apply H].
    destruct e as [[|r|r]|]; [done|constructor..].
Qed.

Lemma simula_recv s q s' self bl scad svegl e r :
  sistema s q -> state_of s self = PROC_RUNNING -> ipc_fila_su (po s self) = None ->
  ipc_recv_giro self bl scad svegl s = Ok (e, r, s') ->
  simula s q (match r with Some r => Preleva self bl r | None => Altro end) s'.
Proof.
  intros H Hrun Hsu E. destruct (si_ipc _ _ H) as (L & R & HI).
  destruct (recv_spec s L R self bl scad svegl HI (morto_running _ _ Hrun) Hsu)
    as (e' & r' & s1 & L' & R' & E' & HI' & He & Hq).
  rewrite E in E'. apply Ok_inj in E' as [= <- <- <-]. unfold esito_ricezione in He.
  destruct (svegl && interrotto (sc s self)).
  { destruct He as (-> & -> & ->). exists q. split; [constructor|done]. }
  destruct (messaggi (ca s self)) as [|m rest] eqn:Em.
  { destruct He as (-> & Hca & _). exists q. split; [constructor|].
    eapply sistema_quadro; [done|done|done|]. by eapply rappresenta_stesse, Hca; apply H. }
  destruct He as (-> & -> & Hm & Hca & _).
  pose proof (si_code _ _ H self) as Hself. rewrite Em in Hself. apply Forall2_cons_inv_r in Hself as (a & qr & Ha & Hr & Eq).
  exists (<[self := qr]> q). split.
  - econstructor; [exact Eq|]. by apply restituisce_conforme.
  - eapply sistema_quadro; [done|done|done|]. intros j. destruct (decide (j = self)) as [->|Hj].
    + by rewrite fn_lookup_insert, Hm.
    + rewrite fn_lookup_insert_ne, Hca by done. apply H.
Qed.

Lemma simula_irq s q s' dp irq r :
  sistema s q -> ipc_notify_irq dp irq s = (r, s') ->
  simula s q (match proc_get_by_pid s dp with
              | Some d => if r =? 1 then Consegna d (irq_abs irq) else Altro | None => Altro end) s'.
Proof.
  intros H E. destruct (si_ipc _ _ H) as (L & R & HI).
  destruct (notify_spec s L R dp irq HI) as (r' & s1 & E' & HI' & Hq & He). rewrite E in E'. injection E' as <- <-.
  destruct (proc_get_by_pid s dp) as [d|]; [|destruct He as [-> ->]; exists q; by split; [constructor|]].
  destruct (negb (morto (state_of s d)) && (ipc_count (ca s d) <? IPC_MAILBOX_DEPTH)) eqn:Ec.
  - apply andb_true_iff in Ec as [_ Hc%Z.ltb_lt]. destruct He as (-> & _ & Hca). cbn.
    destruct (rappresenta_deposita q s s' d _ _ _ _ (si_code _ _ H) (iv_cas _ _ _ _ HI d) Hc Hca) as [Hstep Hr].
    eexists. split; [exact Hstep|]. by eapply sistema_quadro.
  - destruct He as [-> ->]. exists q. by split; [constructor|].
Qed.

(** A process outside every line, with nobody in its own: its control block can
    be replaced, links excepted. *)
Lemma inv_isolato s L R p f :
  ipc_inv s L R -> L p = [] -> (forall d, p ∉ L d) ->
  posto (f (PROC_POSTO s p)) = nessun_posto -> fila (f (PROC_POSTO s p)) = mkFila None None 0 ->
  cas_ok (cas (f (PROC_POSTO s p))) -> pids_ok (upd p f s) -> ipc_inv (upd p f s) L R.
Proof.
  intros [A B C D E F G I] HL Hout Hpo Hfi Hca Hpid.
  pose proof (linee_fuori _ _ _ _ A Hout) as Hp0.
  assert (Hf0 : fi s p = mkFila None None 0).
  { rewrite (lk_fila _ _ _ _ (li_ok _ _ _ A p)). pose proof (lk_r _ _ _ _ (li_ok _ _ _ A p)) as Hr.
    rewrite HL in *. cbn in *. by replace (R p) with 0%nat by lia. }
  assert (Hj : forall j, PROC_POSTO (upd p f s) j = if decide (j = p) then f (PROC_POSTO s p) else PROC_POSTO s j).
  { intros j. unfold upd. cbn. by destruct (decide (j = p)) as [->|]. }
  assert (Hne : forall d w, w ∈ L d -> w <> p) by (intros d w Hw ->; by eapply Hout).
  assert (Hd : forall d, L d <> [] -> d <> p) by (by intros d Hd ->).
  split; [|done| |done| | | |].
  - eapply linee_ext; [| |exact A]; intros j; rewrite Hj; destruct (decide (j = p)) as [->|]; congruence.
  - intros d. rewrite Hj. by destruct (decide (d = p)) as [->|].
  - intros d w Hw. unfold state_of. rewrite Hj, decide_False by (by eapply Hne). by eapply E.
  - intros d Hnil. unfold state_of. rewrite Hj, decide_False by (by apply Hd). by apply F.
  - intros d k w _ Hk Hr. assert (Hw : w ∈ L d) by (by eapply list_elem_of_lookup_2).
    unfold state_of. rewrite Hj, (decide_False (P := w = p)) by (by eapply Hne).
    rewrite Hj, decide_False by (apply Hd; intros Hn; rewrite Hn in Hk; done). by apply (G d k w).
  - intros d _ Hr. assert (d <> p) by (apply Hd; intros Hn; rewrite Hn in Hr; cbn in Hr; lia).
    rewrite Hj, decide_False by done. by apply I.
Qed.

Lemma inv_dead s L R p : ipc_inv s L R -> morto (state_of s p) = true -> L p = [] /\ forall d, p ∉ L d.
Proof.
  intros H Hm. split.
  - destruct (L p) eqn:E; [done|]. assert (morto (state_of s p) = false) by (eapply iv_dest; [done|by rewrite E]). congruence.
  - intros d Hd. assert (morto (state_of s p) = false) by (by eapply iv_vivi). congruence.
Qed.

(** [fi] of a process with an empty line. *)
Lemma inv_fila_vuota P s L R p : ipc_inv_p P s L R -> L p = [] -> fi s p = mkFila None None 0.
Proof.
  intros H HL. pose proof (li_ok _ _ _ (iv_lin _ _ _ _ H) p) as [Hf Hr _ _]. rewrite HL in *. rewrite Hf. cbn in *.
  by replace (R p) with 0%nat by lia.
Qed.

Lemma simula_fine s q s1 p :
  sistema s q -> morto (state_of s p) = false -> ipc_processo_finito p s = Ok s1 ->
  simula s q Altro (upd p (su_sch (set_state PROC_ZOMBIE)) s1).
Proof.
  intros H Hm E. destruct (si_ipc _ _ H) as (L & R & HI).
  destruct (inv_finito s L R p HI) as (s1' & L1 & R1 & ws & E' & H1 & Hs & HL & Hpo & _).
  rewrite E in E'. apply Ok_inj in E' as <-. pose proof (quadro_svegliati _ _ _ Hs) as Hq.
  assert (HS : sistema s1 q).
  { eapply sistema_quadro; [done|done|done|]. eapply rappresenta_stesse; [apply H|apply Hs]. }
  set (s2 := upd p _ s1).
  assert (Hpid : forall j, pid_of s2 j = pid_of s1 j).
  { intros j. unfold pid_of, s2. ipcs. by destruct (decide (j = p)) as [->|]. }
  assert (Hst : forall j, state_of s2 j = if decide (j = p) then PROC_ZOMBIE else state_of s1 j).
  { intros j. unfold state_of, s2. ipcs. by destruct (decide (j = p)) as [->|]. }
  assert (Hm1 : morto (state_of s1 p) = false) by (by rewrite (qu_morto _ _ Hq)).
  assert (Hun : forall j, state_of s2 j = PROC_UNUSED <-> state_of s1 j = PROC_UNUSED).
  { intros j. rewrite Hst. destruct (decide (j = p)) as [->|]; [|done]. split; [done|]. intros E0. by rewrite E0 in Hm1. }
  assert (Hp2 : pids_ok s2) by (apply (pids_ok_ext s1); [done|done|done|apply H1]).
  assert (Hout : forall d, p ∉ L1 d).
  { intros d Hd. eapply linee_su in Hd; [|apply H1]. by rewrite Hpo in Hd. }
  exists q. split; [constructor|]. split.
  - exists L1, R1. apply inv_isolato; [done|done|done|done|by eapply inv_fila_vuota|apply H1|done].
  - eapply nomi_ok_mono; [|apply HS|..]; [done| |].
    + intros i _ p' Hp' Hu. exists p'. by rewrite Hpid, Hun.
    + intros i. rewrite !voce_viva_spec by (done || apply H1). intros (H0 & j & Hj & Hjm). split; [done|].
      exists j. rewrite Hpid in Hj. split; [done|]. rewrite Hst in Hjm. by destruct (decide (j = p)).
  - intros i. rewrite Hpid, Hun. apply HS.
  - eapply rappresenta_stesse; [apply HS|]. intros j. unfold s2. by ipcs.
Qed.

Lemma nomi_ok_raccolta s s' p :
  nomi_ok s -> pids_ok s -> pids_ok s' ->
  g_nomi s' = map (fun v => if npid v =? p then mkNome 0 (nome v) else v) (g_nomi s) -> p <> 0 ->
  (forall j, state_of s j <> PROC_UNUSED -> pid_of s j <> p -> pid_of s' j = pid_of s j /\ state_of s' j <> PROC_UNUSED) ->
  (forall j, morto (state_of s' j) = false -> pid_of s' j = pid_of s j /\ morto (state_of s j) = false) ->
  nomi_ok s'.
Proof.
  intros [A B C D] Hp Hp' Hn H0 H1 H2.
  assert (Hv : forall i, voce s' i = if npid (voce s i) =? p then mkNome 0 (nome (voce s i)) else voce s i).
  { intros i. unfold voce. rewrite Hn. set (f := fun v => _).
    replace voce0 with (f voce0) at 1 by (unfold f; cbn; destruct p; done). by rewrite map_nth. }
  assert (Hviva : forall i, voce_viva s' (voce s' i) = true -> voce_viva s (voce s i) = true /\ voce s' i = voce s i).
  { intros i. rewrite Hv. destruct (npid (voce s i) =? p); [done|]. rewrite !voce_viva_spec by done.
    intros (E0 & j & Hj & Hm). split; [|done]. split; [done|]. exists j. destruct (H2 j Hm) as [<- ?]. done. }
  split.
  - rewrite Hn. by rewrite length_map.
  - intros i Hi. rewrite Hv. destruct (npid (voce s i) =? p); by apply B.
  - intros i. rewrite Hv. destruct (Z.eqb_spec (npid (voce s i)) p) as [|Hne]; [done|]. intros Hz.
    destruct (C i Hz) as (j & Hj & Hu). destruct (H1 j Hu) as [E1 E2]; [by rewrite Hj|]. exists j. by rewrite E1.
  - intros i j Hi Hj. apply Hviva in Hi as [Hi ->]. apply Hviva in Hj as [Hj ->]. by apply D.
Qed.

Lemma simula_raccolta s q s1 p :
  sistema s q -> state_of s p = PROC_ZOMBIE -> ipc_cleanup_process (pid_of s p) s = Ok s1 ->
  simula s q (match chi s (pid_of s p) with Some i => Azzera i | None => Altro end)
    (upd p (su_sch (fun x => mkSched 0 PROC_UNUSED (uid x) (block_until x) (interrotto x))) s1).
Proof.
  intros H Hz E. destruct (si_ipc _ _ H) as (L & R & HI).
  destruct (cleanup_spec s L R (pid_of s p) HI) as (s1' & L1 & R1 & ws & E' & H1 & Hn & Ht & Hsc & Hca & HL1 & Hout1 & Hnomi).
  rewrite E in E'. apply Ok_inj in E' as <-.
  destruct (inv_dead s L R p HI) as [HLp Hout]; [by rewrite Hz|].
  assert (Hst1 : forall j, state_of s1 j = PROC_UNUSED <-> state_of s j = PROC_UNUSED).
  { intros j. unfold state_of. rewrite Hsc. destruct (decide (j ∈ ws)); [apply svegliato_unused|done]. }
  assert (Hpid1 : forall j, pid_of s1 j = pid_of s j).
  { intros j. unfold pid_of. rewrite Hsc. destruct (decide (j ∈ ws)); [apply svegliato_pid|done]. }
  assert (Hm1 : forall j, morto (state_of s1 j) = morto (state_of s j)).
  { intros j. unfold state_of. rewrite Hsc. destruct (decide (j ∈ ws)); [apply svegliato_morto|done]. }
  set (s2 := upd p _ s1).
  assert (Hpid2 : forall j, pid_of s2 j = if decide (j = p) then 0 else pid_of s j).
  { intros j. unfold pid_of, s2. ipcs. destruct (decide (j = p)) as [->|]; [done|apply Hpid1]. }
  assert (Hst2 : forall j, state_of s2 j = if decide (j = p) then PROC_UNUSED else state_of s1 j).
  { intros j. unfold state_of, s2. ipcs. by destruct (decide (j = p)) as [->|]. }
  assert (Hp1 : pids_ok s) by apply HI.
  assert (Hu : state_of s p <> PROC_UNUSED) by (by rewrite Hz).
  assert (Hp2 : pids_ok s2).
  { destruct Hp1 as [Hr Hun]. split.
    - intros i. rewrite Hst2. destruct (decide (i = p)); [done|]. rewrite Hst1. change (g_proc_posti s2) with (g_proc_posti s1).
      rewrite Hn. apply Hr.
    - intros i j. rewrite !Hst2, !Hpid2. destruct (decide (i = p)); [done|]. destruct (decide (j = p)); [done|].
      rewrite !Hst1. apply Hun. }
  assert (HL1p : L1 p = [] /\ forall d, p ∉ L1 d) by (apply (inv_dead s1 L1 R1); [done|]; by rewrite Hm1, Hz).
  destruct HL1p as [HL1p Hout1p].
  exists (match chi s (pid_of s p) with Some i => <[i := []]> q | None => q end). split.
  { destruct (chi s (pid_of s p)); constructor. }
  split.
  - exists L1, R1. apply inv_isolato; [done|done|done| |by eapply inv_fila_vuota|apply H1|done].
    by apply (linee_fuori s1 L1 R1); [apply H1|].
  - apply (nomi_ok_raccolta s s2 (pid_of s p)); [apply H|done|done|done|by apply (si_pid _ _ H)| |].
    + intros j Hju Hjp. rewrite Hpid2, Hst2. assert (j <> p) by congruence. rewrite !decide_False by done. by rewrite Hst1.
    + intros j. rewrite Hst2, Hpid2. destruct (decide (j = p)); [done|]. by rewrite Hm1.
  - intros i. rewrite Hst2, Hpid2. destruct (decide (i = p)); [done|]. rewrite Hst1. apply H.
  - intros d. replace (ca s2 d) with (ca s1 d) by (unfold s2; by ipcs). rewrite Hca.
    destruct (chi s (pid_of s p)) as [i|]; [|apply H]. destruct (decide (Some i = Some d)) as [[= ->]|Hne].
    + rewrite fn_lookup_insert. constructor.
    + rewrite fn_lookup_insert_ne by congruence. apply H.
Qed.

Lemma simula_nascita s q i p u :
  sistema s q -> (i < g_proc_posti s)%nat -> state_of s i = PROC_UNUSED -> p <> 0 ->
  (forall j, state_of s j <> PROC_UNUSED -> pid_of s j <> p) ->
  simula s q (Azzera i) (upd i (fun _ => pcb p u PROC_NASCENTE) s).
Proof.
  intros H Hi Hun Hp0 Hfresh. destruct (si_ipc _ _ H) as (L & R & HI).
  destruct (inv_dead s L R i HI) as [HL Hout]; [by rewrite Hun|]. set (s2 := upd i _ s).
  assert (Hj : forall j, PROC_POSTO s2 j = if decide (j = i) then pcb p u PROC_NASCENTE else PROC_POSTO s j) by done.
  assert (Hpid : forall j, pid_of s2 j = if decide (j = i) then p else pid_of s j).
  { intros j. unfold pid_of. rewrite Hj. by destruct (decide (j = i)). }
  assert (Hst : forall j, state_of s2 j = if decide (j = i) then PROC_NASCENTE else state_of s j).
  { intros j. unfold state_of. rewrite Hj. by destruct (decide (j = i)). }
  assert (Hp2 : pids_ok s2).
  { destruct (iv_pid _ _ _ _ HI) as [Hr Hu]. split.
    - intros j. rewrite Hst. destruct (decide (j = i)) as [->|]; [done|apply Hr].
    - intros j k. rewrite !Hst, !Hpid. destruct (decide (j = i)) as [->|]; destruct (decide (k = i)) as [->|]; [done|..].
      + intros _ Hk E. by destruct (Hfresh k Hk).
      + intros Hk _ E. by destruct (Hfresh j Hk).
      + apply Hu. }
  exists (<[i := []]> q). split; [constructor|]. split.
  - exists L, R. apply inv_isolato; [done|done|done|done|done|done|done].
  - eapply nomi_ok_mono; [|apply H|..]; [done| |].
    + intros k _ p' Hp' Hu. exists p'. assert (p' <> i) by congruence. by rewrite Hpid, Hst, !decide_False.
    + intros k. rewrite !voce_viva_spec by (done || apply HI). intros (H0 & j & Hjp & Hjm). split; [done|].
      rewrite Hpid in Hjp. rewrite Hst in Hjm. destruct (decide (j = i)) as [->|]; [|by exists j].
      destruct (nk_vivo _ (si_nomi _ _ H) k H0) as (p' & Hp' & Hu'). by destruct (Hfresh p' Hu'); rewrite Hp'.
  - intros j. rewrite Hst, Hpid. destruct (decide (j = i)); [done|]. apply H.
  - intros d. rewrite Hj. destruct (decide (d = i)) as [->|]; [rewrite fn_lookup_insert; constructor|].
    rewrite fn_lookup_insert_ne by done. apply H.
Qed.

(** Steps that leave the control blocks as they are. *)
Lemma sistema_stessi_pcb s s' q :
  sistema s q -> (forall j, PROC_POSTO s' j = PROC_POSTO s j) -> (g_proc_posti s <= g_proc_posti s')%nat ->
  nomi_ok s' -> sistema s' q.
Proof.
  intros [(L & R & [A B C D E F G I]) Hn Hp Hr] Hj Hle Hn'.
  assert (Hpid : pids_ok s').
  { destruct B as [Hrg Hu]. split.
    - intros i. unfold state_of. rewrite Hj. intros Hi. specialize (Hrg i Hi). lia.
    - intros i j. unfold state_of, pid_of. rewrite !Hj. apply Hu. }
  split.
  - exists L, R. split; [|done| |done| | | |].
    + eapply linee_ext; [| |exact A]; intros j; by rewrite Hj.
    + intros d. rewrite Hj. apply C.
    + intros d w Hw. unfold state_of. rewrite Hj. by eapply E.
    + intros d Hd. unfold state_of. rewrite Hj. by apply F.
    + intros d k w. unfold state_of. rewrite !Hj. by apply (G d k w).
    + intros d. rewrite Hj. apply I.
  - done.
  - intros i. unfold state_of, pid_of. rewrite Hj. apply Hp.
  - intros d. rewrite Hj. apply Hr.
Qed.

Lemma nomi_ok_stessi_pcb s s' :
  nomi_ok s -> g_nomi s' = g_nomi s -> (forall j, PROC_POSTO s' j = PROC_POSTO s j) -> pids_ok s -> pids_ok s' -> nomi_ok s'.
Proof.
  intros H Hn Hj Hp Hp'. eapply nomi_ok_mono; [done|done| |].
  - intros i _ p. exists p. unfold pid_of, state_of in *. by rewrite !Hj.
  - intros i. rewrite !voce_viva_spec by done. intros (H0 & p & Hpi & Hm). split; [done|]. exists p.
    unfold pid_of, state_of in *. by rewrite !Hj in *.
Qed.

Lemma pids_ok_stessi_pcb s s' :
  pids_ok s -> (forall j, PROC_POSTO s' j = PROC_POSTO s j) -> (g_proc_posti s <= g_proc_posti s')%nat -> pids_ok s'.
Proof.
  intros [Hr Hu] Hj Hle. split.
  - intros i. unfold state_of. rewrite Hj. intros Hi. specialize (Hr i Hi). lia.
  - intros i j. unfold state_of, pid_of. rewrite !Hj. apply Hu.
Qed.

Lemma simula_stesso s q s' :
  sistema s q -> g_nomi s' = g_nomi s -> (forall j, PROC_POSTO s' j = PROC_POSTO s j) ->
  (g_proc_posti s <= g_proc_posti s')%nat -> simula s q Altro s'.
Proof.
  intros H Hn Hj Hle. destruct (si_ipc _ _ H) as (L & R & HI). exists q. split; [constructor|].
  apply (sistema_stessi_pcb s); [done|done|done|].
  apply (nomi_ok_stessi_pcb s); [apply H|done|done|apply HI|]. apply (pids_ok_stessi_pcb s); [apply HI|done|done].
Qed.

Lemma simula_stato s q p x :
  sistema s q -> morto (state_of s p) = false -> morto (state x) = false -> pid x = pid_of s p ->
  (state x = PROC_BLOCKED -> ipc_fila_su (po s p) = None) -> simula s q Altro (upd p (su_sch (fun _ => x)) s).
Proof.
  intros H Hm Hx Hpid Hb. destruct (si_ipc _ _ H) as (L & R & HI). exists q. split; [constructor|].
  eapply sistema_quadro; [done| | |].
  - apply (inv_sched _ s L R p); [done|done| |done|].
    + split; intros E; exfalso; [by rewrite E in Hx|unfold state_of in Hm; by rewrite E in Hm].
    + intros d k Hk _ Hbl. apply Hb in Hbl. eapply list_elem_of_lookup_2, linee_su in Hk; [|apply HI]. congruence.
  - by apply quadro_sched.
  - eapply rappresenta_stesse; [apply H|]. intros j. by ipcs.
Qed.

Lemma simula_nome s q s' self name r :
  sistema s q -> state_of s self = PROC_RUNNING -> ipc_register (Some self) name s = (r, s') ->
  simula s q Altro s'.
Proof.
  intros H Hrun E. destruct (si_ipc _ _ H) as (L & R & HI).
  assert (Hsame : s' = s \/ (r = 0 /\ exists l, s' = con_nomi l s)).
  { destruct name as [name|]; [|cbn in E; injection E as <- <-; by left]. rewrite register_eq in E.
    destruct (negb (nome_valido name)); [injection E as <- <-; by left|].
    destruct (cerca_nome s name); [injection E as <- <-; by left|].
    destruct (negb (permesso (Some self) name s)); [injection E as <- <-; by left|].
    destruct (voce_libera s); injection E as <- <-; [right|by left]. split; [done|]. by eexists. }
  destruct Hsame as [->|[-> [l El]]]; [exists q; by split; [constructor|]|].
  destruct name as [name|]; [|cbn in E; discriminate E].
  destruct (register_ok s self name s') as [Hn _];
    [apply HI|apply H|by apply morto_running|apply H; by rewrite Hrun|done|].
  exists q. split; [constructor|]. apply (sistema_stessi_pcb s); [done| |by rewrite El|done].
  intros j. by rewrite El.
Qed.

Lemma sistema_step s q e s' : sistema s q -> ipc_step s e s' -> simula s q e s'.
Proof.
  intros H Hs. destruct Hs.
  - by eapply simula_send.
  - by eapply simula_recv.
  - by eapply simula_irq.
  - by apply simula_fine.
  - by apply simula_raccolta.
  - by apply simula_nascita.
  - apply simula_stesso; [done|done|done|cbn; lia].
  - by apply simula_stato.
  - by apply simula_stesso.
  - by eapply simula_nome.
Qed.

Lemma voce_boot n i : npid (voce (ipc_boot n) i) = 0.
Proof.
  unfold voce, ipc_boot. cbn [g_nomi]. rewrite nth_lookup. destruct (replicate _ _ !! i) as [v|] eqn:E; [|done].
  by apply lookup_replicate in E as [-> _].
Qed.

Lemma sistema_boot n : sistema (ipc_boot n) (fun _ => []).
Proof.
  split.
  - exists (fun _ => []), (fun _ => 0%nat). split.
    + split; [|by intros w d [=]|done]. intros d. by split; [|cbn; lia|constructor|].
    + by split.
    + by intros d.
    + intros d. lia.
    + by intros d w ?%not_elem_of_nil.
    + by intros d.
    + by intros d k w _.
    + intros d _. cbn. lia.
  - split.
    + apply length_replicate.
    + intros i Hi. unfold voce, ipc_boot. cbn [g_nomi]. by rewrite nth_lookup, lookup_replicate_2.
    + intros i Hi. by rewrite voce_boot in Hi.
    + intros i j Hi. unfold voce_viva in Hi. by rewrite voce_boot in Hi.
  - done.
  - intros d. constructor.
Qed.

(** Every reachable state satisfies the invariant, and its trace is a run of the
    queues. *)
Lemma reach_sistema s tr : ipc_reach s tr -> exists q, coda_run tr q /\ sistema s q.
Proof.
  induction 1 as [n|s tr e s' _ (q & Hq & IH) Hs].
  - exists (fun _ => []). split; [constructor|apply sistema_boot].
  - destruct (sistema_step _ _ _ _ IH Hs) as (q' & Hq' & H'). exists q'. split; [by econstructor|done].
Qed.
