(* ===== verification/IpcThms.v ===== *)
(** * Messages and names: the properties

    A concrete machine with a full mailbox and a sender asleep in the line
    ([piena]) witnesses the hypotheses. *)

From stdpp Require Import functions.
From S2P Require Import Prelude Ipc IpcSpec IpcInv IpcSys IpcNomi IpcMacchina.

(** ** A concrete machine: two processes, a full mailbox *)

Definition dopo_send (self : nat) (dest : option nat) (inv : Invio) (s : Mondo) : Mondo :=
  match ipc_send_giro self dest inv s with Ok (_, s') => s' | _ => s end.

Definition rende_di (r : run (esito * Mondo)) : option esito :=
  match r with Ok (e, _) => Some e | _ => None end.

Lemma dopo_send_eq self dest inv s e :
  rende_di (ipc_send_giro self dest inv s) = Some e -> ipc_send_giro self dest inv s = Ok (e, dopo_send self dest inv s).
Proof. unfold dopo_send. destruct (ipc_send_giro self dest inv s) as [[e' s']| |]; cbn; congruence. Qed.

Definition due_processi : Mondo :=
  upd 1 (su_sch (fun _ => mkSched 2 PROC_RUNNING 1000 0 false))
    (upd 0 (su_sch (fun _ => mkSched 1 PROC_RUNNING 0 0 false))
      (upd 1 (fun _ => pcb 2 1000 PROC_NASCENTE) (upd 0 (fun _ => pcb 1 0 PROC_NASCENTE) (ipc_boot 8)))).

Definition un_invio : Invio := mkInvio 1 false 7 2 (Some [65; 66]) 1000.

Definition manda (s : Mondo) : Mondo := dopo_send 1 (Some 0%nat) un_invio s.

Definition piena : Mondo := manda (manda (manda (manda (manda due_processi)))).

Lemma due_processi_reach : exists tr, ipc_reach due_processi tr.
Proof.
  eexists. unfold due_processi.
  eapply reach_step; [|by apply step_stato]. eapply reach_step; [|by apply step_stato].
  eapply reach_step.
  2:{ apply step_nascita; [by apply Nat.ltb_lt|done|done|]. intros [|j]; [done|]. by intros []. }
  eapply reach_step; [apply (reach_boot 8)|].
  apply step_nascita; [by apply Nat.ltb_lt|done|done|]. by intros j.
Qed.

Lemma manda_reach s tr e :
  ipc_reach s tr -> state_of s 1 = PROC_RUNNING -> rende_di (ipc_send_giro 1 (Some 0%nat) un_invio s) = Some e ->
  exists tr', ipc_reach (manda s) tr'.
Proof.
  intros H Hr He. eexists. eapply reach_step; [exact H|]. eapply (step_send _ _ 1 (Some 0%nat)); [done|].
  by apply dopo_send_eq.
Qed.

(** Four messages delivered, the fifth sender asleep. *)
Lemma piena_reach : exists tr, ipc_reach piena tr.
Proof.
  destruct due_processi_reach as [t0 H0].
  destruct (manda_reach _ _ (Rende 0) H0) as [t1 H1]; [vm_compute; reflexivity|vm_compute; reflexivity|].
  destruct (manda_reach _ _ (Rende 0) H1) as [t2 H2]; [vm_compute; reflexivity|vm_compute; reflexivity|].
  destruct (manda_reach _ _ (Rende 0) H2) as [t3 H3]; [vm_compute; reflexivity|vm_compute; reflexivity|].
  destruct (manda_reach _ _ (Rende 0) H3) as [t4 H4]; [vm_compute; reflexivity|vm_compute; reflexivity|].
  destruct (manda_reach _ _ Dorme H4) as [t5 H5]; [vm_compute; reflexivity|vm_compute; reflexivity|].
  by exists t5.
Qed.

Lemma piena_line : ipc_fila_testa (fi piena 0) = Some 1%nat /\ state_of piena 1 = PROC_BLOCKED.
Proof. split; vm_compute; reflexivity. Qed.

(** ** The line in front of a full mailbox *)

(** in every state the kernel can reach, whatever the interleaving of
    senders, receivers, interrupts, births and deaths, the control blocks hold a
    doubly linked line per mailbox whose promised members are exactly the first
    [ipc_riservati]; a mailbox holds at most [IPC_MAILBOX_DEPTH] messages and
    promises; only live processes wait, and only for live ones; a promised
    sender that sleeps sleeps in front of a full mailbox. *)
Theorem ipc_lines_well_formed s tr :
  ipc_reach s tr ->
  exists L R, linee s L R /\ forall d,
    (Z.of_nat (R d) <= IPC_MAILBOX_DEPTH) /\ 0 <= ipc_count (ca s d) <= IPC_MAILBOX_DEPTH /\
    (L d <> [] -> morto (state_of s d) = false) /\
    forall k w, L d !! k = Some w ->
      morto (state_of s w) = false /\
      ((k < R d)%nat -> state_of s w = PROC_BLOCKED -> ipc_count (ca s d) = IPC_MAILBOX_DEPTH).
Proof.
  intros (q & _ & [(L & R & H) _ _ _])%reach_sistema. exists L, R. split; [apply H|]. intros d.
  pose proof (iv_r4 _ _ _ _ H d). pose proof (ck_count _ (iv_cas _ _ _ _ H d)). unfold IPC_MAILBOX_DEPTH in *.
  split; [lia|]. split; [done|]. split; [apply (iv_dest _ _ _ _ H)|]. intros k w Hk.
  split; [eapply (iv_vivi _ _ _ _ H), list_elem_of_lookup_2, Hk|]. intros Hr Hb. by eapply (iv_sveglio _ _ _ _ H).
Qed.

Lemma ipc_lines_well_formed_witness :
  exists tr, ipc_reach piena tr /\ exists L R, linee piena L R /\ forall d,
    (Z.of_nat (R d) <= IPC_MAILBOX_DEPTH) /\ 0 <= ipc_count (ca piena d) <= IPC_MAILBOX_DEPTH /\
    (L d <> [] -> morto (state_of piena d) = false) /\
    forall k w, L d !! k = Some w ->
      morto (state_of piena w) = false /\
      ((k < R d)%nat -> state_of piena w = PROC_BLOCKED -> ipc_count (ca piena d) = IPC_MAILBOX_DEPTH).
Proof. destruct piena_reach as [tr H]. exists tr. split; [exact H|]. exact (ipc_lines_well_formed piena tr H). Defined.

(** C20: no starvation: the oldest sender of a line is alive, waits for a live
    process, and either there is a message the receiver still has to take (which
    makes room) or that sender already holds a promise and is awake. *)
Theorem ipc_no_starvation s tr d :
  ipc_reach s tr ->
  match ipc_fila_testa (fi s d) with
  | None => True
  | Some w =>
      ipc_fila_su (po s w) = Some d /\ morto (state_of s w) = false /\ morto (state_of s d) = false /\
      (0 < ipc_count (ca s d) \/ ipc_fila_concesso (po s w) = true /\ state_of s w <> PROC_BLOCKED)
  end.
Proof.
  intros (q & _ & [(L & R & H) _ _ _])%reach_sistema.
  destruct (li_ok _ _ _ (iv_lin _ _ _ _ H) d) as [Hf Hr Hn Hp]. rewrite Hf. cbn [ipc_fila_testa].
  destruct (L d) as [|w l] eqn:El; cbn [head]; [done|].
  assert (H0 : L d !! 0%nat = Some w) by (by rewrite El).
  rewrite (Hp 0%nat w eq_refl). cbn [ipc_fila_su ipc_fila_concesso].
  split; [done|]. split; [eapply (iv_vivi _ _ _ _ H), list_elem_of_lookup_2, H0|].
  split; [apply (iv_dest _ _ _ _ H); by rewrite El|].
  pose proof (ck_count _ (iv_cas _ _ _ _ H d)) as Hc.
  destruct (Z.lt_ge_cases 0 (ipc_count (ca s d))) as [|Hz]; [by left|right].
  assert (Hpos : (0 < R d)%nat).
  { destruct (decide (R d < length (L d))%nat) as [Hlt|Hge].
    - pose proof (iv_fame _ _ _ _ H d I Hlt). lia.
    - rewrite El in Hge. cbn in Hge. lia. }
  split; [by apply bool_decide_eq_true_2|]. intros Hb.
  pose proof (iv_sveglio _ _ _ _ H d 0 w I H0 Hpos Hb). unfold IPC_MAILBOX_DEPTH in *. lia.
Qed.

Lemma ipc_no_starvation_witness :
  exists tr, ipc_reach piena tr /\ ipc_fila_testa (fi piena 0) = Some 1%nat /\
  match ipc_fila_testa (fi piena 0) with
  | None => True
  | Some w =>
      ipc_fila_su (po piena w) = Some 0%nat /\ morto (state_of piena w) = false /\ morto (state_of piena 0) = false /\
      (0 < ipc_count (ca piena 0) \/ ipc_fila_concesso (po piena w) = true /\ state_of piena w <> PROC_BLOCKED)
  end.
Proof.
  destruct piena_reach as [tr H]. exists tr. split; [exact H|]. split; [apply piena_line|].
  exact (ipc_no_starvation piena tr 0 H).
Defined.

(** C19: the mailboxes refine bounded queues: the trace of any run of the kernel
    is a run of the abstract queues, in which a delivery appends to a queue of
    less than [IPC_MAILBOX_DEPTH] messages and a reception returns the oldest
    one (sender, type, length, bytes cut at the buffer), and the ring of each
    process holds its queue. *)
Theorem ipc_mailbox_fifo s tr :
  ipc_reach s tr -> exists q, coda_run tr q /\ forall d, Forall2 conforme (q d) (messaggi (ca s d)).
Proof. intros (q & Hq & H)%reach_sistema. exists q. split; [done|apply H]. Qed.

Lemma ipc_mailbox_fifo_witness :
  exists tr, ipc_reach piena tr /\ length (messaggi (ca piena 0)) = 4%nat /\
    exists q, coda_run tr q /\ forall d, Forall2 conforme (q d) (messaggi (ca piena d)).
Proof.
  destruct piena_reach as [tr H]. exists tr. split; [exact H|]. split; [vm_compute; reflexivity|].
  exact (ipc_mailbox_fifo piena tr H).
Defined.

(** one turn of [ipc_send] by a live process always ends and, branch by
    branch: the destination missing or dead gives ESRCH, the caller out of any
    line; with a slot it may take (any free one without waiting, a promised one
    in line, an unpromised one when nobody waits) the message is appended and
    the receiver is awake; without waiting a refusal is EBUSY and changes
    nothing; past the deadline EBUSY, out of the line; otherwise the caller
    sleeps, at the end of the line unless it was in it already. *)
Theorem ipc_send_branches s tr self dest inv :
  ipc_reach s tr -> state_of s self = PROC_RUNNING ->
  exists L R e s' L' R', ipc_inv s L R /\ ipc_inv s' L' R' /\
    ipc_send_giro self dest inv s = Ok (e, s') /\ esito_invio self dest inv s L e s' L' /\
    forall d, posto_per self d inv s = true <->
      ipc_count (ca s d) < IPC_MAILBOX_DEPTH /\
      (senza inv = true \/ (exists k, L d !! k = Some self /\ (k < R d)%nat) \/ (self ∉ L d) /\ L d = []).
Proof.
  intros (q & _ & [(L & R & H) _ _ _])%reach_sistema Hrun.
  destruct (send_spec s L R self dest inv H (morto_running _ _ Hrun)) as (e & s' & L' & R' & E & H' & He & _).
  exists L, R, e, s', L', R'. split; [done|]. split; [done|]. split; [done|]. split; [done|].
  intros d. by apply posto_per_spec.
Qed.

Lemma ipc_send_branches_witness :
  exists tr, ipc_reach due_processi tr /\ state_of due_processi 1 = PROC_RUNNING /\
  exists L R e s' L' R', ipc_inv due_processi L R /\ ipc_inv s' L' R' /\
    ipc_send_giro 1 (Some 0%nat) un_invio due_processi = Ok (e, s') /\
    esito_invio 1 (Some 0%nat) un_invio due_processi L e s' L' /\
    forall d, posto_per 1 d un_invio due_processi = true <->
      ipc_count (ca due_processi d) < IPC_MAILBOX_DEPTH /\
      (senza un_invio = true \/ (exists k, L d !! k = Some 1%nat /\ (k < R d)%nat) \/ (1%nat ∉ L d) /\ L d = []).
Proof.
  destruct due_processi_reach as [tr H]. exists tr. split; [exact H|]. split; [reflexivity|].
  exact (ipc_send_branches due_processi tr 1 (Some 0%nat) un_invio H eq_refl).
Defined.

(** one turn of [ipc_recv_timeout] always ends: EINTR for a caller
    interrupted while asleep; the oldest message if there is one, after which
    the freed slots are promised to the oldest of the line and every promised
    sender is awake; ETIMEDOUT past the deadline; otherwise the caller sleeps
    until the deadline. *)
Theorem ipc_recv_branches s tr self buf_len scad svegl :
  ipc_reach s tr -> state_of s self = PROC_RUNNING -> ipc_fila_su (po s self) = None ->
  exists L R e r s' L' R', ipc_inv s L R /\ ipc_inv s' L' R' /\
    ipc_recv_giro self buf_len scad svegl s = Ok (e, r, s') /\
    esito_ricezione self buf_len scad svegl s L R e r s' L' R'.
Proof.
  intros (q & _ & [(L & R & H) _ _ _])%reach_sistema Hrun Hsu.
  destruct (recv_spec s L R self buf_len scad svegl H (morto_running _ _ Hrun) Hsu)
    as (e & r & s' & L' & R' & E & H' & He & _).
  by exists L, R, e, r, s', L', R'.
Qed.

Lemma ipc_recv_branches_witness :
  exists tr, ipc_reach piena tr /\ state_of piena 0 = PROC_RUNNING /\
  exists L R e r s' L' R', ipc_inv piena L R /\ ipc_inv s' L' R' /\
    ipc_recv_giro 0 1 0 false piena = Ok (e, r, s') /\ esito_ricezione 0 1 0 false piena L R e r s' L' R'.
Proof.
  destruct piena_reach as [tr H]. exists tr. split; [exact H|]. split; [vm_compute; reflexivity|].
  apply (ipc_recv_branches piena tr 0 1 0 false H); vm_compute; reflexivity.
Defined.

(** C38: [ipc_processo_finito] always ends; it leaves the process outside every
    line and nobody in its own: whoever waited there is awake and in no line;
    the promise the process held in another line goes to the next ones, who are
    woken; the other lines and all mailboxes are untouched. *)
Theorem ipc_processo_finito_correct s tr p :
  ipc_reach s tr ->
  exists L R s' L' R', linee s L R /\ linee s' L' R' /\ ipc_processo_finito p s = Ok s' /\
    ipc_fila_testa (fi s' p) = None /\ po s' p = nessun_posto /\ stesse_caselle s s' /\
    (forall w, w ∈ L p -> w <> p -> state_of s' w <> PROC_BLOCKED /\ po s' w = nessun_posto) /\
    (forall d, d <> p -> ipc_fila_su (po s p) <> Some d -> L' d = L d /\ R' d = R d) /\
    (forall d, d <> p -> ipc_fila_su (po s p) = Some d ->
       exists i, L d !! i = Some p /\ L' d = delete i (L d) /\
         R' d = promessi (ipc_count (ca s d)) (tolto i (R d)) (length (L' d)) /\
         forall w, w ∈ take (R' d) (L' d) -> state_of s' w <> PROC_BLOCKED).
Proof.
  intros (q & _ & [(L & R & H) _ _ _])%reach_sistema.
  destruct (inv_finito s L R p H) as (s' & L' & R' & ws & E & H' & Hs & HL & Hpo & Hw & _ & Hsame & Hother).
  assert (Hwake : forall w, w ∈ ws -> state_of s' w <> PROC_BLOCKED).
  { intros w Hin Hb. by destruct (svegliati_blocked _ _ _ _ Hs Hb). }
  exists L, R, s', L', R'. split; [apply H|]. split; [apply H'|]. split; [done|].
  split; [by rewrite (inv_fila_vuota _ _ _ _ _ H' HL)|]. split; [done|]. split; [apply Hs|].
  split; [|split; [done|]].
  - intros w Hin Hne. destruct (Hw w Hin Hne). auto.
  - intros d Hd Hsu. destruct (Hother d Hd Hsu) as (i & H1 & H2 & H3 & H4). exists i. eauto 6.
Qed.

Lemma ipc_processo_finito_correct_witness :
  exists tr, ipc_reach piena tr /\ exists L R s' L' R', linee piena L R /\ linee s' L' R' /\
    ipc_processo_finito 0 piena = Ok s' /\
    ipc_fila_testa (fi s' 0) = None /\ po s' 0 = nessun_posto /\ stesse_caselle piena s' /\
    (forall w, w ∈ L 0%nat -> w <> 0%nat -> state_of s' w <> PROC_BLOCKED /\ po s' w = nessun_posto) /\
    (forall d, d <> 0%nat -> ipc_fila_su (po piena 0) <> Some d -> L' d = L d /\ R' d = R d) /\
    (forall d, d <> 0%nat -> ipc_fila_su (po piena 0) = Some d ->
       exists i, L d !! i = Some 0%nat /\ L' d = delete i (L d) /\
         R' d = promessi (ipc_count (ca piena d)) (tolto i (R d)) (length (L' d)) /\
         forall w, w ∈ take (R' d) (L' d) -> state_of s' w <> PROC_BLOCKED).
Proof.
  destruct piena_reach as [tr H]. exists tr. split; [exact H|]. exact (ipc_processo_finito_correct piena tr 0 H).
Defined.

(** ** The registry of names *)

Lemma lookup_eq name s :
  car name 0 <> 0 ->
  ipc_lookup (Some name) s = match cerca_nome s name with Some i => s32 (npid (voce s i)) | None => - ENOENT end.
Proof. intros H. unfold ipc_lookup. by rewrite (proj2 (Z.eqb_neq _ _) H). Qed.

(** in every reachable state a name belongs to at most one live process,
    and [ipc_lookup] returns the pid of that process, or ENOENT when there is
    none: a dead owner is never returned. *)
Theorem ipc_lookup_correct s tr name :
  ipc_reach s tr -> car name 0 <> 0 ->
  (forall i j, voce_viva s (voce s i) = true -> voce_viva s (voce s j) = true ->
     cstr (nome (voce s i)) = cstr (nome (voce s j)) -> i = j) /\
  (forall i, voce_viva s (voce s i) = true -> cstr (nome (voce s i)) = cstr name ->
     ipc_lookup (Some name) s = s32 (npid (voce s i)) /\
     exists p, pid_of s p = npid (voce s i) /\ morto (state_of s p) = false) /\
  ((forall i, voce_viva s (voce s i) = true -> cstr (nome (voce s i)) <> cstr name) ->
     ipc_lookup (Some name) s = - ENOENT).
Proof.
  intros (q & _ & [(L & R & HI) H _ _])%reach_sistema Hne. rewrite lookup_eq by done. split; [apply H|]. split.
  - intros i Hv Hn. rewrite (proj2 (cerca_nome_spec s name i H)) by done. split; [done|].
    by apply voce_viva_spec in Hv as [_ ?]; [|apply HI].
  - intros Hnone. destruct (cerca_nome s name) as [i|] eqn:E; [|done].
    apply cerca_nome_spec in E as [Hv Hn]; [|done]. by destruct (Hnone i Hv).
Qed.

Definition con_nome : Mondo := (ipc_register (Some 0%nat) (Some [116; 116; 121]) due_processi).2.

Lemma con_nome_reach : exists tr, ipc_reach con_nome tr.
Proof.
  destruct due_processi_reach as [tr H]. eexists. eapply reach_step; [exact H|].
  eapply (step_nome _ _ 0 (Some [116; 116; 121])); [done|]. apply surjective_pairing.
Qed.

Lemma ipc_lookup_correct_witness :
  exists tr, ipc_reach con_nome tr /\ ipc_lookup (Some [116; 116; 121]) con_nome = 1 /\
  (forall i j, voce_viva con_nome (voce con_nome i) = true -> voce_viva con_nome (voce con_nome j) = true ->
     cstr (nome (voce con_nome i)) = cstr (nome (voce con_nome j)) -> i = j) /\
  (forall i, voce_viva con_nome (voce con_nome i) = true -> cstr (nome (voce con_nome i)) = cstr [116; 116; 121] ->
     ipc_lookup (Some [116; 116; 121]) con_nome = s32 (npid (voce con_nome i)) /\
     exists p, pid_of con_nome p = npid (voce con_nome i) /\ morto (state_of con_nome p) = false) /\
  ((forall i, voce_viva con_nome (voce con_nome i) = true -> cstr (nome (voce con_nome i)) <> cstr [116; 116; 121]) ->
     ipc_lookup (Some [116; 116; 121]) con_nome = - ENOENT).
Proof.
  destruct con_nome_reach as [tr H]. exists tr. split; [exact H|]. split; [vm_compute; reflexivity|].
  exact (ipc_lookup_correct con_nome tr [116; 116; 121] H ltac:(discriminate)).
Defined.

(** The lookup of a name after an entry that was not live has been rewritten
    with another name. *)
Lemma lookup_altro s s' p name name' :
  pids_ok s -> nomi_ok s -> morto (state_of s p) = false -> pid_of s p <> 0 ->
  ipc_register (Some p) (Some name) s = (0, s') -> car name' 0 <> 0 -> cstr name' <> cstr name ->
  ipc_lookup (Some name') s' = ipc_lookup (Some name') s.
Proof.
  intros Hp H Hm Hpid E Hne Hdiff. destruct (register_ok s p name s' Hp H Hm Hpid E) as [H' _].
  rewrite register_eq in E. destruct (negb (nome_valido name)); [done|]. destruct (cerca_nome s name); [done|].
  destruct (negb (permesso (Some p) name s)); [done|]. destruct (voce_libera s) as [i|] eqn:Ei; [|done].
  injection E as <-. apply primo_some in Ei as (Hi & Hfree & _). apply negb_true_iff in Hfree.
  set (v := mkNome _ _) in *. set (s' := con_nomi _ s) in *.
  assert (Hv : forall j, voce s' j = if decide (j = i) then v else voce s j).
  { intros j. apply voce_con_nomi. rewrite (nk_len _ H). lia. }
  assert (Hcv : cstr (nome v) = cstr name) by (apply cstr_scritto, (nk_nome _ H); lia).
  assert (Hlook : forall j, cerca_nome s' name' = Some j <-> cerca_nome s name' = Some j).
  { intros j. rewrite !cerca_nome_spec by done. change (voce_viva s') with (voce_viva s). rewrite Hv.
    destruct (decide (j = i)) as [->|]; [|done]. split; intros [A B]; congruence. }
  rewrite !lookup_eq by done.
  destruct (cerca_nome s name') as [j|] eqn:E; destruct (cerca_nome s' name') as [k|] eqn:E'; try done.
  - pose proof (proj1 (Hlook k) eq_refl) as [= ->]. rewrite Hv. destruct (decide (k = i)) as [->|]; [|done].
    apply cerca_nome_spec in E as [A _]; [|done]. congruence.
  - pose proof (proj2 (Hlook j) eq_refl). congruence.
  - pose proof (proj1 (Hlook k) eq_refl). congruence.
Qed.

(** [ipc_register] refuses an empty or overlong name (EINVAL), a name a live
    process has (EEXIST), a name without the caller's uid as a prefix unless the
    caller is root (EPERM), and a new name when every entry is live (ENOSPC),
    changing nothing; otherwise it returns 0, [ipc_lookup] of that name returns
    the caller's pid, and the lookup of every other name is as before. *)
Theorem ipc_register_correct s tr self name r s' :
  ipc_reach s tr -> state_of s self = PROC_RUNNING ->
  ipc_register (Some self) (Some name) s = (r, s') ->
  let libero := forall i, voce_viva s (voce s i) = true -> cstr (nome (voce s i)) <> cstr name in
  let pieno := forall i, (i < IPC_NOMI_MAX)%nat -> voce_viva s (voce s i) = true in
  (nome_valido name = false -> r = - EINVAL /\ s' = s) /\
  (nome_valido name = true -> ~ libero -> r = - EEXIST /\ s' = s) /\
  (nome_valido name = true -> libero -> permesso (Some self) name s = false -> r = - EPERM /\ s' = s) /\
  (nome_valido name = true -> libero -> permesso (Some self) name s = true -> pieno -> r = - ENOSPC /\ s' = s) /\
  (nome_valido name = true -> libero -> permesso (Some self) name s = true -> ~ pieno ->
     r = 0 /\ ipc_lookup (Some name) s' = s32 (pid_of s self) /\
     forall name', car name' 0 <> 0 -> cstr name' <> cstr name ->
       ipc_lookup (Some name') s' = ipc_lookup (Some name') s).
Proof.
  intros (q & _ & [(L & R & HI) H Hpid _])%reach_sistema Hrun E libero pieno. pose proof (iv_pid _ _ _ _ HI) as Hp.
  pose proof E as E0. rewrite register_eq in E0.
  assert (Hlib : libero <-> cerca_nome s name = None).
  { split; [|by intros Hc i; apply cerca_nome_none]. intros Hl. destruct (cerca_nome s name) as [i|] eqn:Ei; [|done].
    apply cerca_nome_spec in Ei as [Hv Hn]; [|done]. by destruct (Hl i Hv). }
  assert (Hpieno : pieno <-> voce_libera s = None).
  { unfold pieno, voce_libera. split.
    - intros Hall. destruct (primo _ _ _) as [i|] eqn:Ei; [|done]. apply primo_some in Ei as (Hi & Hv & _).
      rewrite Hall in Hv by lia. done.
    - intros Hn i Hi. pose proof (primo_none _ _ _ Hn i) as Hv. cbn in Hv. apply negb_false_iff, Hv. lia. }
  destruct (nome_valido name) eqn:Ev; cbn [negb] in E0.
  2:{ injection E0 as <- <-. do 4 (split; [done|]). done. }
  destruct (cerca_nome s name) as [i|] eqn:Ec.
  { injection E0 as <- <-. split; [done|]. split; [done|].
    split; [|split]; intros _ Hl; by apply Hlib in Hl. }
  destruct (permesso (Some self) name s) eqn:Ep; cbn [negb] in E0.
  2:{ injection E0 as <- <-. split; [done|]. split; [intros _ Hl; destruct Hl; by apply Hlib|]. done. }
  destruct (voce_libera s) as [i|] eqn:Ei.
  2:{ injection E0 as <- <-. split; [done|]. split; [intros _ Hl; destruct Hl; by apply Hlib|]. split; [done|].
      split; [done|]. intros _ _ _ Hn. destruct Hn. by apply Hpieno. }
  injection E0 as <- Es. split; [done|]. split; [intros _ Hl; destruct Hl; by apply Hlib|]. split; [done|].
  split; [intros _ _ _ Hf; by apply Hpieno in Hf|]. intros _ _ _ _.
  assert (Hm : morto (state_of s self) = false) by (by apply morto_running).
  assert (Hz : pid_of s self <> 0) by (apply Hpid; by rewrite Hrun).
  split; [done|]. split; [|intros name' Hne Hd; by eapply (lookup_altro s s' self name)].
  destruct (register_ok s self name s' Hp H Hm Hz E) as (H' & j & Hv & Hnp & Hc).
  assert (Hne : car name 0 <> 0).
  { unfold nome_valido in Ev. apply andb_true_iff in Ev as [Ev _]. by apply negb_true_iff, Z.eqb_neq in Ev. }
  rewrite lookup_eq by done. rewrite (proj2 (cerca_nome_spec s' name j H')) by done. by rewrite Hnp.
Qed.

Lemma ipc_register_correct_witness :
  exists tr r s', ipc_reach due_processi tr /\ state_of due_processi 0 = PROC_RUNNING /\
  ipc_register (Some 0%nat) (Some [116; 116; 121]) due_processi = (r, s') /\
  let s := due_processi in let name := [116; 116; 121] in
  let libero := forall i, voce_viva s (voce s i) = true -> cstr (nome (voce s i)) <> cstr name in
  let pieno := forall i, (i < IPC_NOMI_MAX)%nat -> voce_viva s (voce s i) = true in
  (nome_valido name = false -> r = - EINVAL /\ s' = s) /\
  (nome_valido name = true -> ~ libero -> r = - EEXIST /\ s' = s) /\
  (nome_valido name = true -> libero -> permesso (Some 0%nat) name s = false -> r = - EPERM /\ s' = s) /\
  (nome_valido name = true -> libero -> permesso (Some 0%nat) name s = true -> pieno -> r = - ENOSPC /\ s' = s) /\
  (nome_valido name = true -> libero -> permesso (Some 0%nat) name s = true -> ~ pieno ->
     r = 0 /\ ipc_lookup (Some name) s' = s32 (pid_of s 0) /\
     forall name', car name' 0 <> 0 -> cstr name' <> cstr name ->
       ipc_lookup (Some name') s' = ipc_lookup (Some name') s).
Proof.
  destruct due_processi_reach as [tr H]. exists tr. eexists _, _. split; [exact H|]. split; [reflexivity|].
  split; [apply surjective_pairing|]. cbv zeta.
  exact (ipc_register_correct due_processi tr 0 [116; 116; 121] _ _ H eq_refl (surjective_pairing _)).
Defined.

(** names of different users never collide: a name that [ipc_register]
    accepts from a process of uid [u], not root, is refused to any process of
    another uid that is not root, in whatever state it asks. *)
Theorem ipc_register_users_apart s1 s2 p1 p2 name s1' :
  0 < uid (sc s1 p1) < W32 -> 0 < uid (sc s2 p2) < W32 -> uid (sc s1 p1) <> uid (sc s2 p2) ->
  ipc_register (Some p1) (Some name) s1 = (0, s1') ->
  (ipc_register (Some p2) (Some name) s2).1 <> 0 /\ (ipc_register (Some p2) (Some name) s2).2 = s2.
Proof.
  intros Hu Hv Hne. rewrite !register_eq.
  destruct (nome_valido name); cbn [negb]; [|by intros [=]]. destruct (cerca_nome s1 name); [by intros [=]|].
  unfold permesso. rewrite !(proj2 (Z.eqb_neq _ 0)) by lia. cbn [negb].
  destruct (prefisso_ok 0 (atteso (uid (sc s1 p1))) name) eqn:E1; cbn [negb]; [|by intros [=]]. intros _.
  destruct (cerca_nome s2 name); [done|].
  destruct (prefisso_ok 0 (atteso (uid (sc s2 p2))) name) eqn:E2; cbn [negb]; [|done].
  destruct Hne. apply (atteso_inj _ _ name); [lia|lia|done|done].
Qed.

Definition due_utenti : Mondo := upd 0 (su_sch (fun _ => mkSched 1 PROC_RUNNING 1001 0 false)) due_processi.

Lemma ipc_register_users_apart_witness :
  exists s1', ipc_register (Some 1%nat) (Some [49; 48; 48; 48; 58; 97]) due_utenti = (0, s1') /\
  (ipc_register (Some 0%nat) (Some [49; 48; 48; 48; 58; 97]) due_utenti).1 <> 0 /\
  (ipc_register (Some 0%nat) (Some [49; 48; 48; 48; 58; 97]) due_utenti).2 = due_utenti.
Proof.
  exists (ipc_register (Some 1%nat) (Some [49; 48; 48; 48; 58; 97]) due_utenti).2.
  assert (E : ipc_register (Some 1%nat) (Some [49; 48; 48; 48; 58; 97]) due_utenti =
    (0, (ipc_register (Some 1%nat) (Some [49; 48; 48; 48; 58; 97]) due_utenti).2)).
  { rewrite (surjective_pairing (ipc_register _ _ _)) at 1. f_equal. }
  split; [exact E|].
  apply (ipc_register_users_apart due_utenti due_utenti 1 0 [49; 48; 48; 48; 58; 97] _) in E;
    [exact E|split; reflexivity|split; reflexivity|discriminate].
Defined.
