(* ===== verification/Bytes.v ===== *)
(** * Sequences of bytes and the numbers they write, the most significant byte first *)

From S2P Require Import Prelude.

(** ** The number written by a sequence of bytes *)

Definition bytes (b : list Z) : Prop := Forall (fun x => 0 <= x < 256) b.

Fixpoint be (b : list Z) : Z :=
  match b with
  | [] => 0
  | x :: b' => x * 256 ^ Z.of_nat (length b') + be b'
  end.

Lemma B_pos k : 0 < 256 ^ Z.of_nat k.
Proof. apply Z.pow_pos_nonneg; lia. Qed.

Lemma B_S k : 256 ^ Z.of_nat (S k) = 256 * 256 ^ Z.of_nat k.
Proof. rewrite Nat2Z.inj_succ, Z.pow_succ_r by lia. reflexivity. Qed.

Lemma B_2 k : 256 ^ Z.of_nat k = 2 ^ (8 * Z.of_nat k).
Proof. change 256 with (2 ^ 8). by rewrite <- Z.pow_mul_r by lia. Qed.

Lemma be_range b : bytes b -> 0 <= be b < 256 ^ Z.of_nat (length b).
Proof.
  induction 1 as [|x b Hx _ IH]; cbn [be length]; [cbn; lia|]. rewrite B_S. pose proof (B_pos (length b)). nia.
Qed.

Lemma be_inj b : forall b', bytes b -> bytes b' -> length b = length b' -> be b = be b' -> b = b'.
Proof.
  induction b as [|x b IH]; intros [|y b'] Hb Hb' Hl He; cbn in Hl; [done|lia|lia|].
  apply Forall_cons in Hb as [Hx Hb], Hb' as [Hy Hb']. pose proof (be_range b Hb). pose proof (be_range b' Hb').
  assert (El : length b' = length b) by lia. cbn [be] in He. rewrite El in *. pose proof (B_pos (length b)).
  assert (x = y) as -> by nia. f_equal. apply IH; (done || lia).
Qed.

(** ** Putting bytes together *)

Lemma lor_disjoint k a b : 0 <= k -> (2 ^ k | a) -> 0 <= b < 2 ^ k -> Z.lor a b = a + b.
Proof.
  intros Hk [q ->] Hb. symmetry. rewrite <- Z.lxor_lor, <- Z.add_nocarry_lxor; try done.
  all: apply Z.bits_inj'; intros i Hi; rewrite Z.land_spec, Z.bits_0.
  all: destruct (Z.lt_ge_cases i k); [rewrite Z.mul_pow2_bits_low by lia; done|].
  all: rewrite <- (Z.mod_small b (2 ^ k)), Z.mod_pow2_bits_high by lia; apply andb_false_r.
Qed.

Lemma lor_u32 x b : 0 <= x < W32 -> 0 <= b < W32 -> 0 <= Z.lor x b < W32.
Proof.
  intros Hx Hb. assert (H0 : 0 <= Z.lor x b) by (apply Z.lor_nonneg; lia). split; [done|].
  destruct (Z.eq_dec (Z.lor x b) 0) as [->|Hne]; [reflexivity|].
  change W32 with (2 ^ 32). apply Z.log2_lt_pow2; [lia|]. rewrite Z.log2_lor by lia.
  apply Z.max_lub_lt; (apply Z.le_lt_trans with (Z.log2 (W32 - 1)); [apply Z.log2_le_mono; lia|reflexivity]).
Qed.

Fixpoint be_bytes (k : nat) (n : Z) : list Z :=
  match k with
  | O => []
  | S k => n / 256 ^ Z.of_nat k mod 256 :: be_bytes k n
  end.

Lemma length_be_bytes k n : length (be_bytes k n) = k.
Proof. induction k; cbn; congruence. Qed.

Lemma be_bytes_range k n : bytes (be_bytes k n).
Proof. induction k; constructor; [apply Z.mod_pos_bound; lia|done]. Qed.

Lemma be_be_bytes k n : be (be_bytes k n) = n mod 256 ^ Z.of_nat k.
Proof.
  induction k as [|k IH]; cbn [be_bytes be]; [by rewrite Z.mod_1_r|]. rewrite length_be_bytes, IH, B_S, (Z.mul_comm 256).
  rewrite Z.rem_mul_r by (pose proof (B_pos k); lia). lia.
Qed.
