(* ===== verification/Esito.v ===== *)
(** * Outcomes of code that reads and writes through pointers

    [Val a] is a result, [Rifiuto] a return of -1, [Fuori] an access outside the
    buffers that the code may touch, [Stanco] a loop whose fuel ran out: the
    theorems show that the last two are not reached. *)

From S2P Require Import Prelude.

Inductive esito (A : Type) : Type :=
| Val (a : A)
| Rifiuto
| Fuori
| Stanco.
Arguments Val {A} a.
Arguments Rifiuto {A}.
Arguments Fuori {A}.
Arguments Stanco {A}.

#[export] Instance esito_ret : MRet esito := @Val.
#[export] Instance esito_bind : MBind esito := fun A B f m =>
  match m with Val a => f a | Rifiuto => Rifiuto | Fuori => Fuori | Stanco => Stanco end.

(** A call whose -1 the caller handles. *)
Definition prova {A} (m : esito A) : esito (option A) :=
  match m with Val a => Val (Some a) | Rifiuto => Val None | Fuori => Fuori | Stanco => Stanco end.

(** [if (!cond) return -1;] *)
Definition esige (b : bool) : esito unit := if b then Val tt else Rifiuto.

(** ** Reasoning

    [salvo m P]: the computation [m] stays inside its buffers, its loops end,
    and a value that it returns satisfies [P]. *)

Definition salvo {A} (m : esito A) (P : A -> Prop) : Prop :=
  match m with Val a => P a | Rifiuto => True | Fuori => False | Stanco => False end.

Lemma salvo_bind {A B} (m : esito A) (f : A -> esito B) (P : A -> Prop) (Q : B -> Prop) :
  salvo m P -> (forall a, P a -> salvo (f a) Q) -> salvo (m ≫= f) Q.
Proof. intros Hm Hf. destruct m; cbn in *; auto. Qed.

(** [certo m P]: the same, and there is a value. *)
Definition certo {A} (m : esito A) (P : A -> Prop) : Prop := match m with Val a => P a | _ => False end.

Lemma certo_bind {A B} (m : esito A) (f : A -> esito B) (P : A -> Prop) (Q : B -> Prop) :
  certo m P -> (forall a, P a -> certo (f a) Q) -> certo (m ≫= f) Q.
Proof. intros Hm Hf. destruct m; cbn in *; auto. Qed.

Lemma certo_weaken {A} (m : esito A) (P Q : A -> Prop) : certo m P -> (forall a, P a -> Q a) -> certo m Q.
Proof. intros Hm H. destruct m; cbn in *; auto. Qed.

Lemma certo_val {A} (m : esito A) (P : A -> Prop) : certo m P -> exists a, m = Val a /\ P a.
Proof. intros Hm. destruct m as [a| | |]; [by exists a|done..]. Qed.

(** The next call of a sequence, by the lemma [l] about it. *)
Tactic Notation "chiama" uconstr(l) "as" simple_intropattern_list(pat) :=
  first [eapply salvo_bind|eapply certo_bind]; [eapply l|cbn beta; intros pat].

Lemma salvo_weaken {A} (m : esito A) (P Q : A -> Prop) : salvo m P -> (forall a, P a -> Q a) -> salvo m Q.
Proof. intros Hm H. destruct m; cbn in *; auto. Qed.

Lemma salvo_prova {A} (m : esito A) (P : A -> Prop) :
  salvo m P -> salvo (prova m) (fun o => forall a, o = Some a -> P a).
Proof. intros Hm. destruct m; cbn in *; try done. by intros a' [= <-]. Qed.

Lemma salvo_esige b : salvo (esige b) (fun _ => b = true).
Proof. by destruct b. Qed.
