(* ===== verification/Lz4.v ===== *)
(** * The compressed boot disk (kernel/boot/rdlz4.c)

    [lz4_blocco] in byte memory.  The code may read the block [[src, src + n)]
    and the output buffer [[dst, dst + cap)], and write the buffer: any other
    access is [Fuori].  A return of -1 keeps the memory as it is by then. *)

From S2P Require Import Prelude Esito Mem Pmm.

Definition EXLZ_FIRMA : Z := 0x5A4C5845.
Definition RD_ESPANSO : Z := 0x00600000.
Definition RD_ESPANSO_MAX : Z := 4 * 1024 * 1024.

(** [(int)x] of a [uint32_t]. *)
Definition s32 (x : Z) : Z := if x <? 2147483648 then x else x - W32.

Definition le32 (m : gmap Z Z) (p : Z) : Z :=
  Z.lor (Z.lor (Z.lor (read8 m p) (Z.shiftl (read8 m (p + 1)) 8)) (Z.shiftl (read8 m (p + 2)) 16))
        (Z.shiftl (read8 m (p + 3)) 24).

Section Blocco.

Context (src n dst cap : Z).

Definition leggi_src (m : gmap Z Z) (a : Z) : esito Z :=
  if (src <=? a) && (a <? src + n) then Val (read8 m a) else Fuori.

Definition leggi_dst (m : gmap Z Z) (a : Z) : esito Z :=
  if (dst <=? a) && (a <? dst + cap) then Val (read8 m a) else Fuori.

Definition scrivi_dst (m : gmap Z Z) (a v : Z) : esito (gmap Z Z) :=
  if (dst <=? a) && (a <? dst + cap) then Val (write8 m a v) else Fuori.

(** The loop that extends a length of 15; [None] is the return of -1. *)
Fixpoint estesa (fuel : nat) (m : gmap Z Z) (ip v : Z) : esito (option (Z * Z)) :=
  match fuel with
  | O => Stanco
  | S fuel =>
      if src + n <=? ip then Val None
      else
        b ← leggi_src m ip;
        let v := u32 (v + b) in
        if b =? 255 then estesa fuel m (ip + 1) v else Val (Some (ip + 1, v))
  end.

Definition lunghezza (m : gmap Z Z) (ip v : Z) : esito (option (Z * Z)) :=
  if v =? 15 then estesa (S (Z.to_nat n)) m ip v else Val (Some (ip, v)).

Fixpoint copia_lit (k : nat) (m : gmap Z Z) (ip op : Z) : esito (gmap Z Z) :=
  match k with
  | O => Val m
  | S k => b ← leggi_src m ip; m ← scrivi_dst m op b; copia_lit k m (ip + 1) (op + 1)
  end.

Fixpoint copia_match (k : nat) (m : gmap Z Z) (mp op : Z) : esito (gmap Z Z) :=
  match k with
  | O => Val m
  | S k => b ← leggi_dst m mp; m ← scrivi_dst m op b; copia_match k m (mp + 1) (op + 1)
  end.

(** The second half of a turn: the copy from what is already written. *)
Definition ricopia (m : gmap Z Z) (tok ip op : Z) : esito (option (gmap Z Z * Z * Z)) :=
  let ie := src + n in
  let oe := dst + cap in
  if ie - ip <? 2 then Val None
  else
    b0 ← leggi_src m ip;
    b1 ← leggi_src m (ip + 1);
    let off := Z.lor b0 (Z.shiftl b1 8) in
    if (off =? 0) || (u32 (op - dst) <? off) then Val None
    else
      o ← lunghezza m (ip + 2) (Z.land tok 15);
      match o with
      | None => Val None
      | Some (ip, len) =>
          let len := u32 (len + 4) in
          if u32 (oe - op) <? len then Val None
          else m ← copia_match (Z.to_nat len) m (op - off) op; Val (Some (m, ip, op + len))
      end.

Fixpoint lz4_loop (fuel : nat) (m : gmap Z Z) (ip op : Z) : esito (Z * gmap Z Z) :=
  match fuel with
  | O => Stanco
  | S fuel =>
      let ie := src + n in
      let oe := dst + cap in
      if ie <=? ip then Val (-1, m)
      else
        tok ← leggi_src m ip;
        o ← lunghezza m (ip + 1) (Z.shiftr tok 4);
        match o with
        | None => Val (-1, m)
        | Some (ip, lit) =>
            if (u32 (ie - ip) <? lit) || (u32 (oe - op) <? lit) then Val (-1, m)
            else
              m ← copia_lit (Z.to_nat lit) m ip op;
              let ip := ip + lit in
              let op := op + lit in
              if ip =? ie then Val (s32 (op - dst), m)
              else
                o ← ricopia m tok ip op;
                match o with
                | None => Val (-1, m)
                | Some (m, ip, op) => lz4_loop fuel m ip op
                end
        end
  end.

End Blocco.

Definition lz4_blocco (m : gmap Z Z) (src n dst cap : Z) : esito (Z * gmap Z Z) :=
  lz4_loop src n dst cap (S (Z.to_nat n)) m src dst.

(** ** The disk *)

Definition senza (info : BootInfo) : BootInfo := set_rb 0 0 info.

Fixpoint somma_byte (k : nat) (m : gmap Z Z) (d i somma : Z) : Z :=
  match k with
  | O => somma
  | S k => somma_byte k m d (i + 1) (u32 (somma + read8 m (d + i)))
  end.

(** Sizes that cannot be, or an output that would touch the input. *)
Definition misure_impossibili (info : BootInfo) (orig comp : Z) : bool :=
  (u32 (rb_byte info - 16) <? comp) || (orig =? 0) || (RD_ESPANSO_MAX <? orig) ||
  ((rb_addr info <? u32 (RD_ESPANSO + orig)) && (RD_ESPANSO <? u32 (rb_addr info + rb_byte info))).

Definition rd_decomprimi (m : gmap Z Z) (info : BootInfo) : esito (gmap Z Z * BootInfo) :=
  if negb (rb_firma info =? RB_FIRMA) then Val (m, info)
  else if (rb_addr info =? 0) || (rb_byte info <? 16) then Val (m, info)
  else
    let s := rb_addr info in
    if negb (le32 m s =? EXLZ_FIRMA) then Val (m, info)
    else
      let orig := le32 m (s + 4) in
      let comp := le32 m (s + 8) in
      if misure_impossibili info orig comp then Val (m, senza info)
      else
        '(r, m') ← lz4_blocco m (s + 16) comp RD_ESPANSO orig;
        if negb (r =? s32 orig) then Val (m', senza info)
        else if negb (somma_byte (Z.to_nat orig) m' RD_ESPANSO 0 0 =? le32 m' (s + 12)) then Val (m', senza info)
        else Val (m', set_rb RD_ESPANSO orig info).
