(* ===== verification/Lz4Spec.v ===== *)
(** * LZ4: bounds of the accesses, the format, and decoding what was encoded *)

From S2P Require Import Prelude Bytes Esito Mem Lz4.

(** ** Accesses *)

Section Bounds.

Context (src n dst cap : Z) (Hn : 0 <= n < W32) (Hcap : 0 <= cap < W32).

(** Outside the output buffer nothing changes. *)
Definition fuori_dst (x : Z) : Prop := x < dst \/ dst + cap <= x.

Lemma leggi_src_ok m a : src <= a < src + n -> leggi_src src n m a = Val (read8 m a).
Proof. intros H. unfold leggi_src. by rewrite (proj2 (Z.leb_le _ _)), (proj2 (Z.ltb_lt _ _)) by lia. Qed.

Lemma leggi_dst_ok m a : dst <= a < dst + cap -> leggi_dst dst cap m a = Val (read8 m a).
Proof. intros H. unfold leggi_dst. by rewrite (proj2 (Z.leb_le _ _)), (proj2 (Z.ltb_lt _ _)) by lia. Qed.

Lemma scrivi_dst_ok m a v : dst <= a < dst + cap -> scrivi_dst dst cap m a v = Val (write8 m a v).
Proof. intros H. unfold scrivi_dst. by rewrite (proj2 (Z.leb_le _ _)), (proj2 (Z.ltb_lt _ _)) by lia. Qed.

Lemma estesa_salva fuel m : forall ip v,
  src <= ip <= src + n -> src + n - ip < Z.of_nat fuel ->
  certo (estesa src n fuel m ip v) (fun o => forall ip' v', o = Some (ip', v') -> ip < ip' <= src + n /\ 0 <= v' < W32).
Proof.
  induction fuel as [|fuel IH]; intros ip v Hip Hf; cbn [estesa]; [lia|].
  destruct (Z.leb_spec (src + n) ip); [done|]. rewrite leggi_src_ok by lia. cbn [mbind esito_bind].
  destruct (read8 m ip =? 255).
  - eapply certo_weaken; [apply IH; lia|]. intros o Ho ip' v' E. specialize (Ho ip' v' E). lia.
  - intros ip' v' [= <- <-]. split; [lia|apply u32_range].
Qed.

Lemma lunghezza_salva m ip v :
  src <= ip <= src + n -> 0 <= v < W32 ->
  certo (lunghezza src n m ip v) (fun o => forall ip' v', o = Some (ip', v') -> ip <= ip' <= src + n /\ 0 <= v' < W32).
Proof.
  intros Hip Hv. unfold lunghezza. destruct (v =? 15).
  - eapply certo_weaken; [apply estesa_salva; lia|]. intros o Ho ip' v' E. specialize (Ho ip' v' E). lia.
  - intros ip' v' [= <- <-]. lia.
Qed.

Lemma copia_lit_salva k : forall m ip op,
  src <= ip -> ip + Z.of_nat k <= src + n -> dst <= op -> op + Z.of_nat k <= dst + cap ->
  certo (copia_lit src n dst cap k m ip op) (same_on fuori_dst m).
Proof.
  induction k as [|k IH]; intros m ip op H1 H2 H3 H4; cbn [copia_lit]; [apply same_on_refl|].
  rewrite leggi_src_ok by lia. cbn [mbind esito_bind]. rewrite scrivi_dst_ok by lia. cbn [mbind esito_bind].
  eapply certo_weaken; [apply IH; lia|]. intros m' Hm. eapply same_on_trans; [|exact Hm].
  apply same_on_write8; [apply same_on_refl|unfold fuori_dst; lia].
Qed.

Lemma copia_match_salva k : forall m mp op,
  dst <= mp < op -> op + Z.of_nat k <= dst + cap ->
  certo (copia_match dst cap k m mp op) (same_on fuori_dst m).
Proof.
  induction k as [|k IH]; intros m mp op H1 H2; cbn [copia_match]; [apply same_on_refl|].
  rewrite leggi_dst_ok by lia. cbn [mbind esito_bind]. rewrite scrivi_dst_ok by lia. cbn [mbind esito_bind].
  eapply certo_weaken; [apply IH; lia|]. intros m' Hm. eapply same_on_trans; [|exact Hm].
  apply same_on_write8; [apply same_on_refl|unfold fuori_dst; lia].
Qed.

(** The state between two turns. *)
Definition dentro (ip op : Z) : Prop := src <= ip <= src + n /\ dst <= op <= dst + cap.

Lemma ricopia_salva m tok ip op :
  dentro ip op -> 0 <= tok < 256 ->
  certo (ricopia src n dst cap m tok ip op)
    (fun o => forall m' ip' op', o = Some (m', ip', op') -> dentro ip' op' /\ ip < ip' /\ same_on fuori_dst m m').
Proof.
  intros [Hip Hop] Htok. unfold ricopia. destruct (Z.ltb_spec (src + n - ip) 2); [done|].
  rewrite leggi_src_ok by lia. cbn [mbind esito_bind]. rewrite leggi_src_ok by lia. cbn [mbind esito_bind]. set (off := Z.lor _ _).
  destruct (Z.eqb_spec off 0) as [|E0]; [done|]. cbn [orb]. rewrite (u32_small (op - dst)) by lia.
  destruct (Z.ltb_spec (op - dst) off) as [|Hoff]; [done|].
  assert (0 <= off) by (apply Z.lor_nonneg; split; [apply read8_range|apply Z.shiftl_nonneg, read8_range]).
  chiama lunghezza_salva as o Ho; [lia| |].
  { change 15 with (Z.ones 4). rewrite Z.land_ones by lia. pose proof (Z.mod_pos_bound tok (2 ^ 4) ltac:(lia)). unfold W32. lia. }
  destruct o as [[ip' len]|]; [|done]. destruct (Ho _ _ eq_refl) as [Hip' Hlen].
  rewrite (u32_small (dst + cap - op)) by lia. pose proof (u32_range (len + 4)).
  destruct (Z.ltb_spec (dst + cap - op) (u32 (len + 4))); [done|].
  chiama copia_match_salva as m' Hm'; [lia|lia|]. intros m2 ip2 op2 [= <- <- <-].
  split; [unfold dentro; lia|]. split; [lia|exact Hm'].
Qed.

Lemma lz4_loop_salvo fuel : forall m ip op,
  dentro ip op -> src + n - ip < Z.of_nat fuel ->
  certo (lz4_loop src n dst cap fuel m ip op) (fun '(r, m') => same_on fuori_dst m m').
Proof.
  induction fuel as [|fuel IH]; intros m ip op [Hip Hop] Hf; cbn [lz4_loop]; [lia|].
  destruct (Z.leb_spec (src + n) ip); [apply same_on_refl|]. rewrite leggi_src_ok by lia. cbn [mbind esito_bind].
  pose proof (read8_range m ip) as Htok. set (tok := read8 m ip) in *.
  chiama lunghezza_salva as o Ho; [lia| |].
  { rewrite Z.shiftr_div_pow2 by lia. change (2 ^ 4) with 16. unfold W32. zdm. }
  destruct o as [[ip1 lit]|]; [|apply same_on_refl]. destruct (Ho _ _ eq_refl) as [Hip1 Hlit].
  rewrite (u32_small (src + n - ip1)), (u32_small (dst + cap - op)) by lia.
  destruct (Z.ltb_spec (src + n - ip1) lit); [apply same_on_refl|].
  destruct (Z.ltb_spec (dst + cap - op) lit); [apply same_on_refl|]. cbn [orb].
  chiama copia_lit_salva as m1 Hm1; [lia|lia|lia|lia|]. destruct (ip1 + lit =? src + n); [exact Hm1|].
  chiama ricopia_salva as o2 Ho2; [unfold dentro; lia|done|]. destruct o2 as [[[m2 ip2] op2]|]; [|exact Hm1].
  destruct (Ho2 _ _ _ eq_refl) as (Hd & Hlt & Hm2). eapply certo_weaken; [apply IH; [done|lia]|].
  intros [r m'] Hm'. eapply same_on_trans; [exact Hm1|]. eapply same_on_trans; [exact Hm2|exact Hm'].
Qed.

Lemma lz4_blocco_salvo m : certo (lz4_blocco m src n dst cap) (fun '(r, m') => same_on fuori_dst m m').
Proof. apply lz4_loop_salvo; [unfold dentro; lia|lia]. Qed.

End Bounds.

(** ** The format *)

(** A sequence: literals, then [m_len] bytes copied from [m_off] bytes back. *)
Record Sequenza : Type := mkSeq { m_lit : list Z; m_off : Z; m_len : Z }.

(** The bytes that extend a length from 15 on. *)
Definition ext (v : Z) : list Z :=
  if v <? 15 then [] else replicate (Z.to_nat ((v - 15) / 255)) 255 ++ [(v - 15) mod 255].

Definition enc_seq (s : Sequenza) : list Z :=
  let l := Z.of_nat (length (m_lit s)) in
  [Z.min l 15 * 16 + Z.min (m_len s - 4) 15] ++ ext l ++ m_lit s ++ [m_off s mod 256; m_off s / 256] ++ ext (m_len s - 4).

(** The last sequence has literals only. *)
Definition enc_ultima (lit : list Z) : list Z :=
  let l := Z.of_nat (length lit) in [Z.min l 15 * 16] ++ ext l ++ lit.

Definition enc_blocco (ss : list Sequenza) (ultima : list Z) : list Z := concat (map enc_seq ss) ++ enc_ultima ultima.

(** Byte by byte: the source of the copy may overlap what it writes. *)
Fixpoint ripeti (k : nat) (off : nat) (out : list Z) : list Z :=
  match k with
  | O => out
  | S k => ripeti k off (out ++ [nth (length out - off) out 0])
  end.

Definition espandi (out : list Z) (s : Sequenza) : list Z :=
  ripeti (Z.to_nat (m_len s)) (Z.to_nat (m_off s)) (out ++ m_lit s).

Definition seq_ok (out : list Z) (s : Sequenza) : Prop :=
  bytes (m_lit s) /\ 4 <= m_len s /\ 1 <= m_off s < 65536 /\ m_off s <= Z.of_nat (length (out ++ m_lit s)).

Fixpoint seqs_ok (out : list Z) (ss : list Sequenza) : Prop :=
  match ss with
  | [] => True
  | s :: r => seq_ok out s /\ seqs_ok (espandi out s) r
  end.

(** ** Bytes in memory *)

Definition tiene (m : gmap Z Z) (a : Z) (l : list Z) : Prop := forall i x, l !! i = Some x -> read8 m (a + Z.of_nat i) = x.

Lemma tiene_app m a l l' : tiene m a (l ++ l') <-> tiene m a l /\ tiene m (a + Z.of_nat (length l)) l'.
Proof.
  split.
  - intros H. split; intros i x Hi.
    + apply H. by rewrite lookup_app_l by (by eapply lookup_lt_Some).
    + replace (a + Z.of_nat (length l) + Z.of_nat i) with (a + Z.of_nat (length l + i)) by lia.
      apply H. rewrite lookup_app_r by lia. rewrite <- Hi. f_equal. lia.
  - intros [H1 H2] i x Hi. apply lookup_app_Some in Hi as [Hi|[Hl Hi]]; [by apply H1|].
    apply H2 in Hi. rewrite <- Hi. f_equal. lia.
Qed.

Lemma tiene_cons m a x l : tiene m a (x :: l) <-> read8 m a = x /\ tiene m (a + 1) l.
Proof.
  change (x :: l) with ([x] ++ l). rewrite tiene_app. cbn [length]. change (Z.of_nat 1) with 1. split; intros [H1 H2]; (split; [|done]).
  - specialize (H1 0%nat x eq_refl). by rewrite Z.add_0_r in H1.
  - intros [|i] y Hy; [|done]. injection Hy as <-. by rewrite Z.add_0_r.
Qed.

Lemma tiene_same P m m' a l :
  same_on P m m' -> (forall x, a <= x < a + Z.of_nat (length l) -> P x) -> tiene m a l -> tiene m' a l.
Proof.
  intros Hs HP H i x Hi. rewrite Hs; [by apply H|]. apply HP. apply lookup_lt_Some in Hi. lia.
Qed.

Lemma tiene_snoc m a l x : 0 <= x < 256 -> tiene m a l -> tiene (write8 m (a + Z.of_nat (length l)) x) a (l ++ [x]).
Proof.
  intros Hx H. apply tiene_app. split.
  - apply (tiene_same (fun y => y <> a + Z.of_nat (length l)) m); [apply same_on_write8; [apply same_on_refl|tauto]|intros; lia|done].
  - apply tiene_cons. split; [|by intros i y Hy]. rewrite read8_write8, Z.eqb_refl. apply Z.mod_small. lia.
Qed.

Lemma tiene_nth m a l i : tiene m a l -> (i < length l)%nat -> read8 m (a + Z.of_nat i) = nth i l 0.
Proof. intros H Hi. destruct (lookup_lt_is_Some_2 l i Hi) as [x Hx]. rewrite (H _ _ Hx), nth_lookup, Hx. done. Qed.

(** ** Decoding *)

Section Decoding.

Context (src n dst cap : Z) (Hn : 0 <= n < W32) (Hcap : 0 <= cap < W32) (Hdis : src + n <= dst \/ dst + cap <= src).

Lemma estesa_replicate k m r : forall fuel ip v,
  tiene m ip (replicate k 255 ++ [r]) -> 0 <= r < 255 -> src <= ip -> ip + Z.of_nat k + 1 <= src + n ->
  (k < fuel)%nat -> 0 <= v -> v + 255 * Z.of_nat k + r < W32 ->
  estesa src n fuel m ip v = Val (Some (ip + Z.of_nat k + 1, v + 255 * Z.of_nat k + r)).
Proof.
  induction k as [|k IH]; intros fuel ip v Ht Hr H1 H2 Hf Hv Hlt; (destruct fuel as [|fuel]; [lia|]); cbn [estesa replicate app] in *;
    apply tiene_cons in Ht as [Hb Ht]; rewrite (proj2 (Z.leb_gt _ _)) by lia; rewrite leggi_src_ok, Hb by lia; cbn [mbind esito_bind].
  - rewrite (proj2 (Z.eqb_neq _ _)), u32_small by lia. do 3 f_equal; lia.
  - rewrite Z.eqb_refl, u32_small by lia. rewrite IH by (done || lia). do 3 f_equal; lia.
Qed.

Lemma lunghezza_ext m ip v :
  0 <= v < W32 -> tiene m ip (ext v) -> src <= ip -> ip + Z.of_nat (length (ext v)) <= src + n ->
  lunghezza src n m ip (Z.min v 15) = Val (Some (ip + Z.of_nat (length (ext v)), v)).
Proof.
  intros Hv Ht H1 H2. unfold lunghezza, ext in *. destruct (Z.ltb_spec v 15).
  - rewrite Z.min_l, (proj2 (Z.eqb_neq _ _)) by lia. cbn. do 3 f_equal. lia.
  - rewrite Z.min_r, Z.eqb_refl by lia. rewrite length_app, length_replicate in *. cbn [length] in *.
    set (k := Z.to_nat ((v - 15) / 255)) in *.
    assert (Hk : v = 15 + 255 * Z.of_nat k + (v - 15) mod 255) by (unfold k; rewrite Z2Nat.id by zdm; zdm).
    rewrite (estesa_replicate k m ((v - 15) mod 255)); [do 3 f_equal; lia|done|zdm|lia|lia|lia|lia|lia].
Qed.

Lemma copia_lit_tiene lit : forall m ip out,
  bytes lit -> tiene m ip lit -> tiene m dst out -> src <= ip -> ip + Z.of_nat (length lit) <= src + n ->
  Z.of_nat (length (out ++ lit)) <= cap ->
  exists m', copia_lit src n dst cap (length lit) m ip (dst + Z.of_nat (length out)) = Val m' /\
  tiene m' dst (out ++ lit) /\ same_on (fuori_dst dst cap) m m'.
Proof.
  induction lit as [|x lit IH]; intros m ip out Hb Ht Ho H1 H2 H3; cbn [copia_lit length].
  - exists m. rewrite app_nil_r. split; [done|]. split; [done|apply same_on_refl].
  - apply Forall_cons in Hb as [Hx Hb]. apply tiene_cons in Ht as [Hr Ht]. rewrite length_app in H3. cbn [length] in *.
    rewrite leggi_src_ok, Hr by lia. cbn [mbind esito_bind]. rewrite scrivi_dst_ok by lia. cbn [mbind esito_bind].
    set (m1 := write8 m (dst + Z.of_nat (length out)) x).
    assert (Hs1 : same_on (fuori_dst dst cap) m m1) by (apply same_on_write8; [apply same_on_refl|unfold fuori_dst; lia]).
    destruct (IH m1 (ip + 1) (out ++ [x])) as (m' & Hm & Ht' & Hs'); [done| | |lia|lia| |].
    + apply (tiene_same _ _ _ _ _ Hs1); [|done]. intros y Hy. unfold fuori_dst. lia.
    + by apply tiene_snoc.
    + rewrite !length_app. cbn [length]. lia.
    + exists m'. rewrite length_app in Hm. cbn [length] in Hm.
      replace (dst + Z.of_nat (length out) + 1) with (dst + Z.of_nat (length out + 1)) by lia. split; [exact Hm|].
      rewrite <- app_assoc in Ht'. split; [exact Ht'|]. by eapply same_on_trans.
Qed.

Lemma ripeti_length k off : forall out, length (ripeti k off out) = (length out + k)%nat.
Proof. induction k as [|k IH]; intros out; cbn [ripeti]; [lia|]. rewrite IH, length_app. cbn [length]. lia. Qed.

Lemma nth_bytes l i : bytes l -> 0 <= nth i l 0 < 256.
Proof.
  intros H. rewrite nth_lookup. destruct (l !! i) as [x|] eqn:E; cbn; [|lia]. exact (Forall_lookup_1 _ _ _ _ H E).
Qed.

Lemma ripeti_bytes k off : forall out, bytes out -> bytes (ripeti k off out).
Proof.
  induction k as [|k IH]; intros out H; cbn [ripeti]; [done|]. apply IH, Forall_app. split; [done|].
  apply Forall_singleton, nth_bytes, H.
Qed.

Lemma copia_match_tiene k off : forall m out,
  bytes out -> (1 <= off <= length out)%nat -> tiene m dst out -> Z.of_nat (length out + k) <= cap ->
  exists m', copia_match dst cap k m (dst + Z.of_nat (length out) - Z.of_nat off) (dst + Z.of_nat (length out)) = Val m' /\
  tiene m' dst (ripeti k off out) /\ same_on (fuori_dst dst cap) m m'.
Proof.
  induction k as [|k IH]; intros m out Hb Hoff Ho Hl; cbn [copia_match ripeti].
  - exists m. split; [done|]. split; [done|apply same_on_refl].
  - rewrite leggi_dst_ok by lia. cbn [mbind esito_bind]. rewrite scrivi_dst_ok by lia. cbn [mbind esito_bind].
    replace (dst + Z.of_nat (length out) - Z.of_nat off) with (dst + Z.of_nat (length out - off)) by lia.
    rewrite (tiene_nth m dst out) by (done || lia). set (x := nth (length out - off) out 0).
    assert (Hx : 0 <= x < 256) by by apply nth_bytes.
    set (m1 := write8 m (dst + Z.of_nat (length out)) x).
    assert (Hs1 : same_on (fuori_dst dst cap) m m1) by (apply same_on_write8; [apply same_on_refl|unfold fuori_dst; lia]).
    destruct (IH m1 (out ++ [x])) as (m' & Hm & Ht' & Hs').
    + apply Forall_app. split; [done|]. by apply Forall_singleton.
    + rewrite length_app. cbn [length]. lia.
    + by apply tiene_snoc.
    + rewrite length_app. cbn [length]. lia.
    + exists m'. rewrite length_app in Hm. cbn [length] in Hm.
      replace (dst + Z.of_nat (length out - off) + 1) with (dst + Z.of_nat (length out + 1) - Z.of_nat off) by lia.
      replace (dst + Z.of_nat (length out) + 1) with (dst + Z.of_nat (length out + 1)) by lia.
      split; [exact Hm|]. split; [exact Ht'|]. by eapply same_on_trans.
Qed.

Lemma token_nibbles a b : 0 <= a <= 15 -> 0 <= b <= 15 -> Z.shiftr (a * 16 + b) 4 = a /\ Z.land (a * 16 + b) 15 = b.
Proof.
  intros Ha Hb. rewrite Z.shiftr_div_pow2 by lia. change 15 with (Z.ones 4). rewrite Z.land_ones by lia.
  change (2 ^ 4) with 16. split; zdm.
Qed.

Lemma ricopia_tiene m tok ip out off len :
  bytes out -> Z.land tok 15 = Z.min (len - 4) 15 -> 4 <= len -> 1 <= off < 65536 -> off <= Z.of_nat (length out) ->
  tiene m ip ([off mod 256; off / 256] ++ ext (len - 4)) -> src <= ip ->
  ip + 2 + Z.of_nat (length (ext (len - 4))) <= src + n -> tiene m dst out -> Z.of_nat (length out) + len <= cap ->
  exists m', ricopia src n dst cap m tok ip (dst + Z.of_nat (length out)) =
    Val (Some (m', ip + 2 + Z.of_nat (length (ext (len - 4))), dst + Z.of_nat (length out) + len)) /\
  tiene m' dst (ripeti (Z.to_nat len) (Z.to_nat off) out) /\ same_on (fuori_dst dst cap) m m'.
Proof.
  intros Hb Htok Hlen Hoff Hol Ht H1 H2 Ho Hl. unfold ricopia. rewrite (proj2 (Z.ltb_ge _ _)) by lia.
  cbn [app] in Ht. apply tiene_cons in Ht as [Hb0 Ht]. apply tiene_cons in Ht as [Hb1 Ht].
  rewrite (leggi_src_ok _ _ m ip), Hb0 by lia. cbn [mbind esito_bind]. rewrite leggi_src_ok, Hb1 by lia. cbn [mbind esito_bind].
  assert (Ho' : Z.lor (off mod 256) (Z.shiftl (off / 256) 8) = off).
  { rewrite Z.lor_comm, Z.shiftl_mul_pow2, (lor_disjoint 8) by (lia || apply Z.divide_factor_r || (change (2 ^ 8) with 256; zdm)).
    change (2 ^ 8) with 256. zdm. }
  rewrite Ho', (proj2 (Z.eqb_neq _ _)) by lia. cbn [orb]. rewrite u32_small, (proj2 (Z.ltb_ge _ _)) by lia.
  replace (ip + 1 + 1) with (ip + 2) in Ht by lia.
  rewrite Htok, (lunghezza_ext m (ip + 2) (len - 4)) by (done || lia). cbn [mbind esito_bind].
  replace (len - 4 + 4) with len by lia. rewrite !u32_small by lia. rewrite (proj2 (Z.ltb_ge _ _)) by lia.
  destruct (copia_match_tiene (Z.to_nat len) (Z.to_nat off) m out) as (m' & Hm & Ht' & Hs); [done|lia|done|lia|].
  rewrite Z2Nat.id in Hm by lia. rewrite Hm. by exists m'.
Qed.

(** Token and literals of a sequence, with [b] in the low half of the token. *)
Lemma letterali_tiene m ip out lit b :
  let l := Z.of_nat (length lit) in
  bytes lit -> 0 <= b <= 15 -> tiene m ip ([Z.min l 15 * 16 + b] ++ ext l ++ lit) -> tiene m dst out -> src <= ip ->
  ip + 1 + Z.of_nat (length (ext l)) + l <= src + n -> Z.of_nat (length (out ++ lit)) <= cap ->
  let ip1 := ip + 1 + Z.of_nat (length (ext l)) in
  leggi_src src n m ip = Val (Z.min l 15 * 16 + b) /\
  lunghezza src n m (ip + 1) (Z.shiftr (Z.min l 15 * 16 + b) 4) = Val (Some (ip1, l)) /\
  exists m', copia_lit src n dst cap (Z.to_nat l) m ip1 (dst + Z.of_nat (length out)) = Val m' /\
  tiene m' dst (out ++ lit) /\ same_on (fuori_dst dst cap) m m'.
Proof.
  intros l Hb Hbb Ht Ho H1 H2 H3 ip1. cbn [app] in Ht. apply tiene_cons in Ht as [Htok Ht]. apply tiene_app in Ht as [He Hl].
  destruct (token_nibbles (Z.min l 15) b) as [Hhi _]; [lia|lia|]. rewrite length_app in H3.
  split; [rewrite leggi_src_ok, Htok by lia; done|]. split.
  - rewrite Hhi. apply lunghezza_ext; [lia|done|lia|lia].
  - unfold l at 1. rewrite Nat2Z.id. apply copia_lit_tiene; [done|exact Hl|done|lia|unfold ip1; lia|rewrite length_app; lia].
Qed.

Lemma length_enc_seq s :
  Z.of_nat (length (enc_seq s)) = 1 + Z.of_nat (length (ext (Z.of_nat (length (m_lit s))))) + Z.of_nat (length (m_lit s)) +
    2 + Z.of_nat (length (ext (m_len s - 4))).
Proof. unfold enc_seq. rewrite !length_app. cbn [length]. lia. Qed.

Fixpoint espandi_tutte (out : list Z) (ss : list Sequenza) : list Z :=
  match ss with [] => out | s :: r => espandi_tutte (espandi out s) r end.

Lemma length_espandi out s : 0 <= m_len s -> Z.of_nat (length (espandi out s)) = Z.of_nat (length out + length (m_lit s)) + m_len s.
Proof. intros H. unfold espandi. rewrite ripeti_length, length_app. lia. Qed.

Lemma espandi_tutte_length ss : forall out, seqs_ok out ss -> (length out <= length (espandi_tutte out ss))%nat.
Proof.
  induction ss as [|s ss IH]; intros out H; cbn; [lia|]. destruct H as [Hs H]. specialize (IH _ H).
  pose proof (length_espandi out s ltac:(destruct Hs as (_ & ? & _); lia)). destruct Hs as (_ & ? & _). lia.
Qed.

Lemma lz4_loop_tiene ult ss : forall fuel m ip out,
  bytes out -> bytes ult -> seqs_ok out ss -> tiene m ip (enc_blocco ss ult) -> tiene m dst out ->
  src <= ip -> ip + Z.of_nat (length (enc_blocco ss ult)) = src + n ->
  Z.of_nat (length (espandi_tutte out ss ++ ult)) <= cap -> cap < 2 ^ 31 -> (length (enc_blocco ss ult) < fuel)%nat ->
  exists m', lz4_loop src n dst cap fuel m ip (dst + Z.of_nat (length out)) =
    Val (Z.of_nat (length (espandi_tutte out ss ++ ult)), m') /\
  tiene m' dst (espandi_tutte out ss ++ ult) /\ same_on (fuori_dst dst cap) m m'.
Proof.
  induction ss as [|s ss IH]; intros fuel m ip out Hb Hu Hss Ht Ho H1 H2 H3 Hc Hf; (destruct fuel as [|fuel]; [lia|]);
    cbn [lz4_loop espandi_tutte] in *; unfold enc_blocco in *; cbn [map concat app] in *.
  - unfold enc_ultima in *. rewrite !length_app in H2. cbn [length] in H2.
    assert (Ht' : tiene m ip ([Z.min (Z.of_nat (length ult)) 15 * 16 + 0] ++ ext (Z.of_nat (length ult)) ++ ult)) by (by rewrite Z.add_0_r).
    destruct (letterali_tiene m ip out ult 0 Hu ltac:(lia) Ht' Ho H1 ltac:(lia) H3) as (Ea & Eb & m' & Ec & Ht1 & Hs1).
    rewrite (proj2 (Z.leb_gt _ _)) by lia. rewrite Ea. cbn [mbind esito_bind]. rewrite Eb. cbn [mbind esito_bind].
    rewrite length_app in H3. rewrite !u32_small by lia. rewrite !(proj2 (Z.ltb_ge _ _)) by lia. cbn [orb]. rewrite Ec. cbn [mbind esito_bind].
    rewrite (proj2 (Z.eqb_eq _ _)) by lia. exists m'. split; [|done]. rewrite length_app. f_equal. f_equal.
    unfold s32. rewrite (proj2 (Z.ltb_lt _ _)) by lia. lia.
  - destruct Hss as [(Hlb & Hle & Hof & Hol) Hss]. set (l := Z.of_nat (length (m_lit s))) in *.
    pose proof (length_enc_seq s) as Hls. fold l in Hls. rewrite <- app_assoc in Ht. apply tiene_app in Ht as [Hts Htr].
    rewrite <- app_assoc, length_app in H2, Hf. pose proof (length_espandi out s ltac:(lia)) as Hlen.
    pose proof (espandi_tutte_length ss _ Hss) as Hmono. rewrite length_app in H3.
    assert (Hsz : Z.of_nat (length (out ++ m_lit s)) + m_len s <= cap) by (rewrite length_app; lia).
    unfold enc_seq in Hts. fold l in Hts. rewrite !app_assoc in Hts. rewrite <- (app_assoc _ [m_off s mod 256; _]) in Hts.
    apply tiene_app in Hts as [Hl1 Hl2]. rewrite <- app_assoc in Hl1.
    destruct (letterali_tiene m ip out (m_lit s) (Z.min (m_len s - 4) 15) Hlb ltac:(lia) Hl1 Ho H1) as (Ea & Eb & m1 & Ec & Ht1 & Hs1).
    { fold l. lia. } { lia. }
    fold l in Ea, Eb, Ec. rewrite (proj2 (Z.leb_gt _ _)) by lia. rewrite Ea. cbn [mbind esito_bind]. rewrite Eb. cbn [mbind esito_bind].
    rewrite length_app in Hsz. rewrite !u32_small by lia. rewrite !(proj2 (Z.ltb_ge _ _)) by lia. cbn [orb]. rewrite Ec. cbn [mbind esito_bind].
    set (ip2 := ip + 1 + Z.of_nat (length (ext l)) + l) in *. rewrite (proj2 (Z.eqb_neq _ _)) by (unfold ip2; lia).
    rewrite !length_app in Hl2. cbn [length] in Hl2. replace (ip + Z.of_nat (1 + length (ext l) + length (m_lit s))) with ip2 in Hl2 by (unfold ip2, l; lia).
    assert (Hkeep : forall a k, tiene m a k -> src <= a -> a + Z.of_nat (length k) <= src + n -> forall mm, same_on (fuori_dst dst cap) m mm -> tiene mm a k).
    { intros a k Hk Ha1 Ha2 mm Hmm. apply (tiene_same _ _ _ _ _ Hmm); [|done]. intros y Hy. unfold fuori_dst. lia. }
    destruct (ricopia_tiene m1 (Z.min l 15 * 16 + Z.min (m_len s - 4) 15) ip2 (out ++ m_lit s) (m_off s) (m_len s)) as (m2 & Er & Ht2 & Hs2);
      [by apply Forall_app|apply token_nibbles; lia|lia|lia|lia| |unfold ip2; lia|unfold ip2; lia|done|rewrite length_app; lia|].
    { apply Hkeep; [exact Hl2|unfold ip2; lia| |done]. rewrite length_app. cbn [length]. unfold ip2. lia. }
    rewrite length_app in Er. replace (dst + Z.of_nat (length out) + l) with (dst + Z.of_nat (length out + length (m_lit s))) by (unfold l; lia).
    rewrite Er. cbn [mbind esito_bind]. fold (espandi out s) in Ht2.
    replace (dst + Z.of_nat (length out + length (m_lit s)) + m_len s) with (dst + Z.of_nat (length (espandi out s))) by lia.
    assert (Hs12 : same_on (fuori_dst dst cap) m m2) by (by eapply same_on_trans).
    destruct (IH fuel m2 (ip2 + 2 + Z.of_nat (length (ext (m_len s - 4)))) (espandi out s)) as (m3 & E3 & Ht3 & Hs3); try done.
    + apply ripeti_bytes, Forall_app. done.
    + replace (ip2 + 2 + _) with (ip + Z.of_nat (length (enc_seq s))) by (unfold ip2; lia). apply Hkeep; [exact Htr|lia|lia|done].
    + unfold ip2. lia.
    + unfold ip2. lia.
    + rewrite length_app. lia.
    + lia.
    + exists m3. split; [exact E3|]. split; [exact Ht3|]. by eapply same_on_trans.
Qed.

Lemma lz4_blocco_tiene ss ult m :
  bytes ult -> seqs_ok [] ss -> tiene m src (enc_blocco ss ult) -> n = Z.of_nat (length (enc_blocco ss ult)) ->
  Z.of_nat (length (espandi_tutte [] ss ++ ult)) <= cap -> cap < 2 ^ 31 ->
  exists m', lz4_blocco m src n dst cap = Val (Z.of_nat (length (espandi_tutte [] ss ++ ult)), m') /\
  tiene m' dst (espandi_tutte [] ss ++ ult) /\ same_on (fuori_dst dst cap) m m'.
Proof.
  intros Hu Hs Ht Hlen Hl Hc. unfold lz4_blocco.
  destruct (lz4_loop_tiene ult ss (S (Z.to_nat n)) m src []) as (m' & E & H); try done; try lia; [constructor|].
  change (Z.of_nat (length [])) with 0 in E. rewrite Z.add_0_r in E. by exists m'.
Qed.

End Decoding.

(** ** The disk *)

Lemma le32_read32 m p : le32 m p = read32 m p.
Proof.
  unfold le32, read32. pose proof (read8_range m p). pose proof (read8_range m (p + 1)).
  pose proof (read8_range m (p + 2)). pose proof (read8_range m (p + 3)).
  rewrite !Z.shiftl_mul_pow2 by lia. change (2 ^ 8) with 256. change (2 ^ 16) with 65536. change (2 ^ 24) with 16777216.
  assert (Hor : forall k lo hi, 0 <= k -> 0 <= lo < 2 ^ k -> Z.lor lo (hi * 2 ^ k) = lo + hi * 2 ^ k).
  { intros k lo hi Hk Hlo. rewrite Z.lor_comm, (lor_disjoint k) by (done || apply Z.divide_factor_r). lia. }
  change 256 with (2 ^ 8). change 65536 with (2 ^ 16). change 16777216 with (2 ^ 24).
  rewrite (Hor 8) by lia. rewrite (Hor 16) by lia. rewrite (Hor 24) by lia. lia.
Qed.

Definition le4 (v : Z) : list Z := [v mod 256; v / 256 mod 256; v / 65536 mod 256; v / 16777216].

Lemma le32_tiene m p v : 0 <= v < W32 -> tiene m p (le4 v) -> le32 m p = v.
Proof.
  intros Hv H. unfold le4 in H. apply tiene_cons in H as [H0 H]. apply tiene_cons in H as [H1 H].
  apply tiene_cons in H as [H2 H]. apply tiene_cons in H as [H3 _]. rewrite le32_read32. unfold read32.
  replace (p + 2) with (p + 1 + 1) by lia. replace (p + 3) with (p + 1 + 1 + 1) by lia. rewrite H0, H1, H2, H3. zdm.
Qed.

Definition somma_di (l : list Z) : Z := foldr Z.add 0 l.

Lemma somma_byte_tiene l : forall m d i acc,
  tiene m (d + i) l -> somma_byte (length l) m d i (u32 acc) = u32 (acc + somma_di l).
Proof.
  induction l as [|x l IH]; intros m d i acc H; cbn [somma_byte length somma_di foldr]; [f_equal; lia|].
  apply tiene_cons in H as [Hx H]. rewrite Hx. replace (u32 (u32 acc + x)) with (u32 (acc + x)) by (unfold u32; by rewrite Zplus_mod_idemp_l).
  rewrite IH by (by rewrite Z.add_assoc). f_equal. unfold somma_di. lia.
Qed.
