(* ===== verification/Lz4Thms.v ===== *)
(** * The compressed boot disk: theorems *)

From S2P Require Import Prelude Bytes Esito Mem Pmm Lz4 Lz4Spec.

(** A block: "ab", then 6 bytes from 2 back, then "c". *)
Definition blocco_prova : list Z := enc_blocco [mkSeq [97; 98] 2 6] [99].

(** Memory that holds [l] from [a] on. *)
Fixpoint riempi (m : gmap Z Z) (a : Z) (l : list Z) : gmap Z Z :=
  match l with [] => m | x :: l => write8 (riempi m (a + 1) l) a x end.

(** Whatever bytes the block holds, [lz4_blocco] ends, reads only the
    block and the output buffer, writes only the output buffer, and returns. *)
Theorem lz4_blocco_safe m src n dst cap :
  0 <= n < W32 -> 0 <= cap < W32 ->
  exists r m', lz4_blocco m src n dst cap = Val (r, m') /\ same_on (fun x => x < dst \/ dst + cap <= x) m m'.
Proof.
  intros Hn Hc. destruct (certo_val _ _ (lz4_blocco_salvo src n dst cap Hn Hc m)) as ([r m'] & E & H). by exists r, m'.
Qed.

Lemma lz4_blocco_safe_witness :
  exists r m', lz4_blocco (riempi ∅ 0 [255; 255; 255]) 0 3 100 8 = Val (r, m') /\ read8 m' 99 = 0.
Proof.
  destruct (lz4_blocco_safe (riempi ∅ 0 [255; 255; 255]) 0 3 100 8 ltac:(unfold W32; lia) ltac:(unfold W32; lia)) as (r & m' & E & H).
  exists r, m'. split; [exact E|]. rewrite H by lia. vm_compute. reflexivity.
Defined.

(** decoding undoes encoding: for a block that writes sequences of literals
    and copies (overlapping ones included) in the LZ4 format, and a buffer apart
    from it that is large enough, [lz4_blocco] returns the length of the
    expanded data, leaves exactly these data at the buffer, and changes nothing
    outside it. *)
Theorem lz4_blocco_roundtrip m src dst cap ss ult :
  bytes ult -> seqs_ok [] ss -> tiene m src (enc_blocco ss ult) -> Z.of_nat (length (enc_blocco ss ult)) < W32 ->
  0 <= cap < 2 ^ 31 -> (src + Z.of_nat (length (enc_blocco ss ult)) <= dst \/ dst + cap <= src) ->
  Z.of_nat (length (espandi_tutte [] ss ++ ult)) <= cap ->
  exists m', lz4_blocco m src (Z.of_nat (length (enc_blocco ss ult))) dst cap =
    Val (Z.of_nat (length (espandi_tutte [] ss ++ ult)), m') /\
  tiene m' dst (espandi_tutte [] ss ++ ult) /\ same_on (fun x => x < dst \/ dst + cap <= x) m m'.
Proof.
  intros Hu Hs Ht Hn Hc Hd Hl. apply lz4_blocco_tiene; (done || lia || (unfold W32; lia)).
Qed.

Lemma lz4_blocco_roundtrip_witness :
  exists m', lz4_blocco (riempi ∅ 0 blocco_prova) 0 (Z.of_nat (length blocco_prova)) 100 9 = Val (9, m') /\
  tiene m' 100 [97; 98; 97; 98; 97; 98; 97; 98; 99].
Proof.
  destruct (lz4_blocco_roundtrip (riempi ∅ 0 blocco_prova) 0 100 9 [mkSeq [97; 98] 2 6] [99]) as (m' & E & Ht & _).
  - repeat constructor; lia.
  - split; [|exact I]. split; [repeat constructor; lia|]. cbn. lia.
  - intros i x Hi. change (enc_blocco [mkSeq [97; 98] 2 6] [99]) with [34; 97; 98; 2; 0; 16; 99] in Hi.
    do 7 (destruct i as [|i]; [injection Hi as <-; vm_compute; reflexivity|]). discriminate Hi.
  - vm_compute. reflexivity.
  - lia.
  - left. vm_compute. discriminate.
  - vm_compute. discriminate.
  - exists m'. split; [exact E|exact Ht].
Defined.

(** ** The boot disk *)

Definition RD_FINE : Z := RD_ESPANSO + RD_ESPANSO_MAX.

Lemma misure_ok info orig comp :
  0 <= rb_addr info -> 16 <= rb_byte info -> rb_addr info + rb_byte info < W32 ->
  misure_impossibili info orig comp = false <->
  comp <= rb_byte info - 16 /\ orig <> 0 /\ orig <= RD_ESPANSO_MAX /\
  (u32 (RD_ESPANSO + orig) <= rb_addr info \/ rb_addr info + rb_byte info <= RD_ESPANSO).
Proof.
  intros H1 H2 H3. unfold misure_impossibili. rewrite (u32_small (rb_byte info - 16)), (u32_small (rb_addr info + _)) by lia.
  rewrite !orb_false_iff, andb_false_iff, !Z.ltb_ge, Z.eqb_neq. tauto.
Qed.

(** The file: a header of four words, then the block. *)
Definition immagine (ss : list Sequenza) (ult : list Z) : list Z :=
  let out := espandi_tutte [] ss ++ ult in
  le4 EXLZ_FIRMA ++ le4 (Z.of_nat (length out)) ++ le4 (Z.of_nat (length (enc_blocco ss ult))) ++ le4 (u32 (somma_di out)) ++
  enc_blocco ss ult.

(** A compressed disk, well formed and out of the way. *)
Record file_buono (m : gmap Z Z) (info : BootInfo) (ss : list Sequenza) (ult : list Z) : Prop := mkBuono {
  fb_addr : 0 < rb_addr info;
  fb_firma : rb_firma info = RB_FIRMA;
  fb_byte : bytes ult;
  fb_seq : seqs_ok [] ss;
  fb_mem : tiene m (rb_addr info) (immagine ss ult);
  fb_len : Z.of_nat (length (immagine ss ult)) <= rb_byte info;
  fb_out : 0 < Z.of_nat (length (espandi_tutte [] ss ++ ult)) <= RD_ESPANSO_MAX;
  fb_apart : RD_ESPANSO + Z.of_nat (length (espandi_tutte [] ss ++ ult)) <= rb_addr info \/ rb_addr info + rb_byte info <= RD_ESPANSO
}.

Lemma length_le4 v : length (le4 v) = 4%nat.
Proof. done. Qed.

(** A disk whose header tells the truth is expanded. *)
Lemma rd_decomprimi_espande m info ss ult :
  let out := espandi_tutte [] ss ++ ult in
  0 < rb_addr info -> rb_addr info + rb_byte info < W32 -> rb_firma info = RB_FIRMA ->
  bytes ult -> seqs_ok [] ss -> tiene m (rb_addr info) (immagine ss ult) ->
  Z.of_nat (length (immagine ss ult)) <= rb_byte info -> 0 < Z.of_nat (length out) <= RD_ESPANSO_MAX ->
  (RD_ESPANSO + Z.of_nat (length out) <= rb_addr info \/ rb_addr info + rb_byte info <= RD_ESPANSO) ->
  exists m', rd_decomprimi m info = Val (m', set_rb RD_ESPANSO (Z.of_nat (length out)) info) /\ tiene m' RD_ESPANSO out.
Proof.
  intros out H1 H2 Hf Hu Hs Ht Hl Ho Hd. unfold immagine in Ht, Hl. fold out in Ht, Hl. rewrite !length_app, !length_le4 in Hl.
  set (s := rb_addr info) in *. set (b := enc_blocco ss ult) in *. set (orig := Z.of_nat (length out)) in *. set (comp := Z.of_nat (length b)) in *.
  assert (Hmax : RD_ESPANSO + RD_ESPANSO_MAX < W32) by reflexivity.
  assert (Hpos : 0 < RD_ESPANSO_MAX /\ 0 < RD_ESPANSO) by (split; reflexivity).
  apply tiene_app in Ht as [T0 Ht]. apply tiene_app in Ht as [T1 Ht]. apply tiene_app in Ht as [T2 Ht]. apply tiene_app in Ht as [T3 Tb].
  rewrite !length_le4 in *. change (Z.of_nat 4) with 4 in *.
  replace (s + 4 + 4) with (s + 8) in * by lia. replace (s + 8 + 4) with (s + 12) in * by lia. replace (s + 12 + 4) with (s + 16) in * by lia.
  unfold rd_decomprimi. fold s. rewrite Hf, Z.eqb_refl. cbn [negb]. rewrite (proj2 (Z.eqb_neq s 0)), (proj2 (Z.ltb_ge _ 16)) by lia. cbn [orb].
  rewrite (le32_tiene m s EXLZ_FIRMA) by (done || (split; [discriminate|reflexivity])). rewrite Z.eqb_refl. cbn [negb].
  rewrite (le32_tiene m (s + 4) orig) by (done || lia). rewrite (le32_tiene m (s + 8) comp) by (done || lia).
  rewrite (proj2 (misure_ok info orig comp ltac:(lia) ltac:(lia) H2)) by (fold s; rewrite u32_small by lia; lia).
  destruct (lz4_blocco_tiene (s + 16) comp RD_ESPANSO orig ltac:(lia) ltac:(lia) ltac:(lia) ss ult m) as (m' & E & Ht' & Hm');
    [done|done|done|done|fold out; lia|unfold RD_ESPANSO_MAX in *; lia|].
  rewrite E. cbn [mbind esito_bind]. fold out orig. unfold s32. rewrite (proj2 (Z.ltb_lt orig _)), Z.eqb_refl by (unfold RD_ESPANSO_MAX in *; lia). cbn [negb].
  assert (Esum : somma_byte (Z.to_nat orig) m' RD_ESPANSO 0 0 = u32 (somma_di out)).
  { unfold orig. rewrite Nat2Z.id. change 0 with (u32 0) at 2. rewrite (somma_byte_tiene out m' RD_ESPANSO 0 0); [done|by rewrite Z.add_0_r]. }
  rewrite Esum, (le32_tiene m' (s + 12) (u32 (somma_di out))); [|apply u32_range|].
  - rewrite Z.eqb_refl. exists m'. done.
  - apply (tiene_same _ _ _ _ _ Hm'); [|done]. intros x Hx. rewrite length_le4 in Hx. unfold fuori_dst. lia.
Qed.

Lemma rd_decomprimi_esiti m info :
  0 <= rb_addr info -> 0 <= rb_byte info -> rb_addr info + rb_byte info < W32 ->
  exists m' info', rd_decomprimi m info = Val (m', info') /\
  same_on (fun x => x < RD_ESPANSO \/ RD_FINE <= x) m m' /\
  (info' = info /\ m' = m \/ info' = set_rb 0 0 info \/
   exists orig, info' = set_rb RD_ESPANSO orig info /\ 0 < orig <= RD_ESPANSO_MAX /\ orig = le32 m (rb_addr info + 4) /\
   somma_byte (Z.to_nat orig) m' RD_ESPANSO 0 0 = le32 m (rb_addr info + 12)).
Proof.
  intros H1 H2 H3. unfold rd_decomprimi.
  destruct (negb _); [exists m, info; split; [done|]; split; [apply same_on_refl|by left]|].
  destruct (Z.eqb_spec (rb_addr info) 0); [exists m, info; split; [done|]; split; [apply same_on_refl|by left]|].
  destruct (Z.ltb_spec (rb_byte info) 16); [exists m, info; split; [done|]; split; [apply same_on_refl|by left]|]. cbn [orb].
  destruct (negb _); [exists m, info; split; [done|]; split; [apply same_on_refl|by left]|].
  set (orig := le32 m (rb_addr info + 4)). set (comp := le32 m (rb_addr info + 8)).
  assert (Ho : 0 <= orig < W32) by (unfold orig; rewrite le32_read32; apply read32_range).
  assert (Hco : 0 <= comp < W32) by (unfold comp; rewrite le32_read32; apply read32_range).
  destruct (misure_impossibili info orig comp) eqn:Em.
  { exists m, (senza info). split; [done|]. split; [apply same_on_refl|by right; left]. }
  apply misure_ok in Em as (Hc1 & Hc2 & Hc3 & Hc4); [|done|lia|done].
  rewrite u32_small in Hc4 by (unfold RD_ESPANSO, RD_ESPANSO_MAX, W32 in *; lia).
  destruct (certo_val _ _ (lz4_blocco_salvo (rb_addr info + 16) comp RD_ESPANSO orig Hco Ho m)) as ([r m'] & -> & Hs). cbn [mbind esito_bind].
  assert (Hout : same_on (fun x => x < RD_ESPANSO \/ RD_FINE <= x) m m').
  { eapply same_on_weaken; [|exact Hs]. unfold fuori_dst, RD_FINE. lia. }
  destruct (negb (r =? s32 orig)); [exists m', (senza info); split; [done|]; split; [done|by right; left]|].
  destruct (Z.eqb_spec (somma_byte (Z.to_nat orig) m' RD_ESPANSO 0 0) (le32 m' (rb_addr info + 12))) as [Es|_]; cbn [negb];
    [|exists m', (senza info); split; [done|]; split; [done|by right; left]].
  exists m', (set_rb RD_ESPANSO orig info). split; [done|]. split; [done|]. right. right. exists orig. split; [done|]. split; [lia|].
  split; [done|]. rewrite Es, !le32_read32. apply read32_same. intros x Hx. apply Hs. unfold fuori_dst. lia.
Qed.

(** C32: [rd_decomprimi] always returns and writes only the area of the expanded
    disk; the boot information is unchanged, or says that there is no disk, or
    names the expanded disk, and then the data there have the size and the sum
    of the header.  A file whose header tells the truth about the block that
    follows it, placed apart from that area, is expanded to its data. *)
Theorem rd_decomprimi_correct m info :
  0 <= rb_addr info -> 0 <= rb_byte info -> rb_addr info + rb_byte info < W32 ->
  exists m' info', rd_decomprimi m info = Val (m', info') /\
  same_on (fun x => x < RD_ESPANSO \/ RD_FINE <= x) m m' /\
  (info' = info /\ m' = m \/ info' = set_rb 0 0 info \/
   exists orig, info' = set_rb RD_ESPANSO orig info /\ 0 < orig <= RD_ESPANSO_MAX /\ orig = le32 m (rb_addr info + 4) /\
   somma_byte (Z.to_nat orig) m' RD_ESPANSO 0 0 = le32 m (rb_addr info + 12)) /\
  (forall ss ult, file_buono m info ss ult ->
   info' = set_rb RD_ESPANSO (Z.of_nat (length (espandi_tutte [] ss ++ ult))) info /\ tiene m' RD_ESPANSO (espandi_tutte [] ss ++ ult)).
Proof.
  intros H1 H2 H3. destruct (rd_decomprimi_esiti m info H1 H2 H3) as (m' & i & E & Hs & Hc).
  exists m', i. split; [done|]. split; [done|]. split; [done|]. intros ss ult [].
  destruct (rd_decomprimi_espande m info ss ult) as (m2 & E2 & Ht); try done. rewrite E in E2. by injection E2 as -> ->.
Qed.

Definition info_prova : BootInfo := mkBootInfo 0 0 0 [] 0 0 RB_FIRMA 4096 39.

Lemma rd_decomprimi_correct_witness :
  exists m', rd_decomprimi (riempi ∅ 4096 (immagine [mkSeq [97; 98] 2 6] [99])) info_prova = Val (m', set_rb RD_ESPANSO 9 info_prova) /\
  read8 m' 4096 = 69 /\ tiene m' RD_ESPANSO [97; 98; 97; 98; 97; 98; 97; 98; 99].
Proof.
  destruct (rd_decomprimi_correct (riempi ∅ 4096 (immagine [mkSeq [97; 98] 2 6] [99])) info_prova
    ltac:(cbn; lia) ltac:(cbn; lia) ltac:(vm_compute; reflexivity)) as (m' & i & E & Hs & _ & Hb).
  destruct (Hb [mkSeq [97; 98] 2 6] [99]) as [-> Ht].
  { split; [reflexivity|reflexivity|repeat constructor; lia| | |vm_compute; discriminate|split; [reflexivity|vm_compute; discriminate]|right; vm_compute; discriminate].
    - split; [|exact I]. split; [repeat constructor; lia|]. cbn. lia.
    - set (l := immagine _ _). vm_compute in l. intros n x Hn. subst l.
      do 23 (destruct n as [|n]; [injection Hn as <-; vm_compute; reflexivity|]). discriminate Hn. }
  exists m'. split; [exact E|]. split; [rewrite Hs by (unfold RD_ESPANSO; lia); vm_compute; reflexivity|exact Ht].
Defined.
