(* ===== verification/Exbig.v ===== *)
(** * Long integers and Montgomery exponentiation (lib/exbig/exbig.c)

    A number is [n] significant words of 32 bits out of [EXBIG_PAROLE], the
    least significant first.  The functions that write a whole result build it
    from a zeroed array: every one of its words is assigned.  Loops over word
    indices are structural recursions on the number of turns left. *)

From S2P Require Import Prelude.

Definition EXBIG_PAROLE : nat := 128.

Record ExBig : Type := mkBig { bn : nat; bp : list Z }.

Definition parola (l : list Z) (i : nat) : Z := nth i l 0.

(** [i < a->n ? a->p[i] : 0] *)
Definition parola_se (a : ExBig) (i : nat) : Z := if (i <? bn a)%nat then parola (bp a) i else 0.

Definition zeri : list Z := replicate EXBIG_PAROLE 0.

(** ** Elementary operations *)

Fixpoint conta_parole (n : nat) (p : list Z) : nat :=
  match n with
  | O => O
  | S k => if parola p k =? 0 then conta_parole k p else n
  end.

Definition normalizza (a : ExBig) : ExBig := mkBig (conta_parole (bn a) (bp a)) (bp a).

Definition exbig_zero : ExBig := mkBig 0 zeri.

Definition exbig_da_parola (v : Z) : ExBig :=
  if v =? 0 then exbig_zero else mkBig 1 (<[0%nat := v]> zeri).

Definition exbig_e_zero (a : ExBig) : bool := (bn a =? 0)%nat.

Fixpoint cmp_parole (i : nat) (a b : list Z) : Z :=
  match i with
  | O => 0
  | S k => if negb (parola a k =? parola b k) then (if parola b k <? parola a k then 1 else -1)
           else cmp_parole k a b
  end.

Definition exbig_cmp (a b : ExBig) : Z :=
  if negb (bn a =? bn b)%nat then (if (bn b <? bn a)%nat then 1 else -1)
  else cmp_parole (bn a) (bp a) (bp b).

(** [while (alta) { b++; alta >>= 1; }]: at most 32 turns for a word. *)
Fixpoint bit_di (k : nat) (alta : Z) (b : Z) : Z :=
  match k with
  | O => b
  | S k => if alta =? 0 then b else bit_di k (Z.shiftr alta 1) (b + 1)
  end.

Definition exbig_bit (a : ExBig) : Z :=
  if (bn a =? 0)%nat then 0
  else Z.of_nat (bn a - 1) * 32 + bit_di 32 (parola (bp a) (bn a - 1)) 0.

(** ** Bytes, the most significant first *)

(** [while (len > 0 && b[0] == 0) { b++; len--; }] *)
Fixpoint senza_zeri (b : list Z) : list Z :=
  match b with
  | [] => []
  | x :: b' => if x =? 0 then senza_zeri b' else b
  end.

Fixpoint da_byte_loop (b : list Z) (p : list Z) : list Z :=
  match b with
  | [] => p
  | x :: b' =>
      let pos := length b' in
      let w := (pos / 4)%nat in
      da_byte_loop b' (<[w := Z.lor (parola p w) (u32 (Z.shiftl x (Z.of_nat (pos mod 4) * 8)))]> p)
  end.

(** [None] is the return of -1. *)
Definition exbig_da_byte (b : list Z) : option ExBig :=
  let b := senza_zeri b in
  if (EXBIG_PAROLE * 4 <? length b)%nat then None
  else Some (normalizza (mkBig ((length b + 3) / 4) (da_byte_loop b zeri))).

Fixpoint a_byte_loop (a : ExBig) (len : nat) : list Z :=
  match len with
  | O => []
  | S pos =>
      (if (pos / 4 <? bn a)%nat
       then Z.shiftr (parola (bp a) (pos / 4)) (Z.of_nat (pos mod 4) * 8) mod 256 else 0) :: a_byte_loop a pos
  end.

Definition exbig_a_byte (a : ExBig) (len : nat) : option (list Z) :=
  if Z.of_nat len <? (exbig_bit a + 7) / 8 then None else Some (a_byte_loop a len).

(** ** Addition and subtraction *)

Fixpoint somma_loop (k i : nat) (t : Z) (a b : ExBig) (r : list Z) : Z * list Z :=
  match k with
  | O => (t, r)
  | S k =>
      let t := u64 (t + (parola_se a i + parola_se b i)) in
      somma_loop k (S i) (Z.shiftr t 32) a b (<[i := u32 t]> r)
  end.

Definition somma (a b : ExBig) : Z * ExBig :=
  let n := if (bn b <? bn a)%nat then bn a else bn b in
  let '(t, r) := somma_loop n 0 0 a b zeri in
  if negb (t =? 0) && (n <? EXBIG_PAROLE)%nat
  then (0, normalizza (mkBig (S n) (<[n := u32 t]> r)))
  else (u32 t, normalizza (mkBig n r)).

(** The loop of [sottrai] and of [togli_m]: [s] holds the words of the minuend
    and receives those of the difference. *)
Fixpoint sottrai_loop (k i : nat) (prestito : Z) (b : ExBig) (s : list Z) : list Z :=
  match k with
  | O => s
  | S k =>
      let t := u64 (parola s i - parola_se b i - prestito) in
      sottrai_loop k (S i) (Z.land (Z.shiftr t 32) 1) b (<[i := u32 t]> s)
  end.

Definition sottrai (a b : ExBig) : ExBig :=
  normalizza (mkBig (bn a) (sottrai_loop (bn a) 0 0 b (take (bn a) (bp a) ++ drop (bn a) zeri))).

Definition togli_m (r m : ExBig) (n : nat) : ExBig :=
  normalizza (mkBig n (sottrai_loop n 0 0 m (bp r))).

(** ** Montgomery *)

Fixpoint newton (k : nat) (m x : Z) : Z :=
  match k with
  | O => x
  | S k => newton k m (u32 (x * u32 (2 - u32 (m * x))))
  end.

Definition n0_inverso (m : Z) : Z := u32 (0 - newton 5 m m).

(** [t[j] += a[j] * x + riporto] for [k] words from [j]. *)
Fixpoint mac_loop (k j : nat) (x riporto : Z) (a t : list Z) : Z * list Z :=
  match k with
  | O => (riporto, t)
  | S k =>
      let s := u64 (parola t j + parola a j * x + riporto) in
      mac_loop k (S j) x (Z.shiftr s 32) a (<[j := u32 s]> t)
  end.

(** [t += a * x] on [n] words, the carry into the two words above. *)
Definition mac (n : nat) (x : Z) (a t : list Z) : list Z :=
  let '(riporto, t) := mac_loop n 0 x 0 a t in
  let s := u64 (parola t n + riporto) in
  let t := <[n := u32 s]> t in
  <[S n := u32 (parola t (S n) + u32 (Z.shiftr s 32))]> t.

(** [for (j = 0; j <= n; j++) t[j] = t[j + 1]; t[n + 1] = 0;] *)
Fixpoint scorri_loop (k j : nat) (t : list Z) : list Z :=
  match k with
  | O => t
  | S k => scorri_loop k (S j) (<[j := parola t (S j)]> t)
  end.

Definition scorri (n : nat) (t : list Z) : list Z := <[S n := 0]> (scorri_loop (S n) 0 t).

Fixpoint mont_loop (k i : nat) (a b m : ExBig) (n0 : Z) (n : nat) (t : list Z) : list Z :=
  match k with
  | O => t
  | S k =>
      let t := mac n (parola_se b i) (bp a) t in
      let u := u32 (u64 (parola t 0 * n0)) in
      let t := mac n u (bp m) t in
      mont_loop k (S i) a b m n0 n (scorri n t)
  end.

Definition mont_mul (a b m : ExBig) (n0 : Z) (n : nat) : ExBig :=
  let t := mont_loop n 0 a b m n0 n (replicate (EXBIG_PAROLE + 2) 0) in
  let r := normalizza (mkBig n (take n t ++ drop n zeri)) in
  if negb (parola t n =? 0) then togli_m r m n
  else if 0 <=? exbig_cmp r m then sottrai r m else r.

Fixpoint raddoppia (k : nat) (rr m : ExBig) (n : nat) : ExBig :=
  match k with
  | O => rr
  | S k =>
      let '(riporto, d) := somma rr rr in
      let rr := if negb (riporto =? 0) then togli_m d m n
                else if 0 <=? exbig_cmp d m then sottrai d m else d in
      raddoppia k rr m n
  end.

Definition erre_quadro (m : ExBig) (n : nat) : ExBig := raddoppia (64 * n) (exbig_da_parola 1) m n.

(** ** Modular exponentiation *)

Definition bit_esponente (e : ExBig) (j : nat) : bool :=
  negb (Z.land (Z.shiftr (parola (bp e) (j / 32)) (Z.of_nat (j mod 32))) 1 =? 0).

Fixpoint potenza_loop (i : nat) (acc x e m : ExBig) (n0 : Z) (n : nat) : ExBig :=
  match i with
  | O => acc
  | S j =>
      let acc := mont_mul acc acc m n0 n in
      let acc := if bit_esponente e j then mont_mul acc x m n0 n else acc in
      potenza_loop j acc x e m n0 n
  end.

(** Zero, even, or too large. *)
Definition modulo_no (m : ExBig) : bool :=
  (bn m =? 0)%nat || (Z.land (parola (bp m) 0) 1 =? 0) || (EXBIG_PAROLE <? bn m)%nat.

Definition exbig_modexp (base e m : ExBig) : option ExBig :=
  if modulo_no m then None
  else if 0 <=? exbig_cmp base m then None
  else
    let n := bn m in
    let n0 := n0_inverso (parola (bp m) 0) in
    if (bn e =? 0)%nat then
      let r := exbig_da_parola 1 in
      Some (if 0 <=? exbig_cmp r m then exbig_zero else r)
    else
      let rr := erre_quadro m n in
      let x := mont_mul base rr m n0 n in
      let uno := exbig_da_parola 1 in
      let acc := mont_mul uno rr m n0 n in
      let acc := potenza_loop (Z.to_nat (exbig_bit e)) acc x e m n0 n in
      Some (mont_mul acc uno m n0 n).

(** ** A prepared modulus *)

Record ExBigMod : Type := mkMod { mm : ExBig; mrr : ExBig; mn0 : Z; mn : nat }.

Definition exbig_mod_prepara (m : ExBig) : option ExBigMod :=
  if modulo_no m then None
  else Some (mkMod m (erre_quadro m (bn m)) (n0_inverso (parola (bp m) 0)) (bn m)).

Definition exbig_mod_mul (a b : ExBig) (c : ExBigMod) : ExBig :=
  let t := mont_mul a b (mm c) (mn0 c) (mn c) in
  mont_mul t (mrr c) (mm c) (mn0 c) (mn c).

Definition exbig_mod_add (a b : ExBig) (c : ExBigMod) : ExBig :=
  let '(_, r) := somma a b in
  if 0 <=? exbig_cmp r (mm c) then sottrai r (mm c) else r.

Definition exbig_mod_sub (a b : ExBig) (c : ExBigMod) : ExBig :=
  normalizza (if 0 <=? exbig_cmp a b then sottrai a b
              else let '(_, t) := somma a (mm c) in sottrai t b).
