(* ===== verification/ExbigSpec.v ===== *)
(** * Long integers: the value of a number, and the elementary operations on it

    [pv l k] is the value of the first [k] words of [l].  A number [big_ok] has
    its words in range, zero above the significant ones, and no leading zero
    word; its value is [big]. *)

From S2P Require Import Prelude Exbig.

(** ** Values of word sequences *)

Fixpoint pv (l : list Z) (k : nat) : Z :=
  match k with
  | O => 0
  | S k => pv l k + W32 ^ Z.of_nat k * parola l k
  end.

Definition words (l : list Z) : Prop := Forall (fun w => 0 <= w < W32) l.

Lemma W32_pos : 0 < W32.
Proof. reflexivity. Qed.

Lemma Wpow_pos k : 0 < W32 ^ Z.of_nat k.
Proof. apply Z.pow_pos_nonneg; [reflexivity|lia]. Qed.

Lemma Wpow_S k : W32 ^ Z.of_nat (S k) = W32 * W32 ^ Z.of_nat k.
Proof. rewrite Nat2Z.inj_succ, Z.pow_succ_r by lia. reflexivity. Qed.

Lemma Wpow_add a b : W32 ^ Z.of_nat (a + b) = W32 ^ Z.of_nat a * W32 ^ Z.of_nat b.
Proof. rewrite Nat2Z.inj_add, Z.pow_add_r by lia. reflexivity. Qed.

Lemma parola_range l i : words l -> 0 <= parola l i < W32.
Proof.
  intros H. unfold parola. rewrite nth_lookup. destruct (l !! i) as [w|] eqn:E; cbn; [|split; [lia|reflexivity]].
  eapply Forall_lookup_1 in H; [|exact E]. exact H.
Qed.

Lemma parola_insert l i v j :
  (i < length l)%nat -> parola (<[i := v]> l) j = if decide (j = i) then v else parola l j.
Proof.
  intros Hi. unfold parola. rewrite !nth_lookup. destruct (decide (j = i)) as [->|].
  - by rewrite list_lookup_insert_eq.
  - by rewrite list_lookup_insert_ne.
Qed.

Lemma words_insert l i v : words l -> 0 <= v < W32 -> words (<[i := v]> l).
Proof. intros H Hv. by apply Forall_insert. Qed.

Lemma words_u32 l i v : words l -> words (<[i := u32 v]> l).
Proof. intros H. apply words_insert; [done|]. apply u32_range. Qed.

Lemma pv_range l k : words l -> 0 <= pv l k < W32 ^ Z.of_nat k.
Proof.
  intros H. induction k as [|k IH]; cbn [pv]; [cbn; lia|]. rewrite Wpow_S.
  pose proof (parola_range l k H). pose proof (Wpow_pos k). unfold W32 in *. nia.
Qed.

Lemma pv_ext l l' k : (forall j, (j < k)%nat -> parola l j = parola l' j) -> pv l k = pv l' k.
Proof.
  induction k as [|k IH]; intros H; cbn [pv]; [done|]. rewrite IH by (intros; apply H; lia). by rewrite H by lia.
Qed.

Lemma pv_insert_above l i v k : (i < length l)%nat -> (k <= i)%nat -> pv (<[i := v]> l) k = pv l k.
Proof. intros Hi Hk. apply pv_ext. intros j Hj. by rewrite parola_insert, decide_False by lia. Qed.

Lemma pv_insert_at l i v k :
  (i < length l)%nat -> (i < k)%nat -> pv (<[i := v]> l) k = pv l k + W32 ^ Z.of_nat i * (v - parola l i).
Proof.
  intros Hi. induction k as [|k IH]; intros Hk; [lia|]. cbn [pv]. rewrite parola_insert by done.
  destruct (decide (k = i)) as [->|Hne]; [rewrite pv_insert_above by lia|rewrite IH by lia]; lia.
Qed.

Lemma pv_zero_tail l k n : (k <= n)%nat -> (forall j, (k <= j < n)%nat -> parola l j = 0) -> pv l n = pv l k.
Proof.
  intros Hk. induction n as [|n IH]; intros H.
  - by replace k with 0%nat by lia.
  - destruct (decide (k = S n)) as [->|]; [done|]. cbn [pv]. rewrite H, IH by (lia || (intros; apply H; lia)). lia.
Qed.

Lemma parola_zeri j : parola zeri j = 0.
Proof.
  unfold parola, zeri. rewrite nth_lookup. destruct (replicate _ _ !! j) as [w|] eqn:E; [|done].
  by apply lookup_replicate in E as [-> _].
Qed.

Lemma pv_zeri k : pv zeri k = 0.
Proof. induction k; cbn [pv]; [done|]. rewrite parola_zeri. lia. Qed.

Lemma words_zeri : words zeri.
Proof. apply Forall_replicate. split; [lia|reflexivity]. Qed.

(** ** Numbers *)

Record big_ok (a : ExBig) : Prop := mkOk {
  bk_len : length (bp a) = EXBIG_PAROLE;
  bk_n : (bn a <= EXBIG_PAROLE)%nat;
  bk_words : words (bp a);
  bk_zero : forall i, (bn a <= i)%nat -> parola (bp a) i = 0;
  bk_top : (0 < bn a)%nat -> parola (bp a) (bn a - 1) <> 0
}.

Definition big (a : ExBig) : Z := pv (bp a) (bn a).

Lemma big_pv a n : big_ok a -> (bn a <= n)%nat -> pv (bp a) n = big a.
Proof. intros H Hn. apply pv_zero_tail; [done|]. intros j Hj. apply H. lia. Qed.

Lemma big_range a : big_ok a -> 0 <= big a < W32 ^ Z.of_nat (bn a).
Proof. intros H. apply pv_range, H. Qed.

(** The top word is not zero: the size of a number tells its magnitude. *)
Lemma big_low a : big_ok a -> (0 < bn a)%nat -> W32 ^ Z.of_nat (bn a - 1) <= big a.
Proof.
  intros H Hn. unfold big. destruct (bn a) as [|k] eqn:E; [lia|]. cbn [pv].
  pose proof (bk_top _ H) as Ht. rewrite E in Ht. replace (S k - 1)%nat with k in * by lia. specialize (Ht Hn).
  pose proof (parola_range (bp a) k (bk_words _ H)). pose proof (pv_range (bp a) k (bk_words _ H)).
  pose proof (Wpow_pos k). nia.
Qed.

Lemma parola_se_ok a i : big_ok a -> parola_se a i = parola (bp a) i.
Proof. intros H. unfold parola_se. destruct (Nat.ltb_spec i (bn a)); [done|]. symmetry. by apply H. Qed.

Lemma conta_parole_spec n p :
  (conta_parole n p <= n)%nat /\ (forall i, (conta_parole n p <= i < n)%nat -> parola p i = 0) /\
  ((0 < conta_parole n p)%nat -> parola p (conta_parole n p - 1) <> 0).
Proof.
  induction n as [|n (H1 & H2 & H3)]; cbn [conta_parole]; [repeat split; lia|].
  destruct (Z.eqb_spec (parola p n) 0) as [E|E].
  - split; [lia|]. split; [|done]. intros i Hi. destruct (decide (i = n)) as [->|]; [done|]. apply H2. lia.
  - split; [lia|]. split; [lia|]. intros _. by replace (S n - 1)%nat with n by lia.
Qed.

(** [normalizza] of an array that is zero above [n]. *)
Lemma normalizza_ok n p :
  length p = EXBIG_PAROLE -> (n <= EXBIG_PAROLE)%nat -> words p -> (forall i, (n <= i)%nat -> parola p i = 0) ->
  big_ok (normalizza (mkBig n p)) /\ big (normalizza (mkBig n p)) = pv p n.
Proof.
  intros Hl Hn Hw Hz. destruct (conta_parole_spec n p) as (H1 & H2 & H3). unfold normalizza. cbn. split.
  - split; cbn; [done|lia|done| |done]. intros i Hi. destruct (decide (i < n)%nat); [apply H2; lia|apply Hz; lia].
  - unfold big. cbn. symmetry. apply pv_zero_tail; [done|]. intros j Hj. by apply H2.
Qed.

Lemma zero_ok : big_ok exbig_zero /\ big exbig_zero = 0.
Proof.
  split; [|done]. split; [done|cbn; lia|apply words_zeri|intros; apply parola_zeri|cbn; lia].
Qed.

Lemma da_parola_ok v : 0 <= v < W32 -> big_ok (exbig_da_parola v) /\ big (exbig_da_parola v) = v.
Proof.
  intros Hv. unfold exbig_da_parola. destruct (Z.eqb_spec v 0) as [->|E]; [apply zero_ok|].
  assert (Hl : (0 < length zeri)%nat) by (unfold zeri; rewrite length_replicate; unfold EXBIG_PAROLE; lia). split.
  - split; cbn [bn bp].
    + rewrite length_insert. apply length_replicate.
    + unfold EXBIG_PAROLE. lia.
    + by apply words_insert; [apply words_zeri|].
    + intros i Hi. rewrite parola_insert, decide_False by lia. apply parola_zeri.
    + intros _. by rewrite parola_insert, decide_True by done.
  - unfold big. cbn [bn bp pv]. rewrite parola_insert, decide_True by done. cbn. lia.
Qed.

Lemma big_zero_iff a : big_ok a -> big a = 0 <-> bn a = 0%nat.
Proof.
  intros H. split; [|unfold big; by intros ->]. intros E. destruct (bn a) as [|k] eqn:En; [done|].
  pose proof (big_low a H ltac:(lia)) as Hl. pose proof (Wpow_pos (bn a - 1)). lia.
Qed.

(** ** Comparison *)

Lemma cmp_parole_spec i a b :
  words a -> words b ->
  cmp_parole i a b = (if pv b i <? pv a i then 1 else if pv a i <? pv b i then -1 else 0).
Proof.
  intros Ha Hb. induction i as [|k IH]; cbn [cmp_parole pv]; [done|].
  pose proof (parola_range a k Ha). pose proof (parola_range b k Hb).
  pose proof (pv_range a k Ha). pose proof (pv_range b k Hb). pose proof (Wpow_pos k).
  destruct (Z.eqb_spec (parola a k) (parola b k)) as [E|E]; cbn [negb].
  - rewrite IH, E. repeat bcase; lia.
  - destruct (Z.ltb_spec (parola b k) (parola a k)).
    + rewrite (proj2 (Z.ltb_lt _ _)) by nia. done.
    + rewrite (proj2 (Z.ltb_ge _ _)) by nia. by rewrite (proj2 (Z.ltb_lt _ _)) by nia.
Qed.

Lemma size_lt a b : big_ok a -> big_ok b -> (bn a < bn b)%nat -> big a < big b.
Proof.
  intros Ha Hb Hn. pose proof (big_range a Ha). pose proof (big_low b Hb ltac:(lia)).
  assert (W32 ^ Z.of_nat (bn a) <= W32 ^ Z.of_nat (bn b - 1)); [|lia].
  apply Z.pow_le_mono_r; [reflexivity|lia].
Qed.

Lemma exbig_cmp_spec a b :
  big_ok a -> big_ok b -> exbig_cmp a b = (if big b <? big a then 1 else if big a <? big b then -1 else 0).
Proof.
  intros Ha Hb. unfold exbig_cmp. destruct (Nat.eqb_spec (bn a) (bn b)) as [E|E]; cbn [negb].
  - rewrite cmp_parole_spec by (apply Ha || apply Hb). unfold big. by rewrite E.
  - destruct (Nat.ltb_spec (bn b) (bn a)) as [Hlt|Hge].
    + pose proof (size_lt b a Hb Ha Hlt). by rewrite (proj2 (Z.ltb_lt _ _)) by lia.
    + pose proof (size_lt a b Ha Hb ltac:(lia)). rewrite (proj2 (Z.ltb_ge _ _)) by lia.
      by rewrite (proj2 (Z.ltb_lt _ _)) by lia.
Qed.

Lemma cmp_ge a b : big_ok a -> big_ok b -> (0 <=? exbig_cmp a b) = (big b <=? big a).
Proof. intros Ha Hb. rewrite exbig_cmp_spec by done. repeat bcase; lia. Qed.

(** ** Addition *)

Lemma shiftr32 x : Z.shiftr x 32 = x / W32.
Proof. rewrite Z.shiftr_div_pow2 by lia. reflexivity. Qed.

Lemma u32_split x : x = u32 x + W32 * (x / W32).
Proof. unfold u32. pose proof (Z.div_mod x W32 ltac:(discriminate)). lia. Qed.

(** An array of [EXBIG_PAROLE] words. *)
Definition array (r : list Z) : Prop := length r = EXBIG_PAROLE /\ words r.

Lemma array_insert r i v : array r -> array (<[i := u32 v]> r).
Proof. intros [Hl Hw]. split; [by rewrite length_insert|by apply words_u32]. Qed.

Lemma array_zeri : array zeri.
Proof. split; [done|apply words_zeri]. Qed.

Lemma somma_loop_spec k : forall i t a b r,
  big_ok a -> big_ok b -> array r -> (i + k <= EXBIG_PAROLE)%nat -> 0 <= t <= 1 ->
  let '(t', r') := somma_loop k i t a b r in
  array r' /\ 0 <= t' <= 1 /\ (forall j, (i + k <= j)%nat -> parola r' j = parola r j) /\
  pv r' (i + k) + W32 ^ Z.of_nat (i + k) * t' =
    pv r i + W32 ^ Z.of_nat i * t + (pv (bp a) (i + k) - pv (bp a) i) + (pv (bp b) (i + k) - pv (bp b) i).
Proof.
  induction k as [|k IH]; intros i t a b r Ha Hb Hr Hk Ht; cbn [somma_loop].
  - rewrite Nat.add_0_r. repeat split; [apply Hr|apply Hr|lia|lia|lia].
  - rewrite !parola_se_ok by done.
    pose proof (parola_range _ i (bk_words _ Ha)). pose proof (parola_range _ i (bk_words _ Hb)).
    set (x := t + (parola (bp a) i + parola (bp b) i)).
    rewrite u64_small by (unfold x, W32 in *; lia). rewrite shiftr32.
    assert (Hx : 0 <= x / W32 <= 1) by (unfold x, W32 in *; zdm).
    specialize (IH (S i) (x / W32) a b (<[i := u32 x]> r) Ha Hb (array_insert _ _ _ Hr) ltac:(lia) Hx).
    destruct (somma_loop k (S i) (x / W32) a b (<[i := u32 x]> r)) as [t' r'].
    destruct IH as (H1 & H2 & H3 & H4). replace (i + S k)%nat with (S i + k)%nat by lia.
    assert (Hi : (i < length r)%nat) by (destruct Hr as [-> _]; lia).
    split; [done|]. split; [done|]. split.
    + intros j Hj. rewrite H3, parola_insert, decide_False by lia. done.
    + rewrite H4. cbn [pv]. rewrite parola_insert, decide_True, pv_insert_above by (done || lia).
      rewrite Wpow_S. pose proof (u32_split x). unfold x in *. nia.
Qed.

Lemma somma_ok a b :
  big_ok a -> big_ok b ->
  let '(c, r) := somma a b in
  big_ok r /\ 0 <= c <= 1 /\ big r + W32 ^ Z.of_nat EXBIG_PAROLE * c = big a + big b.
Proof.
  intros Ha Hb. unfold somma. set (n := if (bn b <? bn a)%nat then bn a else bn b).
  assert (Hna : (bn a <= n)%nat) by (unfold n; destruct (Nat.ltb_spec (bn b) (bn a)); lia).
  assert (Hnb : (bn b <= n)%nat) by (unfold n; destruct (Nat.ltb_spec (bn b) (bn a)); lia).
  assert (Hn : (n <= EXBIG_PAROLE)%nat) by (unfold n; destruct (bn b <? bn a)%nat; [apply Ha|apply Hb]).
  pose proof (somma_loop_spec n 0 0 a b zeri Ha Hb array_zeri ltac:(lia) ltac:(lia)) as Hs.
  destruct (somma_loop n 0 0 a b zeri) as [t r]. destruct Hs as ([Hl Hw] & Ht & Hz & Hv). cbn [Nat.add] in *.
  rewrite (big_pv a n Ha Hna), (big_pv b n Hb Hnb) in Hv. cbn [pv] in Hv.
  assert (Hu : u32 t = t) by (apply u32_small; unfold W32; lia).
  destruct (Z.eqb_spec t 0) as [Et|Et]; cbn [negb andb].
  - rewrite Hu. destruct (normalizza_ok n r Hl Hn Hw) as [H1 H2]; [intros i Hi; rewrite Hz by done; apply parola_zeri|].
    split; [done|]. split; [done|]. rewrite H2, Et in *. lia.
  - destruct (Nat.ltb_spec n EXBIG_PAROLE) as [Hlt|Hge].
    + destruct (normalizza_ok (S n) (<[n := u32 t]> r)) as [H1 H2].
      * by rewrite length_insert.
      * lia.
      * by apply words_u32.
      * intros i Hi. rewrite parola_insert, decide_False, Hz, parola_zeri by lia. done.
      * split; [done|]. split; [lia|]. rewrite H2. cbn [pv].
        rewrite pv_insert_above, parola_insert, decide_True, Hu by (done || lia). lia.
    + assert (HnE : n = EXBIG_PAROLE) by lia.
      destruct (normalizza_ok n r Hl Hn Hw) as [H1 H2]; [intros i Hi; rewrite Hz by done; apply parola_zeri|].
      split; [done|]. rewrite Hu. split; [done|]. rewrite H2, <- HnE. lia.
Qed.

(** ** Subtraction *)

Lemma land1 x : Z.land x 1 = x mod 2.
Proof. change 1 with (Z.ones 1) at 1. by rewrite Z.land_ones by lia. Qed.

Lemma borrow_word x y c :
  0 <= x < W32 -> 0 <= y < W32 -> 0 <= c <= 1 ->
  let t := u64 (x - y - c) in
  0 <= Z.land (Z.shiftr t 32) 1 <= 1 /\ u32 t - W32 * Z.land (Z.shiftr t 32) 1 = x - y - c.
Proof.
  intros Hx Hy Hc t. rewrite shiftr32, !land1.
  unfold t, u64, u32. destruct (Z.lt_ge_cases (x - y - c) 0) as [H|H].
  - replace ((x - y - c) mod (W32 * W32)) with (x - y - c + W32 * W32) by
      (apply (Z.mod_unique _ _ (-1)); unfold W32 in *; lia).
    replace ((x - y - c + W32 * W32) / W32) with (W32 - 1) by
      (apply (Z.div_unique _ _ _ (x - y - c + W32)); unfold W32 in *; lia).
    replace ((x - y - c + W32 * W32) mod W32) with (x - y - c + W32) by
      (apply (Z.mod_unique _ _ (W32 - 1)); unfold W32 in *; lia).
    change ((W32 - 1) mod 2) with 1. lia.
  - rewrite (Z.mod_small (x - y - c) (W32 * W32)) by (unfold W32 in *; lia).
    rewrite (Z.div_small (x - y - c)), (Z.mod_small (x - y - c)) by lia. rewrite Z.mod_0_l by lia. lia.
Qed.

Lemma sottrai_loop_spec k : forall i c b s,
  big_ok b -> array s -> (i + k <= EXBIG_PAROLE)%nat -> 0 <= c <= 1 ->
  let s' := sottrai_loop k i c b s in
  array s' /\ (forall j, (i + k <= j)%nat -> parola s' j = parola s j) /\
  exists c', 0 <= c' <= 1 /\
  pv s' (i + k) = pv s (i + k) - (pv (bp b) (i + k) - pv (bp b) i) - W32 ^ Z.of_nat i * c + W32 ^ Z.of_nat (i + k) * c'.
Proof.
  induction k as [|k IH]; intros i c b s Hb Hs Hk Hc; cbn [sottrai_loop].
  - rewrite Nat.add_0_r. split; [done|]. split; [done|]. exists c. lia.
  - rewrite parola_se_ok by done.
    destruct (borrow_word (parola s i) (parola (bp b) i) c) as [Hc' Hv];
      [apply parola_range, Hs|apply parola_range, Hb|done|].
    set (t := u64 (parola s i - parola (bp b) i - c)) in *. set (d := Z.land (Z.shiftr t 32) 1) in *.
    destruct (IH (S i) d b (<[i := u32 t]> s) Hb (array_insert _ _ _ Hs) ltac:(lia) Hc') as (H1 & H2 & c' & H3 & H4).
    replace (i + S k)%nat with (S i + k)%nat by lia.
    assert (Hi : (i < length s)%nat) by (destruct Hs as [-> _]; lia).
    split; [done|]. split.
    + intros j Hj. rewrite H2, parola_insert, decide_False by lia. done.
    + exists c'. split; [done|]. rewrite H4.
      rewrite (pv_insert_at s i _ (S i + k)) by lia. cbn [pv]. rewrite Wpow_S. nia.
Qed.

Lemma parola_app_zeri n l j : (n <= length l)%nat -> (n <= EXBIG_PAROLE)%nat ->
  parola (take n l ++ drop n zeri) j = if decide (j < n)%nat then parola l j else 0.
Proof.
  intros Hn HnE. unfold parola. rewrite !nth_lookup. destruct (decide (j < n)%nat).
  - rewrite lookup_app_l by (rewrite length_take; lia). by rewrite lookup_take, decide_True.
  - rewrite lookup_app_r by (rewrite length_take; lia). rewrite lookup_drop.
    destruct (zeri !! _) as [w|] eqn:E; [|done]. by apply lookup_replicate in E as [-> _].
Qed.

Lemma array_app_zeri n l : (n <= length l)%nat -> (n <= EXBIG_PAROLE)%nat -> words l -> array (take n l ++ drop n zeri).
Proof.
  intros Hn HnE Hw. split.
  - rewrite length_app, length_take, length_drop. change (length zeri) with EXBIG_PAROLE. lia.
  - apply Forall_app. split; [by apply Forall_take|apply Forall_drop, words_zeri].
Qed.

Lemma big_lt_size a b : big_ok a -> big_ok b -> big b <= big a -> (bn b <= bn a)%nat.
Proof. intros Ha Hb H. destruct (decide (bn b <= bn a)%nat); [done|]. pose proof (size_lt a b Ha Hb ltac:(lia)). lia. Qed.

Lemma sottrai_ok a b :
  big_ok a -> big_ok b -> big b <= big a -> big_ok (sottrai a b) /\ big (sottrai a b) = big a - big b.
Proof.
  intros Ha Hb Hle. pose proof (big_lt_size a b Ha Hb Hle) as Hn. pose proof (bk_n _ Ha) as HnE.
  assert (Hla : (bn a <= length (bp a))%nat) by (rewrite (bk_len _ Ha); lia).
  set (s := take (bn a) (bp a) ++ drop (bn a) zeri).
  assert (Hs : array s) by (apply array_app_zeri; [done|done|apply Ha]).
  destruct (sottrai_loop_spec (bn a) 0 0 b s Hb Hs ltac:(lia) ltac:(lia)) as ([Hl Hw] & Hz & c & Hc & Hv).
  cbn [Nat.add] in *. rewrite (big_pv b _ Hb Hn) in Hv. cbn [pv] in Hv.
  assert (Hpv : pv s (bn a) = big a).
  { apply pv_ext. intros j Hj. unfold s. by rewrite parola_app_zeri, decide_True by done. }
  rewrite Hpv in Hv. pose proof (pv_range _ (bn a) Hw) as Hr.
  pose proof (big_range a Ha) as Hra. pose proof (big_range b Hb).
  assert (c = 0) as -> by nia.
  destruct (normalizza_ok (bn a) (sottrai_loop (bn a) 0 0 b s) Hl HnE Hw) as [H1 H2].
  { intros i Hi. rewrite Hz by lia. unfold s. rewrite parola_app_zeri, decide_False by lia. done. }
  split; [exact H1|]. unfold sottrai. fold s. rewrite H2. lia.
Qed.

(** [togli_m]: the number is [W^n + r], and taking [m] away leaves [n] words. *)
Lemma togli_m_ok r m n :
  array (bp r) -> (forall i, (n <= i)%nat -> parola (bp r) i = 0) -> big_ok m -> (bn m <= n <= EXBIG_PAROLE)%nat ->
  W32 ^ Z.of_nat n + pv (bp r) n - big m < W32 ^ Z.of_nat n ->
  big_ok (togli_m r m n) /\ big (togli_m r m n) = W32 ^ Z.of_nat n + pv (bp r) n - big m.
Proof.
  intros Hr Hz Hm Hn Hlt.
  destruct (sottrai_loop_spec n 0 0 m (bp r) Hm Hr ltac:(lia) ltac:(lia)) as ([Hl Hw] & Hz' & c & Hc & Hv).
  cbn [Nat.add] in *. rewrite (big_pv m n Hm) in Hv by lia. cbn [pv] in Hv.
  pose proof (pv_range _ n Hw). assert (c = 1) as -> by nia.
  destruct (normalizza_ok n (sottrai_loop n 0 0 m (bp r)) Hl) as [H1 H2]; [lia|done| |].
  { intros i Hi. rewrite Hz' by lia. by apply Hz. }
  split; [exact H1|]. unfold togli_m. rewrite H2. lia.
Qed.
