(* ===== verification/ExbigMont.v ===== *)
(** * Montgomery multiplication and exponentiation: specification

    The working array holds a number of [n + 2] words.  After [i] words of [b],
    [T * W^i = a * (b mod W^i) + m * q] for some [q], and [T < a + m]: this is
    the invariant of [mont_loop]. *)

From Stdlib Require Import Znumtheory.
From S2P Require Import Prelude Exbig ExbigSpec.

(** ** The inverse of the lowest word, by Newton's iteration *)

Lemma newton_step k m x :
  0 <= k <= 16 -> (2 ^ k | 1 - m * x) -> (2 ^ (2 * k) | 1 - m * u32 (x * u32 (2 - u32 (m * x)))).
Proof.
  intros Hk [q Hq].
  assert (HW : (2 ^ (2 * k) | W32)).
  { exists (2 ^ (32 - 2 * k)). rewrite <- Z.pow_add_r by lia. replace (32 - 2 * k + 2 * k) with 32 by lia. reflexivity. }
  assert (Hu : forall y, (2 ^ (2 * k) | y - u32 y)).
  { intros y. eapply Z.divide_trans; [exact HW|]. exists (y / W32). pose proof (u32_split y). lia. }
  assert (Hmod : forall y z, (2 ^ (2 * k) | y - z) -> forall f, (2 ^ (2 * k) | f * y - f * z)).
  { intros y z H f. replace (f * y - f * z) with (f * (y - z)) by lia. by apply Z.divide_mul_r. }
  assert (H1 : (2 ^ (2 * k) | x * (2 - m * x) - u32 (x * u32 (2 - u32 (m * x))))).
  { replace (x * (2 - m * x) - u32 (x * u32 (2 - u32 (m * x)))) with
      ((x * u32 (2 - u32 (m * x)) - u32 (x * u32 (2 - u32 (m * x)))) +
       x * ((2 - u32 (m * x)) - u32 (2 - u32 (m * x))) + - x * (m * x - u32 (m * x))) by ring.
    apply Z.divide_add_r; [apply Z.divide_add_r|]; [apply Hu|apply Z.divide_mul_r, Hu|apply Z.divide_mul_r, Hu]. }
  replace (1 - m * u32 (x * u32 (2 - u32 (m * x)))) with
    ((1 - m * x) * (1 - m * x) + m * (x * (2 - m * x) - u32 (x * u32 (2 - u32 (m * x))))) by ring.
  apply Z.divide_add_r; [|by apply Z.divide_mul_r]. exists (q * q). rewrite Hq.
  replace (2 * k) with (k + k) by lia. rewrite Z.pow_add_r by lia. ring.
Qed.

(** The number of right bits after a turn. *)
Definition bit_giusti (k : Z) : Z := Z.min (2 * k) 32.

Lemma newton_turn k m x :
  0 <= k <= 32 -> (2 ^ k | 1 - m * x) -> (2 ^ bit_giusti k | 1 - m * u32 (x * u32 (2 - u32 (m * x)))).
Proof.
  intros Hk H. unfold bit_giusti. destruct (Z.le_gt_cases k 16).
  - rewrite Z.min_l by lia. by apply newton_step; [lia|].
  - rewrite Z.min_r by lia. apply (newton_step 16); [lia|]. eapply Z.divide_trans; [|exact H].
    exists (2 ^ (k - 16)). rewrite <- Z.pow_add_r by lia. f_equal. lia.
Qed.

Lemma newton_ok j m : forall k x,
  0 <= k <= 32 -> (2 ^ k | 1 - m * x) -> (2 ^ Nat.iter j bit_giusti k | 1 - m * newton j m x).
Proof.
  induction j as [|j IH]; intros k x Hk H; cbn [newton]; [exact H|].
  rewrite Nat.iter_succ_r. apply IH; [unfold bit_giusti; lia|]. by apply newton_turn.
Qed.

(** For an odd [m], [n0_inverso m] is [-m^-1] modulo [2^32]. *)
Lemma n0_inverso_ok m : 0 <= m < W32 -> Z.odd m = true -> (m * n0_inverso m + 1) mod W32 = 0 /\ 0 <= n0_inverso m < W32.
Proof.
  intros Hm Ho. split; [|apply u32_range]. unfold n0_inverso.
  assert (H3 : (2 ^ 3 | 1 - m * m)).
  { apply Z.odd_spec in Ho as [k ->]. assert (Hk : exists j, k * (k + 1) = 2 * j).
    { destruct (Z.Even_or_Odd k) as [[i ->]|[i ->]]; [exists (i * (2 * i + 1))|exists ((2 * i + 1) * (i + 1))]; ring. }
    destruct Hk as [j Hj]. exists (- j). change (2 ^ 3) with 8. nia. }
  apply (newton_ok 5) in H3 as [q Hq]; [|lia]. change (2 ^ Nat.iter 5 bit_giusti 3) with W32 in Hq.
  set (z := newton 5 m m) in *. pose proof (u32_split (0 - z)) as Hz.
  replace (m * u32 (0 - z) + 1) with ((q - m * ((0 - z) / W32)) * W32) by nia.
  apply Z.mod_mul. discriminate.
Qed.

(** ** The working array *)

Lemma mac_loop_spec k : forall j x c a t,
  words a -> words t -> 0 <= x < W32 -> 0 <= c < W32 -> (j + k <= length t)%nat ->
  let '(c', t') := mac_loop k j x c a t in
  words t' /\ length t' = length t /\ 0 <= c' < W32 /\ (forall i, (j + k <= i)%nat -> parola t' i = parola t i) /\
  pv t' (j + k) + W32 ^ Z.of_nat (j + k) * c' = pv t (j + k) + (pv a (j + k) - pv a j) * x + W32 ^ Z.of_nat j * c.
Proof.
  induction k as [|k IH]; intros j x c a t Ha Ht Hx Hc Hk; cbn [mac_loop].
  - rewrite Nat.add_0_r. repeat split; try done; try lia.
  - pose proof (parola_range a j Ha) as Hpa. pose proof (parola_range t j Ht) as Hpt.
    set (s := parola t j + parola a j * x + c).
    assert (Hs : 0 <= s < W32 * W32) by (unfold s, W32 in *; nia).
    rewrite u64_small, shiftr32 by done.
    assert (Hc' : 0 <= s / W32 < W32).
    { split; [apply Z.div_pos; unfold W32 in *; lia|apply Z.div_lt_upper_bound; [reflexivity|lia]]. }
    specialize (IH (S j) x (s / W32) a (<[j := u32 s]> t) Ha (words_u32 _ _ _ Ht) Hx Hc' ltac:(rewrite length_insert; lia)).
    destruct (mac_loop k (S j) x (s / W32) a (<[j := u32 s]> t)) as [c' t']. destruct IH as (H1 & H2 & H3 & H4 & H5).
    replace (j + S k)%nat with (S j + k)%nat by lia. rewrite length_insert in H2.
    split; [done|]. split; [done|]. split; [done|]. split.
    + intros i Hi. rewrite H4, parola_insert, decide_False by lia. done.
    + rewrite H5, (pv_insert_at t j _ (S j + k)) by lia. cbn [pv]. rewrite Wpow_S.
      pose proof (u32_split s) as Hsp. unfold s in *. nia.
Qed.

(** The working array: [n + 2] words of it are used. *)
Definition lavoro (n : nat) (t : list Z) : Prop := words t /\ (n + 2 <= length t)%nat.

Lemma mac_ok n x a t :
  lavoro n t -> words a -> 0 <= x < W32 -> pv t (n + 2) + pv a n * x < W32 ^ Z.of_nat (n + 2) ->
  lavoro n (mac n x a t) /\ pv (mac n x a t) (n + 2) = pv t (n + 2) + pv a n * x.
Proof.
  intros [Ht Hlen] Ha Hx Hlt. unfold mac.
  pose proof (mac_loop_spec n 0 x 0 a t Ha Ht Hx ltac:(unfold W32; lia) ltac:(lia)) as Hm.
  destruct (mac_loop n 0 x 0 a t) as [c t1]. destruct Hm as (Hw1 & Hl1 & Hc & Hsame & Hv). cbn [Nat.add] in *.
  set (s := parola t1 n + c). pose proof (parola_range t1 n Hw1) as Hpn.
  rewrite u64_small by (unfold s, W32 in *; lia). rewrite shiftr32.
  rewrite parola_insert, decide_False by lia.
  assert (Hcq : u32 (s / W32) = s / W32) by
    (apply u32_small; split; [apply Z.div_pos; [unfold s; lia|reflexivity]|apply Z.div_lt_upper_bound; [reflexivity|unfold s, W32 in *; lia]]).
  rewrite Hcq.
  pose proof (parola_range t1 (S n) Hw1) as HpS. pose proof (u32_split s) as Hsp.
  pose proof (Wpow_pos n) as Hpos. replace (n + 2)%nat with (S (S n)) in * by lia.
  rewrite Wpow_S, Wpow_S in Hlt. cbn [pv] in Hlt |- *. rewrite Wpow_S in Hlt |- *.
  rewrite <- !Hsame in Hlt |- * by lia.
  assert (Hs : W32 ^ Z.of_nat n * (parola t1 n + c) = W32 ^ Z.of_nat n * u32 s + W32 * W32 ^ Z.of_nat n * (s / W32)).
  { fold s. rewrite Hsp at 1. ring. }
  cbn [pv] in Hv.
  assert (Htop : 0 <= parola t1 (S n) + s / W32 < W32).
  { split; [apply Z.add_nonneg_nonneg; [lia|apply Z.div_pos; unfold s, W32 in *; lia]|].
    apply (Z.mul_lt_mono_pos_l (W32 * W32 ^ Z.of_nat n)); [unfold W32 in *; lia|].
    pose proof (pv_range t1 n Hw1). pose proof (u32_range s) as Hus.
    assert (0 <= W32 ^ Z.of_nat n * u32 s) by (apply Z.mul_nonneg_nonneg; lia). lia. }
  rewrite (u32_small (_ + _)) by done. split.
  - split; [by apply words_insert; [apply words_u32|]|rewrite !length_insert; lia].
  - rewrite !parola_insert by (rewrite ?length_insert; lia).
    rewrite (decide_True (P := S n = S n)), (decide_True (P := n = n)), (decide_False (P := n = S n)) by lia.
    rewrite !pv_insert_above by (rewrite ?length_insert; lia). lia.
Qed.

Lemma scorri_loop_spec k : forall j t,
  (j + k < length t)%nat ->
  length (scorri_loop k j t) = length t /\
  (forall i, parola (scorri_loop k j t) i = if decide (j <= i < j + k)%nat then parola t (S i) else parola t i).
Proof.
  induction k as [|k IH]; intros j t Hl; cbn [scorri_loop].
  - split; [done|]. intros i. by rewrite decide_False by lia.
  - destruct (IH (S j) (<[j := parola t (S j)]> t)) as [H1 H2]; [rewrite length_insert; lia|].
    rewrite length_insert in H1. split; [done|]. intros i. rewrite H2, !parola_insert by lia.
    destruct (decide (i = j)) as [->|Hij].
    + rewrite (decide_False (P := (S j <= j < S j + k)%nat)) by lia. by rewrite (decide_True (P := (j <= j < j + S k)%nat)) by lia.
    + destruct (decide (S j <= i < S j + k)%nat).
      * rewrite (decide_False (P := S i = j)) by lia. by rewrite decide_True by lia.
      * by rewrite decide_False by lia.
Qed.

Lemma words_parola l : (forall i, (i < length l)%nat -> 0 <= parola l i < W32) -> words l.
Proof.
  intros H. apply Forall_lookup. intros i w Hi. specialize (H i (lookup_lt_Some _ _ _ Hi)).
  unfold parola in H. rewrite nth_lookup, Hi in H. exact H.
Qed.

Lemma pv_shift t t' k : (forall j, (j < k)%nat -> parola t' j = parola t (S j)) -> pv t (S k) = parola t 0 + W32 * pv t' k.
Proof.
  induction k as [|k IH]; intros H.
  - cbn [pv]. change (W32 ^ Z.of_nat 0) with 1. lia.
  - change (pv t (S (S k))) with (pv t (S k) + W32 ^ Z.of_nat (S k) * parola t (S k)).
    rewrite IH by (intros; apply H; lia). cbn [pv]. rewrite Wpow_S, (H k) by lia. ring.
Qed.

Lemma scorri_ok n t :
  lavoro n t -> parola t 0 = 0 ->
  lavoro n (scorri n t) /\ W32 * pv (scorri n t) (n + 2) = pv t (n + 2).
Proof.
  intros [Ht Hl] H0. unfold scorri. destruct (scorri_loop_spec (S n) 0 t ltac:(lia)) as [H1 H2].
  set (t1 := scorri_loop (S n) 0 t) in *.
  assert (Hp : forall i, parola (<[S n := 0]> t1) i =
    if decide (i = S n) then 0 else if decide (i < S n)%nat then parola t (S i) else parola t i).
  { intros i. rewrite parola_insert, H2 by lia. destruct (decide (i = S n)); [done|].
    destruct (decide (0 <= i < 0 + S n)%nat); destruct (decide (i < S n)%nat); done || lia. }
  split.
  - split; [|rewrite length_insert; lia]. apply words_parola. intros i _. rewrite Hp.
    destruct (decide (i = S n)); [split; [lia|reflexivity]|]. destruct (decide _); by apply parola_range.
  - replace (n + 2)%nat with (S (S n)) by lia.
    rewrite (pv_shift t (<[S n := 0]> t1) (S n)).
    + change (pv (<[S n := 0]> t1) (S (S n))) with
        (pv (<[S n := 0]> t1) (S n) + W32 ^ Z.of_nat (S n) * parola (<[S n := 0]> t1) (S n)).
      rewrite (Hp (S n)), decide_True by done. lia.
    + intros j Hj. rewrite Hp, decide_False, decide_True by lia. done.
Qed.

Lemma pv_mod l k : words l -> (0 < k)%nat -> pv l k mod W32 = parola l 0.
Proof.
  intros Hw Hk. destruct k as [|k]; [lia|]. rewrite (pv_shift l (drop 1 l) k).
  - rewrite (Z.mul_comm W32), Z_mod_plus_full. apply Z.mod_small, parola_range, Hw.
  - intros j _. unfold parola. by rewrite !nth_lookup, lookup_drop.
Qed.

(** One word of [b]. *)
Lemma mont_turn n x a m n0 t :
  lavoro n t -> (0 < n)%nat -> big_ok a -> big_ok m -> bn m = n -> big a <= big m -> 0 <= x < W32 -> 0 <= n0 < W32 ->
  (parola (bp m) 0 * n0 + 1) mod W32 = 0 -> 0 <= pv t (n + 2) < big a + big m ->
  let t1 := mac n x (bp a) t in
  let u := u32 (u64 (parola t1 0 * n0)) in
  let t2 := scorri n (mac n u (bp m) t1) in
  lavoro n t2 /\ pv t2 (n + 2) < big a + big m /\ W32 * pv t2 (n + 2) = pv t (n + 2) + big a * x + big m * u.
Proof.
  intros Ht Hn Ha Hm Hbn Hle Hx Hn0 Hinv HT t1 u t2.
  pose proof (big_range a Ha) as Hra. pose proof (big_range m Hm) as Hrm. rewrite Hbn in Hrm.
  assert (Hna : (bn a <= n)%nat) by (rewrite <- Hbn; by apply big_lt_size).
  pose proof (Wpow_pos n). assert (HW2 : W32 ^ Z.of_nat (n + 2) = W32 * (W32 * W32 ^ Z.of_nat n)).
  { replace (n + 2)%nat with (S (S n)) by lia. by rewrite !Wpow_S. }
  destruct (mac_ok n x (bp a) t Ht (bk_words _ Ha) Hx) as [Ht1 Hv1].
  { rewrite (big_pv a n Ha Hna), HW2. unfold W32 in *. nia. }
  fold t1 in Ht1, Hv1. rewrite (big_pv a n Ha Hna) in Hv1.
  assert (Hu : 0 <= u < W32) by apply u32_range.
  destruct (mac_ok n u (bp m) t1 Ht1 (bk_words _ Hm) Hu) as [Ht2 Hv2].
  { rewrite (big_pv m n Hm) by lia. rewrite Hv1, HW2. unfold W32 in *. nia. }
  rewrite (big_pv m n Hm), Hv1 in Hv2 by lia.
  assert (Hlow : parola (mac n u (bp m) t1) 0 = 0).
  { rewrite <- (pv_mod _ (n + 2)) by (apply Ht2 || lia). rewrite Hv2, <- Hv1.
    pose proof (pv_mod t1 (n + 2) (proj1 Ht1) ltac:(lia)) as Hm1.
    pose proof (pv_mod (bp m) n (bk_words _ Hm) Hn) as Hm2. rewrite (big_pv m n Hm) in Hm2 by lia.
    assert (Hu' : u = (parola t1 0 * n0) mod W32).
    { unfold u, u32. rewrite u64_small; [done|]. pose proof (parola_range t1 0 (proj1 Ht1)). unfold W32 in *. nia. }
    rewrite Z.add_mod, Z.mul_mod, Hm1, Hm2, Hu', Z.mod_mod by discriminate.
    rewrite Z.mul_mod_idemp_r, <- Z.add_mod_idemp_r, Z.mod_mod, Z.add_mod_idemp_r by discriminate.
    replace (parola t1 0 + parola (bp m) 0 * (parola t1 0 * n0)) with (parola t1 0 * (parola (bp m) 0 * n0 + 1)) by ring.
    rewrite Z.mul_mod, Hinv by discriminate. by rewrite Z.mul_0_r. }
  destruct (scorri_ok n _ Ht2 Hlow) as [Ht3 Hv3]. fold t2 in Ht3, Hv3. rewrite Hv2 in Hv3.
  split; [done|]. split; [|done]. unfold W32 in *. nia.
Qed.

Lemma mont_loop_spec k : forall i a b m n0 n t q,
  lavoro n t -> (0 < n)%nat -> big_ok a -> big_ok b -> big_ok m -> bn m = n -> big a <= big m -> 0 <= n0 < W32 ->
  (parola (bp m) 0 * n0 + 1) mod W32 = 0 -> 0 <= pv t (n + 2) < big a + big m ->
  pv t (n + 2) * W32 ^ Z.of_nat i = big a * pv (bp b) i + big m * q ->
  let t' := mont_loop k i a b m n0 n t in
  lavoro n t' /\ 0 <= pv t' (n + 2) < big a + big m /\
  exists q', pv t' (n + 2) * W32 ^ Z.of_nat (i + k) = big a * pv (bp b) (i + k) + big m * q'.
Proof.
  induction k as [|k IH]; intros i a b m n0 n t q Ht Hn Ha Hb Hm Hbn Hle Hn0 Hinv HT HI; cbn [mont_loop].
  - rewrite Nat.add_0_r. split; [done|]. split; [done|]. by exists q.
  - rewrite parola_se_ok by done.
    destruct (mont_turn n (parola (bp b) i) a m n0 t Ht Hn Ha Hm Hbn Hle) as (Ht2 & Hlt & Hv);
      [apply parola_range, Hb|done|done|done|].
    set (t1 := mac n (parola (bp b) i) (bp a) t) in *. set (u := u32 (u64 (parola t1 0 * n0))) in *.
    set (t2 := scorri n (mac n u (bp m) t1)) in *.
    replace (i + S k)%nat with (S i + k)%nat by lia.
    apply (IH (S i) a b m n0 n t2 (q + u * W32 ^ Z.of_nat i)); try done.
    + split; [apply pv_range, Ht2|done].
    + rewrite Wpow_S. cbn [pv]. replace (pv t2 (n + 2) * (W32 * W32 ^ Z.of_nat i)) with
        (W32 * pv t2 (n + 2) * W32 ^ Z.of_nat i) by ring. rewrite Hv. nia.
Qed.

(** ** The product *)

(** A modulus that [exbig_modexp] accepts. *)
Record modulo_ok (m : ExBig) : Prop := mkModOk {
  mo_ok : big_ok m;
  mo_pos : (0 < bn m)%nat;
  mo_odd : Z.odd (parola (bp m) 0) = true
}.

Lemma modulo_no_spec m : big_ok m -> modulo_no m = false <-> modulo_ok m.
Proof.
  intros H. pose proof (bk_n _ H) as Hn. unfold modulo_no.
  rewrite !orb_false_iff, Nat.eqb_neq, Z.eqb_neq, Nat.ltb_ge, land1.
  split.
  - intros [[H1 H2] _]. split; [done|lia|]. rewrite Zmod_odd in H2. by destruct (Z.odd _).
  - intros [_ H1 H2]. split; [split; [lia|]|lia]. rewrite Zmod_odd, H2. lia.
Qed.

Definition erre (m : ExBig) : Z := W32 ^ Z.of_nat (bn m).

Lemma modulo_pos m : modulo_ok m -> 0 < big m < erre m.
Proof.
  intros [H Hn _]. split; [|apply big_range, H]. pose proof (big_low m H Hn). pose proof (Wpow_pos (bn m - 1)). lia.
Qed.

(** Montgomery's product, for operands in range: [r * R = a * b] modulo [m]. *)
Lemma mont_mul_ok a b m :
  modulo_ok m -> big_ok a -> big_ok b -> big a <= big m -> big b < erre m ->
  let r := mont_mul a b m (n0_inverso (parola (bp m) 0)) (bn m) in
  big_ok r /\ big r < big m /\ (big r * erre m) mod big m = (big a * big b) mod big m.
Proof.
  intros Hmod Ha Hb Hle Hlt r. pose proof (modulo_pos m Hmod) as Hpos. destruct Hmod as [Hm Hn Hodd]. unfold erre in *.
  destruct (n0_inverso_ok (parola (bp m) 0)) as [Hinv Hn0]; [apply parola_range, Hm|done|].
  set (n0 := n0_inverso (parola (bp m) 0)) in *. set (n := bn m) in *.
  pose proof (bk_n _ Hm) as HnE. fold n in HnE.
  set (t0 := replicate (EXBIG_PAROLE + 2) 0).
  assert (H0 : forall k, pv t0 k = 0).
  { intros k. rewrite (pv_zero_tail t0 0) by (lia || (intros j _; unfold t0, parola; rewrite nth_lookup;
      destruct (replicate _ _ !! j) eqn:E; [by apply lookup_replicate in E as [-> _]|done])). done. }
  assert (Ht0 : lavoro n t0).
  { split; [apply Forall_replicate; split; [lia|reflexivity]|]. unfold t0. rewrite length_replicate. lia. }
  pose proof (big_range a Ha) as Hra. pose proof (big_range b Hb) as Hrb.
  destruct (mont_loop_spec n 0 a b m n0 n t0 0 Ht0 Hn Ha Hb Hm eq_refl Hle Hn0 Hinv) as ([Hw Hl] & HT & q & Hq);
    [rewrite H0; lia|rewrite H0; cbn [pv]; lia|]. cbn [Nat.add] in Hq.
  set (t := mont_loop n 0 a b m n0 n t0) in *.
  assert (Hbn : (bn b <= n)%nat).
  { destruct (decide (bn b <= n)%nat); [done|]. pose proof (big_low b Hb ltac:(lia)).
    assert (W32 ^ Z.of_nat n <= W32 ^ Z.of_nat (bn b - 1)) by (apply Z.pow_le_mono_r; [reflexivity|lia]). lia. }
  rewrite (big_pv b n Hb Hbn) in Hq.
  replace (n + 2)%nat with (S (S n)) in * by lia. cbn [pv] in HT, Hq. set (lo := pv t n) in *.
  pose proof (pv_range t n Hw) as Hlo. fold lo in Hlo.
  pose proof (parola_range t n Hw) as Hpn. pose proof (parola_range t (S n) Hw) as HpS.
  rewrite Wpow_S in HT, Hq. pose proof (Wpow_pos n) as HP. set (P := W32 ^ Z.of_nat n) in *.
  assert (HS : parola t (S n) = 0) by (unfold W32 in *; nia). rewrite HS in *.
  assert (Hn1 : parola t n <= 1) by nia.
  assert (Hcon : forall v k, v = lo + P * parola t n + big m * k -> (v * P) mod big m = (big a * big b) mod big m).
  { intros v k ->. replace ((lo + P * parola t n + big m * k) * P) with (big a * big b + (q + k * P) * big m) by nia.
    apply Z_mod_plus_full. }
  destruct (normalizza_ok n (take n t ++ drop n zeri)) as [Hrok Hrv].
  { apply array_app_zeri; [lia|done|done]. }
  { done. }
  { apply array_app_zeri; [lia|done|done]. }
  { intros i Hi. rewrite parola_app_zeri, decide_False by lia. done. }
  assert (Hpl : pv (take n t ++ drop n zeri) n = lo).
  { apply pv_ext. intros j Hj. by rewrite parola_app_zeri, decide_True by lia. }
  rewrite Hpl in Hrv. unfold r, mont_mul. fold t0 t. set (r0 := normalizza (mkBig n (take n t ++ drop n zeri))) in *.
  destruct (Z.eqb_spec (parola t n) 0) as [E|E]; cbn [negb].
  - rewrite cmp_ge by done. destruct (Z.leb_spec (big m) (big r0)) as [Hge|Hsm].
    + destruct (sottrai_ok r0 m Hrok Hm Hge) as [H1 H2]. rewrite H2, Hrv. split; [done|]. split; [nia|].
      apply (Hcon _ (-1)). lia.
    + rewrite Hrv in *. split; [done|]. split; [done|]. apply (Hcon _ 0). lia.
  - assert (E1 : parola t n = 1) by lia. rewrite E1 in *.
    destruct (togli_m_ok r0 m n) as [H1 H2].
    + by apply array_app_zeri; [lia| |].
    + intros i Hi. change (bp r0) with (take n t ++ drop n zeri). rewrite parola_app_zeri, decide_False by lia. done.
    + done.
    + lia.
    + change (bp r0) with (take n t ++ drop n zeri). rewrite Hpl. fold P. nia.
    + change (bp r0) with (take n t ++ drop n zeri) in H2. rewrite Hpl in H2. fold P in H2. rewrite H2.
      split; [done|]. split; [nia|]. apply (Hcon _ (-1)). lia.
Qed.
