(* ===== verification/ExbigPow.v ===== *)
(** * Modular exponentiation: specification

    [erre_quadro] is [R^2] modulo [m] for [R = W^n], Montgomery products move
    the base and 1 into the representation [x * R], and the loop over the bits
    of the exponent keeps [acc = base^(e / 2^i) * R] modulo [m]. *)

From Stdlib Require Import Znumtheory.
From S2P Require Import Prelude Exbig ExbigSpec ExbigMont.

(** ** Congruence modulo the modulus *)

Definition cong (m a b : Z) : Prop := (m | a - b).

#[export] Instance cong_equiv m : Equivalence (cong m).
Proof.
  split; unfold cong.
  - intros a. exists 0. lia.
  - intros a b [k Hk]. exists (- k). lia.
  - intros a b c [k Hk] [j Hj]. exists (k + j). lia.
Qed.

#[export] Instance cong_mul m : Proper (cong m ==> cong m ==> cong m) Z.mul.
Proof.
  intros a a' [k Hk] b b' [j Hj]. exists (k * b + a' * j).
  replace ((k * b + a' * j) * m) with (k * m * b + a' * (j * m)) by ring. rewrite <- Hk, <- Hj. ring.
Qed.

#[export] Instance cong_add m : Proper (cong m ==> cong m ==> cong m) Z.add.
Proof. intros a a' [k Hk] b b' [j Hj]. exists (k + j). lia. Qed.

Lemma cong_mod m a b : 0 < m -> cong m a b <-> a mod m = b mod m.
Proof.
  intros Hm. unfold cong. split.
  - intros [k Hk]. replace a with (b + k * m) by lia. apply Z_mod_plus_full.
  - intros H. exists (a / m - b / m). pose proof (Z.div_mod a m ltac:(lia)). pose proof (Z.div_mod b m ltac:(lia)). lia.
Qed.

Lemma cong_canon m a b : 0 <= a < m -> cong m a b -> a = b mod m.
Proof. intros Ha H. apply cong_mod in H; [|lia]. by rewrite <- H, Z.mod_small. Qed.

Lemma cong_minus m a : cong m (a - m) a.
Proof. exists (-1). lia. Qed.

Lemma big_odd m : modulo_ok m -> Z.odd (big m) = true.
Proof.
  intros [H Hn Ho]. pose proof (pv_mod (bp m) (bn m) (bk_words _ H) Hn) as Hp. fold (big m) in Hp.
  rewrite <- Ho, <- Hp. rewrite (Z.div_mod (big m) W32) at 1 by discriminate.
  rewrite Z.odd_add, Z.odd_mul. change (Z.odd W32) with false. cbn [andb]. by destruct (Z.odd _).
Qed.

(** [R] is invertible modulo an odd number. *)
Lemma erre_prime m : modulo_ok m -> Z.coprime (big m) (erre m).
Proof.
  intros H. pose proof (big_odd m H) as Ho. unfold erre. apply Z.coprime_pow_r; [lia|].
  change W32 with (2 ^ 32). apply Z.coprime_pow_r; [lia|].
  apply Z.Symmetric_coprime, Z.coprime_prime_l; [apply Z.prime_2|]. intros [k Hk]. rewrite Hk in Ho.
  rewrite Z.odd_mul in Ho. change (Z.odd 2) with false in Ho. by rewrite andb_false_r in Ho.
Qed.

Lemma erre_cancel m a b : modulo_ok m -> cong (big m) (a * erre m) (b * erre m) -> cong (big m) a b.
Proof.
  intros H Hc. unfold cong in *. apply (Z.gauss _ (erre m)); [|by apply erre_prime].
  by replace (erre m * (a - b)) with (a * erre m - b * erre m) by ring.
Qed.

(** The Montgomery product, on the representations [x * R]. *)
Lemma mont_mul_cong a b m :
  modulo_ok m -> big_ok a -> big_ok b -> big a <= big m -> big b < erre m ->
  let r := mont_mul a b m (n0_inverso (parola (bp m) 0)) (bn m) in
  big_ok r /\ 0 <= big r < big m /\ forall v, cong (big m) (big a * big b) (v * erre m) -> cong (big m) (big r) v.
Proof.
  intros Hm Ha Hb Hle Hlt r. destruct (mont_mul_ok a b m Hm Ha Hb Hle Hlt) as (H1 & H2 & H3). fold r in H1, H2, H3.
  split; [done|]. split; [split; [apply big_range, H1|done]|]. intros v Hv. apply (erre_cancel m); [done|].
  rewrite <- Hv. apply cong_mod; [apply modulo_pos, Hm|done].
Qed.

(** ** [erre_quadro] *)

Lemma raddoppia_turn rr m :
  modulo_ok m -> big_ok rr -> big rr <= big m ->
  let '(riporto, d) := somma rr rr in
  let r := if negb (riporto =? 0) then togli_m d m (bn m) else if 0 <=? exbig_cmp d m then sottrai d m else d in
  big_ok r /\ big r <= big m /\ cong (big m) (big r) (2 * big rr).
Proof.
  intros Hm Hr Hle. pose proof (modulo_pos m Hm) as Hpos. unfold erre in Hpos. destruct Hm as [Hm Hn _].
  pose proof (somma_ok rr rr Hr Hr) as Hs. destruct (somma rr rr) as [c d]. destruct Hs as (Hd & Hc & Hv).
  destruct (Z.eqb_spec c 0) as [->|Ec]; cbn [negb].
  - rewrite cmp_ge by done. destruct (Z.leb_spec (big m) (big d)) as [Hge|Hsm].
    + destruct (sottrai_ok d m Hd Hm Hge) as [H1 H2]. rewrite H2. split; [done|]. split; [lia|].
      rewrite cong_minus. replace (big d) with (2 * big rr) by lia. reflexivity.
    + split; [done|]. split; [lia|]. replace (big d) with (2 * big rr) by lia. reflexivity.
  - assert (c = 1) as -> by lia. pose proof (bk_n _ Hm) as HnE. pose proof (big_range d Hd) as Hrd.
    assert (En : bn m = EXBIG_PAROLE).
    { destruct (decide (bn m = EXBIG_PAROLE)); [done|].
      assert (W32 ^ Z.of_nat (bn m) <= W32 ^ Z.of_nat (EXBIG_PAROLE - 1)) by (apply Z.pow_le_mono_r; [reflexivity|lia]).
      replace EXBIG_PAROLE with (S (EXBIG_PAROLE - 1)) in Hv by (unfold EXBIG_PAROLE; lia). rewrite Wpow_S in Hv.
      pose proof (Wpow_pos (EXBIG_PAROLE - 1)). unfold W32 in Hv at 1. lia. }
    pose proof (big_pv d EXBIG_PAROLE Hd (bk_n _ Hd)) as Hpd.
    destruct (togli_m_ok d m (bn m)) as [H1 H2].
    + split; apply Hd.
    + intros i Hi. apply (bk_zero _ Hd). pose proof (bk_n _ Hd). lia.
    + done.
    + lia.
    + rewrite En in Hpos |- *. rewrite Hpd. lia.
    + rewrite En in Hpos. rewrite En, Hpd in H2. split; [exact H1|]. rewrite En, H2. split; [lia|].
      replace (W32 ^ Z.of_nat EXBIG_PAROLE + big d - big m) with (2 * big rr - big m) by lia. apply cong_minus.
Qed.

Lemma raddoppia_ok k : forall rr m,
  modulo_ok m -> big_ok rr -> big rr <= big m ->
  let r := raddoppia k rr m (bn m) in
  big_ok r /\ big r <= big m /\ cong (big m) (big r) (2 ^ Z.of_nat k * big rr).
Proof.
  induction k as [|k IH]; intros rr m Hm Hr Hle; cbn [raddoppia].
  - split; [done|]. split; [done|]. rewrite Z.pow_0_r, Z.mul_1_l. reflexivity.
  - pose proof (raddoppia_turn rr m Hm Hr Hle) as Ht. destruct (somma rr rr) as [c d]. destruct Ht as (H1 & H2 & H3).
    destruct (IH _ m Hm H1 H2) as (H4 & H5 & H6). split; [done|]. split; [done|].
    rewrite H6, H3, Nat2Z.inj_succ, Z.pow_succ_r by lia.
    replace (2 * 2 ^ Z.of_nat k * big rr) with (2 ^ Z.of_nat k * (2 * big rr)) by ring. reflexivity.
Qed.

Lemma erre_2 m : 2 ^ Z.of_nat (64 * bn m) = erre m * erre m.
Proof.
  unfold erre. rewrite <- Wpow_add. change W32 with (2 ^ 32). rewrite <- Z.pow_mul_r by lia. f_equal. lia.
Qed.

Lemma uno_ok : big_ok (exbig_da_parola 1) /\ big (exbig_da_parola 1) = 1.
Proof. apply da_parola_ok. split; [lia|reflexivity]. Qed.

Lemma erre_quadro_ok m :
  modulo_ok m ->
  let r := erre_quadro m (bn m) in big_ok r /\ big r <= big m /\ cong (big m) (big r) (erre m * erre m).
Proof.
  intros Hm r. destruct uno_ok as [H1 H2]. pose proof (modulo_pos m Hm).
  destruct (raddoppia_ok (64 * bn m) _ m Hm H1) as (H3 & H4 & H5); [rewrite H2; lia|].
  rewrite H2, erre_2, Z.mul_1_r in H5. done.
Qed.

(** ** Bits of a number *)

Lemma pv_parola l k i : words l -> (i < k)%nat -> pv l k / W32 ^ Z.of_nat i mod W32 = parola l i.
Proof.
  intros Hw. induction k as [|k IH]; intros Hi; [lia|]. cbn [pv].
  pose proof (Wpow_pos i). destruct (decide (i = k)) as [->|].
  - rewrite Z.mul_comm, Z.div_add, Z.div_small by (apply pv_range, Hw || lia).
    apply Z.mod_small, parola_range, Hw.
  - replace (W32 ^ Z.of_nat k * parola l k) with
      (W32 ^ Z.of_nat (k - S i) * parola l k * W32 * W32 ^ Z.of_nat i).
    + rewrite Z.div_add, Z_mod_plus_full by lia. apply IH. lia.
    + replace (W32 ^ Z.of_nat k) with (W32 ^ Z.of_nat (S i + (k - S i))) by (f_equal; lia).
      rewrite Wpow_add, Wpow_S. ring.
Qed.

Lemma big_parola a i : big_ok a -> parola (bp a) i = big a / W32 ^ Z.of_nat i mod W32.
Proof.
  intros H. rewrite <- (big_pv a (Nat.max (bn a) (S i)) H) by lia. symmetry. apply pv_parola; [apply H|lia].
Qed.

Lemma Wpow_2 k : W32 ^ Z.of_nat k = 2 ^ (32 * Z.of_nat k).
Proof. change W32 with (2 ^ 32). by rewrite <- Z.pow_mul_r by lia. Qed.

Lemma big_testbit a j : big_ok a -> Z.testbit (big a) (Z.of_nat j) = Z.testbit (parola (bp a) (j / 32)) (Z.of_nat (j mod 32)).
Proof.
  intros H. rewrite big_parola by done. pose proof (Nat.div_mod_eq j 32). pose proof (Nat.mod_upper_bound j 32 ltac:(lia)).
  change W32 with (2 ^ 32) at 2. rewrite Wpow_2, Z.mod_pow2_bits_low, Z.div_pow2_bits by lia. f_equal. lia.
Qed.

Lemma bit_esponente_ok e j : big_ok e -> bit_esponente e j = Z.testbit (big e) (Z.of_nat j).
Proof.
  intros H. unfold bit_esponente. rewrite land1, big_testbit by done.
  rewrite Z.testbit_odd, Zmod_odd. by destruct (Z.odd _).
Qed.

Lemma bit_di_spec k : forall w b, 0 < w < 2 ^ Z.of_nat k -> bit_di k w b = b + 1 + Z.log2 w.
Proof.
  induction k as [|k IH]; intros w b Hw; [cbn in Hw; lia|]. cbn [bit_di]. rewrite (proj2 (Z.eqb_neq _ _)) by lia.
  rewrite Nat2Z.inj_succ, Z.pow_succ_r in Hw by lia. rewrite Z.shiftr_div_pow2 by lia. change (2 ^ 1) with 2.
  destruct (decide (w = 1)) as [->|].
  - change (1 / 2) with 0. change (Z.log2 1) with 0. destruct k; cbn [bit_di]; [|change (0 =? 0) with true; cbn [bit_di]]; lia.
  - rewrite IH by zdm. assert (Hl : Z.log2 w = Z.log2 (w / 2) + 1); [|lia].
    rewrite (Z.div_mod w 2) at 1 by lia. pose proof (Z.mod_pos_bound w 2 ltac:(lia)).
    assert (E : w mod 2 = 0 \/ w mod 2 = 1) by lia. assert (0 < w / 2) by zdm.
    destruct E as [-> | ->]; [rewrite Z.add_0_r, Z.log2_double by lia|rewrite Z.log2_succ_double by lia]; lia.
Qed.

(** [exbig_bit] is the length in bits. *)
Lemma exbig_bit_pos a : big_ok a -> 0 < big a -> exbig_bit a = 1 + Z.log2 (big a).
Proof.
  intros H Hp. assert (Hn : bn a <> 0%nat) by (intros E; apply big_zero_iff in E; [lia|done]).
  unfold exbig_bit. rewrite (proj2 (Nat.eqb_neq _ _)) by done.
  pose proof (bk_top _ H ltac:(lia)) as Ht. pose proof (parola_range _ (bn a - 1) (bk_words _ H)) as Hr.
  set (w := parola (bp a) (bn a - 1)) in *. rewrite bit_di_spec by (change (2 ^ Z.of_nat 32) with W32; lia).
  pose proof (pv_range (bp a) (bn a - 1) (bk_words _ H)) as Hlo.
  assert (Hv : big a = pv (bp a) (bn a - 1) + W32 ^ Z.of_nat (bn a - 1) * w).
  { unfold big. destruct (bn a) as [|k] eqn:E; [lia|]. cbn [pv]. unfold w. by replace (S k - 1)%nat with k by lia. }
  pose proof (Z.log2_spec w ltac:(lia)) as Hlog. rewrite Wpow_2 in Hv, Hlo.
  set (N := 32 * Z.of_nat (bn a - 1)) in *. pose proof (Z.log2_nonneg w).
  assert (HL : Z.log2 (big a) = N + Z.log2 w); [|lia].
  apply Z.log2_unique; [lia|]. rewrite <- Z.add_succ_r, !Z.pow_add_r by lia.
  pose proof (Z.pow_pos_nonneg 2 N ltac:(lia) ltac:(lia)). split; nia.
Qed.

Lemma exbig_bit_zero a : big_ok a -> big a = 0 -> exbig_bit a = 0.
Proof. intros H Hz. apply big_zero_iff in Hz; [|done]. unfold exbig_bit. by rewrite Hz. Qed.

Lemma exbig_bit_ok a : big_ok a -> 0 <= exbig_bit a /\ big a < 2 ^ exbig_bit a.
Proof.
  intros H. pose proof (big_range a H). destruct (decide (big a = 0)) as [E|E].
  - rewrite exbig_bit_zero, E by done. lia.
  - rewrite exbig_bit_pos by (done || lia). pose proof (Z.log2_spec (big a) ltac:(lia)).
    pose proof (Z.log2_nonneg (big a)). rewrite Z.add_comm. split; [lia|]. by apply Z.log2_spec; lia.
Qed.

(** ** The powers *)

Section Powers.

Context (m : ExBig) (Hm : modulo_ok m).

Abbreviation n0 := (n0_inverso (parola (bp m) 0)).

Lemma potenza_turn E j base : 0 <= E ->
  base ^ (E / 2 ^ Z.of_nat j) =
  base ^ (E / 2 ^ Z.of_nat (S j)) * base ^ (E / 2 ^ Z.of_nat (S j)) * (if Z.testbit E (Z.of_nat j) then base else 1).
Proof.
  intros HE. pose proof (Z.pow_pos_nonneg 2 (Z.of_nat j) ltac:(lia) ltac:(lia)).
  assert (0 <= E / 2 ^ Z.of_nat (S j)) by (apply Z.div_pos; [done|apply Z.pow_pos_nonneg; lia]).
  rewrite <- Z.pow_add_r by lia. rewrite Z.testbit_odd, Z.shiftr_div_pow2 by lia.
  rewrite Nat2Z.inj_succ, Z.pow_succ_r, (Z.mul_comm 2), <- Z.div_div in * by lia.
  set (q := E / 2 ^ Z.of_nat j) in *. pose proof (Z.div_mod q 2 ltac:(lia)) as Hq. rewrite Zmod_odd in Hq.
  destruct (Z.odd q).
  - rewrite Hq at 1. replace (2 * (q / 2) + 1) with (Z.succ (q / 2 + q / 2)) by lia. rewrite Z.pow_succ_r by lia. lia.
  - rewrite Hq at 1. rewrite Z.mul_1_r. f_equal. lia.
Qed.

Lemma potenza_loop_ok i : forall acc x e base,
  big_ok acc -> big_ok x -> big_ok e -> 0 <= big acc < big m -> 0 <= big x < big m ->
  cong (big m) (big x) (base * erre m) -> cong (big m) (big acc) (base ^ (big e / 2 ^ Z.of_nat i) * erre m) ->
  let r := potenza_loop i acc x e m n0 (bn m) in
  big_ok r /\ 0 <= big r < big m /\ cong (big m) (big r) (base ^ big e * erre m).
Proof.
  pose proof (modulo_pos m Hm) as Hpos.
  induction i as [|j IH]; intros acc x e base Ha Hx He Hra Hrx Hcx Hca; cbn [potenza_loop].
  - rewrite Z.div_1_r in Hca. done.
  - destruct (mont_mul_cong acc acc m Hm Ha Ha) as (H1 & H2 & H3); [lia|lia|].
    set (q := mont_mul acc acc m n0 (bn m)) in *. set (p := base ^ (big e / 2 ^ Z.of_nat (S j))) in *.
    assert (Hq : cong (big m) (big q) (p * p * erre m)).
    { apply H3. rewrite Hca. replace (p * erre m * (p * erre m)) with (p * p * erre m * erre m) by ring. reflexivity. }
    rewrite bit_esponente_ok by done. pose proof (potenza_turn (big e) j base (proj1 (big_range e He))) as Ht. fold p in Ht.
    destruct (Z.testbit (big e) (Z.of_nat j)).
    + destruct (mont_mul_cong q x m Hm H1 Hx) as (H4 & H5 & H6); [lia|lia|].
      apply (IH _ x e base); try done. rewrite Ht. apply H6. rewrite Hq, Hcx.
      replace (p * p * erre m * (base * erre m)) with (p * p * base * erre m * erre m) by ring. reflexivity.
    + apply (IH _ x e base); try done. rewrite Ht, Hq, Z.mul_1_r. reflexivity.
Qed.

(** From the base to its power. *)
Lemma modexp_core base e :
  big_ok base -> big_ok e -> big base < big m ->
  let rr := erre_quadro m (bn m) in
  let x := mont_mul base rr m n0 (bn m) in
  let acc := mont_mul (exbig_da_parola 1) rr m n0 (bn m) in
  let acc := potenza_loop (Z.to_nat (exbig_bit e)) acc x e m n0 (bn m) in
  let r := mont_mul acc (exbig_da_parola 1) m n0 (bn m) in
  big_ok r /\ big r = big base ^ big e mod big m.
Proof.
  intros Hb He Hlt rr x acc acc' r. pose proof (modulo_pos m Hm) as Hpos.
  destruct (erre_quadro_ok m Hm) as (Hrr & Hrle & Hrc). fold rr in Hrr, Hrle, Hrc. destruct uno_ok as [Hu1 Hu2].
  destruct (mont_mul_cong base rr m Hm Hb Hrr) as (Hx & Hxr & Hxc); [lia|lia|]. fold x in Hx, Hxr, Hxc.
  destruct (mont_mul_cong (exbig_da_parola 1) rr m Hm Hu1 Hrr) as (Ha & Har & Hac); [lia|lia|]. fold acc in Ha, Har, Hac.
  destruct (exbig_bit_ok e He) as [Hbit Hmax]. pose proof (big_range e He).
  destruct (potenza_loop_ok (Z.to_nat (exbig_bit e)) acc x e (big base)) as (Hp & Hpr & Hpc); try done.
  - apply Hxc. rewrite Hrc, Z.mul_assoc. reflexivity.
  - apply Hac. rewrite Hu2, Hrc, Z2Nat.id, (Z.div_small (big e)), Z.pow_0_r, !Z.mul_1_l by lia. reflexivity.
  - fold acc' in Hp, Hpr, Hpc.
    destruct (mont_mul_cong acc' (exbig_da_parola 1) m Hm Hp Hu1) as (Hr & Hrr' & Hrc'); [lia|rewrite Hu2; lia|].
    fold r in Hr, Hrr', Hrc'. split; [done|]. apply cong_canon; [done|]. apply Hrc'. rewrite Hu2, Z.mul_1_r. exact Hpc.
Qed.

End Powers.

Lemma modexp_ok base e m :
  modulo_ok m -> big_ok base -> big_ok e -> big base < big m ->
  exists r, exbig_modexp base e m = Some r /\ big_ok r /\ big r = big base ^ big e mod big m.
Proof.
  intros Hm Hb He Hlt. pose proof (modulo_pos m Hm) as Hpos. unfold exbig_modexp.
  rewrite (proj2 (modulo_no_spec m (mo_ok _ Hm)) Hm), cmp_ge by (done || apply Hm).
  rewrite (proj2 (Z.leb_gt _ _)) by done. destruct (Nat.eqb_spec (bn e) 0) as [E|E].
  - apply big_zero_iff in E; [|done]. rewrite E, Z.pow_0_r. destruct uno_ok as [H1 H2].
    rewrite cmp_ge, H2 by (done || apply Hm). eexists. split; [reflexivity|].
    destruct (Z.leb_spec (big m) 1).
    + split; [apply zero_ok|]. replace (big m) with 1 by lia. reflexivity.
    + split; [done|]. rewrite H2. symmetry. apply Z.mod_small. lia.
  - eexists. split; [reflexivity|]. by apply modexp_core.
Qed.

Lemma modexp_rejects base e m :
  big_ok base -> big_ok m -> ~ (modulo_ok m /\ big base < big m) -> exbig_modexp base e m = None.
Proof.
  intros Hb Hm Hno. unfold exbig_modexp. destruct (modulo_no m) eqn:E; [done|].
  apply modulo_no_spec in E; [|done]. rewrite cmp_ge by done.
  destruct (Z.leb_spec (big m) (big base)); [done|]. exfalso. apply Hno. done.
Qed.
