(* ===== verification/ExbigByte.v ===== *)
(** * Long integers: bytes, and arithmetic modulo a prepared modulus

    A number and its bytes, the most significant first, determine each other;
    [exbig_da_byte] and [exbig_a_byte] are the two directions. *)

From S2P Require Import Prelude Bytes Exbig ExbigSpec ExbigMont ExbigPow.

(** ** Leading zeroes *)

Lemma senza_zeri_ok b : bytes b -> bytes (senza_zeri b) /\ be (senza_zeri b) = be b /\ (length (senza_zeri b) <= length b)%nat.
Proof.
  induction 1 as [|x b Hx Hb (IH1 & IH2 & IH3)]; cbn [senza_zeri]; [split; [constructor|done]|].
  destruct (Z.eqb_spec x 0) as [->|]; [cbn [be length]; rewrite IH2; split; [done|lia]|].
  split; [by constructor|done].
Qed.

(** Without leading zeroes the length tells the magnitude. *)
Lemma senza_zeri_low b k :
  bytes b -> (k < length (senza_zeri b))%nat <-> 256 ^ Z.of_nat k <= be b.
Proof.
  intros Hb. destruct (senza_zeri_ok b Hb) as (H1 & H2 & _). rewrite <- H2. clear H2.
  pose proof (be_range _ H1) as Hr. split.
  - intros Hk. destruct (senza_zeri b) as [|x s] eqn:E; [cbn in Hk; lia|].
    assert (Hx : x <> 0).
    { clear -E. induction b as [|y b IH]; cbn in E; [done|]. destruct (Z.eqb_spec y 0); [by apply IH|]. by simplify_eq. }
    apply Forall_cons in H1 as [Hx' Hs]. pose proof (be_range s Hs). cbn [be length] in *.
    assert (256 ^ Z.of_nat k <= 256 ^ Z.of_nat (length s)) by (apply Z.pow_le_mono_r; lia). pose proof (B_pos (length s)). nia.
  - intros Hle. destruct (decide (k < length (senza_zeri b))%nat); [done|].
    assert (256 ^ Z.of_nat (length (senza_zeri b)) <= 256 ^ Z.of_nat k) by (apply Z.pow_le_mono_r; lia). lia.
Qed.

(** ** From bytes to a number *)

Lemma parola_pv p i : array p -> (i < EXBIG_PAROLE)%nat -> parola p i = pv p EXBIG_PAROLE / W32 ^ Z.of_nat i mod W32.
Proof. intros [_ Hw] Hi. symmetry. by apply pv_parola. Qed.

(** A byte goes into its word without a carry. *)
Lemma byte_in_word p pos x :
  array p -> (pos < EXBIG_PAROLE * 4)%nat -> 0 <= x < 256 -> (256 ^ Z.of_nat (S pos) | pv p EXBIG_PAROLE) ->
  let w := (pos / 4)%nat in
  Z.lor (parola p w) (u32 (Z.shiftl x (Z.of_nat (pos mod 4) * 8))) = parola p w + x * 256 ^ Z.of_nat (pos mod 4) /\
  0 <= parola p w + x * 256 ^ Z.of_nat (pos mod 4) < W32.
Proof.
  intros Hp Hpos Hx [H HV] w. set (s := (pos mod 4)%nat).
  pose proof (Nat.div_mod_eq pos 4) as Hdm. pose proof (Nat.mod_upper_bound pos 4 ltac:(lia)) as Hs. fold w s in Hdm, Hs.
  assert (Hsh : Z.shiftl x (Z.of_nat s * 8) = x * 256 ^ Z.of_nat s).
  { rewrite Z.shiftl_mul_pow2, B_2 by lia. f_equal. f_equal. lia. }
  assert (Hb : 0 <= x * 256 ^ Z.of_nat s < 256 ^ Z.of_nat (S s)) by (rewrite B_S; pose proof (B_pos s); nia).
  assert (Hle : 256 ^ Z.of_nat (S s) <= W32) by (change W32 with (256 ^ Z.of_nat 4); apply Z.pow_le_mono_r; lia).
  assert (Hdiv : (256 ^ Z.of_nat (S s) | parola p w)).
  { rewrite (parola_pv p w Hp) by (unfold EXBIG_PAROLE in *; lia). rewrite HV.
    replace (256 ^ Z.of_nat (S pos)) with (256 ^ Z.of_nat (S s) * W32 ^ Z.of_nat w).
    - rewrite Z.mul_assoc, Z.div_mul by (pose proof (Wpow_pos w); lia).
      change W32 with (256 ^ Z.of_nat 4). replace 4%nat with (S s + (3 - s))%nat by lia.
      rewrite Nat2Z.inj_add, Z.pow_add_r, (Z.mul_comm H), Z.mul_mod_distr_l by (lia || apply Z.pow_nonzero; lia).
      apply Z.divide_factor_l.
    - change W32 with (256 ^ 4). rewrite <- Z.pow_mul_r, <- Z.pow_add_r by lia. f_equal. lia. }
  rewrite Hsh, u32_small by lia. rewrite (lor_disjoint (8 * Z.of_nat (S s))) by (rewrite <- ?B_2; lia || done).
  split; [done|]. pose proof (parola_range p w (proj2 Hp)) as Hr. split; [lia|].
  destruct Hdiv as [q Hq]. rewrite Hq in *. change W32 with (256 ^ Z.of_nat 4) in *.
  replace 4%nat with (S s + (3 - s))%nat in * by lia. rewrite Nat2Z.inj_add, Z.pow_add_r in * by lia.
  pose proof (B_pos (S s)). set (B := 256 ^ Z.of_nat (S s)) in *. set (C := 256 ^ Z.of_nat (3 - s)) in *.
  assert (q < C) by (apply (Z.mul_lt_mono_pos_r B); lia).
  assert ((q + 1) * B <= C * B) by (apply Z.mul_le_mono_nonneg_r; lia). lia.
Qed.

Lemma da_byte_loop_ok b : forall p,
  bytes b -> array p -> (length b <= EXBIG_PAROLE * 4)%nat -> (256 ^ Z.of_nat (length b) | pv p EXBIG_PAROLE) ->
  array (da_byte_loop b p) /\ pv (da_byte_loop b p) EXBIG_PAROLE = pv p EXBIG_PAROLE + be b.
Proof.
  induction b as [|x b IH]; intros p Hb Hp Hl Hd; cbn [da_byte_loop be]; [split; [done|lia]|].
  apply Forall_cons in Hb as [Hx Hb]. cbn [length] in *.
  destruct (byte_in_word p (length b) x Hp ltac:(lia) Hx Hd) as [Hlor Hr]. rewrite Hlor.
  set (w := (length b / 4)%nat) in *. set (s := (length b mod 4)%nat) in *.
  pose proof (Nat.div_mod_eq (length b) 4) as Hdm. fold w s in Hdm.
  assert (Hw : (w < EXBIG_PAROLE)%nat) by (unfold EXBIG_PAROLE in *; lia).
  set (p' := <[w := parola p w + x * 256 ^ Z.of_nat s]> p).
  assert (Hp' : array p') by (destruct Hp; split; [unfold p'; by rewrite length_insert|by apply words_insert]).
  assert (Hv : pv p' EXBIG_PAROLE = pv p EXBIG_PAROLE + x * 256 ^ Z.of_nat (length b)).
  { unfold p'. rewrite pv_insert_at by (rewrite ?(proj1 Hp); exact Hw).
    assert (HB : 256 ^ Z.of_nat (length b) = 256 ^ Z.of_nat s * W32 ^ Z.of_nat w).
    { change W32 with (256 ^ 4). rewrite <- Z.pow_mul_r, <- Z.pow_add_r by lia. f_equal. lia. }
    rewrite HB. generalize (W32 ^ Z.of_nat w) (256 ^ Z.of_nat s) (pv p EXBIG_PAROLE). intros. ring. }
  destruct (IH p' Hb Hp') as [H1 H2]; [lia| |].
  - rewrite Hv. apply Z.divide_add_r; [|apply Z.divide_factor_r]. eapply Z.divide_trans; [|exact Hd].
    rewrite B_S. apply Z.divide_factor_r.
  - split; [done|]. rewrite H2, Hv. lia.
Qed.

Lemma da_byte_ok b :
  bytes b -> be b < 256 ^ Z.of_nat (EXBIG_PAROLE * 4) ->
  exists r, exbig_da_byte b = Some r /\ big_ok r /\ big r = be b.
Proof.
  intros Hb Hlt. unfold exbig_da_byte. destruct (senza_zeri_ok b Hb) as (Hs & Hv & _).
  pose proof (senza_zeri_low b (EXBIG_PAROLE * 4) Hb) as Hlow.
  destruct (Nat.ltb_spec (EXBIG_PAROLE * 4) (length (senza_zeri b))) as [Hgt|Hle]; [apply Hlow in Hgt; lia|].
  eexists. split; [reflexivity|]. set (s := senza_zeri b) in *. set (n := ((length s + 3) / 4)%nat).
  destruct (da_byte_loop_ok s zeri Hs array_zeri Hle) as [Ha Hp]; [rewrite pv_zeri; by exists 0|].
  rewrite pv_zeri, Z.add_0_l, Hv in Hp. set (p := da_byte_loop s zeri) in *.
  assert (Hn : (length s <= n * 4)%nat) by (unfold n; pose proof (Nat.div_mod_eq (length s + 3) 4); pose proof (Nat.mod_upper_bound (length s + 3) 4); lia).
  assert (HnE : (n <= EXBIG_PAROLE)%nat) by (unfold n; apply Nat.lt_succ_r, Nat.Div0.div_lt_upper_bound; unfold EXBIG_PAROLE in *; lia).
  assert (Hbnd : be b < W32 ^ Z.of_nat n).
  { pose proof (be_range s Hs). assert (256 ^ Z.of_nat (length s) <= 256 ^ Z.of_nat (n * 4)) by (apply Z.pow_le_mono_r; lia).
    change W32 with (256 ^ 4). rewrite <- Z.pow_mul_r by lia. replace (4 * Z.of_nat n) with (Z.of_nat (n * 4)) by lia. lia. }
  assert (Hz : forall i, (n <= i)%nat -> parola p i = 0).
  { intros i Hi. destruct (decide (i < EXBIG_PAROLE)%nat) as [Hlt'|].
    - rewrite (parola_pv p i Ha Hlt'), Hp, Z.div_small; [done|]. pose proof (be_range b Hb).
      assert (W32 ^ Z.of_nat n <= W32 ^ Z.of_nat i) by (apply Z.pow_le_mono_r; [reflexivity|lia]). lia.
    - unfold parola. apply nth_overflow. rewrite (proj1 Ha). lia. }
  destruct (normalizza_ok n p (proj1 Ha) HnE (proj2 Ha) Hz) as [H1 H2]. split; [done|].
  rewrite H2, <- Hp. symmetry. apply pv_zero_tail; [done|]. intros j Hj. apply Hz. lia.
Qed.

Lemma da_byte_no b : bytes b -> 256 ^ Z.of_nat (EXBIG_PAROLE * 4) <= be b -> exbig_da_byte b = None.
Proof.
  intros Hb Hge. unfold exbig_da_byte. apply senza_zeri_low in Hge; [|done]. by rewrite (proj2 (Nat.ltb_lt _ _)).
Qed.

(** ** From a number to bytes *)

Lemma byte_of a pos : big_ok a ->
  (if (pos / 4 <? bn a)%nat then Z.shiftr (parola (bp a) (pos / 4)) (Z.of_nat (pos mod 4) * 8) mod 256 else 0) =
  big a / 256 ^ Z.of_nat pos mod 256.
Proof.
  intros H. pose proof (Nat.div_mod_eq pos 4) as Hdm. pose proof (Nat.mod_upper_bound pos 4 ltac:(lia)) as Hs.
  set (w := (pos / 4)%nat) in *. set (s := (pos mod 4)%nat) in *.
  assert (Hp : 256 ^ Z.of_nat pos = W32 ^ Z.of_nat w * 256 ^ Z.of_nat s).
  { change W32 with (256 ^ 4). rewrite <- Z.pow_mul_r, <- Z.pow_add_r by lia. f_equal. lia. }
  assert (E : big a / 256 ^ Z.of_nat pos mod 256 = Z.shiftr (parola (bp a) w) (Z.of_nat s * 8) mod 256).
  { rewrite Z.shiftr_div_pow2, Hp, <- Z.div_div by (pose proof (Wpow_pos w); pose proof (B_pos s); lia).
    replace (Z.of_nat s * 8) with (8 * Z.of_nat s) by lia. rewrite <- B_2, big_parola by done.
    set (X := big a / W32 ^ Z.of_nat w). apply Z.bits_inj'. intros i Hi. change 256 with (2 ^ 8) at 2 4.
    destruct (Z.lt_ge_cases i 8); [|by rewrite !Z.mod_pow2_bits_high by lia].
    rewrite !Z.mod_pow2_bits_low, B_2, !Z.div_pow2_bits by lia. change W32 with (2 ^ 32).
    rewrite Z.mod_pow2_bits_low by lia. done. }
  rewrite E. destruct (Nat.ltb_spec w (bn a)); [done|]. rewrite (bk_zero _ H) by done. by rewrite Z.shiftr_0_l.
Qed.

Lemma a_byte_loop_ok a len : big_ok a ->
  length (a_byte_loop a len) = len /\ bytes (a_byte_loop a len) /\ be (a_byte_loop a len) = big a mod 256 ^ Z.of_nat len.
Proof.
  intros H. induction len as [|len (IH1 & IH2 & IH3)]; cbn [a_byte_loop].
  - split; [done|]. split; [constructor|]. cbn. by rewrite Z.mod_1_r.
  - rewrite byte_of by done. cbn [length be]. rewrite IH1, IH3. split; [done|]. split.
    + constructor; [|done]. apply Z.mod_pos_bound. lia.
    + rewrite B_S, (Z.mul_comm 256), Z.rem_mul_r by (pose proof (B_pos len); lia). lia.
Qed.

Lemma bit_fits a len : big_ok a -> (Z.of_nat len <? (exbig_bit a + 7) / 8) = (256 ^ Z.of_nat len <=? big a).
Proof.
  intros H. pose proof (big_range a H) as Hr. pose proof (B_pos len). destruct (decide (big a = 0)) as [E|E].
  - rewrite exbig_bit_zero, E by done. change ((0 + 7) / 8) with 0. by rewrite (proj2 (Z.ltb_ge _ _)), (proj2 (Z.leb_gt _ _)) by lia.
  - rewrite exbig_bit_pos, B_2 by (done || lia). pose proof (Z.log2_spec (big a) ltac:(lia)) as Hl.
    pose proof (Z.log2_nonneg (big a)). destruct (Z.leb_spec (2 ^ (8 * Z.of_nat len)) (big a)) as [Hle|Hgt].
    + apply Z.ltb_lt. assert (8 * Z.of_nat len <= Z.log2 (big a)); [|zdm]. apply Z.log2_le_pow2; lia.
    + apply Z.ltb_ge. assert (Z.log2 (big a) < 8 * Z.of_nat len); [|zdm]. apply Z.log2_lt_pow2; lia.
Qed.

Lemma a_byte_ok a len :
  big_ok a -> big a < 256 ^ Z.of_nat len ->
  exists b, exbig_a_byte a len = Some b /\ length b = len /\ bytes b /\ be b = big a.
Proof.
  intros H Hlt. unfold exbig_a_byte. rewrite bit_fits, (proj2 (Z.leb_gt _ _)) by done.
  destruct (a_byte_loop_ok a len H) as (H1 & H2 & H3). eexists. split; [reflexivity|]. split; [done|]. split; [done|].
  rewrite H3. apply Z.mod_small. pose proof (big_range a H). lia.
Qed.

Lemma a_byte_no a len : big_ok a -> 256 ^ Z.of_nat len <= big a -> exbig_a_byte a len = None.
Proof. intros H Hge. unfold exbig_a_byte. by rewrite bit_fits, (proj2 (Z.leb_le _ _)) by done. Qed.

Lemma big_fits a : big_ok a -> big a < 256 ^ Z.of_nat (EXBIG_PAROLE * 4).
Proof.
  intros H. pose proof (big_range a H). pose proof (bk_n _ H).
  assert (W32 ^ Z.of_nat (bn a) <= W32 ^ Z.of_nat EXBIG_PAROLE) by (apply Z.pow_le_mono_r; [reflexivity|lia]).
  change (256 ^ Z.of_nat (EXBIG_PAROLE * 4)) with (W32 ^ Z.of_nat EXBIG_PAROLE). lia.
Qed.

(** ** Numbers with the same value are the same *)

Lemma big_inj a b : big_ok a -> big_ok b -> big a = big b -> a = b.
Proof.
  intros Ha Hb E. assert (Hp : bp a = bp b).
  { apply (nth_ext _ _ 0 0); [by rewrite (bk_len _ Ha), (bk_len _ Hb)|]. intros i _.
    change (parola (bp a) i = parola (bp b) i). by rewrite !big_parola, E by done. }
  assert (Hn : bn a = bn b).
  { pose proof (big_lt_size a b Ha Hb ltac:(lia)). pose proof (big_lt_size b a Hb Ha ltac:(lia)). lia. }
  destruct a, b. cbn in *. by subst.
Qed.

(** ** A prepared modulus *)

Lemma modulo_ok_odd m : big_ok m -> modulo_ok m <-> Z.odd (big m) = true.
Proof.
  intros H. split; [apply big_odd|]. intros Ho. assert (Hn : (0 < bn m)%nat).
  { destruct (bn m) eqn:E; [|lia]. apply big_zero_iff in E; [|done]. by rewrite E in Ho. }
  split; [done|done|]. rewrite <- (pv_mod (bp m) (bn m)) by (apply H || done). fold (big m).
  rewrite (Z.div_mod (big m) W32) in Ho by discriminate. rewrite Z.odd_add, Z.odd_mul in Ho.
  change (Z.odd W32) with false in Ho. cbn [andb xorb] in Ho. by destruct (Z.odd (big m mod W32)).
Qed.

(** The context that [exbig_mod_prepara] builds. *)
Lemma prepara_ok m c :
  big_ok m -> exbig_mod_prepara m = Some c ->
  modulo_ok m /\ c = mkMod m (erre_quadro m (bn m)) (n0_inverso (parola (bp m) 0)) (bn m).
Proof.
  intros H. unfold exbig_mod_prepara. destruct (modulo_no m) eqn:E; [done|]. apply modulo_no_spec in E; [|done].
  intros [= <-]. done.
Qed.

Lemma prepara_iff m : big_ok m -> (exists c, exbig_mod_prepara m = Some c) <-> Z.odd (big m) = true.
Proof.
  intros H. rewrite <- modulo_ok_odd by done. split.
  - intros [c Hc]. by destruct (prepara_ok m c H Hc).
  - intros Hm. unfold exbig_mod_prepara. rewrite (proj2 (modulo_no_spec m H) Hm). by eexists.
Qed.

Section Prepared.

Context (m : ExBig) (c : ExBigMod) (Hm : big_ok m) (Hc : exbig_mod_prepara m = Some c).
Context (a b : ExBig) (Ha : big_ok a) (Hb : big_ok b) (Hra : big a < big m) (Hrb : big b < big m).

Lemma mod_mul_ok : big_ok (exbig_mod_mul a b c) /\ big (exbig_mod_mul a b c) = (big a * big b) mod big m.
Proof.
  destruct (prepara_ok m c Hm Hc) as [Hmo ->]. unfold exbig_mod_mul. cbn [mm mrr mn0 mn].
  pose proof (modulo_pos m Hmo) as Hpos. destruct (erre_quadro_ok m Hmo) as (Hr1 & Hr2 & Hr3).
  destruct (mont_mul_ok a b m Hmo Ha Hb) as (Ht1 & Ht2 & Ht3); [lia|lia|].
  set (t := mont_mul a b m _ _) in *.
  destruct (mont_mul_cong t (erre_quadro m (bn m)) m Hmo Ht1 Hr1) as (H1 & H2 & H3); [lia|lia|].
  split; [exact H1|]. apply cong_canon; [exact H2|]. apply H3. rewrite Hr3, Z.mul_assoc. apply cong_mul; [|reflexivity].
  apply cong_mod; [lia|exact Ht3].
Qed.

Abbreviation tetto := (W32 ^ Z.of_nat EXBIG_PAROLE).

Lemma modulo_tetto x : big_ok x -> big x < tetto.
Proof.
  intros H. pose proof (big_range x H). pose proof (bk_n _ H).
  assert (W32 ^ Z.of_nat (bn x) <= tetto) by (apply Z.pow_le_mono_r; [reflexivity|lia]). lia.
Qed.

Lemma mod_add_ok :
  big_ok (exbig_mod_add a b c) /\
  big (exbig_mod_add a b c) = (if big a + big b <? tetto then (big a + big b) mod big m else big a + big b - tetto).
Proof.
  destruct (prepara_ok m c Hm Hc) as [Hmo ->]. unfold exbig_mod_add. cbn [mm].
  pose proof (modulo_tetto m Hm) as Ht. pose proof (big_range a Ha). pose proof (big_range b Hb).
  pose proof (somma_ok a b Ha Hb) as Hs. destruct (somma a b) as [ca d]. destruct Hs as (Hd & Hca & Hv).
  pose proof (modulo_tetto d Hd). pose proof (big_range d Hd). rewrite cmp_ge by done.
  destruct (Z.ltb_spec (big a + big b) tetto).
  - assert (E : ca = 0 \/ ca = 1) by lia. destruct E as [->| ->]; [|lia]. destruct (Z.leb_spec (big m) (big d)) as [Hge|Hlt].
    + destruct (sottrai_ok d m Hd Hm Hge) as [Hs1 Hs2]. split; [exact Hs1|]. rewrite Hs2.
      apply cong_canon; [lia|]. rewrite cong_minus. replace (big d) with (big a + big b) by lia. reflexivity.
    + split; [exact Hd|]. rewrite Z.mod_small by lia. lia.
  - assert (E : ca = 0 \/ ca = 1) by lia. destruct E as [->| ->]; [lia|]. rewrite (proj2 (Z.leb_gt _ _)) by lia. split; [exact Hd|lia].
Qed.

Lemma mod_sub_ok :
  big a + big m < tetto -> big_ok (exbig_mod_sub a b c) /\ big (exbig_mod_sub a b c) = (big a - big b) mod big m.
Proof.
  intros Hfit. destruct (prepara_ok m c Hm Hc) as [Hmo ->]. unfold exbig_mod_sub. cbn [mm].
  pose proof (big_range a Ha). pose proof (big_range b Hb). rewrite cmp_ge by done.
  assert (Hnorm : forall r, big_ok r -> big_ok (normalizza r) /\ big (normalizza r) = big r).
  { intros [n p] []. by apply normalizza_ok. }
  destruct (Z.leb_spec (big b) (big a)) as [Hge|Hlt].
  - destruct (sottrai_ok a b Ha Hb Hge) as [Hs1 Hs2]. destruct (Hnorm _ Hs1) as [Hn1 Hn2]. split; [exact Hn1|].
    rewrite Hn2, Hs2, Z.mod_small by lia. reflexivity.
  - pose proof (somma_ok a m Ha Hm) as Hs. destruct (somma a m) as [ca d]. destruct Hs as (Hd & Hca & Hv).
    pose proof (big_range d Hd). assert (E : ca = 0 \/ ca = 1) by lia. destruct E as [->| ->]; [|lia].
    destruct (sottrai_ok d b Hd Hb) as [Hs1 Hs2]; [lia|]. destruct (Hnorm _ Hs1) as [Hn1 Hn2]. split; [exact Hn1|].
    rewrite Hn2, Hs2. apply cong_canon; [lia|]. exists 1. lia.
Qed.

End Prepared.

(** ** Checking a concrete number *)

Definition big_okb (a : ExBig) : bool :=
  (length (bp a) =? EXBIG_PAROLE)%nat && (bn a <=? EXBIG_PAROLE)%nat &&
  forallb (fun w => (0 <=? w) && (w <? W32)) (bp a) && forallb (fun w => w =? 0) (drop (bn a) (bp a)) &&
  ((bn a =? 0)%nat || negb (parola (bp a) (bn a - 1) =? 0)).

Lemma big_okb_ok a : big_okb a = true -> big_ok a.
Proof.
  unfold big_okb. rewrite !andb_true_iff, orb_true_iff, negb_true_iff, Nat.leb_le, !Nat.eqb_eq, Z.eqb_neq, !forallb_forall.
  intros ((((H1 & H2) & H3) & H4) & H5). split; [done|done| | |].
  - apply Forall_forall. intros w Hw. apply list_elem_of_In, H3 in Hw. lia.
  - intros i Hi. unfold parola. rewrite nth_lookup. destruct (bp a !! i) as [w|] eqn:E; [|done]. cbn.
    apply Z.eqb_eq, H4, list_elem_of_In. apply list_elem_of_lookup. exists (i - bn a)%nat. rewrite lookup_drop, <- E. f_equal. lia.
  - intros Hn. destruct H5; [lia|done].
Qed.
