(* ===== verification/ExbigThms.v ===== *)
(** * Long integers: theorems *)

From S2P Require Import Prelude Bytes Exbig ExbigSpec ExbigMont ExbigPow ExbigByte.

(** C27: for well-formed numbers, [exbig_modexp] returns a result exactly when
    the modulus is odd and the base is reduced, and the result is then
    [base ^ e mod m], a well-formed number; exponent 0 and modulus 1 included. *)
Theorem exbig_modexp_correct base e m :
  big_ok base -> big_ok e -> big_ok m ->
  (Z.odd (big m) = true /\ big base < big m ->
   exists r, exbig_modexp base e m = Some r /\ big_ok r /\ big r = big base ^ big e mod big m) /\
  (~ (Z.odd (big m) = true /\ big base < big m) -> exbig_modexp base e m = None).
Proof.
  intros Hb He Hm. rewrite <- modulo_ok_odd by done. split.
  - intros [Hmo Hlt]. by apply modexp_ok.
  - by apply modexp_rejects.
Qed.

Lemma exbig_modexp_correct_witness :
  (exists r, exbig_modexp (exbig_da_parola 4) (exbig_da_parola 13) (exbig_da_parola 497) = Some r /\ big r = 445) /\
  exbig_modexp (exbig_da_parola 4) (exbig_da_parola 13) (exbig_da_parola 496) = None.
Proof.
  destruct (da_parola_ok 4 ltac:(split; [lia|reflexivity])) as [H4 _].
  destruct (da_parola_ok 13 ltac:(split; [lia|reflexivity])) as [H13 _].
  destruct (da_parola_ok 497 ltac:(split; [lia|reflexivity])) as [H497 _].
  destruct (da_parola_ok 496 ltac:(split; [lia|reflexivity])) as [H496 _]. split.
  - destruct (proj1 (exbig_modexp_correct (exbig_da_parola 4) (exbig_da_parola 13) (exbig_da_parola 497) H4 H13 H497))
      as (r & Hr & _ & Hv); [split; vm_compute; reflexivity|].
    exists r. split; [exact Hr|]. rewrite Hv. vm_compute. reflexivity.
  - apply (exbig_modexp_correct (exbig_da_parola 4) (exbig_da_parola 13) (exbig_da_parola 496) H4 H13 H496).
    intros [Ho _]. vm_compute in Ho. discriminate Ho.
Defined.

(** bytes and numbers determine each other: a number that fits in [len]
    bytes is written in [len] bytes that read back as the same number (the same
    words), one that does not fit is refused; a sequence of bytes that fits in
    4096 bits is read as its value and writes back as the same bytes, leading
    zeroes included, one that does not fit is refused. *)
Theorem exbig_bytes_roundtrip a len b :
  big_ok a -> bytes b ->
  match exbig_a_byte a len with
  | Some s => length s = len /\ bytes s /\ be s = big a /\ exbig_da_byte s = Some a
  | None => 256 ^ Z.of_nat len <= big a
  end /\
  match exbig_da_byte b with
  | Some r => big_ok r /\ big r = be b /\ exbig_a_byte r (length b) = Some b
  | None => 256 ^ Z.of_nat (EXBIG_PAROLE * 4) <= be b
  end.
Proof.
  intros Ha Hb. split.
  - destruct (Z.lt_ge_cases (big a) (256 ^ Z.of_nat len)) as [Hlt|Hge]; [|rewrite (a_byte_no a len Ha Hge); exact Hge].
    destruct (a_byte_ok a len Ha Hlt) as (s & -> & Hl & Hs & Hv). split; [done|]. split; [done|]. split; [done|].
    destruct (da_byte_ok s Hs) as (r & -> & Hr & Hrv); [rewrite Hv; exact (big_fits a Ha)|].
    f_equal. apply big_inj; [done|done|lia].
  - destruct (Z.lt_ge_cases (be b) (256 ^ Z.of_nat (EXBIG_PAROLE * 4))) as [Hlt|Hge];
      [|rewrite (da_byte_no b Hb Hge); exact Hge].
    destruct (da_byte_ok b Hb Hlt) as (r & -> & Hr & Hv). split; [done|]. split; [done|].
    destruct (a_byte_ok r (length b) Hr) as (s & -> & Hl & Hs & Hsv); [rewrite Hv; apply be_range, Hb|].
    f_equal. apply be_inj; [done|done|done|lia].
Qed.

Lemma exbig_bytes_roundtrip_witness :
  exbig_a_byte (exbig_da_parola 258) 4 = Some [0; 0; 1; 2] /\
  exists r, exbig_da_byte [0; 1; 2] = Some r /\ exbig_a_byte r 3 = Some [0; 1; 2].
Proof.
  destruct (da_parola_ok 258 ltac:(split; [lia|reflexivity])) as [Ha _].
  assert (Hb : bytes [0; 1; 2]) by (repeat constructor; lia).
  destruct (exbig_bytes_roundtrip (exbig_da_parola 258) 4 [0; 1; 2] Ha Hb) as [_ H2].
  split; [vm_compute; reflexivity|]. destruct (exbig_da_byte [0; 1; 2]) as [r|].
  - exists r. split; [reflexivity|apply H2].
  - exfalso. vm_compute in H2. by apply H2.
Defined.

(** C40: with a prepared modulus and reduced operands, the product is right
    for every modulus up to 4096 bits; sum and difference are right when
    [a + b], respectively [a + m], stays below [2^4096]; when [a + b] reaches
    [2^4096] the sum is [a + b - 2^4096], the carry is lost, and that is not
    [a + b] modulo [m]. *)
Theorem exbig_mod_ops_correct m c a b :
  big_ok m -> exbig_mod_prepara m = Some c -> big_ok a -> big_ok b -> big a < big m -> big b < big m ->
  big (exbig_mod_mul a b c) = (big a * big b) mod big m /\
  (big a + big b < 2 ^ 4096 -> big (exbig_mod_add a b c) = (big a + big b) mod big m) /\
  (big a + big m < 2 ^ 4096 -> big (exbig_mod_sub a b c) = (big a - big b) mod big m) /\
  (2 ^ 4096 <= big a + big b ->
   big (exbig_mod_add a b c) = big a + big b - 2 ^ 4096 /\ big (exbig_mod_add a b c) <> (big a + big b) mod big m).
Proof.
  intros Hm Hc Ha Hb Hra Hrb. change (2 ^ 4096) with (W32 ^ Z.of_nat EXBIG_PAROLE).
  destruct (mod_mul_ok m c Hm Hc a b Ha Hb Hra Hrb) as [_ Hmul].
  destruct (mod_add_ok m c Hm Hc a b Ha Hb Hra Hrb) as [_ Hadd]. split; [exact Hmul|]. split; [|split].
  - intros Hlt. rewrite Hadd. by rewrite (proj2 (Z.ltb_lt _ _) Hlt).
  - intros Hlt. exact (proj2 (mod_sub_ok m c Hm Hc a b Ha Hb Hra Hrb Hlt)).
  - intros Hge. rewrite (proj2 (Z.ltb_ge _ _) Hge) in Hadd. split; [exact Hadd|]. rewrite Hadd. pose proof (modulo_tetto m Hm).
    replace ((big a + big b) mod big m) with (big a + big b - big m); [lia|]. apply (Z.mod_unique _ _ 1); lia.
Qed.

(** The modulus [2^4096 - 1], and that number less 1. *)
Definition pieno (w : Z) : ExBig := mkBig EXBIG_PAROLE (w :: replicate (EXBIG_PAROLE - 1) (W32 - 1)).

Definition piccolo (m : Z) : ExBigMod :=
  mkMod (exbig_da_parola m) (erre_quadro (exbig_da_parola m) 1) (n0_inverso m) 1.

Lemma exbig_mod_ops_correct_witness :
  big (exbig_mod_mul (exbig_da_parola 60) (exbig_da_parola 50) (piccolo 97)) = 90 /\
  big (exbig_mod_add (exbig_da_parola 60) (exbig_da_parola 50) (piccolo 97)) = 13 /\
  big (exbig_mod_sub (exbig_da_parola 50) (exbig_da_parola 60) (piccolo 97)) = 87 /\
  (exists c, exbig_mod_prepara (pieno (W32 - 1)) = Some c /\
   big (exbig_mod_add (pieno (W32 - 2)) (pieno (W32 - 2)) c) <>
     (big (pieno (W32 - 2)) + big (pieno (W32 - 2))) mod big (pieno (W32 - 1))).
Proof.
  destruct (da_parola_ok 97 ltac:(split; [lia|reflexivity])) as [Hm _].
  destruct (da_parola_ok 60 ltac:(split; [lia|reflexivity])) as [H60 _].
  destruct (da_parola_ok 50 ltac:(split; [lia|reflexivity])) as [H50 _].
  destruct (exbig_mod_ops_correct (exbig_da_parola 97) (piccolo 97) (exbig_da_parola 60) (exbig_da_parola 50)
    Hm ltac:(reflexivity) H60 H50 ltac:(vm_compute; reflexivity) ltac:(vm_compute; reflexivity)) as (H1 & H2 & _).
  destruct (exbig_mod_ops_correct (exbig_da_parola 97) (piccolo 97) (exbig_da_parola 50) (exbig_da_parola 60)
    Hm ltac:(reflexivity) H50 H60 ltac:(vm_compute; reflexivity) ltac:(vm_compute; reflexivity)) as (_ & _ & H3 & _).
  split; [rewrite H1; vm_compute; reflexivity|]. split; [rewrite H2; vm_compute; reflexivity|].
  split; [rewrite H3; vm_compute; reflexivity|].
  assert (Hp : big_ok (pieno (W32 - 1))) by (apply big_okb_ok; vm_compute; reflexivity).
  assert (Ha : big_ok (pieno (W32 - 2))) by (apply big_okb_ok; vm_compute; reflexivity).
  destruct (proj2 (prepara_iff (pieno (W32 - 1)) Hp) ltac:(vm_compute; reflexivity)) as [c Hc].
  exists c. split; [exact Hc|].
  apply (exbig_mod_ops_correct (pieno (W32 - 1)) c (pieno (W32 - 2)) (pieno (W32 - 2)) Hp Hc Ha Ha);
    [vm_compute; reflexivity|vm_compute; reflexivity|].
  apply Z.leb_le. vm_compute. reflexivity.
Defined.
