(* ===== verification/Exasn1.v ===== *)
(** * DER elements and X.509 certificates (lib/exasn1/exasn1.c)

    A pointer into the certificate is an offset into the byte buffer [der],
    [None] is the null pointer.  A read goes through [leggi_byte], which fails
    with [Fuori] when the offset is outside the buffer; [Rifiuto] is a return of
    -1.  The structure that a call leaves behind when it returns -1 is not
    looked at by the callers and is not represented.  Pointers that the callers
    own ([d], [out], [c]) are taken as not null. *)

From S2P Require Import Prelude Esito.

(** ** Data *)

Record ExDer : Type := mkDer { dp : option Z; dn : Z }.

Record ExDerElem : Type := mkElem { tag : Z; valore : ExDer; intestazione : Z }.

Definition TAG_INTERO : Z := 0x02.
Definition TAG_BITSTRING : Z := 0x03.
Definition TAG_OCTETSTRING : Z := 0x04.
Definition TAG_OID : Z := 0x06.
Definition TAG_SEQUENZA : Z := 0x30.
Definition TAG_UTCTIME : Z := 0x17.
Definition TAG_GENTIME : Z := 0x18.
Definition TAG_BOOLEANO : Z := 0x01.

Definition EXASN1_ALG_IGNOTO : Z := 0.
Definition EXASN1_ALG_RSA_SHA256 : Z := 1.
Definition EXASN1_ALG_RSA_SHA384 : Z := 2.
Definition EXASN1_ALG_RSA_SHA512 : Z := 3.
Definition EXASN1_ALG_RSA_SHA1 : Z := 4.
Definition EXASN1_ALG_ECDSA_SHA256 : Z := 5.
Definition EXASN1_ALG_ECDSA_SHA384 : Z := 6.

Definition EXASN1_CHIAVE_IGNOTA : Z := 0.
Definition EXASN1_CHIAVE_RSA : Z := 1.
Definition EXASN1_CHIAVE_EC_P256 : Z := 2.
Definition EXASN1_CHIAVE_EC_P384 : Z := 3.

Record ExCert : Type := mkCert {
  tbs : ExDer;
  emittente : ExDer;
  soggetto : ExDer;
  numero_serie : ExDer;
  tipo_chiave : Z;
  chiave_modulo : ExDer;
  chiave_esponente : ExDer;
  chiave_punto : ExDer;
  alg_firma : Z;
  firma : ExDer;
  non_prima : list Z;
  non_dopo : list Z;
  e_ca : Z;
  ha_basic : Z;
  san : ExDer
}.

Definition nullo : ExDer := mkDer None 0.

(** ** The reader *)

Definition leggi_byte (buf : list Z) (p : option Z) (i : Z) : esito Z :=
  match p with
  | None => Fuori
  | Some p => if (0 <=? p + i) && (p + i <? Z.of_nat (length buf)) then Val (nth (Z.to_nat (p + i)) buf 0) else Fuori
  end.

(** [p + i] on a pointer. *)
Definition sposta (p : option Z) (i : Z) : option Z := option_map (fun p => p + i) p.

Fixpoint lung_loop (k : nat) (buf : list Z) (p : option Z) (i lung : Z) : esito Z :=
  match k with
  | O => Val lung
  | S k => b ← leggi_byte buf p i; lung_loop k buf p (u32 (i + 1)) (Z.lor (u32 (Z.shiftl lung 8)) b)
  end.

(** The length field at [off + 1]: the length and the bytes it takes. *)
Definition leggi_lung (der : list Z) (d : ExDer) (off : Z) : esito (Z * Z) :=
  b ← leggi_byte der (dp d) (u32 (off + 1));
  if b <? 0x80 then Val (b, 1)
  else
    let byte_lung := Z.land b 0x7F in
    if (byte_lung =? 0) || (4 <? byte_lung) then Rifiuto
    else if u32 (dn d - off - 2) <? byte_lung then Rifiuto
    else
      lung ← lung_loop (Z.to_nat byte_lung) der (dp d) (u32 (off + 2)) 0;
      if dn d <? lung then Rifiuto else Val (lung, byte_lung + 1).

Definition exder_leggi (der : list Z) (d : ExDer) (off : Z) : esito ExDerElem :=
  if bool_decide (dp d = None) then Rifiuto
  else if (dn d <=? off) || (u32 (dn d - off) <? 2) then Rifiuto
  else
    tag ← leggi_byte der (dp d) off;
    if Z.land tag 0x1F =? 0x1F then Rifiuto
    else
      '(lung, byte_lung) ← leggi_lung der d off;
      if u32 (dn d - off - 1 - byte_lung) <? lung then Rifiuto
      else
        let intestazione := 1 + byte_lung in
        Val (mkElem tag (mkDer (sposta (dp d) (off + intestazione)) lung) intestazione).

Definition exder_dentro (der : list Z) (d : ExDer) (off tag_atteso : Z) : esito ExDer :=
  e ← exder_leggi der d off;
  if tag e =? tag_atteso then Val (valore e) else Rifiuto.

(** [exder_leggi(d, off, &e) != 0 || e.tag != atteso] *)
Definition leggi_tag (der : list Z) (d : ExDer) (off atteso : Z) : esito ExDerElem :=
  e ← exder_leggi der d off;
  if tag e =? atteso then Val e else Rifiuto.

(** [e.intestazione + e.valore.n] *)
Definition intera (e : ExDerElem) : Z := u32 (intestazione e + dn (valore e)).

Definition misura (der : list Z) (d : ExDer) (off : Z) : esito Z :=
  o ← prova (exder_leggi der d off);
  Val (match o with Some e => intera e | None => 0 end).

(** ** Object identifiers *)

Fixpoint uguali_loop (k : nat) (a : list Z) (pa : option Z) (b : list Z) (pb : option Z) (i : Z) : esito bool :=
  match k with
  | O => Val true
  | S k =>
      x ← leggi_byte a pa i;
      y ← leggi_byte b pb i;
      if negb (x =? y) then Val false else uguali_loop k a pa b pb (i + 1)
  end.

Definition uguali (a : list Z) (pa : option Z) (an : Z) (b : list Z) (pb : option Z) (bn : Z) : esito bool :=
  if negb (an =? bn) then Val false else uguali_loop (Z.to_nat an) a pa b pb 0.

(** Comparison of a slice with a constant array. *)
Definition e_oid (der : list Z) (o : ExDer) (oid : list Z) : esito bool :=
  uguali der (dp o) (dn o) oid (Some 0) (Z.of_nat (length oid)).

Definition OID_RSA_SHA256 : list Z := [0x2A;0x86;0x48;0x86;0xF7;0x0D;0x01;0x01;0x0B].
Definition OID_RSA_SHA384 : list Z := [0x2A;0x86;0x48;0x86;0xF7;0x0D;0x01;0x01;0x0C].
Definition OID_RSA_SHA512 : list Z := [0x2A;0x86;0x48;0x86;0xF7;0x0D;0x01;0x01;0x0D].
Definition OID_RSA_SHA1 : list Z := [0x2A;0x86;0x48;0x86;0xF7;0x0D;0x01;0x01;0x05].
Definition OID_ECDSA_SHA256 : list Z := [0x2A;0x86;0x48;0xCE;0x3D;0x04;0x03;0x02].
Definition OID_ECDSA_SHA384 : list Z := [0x2A;0x86;0x48;0xCE;0x3D;0x04;0x03;0x03].
Definition OID_RSA : list Z := [0x2A;0x86;0x48;0x86;0xF7;0x0D;0x01;0x01;0x01].
Definition OID_EC : list Z := [0x2A;0x86;0x48;0xCE;0x3D;0x02;0x01].
Definition OID_P256 : list Z := [0x2A;0x86;0x48;0xCE;0x3D;0x03;0x01;0x07].
Definition OID_P384 : list Z := [0x2B;0x81;0x04;0x00;0x22].
Definition OID_BASIC : list Z := [0x55;0x1D;0x13].
Definition OID_SAN : list Z := [0x55;0x1D;0x11].

(** The comparisons of [alg_da_oid], in its order. *)
Fixpoint scegli (der : list Z) (o : ExDer) (l : list (list Z * Z)) : esito Z :=
  match l with
  | [] => Val EXASN1_ALG_IGNOTO
  | (oid, alg) :: l => b ← e_oid der o oid; if b : bool then Val alg else scegli der o l
  end.

Definition tabella_alg : list (list Z * Z) :=
  [(OID_RSA_SHA256, EXASN1_ALG_RSA_SHA256); (OID_RSA_SHA384, EXASN1_ALG_RSA_SHA384);
   (OID_RSA_SHA512, EXASN1_ALG_RSA_SHA512); (OID_RSA_SHA1, EXASN1_ALG_RSA_SHA1);
   (OID_ECDSA_SHA256, EXASN1_ALG_ECDSA_SHA256); (OID_ECDSA_SHA384, EXASN1_ALG_ECDSA_SHA384)].

Definition alg_da_oid (der : list Z) (o : ExDer) : esito Z := scegli der o tabella_alg.

(** ** Dates *)

(** [for (i = 0; i < k; i++) out[..] = s[i]] from [i]. *)
Fixpoint copia_byte (k : nat) (der : list Z) (p : option Z) (i : Z) : esito (list Z) :=
  match k with
  | O => Val []
  | S k => b ← leggi_byte der p i; l ← copia_byte k der p (i + 1); Val (b :: l)
  end.

(** The 16 characters of [out]; '5' is 53, 'Z' is 90. *)
Definition leggi_data (der : list Z) (e : ExDerElem) : esito (list Z) :=
  let s := dp (valore e) in
  let n := dn (valore e) in
  cifre ← (if tag e =? TAG_UTCTIME then
             if n <? 13 then Rifiuto
             else
               s0 ← leggi_byte der s 0;
               l ← copia_byte 12 der s 0;
               Val ((if 53 <=? s0 then [49; 57] else [50; 48]) ++ l)
           else if tag e =? TAG_GENTIME then
             if n <? 15 then Rifiuto else copia_byte 14 der s 0
           else Rifiuto);
  Val (cifre ++ [90; 0]).

(** ** The public key *)

(** [while (n > 1 && p[0] == 0) { p++; n--; }] *)
Fixpoint togli_zeri (k : nat) (der : list Z) (d : ExDer) : esito ExDer :=
  match k with
  | O => Val d
  | S k =>
      if 1 <? dn d then
        b ← leggi_byte der (dp d) 0;
        if b =? 0 then togli_zeri k der (mkDer (sposta (dp d) 1) (dn d - 1)) else Val d
      else Val d
  end.

Definition set_rsa (modulo esponente : ExDer) (c : ExCert) : ExCert :=
  mkCert (tbs c) (emittente c) (soggetto c) (numero_serie c) EXASN1_CHIAVE_RSA modulo esponente (chiave_punto c)
         (alg_firma c) (firma c) (non_prima c) (non_dopo c) (e_ca c) (ha_basic c) (san c).

Definition set_ec (tipo : Z) (punto : ExDer) (c : ExCert) : ExCert :=
  mkCert (tbs c) (emittente c) (soggetto c) (numero_serie c) tipo (chiave_modulo c) (chiave_esponente c) punto
         (alg_firma c) (firma c) (non_prima c) (non_dopo c) (e_ca c) (ha_basic c) (san c).

Definition chiave_rsa (der : list Z) (dentro : ExDer) (c : ExCert) : esito ExCert :=
  rsa ← exder_dentro der dentro 0 TAG_SEQUENZA;
  n_el ← leggi_tag der rsa 0 TAG_INTERO;
  e_el ← leggi_tag der rsa (intera n_el) TAG_INTERO;
  modulo ← togli_zeri (Z.to_nat (dn (valore n_el))) der (valore n_el);
  Val (set_rsa modulo (valore e_el) c).

Definition chiave_ec (der : list Z) (alg oid : ExDerElem) (dentro : ExDer) (c : ExCert) : esito ExCert :=
  curva ← leggi_tag der (valore alg) (intera oid) TAG_OID;
  _ ← esige (1 <=? dn dentro);
  b ← leggi_byte der (dp dentro) 0;
  _ ← esige (b =? 0x04);
  p256 ← e_oid der (valore curva) OID_P256;
  if p256 : bool then Val (set_ec EXASN1_CHIAVE_EC_P256 dentro c)
  else
    p384 ← e_oid der (valore curva) OID_P384;
    if p384 : bool then Val (set_ec EXASN1_CHIAVE_EC_P384 dentro c) else Rifiuto.

(** The content of a BIT STRING, without the byte of the unused bits. *)
Definition bit_dentro (bs : ExDerElem) : ExDer := mkDer (sposta (dp (valore bs)) 1) (u32 (dn (valore bs) - 1)).

Definition leggi_chiave (der : list Z) (spki : ExDer) (c : ExCert) : esito ExCert :=
  alg ← leggi_tag der spki 0 TAG_SEQUENZA;
  oid ← leggi_tag der (valore alg) 0 TAG_OID;
  bs ← leggi_tag der spki (intera alg) TAG_BITSTRING;
  _ ← esige (1 <=? dn (valore bs));
  b ← leggi_byte der (dp (valore bs)) 0;
  _ ← esige (b =? 0);
  let dentro := bit_dentro bs in
  rsa ← e_oid der (valore oid) OID_RSA;
  if rsa : bool then chiave_rsa der dentro c
  else
    ec ← e_oid der (valore oid) OID_EC;
    if ec : bool then chiave_ec der alg oid dentro c else Rifiuto.

(** ** Extensions *)

Definition set_san (s : ExDer) (c : ExCert) : ExCert :=
  mkCert (tbs c) (emittente c) (soggetto c) (numero_serie c) (tipo_chiave c) (chiave_modulo c) (chiave_esponente c)
         (chiave_punto c) (alg_firma c) (firma c) (non_prima c) (non_dopo c) (e_ca c) (ha_basic c) s.

Definition set_basic (ca : Z) (c : ExCert) : ExCert :=
  mkCert (tbs c) (emittente c) (soggetto c) (numero_serie c) (tipo_chiave c) (chiave_modulo c) (chiave_esponente c)
         (chiave_punto c) (alg_firma c) (firma c) (non_prima c) (non_dopo c) ca 1 (san c).

(** The element after the OID, past the boolean of a critical extension. *)
Definition dopo_oid (der : list Z) (e oid : ExDerElem) : esito ExDerElem :=
  let interno := intera oid in
  dopo ← exder_leggi der (valore e) interno;
  if tag dopo =? TAG_BOOLEANO then exder_leggi der (valore e) (u32 (interno + intera dopo)) else Val dopo.

(** The boolean of BasicConstraints; absent is false. *)
Definition basic_ca (der : list Z) (dopo : ExDerElem) : esito bool :=
  seq ← leggi_tag der (valore dopo) 0 TAG_SEQUENZA;
  let dentro := valore seq in
  if dn dentro =? 0 then Val false
  else
    ca ← exder_leggi der dentro 0;
    if (tag ca =? TAG_BOOLEANO) && (1 <=? dn (valore ca)) then
      b ← leggi_byte der (dp (valore ca)) 0; Val (negb (b =? 0))
    else Val false.

(** The body of the loop of [leggi_estensioni] on the element [e]. *)
Definition estensione (der : list Z) (e : ExDerElem) (c : ExCert) : esito ExCert :=
  oid ← prova (leggi_tag der (valore e) 0 TAG_OID);
  match oid with
  | None => Val c
  | Some oid =>
      e_basic ← e_oid der (valore oid) OID_BASIC;
      e_san ← e_oid der (valore oid) OID_SAN;
      if negb e_basic && negb e_san then Val c
      else
        dopo ← prova (dopo_oid der e oid);
        match dopo with
        | None => Val c
        | Some dopo =>
            if negb (tag dopo =? TAG_OCTETSTRING) then Val c
            else if e_san : bool then
              seq ← prova (leggi_tag der (valore dopo) 0 TAG_SEQUENZA);
              Val (match seq with Some seq => set_san (valore seq) c | None => c end)
            else
              ca ← prova (basic_ca der dopo);
              Val (set_basic (if decide (ca = Some true) then 1 else e_ca c) c)
        end
  end.

Fixpoint estensioni_loop (fuel : nat) (der : list Z) (ext : ExDer) (off : Z) (c : ExCert) : esito ExCert :=
  match fuel with
  | O => Stanco
  | S fuel =>
      if off <? dn ext then
        passo ← misura der ext off;
        if passo =? 0 then Val c
        else
          e ← prova (leggi_tag der ext off TAG_SEQUENZA);
          match e with
          | None => Val c
          | Some e => c ← estensione der e c; estensioni_loop fuel der ext (u32 (off + passo)) c
          end
      else Val c
  end.

Definition leggi_estensioni (der : list Z) (ext : ExDer) (c : ExCert) : esito ExCert :=
  estensioni_loop (S (Z.to_nat (dn ext))) der ext 0 c.

(** The search for the element [3] in what follows the key. *)
Fixpoint cerca_estensioni (fuel : nat) (der : list Z) (tbs : ExDer) (off : Z) (c : ExCert) : esito ExCert :=
  match fuel with
  | O => Stanco
  | S fuel =>
      if off <? dn tbs then
        passo ← misura der tbs off;
        if passo =? 0 then Val c
        else
          el ← prova (leggi_tag der tbs off 0xA3);
          match el with
          | Some el =>
              dentro ← prova (exder_dentro der (valore el) 0 TAG_SEQUENZA);
              match dentro with Some dentro => leggi_estensioni der dentro c | None => Val c end
          | None => cerca_estensioni fuel der tbs (u32 (off + passo)) c
          end
      else Val c
  end.

(** ** The certificate *)

Definition set_ignota (c : ExCert) : ExCert :=
  mkCert (tbs c) (emittente c) (soggetto c) (numero_serie c) EXASN1_CHIAVE_IGNOTA (chiave_modulo c) (chiave_esponente c)
         (chiave_punto c) (alg_firma c) (firma c) (non_prima c) (non_dopo c) (e_ca c) (ha_basic c) (san c).

(** The elements of the TBSCertificate up to the subject, from which the
    structure is filled; the second component is the offset of the key. *)
Definition analizza_tbs (der : list Z) (tbs t : ExDer) (alg : Z) (firma : ExDer) : esito (ExCert * Z) :=
  el ← exder_leggi der t 0;
  let off := if tag el =? 0xA0 then intera el else 0 in
  serie ← leggi_tag der t off TAG_INTERO;
  let off := u32 (off + intera serie) in
  el ← leggi_tag der t off TAG_SEQUENZA;
  let off := u32 (off + intera el) in
  el ← leggi_tag der t off TAG_SEQUENZA;
  let emittente := mkDer (sposta (dp t) off) (intera el) in
  let off := u32 (off + intera el) in
  el ← leggi_tag der t off TAG_SEQUENZA;
  let v := valore el in
  a ← exder_leggi der v 0;
  non_prima ← leggi_data der a;
  b ← exder_leggi der v (intera a);
  non_dopo ← leggi_data der b;
  let off := u32 (off + intera el) in
  el ← leggi_tag der t off TAG_SEQUENZA;
  let soggetto := mkDer (sposta (dp t) off) (intera el) in
  let off := u32 (off + intera el) in
  Val (mkCert tbs emittente soggetto (valore serie) EXASN1_CHIAVE_IGNOTA nullo nullo nullo alg firma
              non_prima non_dopo 0 0 nullo, off).

Definition excert_analizza (der : list Z) (len : Z) : esito ExCert :=
  corpo ← exder_dentro der (mkDer (Some 0) len) 0 TAG_SEQUENZA;
  el ← leggi_tag der corpo 0 TAG_SEQUENZA;
  let tbs := mkDer (dp corpo) (intera el) in
  let t := valore el in
  let off := dn tbs in
  alg ← leggi_tag der corpo off TAG_SEQUENZA;
  oid ← leggi_tag der (valore alg) 0 TAG_OID;
  alg_firma ← alg_da_oid der (valore oid);
  let off := u32 (off + intera alg) in
  f ← leggi_tag der corpo off TAG_BITSTRING;
  _ ← esige (2 <=? dn (valore f));
  b ← leggi_byte der (dp (valore f)) 0;
  _ ← esige (b =? 0);
  '(c, off) ← analizza_tbs der tbs t alg_firma (bit_dentro f);
  el ← leggi_tag der t off TAG_SEQUENZA;
  k ← prova (leggi_chiave der (valore el) c);
  let c := match k with Some c => c | None => set_ignota c end in
  cerca_estensioni (S (Z.to_nat (dn t))) der t (u32 (off + intera el)) c.

(** [a] and [b] may point into different buffers. *)
Definition excert_stesso_nome (bufa : list Z) (a : ExDer) (bufb : list Z) (b : ExDer) : esito bool :=
  if bool_decide (dp a = None) || bool_decide (dp b = None) then Val false
  else uguali bufa (dp a) (dn a) bufb (dp b) (dn b).
