(* ===== verification/Exasn1Spec.v ===== *)
(** * DER reader: reads stay inside the buffer, slices inside their slice

    The lemmas of the section share the hypotheses on the buffer. *)

From S2P Require Import Prelude Bytes Esito Exasn1.

(** [d] is a slice of the slice [e]; a null slice is empty, and a slice of every other. *)
Definition parte_di (d e : ExDer) : Prop :=
  0 <= dn d /\
  match dp d, dp e with
  | None, _ => dn d = 0
  | Some p, Some q => q <= p /\ p + dn d <= q + dn e
  | Some _, None => False
  end.

Lemma parte_di_trans d e f : parte_di d e -> parte_di e f -> parte_di d f.
Proof.
  unfold parte_di. intros [H1 H2] [H3 H4]. split; [done|].
  destruct (dp d), (dp e), (dp f); try done. lia.
Qed.

Lemma parte_di_refl d e : parte_di d e -> parte_di d d.
Proof. unfold parte_di. intros [H H']. destruct (dp d); split; lia || done. Qed.

Lemma parte_di_nullo d : parte_di nullo d.
Proof. split; cbn; [lia|done]. Qed.

(** The buffer as a slice. *)
Definition tutto (der : list Z) : ExDer := mkDer (Some 0) (Z.of_nat (length der)).

Section Safety.

Context (der : list Z) (Hlen : Z.of_nat (length der) < W32) (Hbyte : bytes der).

(** A slice of the buffer. *)
Definition fetta (d : ExDer) : Prop := parte_di d (tutto der) /\ dn d < W32.

Lemma leggi_byte_ok d i :
  fetta d -> dp d <> None -> 0 <= i < dn d -> exists b, leggi_byte der (dp d) i = Val b /\ 0 <= b < 256.
Proof.
  intros [[_ H] _] Hp Hi. unfold leggi_byte. destruct (dp d) as [p|]; [|done]. cbn in H.
  rewrite (proj2 (Z.leb_le _ _)), (proj2 (Z.ltb_lt _ _)) by lia. cbn [andb].
  eexists. split; [reflexivity|]. rewrite nth_lookup. destruct (der !! Z.to_nat (p + i)) as [b|] eqn:E.
  - cbn. exact (Forall_lookup_1 _ _ _ _ Hbyte E).
  - cbn. lia.
Qed.

Lemma leggi_byte_salvo d i :
  fetta d -> dp d <> None -> 0 <= i < dn d -> salvo (leggi_byte der (dp d) i) (fun b => 0 <= b < 256).
Proof. intros H1 H2 H3. by destruct (leggi_byte_ok d i H1 H2 H3) as (b & -> & Hb). Qed.

Lemma lung_loop_salvo d k : forall i lung,
  fetta d -> dp d <> None -> 0 <= i -> i + Z.of_nat k <= dn d -> 0 <= lung < W32 ->
  salvo (lung_loop k der (dp d) i lung) (fun l => 0 <= l < W32).
Proof.
  induction k as [|k IH]; intros i lung Hd Hp Hi Hk Hl; cbn [lung_loop]; [done|].
  chiama leggi_byte_salvo as b Hb; [done|done|lia..|].
  pose proof (proj2 Hd). rewrite u32_small by lia. apply IH; [done|done|lia|lia|].
  apply lor_u32; [apply u32_range|unfold W32; lia].
Qed.

(** What [exder_leggi] returns: an element that lies in [d] at [off]. *)
Definition elemento (d : ExDer) (off : Z) (e : ExDerElem) : Prop :=
  0 <= tag e < 256 /\ 2 <= intestazione e <= 6 /\ 0 <= dn (valore e) /\
  off + intestazione e + dn (valore e) <= dn d /\
  exists p, dp d = Some p /\ dp (valore e) = Some (p + off + intestazione e).

Lemma leggi_lung_salvo d off :
  fetta d -> dp d <> None -> 0 <= off -> off + 2 <= dn d ->
  salvo (leggi_lung der d off) (fun '(lung, byte_lung) => 0 <= lung < W32 /\ 1 <= byte_lung <= 5 /\ off + 1 + byte_lung <= dn d).
Proof.
  intros Hd Hp Ho Hn. pose proof (proj2 Hd) as Hw. unfold leggi_lung. rewrite (u32_small (off + 1)) by lia.
  chiama leggi_byte_salvo as b Hb; [done|done|lia..|].
  destruct (Z.ltb_spec b 0x80); [cbn; unfold W32; lia|].
  assert (Hl : 0 <= Z.land b 127) by (apply Z.land_nonneg; lia).
  destruct (Z.eqb_spec (Z.land b 127) 0); [done|]. destruct (Z.ltb_spec 4 (Z.land b 127)); [done|]. cbn [orb].
  rewrite (u32_small (dn d - off - 2)), (u32_small (off + 2)) by lia.
  destruct (Z.ltb_spec (dn d - off - 2) (Z.land b 127)); [done|].
  chiama lung_loop_salvo as lung Hlu; [done|done|lia|lia|split; [lia|reflexivity]|].
  destruct (dn d <? lung); [done|]. cbn. lia.
Qed.

Lemma exder_leggi_salvo d off :
  fetta d -> 0 <= off -> salvo (exder_leggi der d off) (elemento d off).
Proof.
  intros Hd Ho. pose proof (proj2 Hd) as Hw. unfold exder_leggi. destruct (dp d) as [p|] eqn:Ep; [|done].
  rewrite bool_decide_eq_false_2 by done. rewrite <- Ep.
  destruct (Z.leb_spec (dn d) off); [done|]. cbn [orb]. rewrite (u32_small (dn d - off)) by lia.
  destruct (Z.ltb_spec (dn d - off) 2); [done|]. assert (Hp : dp d <> None) by by rewrite Ep.
  chiama leggi_byte_salvo as t Ht; [done|done|lia..|]. destruct (Z.land t 31 =? 31); [done|].
  chiama leggi_lung_salvo as [lung bl] (Hlu & Hbl & Hfit); [done|done|lia..|].
  rewrite u32_small by lia. destruct (Z.ltb_spec (dn d - off - 1 - bl) lung); [done|].
  cbn [salvo]. unfold elemento. cbn [tag intestazione valore dn dp]. rewrite Ep. repeat (split; [lia|]).
  exists p. split; [done|]. cbn. f_equal. lia.
Qed.

(** The same, in the form that the callers use. *)
Record letto (d : ExDer) (off : Z) (e : ExDerElem) : Prop := mkLetto {
  le_parte : parte_di (valore e) d;
  le_fetta : fetta (valore e);
  le_p : dp (valore e) <> None;
  le_intera : 2 <= intera e;
  le_fine : off + intera e <= dn d;
  le_tutto : parte_di (mkDer (sposta (dp d) off) (intera e)) d;
  le_dentro : parte_di (valore e) (mkDer (sposta (dp d) off) (intera e))
}.

Lemma exder_leggi_ok d off : fetta d -> 0 <= off -> salvo (exder_leggi der d off) (letto d off).
Proof.
  intros Hd Ho. eapply salvo_weaken; [by apply exder_leggi_salvo|]. intros e (_ & Hi & Hn & Hfit & p & Ep & Ev).
  destruct Hd as [[Hd0 Hd] Hw]. rewrite Ep in Hd. cbn in Hd.
  assert (Hint : intera e = intestazione e + dn (valore e)) by (unfold intera; apply u32_small; lia).
  split; unfold fetta, parte_di; rewrite ?Hint, ?Ep, ?Ev; cbn; [lia|lia|done|lia|lia|lia|lia].
Qed.

Lemma leggi_tag_ok d off t :
  fetta d -> 0 <= off -> salvo (leggi_tag der d off t) (letto d off).
Proof.
  intros Hd Ho. unfold leggi_tag. chiama exder_leggi_ok as e He; [done|done|].
  by destruct (tag e =? t).
Qed.

Lemma exder_dentro_ok d off t :
  fetta d -> 0 <= off -> salvo (exder_dentro der d off t) (fun v => parte_di v d /\ fetta v /\ dp v <> None).
Proof.
  intros Hd Ho. unfold exder_dentro. chiama exder_leggi_ok as e He; [done|done|].
  destruct (tag e =? t); [|done]. cbn. split; [apply He|split; apply He].
Qed.

Lemma misura_ok d off :
  fetta d -> 0 <= off -> salvo (misura der d off) (fun n => n = 0 \/ 2 <= n /\ off + n <= dn d).
Proof.
  intros Hd Ho. unfold misura. chiama salvo_prova as o Hoo; [by apply exder_leggi_ok|].
  destruct o as [e|]; cbn; [|by left]. destruct (Hoo e eq_refl). right. done.
Qed.

(** ** Comparisons *)

Lemma leggi_const oid i : 0 <= i < Z.of_nat (length oid) -> exists b, leggi_byte oid (Some 0) i = Val b.
Proof.
  intros Hi. unfold leggi_byte. rewrite (proj2 (Z.leb_le _ _)), (proj2 (Z.ltb_lt _ _)) by lia. by eexists.
Qed.

Lemma uguali_loop_ok o oid k : forall i,
  fetta o -> dp o <> None -> 0 <= i -> i + Z.of_nat k <= dn o -> i + Z.of_nat k <= Z.of_nat (length oid) ->
  salvo (uguali_loop k der (dp o) oid (Some 0) i) (fun _ => True).
Proof.
  induction k as [|k IH]; intros i Ho Hp Hi Hk Hl; cbn [uguali_loop]; [done|].
  chiama leggi_byte_salvo as x _; [done|done|lia|].
  destruct (leggi_const oid i ltac:(lia)) as [y ->]. cbn. destruct (x =? y); cbn; [|done]. apply IH; (done || lia).
Qed.

Lemma e_oid_ok o oid : fetta o -> dp o <> None -> salvo (e_oid der o oid) (fun _ => True).
Proof.
  intros Ho Hp. unfold e_oid, uguali. destruct (Z.eqb_spec (dn o) (Z.of_nat (length oid))); cbn; [|done].
  apply uguali_loop_ok; (done || lia).
Qed.

Lemma scegli_ok o l : fetta o -> dp o <> None -> salvo (scegli der o l) (fun _ => True).
Proof.
  intros Ho Hp. induction l as [|[oid alg] l IH]; cbn [scegli]; [done|].
  chiama e_oid_ok as b _; [done|done|]. by destruct b.
Qed.

(** ** Dates *)

Lemma copia_byte_ok d k : forall i,
  fetta d -> dp d <> None -> 0 <= i -> i + Z.of_nat k <= dn d ->
  salvo (copia_byte k der (dp d) i) (fun l => length l = k).
Proof.
  induction k as [|k IH]; intros i Hd Hp Hi Hk; cbn [copia_byte]; [done|].
  chiama leggi_byte_salvo as b _; [done|done|lia|]. chiama IH as l Hl; [done|done|lia|lia|]. cbn. lia.
Qed.

Lemma leggi_data_ok d off e : letto d off e -> salvo (leggi_data der e) (fun l => length l = 16%nat).
Proof.
  intros [_ Hf Hp _ _ _ _]. unfold leggi_data. apply salvo_bind with (P := fun l => length l = 14%nat).
  - destruct (tag e =? TAG_UTCTIME); [|destruct (tag e =? TAG_GENTIME); [|done]].
    + destruct (Z.ltb_spec (dn (valore e)) 13); [done|]. chiama leggi_byte_salvo as b _; [done|done|lia|].
      chiama copia_byte_ok as l Hl; [done|done|lia|lia|]. cbn. rewrite length_app, Hl. by destruct (53 <=? b).
    + destruct (Z.ltb_spec (dn (valore e)) 15); [done|]. apply copia_byte_ok; (done || lia).
  - intros l Hl. cbn. rewrite length_app, Hl. done.
Qed.

(** ** The public key *)

(** The slices of the certificate that come from the signed part [t]. *)
Record campi (t : ExDer) (c : ExCert) : Prop := mkCampi {
  ca_emittente : parte_di (emittente c) t;
  ca_soggetto : parte_di (soggetto c) t;
  ca_serie : parte_di (numero_serie c) t;
  ca_modulo : parte_di (chiave_modulo c) t;
  ca_esponente : parte_di (chiave_esponente c) t;
  ca_punto : parte_di (chiave_punto c) t;
  ca_san : parte_di (san c) t;
  ca_prima : length (non_prima c) = 16%nat;
  ca_dopo : length (non_dopo c) = 16%nat
}.

(** What the reader of the key and of the extensions may not touch. *)
Definition altri (c c' : ExCert) : Prop := tbs c' = tbs c /\ firma c' = firma c /\ alg_firma c' = alg_firma c.

Lemma togli_zeri_ok k : forall d,
  fetta d -> dp d <> None -> salvo (togli_zeri k der d) (fun v => parte_di v d).
Proof.
  induction k as [|k IH]; intros d Hd Hp; cbn [togli_zeri]; [apply (parte_di_refl _ _ (proj1 Hd))|].
  destruct (Z.ltb_spec 1 (dn d)); [|apply (parte_di_refl _ _ (proj1 Hd))]. chiama leggi_byte_salvo as b _; [done|done|lia|].
  destruct (b =? 0); [|apply (parte_di_refl _ _ (proj1 Hd))]. destruct (dp d) as [p|] eqn:Ep; [|done]. cbn [sposta option_map].
  assert (Hs : parte_di (mkDer (Some (p + 1)) (dn d - 1)) d) by (unfold parte_di; rewrite Ep; cbn; lia).
  eapply salvo_weaken; [apply IH; [|done]|].
  - split; [exact (parte_di_trans _ _ _ Hs (proj1 Hd))|]. cbn. pose proof (proj2 Hd). lia.
  - intros v Hv. exact (parte_di_trans _ _ _ Hv Hs).
Qed.

Lemma bit_dentro_ok bs d off :
  letto d off bs -> 1 <= dn (valore bs) -> parte_di (bit_dentro bs) (valore bs) /\ fetta (bit_dentro bs) /\ dp (bit_dentro bs) <> None.
Proof.
  intros [_ Hf Hp _ _ _ _] Hn. unfold bit_dentro. destruct (dp (valore bs)) as [p|] eqn:Ep; [|done].
  pose proof (proj2 Hf). rewrite u32_small by lia.
  assert (Hs : parte_di (mkDer (Some (p + 1)) (dn (valore bs) - 1)) (valore bs)) by (unfold parte_di; rewrite Ep; cbn; lia).
  cbn [sposta option_map]. split; [done|]. split; [|done]. split; [exact (parte_di_trans _ _ _ Hs (proj1 Hf))|cbn; lia].
Qed.

Section Key.

Context (t spki : ExDer) (c : ExCert) (Hc : campi t c) (Hs : fetta spki) (Hst : parte_di spki t).

Lemma chiave_rsa_ok dentro :
  fetta dentro -> parte_di dentro spki -> salvo (chiave_rsa der dentro c) (fun c' => campi t c' /\ altri c c').
Proof.
  intros Hd Hp. unfold chiave_rsa. chiama exder_dentro_ok as rsa (H1 & H2 & H3); [done|lia|].
  chiama leggi_tag_ok as n Hn; [done|lia|]. pose proof (le_intera _ _ _ Hn).
  chiama leggi_tag_ok as e He; [done|lia|].
  chiama togli_zeri_ok as m Hm; [apply Hn|apply Hn|]. destruct Hc, Hn, He. split; [|done].
  split; cbn; eauto 8 using parte_di_trans.
Qed.

Lemma chiave_ec_ok alg oid dentro :
  letto spki 0 alg -> letto (valore alg) 0 oid -> fetta dentro -> dp dentro <> None -> parte_di dentro spki ->
  salvo (chiave_ec der alg oid dentro c) (fun c' => campi t c' /\ altri c c').
Proof.
  intros Ha Ho Hd Hdp Hp. unfold chiave_ec. pose proof (le_intera _ _ _ Ho).
  chiama leggi_tag_ok as curva Hcu; [apply Ha|lia|]. chiama salvo_esige as _ Hn. apply Z.leb_le in Hn.
  chiama leggi_byte_salvo as b _; [done|done|lia|]. chiama salvo_esige as _ _.
  assert (Hset : forall k, campi t (set_ec k dentro c) /\ altri c (set_ec k dentro c)).
  { intros k. destruct Hc. split; [|done]. split; cbn; eauto using parte_di_trans. }
  chiama e_oid_ok as p256 _; [apply Hcu|apply Hcu|]. destruct p256; [apply Hset|].
  chiama e_oid_ok as p384 _; [apply Hcu|apply Hcu|]. destruct p384; [apply Hset|done].
Qed.

Lemma leggi_chiave_ok : salvo (leggi_chiave der spki c) (fun c' => campi t c' /\ altri c c').
Proof.
  unfold leggi_chiave. chiama leggi_tag_ok as alg Ha; [done|lia|]. pose proof (le_intera _ _ _ Ha).
  chiama leggi_tag_ok as oid Ho; [apply Ha|lia|]. chiama leggi_tag_ok as bs Hb; [done|lia|].
  chiama salvo_esige as _ Hn. apply Z.leb_le in Hn. chiama leggi_byte_salvo as b _; [apply Hb|apply Hb|lia|].
  chiama salvo_esige as _ _. destruct (bit_dentro_ok bs spki _ Hb Hn) as (H1 & H2 & H3).
  assert (H4 : parte_di (bit_dentro bs) spki) by (eapply parte_di_trans; [exact H1|apply Hb]).
  chiama e_oid_ok as rsa _; [apply Ho|apply Ho|]. destruct rsa; [by apply chiave_rsa_ok|].
  chiama e_oid_ok as ec _; [apply Ho|apply Ho|]. destruct ec; [by apply chiave_ec_ok|done].
Qed.

End Key.

(** ** Extensions *)

Lemma dopo_oid_ok e oid :
  fetta (valore e) -> 2 <= intera oid -> salvo (dopo_oid der e oid) (fun x => parte_di (valore x) (valore e) /\ fetta (valore x)).
Proof.
  intros He Ho. unfold dopo_oid. chiama exder_leggi_ok as dopo Hd; [done|lia|].
  destruct (tag dopo =? TAG_BOOLEANO); [|split; apply Hd]. pose proof (u32_range (intera oid + intera dopo)).
  eapply salvo_weaken; [apply exder_leggi_ok; [done|lia]|]. intros x Hx. split; apply Hx.
Qed.

Lemma basic_ca_ok dopo : fetta (valore dopo) -> salvo (basic_ca der dopo) (fun _ => True).
Proof.
  intros Hd. unfold basic_ca. chiama leggi_tag_ok as seq Hs; [done|lia|]. destruct (dn (valore seq) =? 0); [done|].
  chiama exder_leggi_ok as ca Hca; [apply Hs|lia|]. destruct (tag ca =? TAG_BOOLEANO); [|done].
  destruct (Z.leb_spec 1 (dn (valore ca))); [|done]. cbn [andb].
  chiama leggi_byte_salvo as b _; [apply Hca|apply Hca|lia|done].
Qed.

Section Extensions.

Context (t : ExDer).

(** What reading extensions preserves. *)
Definition aggiorna (c c' : ExCert) : Prop := campi t c' /\ altri c c'.

Lemma aggiorna_refl c : campi t c -> aggiorna c c.
Proof. intros H. split; [done|split; done]. Qed.

Lemma aggiorna_trans c c' c'' : altri c c' -> aggiorna c' c'' -> aggiorna c c''.
Proof. unfold altri. intros (H1 & H2 & H3) (Hc & H4 & H5 & H6). split; [done|]. split; [congruence|]. split; congruence. Qed.

Lemma estensione_ok e c :
  campi t c -> fetta (valore e) -> parte_di (valore e) t -> salvo (estensione der e c) (aggiorna c).
Proof.
  intros Hc He Ht. unfold estensione. chiama salvo_prova as o Ho; [by apply leggi_tag_ok|].
  destruct o as [oid|]; [|by apply aggiorna_refl]. specialize (Ho _ eq_refl).
  chiama e_oid_ok as b _; [apply Ho|apply Ho|]. chiama e_oid_ok as s _; [apply Ho|apply Ho|].
  destruct (negb b && negb s); [by apply aggiorna_refl|].
  chiama salvo_prova as o Hd; [apply dopo_oid_ok; [done|apply Ho]|].
  destruct o as [dopo|]; [|by apply aggiorna_refl]. destruct (Hd _ eq_refl) as [Hd1 Hd2].
  destruct (tag dopo =? TAG_OCTETSTRING); [|by apply aggiorna_refl]. cbn [negb]. destruct s.
  - chiama salvo_prova as o Hs; [by apply leggi_tag_ok|]. destruct o as [seq|]; [|by apply aggiorna_refl].
    destruct (Hs _ eq_refl), Hc. split; [|done]. split; cbn; eauto using parte_di_trans.
  - chiama salvo_prova as o _; [by apply basic_ca_ok|]. destruct Hc. split; [|done]. by split.
Qed.

Lemma estensioni_loop_ok fuel ext : forall off c,
  campi t c -> fetta ext -> parte_di ext t -> 0 <= off -> Z.max 0 (dn ext - off) < Z.of_nat fuel ->
  salvo (estensioni_loop fuel der ext off c) (aggiorna c).
Proof.
  induction fuel as [|fuel IH]; intros off c Hc Hf Ht Ho Hfu; cbn [estensioni_loop]; [lia|].
  destruct (Z.ltb_spec off (dn ext)); [|by apply aggiorna_refl]. pose proof (proj2 Hf).
  chiama misura_ok as n Hn; [done|done|]. destruct (Z.eqb_spec n 0); [by apply aggiorna_refl|].
  chiama salvo_prova as o He; [by apply leggi_tag_ok|]. destruct o as [e|]; [|by apply aggiorna_refl].
  destruct (He _ eq_refl) as [H1 H2 _ _ _ _ _].
  chiama estensione_ok as c' [Hc' Ha]; [done|done|exact (parte_di_trans _ _ _ H1 Ht)|].
  rewrite u32_small by lia. eapply salvo_weaken; [apply IH; (done || lia)|]. intros c''. by apply aggiorna_trans.
Qed.

Lemma leggi_estensioni_ok ext c :
  campi t c -> fetta ext -> parte_di ext t -> salvo (leggi_estensioni der ext c) (aggiorna c).
Proof. intros Hc Hf Ht. apply estensioni_loop_ok; (done || lia). Qed.

Lemma cerca_estensioni_ok fuel : forall off c,
  campi t c -> fetta t -> 0 <= off -> Z.max 0 (dn t - off) < Z.of_nat fuel ->
  salvo (cerca_estensioni fuel der t off c) (aggiorna c).
Proof.
  induction fuel as [|fuel IH]; intros off c Hc Hf Ho Hfu; cbn [cerca_estensioni]; [lia|].
  destruct (Z.ltb_spec off (dn t)); [|by apply aggiorna_refl]. pose proof (proj2 Hf).
  chiama misura_ok as n Hn; [done|done|]. destruct (Z.eqb_spec n 0); [by apply aggiorna_refl|].
  chiama salvo_prova as o He; [by apply leggi_tag_ok|]. destruct o as [e|].
  - destruct (He _ eq_refl) as [H1 H2 _ _ _ _ _]. chiama salvo_prova as o Hd; [by apply exder_dentro_ok|].
    destruct o as [v|]; [|by apply aggiorna_refl]. destruct (Hd _ eq_refl) as (H3 & H4 & _).
    apply leggi_estensioni_ok; [done|done|exact (parte_di_trans _ _ _ H3 H1)].
  - rewrite u32_small by lia. apply IH; (done || lia).
Qed.

End Extensions.

(** ** The certificate *)

Lemma analizza_tbs_ok b t alg f :
  fetta t -> dp t <> None ->
  salvo (analizza_tbs der b t alg f)
    (fun '(c, off) => campi t c /\ 0 <= off /\ tbs c = b /\ firma c = f /\ alg_firma c = alg).
Proof.
  intros Hf Hp. pose proof (proj2 Hf). unfold analizza_tbs. chiama exder_leggi_ok as v0 H0; [done|lia|].
  set (o1 := if tag v0 =? 160 then intera v0 else 0).
  assert (Ho1 : 0 <= o1) by (unfold o1; pose proof (le_intera _ _ _ H0); destruct (_ =? _); lia).
  clearbody o1. chiama leggi_tag_ok as se Hse; [done|lia|].
  pose proof (u32_range (o1 + intera se)) as Ho2. set (o2 := u32 (o1 + intera se)) in *. clearbody o2.
  chiama leggi_tag_ok as al Hal; [done|lia|].
  pose proof (u32_range (o2 + intera al)) as Ho3. set (o3 := u32 (o2 + intera al)) in *. clearbody o3.
  chiama leggi_tag_ok as em Hem; [done|lia|].
  pose proof (u32_range (o3 + intera em)) as Ho4. set (o4 := u32 (o3 + intera em)) in *. clearbody o4.
  chiama leggi_tag_ok as va Hva; [done|lia|].
  chiama exder_leggi_ok as a Ha; [apply Hva|lia|]. chiama leggi_data_ok as da Hda; [exact Ha|].
  pose proof (le_intera _ _ _ Ha). chiama exder_leggi_ok as b' Hb; [apply Hva|lia|].
  chiama leggi_data_ok as db Hdb; [exact Hb|].
  pose proof (u32_range (o4 + intera va)) as Ho5. set (o5 := u32 (o4 + intera va)) in *. clearbody o5.
  chiama leggi_tag_ok as so Hso; [done|lia|].
  pose proof (u32_range (o5 + intera so)) as Ho6. cbn [salvo tbs firma alg_firma]. split; [|split; [lia|done]].
  split; cbn; try done; try apply parte_di_nullo.
  - apply (le_tutto _ _ _ Hem).
  - apply (le_tutto _ _ _ Hso).
  - apply Hse.
Qed.

(** The signed part [tbs], its content, and the signature, in the buffer. *)
Definition certificato (c : ExCert) : Prop :=
  fetta (tbs c) /\ fetta (firma c) /\ exists t, parte_di t (tbs c) /\ campi t c.

Lemma tutto_fetta : fetta (tutto der).
Proof. split; [split; cbn; lia|cbn; lia]. Qed.

Lemma excert_analizza_ok : salvo (excert_analizza der (Z.of_nat (length der))) certificato.
Proof.
  unfold excert_analizza. fold (tutto der). pose proof tutto_fetta as Htu.
  chiama exder_dentro_ok as corpo (Hc1 & Hc2 & Hc3); [exact Htu|lia|]. pose proof (proj2 Hc2) as Hw.
  chiama leggi_tag_ok as el Hel; [done|lia|]. pose proof (le_intera _ _ _ Hel).
  set (t0 := mkDer (dp corpo) (intera el)).
  assert (Et0 : t0 = mkDer (sposta (dp corpo) 0) (intera el)).
  { unfold t0. destruct (dp corpo) as [p|]; [|done]. cbn. by rewrite Z.add_0_r. }
  pose proof (le_tutto _ _ _ Hel) as Ht0. pose proof (le_dentro _ _ _ Hel) as Hin. rewrite <- Et0 in Ht0, Hin.
  assert (Ht0f : fetta t0).
  { pose proof (le_fine _ _ _ Hel). split; [exact (parte_di_trans _ _ _ Ht0 (proj1 Hc2))|cbn; lia]. }
  change (dn t0) with (intera el). chiama leggi_tag_ok as alg Ha; [done|lia|].
  chiama leggi_tag_ok as oid Ho; [apply Ha|lia|]. chiama scegli_ok as af _; [apply Ho|apply Ho|].
  pose proof (u32_range (intera el + intera alg)). chiama leggi_tag_ok as f Hf; [done|lia|].
  chiama salvo_esige as _ Hn. apply Z.leb_le in Hn. chiama leggi_byte_salvo as b _; [apply Hf|apply Hf|lia|].
  chiama salvo_esige as _ _. destruct (bit_dentro_ok f corpo _ Hf ltac:(lia)) as (_ & Hbf & _).
  chiama analizza_tbs_ok as [c off] (Hca & Hoff & Et & Ef & _); [apply Hel|apply Hel|].
  chiama leggi_tag_ok as k Hk; [apply Hel|lia|]. destruct Hk as [Hk1 Hk2 _ _ _ _ _].
  chiama salvo_prova as o Hkey; [by apply leggi_chiave_ok|].
  set (c' := match o with Some c => c | None => set_ignota c end).
  assert (Hc' : aggiorna (valore el) c c').
  { unfold c'. destruct o as [k'|]; [exact (Hkey _ eq_refl)|]. split; [by destruct Hca|done]. }
  destruct Hc' as [Hc' (Et' & Ef' & _)]. pose proof (u32_range (off + intera k)).
  eapply salvo_weaken; [apply cerca_estensioni_ok; [exact Hc'|apply Hel|lia|lia]|].
  intros c'' [Hc'' (Et'' & Ef'' & _)]. rewrite Et', Et in Et''. rewrite Ef', Ef in Ef''.
  split; [by rewrite Et''|]. split; [by rewrite Ef''|]. exists (valore el). by rewrite Et''.
Qed.

End Safety.
