(* ===== verification/Exasn1Enc.v ===== *)
(** * DER encoding, and reading back what it writes

    [enc t v] is the DER element of tag [t] and content [v], with the shortest
    length field.  [contenuto der d l]: the slice [d] of the buffer holds the
    bytes [l]; [resto der d off l]: from [off] to its end it holds [l]. *)

From S2P Require Import Prelude Bytes Esito Exasn1.

(** ** Encoder *)

Definition byte_di_lung (n : Z) : nat :=
  if n <? 256 then 1 else if n <? 65536 then 2 else if n <? 16777216 then 3 else 4.

Definition enc_len (n : Z) : list Z :=
  if n <? 128 then [n] else (128 + Z.of_nat (byte_di_lung n)) :: be_bytes (byte_di_lung n) n.

Definition enc (t : Z) (v : list Z) : list Z := t :: enc_len (Z.of_nat (length v)) ++ v.

(** A tag of one byte that DER can carry. *)
Definition tag_ok (t : Z) : Prop := Z.land t 31 <> 31.

Lemma byte_di_lung_ok n : 0 <= n < W32 -> (1 <= byte_di_lung n <= 4)%nat /\ n < 256 ^ Z.of_nat (byte_di_lung n).
Proof. unfold byte_di_lung, W32. intros Hn. repeat bcase; cbn; lia. Qed.

Lemma length_enc t v : Z.of_nat (length (enc t v)) = 1 + Z.of_nat (length (enc_len (Z.of_nat (length v)))) + Z.of_nat (length v).
Proof. unfold enc. cbn [length]. rewrite length_app. lia. Qed.

(** ** Contents *)

Definition contenuto (der : list Z) (d : ExDer) (l : list Z) : Prop :=
  exists p, dp d = Some p /\ 0 <= p /\ dn d = Z.of_nat (length l) /\ exists c, drop (Z.to_nat p) der = l ++ c.

Definition resto (der : list Z) (d : ExDer) (off : Z) (l : list Z) : Prop :=
  exists a, contenuto der d (a ++ l) /\ off = Z.of_nat (length a).

Section Contents.

Context (der : list Z) (Hlen : Z.of_nat (length der) < W32).

Lemma contenuto_bound d l : contenuto der d l -> Z.of_nat (length l) < W32 /\ dn d = Z.of_nat (length l).
Proof.
  intros (p & _ & _ & Hn & c & Hc). apply (f_equal length) in Hc. rewrite length_drop, length_app in Hc. lia.
Qed.

Lemma contenuto_tutto : contenuto der (mkDer (Some 0) (Z.of_nat (length der))) der.
Proof. exists 0. split; [done|]. split; [lia|]. split; [done|]. exists []. by rewrite app_nil_r. Qed.

Lemma resto_0 d l : contenuto der d l -> resto der d 0 l.
Proof. intros H. by exists []. Qed.

(** Reading a byte of the rest. *)
Lemma leggi_resto d off b l i :
  resto der d off (b ++ l) -> 0 <= i < Z.of_nat (length b) ->
  leggi_byte der (dp d) (off + i) = Val (nth (Z.to_nat i) b 0).
Proof.
  intros (a & (p & Hp & Hp0 & _ & c & Hc) & ->) Hi. unfold leggi_byte. rewrite Hp.
  pose proof (f_equal length Hc) as Hl. rewrite length_drop, !length_app in Hl.
  rewrite (proj2 (Z.leb_le _ _)), (proj2 (Z.ltb_lt _ _)) by lia. cbn [andb]. f_equal.
  replace (Z.to_nat (p + (Z.of_nat (length a) + i))) with (Z.to_nat p + (length a + Z.to_nat i))%nat by lia.
  rewrite <- nth_skipn. change (skipn (Z.to_nat p) der) with (drop (Z.to_nat p) der). rewrite Hc.
  rewrite <- !app_assoc, app_nth2_plus, app_nth1 by lia. reflexivity.
Qed.

(** A part of the rest, as a slice of its own. *)
Lemma resto_parte d off a b c :
  resto der d off (a ++ b ++ c) ->
  contenuto der (mkDer (sposta (dp d) (off + Z.of_nat (length a))) (Z.of_nat (length b))) b.
Proof.
  intros (a0 & (p & Hp & Hp0 & _ & e & He) & ->). rewrite Hp. cbn.
  exists (p + (Z.of_nat (length a0) + Z.of_nat (length a))). split; [done|]. split; [lia|]. split; [done|].
  exists (c ++ e). replace (Z.to_nat _) with (Z.to_nat p + (length a0 + length a))%nat by lia.
  rewrite <- drop_drop, He, <- drop_drop, <- !app_assoc, !drop_app_length. reflexivity.
Qed.

Lemma resto_bound d off l : resto der d off l -> 0 <= off /\ off + Z.of_nat (length l) = dn d /\ dn d < W32 /\ dp d <> None.
Proof.
  intros (a & H & ->). destruct (contenuto_bound _ _ H) as [H1 H2]. destruct H as (p & Hp & _).
  rewrite length_app in *. rewrite Hp. split; [lia|]. split; [lia|]. split; [lia|done].
Qed.

Lemma resto_avanti d off a l : resto der d off (a ++ l) -> resto der d (off + Z.of_nat (length a)) l.
Proof. intros (a0 & H & ->). exists (a0 ++ a). rewrite <- app_assoc, length_app. split; [done|lia]. Qed.

(** ** The length field *)

Lemma lung_loop_resto d b : forall off l lung,
  resto der d off (b ++ l) -> bytes b -> 0 <= lung -> lung * 256 ^ Z.of_nat (length b) + be b < W32 ->
  lung_loop (length b) der (dp d) off lung = Val (lung * 256 ^ Z.of_nat (length b) + be b).
Proof.
  induction b as [|x b IH]; intros off l lung H Hb Hl Hlt; cbn [lung_loop length be]; [f_equal; cbn; lia|].
  destruct (resto_bound _ _ _ H) as (H0 & H1 & H2 & _). cbn [length app] in H1.
  pose proof (leggi_resto d off [x] (b ++ l) 0 H ltac:(cbn; lia)) as Hr. rewrite Z.add_0_r in Hr. rewrite Hr. cbn [mbind esito_bind nth Z.to_nat].
  apply Forall_cons in Hb as [Hx Hb]. pose proof (be_range b Hb) as Hbr. pose proof (B_pos (length b)).
  cbn [length be] in Hlt. rewrite B_S in Hlt. rewrite length_app in H1. rewrite u32_small by lia.
  rewrite Z.shiftl_mul_pow2 by lia. change (2 ^ 8) with 256.
  assert (lung * 256 <= lung * 256 * 256 ^ Z.of_nat (length b)) by nia.
  assert (0 <= x * 256 ^ Z.of_nat (length b)) by nia.
  rewrite u32_small, (lor_disjoint 8) by (lia || (exists lung; lia) || done).
  change (Z.to_nat 0) with 0%nat. cbn match. rewrite (IH (off + 1) l (lung * 256 + x)); [f_equal; rewrite B_S; ring| |done|lia|].
  - exact (resto_avanti d off [x] (b ++ l) H).
  - lia.
Qed.

Lemma leggi_lung_resto d off t v l :
  resto der d off (enc t v ++ l) ->
  leggi_lung der d off = Val (Z.of_nat (length v), Z.of_nat (length (enc_len (Z.of_nat (length v))))).
Proof.
  intros H. destruct (resto_bound _ _ _ H) as (H0 & H1 & H2 & _). rewrite length_app in H1.
  pose proof (length_enc t v) as Hle. set (n := Z.of_nat (length v)) in *.
  assert (Hn : 0 <= n < W32) by lia. unfold leggi_lung. unfold enc in H. fold n in H.
  destruct (byte_di_lung_ok n Hn) as [Hk Hb]. set (k := byte_di_lung n) in *.
  rewrite (u32_small (off + 1)) by (unfold enc_len in Hle; destruct (n <? 128); cbn [length] in Hle; lia).
  assert (H' : resto der d off ((t :: enc_len n) ++ v ++ l)) by (cbn [app] in *; by rewrite app_assoc). clear H.
  rewrite (leggi_resto d off (t :: enc_len n) (v ++ l) 1 H') by (unfold enc_len; destruct (n <? 128); cbn [length]; lia).
  unfold enc_len in *. fold k in H', Hle |- *. change (Z.to_nat 1) with 1%nat. destruct (Z.ltb_spec n 128).
  - cbn [nth mbind esito_bind length]. rewrite (proj2 (Z.ltb_lt _ _)) by lia. reflexivity.
  - cbn [nth mbind esito_bind length]. cbn [length] in Hle. rewrite length_be_bytes in *.
    rewrite (proj2 (Z.ltb_ge _ _)) by lia.
    assert (Hland : Z.land (128 + Z.of_nat k) 127 = Z.of_nat k) by (destruct Hk; repeat (destruct k as [|k]; try reflexivity; try lia)).
    rewrite Hland, (proj2 (Z.eqb_neq _ _)), (proj2 (Z.ltb_ge 4 _)) by lia. cbn [orb].
    rewrite (u32_small (dn d - off - 2)), (u32_small (off + 2)) by lia.
    rewrite (proj2 (Z.ltb_ge _ _)) by lia. rewrite Nat2Z.id.
    pose proof (lung_loop_resto d (be_bytes k n) (off + 2) (v ++ l) 0) as Hlo. rewrite length_be_bytes, be_be_bytes in Hlo.
    rewrite Z.mod_small in Hlo by lia. rewrite Hlo; [|exact (resto_avanti d off [t; _] _ H')|apply be_bytes_range|lia|lia].
    cbn [mbind esito_bind]. rewrite (proj2 (Z.ltb_ge _ _)) by lia. do 2 f_equal; lia.
Qed.

(** ** Elements *)

(** The element read at [off] is [enc t v], and [l] follows it. *)
Record riletto (d : ExDer) (off t : Z) (v l : list Z) (e : ExDerElem) : Prop := mkRiletto {
  ri_tag : tag e = t;
  ri_valore : contenuto der (valore e) v;
  ri_dopo : resto der d (u32 (off + intera e)) l;
  ri_tutto : contenuto der (mkDer (sposta (dp d) off) (intera e)) (enc t v);
  ri_intera : intera e = Z.of_nat (length (enc t v))
}.

Lemma exder_leggi_resto d off t v l :
  resto der d off (enc t v ++ l) -> tag_ok t -> exists e, exder_leggi der d off = Val e /\ riletto d off t v l e.
Proof.
  intros H Ht. destruct (resto_bound _ _ _ H) as (H0 & H1 & H2 & Hp). rewrite length_app in H1.
  pose proof (length_enc t v) as Hle. pose proof (leggi_lung_resto d off t v l H) as Hlu.
  set (n := Z.of_nat (length v)) in *. set (k := Z.of_nat (length (enc_len n))) in *.
  assert (Hk : 1 <= k) by (unfold k, enc_len; destruct (n <? 128); cbn [length]; lia).
  unfold exder_leggi. rewrite bool_decide_eq_false_2 by done.
  rewrite (proj2 (Z.leb_gt _ _)) by lia. cbn [orb]. rewrite (u32_small (dn d - off)), (proj2 (Z.ltb_ge _ _)) by lia.
  pose proof (leggi_resto d off (enc t v) l 0 H ltac:(lia)) as Hb. rewrite Z.add_0_r in Hb.
  change (nth (Z.to_nat 0) (enc t v) 0) with t in Hb. rewrite Hb, Hlu. cbn [mbind esito_bind].
  rewrite (proj2 (Z.eqb_neq _ _)) by done. rewrite u32_small, (proj2 (Z.ltb_ge _ _)) by lia.
  eexists. split; [reflexivity|].
  assert (Hi : intera (mkElem t (mkDer (sposta (dp d) (off + (1 + k))) n) (1 + k)) = Z.of_nat (length (enc t v))).
  { unfold intera. cbn [intestazione valore dn]. rewrite u32_small by lia. lia. }
  split; [done| | | |done]; rewrite ?Hi; cbn [valore].
  - pose proof (resto_parte d off (t :: enc_len n) v l) as Hv. cbn [length] in Hv.
    replace (off + (1 + k)) with (off + Z.of_nat (S (length (enc_len n)))) by lia. apply Hv.
    unfold enc in H. cbn [app] in H |- *. by rewrite app_assoc.
  - rewrite u32_small by lia. by apply resto_avanti.
  - pose proof (resto_parte d off [] (enc t v) l H) as Hv. cbn [length] in Hv. by rewrite Z.add_0_r in Hv.
Qed.

Lemma leggi_tag_resto d off t v l :
  resto der d off (enc t v ++ l) -> tag_ok t -> exists e, leggi_tag der d off t = Val e /\ riletto d off t v l e.
Proof.
  intros H Ht. destruct (exder_leggi_resto d off t v l H Ht) as (e & He & Hr). exists e. split; [|done].
  unfold leggi_tag. rewrite He. cbn [mbind esito_bind]. by rewrite (ri_tag _ _ _ _ _ _ Hr), Z.eqb_refl.
Qed.

(** A reader that expects another tag refuses the element. *)
Lemma leggi_tag_altro d off t t' v l :
  resto der d off (enc t v ++ l) -> tag_ok t -> t <> t' -> leggi_tag der d off t' = Rifiuto.
Proof.
  intros H Ht Hne. destruct (exder_leggi_resto d off t v l H Ht) as (e & He & Hr).
  unfold leggi_tag. rewrite He. cbn [mbind esito_bind]. by rewrite (ri_tag _ _ _ _ _ _ Hr), (proj2 (Z.eqb_neq _ _)).
Qed.

Lemma exder_dentro_resto d off t v l :
  resto der d off (enc t v ++ l) -> tag_ok t -> exists d', exder_dentro der d off t = Val d' /\ contenuto der d' v.
Proof.
  intros H Ht. destruct (exder_leggi_resto d off t v l H Ht) as (e & He & Hr). exists (valore e). split; [|apply Hr].
  unfold exder_dentro. rewrite He. cbn [mbind esito_bind]. by rewrite (ri_tag _ _ _ _ _ _ Hr), Z.eqb_refl.
Qed.

Lemma misura_resto d off t v l :
  resto der d off (enc t v ++ l) -> tag_ok t -> misura der d off = Val (Z.of_nat (length (enc t v))).
Proof.
  intros H Ht. destruct (exder_leggi_resto d off t v l H Ht) as (e & He & Hr).
  unfold misura, prova. rewrite He. cbn. f_equal. apply Hr.
Qed.

(** ** Comparisons and copies *)

Lemma leggi_contenuto d l i :
  contenuto der d l -> 0 <= i < Z.of_nat (length l) -> leggi_byte der (dp d) i = Val (nth (Z.to_nat i) l 0).
Proof.
  intros H Hi. apply resto_0 in H. rewrite <- (app_nil_r l) in H. exact (leggi_resto d 0 l [] i H Hi).
Qed.

Lemma copia_byte_contenuto d v k : forall i,
  contenuto der d v -> (i + k <= length v)%nat -> copia_byte k der (dp d) (Z.of_nat i) = Val (take k (drop i v)).
Proof.
  induction k as [|k IH]; intros i H Hk; cbn [copia_byte]; [done|]. rewrite (leggi_contenuto d v) by (done || lia).
  destruct (lookup_lt_is_Some_2 v i ltac:(lia)) as [x Hx]. cbn [mbind esito_bind].
  replace (Z.of_nat i + 1) with (Z.of_nat (S i)) by lia. rewrite IH by (done || lia).
  rewrite Nat2Z.id, nth_lookup, Hx, (drop_S v x i Hx). reflexivity.
Qed.

Lemma copia_byte_0 d v k : contenuto der d v -> (k <= length v)%nat -> copia_byte k der (dp d) 0 = Val (take k v).
Proof. intros H Hk. exact (copia_byte_contenuto d v k 0 H Hk). Qed.

End Contents.

(** Comparison of two slices, possibly of different buffers. *)
Section Comparison.

Context (der der2 : list Z) (Hlen : Z.of_nat (length der) < W32) (Hlen2 : Z.of_nat (length der2) < W32).

Lemma uguali_loop_contenuto d v d2 w k : forall i,
  contenuto der d v -> contenuto der2 d2 w -> length v = length w -> (i + k = length w)%nat ->
  uguali_loop k der (dp d) der2 (dp d2) (Z.of_nat i) = Val (bool_decide (drop i v = drop i w)).
Proof.
  induction k as [|k IH]; intros i H H2 Hl Hk; cbn [uguali_loop].
  - rewrite !drop_ge by lia. by rewrite bool_decide_eq_true_2.
  - rewrite (leggi_contenuto der d v), (leggi_contenuto der2 d2 w) by (done || lia). cbn [mbind esito_bind]. rewrite Nat2Z.id.
    destruct (lookup_lt_is_Some_2 v i ltac:(lia)) as [x Hx]. destruct (lookup_lt_is_Some_2 w i ltac:(lia)) as [y Hy].
    rewrite !nth_lookup, Hx, Hy, (drop_S v x i Hx), (drop_S w y i Hy). cbn [default from_option id].
    destruct (Z.eqb_spec x y) as [->|Hne]; cbn [negb].
    + replace (Z.of_nat i + 1) with (Z.of_nat (S i)) by lia. rewrite IH by (done || lia). f_equal.
      apply bool_decide_ext. split; [by intros ->|by intros [= ->]].
    + rewrite bool_decide_eq_false_2; [done|]. by intros [= E].
Qed.

Lemma uguali_contenuto d v d2 w :
  contenuto der d v -> contenuto der2 d2 w -> uguali der (dp d) (dn d) der2 (dp d2) (dn d2) = Val (bool_decide (v = w)).
Proof.
  intros H H2. destruct (contenuto_bound der Hlen d v H) as [_ Hn]. destruct (contenuto_bound der2 Hlen2 d2 w H2) as [_ Hn2].
  unfold uguali. rewrite Hn, Hn2.
  destruct (Z.eqb_spec (Z.of_nat (length v)) (Z.of_nat (length w))) as [E|E]; cbn [negb].
  - rewrite Nat2Z.id. pose proof (uguali_loop_contenuto d v d2 w (length v) 0 H H2 ltac:(lia) ltac:(lia)) as Hu.
    change (Z.of_nat 0) with 0 in Hu. by rewrite Hu, !drop_0.
  - rewrite bool_decide_eq_false_2; [done|]. intros ->. done.
Qed.

End Comparison.

Lemma e_oid_contenuto der d v oid :
  Z.of_nat (length der) < W32 -> contenuto der d v -> e_oid der d oid = Val (bool_decide (v = oid)).
Proof.
  intros Hl H. destruct (contenuto_bound der Hl d v H) as [Hv Hn].
  destruct (decide (length v = length oid)) as [E|E].
  - exact (uguali_contenuto der oid Hl ltac:(lia) d v _ oid H (contenuto_tutto oid)).
  - unfold e_oid, uguali. rewrite Hn, (proj2 (Z.eqb_neq _ _)) by lia. cbn [negb].
    rewrite bool_decide_eq_false_2; [done|]. by intros ->.
Qed.
