(* ===== verification/Exasn1Cert.v ===== *)
(** * X.509 certificates: encoder, and reading back what it writes *)

From S2P Require Import Prelude Bytes Esito Exasn1 Exasn1Enc.

(** ** Certificates and their DER *)

Inductive Data : Type := UTC (s : list Z) | GEN (s : list Z).

Inductive Chiave : Type := RSA (modulo esponente : list Z) | EC_P256 (punto : list Z) | EC_P384 (punto : list Z).

Inductive Estensione : Type :=
| Basic (critica ca : bool)
| San (critica : bool) (nomi : list Z)
| Altra (critica : bool) (oid valore : list Z).

Record X509 : Type := mkX {
  x_versione : option (list Z);
  x_serie : list Z;
  x_alg : list Z;
  x_par : list Z;
  x_emittente : list Z;
  x_prima : Data;
  x_dopo : Data;
  x_soggetto : list Z;
  x_chiave : Chiave;
  x_est : option (list Estensione);
  x_firma : list Z
}.

Definition enc_data (d : Data) : list Z := match d with UTC s => enc TAG_UTCTIME s | GEN s => enc TAG_GENTIME s end.

Definition enc_spki (k : Chiave) : list Z :=
  match k with
  | RSA n e => enc TAG_SEQUENZA (enc TAG_OID OID_RSA ++ enc 5 []) ++
               enc TAG_BITSTRING (0 :: enc TAG_SEQUENZA (enc TAG_INTERO n ++ enc TAG_INTERO e))
  | EC_P256 p => enc TAG_SEQUENZA (enc TAG_OID OID_EC ++ enc TAG_OID OID_P256) ++ enc TAG_BITSTRING (0 :: p)
  | EC_P384 p => enc TAG_SEQUENZA (enc TAG_OID OID_EC ++ enc TAG_OID OID_P384) ++ enc TAG_BITSTRING (0 :: p)
  end.

Definition enc_est (e : Estensione) : list Z :=
  let intorno c oid v := enc TAG_SEQUENZA (enc TAG_OID oid ++ (if c : bool then enc TAG_BOOLEANO [255] else []) ++ enc TAG_OCTETSTRING v) in
  match e with
  | Basic c ca => intorno c OID_BASIC (enc TAG_SEQUENZA (if ca then enc TAG_BOOLEANO [255] else []))
  | San c nomi => intorno c OID_SAN (enc TAG_SEQUENZA nomi)
  | Altra c oid v => intorno c oid v
  end.

Definition enc_ests (l : option (list Estensione)) : list Z :=
  match l with None => [] | Some l => enc 0xA3 (enc TAG_SEQUENZA (concat (map enc_est l))) end.

Definition enc_alg (x : X509) : list Z := enc TAG_SEQUENZA (enc TAG_OID (x_alg x) ++ x_par x).

Definition enc_tbs (x : X509) : list Z :=
  match x_versione x with None => [] | Some v => enc 0xA0 v end ++
  enc TAG_INTERO (x_serie x) ++ enc_alg x ++ enc TAG_SEQUENZA (x_emittente x) ++
  enc TAG_SEQUENZA (enc_data (x_prima x) ++ enc_data (x_dopo x)) ++ enc TAG_SEQUENZA (x_soggetto x) ++
  enc TAG_SEQUENZA (enc_spki (x_chiave x)) ++ enc_ests (x_est x).

Definition enc_cert (x : X509) : list Z :=
  enc TAG_SEQUENZA (enc TAG_SEQUENZA (enc_tbs x) ++ enc_alg x ++ enc TAG_BITSTRING (0 :: x_firma x)).

(** ** What reading is to give *)

(** Two digits of year become four: from 50 on the century is 1900. *)
Definition data_16 (d : Data) : list Z :=
  match d with
  | UTC s => (if 53 <=? nth 0 s 0 then [49; 57] else [50; 48]) ++ take 12 s
  | GEN s => take 14 s
  end ++ [90; 0].

Definition data_ok (d : Data) : Prop := match d with UTC s => (13 <= length s)%nat | GEN s => (15 <= length s)%nat end.

Definition punto_ok (k : Chiave) : Prop :=
  match k with RSA _ _ => True | EC_P256 p | EC_P384 p => head p = Some 4 end.

Definition est_ok (e : Estensione) : Prop := match e with Altra _ oid _ => oid <> OID_BASIC /\ oid <> OID_SAN | _ => True end.

Record x509_ok (x : X509) : Prop := mkXok {
  xo_prima : data_ok (x_prima x);
  xo_dopo : data_ok (x_dopo x);
  xo_chiave : punto_ok (x_chiave x);
  xo_est : Forall est_ok (default [] (x_est x));
  xo_firma : x_firma x <> []
}.

(** The modulus without the zeroes in front. *)
Fixpoint senza_testa (n : list Z) : list Z :=
  match n with
  | x :: (_ :: _) as r => if x =? 0 then senza_testa r else n
  | _ => n
  end.

Fixpoint scelto (v : list Z) (l : list (list Z * Z)) : Z :=
  match l with
  | [] => EXASN1_ALG_IGNOTO
  | (oid, alg) :: l => if decide (v = oid) then alg else scelto v l
  end.

Definition e_basic (e : Estensione) : bool := match e with Basic _ _ => true | _ => false end.
Definition e_basic_ca (e : Estensione) : bool := match e with Basic _ ca => ca | _ => false end.
Definition nomi_di (e : Estensione) : option (list Z) := match e with San _ n => Some n | _ => None end.

Definition chiave_letta (der : list Z) (k : Chiave) (c : ExCert) : Prop :=
  match k with
  | RSA n e => tipo_chiave c = EXASN1_CHIAVE_RSA /\ contenuto der (chiave_modulo c) (senza_testa n) /\
               contenuto der (chiave_esponente c) e
  | EC_P256 p => tipo_chiave c = EXASN1_CHIAVE_EC_P256 /\ contenuto der (chiave_punto c) p
  | EC_P384 p => tipo_chiave c = EXASN1_CHIAVE_EC_P384 /\ contenuto der (chiave_punto c) p
  end.

(** The last subjectAltName counts. *)
Definition san_letto (der : list Z) (l : list Estensione) (s : ExDer) : Prop :=
  match last (omap nomi_di l) with Some n => contenuto der s n | None => s = nullo end.

Section Reading.

Context (der : list Z) (Hlen : Z.of_nat (length der) < W32).

Lemma ri_dopo_0 d t v l e : riletto der d 0 t v l e -> resto der d (intera e) l.
Proof. intros H. pose proof (ri_dopo _ _ _ _ _ _ _ H) as Hd. rewrite Z.add_0_l in Hd. unfold intera in *. by rewrite u32_idem in Hd. Qed.

(** The next element of the rest of a slice. *)
Ltac prossimo H e He Hr :=
  match type of H with
  | resto _ ?d ?off (enc ?t ?v ++ ?l) =>
      destruct (leggi_tag_resto der Hlen d off t v l H ltac:(discriminate)) as (e & He & Hr); rewrite He; cbn [mbind esito_bind]
  end.

Lemma scegli_contenuto d v l : contenuto der d v -> scegli der d l = Val (scelto v l).
Proof.
  intros H. induction l as [|[oid alg] l IH]; cbn [scegli scelto]; [done|].
  rewrite (e_oid_contenuto der d v oid Hlen H). cbn [mbind esito_bind].
  destruct (decide (v = oid)); [by rewrite bool_decide_eq_true_2|by rewrite bool_decide_eq_false_2].
Qed.

Lemma leggi_data_riletto d off x l e :
  data_ok x -> riletto der d off (match x with UTC _ => TAG_UTCTIME | GEN _ => TAG_GENTIME end)
                 (match x with UTC s => s | GEN s => s end) l e ->
  leggi_data der e = Val (data_16 x).
Proof.
  intros Hx [Ht Hv _ _ _]. unfold leggi_data. destruct (contenuto_bound der Hlen _ _ Hv) as [_ Hn]. rewrite Ht, Hn.
  destruct x as [s|s]; unfold data_ok in Hx.
  - rewrite Z.eqb_refl, (proj2 (Z.ltb_ge _ _)) by lia.
    rewrite (leggi_contenuto der (valore e) s 0 Hv) by lia. cbn [mbind esito_bind].
    rewrite (copia_byte_0 der (valore e) s 12 Hv) by lia. reflexivity.
  - change (TAG_GENTIME =? TAG_UTCTIME) with false. rewrite Z.eqb_refl, (proj2 (Z.ltb_ge _ _)) by lia.
    rewrite (copia_byte_0 der (valore e) s 14 Hv) by lia. reflexivity.
Qed.

(** ** The key *)

Lemma togli_zeri_contenuto n : forall k d,
  contenuto der d n -> (length n <= k)%nat -> exists d', togli_zeri k der d = Val d' /\ contenuto der d' (senza_testa n).
Proof.
  induction n as [|x n IH]; intros k d H Hk.
  - exists d. split; [|done]. destruct k; cbn; [done|]. destruct (contenuto_bound der Hlen _ _ H) as [_ ->]. done.
  - destruct k as [|k]; cbn [length] in Hk; [lia|]. cbn [togli_zeri]. destruct (contenuto_bound der Hlen _ _ H) as [_ Hn].
    rewrite Hn. destruct n as [|y n]; [by exists d|]. cbn [length]. rewrite (proj2 (Z.ltb_lt _ _)) by lia.
    rewrite (leggi_contenuto der d _ 0 H) by (cbn [length]; lia). cbn [mbind esito_bind nth].
    change (Z.to_nat 0) with 0%nat. cbn [senza_testa]. cbn match. destruct (x =? 0); [|by exists d].
    apply IH; [|cbn [length] in *; lia]. pose proof (resto_parte der d 0 [x] (y :: n) []) as Hp. rewrite app_nil_r in Hp.
    specialize (Hp (resto_0 der d _ H)). cbn [length] in Hp. replace (Z.of_nat (S (S (length n))) - 1) with (Z.of_nat (S (length n))) by lia.
    exact Hp.
Qed.

Lemma bit_dentro_contenuto bs v : contenuto der (valore bs) (0 :: v) -> contenuto der (bit_dentro bs) v.
Proof.
  intros H. pose proof (resto_parte der (valore bs) 0 [0] v []) as Hp. rewrite app_nil_r in Hp.
  specialize (Hp (resto_0 der _ _ H)). destruct (contenuto_bound der Hlen _ _ H) as [Hb Hn]. unfold bit_dentro. rewrite Hn.
  cbn [length] in *. rewrite u32_small by lia. by replace (Z.of_nat (S (length v)) - 1) with (Z.of_nat (length v)) by lia.
Qed.

(** The fields that the reader of the key leaves alone, and those that the
    reader of the extensions leaves alone. *)
Definition comuni (c : ExCert) := (tbs c, emittente c, soggetto c, numero_serie c, (alg_firma c, firma c, non_prima c, non_dopo c)).
Definition di_est (c : ExCert) := (e_ca c, ha_basic c, san c).
Definition di_chiave (c : ExCert) := (tipo_chiave c, chiave_modulo c, chiave_esponente c, chiave_punto c).

Lemma chiave_rsa_letta d n e c :
  contenuto der d (enc TAG_SEQUENZA (enc TAG_INTERO n ++ enc TAG_INTERO e)) ->
  exists c', chiave_rsa der d c = Val c' /\ chiave_letta der (RSA n e) c' /\ comuni c' = comuni c /\ di_est c' = di_est c.
Proof.
  intros H. unfold chiave_rsa. apply resto_0 in H. rewrite <- (app_nil_r (enc TAG_SEQUENZA _)) in H.
  destruct (exder_dentro_resto der Hlen d 0 _ _ _ H ltac:(discriminate)) as (r & -> & Hr). cbn [mbind esito_bind].
  apply resto_0 in Hr. prossimo Hr n_el Hn Hrn. apply ri_dopo_0 in Hrn as Hr2. rewrite <- (app_nil_r (enc TAG_INTERO e)) in Hr2.
  prossimo Hr2 e_el He Hre. destruct (contenuto_bound der Hlen _ _ (ri_valore _ _ _ _ _ _ _ Hrn)) as [_ Hnl].
  destruct (togli_zeri_contenuto n (Z.to_nat (dn (valore n_el))) (valore n_el)) as (m & -> & Hm); [apply Hrn|lia|].
  eexists. split; [reflexivity|]. split; [|done]. split; [done|]. split; [done|]. apply Hre.
Qed.

Lemma chiave_ec_letta k alg oid d p c :
  k = EC_P256 p \/ k = EC_P384 p -> head p = Some 4 -> contenuto der d p ->
  resto der (valore alg) (intera oid) (enc TAG_OID (match k with EC_P256 _ => OID_P256 | _ => OID_P384 end) ++ []) ->
  exists c', chiave_ec der alg oid d c = Val c' /\ chiave_letta der k c' /\ comuni c' = comuni c /\ di_est c' = di_est c.
Proof.
  intros Hk Hp H Hr. unfold chiave_ec. prossimo Hr cu Hc Hrc. destruct p as [|x p]; [done|]. injection Hp as ->.
  destruct (contenuto_bound der Hlen _ _ H) as [_ Hn]. rewrite Hn. cbn [length]. rewrite (proj2 (Z.leb_le _ _)) by lia.
  cbn [esige mbind esito_bind]. rewrite (leggi_contenuto der d _ 0 H) by (cbn [length]; lia). cbn [mbind esito_bind].
  change (nth (Z.to_nat 0) (4 :: p) 0 =? 4) with true. cbn [esige mbind esito_bind].
  rewrite !(e_oid_contenuto der _ _ _ Hlen (ri_valore _ _ _ _ _ _ _ Hrc)). cbn [mbind esito_bind].
  destruct Hk as [-> | ->]; cbn [bool_decide decide]; (eexists; split; [vm_compute; reflexivity|]; done).
Qed.

Lemma leggi_chiave_letta k d c :
  punto_ok k -> contenuto der d (enc_spki k) ->
  exists c', leggi_chiave der d c = Val c' /\ chiave_letta der k c' /\ comuni c' = comuni c /\ di_est c' = di_est c.
Proof.
  intros Hk H. apply resto_0 in H. unfold leggi_chiave.
  assert (Hsh : exists oid par b, enc_spki k = enc TAG_SEQUENZA (enc TAG_OID oid ++ par) ++ enc TAG_BITSTRING (0 :: b) /\
    match k with
    | RSA n e => oid = OID_RSA /\ b = enc TAG_SEQUENZA (enc TAG_INTERO n ++ enc TAG_INTERO e)
    | EC_P256 p => oid = OID_EC /\ par = enc TAG_OID OID_P256 /\ b = p
    | EC_P384 p => oid = OID_EC /\ par = enc TAG_OID OID_P384 /\ b = p
    end) by (destruct k; repeat eexists).
  destruct Hsh as (oid & par & b & Es & Hsh). rewrite Es in H. prossimo H alg Ha Hra.
  pose proof (resto_0 der _ _ (ri_valore _ _ _ _ _ _ _ Hra)) as Hal. prossimo Hal o Ho Hro.
  apply ri_dopo_0 in Hra as Hbs. rewrite <- (app_nil_r (enc TAG_BITSTRING _)) in Hbs. prossimo Hbs bs Hb Hrb.
  pose proof (ri_valore _ _ _ _ _ _ _ Hrb) as Hvb. destruct (contenuto_bound der Hlen _ _ Hvb) as [_ Hn]. rewrite Hn.
  cbn [length]. rewrite (proj2 (Z.leb_le _ _)) by lia. cbn [esige mbind esito_bind].
  rewrite (leggi_contenuto der _ _ 0 Hvb) by (cbn [length]; lia). cbn [mbind esito_bind].
  change (nth (Z.to_nat 0) (0 :: b) 0 =? 0) with true. cbn [esige mbind esito_bind].
  rewrite !(e_oid_contenuto der _ _ _ Hlen (ri_valore _ _ _ _ _ _ _ Hro)). cbn [mbind esito_bind].
  apply bit_dentro_contenuto in Hvb. apply ri_dopo_0 in Hro. destruct k as [n e|p|p].
  - destruct Hsh as [-> ->]. rewrite bool_decide_eq_true_2 by done. by apply chiave_rsa_letta.
  - destruct Hsh as (-> & -> & ->). rewrite bool_decide_eq_false_2, bool_decide_eq_true_2 by done.
    rewrite <- (app_nil_r (enc TAG_OID OID_P256)) in Hro. apply (chiave_ec_letta _ _ _ _ p); [by left|done|done|done].
  - destruct Hsh as (-> & -> & ->). rewrite bool_decide_eq_false_2, bool_decide_eq_true_2 by done.
    rewrite <- (app_nil_r (enc TAG_OID OID_P384)) in Hro. apply (chiave_ec_letta _ _ _ _ p); [by right|done|done|done].
Qed.

(** ** Extensions *)

Definition est_oid (e : Estensione) : list Z := match e with Basic _ _ => OID_BASIC | San _ _ => OID_SAN | Altra _ oid _ => oid end.
Definition est_critica (e : Estensione) : bool := match e with Basic c _ | San c _ | Altra c _ _ => c end.
Definition est_valore (e : Estensione) : list Z :=
  match e with
  | Basic _ ca => enc TAG_SEQUENZA (if ca then enc TAG_BOOLEANO [255] else [])
  | San _ n => enc TAG_SEQUENZA n
  | Altra _ _ v => v
  end.

Definition est_dentro (e : Estensione) : list Z :=
  enc TAG_OID (est_oid e) ++ (if est_critica e then enc TAG_BOOLEANO [255] else []) ++ enc TAG_OCTETSTRING (est_valore e).

Lemma enc_est_dentro e : enc_est e = enc TAG_SEQUENZA (est_dentro e).
Proof. by destruct e. Qed.

Lemma dopo_oid_letto e oid (cr : bool) v :
  resto der (valore e) (intera oid) ((if cr then enc TAG_BOOLEANO [255] else []) ++ enc TAG_OCTETSTRING v) ->
  exists x, dopo_oid der e oid = Val x /\ tag x = TAG_OCTETSTRING /\ contenuto der (valore x) v.
Proof.
  intros H. unfold dopo_oid. destruct cr.
  - destruct (exder_leggi_resto der Hlen _ _ _ _ _ H ltac:(discriminate)) as (x & Hx & Hr). rewrite Hx. cbn [mbind esito_bind].
    rewrite (ri_tag _ _ _ _ _ _ _ Hr). change (TAG_BOOLEANO =? TAG_BOOLEANO) with true. cbn match.
    pose proof (ri_dopo _ _ _ _ _ _ _ Hr) as H2. rewrite <- (app_nil_r (enc TAG_OCTETSTRING v)) in H2.
    destruct (exder_leggi_resto der Hlen _ _ _ _ _ H2 ltac:(discriminate)) as (y & Hy & Hry). exists y.
    split; [exact Hy|]. split; apply Hry.
  - cbn [app] in H. rewrite <- (app_nil_r (enc TAG_OCTETSTRING v)) in H.
    destruct (exder_leggi_resto der Hlen _ _ _ _ _ H ltac:(discriminate)) as (x & Hx & Hr). rewrite Hx. cbn [mbind esito_bind].
    rewrite (ri_tag _ _ _ _ _ _ _ Hr). exists x. split; [done|]. split; apply Hr.
Qed.

Lemma basic_ca_letta dopo (ca : bool) :
  contenuto der (valore dopo) (enc TAG_SEQUENZA (if ca then enc TAG_BOOLEANO [255] else [])) -> basic_ca der dopo = Val ca.
Proof.
  intros H. unfold basic_ca. apply resto_0 in H. rewrite <- (app_nil_r (enc TAG_SEQUENZA _)) in H. prossimo H s Hs Hr.
  pose proof (ri_valore _ _ _ _ _ _ _ Hr) as Hv. destruct (contenuto_bound der Hlen _ _ Hv) as [_ ->]. destruct ca; [|done].
  rewrite (proj2 (Z.eqb_neq _ _)) by (cbn; lia). apply resto_0 in Hv. rewrite <- (app_nil_r (enc _ _)) in Hv.
  destruct (exder_leggi_resto der Hlen _ _ _ _ _ Hv ltac:(discriminate)) as (x & -> & Hx). cbn [mbind esito_bind].
  pose proof (ri_valore _ _ _ _ _ _ _ Hx) as Hxv. destruct (contenuto_bound der Hlen _ _ Hxv) as [_ ->].
  rewrite (ri_tag _ _ _ _ _ _ _ Hx). change ((TAG_BOOLEANO =? TAG_BOOLEANO) && (1 <=? Z.of_nat (length [255]))) with true.
  cbn match. rewrite (leggi_contenuto der _ _ 0 Hxv) by (cbn; lia). reflexivity.
Qed.

(** What one extension changes. *)
Definition est_effetto (e : Estensione) (c c' : ExCert) : Prop :=
  comuni c' = comuni c /\ di_chiave c' = di_chiave c /\
  e_ca c' = (if e_basic_ca e then 1 else e_ca c) /\ ha_basic c' = (if e_basic e then 1 else ha_basic c) /\
  match nomi_di e with Some n => contenuto der (san c') n | None => san c' = san c end.

Lemma estensione_letta e el c :
  est_ok e -> contenuto der (valore el) (est_dentro e) -> exists c', estensione der el c = Val c' /\ est_effetto e c c'.
Proof.
  intros He H. unfold estensione. apply resto_0 in H. unfold est_dentro in H.
  destruct (leggi_tag_resto der Hlen _ _ _ _ _ H ltac:(discriminate)) as (oid & -> & Hr). cbn [prova mbind esito_bind].
  rewrite !(e_oid_contenuto der _ _ _ Hlen (ri_valore _ _ _ _ _ _ _ Hr)). cbn [mbind esito_bind].
  apply ri_dopo_0 in Hr. destruct (dopo_oid_letto _ _ _ _ Hr) as (x & Hx & Ht & Hv). rewrite Hx. cbn [prova mbind esito_bind].
  destruct e as [cr ca|cr n|cr oid' v]; cbn [est_oid est_valore] in *.
  - rewrite (bool_decide_eq_true_2 (OID_BASIC = OID_BASIC)), (bool_decide_eq_false_2 (OID_BASIC = OID_SAN)) by done.
    cbn [negb andb]. rewrite Ht, (basic_ca_letta x ca Hv). cbn [prova mbind esito_bind].
    change (TAG_OCTETSTRING =? TAG_OCTETSTRING) with true. cbn [negb]. eexists. split; [reflexivity|]. by destruct ca.
  - rewrite (bool_decide_eq_false_2 (OID_SAN = OID_BASIC)), (bool_decide_eq_true_2 (OID_SAN = OID_SAN)) by done.
    cbn [negb andb]. rewrite Ht. change (TAG_OCTETSTRING =? TAG_OCTETSTRING) with true. cbn [negb].
    apply resto_0 in Hv. rewrite <- (app_nil_r (enc TAG_SEQUENZA n)) in Hv.
    destruct (leggi_tag_resto der Hlen _ _ _ _ _ Hv ltac:(discriminate)) as (s & -> & Hs). cbn [prova mbind esito_bind].
    eexists. split; [reflexivity|]. repeat (split; [done|]). apply Hs.
  - destruct He as [H1 H2]. rewrite !bool_decide_eq_false_2 by done. cbn [negb andb]. exists c. done.
Qed.

(** ** Sequences of extensions *)

Definition ests_effetto (l : list Estensione) (c c' : ExCert) : Prop :=
  comuni c' = comuni c /\ di_chiave c' = di_chiave c /\
  e_ca c' = (if existsb e_basic_ca l then 1 else e_ca c) /\ ha_basic c' = (if existsb e_basic l then 1 else ha_basic c) /\
  match last (omap nomi_di l) with Some n => contenuto der (san c') n | None => san c' = san c end.

Lemma ests_effetto_cons e l c c' c'' : est_effetto e c c' -> ests_effetto l c' c'' -> ests_effetto (e :: l) c c''.
Proof.
  intros (H1 & H2 & H3 & H4 & H5) (K1 & K2 & K3 & K4 & K5). split; [congruence|]. split; [congruence|].
  split; [cbn [existsb]; destruct (existsb e_basic_ca l), (e_basic_ca e); cbn in *; congruence|].
  split; [cbn [existsb]; destruct (existsb e_basic l), (e_basic e); cbn in *; congruence|].
  cbn [omap list_omap]. destruct (nomi_di e) as [n|].
  - destruct (omap nomi_di l) as [|y r] eqn:E; [cbn in *; by rewrite K5|].
    change (last (n :: y :: r)) with (last (y :: r)). destruct (last (y :: r)) eqn:E2; [done|]. by apply last_None in E2.
  - destruct (last (omap nomi_di l)); [done|congruence].
Qed.

Lemma estensioni_loop_lette l : forall fuel d off c,
  Forall est_ok l -> resto der d off (concat (map enc_est l)) -> dn d - off < Z.of_nat fuel ->
  exists c', estensioni_loop fuel der d off c = Val c' /\ ests_effetto l c c'.
Proof.
  induction l as [|e l IH]; intros fuel d off c Hl H Hf; (destruct fuel as [|fuel]; [|]);
    destruct (resto_bound der Hlen _ _ _ H) as (H0 & H1 & H2 & _); cbn [map concat] in H1, H; try lia; cbn [estensioni_loop].
  - cbn [length] in H1. rewrite (proj2 (Z.ltb_ge _ _)) by lia. by exists c.
  - apply Forall_cons in Hl as [He Hl]. rewrite enc_est_dentro in H, H1. rewrite length_app in H1.
    pose proof (length_enc TAG_SEQUENZA (est_dentro e)). rewrite (proj2 (Z.ltb_lt _ _)) by lia.
    rewrite (misura_resto der Hlen _ _ _ _ _ H) by discriminate. cbn [mbind esito_bind]. rewrite (proj2 (Z.eqb_neq _ _)) by lia.
    destruct (leggi_tag_resto der Hlen _ _ _ _ _ H ltac:(discriminate)) as (el & -> & Hr). cbn [prova mbind esito_bind].
    destruct (estensione_letta e el c He (ri_valore _ _ _ _ _ _ _ Hr)) as (c1 & -> & Hc1). cbn [mbind esito_bind].
    pose proof (ri_dopo _ _ _ _ _ _ _ Hr) as Hd. rewrite (ri_intera _ _ _ _ _ _ _ Hr) in Hd.
    rewrite u32_small in Hd |- * by lia.
    destruct (IH fuel d _ c1 Hl Hd) as (c2 & -> & Hc2); [lia|]. exists c2. split; [done|]. by apply (ests_effetto_cons _ _ _ c1).
Qed.

Lemma cerca_estensioni_lette x d off c :
  Forall est_ok (default [] x) -> resto der d off (enc_ests x) ->
  exists c', cerca_estensioni (S (Z.to_nat (dn d))) der d off c = Val c' /\ ests_effetto (default [] x) c c'.
Proof.
  intros Hl H. destruct (resto_bound der Hlen _ _ _ H) as (H0 & H1 & H2 & _). cbn [cerca_estensioni].
  destruct x as [l|]; cbn [enc_ests default from_option id] in *.
  - pose proof (length_enc 163 (enc TAG_SEQUENZA (concat (map enc_est l)))). rewrite (proj2 (Z.ltb_lt _ _)) by lia.
    rewrite <- (app_nil_r (enc 163 _)) in H. rewrite (misura_resto der Hlen _ _ _ _ _ H) by discriminate.
    cbn [mbind esito_bind]. rewrite (proj2 (Z.eqb_neq _ _)) by lia.
    destruct (leggi_tag_resto der Hlen _ _ _ _ _ H ltac:(discriminate)) as (el & -> & Hr). cbn [prova mbind esito_bind].
    pose proof (resto_0 der _ _ (ri_valore _ _ _ _ _ _ _ Hr)) as Hv. rewrite <- (app_nil_r (enc TAG_SEQUENZA _)) in Hv.
    destruct (exder_dentro_resto der Hlen _ _ _ _ _ Hv ltac:(discriminate)) as (s & -> & Hs). cbn [prova mbind esito_bind].
    apply resto_0 in Hs. apply estensioni_loop_lette; [done|done|lia].
  - cbn [length] in H1. rewrite (proj2 (Z.ltb_ge _ _)) by lia. by exists c.
Qed.

(** ** The certificate *)

(** The certificate read is the one that was written. *)
Record riletto_cert (x : X509) (c : ExCert) : Prop := mkRC {
  rc_tbs : contenuto der (tbs c) (enc TAG_SEQUENZA (enc_tbs x));
  rc_emittente : contenuto der (emittente c) (enc TAG_SEQUENZA (x_emittente x));
  rc_soggetto : contenuto der (soggetto c) (enc TAG_SEQUENZA (x_soggetto x));
  rc_serie : contenuto der (numero_serie c) (x_serie x);
  rc_alg : alg_firma c = scelto (x_alg x) tabella_alg;
  rc_firma : contenuto der (firma c) (x_firma x);
  rc_prima : non_prima c = data_16 (x_prima x);
  rc_dopo : non_dopo c = data_16 (x_dopo x);
  rc_chiave : chiave_letta der (x_chiave x) c;
  rc_ca : e_ca c = if existsb e_basic_ca (default [] (x_est x)) then 1 else 0;
  rc_basic : ha_basic c = if existsb e_basic (default [] (x_est x)) then 1 else 0;
  rc_san : san_letto der (default [] (x_est x)) (san c)
}.

Lemma enc_data_enc d : enc_data d = enc (match d with UTC _ => TAG_UTCTIME | GEN _ => TAG_GENTIME end) (match d with UTC s => s | GEN s => s end).
Proof. by destruct d. Qed.

(** The first element tells whether there is a version. *)
Lemma versione_letta x t l :
  resto der t 0 (match x_versione x with None => [] | Some v => enc 0xA0 v end ++ enc TAG_INTERO (x_serie x) ++ l) ->
  exists e, exder_leggi der t 0 = Val e /\
  resto der t (if tag e =? 0xA0 then intera e else 0) (enc TAG_INTERO (x_serie x) ++ l).
Proof.
  intros H. destruct (x_versione x) as [v|]; cbn [app] in H.
  - destruct (exder_leggi_resto der Hlen _ _ _ _ _ H ltac:(discriminate)) as (e & He & Hr). exists e. split; [done|].
    rewrite (ri_tag _ _ _ _ _ _ _ Hr). exact (ri_dopo_0 _ _ _ _ _ Hr).
  - destruct (exder_leggi_resto der Hlen _ _ _ _ _ H ltac:(discriminate)) as (e & He & Hr). exists e. split; [done|].
    by rewrite (ri_tag _ _ _ _ _ _ _ Hr).
Qed.

Lemma analizza_tbs_letta x b t alg f :
  x509_ok x -> contenuto der t (enc_tbs x) ->
  exists c off, analizza_tbs der b t alg f = Val (c, off) /\
  resto der t off (enc TAG_SEQUENZA (enc_spki (x_chiave x)) ++ enc_ests (x_est x)) /\
  tbs c = b /\ firma c = f /\ alg_firma c = alg /\ di_est c = (0, 0, nullo) /\
  contenuto der (emittente c) (enc TAG_SEQUENZA (x_emittente x)) /\
  contenuto der (soggetto c) (enc TAG_SEQUENZA (x_soggetto x)) /\ contenuto der (numero_serie c) (x_serie x) /\
  non_prima c = data_16 (x_prima x) /\ non_dopo c = data_16 (x_dopo x).
Proof.
  intros [Hd1 Hd2 _ _ _] H. apply resto_0 in H. unfold enc_tbs in H. unfold analizza_tbs.
  destruct (versione_letta x t _ H) as (v0 & -> & Hser). cbn [mbind esito_bind].
  set (o1 := if tag v0 =? 160 then intera v0 else 0) in *. prossimo Hser se Hse Hrse.
  pose proof (ri_dopo _ _ _ _ _ _ _ Hrse) as Hal. unfold enc_alg in Hal. prossimo Hal al Ha Hral.
  pose proof (ri_dopo _ _ _ _ _ _ _ Hral) as Hem. prossimo Hem em He Hrem.
  pose proof (ri_dopo _ _ _ _ _ _ _ Hrem) as Hva. prossimo Hva va Hv Hrva.
  pose proof (resto_0 der _ _ (ri_valore _ _ _ _ _ _ _ Hrva)) as Hda. rewrite (enc_data_enc (x_prima x)) in Hda.
  destruct (exder_leggi_resto der Hlen _ _ _ _ _ Hda ltac:(by destruct (x_prima x))) as (a & -> & Hra). cbn [mbind esito_bind].
  rewrite (leggi_data_riletto _ _ _ _ _ Hd1 Hra). cbn [mbind esito_bind].
  apply ri_dopo_0 in Hra as Hdb. rewrite (enc_data_enc (x_dopo x)) in Hdb. rewrite <- (app_nil_r (enc _ _)) in Hdb.
  destruct (exder_leggi_resto der Hlen _ _ _ _ _ Hdb ltac:(by destruct (x_dopo x))) as (b' & -> & Hrb). cbn [mbind esito_bind].
  rewrite (leggi_data_riletto _ _ _ _ _ Hd2 Hrb). cbn [mbind esito_bind].
  pose proof (ri_dopo _ _ _ _ _ _ _ Hrva) as Hso. prossimo Hso so Hs Hrso.
  eexists _, _. split; [reflexivity|]. cbn [tbs firma alg_firma emittente soggetto numero_serie non_prima non_dopo].
  split; [apply Hrso|]. repeat (split; [done|]). split; [apply Hrem|]. split; [apply Hrso|]. split; [apply Hrse|done].
Qed.

Lemma excert_analizza_riletto x :
  x509_ok x -> der = enc_cert x ->
  exists c, excert_analizza der (Z.of_nat (length der)) = Val c /\ riletto_cert x c.
Proof.
  intros Hx Ed. pose proof (resto_0 der _ _ (contenuto_tutto der)) as H. rewrite Ed in H at 3. unfold enc_cert in H.
  rewrite <- (app_nil_r (enc TAG_SEQUENZA _)) in H. unfold excert_analizza.
  destruct (exder_dentro_resto der Hlen _ _ _ _ _ H ltac:(discriminate)) as (corpo & -> & Hc). cbn [mbind esito_bind].
  apply resto_0 in Hc. prossimo Hc el Hel Hrel. apply ri_dopo_0 in Hrel as Hal. unfold enc_alg in Hal. cbn [dn].
  prossimo Hal alg Ha Hral. pose proof (resto_0 der _ _ (ri_valore _ _ _ _ _ _ _ Hral)) as Hoi. prossimo Hoi oid Ho Hro.
  unfold alg_da_oid. rewrite (scegli_contenuto _ _ _ (ri_valore _ _ _ _ _ _ _ Hro)). cbn [mbind esito_bind].
  pose proof (ri_dopo _ _ _ _ _ _ _ Hral) as Hfi. rewrite <- (app_nil_r (enc TAG_BITSTRING _)) in Hfi. prossimo Hfi f Hf Hrf.
  pose proof (ri_valore _ _ _ _ _ _ _ Hrf) as Hvf. destruct (contenuto_bound der Hlen _ _ Hvf) as [_ Hn]. rewrite Hn.
  assert (Hpos : (0 < length (x_firma x))%nat) by (destruct Hx as [_ _ _ _ Hff]; destruct (x_firma x); [done|cbn; lia]).
  cbn [length]. rewrite (proj2 (Z.leb_le _ _)) by lia. cbn [esige mbind esito_bind].
  rewrite (leggi_contenuto der _ _ 0 Hvf) by (cbn [length]; lia). cbn [mbind esito_bind].
  change (nth (Z.to_nat 0) (0 :: x_firma x) 0 =? 0) with true. cbn [esige mbind esito_bind].
  destruct (analizza_tbs_letta x (mkDer (dp corpo) (intera el)) (valore el) (scelto (x_alg x) tabella_alg) (bit_dentro f) Hx
    (ri_valore _ _ _ _ _ _ _ Hrel)) as (c & off & -> & Hk & Et & Ef & Ea & Ee & He & Hs & Hse & Hp & Hd). cbn [mbind esito_bind].
  prossimo Hk ke Hke Hrke. destruct (leggi_chiave_letta (x_chiave x) (valore ke) c (xo_chiave _ Hx) (ri_valore _ _ _ _ _ _ _ Hrke))
    as (c1 & -> & Hk1 & Hc1 & Hd1). cbn [prova mbind esito_bind].
  destruct (cerca_estensioni_lette (x_est x) (valore el) _ c1 (xo_est _ Hx) (ri_dopo _ _ _ _ _ _ _ Hrke)) as (c2 & Hc2 & Heff).
  exists c2. split; [exact Hc2|]. destruct Heff as (Hco & Hdc & Hca & Hba & Hsan).
  rewrite Hc1 in Hco. unfold comuni in Hco. rewrite Et, Ef, Ea in Hco. injection Hco as T1 T2 T3 T4 T5 T6 T7 T8.
  rewrite Ee in Hd1. injection Hd1 as E1 E2 E3. rewrite E1 in Hca. rewrite E2 in Hba. rewrite E3 in Hsan.
  assert (Ez : sposta (dp corpo) 0 = dp corpo) by (destruct (dp corpo); cbn; [by rewrite Z.add_0_r|done]).
  pose proof (ri_tutto _ _ _ _ _ _ _ Hrel) as Htbs. rewrite Ez in Htbs.
  split; try congruence; rewrite ?T1, ?T2, ?T3, ?T4, ?T6; try done.
  - by apply bit_dentro_contenuto.
  - unfold di_chiave in Hdc. injection Hdc as K1 K2 K3 K4. unfold chiave_letta in *. by rewrite K1, K2, K3, K4.
Qed.

End Reading.
