(* ===== verification/Exasn1Thms.v ===== *)
(** * Certificates: theorems *)

From S2P Require Import Prelude Bytes Esito Exasn1 Exasn1Spec Exasn1Enc Exasn1Cert.

(** A small certificate: version 3, an RSA key with a zero in front of the
    modulus, a critical basicConstraints with CA, a subjectAltName. *)
Definition esempio : X509 :=
  mkX (Some [2; 1; 2]) [17] OID_RSA_SHA256 [5; 0] [1; 2; 3]
      (UTC [50;52;48;49;48;49;48;48;48;48;48;48;90]) (GEN [50;48;53;49;48;49;48;49;48;48;48;48;48;48;90]) [4; 5; 6]
      (RSA [0; 201; 7] [1; 0; 1]) (Some [Basic true true; Altra false [85; 29; 15] [9]; San false [130; 1; 97]]) [66; 77].

Lemma esempio_ok : x509_ok esempio.
Proof. split; cbn; [lia|lia|done|repeat constructor; discriminate|discriminate]. Qed.

(** C30: on any input below 4 GB, [excert_analizza] reads no byte outside the
    input and its loops end.  When it accepts, the signed part and the signature
    are slices of the input, and issuer, subject, serial number, key and
    alternative names are slices of the signed part. *)
Theorem excert_analizza_safe der :
  Z.of_nat (length der) < W32 -> bytes der ->
  match excert_analizza der (Z.of_nat (length der)) with
  | Val c =>
      parte_di (tbs c) (tutto der) /\ parte_di (firma c) (tutto der) /\
      Forall (fun s => parte_di s (tbs c))
        [emittente c; soggetto c; numero_serie c; chiave_modulo c; chiave_esponente c; chiave_punto c; san c] /\
      length (non_prima c) = 16%nat /\ length (non_dopo c) = 16%nat
  | Rifiuto => True
  | Fuori | Stanco => False
  end.
Proof.
  intros Hlen Hb. pose proof (excert_analizza_ok der Hlen Hb) as H. unfold salvo in H.
  destruct (excert_analizza der (Z.of_nat (length der))) as [c| | |]; try done.
  destruct H as (Ht & Hf & t & Hp & []). split; [apply Ht|]. split; [apply Hf|]. split; [|done].
  repeat (apply Forall_cons; split; [eauto using parte_di_trans|]). by apply Forall_nil.
Qed.

Lemma excert_analizza_safe_witness :
  exists c, excert_analizza (enc_cert esempio) (Z.of_nat (length (enc_cert esempio))) = Val c /\ parte_di (san c) (tbs c).
Proof.
  assert (Hb : bytes (enc_cert esempio)).
  { apply Forall_forall. intros x Hx. apply list_elem_of_In in Hx. vm_compute in Hx.
    repeat (destruct Hx as [Hx|Hx]; [subst x; lia|]). destruct Hx. }
  pose proof (excert_analizza_safe (enc_cert esempio) ltac:(vm_compute; reflexivity) Hb) as H.
  destruct (excert_analizza (enc_cert esempio) _) as [c| | |] eqn:E; [|vm_compute in E; discriminate E|destruct H|destruct H].
  exists c. split; [reflexivity|]. destruct H as (_ & _ & H & _). exact (Forall_inv (Forall_inv_tail (Forall_inv_tail (Forall_inv_tail (Forall_inv_tail (Forall_inv_tail (Forall_inv_tail H))))))).
Defined.

(** C31: a certificate written in DER is read back: signed part, issuer,
    subject, serial number, signature and its algorithm, both dates in 16
    characters with the century of two-digit years, the key (RSA without the
    zeroes in front of the modulus, P-256, P-384), the CA flag, and the last
    subjectAltName, whatever other extensions there are. *)
Theorem excert_analizza_roundtrip x :
  x509_ok x -> Z.of_nat (length (enc_cert x)) < W32 ->
  exists c, excert_analizza (enc_cert x) (Z.of_nat (length (enc_cert x))) = Val c /\ riletto_cert (enc_cert x) x c.
Proof. intros Hx Hlen. by apply excert_analizza_riletto. Qed.

Lemma excert_analizza_roundtrip_witness :
  exists c, excert_analizza (enc_cert esempio) (Z.of_nat (length (enc_cert esempio))) = Val c /\
  e_ca c = 1 /\ tipo_chiave c = EXASN1_CHIAVE_RSA /\ alg_firma c = EXASN1_ALG_RSA_SHA256 /\
  contenuto (enc_cert esempio) (chiave_modulo c) [201; 7] /\ contenuto (enc_cert esempio) (san c) [130; 1; 97].
Proof.
  destruct (excert_analizza_roundtrip esempio esempio_ok ltac:(vm_compute; reflexivity)) as (c & Hc & Hr).
  exists c. split; [exact Hc|]. destruct Hr as [_ _ _ _ Ha _ _ _ (Ht & Hm & _) Hca _ Hs].
  split; [exact Hca|]. split; [exact Ht|]. split; [exact Ha|]. split; [exact Hm|exact Hs].
Defined.

(** [excert_stesso_nome] says yes exactly when the two names are the same
    bytes, and reads only those. *)
Theorem excert_stesso_nome_correct bufa a v bufb b w :
  Z.of_nat (length bufa) < W32 -> Z.of_nat (length bufb) < W32 -> contenuto bufa a v -> contenuto bufb b w ->
  excert_stesso_nome bufa a bufb b = Val (bool_decide (v = w)).
Proof.
  intros Ha Hb Hv Hw. unfold excert_stesso_nome.
  assert (dp a <> None) by (destruct Hv as (p & -> & _); done). assert (dp b <> None) by (destruct Hw as (p & -> & _); done).
  rewrite !bool_decide_eq_false_2 by done. by apply uguali_contenuto.
Qed.

Lemma excert_stesso_nome_correct_witness :
  excert_stesso_nome [48; 1; 7] (mkDer (Some 0) 3) [9; 48; 1; 7] (mkDer (Some 1) 3) = Val true.
Proof.
  apply (excert_stesso_nome_correct [48; 1; 7] (mkDer (Some 0) 3) [48; 1; 7] [9; 48; 1; 7] (mkDer (Some 1) 3) [48; 1; 7]);
    [reflexivity|reflexivity| |].
  - exists 0. split; [reflexivity|]. split; [lia|]. split; [reflexivity|]. exists []. reflexivity.
  - exists 1. split; [reflexivity|]. split; [lia|]. split; [reflexivity|]. exists []. reflexivity.
Defined.
