(* ===== verification/Excert.v ===== *)
(** * Chains of certificates and names of sites (lib/excert/excert.c)

    A certificate is its structure and the buffer that its slices point into.
    The digests and the check of an ECDSA signature are supplied to this file
    by its caller (excert.h declares [sha256] and does not define it): they are
    the interface [Crypto].  The bytes that such a function reads are read
    through [leggi_byte], so that a read outside a buffer shows as [Fuori]. *)

From S2P Require Import Prelude Bytes Esito Exasn1 Exbig.

Class Crypto : Type := {
  sha256 : list Z -> list Z;
  sha384 : list Z -> list Z;
  sha512 : list Z -> list Z;
  (** the curve, the point, the digest, [r] and [s]; true is the return of 0 *)
  excurva_verifica : Z -> list Z -> list Z -> list Z -> list Z -> bool
}.

(** What the callers rely on: the sizes of the digests. *)
Class CryptoOk `{Crypto} : Prop := {
  sha256_ok : forall l, length (sha256 l) = 32%nat /\ bytes (sha256 l);
  sha384_ok : forall l, length (sha384 l) = 48%nat /\ bytes (sha384 l);
  sha512_ok : forall l, length (sha512 l) = 64%nat /\ bytes (sha512 l)
}.

Definition EXCERT_OK : Z := 0.
Definition EXCERT_MALFORMATO : Z := -1.
Definition EXCERT_FIRMA_SBAGLIATA : Z := -2.
Definition EXCERT_NOME_DIVERSO : Z := -3.
Definition EXCERT_NON_E_CA : Z := -4.
Definition EXCERT_SCADUTO : Z := -5.
Definition EXCERT_NON_ANCORA : Z := -6.
Definition EXCERT_SENZA_RADICE : Z := -7.
Definition EXCERT_ALG_RIFIUTATO : Z := -8.
Definition EXCERT_TROPPO_LUNGA : Z := -9.
Definition EXCERT_CHIAVE_RIFIUTATA : Z := -10.
Definition EXCERT_ANNULLATO : Z := -11.

Definition EXCURVA_P256 : Z := 0.
Definition EXCURVA_P384 : Z := 1.

Record Cert : Type := mkC { c_buf : list Z; c_cert : ExCert }.

(** The bytes of a slice. *)
Definition byte_di (c : Cert) (d : ExDer) : esito (list Z) := copia_byte (Z.to_nat (dn d)) (c_buf c) (dp d) 0.

(** ** Signatures *)

Definition DIGESTINFO_SHA256 : list Z :=
  [0x30;0x31;0x30;0x0d;0x06;0x09;0x60;0x86;0x48;0x01;0x65;0x03;0x04;0x02;0x01;0x05;0x00;0x04;0x20].
Definition DIGESTINFO_SHA384 : list Z :=
  [0x30;0x41;0x30;0x0d;0x06;0x09;0x60;0x86;0x48;0x01;0x65;0x03;0x04;0x02;0x02;0x05;0x00;0x04;0x30].
Definition DIGESTINFO_SHA512 : list Z :=
  [0x30;0x51;0x30;0x0d;0x06;0x09;0x60;0x86;0x48;0x01;0x65;0x03;0x04;0x02;0x03;0x05;0x00;0x04;0x40].

Fixpoint confronta_loop (n : nat) (a b : list Z) (i : nat) (diverso : Z) : Z :=
  match n with
  | O => diverso
  | S n => confronta_loop n a b (S i) (Z.lor diverso (Z.lxor (nth i a 0) (nth i b 0)))
  end.

Definition confronta (a b : list Z) (n : nat) : bool := confronta_loop n a b 0 0 =? 0.

Definition ecdsa_r_s (der : list Z) (firma : ExDer) : esito (ExDer * ExDer) :=
  dentro ← exder_dentro der firma 0 0x30;
  a ← leggi_tag der dentro 0 0x02;
  b ← leggi_tag der dentro (intera a) 0x02;
  Val (valore a, valore b).

Definition nulla (d : ExDer) : bool := bool_decide (dp d = None).

Section Firme.

Context `{Crypto}.

Definition firma_ecdsa (figlio padre : Cert) : esito Z :=
  let f := c_cert figlio in
  let p := c_cert padre in
  if (tipo_chiave p =? EXASN1_CHIAVE_EC_P256) || (tipo_chiave p =? EXASN1_CHIAVE_EC_P384) then
    let curva := if tipo_chiave p =? EXASN1_CHIAVE_EC_P256 then EXCURVA_P256 else EXCURVA_P384 in
    if nulla (tbs f) || nulla (firma f) then Val EXCERT_MALFORMATO
    else if nulla (chiave_punto p) then Val EXCERT_MALFORMATO
    else
      rs ← prova (ecdsa_r_s (c_buf figlio) (firma f));
      match rs with
      | None => Val EXCERT_MALFORMATO
      | Some (r, sg) =>
          t ← byte_di figlio (tbs f);
          let imp := if alg_firma f =? EXASN1_ALG_ECDSA_SHA384 then sha384 t else sha256 t in
          punto ← byte_di padre (chiave_punto p);
          rb ← byte_di figlio r;
          sb ← byte_di figlio sg;
          Val (if excurva_verifica curva punto imp rb sb then EXCERT_OK else EXCERT_FIRMA_SBAGLIATA)
      end
  else Val EXCERT_CHIAVE_RIFIUTATA.

(** The DigestInfo and the digest that go with the algorithm of the signature. *)
Definition digest_di (alg : Z) (t : list Z) : option (list Z * list Z) :=
  if alg =? EXASN1_ALG_RSA_SHA256 then Some (DIGESTINFO_SHA256, sha256 t)
  else if alg =? EXASN1_ALG_RSA_SHA384 then Some (DIGESTINFO_SHA384, sha384 t)
  else if alg =? EXASN1_ALG_RSA_SHA512 then Some (DIGESTINFO_SHA512, sha512 t)
  else None.

(** The envelope that has to be there. *)
Definition busta_attesa (k : nat) (di imp : list Z) : list Z :=
  [0; 1] ++ replicate (k - 3 - length di - length imp) 255 ++ [0] ++ di ++ imp.

(** The last part: the numbers, and the envelope byte by byte. *)
Definition verifica_rsa (s n e di imp : list Z) : Z :=
  let k := length n in
  if (k <? 64)%nat || (EXBIG_PAROLE * 4 <? k)%nat then EXCERT_MALFORMATO
  else if (k <? length s)%nat then EXCERT_MALFORMATO
  else
    match exbig_da_byte n, exbig_da_byte e, exbig_da_byte s with
    | Some modulo, Some esp, Some firma =>
        match exbig_modexp firma esp modulo with
        | None => EXCERT_FIRMA_SBAGLIATA
        | Some risultato =>
            match exbig_a_byte risultato k with
            | None => EXCERT_FIRMA_SBAGLIATA
            | Some busta =>
                if (k <? 3 + length di + length imp)%nat then EXCERT_MALFORMATO
                else if (k - 3 - length di - length imp <? 8)%nat then EXCERT_MALFORMATO
                else
                  let atteso := busta_attesa k di imp in
                  if negb (length atteso =? k)%nat then EXCERT_MALFORMATO
                  else if negb (confronta busta atteso k) then EXCERT_FIRMA_SBAGLIATA
                  else EXCERT_OK
            end
        end
    | _, _, _ => EXCERT_MALFORMATO
    end.

Definition firma_rsa (figlio padre : Cert) : esito Z :=
  let f := c_cert figlio in
  let p := c_cert padre in
  if bool_decide (digest_di (alg_firma f) [] = None) then Val EXCERT_ALG_RIFIUTATO
  else
    t ← byte_di figlio (tbs f);
    match digest_di (alg_firma f) t with
    | None => Val EXCERT_ALG_RIFIUTATO
    | Some (di, imp) =>
        if negb (tipo_chiave p =? EXASN1_CHIAVE_RSA) then Val EXCERT_CHIAVE_RIFIUTATA
        else if nulla (tbs f) || nulla (firma f) then Val EXCERT_MALFORMATO
        else if nulla (chiave_modulo p) then Val EXCERT_MALFORMATO
        else
          n ← byte_di padre (chiave_modulo p);
          e ← byte_di padre (chiave_esponente p);
          s ← byte_di figlio (firma f);
          Val (verifica_rsa s n e di imp)
    end.

Definition excert_firma_valida (figlio padre : Cert) : esito Z :=
  let alg := alg_firma (c_cert figlio) in
  if alg =? EXASN1_ALG_RSA_SHA1 then Val EXCERT_ALG_RIFIUTATO
  else if (alg =? EXASN1_ALG_ECDSA_SHA256) || (alg =? EXASN1_ALG_ECDSA_SHA384) then firma_ecdsa figlio padre
  else firma_rsa figlio padre.

(** ** Dates: C strings, the byte after the last is zero; [char] is signed *)

Definition schar (x : Z) : Z := if x <? 128 then x else x - 256.

Fixpoint prima_loop (n : nat) (i : nat) (a b : list Z) : bool :=
  match n with
  | O => false
  | S n =>
      if negb (nth i a 0 =? nth i b 0) then schar (nth i a 0) <? schar (nth i b 0)
      else if nth i a 0 =? 0 then false
      else prima_loop n (S i) a b
  end.

Definition prima (a b : list Z) : bool := prima_loop 14 0 a b.

Definition date_a_posto (c : ExCert) (adesso : option (list Z)) : Z :=
  match adesso with
  | None => EXCERT_OK
  | Some adesso =>
      if nth 0 adesso 0 =? 0 then EXCERT_OK
      else if prima adesso (non_prima c) then EXCERT_NON_ANCORA
      else if prima (non_dopo c) adesso then EXCERT_SCADUTO
      else EXCERT_OK
  end.

(** ** The store *)

Definition EXCERT_MAGAZZINO_MAX : nat := 200.

Definition excert_magazzino_aggiungi (m : list Cert) (der : list Z) (len : Z) : esito (Z * list Cert) :=
  if (EXCERT_MAGAZZINO_MAX <=? length m)%nat then Val (EXCERT_TROPPO_LUNGA, m)
  else
    o ← prova (excert_analizza der len);
    Val (match o with Some c => (EXCERT_OK, m ++ [mkC der c]) | None => (EXCERT_MALFORMATO, m) end).

(** [excert_stesso_nome(&figlio->emittente, &padre->soggetto)] *)
Definition emesso_da (figlio padre : Cert) : esito bool :=
  excert_stesso_nome (c_buf figlio) (emittente (c_cert figlio)) (c_buf padre) (soggetto (c_cert padre)).

Fixpoint radice_di (c : Cert) (m : list Cert) : esito (option Cert) :=
  match m with
  | [] => Val None
  | r :: m =>
      b ← emesso_da c r;
      if negb b then radice_di c m
      else if e_ca (c_cert r) =? 0 then radice_di c m
      else
        v ← excert_firma_valida c r;
        if v =? EXCERT_OK then Val (Some r) else radice_di c m
  end.

(** ** The chain: the code and the link it is about *)

Fixpoint catena_loop (catena : list Cert) (i quanti : Z) (m : list Cert) (adesso : option (list Z))
    (passo : Z -> Z -> bool) : esito (Z * Z) :=
  match catena with
  | [] => Val (EXCERT_SENZA_RADICE, i - 1)
  | figlio :: resto =>
      let r := date_a_posto (c_cert figlio) adesso in
      if negb (r =? EXCERT_OK) then Val (r, i)
      else if negb (passo i quanti) then Val (EXCERT_ANNULLATO, i)
      else
        radice ← radice_di figlio m;
        match radice, resto with
        | Some _, _ => Val (EXCERT_OK, 0)
        | None, [] => Val (EXCERT_SENZA_RADICE, i)
        | None, padre :: _ =>
            b ← emesso_da figlio padre;
            if negb b then Val (EXCERT_NOME_DIVERSO, i)
            else if e_ca (c_cert padre) =? 0 then Val (EXCERT_NON_E_CA, i)
            else
              r ← excert_firma_valida figlio padre;
              if negb (r =? EXCERT_OK) then Val (r, i)
              else catena_loop resto (i + 1) quanti m adesso passo
        end
  end.

(** [passo] that is always true is the null callback. *)
Definition excert_catena_valida (catena m : list Cert) (adesso : option (list Z)) (passo : Z -> Z -> bool) : esito (Z * Z) :=
  if (length catena =? 0)%nat then Val (EXCERT_MALFORMATO, 0)
  else if (10 <? length catena)%nat then Val (EXCERT_TROPPO_LUNGA, 0)
  else catena_loop catena 0 (Z.of_nat (length catena)) m adesso passo.

End Firme.

(** ** The name of the site: [host] is a C string *)

Definition giu (c : Z) : Z := if (65 <=? c) && (c <=? 90) then c - 65 + 97 else c.

Fixpoint nome_loop (n : nat) (der : list Z) (p : option Z) (i : nat) (host : list Z) : esito bool :=
  match n with
  | O => Val (nth i host 0 =? 0)
  | S n =>
      if nth i host 0 =? 0 then Val false
      else
        b ← leggi_byte der p (Z.of_nat i);
        if negb (giu b =? giu (nth i host 0)) then Val false else nome_loop n der p (S i) host
  end.

Definition nome_uguale (der : list Z) (p : option Z) (n : Z) (host : list Z) : esito bool :=
  nome_loop (Z.to_nat n) der p 0 host.

(** [for (i = 2; i < n; i++) if (cert[i] == '.') break;]: whether it broke. *)
Fixpoint cerca_punto (k : nat) (der : list Z) (p : option Z) (i : Z) : esito bool :=
  match k with
  | O => Val false
  | S k => b ← leggi_byte der p i; if b =? 46 then Val true else cerca_punto k der p (i + 1)
  end.

(** The host from its first dot on, if it has one. *)
Fixpoint dal_punto (host : list Z) : option (list Z) :=
  match host with
  | [] => None
  | x :: r => if x =? 46 then Some host else dal_punto r
  end.

Definition jolly_uguale (der : list Z) (p : option Z) (n : Z) (host : list Z) : esito bool :=
  if n <? 2 then Val false
  else
    a ← leggi_byte der p 0;
    if negb (a =? 42) then Val false
    else
      b ← leggi_byte der p 1;
      if negb (b =? 46) then Val false
      else
        trovato ← cerca_punto (Z.to_nat (n - 2)) der p 2;
        if negb trovato then Val false
        else
          match dal_punto host with
          | None => Val false
          | Some punto => nome_uguale der (sposta p 1) (n - 1) punto
          end.

Fixpoint nomi_loop (fuel : nat) (der : list Z) (san : ExDer) (off : Z) (host : list Z) : esito Z :=
  match fuel with
  | O => Stanco
  | S fuel =>
      if off <? dn san then
        o ← prova (exder_leggi der san off);
        match o with
        | None => Val EXCERT_NOME_DIVERSO
        | Some g =>
            let off := u32 (off + intera g) in
            if negb (tag g =? 0x82) then nomi_loop fuel der san off host
            else if dn (valore g) =? 0 then nomi_loop fuel der san off host
            else
              a ← nome_uguale der (dp (valore g)) (dn (valore g)) host;
              if a : bool then Val EXCERT_OK
              else
                b ← jolly_uguale der (dp (valore g)) (dn (valore g)) host;
                if b : bool then Val EXCERT_OK else nomi_loop fuel der san off host
        end
      else Val EXCERT_NOME_DIVERSO
  end.

Definition excert_nome_combacia (c : Cert) (host : list Z) : esito Z :=
  let s := san (c_cert c) in
  if nth 0 host 0 =? 0 then Val EXCERT_NOME_DIVERSO
  else if nulla s || (dn s =? 0) then Val EXCERT_NOME_DIVERSO
  else nomi_loop (S (Z.to_nat (dn s))) (c_buf c) s 0 host.
