(* ===== verification/ExcertSpec.v ===== *)
(** * Chains of certificates: what the code checks

    Names, dates and signatures are described through the bytes of the slices
    ([slice]), not through the functions of the code; a chain is good ([catena_ok])
    when its dates hold, every link is issued and signed by the next one, which is a
    CA, up to a link that a CA of the store signed. *)

From S2P Require Import Prelude Bytes Esito Exasn1 Exasn1Spec Exasn1Enc Exbig ExbigSpec ExbigPow ExbigByte Excert.

(** ** Slices as byte sequences *)

Definition slice (buf : list Z) (d : ExDer) : list Z :=
  match dp d with None => [] | Some p => take (Z.to_nat (dn d)) (drop (Z.to_nat p) buf) end.

(** A certificate as [excert_analizza] leaves it. *)
Record cert_wf (c : Cert) : Prop := mkWf {
  wf_bytes : bytes (c_buf c);
  wf_len : Z.of_nat (length (c_buf c)) < W32;
  wf_cert : certificato (c_buf c) (c_cert c)
}.

Lemma analizza_wf der c :
  bytes der -> Z.of_nat (length der) < W32 -> excert_analizza der (Z.of_nat (length der)) = Val c -> cert_wf (mkC der c).
Proof.
  intros Hb Hl E. split; [done|done|]. pose proof (excert_analizza_ok der Hl Hb) as H. rewrite E in H. exact H.
Qed.

Section Slices.

Context (c : Cert) (Hc : cert_wf c).

(** The slices of a certificate are slices of its buffer. *)
Lemma wf_slices :
  Forall (fun s => parte_di s (tutto (c_buf c)))
    [tbs (c_cert c); firma (c_cert c); emittente (c_cert c); soggetto (c_cert c); chiave_modulo (c_cert c);
     chiave_esponente (c_cert c); chiave_punto (c_cert c); san (c_cert c)].
Proof.
  destruct Hc as [_ _ (Ht & Hf & t & Hp & [])]. pose proof (parte_di_trans _ _ _ Hp (proj1 Ht)) as Hq.
  repeat (apply Forall_cons; split; [first [exact (proj1 Ht)|exact (proj1 Hf)|eauto using parte_di_trans]|]). by apply Forall_nil.
Qed.

Lemma slice_contenuto d :
  parte_di d (tutto (c_buf c)) -> dp d <> None -> contenuto (c_buf c) d (slice (c_buf c) d).
Proof.
  intros [H0 H1] Hp. unfold slice. destruct (dp d) as [p|] eqn:Ep; [|done]. cbn in H1. exists p. rewrite Ep. split; [done|]. split; [lia|].
  rewrite length_take, length_drop. split; [lia|]. eexists. symmetry. apply take_drop.
Qed.

Lemma byte_di_ok d : parte_di d (tutto (c_buf c)) -> byte_di c d = Val (slice (c_buf c) d).
Proof.
  intros H. unfold byte_di. destruct (dp d) as [p|] eqn:Ep.
  - assert (Hp : dp d <> None) by by rewrite Ep. rewrite <- Ep. pose proof (slice_contenuto d H Hp) as Hco.
    destruct (contenuto_bound _ (wf_len _ Hc) _ _ Hco) as [_ Hn].
    rewrite (copia_byte_0 _ _ _ _ Hco) by lia. rewrite take_ge by lia. done.
  - destruct H as [_ H]. rewrite Ep in H. rewrite H. unfold slice. by rewrite Ep.
Qed.

Lemma slice_bytes d : bytes (slice (c_buf c) d).
Proof. unfold slice. destruct (dp d); [|constructor]. apply Forall_take, Forall_drop, Hc. Qed.

Lemma slice_fetta d : parte_di d (tutto (c_buf c)) -> fetta (c_buf c) d.
Proof.
  intros H. split; [done|]. pose proof (wf_len _ Hc). destruct H as [Hn H1]. destruct (dp d) as [p|]; [cbn in H1; lia|].
  rewrite H1. reflexivity.
Qed.

End Slices.

(** ** Issuer and subject *)

(** The issuer of [f] is the subject of [p], byte by byte. *)
Definition stesso_nome (f p : Cert) : Prop :=
  dp (emittente (c_cert f)) <> None /\ dp (soggetto (c_cert p)) <> None /\
  slice (c_buf f) (emittente (c_cert f)) = slice (c_buf p) (soggetto (c_cert p)).

Lemma emesso_da_ok f p : cert_wf f -> cert_wf p -> exists b, emesso_da f p = Val b /\ (b = true <-> stesso_nome f p).
Proof.
  intros Hf Hp. unfold emesso_da, excert_stesso_nome, stesso_nome.
  destruct (bool_decide_reflect (dp (emittente (c_cert f)) = None)) as [|H1]; [exists false; split; [done|]; split; [done | by intros (? & _)]|].
  destruct (bool_decide_reflect (dp (soggetto (c_cert p)) = None)) as [|H2]; [exists false; split; [done|]; split; [done | by intros (_ & ? & _)]|]. cbn [orb].
  pose proof (wf_slices f Hf) as Sf. pose proof (wf_slices p Hp) as Sp. rewrite !Forall_cons in Sf, Sp.
  eexists. split; [apply uguali_contenuto; [apply Hf|apply Hp|apply slice_contenuto|apply slice_contenuto]; tauto|].
  rewrite bool_decide_eq_true. tauto.
Qed.

(** ** Dates *)

(** [a] comes before [b]: the first of 14 characters where they differ is smaller, and
    neither ends before it. *)
Definition precede (a b : list Z) : Prop :=
  exists i, (i < 14)%nat /\ (forall j, (j < i)%nat -> nth j a 0 = nth j b 0 /\ nth j a 0 <> 0) /\
    nth i a 0 <> nth i b 0 /\ schar (nth i a 0) < schar (nth i b 0).

Lemma prima_loop_precede n a b : forall i, prima_loop n i a b = true <->
  exists k, (i <= k < i + n)%nat /\ (forall j, (i <= j < k)%nat -> nth j a 0 = nth j b 0 /\ nth j a 0 <> 0) /\
    nth k a 0 <> nth k b 0 /\ schar (nth k a 0) < schar (nth k b 0).
Proof.
  induction n as [|n IH]; intros i; cbn [prima_loop]; [split; [done | intros (k & Hk & _); lia]|].
  destruct (Z.eqb_spec (nth i a 0) (nth i b 0)) as [E|E]; cbn [negb].
  - destruct (Z.eqb_spec (nth i a 0) 0) as [E0|E0].
    + split; [done|]. intros (k & Hk & Hj & Hn & _). destruct (decide (k = i)) as [->|]; [done|]. destruct (Hj i ltac:(lia)). done.
    + rewrite IH. split; intros (k & Hk & Hj & Hn & Hs).
      * exists k. split; [lia|]. split; [|done]. intros j Hji. destruct (decide (j = i)) as [->|]; [done | apply Hj; lia].
      * destruct (decide (k = i)) as [->|]; [done|]. exists k. split; [lia|]. split; [|done]. intros j Hji. apply Hj. lia.
  - rewrite Z.ltb_lt. split.
    + intros Hs. exists i. split; [lia|]. split; [lia | done].
    + intros (k & Hk & Hj & Hn & Hs). destruct (decide (k = i)) as [->|]; [done|]. destruct (Hj i ltac:(lia)). done.
Qed.

Lemma prima_precede a b : prima a b = true <-> precede a b.
Proof.
  unfold prima. rewrite prima_loop_precede. split; intros (k & Hk & Hj & H); exists k; (split; [lia|]); (split; [|done]); intros j Hjk; apply Hj; lia.
Qed.

(** Today is not before the certificate is valid nor after; without a date of today
    nothing is asked. *)
Definition date_ok (adesso : option (list Z)) (c : Cert) : Prop :=
  match adesso with
  | None => True
  | Some t => nth 0 t 0 = 0 \/ ~ precede t (non_prima (c_cert c)) /\ ~ precede (non_dopo (c_cert c)) t
  end.

Lemma date_a_posto_ok adesso c : date_a_posto (c_cert c) adesso = EXCERT_OK <-> date_ok adesso c.
Proof.
  unfold date_a_posto, date_ok. destruct adesso as [t|]; [|done]. rewrite <- !prima_precede. destruct (Z.eqb_spec (nth 0 t 0) 0); [split; [by left | done]|].
  destruct (prima t _); [split; [discriminate | intros [?|[? _]]; done]|]. destruct (prima _ t); [split; [discriminate | intros [?|[_ ?]]; done]|].
  split; [by right | done].
Qed.

(** ** RSA signatures *)

Lemma confronta_loop_ok n a b : forall i d,
  confronta_loop n a b i d = 0 <-> d = 0 /\ (forall j, (i <= j < i + n)%nat -> nth j a 0 = nth j b 0).
Proof.
  induction n as [|n IH]; intros i d; cbn [confronta_loop].
  - split; [intros ->; split; [done|lia]|by intros [-> _]].
  - rewrite IH, Z.lor_eq_0_iff, Z.lxor_eq_0_iff. split.
    + intros [[-> H1] H2]. split; [done|]. intros j Hj. destruct (decide (j = i)) as [->|]; [done|]. apply H2. lia.
    + intros [-> H1]. split; [split; [done|apply H1; lia]|]. intros j Hj. apply H1. lia.
Qed.

Lemma confronta_ok a b k : length a = k -> length b = k -> confronta a b k = bool_decide (a = b).
Proof.
  intros Ha Hb. unfold confronta. apply eq_bool_prop_intro. rewrite Is_true_true, Z.eqb_eq, confronta_loop_ok, bool_decide_spec.
  split; [|by intros ->]. intros [_ H]. apply (nth_ext _ _ 0 0); [congruence|]. intros j Hj. apply H. lia.
Qed.

Lemma length_busta k di imp : (3 + length di + length imp <= k)%nat -> length (busta_attesa k di imp) = k.
Proof. intros H. unfold busta_attesa. rewrite !length_app, length_replicate. cbn [length]. lia. Qed.

Lemma bytes_busta k di imp : bytes di -> bytes imp -> bytes (busta_attesa k di imp).
Proof.
  intros H1 H2. unfold busta_attesa, bytes. repeat (apply Forall_app; split); try done.
  - repeat constructor; lia.
  - apply Forall_replicate. lia.
  - repeat constructor; lia.
Qed.

(** PKCS#1 v1.5 (RFC 8017, 9.2): [em] is 00 01 PS 00 T in [k] bytes, where PS is bytes FF,
    at least eight. *)
Definition emsa (k : nat) (t em : list Z) : Prop :=
  exists ps, em = 0 :: 1 :: ps ++ 0 :: t /\ Forall (fun x => x = 255) ps /\ (8 <= length ps)%nat /\ length em = k.

Lemma emsa_busta k di imp em : emsa k (di ++ imp) em <-> (11 + length di + length imp <= k)%nat /\ em = busta_attesa k di imp.
Proof.
  unfold emsa, busta_attesa. split.
  - intros (ps & -> & Hp & Hl & Hk). cbn [length] in Hk. rewrite length_app in Hk. cbn [length] in Hk. rewrite length_app in Hk. split; [lia|].
    cbn [app]. replace (k - 3 - length di - length imp)%nat with (length ps) by lia. do 3 f_equal. clear -Hp. induction Hp as [|x ps -> _ IH]; [done|]. cbn [length replicate app]. f_equal. exact IH.
  - intros [Hk ->]. exists (replicate (k - 3 - length di - length imp) 255). split; [done|]. split; [by apply Forall_replicate|].
    rewrite length_replicate. split; [lia|]. apply (length_busta k di imp). lia.
Qed.

(** The power of the signature is the number of the envelope. *)
Definition rsa_valida (s n e di imp : list Z) : Prop :=
  (64 <= length n <= 512)%nat /\ (length s <= length n)%nat /\ be e < 256 ^ 512 /\
  Z.odd (be n) = true /\ be s < be n /\
  exists em, emsa (length n) (di ++ imp) em /\ be s ^ be e mod be n = be em.

Lemma be_fits b k : bytes b -> (length b <= k)%nat -> be b < 256 ^ Z.of_nat k.
Proof.
  intros H Hk. pose proof (be_range b H).
  assert (256 ^ Z.of_nat (length b) <= 256 ^ Z.of_nat k) by (apply Z.pow_le_mono_r; lia). lia.
Qed.

(** The power, in [k] bytes. *)
Lemma rsa_potenza s n e :
  bytes s -> bytes n -> bytes e -> (length n <= 512)%nat -> (length s <= length n)%nat -> be e < 256 ^ 512 ->
  exists modulo esp fi, exbig_da_byte n = Some modulo /\ exbig_da_byte e = Some esp /\ exbig_da_byte s = Some fi /\
  (Z.odd (be n) = true /\ be s < be n ->
   exists r b, exbig_modexp fi esp modulo = Some r /\ exbig_a_byte r (length n) = Some b /\
   length b = length n /\ bytes b /\ be b = be s ^ be e mod be n) /\
  (~ (Z.odd (be n) = true /\ be s < be n) -> exbig_modexp fi esp modulo = None).
Proof.
  intros Hs Hn He Hk Hsk Hel. change 512 with (Z.of_nat (EXBIG_PAROLE * 4)) in Hel. change 512%nat with (EXBIG_PAROLE * 4)%nat in Hk.
  destruct (da_byte_ok n Hn) as (m & Em & Hm & Vm); [by apply be_fits|].
  destruct (da_byte_ok e He Hel) as (x & Ex & Hx & Vx).
  destruct (da_byte_ok s Hs) as (f & Ef & Hf & Vf); [apply be_fits; [done|lia]|].
  exists m, x, f. split; [done|]. split; [done|]. split; [done|]. rewrite <- Vm, <- Vf, <- Vx, <- modulo_ok_odd by done. split.
  - intros [Hmo Hlt]. destruct (modexp_ok f x m Hmo Hf Hx Hlt) as (r & Er & Hr & Vr).
    destruct (a_byte_ok r (length n) Hr) as (b & Eb & Hl & Hb & Vb).
    { rewrite Vr. pose proof (be_range n Hn). pose proof (Z.mod_pos_bound (big f ^ big x) (big m)). pose proof (big_range f Hf). lia. }
    exists r, b. rewrite Vb. done.
  - apply modexp_rejects; done.
Qed.

Lemma verifica_rsa_ok s n e di imp :
  bytes s -> bytes n -> bytes e -> bytes di -> bytes imp ->
  verifica_rsa s n e di imp = EXCERT_OK <-> rsa_valida s n e di imp.
Proof.
  intros Hs Hn He Hd Hi. unfold verifica_rsa, rsa_valida. change (EXBIG_PAROLE * 4)%nat with 512%nat.
  destruct (Nat.ltb_spec (length n) 64); [split; [discriminate|lia]|].
  destruct (Nat.ltb_spec 512 (length n)); [split; [discriminate|lia]|]. cbn [orb].
  destruct (Nat.ltb_spec (length n) (length s)); [split; [discriminate|lia]|].
  destruct (Z.lt_ge_cases (be e) (256 ^ 512)) as [Hel|Hge].
  - destruct (rsa_potenza s n e) as (m & x & f & -> & -> & -> & Hyes & Hno); try done.
    destruct (decide (Z.odd (be n) = true /\ be s < be n)) as [Hv|Hv]; [|rewrite (Hno Hv); split; [discriminate|tauto]].
    destruct (Hyes Hv) as (r & b & -> & -> & Hl & Hb & Vb).
    assert (Hk : (length n < 11 + length di + length imp)%nat -> ~ (exists em, emsa (length n) (di ++ imp) em /\ be s ^ be e mod be n = be em)).
    { intros Hk (em & Hem & _). apply emsa_busta in Hem as [? _]. lia. }
    destruct (Nat.ltb_spec (length n) (3 + length di + length imp)); [split; [discriminate|intros (_ & _ & _ & _ & _ & He'); destruct Hk; [lia | done]]|].
    destruct (Nat.ltb_spec (length n - 3 - length di - length imp) 8); [split; [discriminate|intros (_ & _ & _ & _ & _ & He'); destruct Hk; [lia | done]]|].
    pose proof (length_busta (length n) di imp ltac:(lia)) as Hlb. rewrite Hlb, Nat.eqb_refl. cbn [negb].
    rewrite (confronta_ok b (busta_attesa (length n) di imp) (length n) Hl Hlb).
    destruct (bool_decide_reflect (b = busta_attesa (length n) di imp)) as [E|E]; cbn [negb].
    + split; [|done]. intros _. repeat (split; [lia || tauto|]). exists b. split; [apply emsa_busta; split; [lia | done] | done].
    + split; [discriminate|]. intros (_ & _ & _ & _ & _ & em & Hem & Hp). apply emsa_busta in Hem as [_ ->]. destruct E.
      apply be_inj; [done|by apply bytes_busta|lia|lia].
  - change (256 ^ 512) with (256 ^ Z.of_nat (EXBIG_PAROLE * 4)) in Hge |- *. rewrite (da_byte_no e He Hge).
    split; [|intros (_ & _ & Hlt & _); lia]. by destruct (exbig_da_byte n).
Qed.

(** ** Signatures of certificates *)

Section Signatures.

Context `{CryptoOk}.

(** The signature of [f] by the key of [p]: RSA with one of three digests, or ECDSA on one
    of two curves, where [r] and [s] are what the DER of the signature holds. *)
Definition firmato_rsa (f p : Cert) : Prop :=
  exists di imp, digest_di (alg_firma (c_cert f)) (slice (c_buf f) (tbs (c_cert f))) = Some (di, imp) /\
    tipo_chiave (c_cert p) = EXASN1_CHIAVE_RSA /\
    dp (tbs (c_cert f)) <> None /\ dp (firma (c_cert f)) <> None /\ dp (chiave_modulo (c_cert p)) <> None /\
    rsa_valida (slice (c_buf f) (firma (c_cert f))) (slice (c_buf p) (chiave_modulo (c_cert p)))
               (slice (c_buf p) (chiave_esponente (c_cert p))) di imp.

Definition firmato_ec (f p : Cert) : Prop :=
  exists curva imp r sg,
    (alg_firma (c_cert f) = EXASN1_ALG_ECDSA_SHA256 /\ imp = sha256 (slice (c_buf f) (tbs (c_cert f))) \/
     alg_firma (c_cert f) = EXASN1_ALG_ECDSA_SHA384 /\ imp = sha384 (slice (c_buf f) (tbs (c_cert f)))) /\
    (tipo_chiave (c_cert p) = EXASN1_CHIAVE_EC_P256 /\ curva = EXCURVA_P256 \/
     tipo_chiave (c_cert p) = EXASN1_CHIAVE_EC_P384 /\ curva = EXCURVA_P384) /\
    dp (tbs (c_cert f)) <> None /\ dp (firma (c_cert f)) <> None /\ dp (chiave_punto (c_cert p)) <> None /\
    ecdsa_r_s (c_buf f) (firma (c_cert f)) = Val (r, sg) /\
    excurva_verifica curva (slice (c_buf p) (chiave_punto (c_cert p))) imp (slice (c_buf f) r) (slice (c_buf f) sg) = true.

Definition firmato (f p : Cert) : Prop := firmato_rsa f p \/ firmato_ec f p.

Lemma digest_di_ok alg t di imp : digest_di alg t = Some (di, imp) -> bytes di /\ bytes imp.
Proof.
  unfold digest_di. intros E.
  destruct (alg =? EXASN1_ALG_RSA_SHA256); [|destruct (alg =? EXASN1_ALG_RSA_SHA384); [|destruct (alg =? EXASN1_ALG_RSA_SHA512); [|done]]];
    injection E as <- <-; (split; [repeat constructor; lia|]); [apply sha256_ok|apply sha384_ok|apply sha512_ok].
Qed.

Lemma digest_di_none alg t t' : digest_di alg t = None -> digest_di alg t' = None.
Proof. unfold digest_di. by repeat bcase. Qed.

(** An algorithm with a DigestInfo is neither SHA-1 nor ECDSA. *)
Lemma digest_di_rsa alg t x : digest_di alg t = Some x ->
  (alg =? EXASN1_ALG_RSA_SHA1) = false /\ (alg =? EXASN1_ALG_ECDSA_SHA256) || (alg =? EXASN1_ALG_ECDSA_SHA384) = false.
Proof.
  unfold digest_di. intros E.
  destruct (Z.eqb_spec alg EXASN1_ALG_RSA_SHA256) as [->|_]; [done|].
  destruct (Z.eqb_spec alg EXASN1_ALG_RSA_SHA384) as [->|_]; [done|].
  destruct (Z.eqb_spec alg EXASN1_ALG_RSA_SHA512) as [->|_]; done.
Qed.

(** The result of the RSA path, on the bytes of the slices. *)
Lemma firma_rsa_esito f p di imp :
  cert_wf f -> cert_wf p -> digest_di (alg_firma (c_cert f)) (slice (c_buf f) (tbs (c_cert f))) = Some (di, imp) ->
  tipo_chiave (c_cert p) = EXASN1_CHIAVE_RSA -> dp (tbs (c_cert f)) <> None -> dp (firma (c_cert f)) <> None ->
  dp (chiave_modulo (c_cert p)) <> None ->
  firma_rsa f p = Val (verifica_rsa (slice (c_buf f) (firma (c_cert f))) (slice (c_buf p) (chiave_modulo (c_cert p)))
                                    (slice (c_buf p) (chiave_esponente (c_cert p))) di imp).
Proof.
  intros Hf Hp Hd Ht H1 H2 H3. pose proof (wf_slices f Hf) as Sf. pose proof (wf_slices p Hp) as Sp. rewrite !Forall_cons in Sf, Sp.
  unfold firma_rsa, nulla. rewrite bool_decide_eq_false_2; [|intros E; apply (digest_di_none _ _ (slice (c_buf f) (tbs (c_cert f)))) in E; congruence].
  rewrite (byte_di_ok f Hf (tbs _)) by tauto. cbn [mbind esito_bind]. rewrite Hd, Ht. cbn [Z.eqb negb EXASN1_CHIAVE_RSA Pos.eqb].
  rewrite !bool_decide_eq_false_2 by done. cbn [orb]. rewrite !(byte_di_ok p Hp) by tauto. cbn [mbind esito_bind].
  rewrite (byte_di_ok f Hf) by tauto. reflexivity.
Qed.

Lemma firma_rsa_total f p : cert_wf f -> cert_wf p -> exists v, firma_rsa f p = Val v.
Proof.
  intros Hf Hp. pose proof (wf_slices f Hf) as Sf. pose proof (wf_slices p Hp) as Sp. rewrite !Forall_cons in Sf, Sp.
  unfold firma_rsa. case_bool_decide as Hn; [by eexists|]. clear Hn. rewrite (byte_di_ok f Hf (tbs _)) by tauto. cbn [mbind esito_bind].
  destruct (digest_di _ _) as [[di imp]|]; [|by eexists]. destruct (tipo_chiave (c_cert p) =? EXASN1_CHIAVE_RSA); cbn [negb]; [|by eexists].
  destruct (nulla (tbs _) || nulla (firma _)); [by eexists|]. destruct (nulla (chiave_modulo _)); [by eexists|]. rewrite !(byte_di_ok p Hp) by tauto. cbn [mbind esito_bind].
  rewrite (byte_di_ok f Hf) by tauto. cbn. by eexists.
Qed.

Lemma firma_rsa_iff f p : cert_wf f -> cert_wf p -> firma_rsa f p = Val EXCERT_OK <-> firmato_rsa f p.
Proof.
  intros Hf Hp. pose proof (wf_slices f Hf) as Sf. pose proof (wf_slices p Hp) as Sp. rewrite !Forall_cons in Sf, Sp. split.
  - unfold firma_rsa, nulla. case_bool_decide as Hn; [discriminate|]. clear Hn. rewrite (byte_di_ok f Hf (tbs _)) by tauto. cbn [mbind esito_bind].
    destruct (digest_di _ _) as [[di imp]|] eqn:Ed; [|discriminate]. destruct (Z.eqb_spec (tipo_chiave (c_cert p)) EXASN1_CHIAVE_RSA) as [Et|]; cbn [negb]; [|discriminate].
    case_bool_decide as H1; cbn [orb]; [discriminate|]. case_bool_decide as H2; [discriminate|]. case_bool_decide as H3; [discriminate|].
    rewrite !(byte_di_ok p Hp) by tauto. cbn [mbind esito_bind]. rewrite (byte_di_ok f Hf) by tauto. cbn [mbind esito_bind]. intros [= E].
    destruct (digest_di_ok _ _ _ _ Ed) as [Hdi Him]. exists di, imp. do 5 (split; [done|]). apply verifica_rsa_ok; (done || by apply slice_bytes).
  - intros (di & imp & Ed & Et & H1 & H2 & H3 & Hv). rewrite (firma_rsa_esito f p di imp) by done. f_equal.
    destruct (digest_di_ok _ _ _ _ Ed) as [Hdi Him]. apply verifica_rsa_ok; (done || by apply slice_bytes).
Qed.

(** What the DER of a signature holds lies in the certificate. *)
Lemma ecdsa_r_s_ok f : cert_wf f ->
  salvo (ecdsa_r_s (c_buf f) (firma (c_cert f))) (fun '(r, s) => parte_di r (tutto (c_buf f)) /\ parte_di s (tutto (c_buf f))).
Proof.
  intros [Hb Hl Hce]. destruct Hce as (_ & Hfi & _). unfold ecdsa_r_s.
  chiama exder_dentro_ok as d (_ & Hd & _); [(done || lia)..|].
  chiama leggi_tag_ok as a Ha; [(done || lia)..|]. pose proof (le_intera _ _ _ _ Ha).
  chiama leggi_tag_ok as b Hbb; [(done || lia)..|]. split; [apply (le_fetta _ _ _ _ Ha)|apply (le_fetta _ _ _ _ Hbb)].
Qed.

Lemma firma_ecdsa_ok f p : cert_wf f -> cert_wf p ->
  alg_firma (c_cert f) = EXASN1_ALG_ECDSA_SHA256 \/ alg_firma (c_cert f) = EXASN1_ALG_ECDSA_SHA384 ->
  exists v, firma_ecdsa f p = Val v /\ (v = EXCERT_OK <-> firmato_ec f p).
Proof.
  intros Hf Hp Ha. pose proof (wf_slices f Hf) as Sf. pose proof (wf_slices p Hp) as Sp. rewrite !Forall_cons in Sf, Sp.
  pose proof (ecdsa_r_s_ok f Hf) as Hrs. unfold firma_ecdsa, nulla.
  assert (K : forall c, c <> EXCERT_OK -> ~ firmato_ec f p -> exists v, Val c = Val v /\ (v = EXCERT_OK <-> firmato_ec f p)).
  { intros c Hc Hn. exists c. split; [done|]. split; [done | by intros ?]. }
  assert (Hk : (tipo_chiave (c_cert p) =? EXASN1_CHIAVE_EC_P256) || (tipo_chiave (c_cert p) =? EXASN1_CHIAVE_EC_P384) = true \/ ~ firmato_ec f p).
  { destruct (Z.eqb_spec (tipo_chiave (c_cert p)) EXASN1_CHIAVE_EC_P256); [by left|]. destruct (Z.eqb_spec (tipo_chiave (c_cert p)) EXASN1_CHIAVE_EC_P384); [by left|].
    right. intros (? & ? & ? & ? & _ & [[? _]|[? _]] & _); done. }
  destruct (_ || (tipo_chiave _ =? EXASN1_CHIAVE_EC_P384)) eqn:Ek; [clear Hk|destruct Hk as [Hk|Hk]; [done | by apply K]].
  case_bool_decide as H1; cbn [orb]; [apply K; [done|]; by intros (? & ? & ? & ? & _ & _ & ? & _)|].
  case_bool_decide as H2; [apply K; [done|]; by intros (? & ? & ? & ? & _ & _ & _ & ? & _)|].
  case_bool_decide as H3; [apply K; [done|]; by intros (? & ? & ? & ? & _ & _ & _ & _ & ? & _)|].
  destruct (ecdsa_r_s _ _) as [[r sg]| | |] eqn:Er; cbn [prova mbind esito_bind]; [|apply K; [done|]; intros (? & ? & ? & ? & _ & _ & _ & _ & _ & E & _); congruence|done|done].
  destruct Hrs as [Hr Hs]. rewrite (byte_di_ok f Hf (tbs _)) by tauto. cbn [mbind esito_bind]. rewrite (byte_di_ok p Hp) by tauto.
  cbn [mbind esito_bind]. rewrite (byte_di_ok f Hf r Hr). cbn [mbind esito_bind]. rewrite (byte_di_ok f Hf sg Hs). cbn [mbind esito_bind]. eexists. split; [reflexivity|].
  set (curva := if tipo_chiave _ =? _ then _ else _). set (imp := if alg_firma _ =? _ then _ else _).
  assert (Hcu : tipo_chiave (c_cert p) = EXASN1_CHIAVE_EC_P256 /\ curva = EXCURVA_P256 \/ tipo_chiave (c_cert p) = EXASN1_CHIAVE_EC_P384 /\ curva = EXCURVA_P384).
  { unfold curva. destruct (Z.eqb_spec (tipo_chiave (c_cert p)) EXASN1_CHIAVE_EC_P256); [by left|]. right. split; [|done]. by apply Z.eqb_eq. }
  assert (Him : alg_firma (c_cert f) = EXASN1_ALG_ECDSA_SHA256 /\ imp = sha256 (slice (c_buf f) (tbs (c_cert f))) \/
                alg_firma (c_cert f) = EXASN1_ALG_ECDSA_SHA384 /\ imp = sha384 (slice (c_buf f) (tbs (c_cert f)))).
  { unfold imp. destruct Ha as [-> | ->]; [by left | by right]. }
  destruct (excurva_verifica curva _ imp _ _) eqn:Ev.
  - split; [|done]. intros _. exists curva, imp, r, sg. done.
  - split; [discriminate|]. intros (c' & i' & r' & s' & Hi' & Hc' & _ & _ & _ & E' & V'). rewrite Er in E'. injection E' as <- <-.
    assert (c' = curva) as -> by (destruct Hcu as [[E1 ->]|[E1 ->]], Hc' as [[E2 ->]|[E2 ->]]; done || (rewrite E1 in E2; discriminate E2)).
    assert (i' = imp) as -> by (destruct Him as [[E1 ->]|[E1 ->]], Hi' as [[E2 ->]|[E2 ->]]; done || (rewrite E1 in E2; discriminate E2)). congruence.
Qed.

Lemma firma_ok f p : cert_wf f -> cert_wf p -> exists v, excert_firma_valida f p = Val v /\ (v = EXCERT_OK <-> firmato f p).
Proof.
  intros Hf Hp. unfold excert_firma_valida, firmato.
  assert (Ne : ~ (alg_firma (c_cert f) = EXASN1_ALG_ECDSA_SHA256 \/ alg_firma (c_cert f) = EXASN1_ALG_ECDSA_SHA384) -> ~ firmato_ec f p).
  { intros N (? & ? & ? & ? & [[? _]|[? _]] & _); apply N; tauto. }
  destruct (Z.eqb_spec (alg_firma (c_cert f)) EXASN1_ALG_RSA_SHA1) as [E1|N1].
  { eexists. split; [reflexivity|]. split; [discriminate|]. intros [(di & imp & Ed & _)|Hec]; [|by destruct Ne; [rewrite E1; intros [|]; discriminate|]].
    by rewrite E1 in Ed. }
  destruct (_ || (_ =? EXASN1_ALG_ECDSA_SHA384)) eqn:Ea.
  - assert (Ha : alg_firma (c_cert f) = EXASN1_ALG_ECDSA_SHA256 \/ alg_firma (c_cert f) = EXASN1_ALG_ECDSA_SHA384)
      by (apply orb_true_iff in Ea as [?%Z.eqb_eq|?%Z.eqb_eq]; tauto).
    destruct (firma_ecdsa_ok f p Hf Hp Ha) as (v & E & Hv). exists v. split; [done|]. rewrite Hv. split; [by right|].
    intros [(di & imp & Ed & _)|]; [|done]. destruct (digest_di_rsa _ _ _ Ed) as [_ Er]. congruence.
  - destruct (firma_rsa_total f p Hf Hp) as [v E]. exists v. split; [done|]. pose proof (firma_rsa_iff f p Hf Hp) as H1. rewrite E in H1.
    assert (Hv : v = EXCERT_OK <-> firmato_rsa f p) by (rewrite <- H1; split; [by intros -> | by intros [= ->]]). rewrite Hv. split; [by left|].
    intros [|Hec]; [done|]. exfalso. apply Ne in Hec; [done|]. intros Ha. apply orb_false_iff in Ea as [?%Z.eqb_neq ?%Z.eqb_neq]. tauto.
Qed.

(** ** The store and the chain *)

(** [p] is a CA that issued and signed [f]. *)
Definition emittente_di (f p : Cert) : Prop := stesso_nome f p /\ e_ca (c_cert p) <> 0 /\ firmato f p.

Lemma radice_di_ok c m :
  cert_wf c -> Forall cert_wf m ->
  exists o, radice_di c m = Val o /\
  match o with Some r => r ∈ m /\ emittente_di c r | None => forall r, r ∈ m -> ~ emittente_di c r end.
Proof.
  intros Hc. induction 1 as [|r m Hr Hm (o & Ho & IH)]; cbn [radice_di].
  - exists None. split; [done|]. intros r Hr. by apply not_elem_of_nil in Hr.
  - assert (Hskip : ~ emittente_di c r -> exists o, radice_di c m = Val o /\
      match o with Some x => x ∈ r :: m /\ emittente_di c x | None => forall x, x ∈ r :: m -> ~ emittente_di c x end).
    { intros Hno. exists o. split; [done|]. destruct o as [x|].
      - split; [right; apply IH|apply IH].
      - intros x [->|Hx]%elem_of_cons; [done|by apply IH]. }
    destruct (emesso_da_ok c r Hc Hr) as (b & Hb & Hbi). rewrite Hb. cbn [mbind esito_bind].
    destruct b; cbn [negb]; [|apply Hskip; intros (E & _); by apply Hbi in E].
    destruct (Z.eqb_spec (e_ca (c_cert r)) 0) as [E|E]; [apply Hskip; by intros (_ & E' & _)|].
    destruct (firma_ok c r Hc Hr) as (v & Hv & Hvi). rewrite Hv. cbn [mbind esito_bind].
    destruct (Z.eqb_spec v EXCERT_OK) as [E1|Ev].
    + exists (Some r). split; [done|]. split; [by left|]. split; [by apply Hbi|]. split; [done | by apply Hvi].
    + apply Hskip. intros (_ & _ & Hf). by apply Ev, Hvi.
Qed.

Section Chain.

Context (m : list Cert) (adesso : option (list Z)) (Hm : Forall cert_wf m).

Inductive catena_ok : list Cert -> Prop :=
| catena_radice f resto r : date_ok adesso f -> r ∈ m -> emittente_di f r -> catena_ok (f :: resto)
| catena_anello f p resto : date_ok adesso f -> emittente_di f p -> catena_ok (p :: resto) -> catena_ok (f :: p :: resto).

Lemma catena_loop_ok passo quanti catena : forall i,
  (forall i q, passo i q = true) -> Forall cert_wf catena ->
  exists v a, catena_loop catena i quanti m adesso passo = Val (v, a) /\ (v = EXCERT_OK <-> catena_ok catena).
Proof.
  induction catena as [|f resto IH]; intros i Hpa Hwf; cbn [catena_loop].
  - eexists _, _. split; [reflexivity|]. split; [discriminate|]. by inversion 1.
  - apply Forall_cons in Hwf as [Hf Hre]. destruct (Z.eqb_spec (date_a_posto (c_cert f) adesso) EXCERT_OK) as [Ed|Ed]; cbn [negb]; rewrite date_a_posto_ok in Ed.
    2:{ eexists _, _. split; [reflexivity|]. split; [by rewrite date_a_posto_ok|]. by inversion 1. }
    rewrite Hpa. cbn [negb]. destruct (radice_di_ok f m Hf Hm) as (o & -> & Ho). cbn [mbind esito_bind]. destruct o as [r|].
    { eexists _, _. split; [reflexivity|]. split; [|done]. intros _. destruct Ho. by apply (catena_radice f resto r). }
    destruct resto as [|p resto].
    { eexists _, _. split; [reflexivity|]. split; [discriminate|]. inversion 1; subst. exfalso. by eapply Ho. }
    apply Forall_cons in Hre as Hp. destruct Hp as [Hp _].
    assert (Hne : ~ emittente_di f p -> ~ catena_ok (f :: p :: resto)).
    { intros Hn. inversion 1; subst; [by eapply Ho|done]. }
    destruct (emesso_da_ok f p Hf Hp) as (b & Hb & Hbi). rewrite Hb. cbn [mbind esito_bind].
    destruct b; cbn [negb].
    2:{ eexists _, _. split; [reflexivity|]. split; [discriminate|]. intros Hk. destruct Hne; [|done]. intros (E & _). by apply Hbi in E. }
    destruct (Z.eqb_spec (e_ca (c_cert p)) 0) as [E|E].
    { eexists _, _. split; [reflexivity|]. split; [discriminate|]. intros Hk. destruct Hne; [|done]. by intros (_ & E' & _). }
    destruct (firma_ok f p Hf Hp) as (v & Hv & Hvi). rewrite Hv. cbn [mbind esito_bind].
    destruct (Z.eqb_spec v EXCERT_OK) as [E1|Ev]; cbn [negb].
    + destruct (IH (i + 1) Hpa Hre) as (w & a & Hc & Hi). exists w, a. split; [exact Hc|]. rewrite Hi. split.
      * intros Hk. apply catena_anello; [done | | done]. split; [by apply Hbi|]. split; [done | by apply Hvi].
      * inversion 1; subst; [exfalso; by eapply Ho|done].
    + eexists _, _. split; [reflexivity|]. split; [done|]. intros Hk. destruct Hne; [|done]. intros (_ & _ & Hs). by apply Ev, Hvi.
Qed.

End Chain.

End Signatures.

(** * Names of sites: what matches

    A name of the certificate matches a host when they are equal up to the case
    of ASCII letters ([stesso_host]), or when it is [*.domain], the domain has a
    dot, and the host is one label followed by that domain ([jolly]). *)


Definition stesso_host (n host : list Z) : Prop := map giu n = map giu host.

#[export] Instance stesso_host_dec n host : Decision (stesso_host n host) := decide (map giu n = map giu host).

Definition jolly (n host : list Z) : Prop :=
  exists dominio etichetta resto,
    n = 42 :: 46 :: dominio /\ 46 ∈ dominio /\ host = etichetta ++ (46 :: resto) /\ (46 ∉ etichetta) /\
    map giu dominio = map giu resto.

(** A host name is a C string: no zero byte inside. *)
Definition stringa (l : list Z) : Prop := 0 ∉ l.

Lemma giu_zero x : 0 <= x -> giu x = 0 <-> x = 0.
Proof. unfold giu. intros Hx. destruct (Z.leb_spec 65 x), (Z.leb_spec x 90); cbn [andb]; lia. Qed.

Lemma stringa_nth host i : stringa host -> nth i host 0 = 0 <-> (length host <= i)%nat.
Proof.
  intros H. rewrite nth_lookup. destruct (host !! i) as [x|] eqn:E; cbn.
  - split; [intros ->; destruct H; by eapply list_elem_of_lookup_2|]. intros Hl. apply lookup_ge_None_2 in Hl. congruence.
  - apply lookup_ge_None_1 in E. done.
Qed.

Section Names.

Context (der : list Z) (Hlen : Z.of_nat (length der) < W32).

Lemma nome_loop_ok d v host k : forall i,
  contenuto der d v -> stringa host -> (i + k = length v)%nat -> (i <= length host)%nat ->
  nome_loop k der (dp d) i host = Val (bool_decide (map giu (drop i v) = map giu (drop i host))).
Proof.
  induction k as [|k IH]; intros i Hd Hh Hk Hi; cbn [nome_loop].
  - rewrite (drop_ge v) by lia. f_equal. apply eq_bool_prop_intro. rewrite Is_true_true, Z.eqb_eq, bool_decide_spec, stringa_nth by done.
    cbn [map]. split.
    + intros Hl. by rewrite drop_ge.
    + intros E. apply (f_equal length) in E. rewrite length_map, length_drop in E. cbn in E. lia.
  - destruct (lookup_lt_is_Some_2 v i ltac:(lia)) as [x Hx]. destruct (Z.eqb_spec (nth i host 0) 0) as [E|E].
    + apply stringa_nth in E; [|done]. rewrite (drop_ge host), (drop_S v x i Hx) by lia. by rewrite bool_decide_eq_false_2.
    + rewrite (leggi_contenuto der d v) by (done || lia). cbn [mbind esito_bind]. rewrite Nat2Z.id, (nth_lookup v), Hx. cbn [default from_option id].
      destruct (host !! i) as [y|] eqn:Hy; [|rewrite nth_lookup, Hy in E; done].
      rewrite nth_lookup, Hy, (drop_S v x i Hx), (drop_S host y i Hy). cbn [default from_option id map].
      destruct (Z.eqb_spec (giu x) (giu y)) as [Eg|Eg]; cbn [negb].
      * rewrite IH by (done || lia || (apply lookup_lt_Some in Hy; lia)). f_equal. apply bool_decide_ext. rewrite Eg.
        split; [by intros ->|by intros [= ->]].
      * rewrite bool_decide_eq_false_2; [done|]. by intros [= Eq].
Qed.

Lemma nome_uguale_ok d v host :
  contenuto der d v -> stringa host -> nome_uguale der (dp d) (dn d) host = Val (bool_decide (stesso_host v host)).
Proof.
  intros Hd Hh. destruct (contenuto_bound der Hlen d v Hd) as [_ Hn]. unfold nome_uguale. rewrite Hn, Nat2Z.id.
  rewrite (nome_loop_ok d v host (length v) 0) by (done || lia). by rewrite !drop_0.
Qed.

Lemma cerca_punto_ok d v k : forall i,
  contenuto der d v -> (i + k = length v)%nat -> cerca_punto k der (dp d) (Z.of_nat i) = Val (bool_decide (46 ∈ drop i v)).
Proof.
  induction k as [|k IH]; intros i Hd Hk; cbn [cerca_punto].
  - rewrite drop_ge by lia. rewrite bool_decide_eq_false_2; [done|]. apply not_elem_of_nil.
  - destruct (lookup_lt_is_Some_2 v i ltac:(lia)) as [x Hx]. rewrite (leggi_contenuto der d v) by (done || lia).
    cbn [mbind esito_bind]. rewrite Nat2Z.id, nth_lookup, Hx, (drop_S v x i Hx). cbn [default from_option id].
    destruct (Z.eqb_spec x 46) as [->|Ex]; [by rewrite bool_decide_eq_true_2 by by left|].
    replace (Z.of_nat i + 1) with (Z.of_nat (S i)) by lia. rewrite IH by (done || lia). f_equal. apply bool_decide_ext.
    rewrite elem_of_cons. split; [by right|]. by intros [|].
Qed.

Lemma dal_punto_ok host :
  match dal_punto host with
  | None => 46 ∉ host
  | Some r => exists e d, host = e ++ (46 :: d) /\ (46 ∉ e) /\ r = 46 :: d
  end.
Proof.
  induction host as [|x host IH]; cbn [dal_punto]; [apply not_elem_of_nil|]. destruct (Z.eqb_spec x 46) as [->|Ex].
  - exists [], host. split; [done|]. split; [apply not_elem_of_nil|done].
  - destruct (dal_punto host) as [r|].
    + destruct IH as (e & d & -> & He & ->). exists (x :: e), d. split; [done|]. split; [|done]. apply not_elem_of_cons. done.
    + apply not_elem_of_cons. done.
Qed.

(** The label before the first dot is determined by the host. *)
Lemma etichetta_unica (e e' d d' : list Z) : 46 ∉ e -> 46 ∉ e' -> e ++ 46 :: d = e' ++ 46 :: d' -> d = d'.
Proof.
  revert e'. induction e as [|x e IH]; intros [|y e'] He He' E; cbn in E.
  - by injection E.
  - injection E as <- _. destruct He'. by left.
  - injection E as -> _. destruct He. by left.
  - injection E as -> E. apply not_elem_of_cons in He as [_ He], He' as [_ He']. by apply (IH e').
Qed.

Lemma jolly_uguale_ok d v host :
  contenuto der d v -> stringa host -> exists b : bool, jolly_uguale der (dp d) (dn d) host = Val b /\ (b = true <-> jolly v host).
Proof.
  intros Hd Hh. destruct (contenuto_bound der Hlen d v Hd) as [_ Hn]. unfold jolly_uguale. rewrite Hn.
  destruct (Z.ltb_spec (Z.of_nat (length v)) 2) as [Hs|Hs].
  { exists false. split; [done|]. split; [done|]. intros (dom & _ & _ & -> & _). cbn [length] in Hs. lia. }
  destruct v as [|a [|b dom]]; cbn [length] in Hs; [lia|lia|].
  rewrite !(leggi_contenuto der d _ _ Hd) by (cbn [length]; lia). cbn [mbind esito_bind].
  change (Z.to_nat 0) with 0%nat. change (Z.to_nat 1) with 1%nat. cbn [nth].
  destruct (Z.eqb_spec a 42) as [->|Ea]; cbn [negb].
  2:{ exists false. split; [done|]. split; [done|]. intros (? & _ & _ & [= E _ _] & _). congruence. }
  destruct (Z.eqb_spec b 46) as [->|Eb]; cbn [negb].
  2:{ exists false. split; [done|]. split; [done|]. intros (? & _ & _ & [= E _] & _). congruence. }
  replace (Z.to_nat (Z.of_nat (length (42 :: 46 :: dom)) - 2)) with (length dom) by (cbn [length]; lia).
  change 2 with (Z.of_nat 2). rewrite (cerca_punto_ok d _ (length dom) 2 Hd) by (cbn [length]; lia).
  change (drop 2 (42 :: 46 :: dom)) with dom. cbn [mbind esito_bind].
  destruct (bool_decide_reflect (46 ∈ dom)) as [Hp|Hp]; cbn [negb].
  2:{ exists false. split; [done|]. split; [done|]. intros (dom' & _ & _ & [= ->] & Hin & _). done. }
  pose proof (dal_punto_ok host) as Hdp. destruct (dal_punto host) as [r|].
  2:{ exists false. split; [done|]. split; [done|]. intros (_ & e & d' & _ & _ & -> & _). destruct Hdp. apply elem_of_app. right. by left. }
  destruct Hdp as (e & d' & -> & He & ->).
  pose proof (resto_parte der d 0 [42] (46 :: dom) []) as Hsub. rewrite app_nil_r in Hsub.
  specialize (Hsub (resto_0 der d _ Hd)). cbn [length] in Hsub.
  assert (Hst : stringa (46 :: d')) by (intros Hin; apply Hh, elem_of_app; by right).
  pose proof (nome_uguale_ok _ _ (46 :: d') Hsub Hst) as Hnu. cbn [dp dn] in Hnu. rewrite Z.add_0_l in Hnu.
  replace (Z.of_nat (length (42 :: 46 :: dom)) - 1) with (Z.of_nat (S (length dom))) by (cbn [length]; lia).
  change 1 with (Z.of_nat 1). rewrite Hnu. eexists. split; [reflexivity|]. rewrite bool_decide_eq_true. unfold stesso_host. cbn [map]. split.
  - intros [= E]. exists dom, e, d'. done.
  - intros (dom' & e' & d'' & [= <-] & _ & E & He' & Hg). apply etichetta_unica in E as ->; [by rewrite Hg|done|done].
Qed.

(** ** The names of the certificate *)

(** The content of a subjectAltName: elements with their tags. *)
Definition enc_nomi (l : list (Z * list Z)) : list Z := concat (map (fun '(t, v) => enc t v) l).

Definition combacia (l : list (Z * list Z)) (host : list Z) : Prop :=
  exists n, (0x82, n) ∈ l /\ n <> [] /\ (stesso_host n host \/ jolly n host).

Lemma combacia_cons t v l host :
  combacia ((t, v) :: l) host <-> (t = 0x82 /\ v <> [] /\ (stesso_host v host \/ jolly v host)) \/ combacia l host.
Proof.
  split.
  - intros (n & [[= <- <-]|Hin]%elem_of_cons & H1 & H2); [by left|right; by exists n].
  - intros [(-> & H1 & H2)|(n & Hin & H1 & H2)]; [exists v; split; [by left|done]|exists n; split; [by right|done]].
Qed.

Lemma nomi_loop_ok host l : forall fuel d off,
  stringa host -> Forall (fun p => tag_ok (fst p)) l -> resto der d off (enc_nomi l) -> dn d - off < Z.of_nat fuel ->
  exists v, nomi_loop fuel der d off host = Val v /\ (v = EXCERT_OK <-> combacia l host).
Proof.
  induction l as [|[t v] l IH]; intros fuel d off Hh Hl H Hf; (destruct fuel as [|fuel]; [|]);
    destruct (resto_bound der Hlen _ _ _ H) as (H0 & H1 & H2 & _); unfold enc_nomi in H1, H; cbn [map concat] in H1, H; try lia; cbn [nomi_loop].
  - cbn [length] in H1. rewrite (proj2 (Z.ltb_ge _ _)) by lia. eexists. split; [reflexivity|]. split; [discriminate|].
    intros (n & Hin & _). by apply not_elem_of_nil in Hin.
  - apply Forall_cons in Hl as [Ht Hl]. rewrite length_app in H1. pose proof (length_enc t v) as Hle.
    rewrite (proj2 (Z.ltb_lt _ _)) by lia. destruct (exder_leggi_resto der Hlen _ _ _ _ _ H Ht) as (g & -> & Hr). cbn [prova mbind esito_bind].
    pose proof (ri_intera _ _ _ _ _ _ _ Hr) as Hi. pose proof (ri_dopo _ _ _ _ _ _ _ Hr) as Hd.
    assert (Hu : u32 (off + intera g) = off + intera g) by (apply u32_small; lia). rewrite Hu in *.
    destruct (IH fuel d (off + intera g) Hh Hl Hd ltac:(lia)) as (w & Hw & Hiff). setoid_rewrite combacia_cons.
    rewrite (ri_tag _ _ _ _ _ _ _ Hr). pose proof (ri_valore _ _ _ _ _ _ _ Hr) as Hv.
    destruct (Z.eqb_spec t 130) as [->|Et]; cbn [negb]; [|exists w; split; [done|]; rewrite Hiff; tauto].
    destruct (contenuto_bound der Hlen _ _ Hv) as [_ Hn].
    destruct (Z.eqb_spec (dn (valore g)) 0) as [En|En].
    { exists w. split; [done|]. rewrite Hiff. assert (v = []) by (destruct v; [done|cbn [length] in Hn; lia]). naive_solver. }
    assert (Hne : v <> []) by (intros ->; cbn in Hn; lia).
    rewrite (nome_uguale_ok _ _ host Hv Hh). cbn [mbind esito_bind].
    destruct (bool_decide_reflect (stesso_host v host)) as [Hsame|Hno]; [exists EXCERT_OK; split; [done|]; naive_solver|].
    destruct (jolly_uguale_ok _ _ host Hv Hh) as (b & -> & Hb). cbn [mbind esito_bind].
    destruct b; [exists EXCERT_OK; split; [done|]; naive_solver|]. exists w. split; [done|]. rewrite Hiff.
    assert (~ jolly v host) by (intros Hj; apply Hb in Hj; done). tauto.
Qed.

End Names.
