(* ===== verification/ExcertThms.v ===== *)
(** * Chains of certificates and names of sites: theorems *)

From S2P Require Import Prelude Bytes Esito Exasn1 Exasn1Spec Exasn1Enc Exasn1Cert Exbig ExbigSpec ExbigByte Excert ExcertSpec.

(** ** A concrete chain *)

(** Digests that are all zeroes: an instance of the interface. *)
Definition crypto_zero : Crypto := {|
  sha256 := fun _ => replicate 32 0;
  sha384 := fun _ => replicate 48 0;
  sha512 := fun _ => replicate 64 0;
  excurva_verifica := fun _ _ _ _ _ => false
|}.

Lemma crypto_zero_ok : @CryptoOk crypto_zero.
Proof. split; intros l; (split; [done|apply Forall_replicate; lia]). Qed.

Definition oggi : Data := GEN [50;48;53;48;48;49;48;49;48;48;48;48;48;48;90].
Definition ieri : Data := UTC [50;52;48;49;48;49;48;48;48;48;48;48;90].

(** A CA with an RSA modulus of 512 bits, all ones, and exponent 1. *)
Definition x_radice : X509 :=
  mkX None [1] OID_RSA_SHA256 [] [7] ieri oggi [7] (RSA (replicate 64 255) [1]) (Some [Basic true true]) [9].

(** A site that it signed: with exponent 1 the signature is the envelope. *)
Definition x_sito : X509 :=
  mkX None [2] OID_RSA_SHA256 [] [7] ieri oggi [8] (RSA [5] [1]) (Some [San false (enc_nomi [(0x82, [42; 46; 97; 46; 98])])])
    (busta_attesa 64 DIGESTINFO_SHA256 (replicate 32 0)).

Definition letto_di (x : X509) : Cert :=
  mkC (enc_cert x) (match excert_analizza (enc_cert x) (Z.of_nat (length (enc_cert x))) with
                    | Val c => c | _ => mkCert nullo nullo nullo nullo 0 nullo nullo nullo 0 nullo [] [] 0 0 nullo end).

Lemma letto_di_wf x :
  forallb (fun b => (0 <=? b) && (b <? 256)) (enc_cert x) = true -> Z.of_nat (length (enc_cert x)) < W32 -> x509_ok x ->
  cert_wf (letto_di x).
Proof.
  intros Hb Hl Hx. destruct (excert_analizza_riletto (enc_cert x) Hl x Hx eq_refl) as (c & Hc & _).
  unfold letto_di. rewrite Hc. apply analizza_wf; [|done|done].
  rewrite forallb_forall in Hb. apply Forall_forall. intros b Hin. apply list_elem_of_In, Hb in Hin. lia.
Qed.

Lemma radice_wf : cert_wf (letto_di x_radice).
Proof.
  apply letto_di_wf; [vm_compute; reflexivity|vm_compute; reflexivity|].
  split; cbn; [lia|lia|done|by repeat constructor|discriminate].
Qed.

Lemma sito_wf : cert_wf (letto_di x_sito).
Proof.
  apply letto_di_wf; [vm_compute; reflexivity|vm_compute; reflexivity|].
  split; cbn; [lia|lia|done|by repeat constructor|discriminate].
Qed.

(** ** Signatures *)

(** C29: the check of an RSA signature is PKCS#1 v1.5: for certificates as
    [excert_analizza] leaves them, an RSA key and an RSA algorithm with digest
    [imp] and DigestInfo [di], the answer is OK exactly when the signature to
    the public exponent, modulo an odd modulus of 64 to 512 bytes, is the number
    of the envelope [00 01 FF .. FF 00 di imp] with at least 8 bytes FF. *)
Theorem excert_firma_rsa_correct `{CryptoOk} f p di imp :
  cert_wf f -> cert_wf p ->
  digest_di (alg_firma (c_cert f)) (slice (c_buf f) (tbs (c_cert f))) = Some (di, imp) ->
  tipo_chiave (c_cert p) = EXASN1_CHIAVE_RSA -> dp (tbs (c_cert f)) <> None -> dp (firma (c_cert f)) <> None ->
  dp (chiave_modulo (c_cert p)) <> None ->
  excert_firma_valida f p = Val EXCERT_OK <->
  rsa_valida (slice (c_buf f) (firma (c_cert f))) (slice (c_buf p) (chiave_modulo (c_cert p)))
             (slice (c_buf p) (chiave_esponente (c_cert p))) di imp.
Proof.
  intros Hf Hp Hd Ht H1 H2 H3. destruct (digest_di_ok _ _ _ _ Hd) as [Hdi Him].
  rewrite <- verifica_rsa_ok by (done || by apply slice_bytes). unfold excert_firma_valida.
  destruct (digest_di_rsa _ _ _ Hd) as [-> ->]. rewrite (firma_rsa_esito f p di imp) by done.
  split; [by intros [= E]|by intros ->].
Qed.

Lemma excert_firma_rsa_correct_witness :
  @excert_firma_valida crypto_zero (letto_di x_sito) (letto_di x_radice) = Val EXCERT_OK.
Proof.
  assert (Hn : forall o : option Z, bool_decide (o = None) = false -> o <> None) by (intros o Ho ->; discriminate Ho).
  refine (proj2 (@excert_firma_rsa_correct crypto_zero crypto_zero_ok (letto_di x_sito) (letto_di x_radice)
    DIGESTINFO_SHA256 (replicate 32 0) sito_wf radice_wf _ _ _ _ _) _).
  - vm_compute. reflexivity.
  - vm_compute. reflexivity.
  - apply Hn. vm_compute. reflexivity.
  - apply Hn. vm_compute. reflexivity.
  - apply Hn. vm_compute. reflexivity.
  - set (s := slice (c_buf (letto_di x_sito)) _). vm_compute in s. set (n := slice (c_buf (letto_di x_radice)) (chiave_modulo _)). vm_compute in n.
    set (e := slice (c_buf (letto_di x_radice)) (chiave_esponente _)). vm_compute in e.
    unfold rsa_valida. split; [cbn; lia|]. split; [cbn; lia|]. split; [vm_compute; reflexivity|]. split; [vm_compute; reflexivity|].
    split; [vm_compute; reflexivity|]. exists (busta_attesa 64 DIGESTINFO_SHA256 (replicate 32 0)). split; [apply (emsa_busta 64); split; [cbn; lia | reflexivity]|].
    vm_compute. reflexivity.
Defined.

(** ** Chains *)

(** C28: with a callback that never stops it, and certificates of chain and
    store as [excert_analizza] leaves them, [excert_catena_valida] always
    answers (it reads nothing outside the certificates), and it answers OK
    exactly for a chain of 1 to 10 certificates that is good up to some link:
    in each link up to that one today is not before the first date of the
    certificate nor after the last (14 characters compared one by one; nothing is
    asked without a date of today), every link but that one has for issuer, byte
    by byte, the subject of the next, which is a CA and whose key verifies its
    signature (RSA PKCS#1 v1.5 with SHA-256, 384 or 512, or ECDSA on P-256 or
    P-384), and the same holds between that link and a CA of the store.  What
    follows that link does not count, not even its dates, and no certificate of
    the chain need be in the store itself: excert.h (lines 34-36) asks for the
    dates of all the links and for the last one in the store with its bytes. *)
Theorem excert_catena_valida_correct `{CryptoOk} catena m adesso passo :
  (forall i q, passo i q = true) -> Forall cert_wf catena -> Forall cert_wf m ->
  exists v a, excert_catena_valida catena m adesso passo = Val (v, a) /\
  (v = EXCERT_OK <-> (1 <= length catena <= 10)%nat /\ catena_ok m adesso catena).
Proof.
  intros Hp Hc Hm. unfold excert_catena_valida. destruct (Nat.eqb_spec (length catena) 0) as [E|E].
  { eexists _, _. split; [reflexivity|]. split; [discriminate|lia]. }
  destruct (Nat.ltb_spec 10 (length catena)); [eexists _, _; split; [reflexivity|]; split; [discriminate|lia]|].
  destruct (catena_loop_ok m adesso Hm passo (Z.of_nat (length catena)) catena 0 Hp Hc) as (v & a & -> & Hv).
  exists v, a. split; [done|]. rewrite Hv. split; [intros Hk; split; [lia|done]|by intros [_ Hk]].
Qed.

Lemma excert_catena_valida_correct_witness :
  @catena_ok crypto_zero [letto_di x_radice] (Some [50;48;51;48;48;49;48;49;48;48;48;48;48;48;90]) [letto_di x_sito].
Proof.
  set (adesso := Some [50;48;51;48;48;49;48;49;48;48;48;48;48;48;90]).
  destruct (@excert_catena_valida_correct crypto_zero crypto_zero_ok [letto_di x_sito] [letto_di x_radice] adesso (fun _ _ => true)
    (fun _ _ => eq_refl) (proj2 (Forall_singleton cert_wf _) sito_wf) (proj2 (Forall_singleton cert_wf _) radice_wf)) as (v & a & Hv & Hiff).
  assert (E : @excert_catena_valida crypto_zero [letto_di x_sito] [letto_di x_radice] adesso (fun _ _ => true) = Val (EXCERT_OK, 0))
    by (vm_compute; reflexivity).
  rewrite E in Hv. injection Hv as <- _. exact (proj2 (proj1 Hiff eq_refl)).
Defined.

(** ** Names *)

(** C39: with a subjectAltName that holds the names [l], [excert_nome_combacia]
    says OK exactly when one of its non-empty dNSNames equals the host up to the
    case of ASCII letters, or is [*.domain] with a dot in the domain and the host
    is one label, possibly empty, and that domain; a certificate without the extension matches
    nothing. *)
Theorem excert_nome_combacia_correct c l host :
  cert_wf c -> host <> [] -> stringa host -> Forall (fun p => tag_ok (fst p)) l ->
  (dp (san (c_cert c)) <> None -> contenuto (c_buf c) (san (c_cert c)) (enc_nomi l)) ->
  exists v, excert_nome_combacia c host = Val v /\
  (v = EXCERT_OK <-> dp (san (c_cert c)) <> None /\ combacia l host).
Proof.
  intros Hc Hne Hh Hl Hs. unfold excert_nome_combacia, nulla. destruct (Z.eqb_spec (nth 0 host 0) 0) as [E|E].
  { apply stringa_nth in E; [|done]. destruct host; [done|cbn [length] in E; lia]. }
  case_bool_decide as Hn; cbn [orb]; [by eexists; split; [reflexivity|]; split; [discriminate|intros []]|].
  specialize (Hs Hn). destruct (contenuto_bound _ (wf_len _ Hc) _ _ Hs) as [_ Hlen]. destruct (Z.eqb_spec (dn (san (c_cert c))) 0) as [E0|E0].
  - eexists. split; [reflexivity|]. split; [discriminate|]. intros (_ & n & Hin & _). destruct l as [|[t v] l]; [by apply not_elem_of_nil in Hin|].
    unfold enc_nomi, enc in Hlen. cbn [map concat app length] in Hlen. lia.
  - destruct (nomi_loop_ok (c_buf c) (wf_len _ Hc) host l (S (Z.to_nat (dn (san (c_cert c))))) (san (c_cert c)) 0 Hh Hl) as (v & Hv & Hiff).
    + by apply resto_0.
    + lia.
    + exists v. split; [done|]. rewrite Hiff. tauto.
Qed.

Lemma excert_nome_combacia_correct_witness :
  combacia [(0x82, [42; 46; 97; 46; 98])] [119; 46; 65; 46; 98].
Proof.
  assert (Hs : contenuto (c_buf (letto_di x_sito)) (san (c_cert (letto_di x_sito))) (enc_nomi [(0x82, [42; 46; 97; 46; 98])])).
  { destruct (excert_analizza_riletto (enc_cert x_sito) ltac:(vm_compute; reflexivity) x_sito) as (c & Hc & Hr);
      [split; cbn; [lia|lia|done|by repeat constructor|discriminate]|reflexivity|].
    unfold letto_di. rewrite Hc. exact (rc_san _ _ _ Hr). }
  destruct (excert_nome_combacia_correct (letto_di x_sito) [(0x82, [42; 46; 97; 46; 98])] [119; 46; 65; 46; 98] sito_wf
    ltac:(discriminate) ltac:(unfold stringa; apply (bool_decide_unpack _); vm_compute; exact I)
    ltac:(repeat constructor; discriminate) ltac:(intros _; exact Hs)) as (v & Hv & Hiff).
  assert (E : excert_nome_combacia (letto_di x_sito) [119; 46; 65; 46; 98] = Val EXCERT_OK) by (vm_compute; reflexivity).
  rewrite E in Hv. injection Hv as <-. exact (proj2 (proj1 Hiff eq_refl)).
Defined.

(** The label that the wildcard stands for may be empty: the name [*.a.b] of
    the certificate matches the host [.a.b]. *)
Lemma excert_jolly_vuoto : excert_nome_combacia (letto_di x_sito) [46; 97; 46; 98] = Val EXCERT_OK.
Proof. vm_compute. reflexivity. Qed.
