(* ===== verification/ShaSpec.v ===== *)
(** * The digests of FIPS 180-4: SHA-256, SHA-384 and SHA-512

    The standard's functions on words of [w] bits, written with arithmetic where
    the code uses shifts and masks, and its constants computed from the roots of
    the first primes, which is how the standard defines them.  A variant of the
    family is a [Variante]; a digest is the padded message, cut in blocks and
    folded through the compression. *)

From S2P Require Import Prelude Bytes.

(** ** The constants *)

Definition primo (p : nat) : bool := forallb (fun d => negb (p mod d =? 0)%nat) (seq 2 (p - 2)).

(** The first 80 primes. *)
Definition primi : list Z := Z.of_nat <$> List.filter primo (seq 2 408).

(** The integer cube root, a binary digit at a time. *)
Fixpoint radice3 (k : nat) (n acc : Z) : Z :=
  match k with
  | O => acc
  | S k => let c := acc + 2 ^ Z.of_nat k in radice3 k n (if c ^ 3 <=? n then c else acc)
  end.

(** The first [w] bits of the fractional part of a square and of a cube root. *)
Definition frazione2 (w p : Z) : Z := Z.sqrt (p * 2 ^ (2 * w)) mod 2 ^ w.
Definition frazione3 (w p : Z) : Z := radice3 (Z.to_nat w + 3) (p * 2 ^ (3 * w)) 0 mod 2 ^ w.

Lemma radice3_spec n k : forall acc, 0 <= acc -> acc ^ 3 <= n < (acc + 2 ^ Z.of_nat k) ^ 3 ->
  let r := radice3 k n acc in 0 <= r /\ r ^ 3 <= n < (r + 1) ^ 3.
Proof.
  induction k as [|k IH]; intros acc Ha Hn; [done|].
  rewrite Nat2Z.inj_succ, Z.pow_succ_r in Hn by lia. cbn [radice3].
  pose proof (Z.pow_pos_nonneg 2 (Z.of_nat k) ltac:(lia) ltac:(lia)).
  destruct (Z.leb_spec ((acc + 2 ^ Z.of_nat k) ^ 3) n); apply IH; lia.
Qed.

Lemma frazione3_spec w p : 0 <= w -> 0 <= p < 512 ->
  exists r, frazione3 w p = r mod 2 ^ w /\ r ^ 3 <= p * 2 ^ (3 * w) < (r + 1) ^ 3.
Proof.
  intros Hw Hp. unfold frazione3. eexists; split; [reflexivity|]. apply radice3_spec; [lia|].
  rewrite Z.add_0_l, Nat2Z.inj_add, Z2Nat.id, <- Z.pow_mul_r by lia.
  replace ((w + Z.of_nat 3) * 3) with (9 + 3 * w) by lia. rewrite Z.pow_add_r by lia.
  pose proof (Z.pow_pos_nonneg 2 (3 * w)). change (0 ^ 3) with 0. nia.
Qed.

(** ** A variant of the family *)

Record Variante : Type := mkVar {
  v_byte : nat;                          (** bytes of a word *)
  v_K : list Z;                          (** the constants, one per round *)
  v_S0 : Z * Z * Z;                      (** rotations of the two big sigmas *)
  v_S1 : Z * Z * Z;
  v_s0 : Z * Z * Z;                      (** rotations and shift of the small ones *)
  v_s1 : Z * Z * Z
}.

Definition SHA2_32 : Variante :=
  mkVar 4 (frazione3 32 <$> take 64 primi) (2, 13, 22) (6, 11, 25) (7, 18, 3) (17, 19, 10).

Definition SHA2_64 : Variante :=
  mkVar 8 (frazione3 64 <$> primi) (28, 34, 39) (14, 18, 41) (1, 8, 7) (19, 61, 6).

(** ** Cutting a list in [n] pieces of [k] elements *)

Fixpoint pezzi (k n : nat) (l : list Z) : list (list Z) :=
  match n with
  | O => []
  | S n => take k l :: pezzi k n (drop k l)
  end.

(** Appending [n] elements, each one computed from the list so far. *)
Fixpoint accoda (g : list Z -> Z) (n : nat) (l : list Z) : list Z :=
  match n with
  | O => l
  | S n => accoda g n (l ++ [g l])
  end.

Section Digest.

Context (v : Variante).

Definition v_w : Z := 8 * Z.of_nat (v_byte v).

(** Rotation to the right: the [n] low bits go on top. *)
Definition ROTR (n x : Z) : Z := x / 2 ^ n + x mod 2 ^ n * 2 ^ (v_w - n).
Definition SHR (n x : Z) : Z := x / 2 ^ n.

Definition Sigma (r : Z * Z * Z) (x : Z) : Z :=
  let '(i, j, k) := r in Z.lxor (Z.lxor (ROTR i x) (ROTR j x)) (ROTR k x).
Definition sigma (r : Z * Z * Z) (x : Z) : Z :=
  let '(i, j, k) := r in Z.lxor (Z.lxor (ROTR i x) (ROTR j x)) (SHR k x).

(** Choice: [y] where [x] has a one, [z] where it has a zero. *)
Definition Ch (x y z : Z) : Z := Z.lxor (Z.land x y) (Z.ldiff z x).
(** Majority. *)
Definition Maj (x y z : Z) : Z := Z.lxor (Z.lxor (Z.land x y) (Z.land x z)) (Z.land y z).

Definition somma_w (l : list Z) : Z := foldr Z.add 0 l mod 2 ^ v_w.

(** The schedule: the sixteen words of the block, then the recurrence. *)
Definition prossima (W : list Z) : Z :=
  let t := length W in
  somma_w [nth (t - 16) W 0; sigma (v_s0 v) (nth (t - 15) W 0); nth (t - 7) W 0; sigma (v_s1 v) (nth (t - 2) W 0)].

Definition orario (k : nat) (W : list Z) : list Z := accoda prossima k W.

(** A round, on the working variables [a] ... [h]. *)
Definition giro (s : list Z) (kw : Z * Z) : list Z :=
  match s with
  | [a; b; c; d; e; f; g; h] =>
      let t1 := [h; Sigma (v_S1 v) e; Ch e f g; kw.1; kw.2] in
      let t2 := [Sigma (v_S0 v) a; Maj a b c] in
      [somma_w (t1 ++ t2); a; b; c; somma_w (d :: t1); e; f; g]
  | _ => s
  end.

Definition comprimi (h b : list Z) : list Z :=
  let W := orario (length (v_K v) - 16) (be <$> pezzi (v_byte v) 16 b) in
  zip_with (fun x y => somma_w [x; y]) h (foldl giro h (zip (v_K v) W)).

(** Bytes of a block, and of the length at the end of the message. *)
Definition v_B : nat := 16 * v_byte v.
Definition v_L : nat := 2 * v_byte v.

Definition assorbi (h m : list Z) : list Z := foldl comprimi h (pezzi v_B (length m / v_B) m).

(** The padding: a one bit, the least number of zeros, the length in bits. *)
Definition riempimento (n : Z) : list Z :=
  128 :: replicate (Z.to_nat ((- (1 + Z.of_nat v_L + n)) mod Z.of_nat v_B)) 0 ++ be_bytes v_L (8 * n).

Definition imbottito (m : list Z) : list Z := m ++ riempimento (Z.of_nat (length m)).

Definition digest (h0 : list Z) (quanti : nat) (m : list Z) : list Z :=
  take quanti (mjoin (be_bytes (v_byte v) <$> assorbi h0 (imbottito m))).

End Digest.

Definition H0_256 : list Z := frazione2 32 <$> take 8 primi.
Definition H0_512 : list Z := frazione2 64 <$> take 8 primi.
Definition H0_384 : list Z := frazione2 64 <$> take 8 (drop 8 primi).

(** The digests, whose length fields are those of the standard: eight bytes for
    SHA-256 and sixteen for the other two. *)
Definition SHA256 : list Z -> list Z := digest SHA2_32 H0_256 32.
Definition SHA384 : list Z -> list Z := digest SHA2_64 H0_384 48.
Definition SHA512 : list Z -> list Z := digest SHA2_64 H0_512 64.
