(* ===== verification/Sha256.v ===== *)
(** * SHA-256 of the C library, in one go and in pieces (lib/libc.c)

    Words are u32, the arrays [w], [h] and [resto] are lists written by index.
    [w] and the bytes of [resto] past [n_resto] are not initialised by the code:
    the theorems hold for any value of [resto], and [w] starts from zeros, each
    one overwritten before it is read.  A read past the data of the caller or a
    write past [resto] is [Fuori]. *)

From S2P Require Import Prelude Esito.

Definition parola (l : list Z) (i : nat) : Z := nth i l 0.

(** [( *p++ )] *)
Definition leggi (p : list Z) : esito (Z * list Z) :=
  match p with [] => Fuori | x :: p => Val (x, p) end.

(** [a[i] = x] *)
Definition scrivi (a : list Z) (i : nat) (x : Z) : esito (list Z) :=
  if (i <? length a)%nat then Val (<[i := x]> a) else Fuori.

Definition sha_ruotad (x n : Z) : Z := Z.lor (Z.shiftr x n) (u32 (Z.shiftl x (32 - n))).

Definition sha_K : list Z := Eval cbv in mjoin [
  [0x428a2f98;0x71374491;0xb5c0fbcf;0xe9b5dba5;0x3956c25b;0x59f111f1];
  [0x923f82a4;0xab1c5ed5;0xd807aa98;0x12835b01;0x243185be;0x550c7dc3];
  [0x72be5d74;0x80deb1fe;0x9bdc06a7;0xc19bf174;0xe49b69c1;0xefbe4786];
  [0x0fc19dc6;0x240ca1cc;0x2de92c6f;0x4a7484aa;0x5cb0a9dc;0x76f988da];
  [0x983e5152;0xa831c66d;0xb00327c8;0xbf597fc7;0xc6e00bf3;0xd5a79147];
  [0x06ca6351;0x14292967;0x27b70a85;0x2e1b2138;0x4d2c6dfc;0x53380d13];
  [0x650a7354;0x766a0abb;0x81c2c92e;0x92722c85;0xa2bfe8a1;0xa81a664b];
  [0xc24b8b70;0xc76c51a3;0xd192e819;0xd6990624;0xf40e3585;0x106aa070];
  [0x19a4c116;0x1e376c08;0x2748774c;0x34b0bcb5;0x391c0cb3;0x4ed8aa4a];
  [0x5b9cca4f;0x682e6ff3;0x748f82ee;0x78a5636f;0x84c87814;0x8cc70208];
  [0x90befffa;0xa4506ceb;0xbef9a3f7;0xc67178f2]
].

(** [for (t = 0; t < 16; t++) w[t] = ...]; [k] is the number of turns left. *)
Fixpoint carica_w (k t : nat) (b w : list Z) : list Z :=
  match k with
  | O => w
  | S k =>
      carica_w k (S t) b
        (<[t := Z.lor (Z.lor (Z.lor (u32 (Z.shiftl (parola b (t * 4)) 24)) (u32 (Z.shiftl (parola b (t * 4 + 1)) 16)))
                             (u32 (Z.shiftl (parola b (t * 4 + 2)) 8))) (parola b (t * 4 + 3))]> w)
  end.

(** [for (t = 16; t < 64; t++)] *)
Fixpoint espandi_w (k t : nat) (w : list Z) : list Z :=
  match k with
  | O => w
  | S k =>
      let s0 := Z.lxor (Z.lxor (sha_ruotad (parola w (t - 15)) 7) (sha_ruotad (parola w (t - 15)) 18))
                       (Z.shiftr (parola w (t - 15)) 3) in
      let s1 := Z.lxor (Z.lxor (sha_ruotad (parola w (t - 2)) 17) (sha_ruotad (parola w (t - 2)) 19))
                       (Z.shiftr (parola w (t - 2)) 10) in
      espandi_w k (S t) (<[t := u32 (parola w (t - 16) + s0 + parola w (t - 7) + s1)]> w)
  end.

(** The variables [a] ... [hh]. *)
Record Vars : Type := mkVars { va : Z; vb : Z; vc : Z; vd : Z; ve : Z; vf : Z; vg : Z; vh : Z }.

Fixpoint giri_loop (k t : nat) (w : list Z) (s : Vars) : Vars :=
  match k with
  | O => s
  | S k =>
      let '(mkVars a b c d e f g hh) := s in
      let S1 := Z.lxor (Z.lxor (sha_ruotad e 6) (sha_ruotad e 11)) (sha_ruotad e 25) in
      let ch := Z.lxor (Z.land e f) (Z.land (u32 (Z.lnot e)) g) in
      let S0 := Z.lxor (Z.lxor (sha_ruotad a 2) (sha_ruotad a 13)) (sha_ruotad a 22) in
      let mj := Z.lxor (Z.lxor (Z.land a b) (Z.land a c)) (Z.land b c) in
      let t1 := u32 (hh + S1 + ch + parola sha_K t + parola w t) in
      let t2 := u32 (S0 + mj) in
      giri_loop k (S t) w (mkVars (u32 (t1 + t2)) a b c (u32 (d + t1)) e f g)
  end.

Definition sha_blocco (h b : list Z) : list Z :=
  let w := espandi_w 48 16 (carica_w 16 0 b (replicate 64 0)) in
  let s := giri_loop 64 0 w (mkVars (parola h 0) (parola h 1) (parola h 2) (parola h 3)
                                    (parola h 4) (parola h 5) (parola h 6) (parola h 7)) in
  [u32 (parola h 0 + va s); u32 (parola h 1 + vb s); u32 (parola h 2 + vc s); u32 (parola h 3 + vd s);
   u32 (parola h 4 + ve s); u32 (parola h 5 + vf s); u32 (parola h 6 + vg s); u32 (parola h 7 + vh s)].

Record Sha256 : Type := mkSha { s_h : list Z; s_resto : list Z; s_n_resto : nat; s_bit : Z }.

(** The memory of [s] before the call. *)
Definition sha256_avvia (s : Sha256) : Sha256 :=
  mkSha [0x6a09e667; 0xbb67ae85; 0x3c6ef372; 0xa54ff53a; 0x510e527f; 0x9b05688c; 0x1f83d9ab; 0x5be0cd19]
        (s_resto s) 0 0.

(** [while (len > 0 && s->n_resto < 64) { s->resto[s->n_resto++] = *p++; len--; }]:
    one turn per byte of room, at most 64. *)
Fixpoint completa (k : nat) (r : list Z) (n : nat) (p : list Z) (len : nat) : esito (list Z * nat * list Z * nat) :=
  match k with
  | O => Stanco
  | S k =>
      if (0 <? len)%nat && (n <? 64)%nat
      then '(x, p) ← leggi p; r ← scrivi r n x; completa k r (S n) p (len - 1)
      else Val (r, n, p, len)
  end.

(** [for (i = 0; i < k; i++) s->resto[i] = p[i];] with [p] moved past what was read. *)
Fixpoint copia (k i : nat) (r p : list Z) : esito (list Z * list Z) :=
  match k with
  | O => Val (r, p)
  | S k => '(x, p) ← leggi p; r ← scrivi r i x; copia k (S i) r p
  end.

(** [while (len >= 64)]; a turn takes 64 bytes. *)
Fixpoint interi (k : nat) (h r p : list Z) (len : nat) : esito (list Z * list Z * list Z * nat) :=
  match k with
  | O => Stanco
  | S k =>
      if (64 <=? len)%nat
      then '(r, p) ← copia 64 0 r p; interi k (sha_blocco h r) r p (len - 64)
      else Val (h, r, p, len)
  end.

(** What is left of the data after the blocks: [p] has [len] bytes to read. *)
Definition dai_coda (s : Sha256) (p : list Z) (len : nat) : esito Sha256 :=
  '(h, r, p, len) ← interi (len / 64 + 1) (s_h s) (s_resto s) p len;
  '(r, _) ← copia len 0 r p;
  Val (mkSha h r len (s_bit s)).

Definition sha256_dai (s : Sha256) (dati : list Z) (len : nat) : esito Sha256 :=
  let s := mkSha (s_h s) (s_resto s) (s_n_resto s) (u64 (s_bit s + Z.of_nat len * 8)) in
  if (0 <? s_n_resto s)%nat
  then '(r, n, p, len) ← completa 65 (s_resto s) (s_n_resto s) dati len;
       if (n <? 64)%nat then Val (mkSha (s_h s) r n (s_bit s))
       else dai_coda (mkSha (sha_blocco (s_h s) r) r 0 (s_bit s)) p len
  else dai_coda s dati len.

(** [while (n < a) s->resto[n++] = 0;]: one turn per byte. *)
Fixpoint azzera (k : nat) (a : nat) (r : list Z) (n : nat) : esito (list Z * nat) :=
  match k with
  | O => Stanco
  | S k => if (n <? a)%nat then r ← scrivi r n 0; azzera k a r (S n) else Val (r, n)
  end.

(** [for (i = 0; i < 8; i++) s->resto[56 + i] = (uint8_t)(bit >> (56 - 8 * i));] *)
Fixpoint metti_bit (k i : nat) (bit : Z) (r : list Z) : esito (list Z) :=
  match k with
  | O => Val r
  | S k => r ← scrivi r (56 + i) (Z.shiftr bit (56 - 8 * Z.of_nat i) mod 256); metti_bit k (S i) bit r
  end.

(** [out[i*4] = ...] for [i] from 0 to 7. *)
Definition fuori_byte (h : list Z) : list Z :=
  mjoin ((fun x => [Z.shiftr x 24 mod 256; Z.shiftr x 16 mod 256; Z.shiftr x 8 mod 256; x mod 256]) <$> h).

Definition sha256_fine (s : Sha256) : esito (Sha256 * list Z) :=
  let bit0 := s_bit s in
  r ← scrivi (s_resto s) (s_n_resto s) 0x80;
  let n := S (s_n_resto s) in
  '(h1, r, n) ← (if (56 <? n)%nat
                then '(r, _) ← azzera 65 64 r n; Val (sha_blocco (s_h s) r, r, 0%nat)
                else Val (s_h s, r, n));
  '(r, _) ← azzera 65 56 r n;
  r ← metti_bit 8 0 bit0 r;
  let h2 := sha_blocco h1 r in
  Val (mkSha h2 r (s_n_resto s) (s_bit s), fuori_byte h2).

(** The characters of [sha_cifre]. *)
Definition sha_cifre : list Z := [48; 49; 50; 51; 52; 53; 54; 55; 56; 57; 97; 98; 99; 100; 101; 102].

(** The loop that writes two characters per byte, and the final zero. *)
Definition in_cifre (d : list Z) : list Z :=
  mjoin ((fun x => [parola sha_cifre (Z.to_nat (Z.shiftr x 4)); parola sha_cifre (Z.to_nat (Z.land x 15))]) <$> d) ++ [0].

Definition sha256_fine_esa (s : Sha256) : esito (Sha256 * list Z) :=
  '(s, d) ← sha256_fine s; Val (s, in_cifre d).

(** [s] is the uninitialised local variable. *)
Definition sha256 (s : Sha256) (dati : list Z) (len : nat) : esito (list Z) :=
  s ← sha256_dai (sha256_avvia s) dati len; '(_, out) ← sha256_fine s; Val out.

Definition sha256_esa (s : Sha256) (dati : list Z) (len : nat) : esito (list Z) :=
  s ← sha256_dai (sha256_avvia s) dati len; '(_, out) ← sha256_fine_esa s; Val out.
