(* ===== verification/ShaBlocco.v ===== *)
(** * The compression of a block: facts shared by the three implementations *)

From S2P Require Import Prelude Bytes ShaSpec.

(** ** Words of [w] bits *)

Definition parole_w (w : Z) (l : list Z) : Prop := Forall (fun x => 0 <= x < 2 ^ w) l.

Lemma ruota_eq w n x : 0 < n < w -> 0 <= x < 2 ^ w ->
  Z.lor (Z.shiftr x n) (Z.shiftl x (w - n) mod 2 ^ w) = x / 2 ^ n + x mod 2 ^ n * 2 ^ (w - n).
Proof.
  intros Hn Hx. assert (Hp : forall k, 0 <= k -> 0 < 2 ^ k) by (intros; apply Z.pow_pos_nonneg; lia).
  pose proof (Hp n ltac:(lia)). pose proof (Hp (w - n) ltac:(lia)).
  assert (E : 2 ^ w = 2 ^ n * 2 ^ (w - n)) by (rewrite <- Z.pow_add_r by lia; f_equal; lia).
  rewrite Z.shiftr_div_pow2, Z.shiftl_mul_pow2 by lia. rewrite E at 1.
  rewrite Z.mul_mod_distr_r by lia. rewrite Z.lor_comm, (lor_disjoint (w - n)); [lia|lia|by exists (x mod 2 ^ n)|].
  split; [apply Z.div_pos; lia|]. apply Z.div_lt_upper_bound; lia.
Qed.

Lemma nega_eq w e g : 0 <= g < 2 ^ w -> 0 <= w -> Z.land (Z.lnot e mod 2 ^ w) g = Z.ldiff g e.
Proof.
  intros Hg Hw. apply Z.bits_inj'. intros i Hi. rewrite Z.land_spec, Z.ldiff_spec.
  destruct (Z.lt_ge_cases i w).
  - rewrite Z.mod_pow2_bits_low, Z.lnot_spec by lia. apply andb_comm.
  - rewrite Z.mod_pow2_bits_high by lia. rewrite <- (Z.mod_small g (2 ^ w)), Z.mod_pow2_bits_high by lia. done.
Qed.

(** ** Arrays filled by index *)

Lemma take_scritto {A} (l : list A) t x : (t < length l)%nat -> take (S t) (<[t := x]> l) = take t l ++ [x].
Proof.
  intros Ht. rewrite (take_S_r _ _ x) by (by apply list_lookup_insert_eq). by rewrite take_insert_ge.
Qed.

Lemma nth_take {A} (l : list A) t i d : (i < t)%nat -> nth i (take t l) d = nth i l d.
Proof.
  intros Hi. revert l i Hi. induction t as [|t IH]; intros l i Hi; [lia|]. destruct l as [|x l], i as [|i]; try done.
  cbn. apply IH. lia.
Qed.

(** A loop that writes [f t w] at every index [t], when what it writes depends
    only on the elements written so far. *)
Section Riempi.

Context (ciclo : nat -> nat -> list Z -> list Z) (f : nat -> list Z -> Z) (g : list Z -> Z) (P : list Z -> Prop).
Context (ciclo_0 : forall t w, ciclo 0 t w = w).
Context (ciclo_S : forall k t w, ciclo (S k) t w = ciclo k (S t) (<[t := f t w]> w)).
Context (f_g : forall t w, P (take t w) -> (t < length w)%nat -> f t w = g (take t w)).
Context (g_P : forall l, P l -> P (l ++ [g l])).

Lemma ciclo_accoda k : forall t w, P (take t w) -> (t + k <= length w)%nat ->
  length (ciclo k t w) = length w /\ take (t + k) (ciclo k t w) = accoda g k (take t w).
Proof.
  induction k as [|k IH]; intros t w HP Ht; [rewrite ciclo_0, Nat.add_0_r; done|].
  rewrite ciclo_S. assert (E : take (S t) (<[t := f t w]> w) = take t w ++ [g (take t w)]).
  { rewrite take_scritto by lia. rewrite f_g by (done || lia). done. }
  destruct (IH (S t) (<[t := f t w]> w)) as [Hl Ht']; [rewrite E; by apply g_P|rewrite length_insert; lia|].
  rewrite length_insert in Hl. rewrite Nat.add_succ_comm in Ht'. split; [done|]. rewrite Ht', E. done.
Qed.

End Riempi.

Lemma length_accoda g n l : length (accoda g n l) = (length l + n)%nat.
Proof. revert l. induction n as [|n IH]; intros l; cbn; [lia|]. rewrite IH, length_app. cbn. lia. Qed.

(** ** Pieces *)

Lemma pezzi_snoc k n : forall l, pezzi k (S n) l = pezzi k n l ++ [take k (drop (n * k) l)].
Proof.
  induction n as [|n IH]; intros l; [done|]. change (pezzi k (S (S n)) l) with (take k l :: pezzi k (S n) (drop k l)).
  rewrite IH, drop_drop. cbn. done.
Qed.

Lemma length_pezzi k n l : length (pezzi k n l) = n.
Proof. revert l. induction n as [|n IH]; intros l; cbn; [done|]. by rewrite IH. Qed.

Lemma pezzi_app k n1 n2 : forall l1 l2, length l1 = (n1 * k)%nat ->
  pezzi k (n1 + n2) (l1 ++ l2) = pezzi k n1 l1 ++ pezzi k n2 l2.
Proof.
  induction n1 as [|n1 IH]; intros l1 l2 Hl; [by destruct l1|]. cbn [Nat.add pezzi app].
  rewrite take_app_le, drop_app_le by lia. f_equal. rewrite IH by (rewrite length_drop; lia). done.
Qed.

Lemma accoda_pezzi (h : list Z -> Z) k b n m :
  accoda (fun W => h (take k (drop (length W * k) b))) m (h <$> pezzi k n b) = h <$> pezzi k (n + m) b.
Proof.
  revert n. induction m as [|m IH]; intros n; cbn [accoda]; [by rewrite Nat.add_0_r|].
  rewrite length_fmap, length_pezzi, <- Nat.add_succ_comm, <- IH, pezzi_snoc, fmap_app. done.
Qed.

Lemma pezzi_accoda (h : list Z -> Z) k b m :
  h <$> pezzi k m b = accoda (fun W => h (take k (drop (length W * k) b))) m [].
Proof. symmetry. apply (accoda_pezzi h k b 0 m). Qed.

(** ** Loops over an index as folds *)

Lemma drop_nth (l : list Z) t : (t < length l)%nat -> drop t l = nth t l 0 :: drop (S t) l.
Proof.
  revert t. induction l as [|x l IH]; intros [|t] Ht; cbn in *; try lia; [done|]. apply IH. lia.
Qed.

Section Giri.

Context {St : Type} (ciclo : nat -> nat -> St -> St) (passo : St -> Z * Z -> St) (K w : list Z).
Context (ciclo_0 : forall t s, ciclo 0 t s = s).
Context (ciclo_S : forall k t s, ciclo (S k) t s = ciclo k (S t) (passo s (nth t K 0, nth t w 0))).

Lemma ciclo_foldl k : forall t s, (t + k = length K)%nat -> length w = length K ->
  ciclo k t s = foldl passo s (zip (drop t K) (drop t w)).
Proof.
  induction k as [|k IH]; intros t s Ht Hw.
  - rewrite ciclo_0, (drop_ge K t) by lia. done.
  - rewrite ciclo_S, (drop_nth K), (drop_nth w) by lia. apply IH; lia.
Qed.

End Giri.

(** ** The round of the specification *)

Section Variant.

Context (v : Variante).

Abbreviation w := (v_w v).

Lemma length_giro s kw : length (giro v s kw) = length s.
Proof. by destruct s as [|a [|b [|c [|d [|e [|f [|g [|hh [|? ?]]]]]]]]]. Qed.

Lemma length_foldl_giro l s : length (foldl (giro v) s l) = length s.
Proof. revert s. induction l as [|x l IH]; intros s; cbn; [done|]. by rewrite IH, length_giro. Qed.

Lemma length_comprimi h b : length (comprimi v h b) = length h.
Proof. unfold comprimi. rewrite length_zip_with, length_foldl_giro. lia. Qed.

Context (Hv : (0 < v_byte v)%nat).

Lemma somma_w_range l : 0 <= somma_w v l < 2 ^ w.
Proof. apply Z.mod_pos_bound. apply Z.pow_pos_nonneg; unfold v_w; lia. Qed.

Lemma giro_range s kw : parole_w w s -> parole_w w (giro v s kw).
Proof.
  intros Hs. destruct s as [|a [|b [|c [|d [|e [|f [|g [|hh [|? ?]]]]]]]]]; try exact Hs.
  unfold parole_w in *. rewrite ?Forall_cons in *. cbn [giro]. rewrite ?Forall_cons.
  repeat split; try apply somma_w_range; try (by destruct_and!; lia); constructor.
Qed.

Lemma comprimi_range h b : parole_w w (comprimi v h b).
Proof.
  unfold comprimi, parole_w. set (s := foldl _ _ _). clearbody s. revert s.
  induction h as [|x h IH]; intros [|y s]; cbn; constructor; [apply somma_w_range|apply IH].
Qed.

(** Absorbing whole blocks one after the other. *)
Lemma assorbi_app h m1 m2 : (length m1 mod v_B v)%nat = 0%nat ->
  assorbi v h (m1 ++ m2) = assorbi v (assorbi v h m1) m2.
Proof.
  intros Hm. assert (HB : (v_B v <> 0)%nat) by (unfold v_B; lia). unfold assorbi.
  pose proof (Nat.div_mod (length m1) (v_B v) HB) as E. rewrite Hm, Nat.add_0_r in E.
  set (q := (length m1 / v_B v)%nat) in *. clearbody q.
  replace (length (m1 ++ m2) / v_B v)%nat with (q + length m2 / v_B v)%nat
    by (rewrite length_app, E, (Nat.mul_comm (v_B v)), Nat.div_add_l by done; done).
  rewrite pezzi_app by lia. apply foldl_app.
Qed.

Lemma assorbi_blocco h b : length b = v_B v -> assorbi v h b = comprimi v h b.
Proof.
  intros Hb. unfold assorbi. assert (HB : (v_B v <> 0)%nat) by (unfold v_B; lia).
  rewrite Hb, Nat.div_same by done. cbn [pezzi foldl]. by rewrite take_ge by lia.
Qed.

Lemma assorbi_corto h b : (length b < v_B v)%nat -> assorbi v h b = h.
Proof. intros Hb. unfold assorbi. by rewrite Nat.div_small. Qed.

Lemma assorbi_ok h m : length h = 8%nat -> parole_w w h -> length (assorbi v h m) = 8%nat /\ parole_w w (assorbi v h m).
Proof.
  unfold assorbi. generalize (pezzi (v_B v) (length m / v_B v) m). intros l. revert h.
  induction l as [|b l IH]; intros h Hl Hh; cbn; [done|]. apply IH; [by rewrite length_comprimi|apply comprimi_range].
Qed.

(** ** The padding *)

Lemma imbottito_blocchi m : (length (imbottito v m) mod v_B v)%nat = 0%nat.
Proof.
  unfold imbottito, riempimento. rewrite length_app. cbn [length]. rewrite length_app, length_replicate, length_be_bytes.
  apply Nat2Z.inj. rewrite Nat2Z.inj_mod. set (B := Z.of_nat (v_B v)). set (n := Z.of_nat (length m)).
  assert (HB : 0 < B) by (unfold B, v_B; lia).
  pose proof (Z.mod_pos_bound (- (1 + Z.of_nat (v_L v) + n)) B HB).
  rewrite !Nat2Z.inj_add, !Nat2Z.inj_succ, !Nat2Z.inj_add, Z2Nat.id by lia. fold n.
  rewrite (Z.mod_eq (- (1 + Z.of_nat (v_L v) + n))) by lia. set (q := _ / B).
  replace (n + Z.succ (- (1 + Z.of_nat (v_L v) + n) - B * q + Z.of_nat (v_L v))) with ((- q) * B) by lia.
  by rewrite Z.mod_mul by lia.
Qed.

Lemma digest_length h0 q m : length h0 = 8%nat -> parole_w w h0 -> (q <= 8 * v_byte v)%nat ->
  length (digest v h0 q m) = q /\ bytes (digest v h0 q m).
Proof.
  intros Hl Hh Hq. unfold digest. destruct (assorbi_ok h0 (imbottito v m) Hl Hh) as [Ha _].
  set (l := assorbi v h0 (imbottito v m)) in *. clearbody l. split.
  - rewrite length_take. apply Nat.min_l.
    do 8 (destruct l as [|? l]; [done|]). destruct l; [|done]. cbn. rewrite !length_app, !length_be_bytes. cbn. lia.
  - apply Forall_take. clear Ha. induction l as [|x l IH]; cbn; [constructor|]. apply Forall_app. split; [apply be_bytes_range|done].
Qed.

End Variant.
