(* ===== verification/Sha256Blocco.v ===== *)
(** * The compression of SHA-256 in the C library is that of the standard *)

From S2P Require Import Prelude Bytes Esito ShaSpec ShaBlocco Sha256.

Lemma sha_K_eq : sha_K = v_K SHA2_32.
Proof. vm_compute. reflexivity. Qed.

Lemma sha_ruotad_eq x n : 0 < n < 32 -> 0 <= x < 2 ^ 32 -> sha_ruotad x n = ROTR SHA2_32 n x.
Proof. apply (ruota_eq 32). Qed.

(** ** The words of the block *)

Lemma parola_byte b i : bytes b -> 0 <= parola b i < 256.
Proof.
  intros Hb. unfold parola. destruct (Nat.lt_ge_cases i (length b)).
  - apply (proj1 (List.Forall_forall _ b) Hb). by apply nth_In.
  - rewrite nth_overflow by done. lia.
Qed.

Lemma be4 a b c d : 0 <= a < 256 -> 0 <= b < 256 -> 0 <= c < 256 -> 0 <= d < 256 ->
  Z.lor (Z.lor (Z.lor (u32 (Z.shiftl a 24)) (u32 (Z.shiftl b 16))) (u32 (Z.shiftl c 8))) d = be [a; b; c; d].
Proof.
  intros. rewrite !Z.shiftl_mul_pow2 by lia. rewrite !u32_small by (unfold W32; lia).
  rewrite (lor_disjoint 24 (a * 2 ^ 24) (b * 2 ^ 16)); [|lia|by exists a|lia]. rewrite (lor_disjoint 16 _ (c * 2 ^ 8)); [|lia|exists (a * 2 ^ 8 + b); lia|lia].
  rewrite (lor_disjoint 8); [|lia|exists (a * 2 ^ 16 + b * 2 ^ 8 + c); lia|lia]. cbn. lia.
Qed.

Lemma take_4 b n : (n + 4 <= length b)%nat ->
  take 4 (drop n b) = [parola b n; parola b (n + 1); parola b (n + 2); parola b (n + 3)].
Proof.
  intros Hn. rewrite (drop_nth b n), (drop_nth b (S n)), (drop_nth b (S (S n))), (drop_nth b (S (S (S n)))) by lia.
  unfold parola. rewrite !Nat.add_succ_r, Nat.add_0_r. done.
Qed.

Lemma carica_w_eq b w : bytes b -> length b = 64%nat -> length w = 64%nat ->
  length (carica_w 16 0 b w) = 64%nat /\ take 16 (carica_w 16 0 b w) = be <$> pezzi 4 16 b.
Proof.
  intros Hb Hl Hw. rewrite <- Hw, pezzi_accoda.
  apply (ciclo_accoda (fun k t w => carica_w k t b w)
    (fun t _ => Z.lor (Z.lor (Z.lor (u32 (Z.shiftl (parola b (t * 4)) 24)) (u32 (Z.shiftl (parola b (t * 4 + 1)) 16)))
                             (u32 (Z.shiftl (parola b (t * 4 + 2)) 8))) (parola b (t * 4 + 3)))
    (fun W => be (take 4 (drop (length W * 4) b))) (fun W => True)); try done; [|lia].
  intros t w' _ Ht. rewrite be4 by (by apply parola_byte). rewrite length_take, Nat.min_l by lia.
  destruct (Nat.lt_ge_cases t 16) as [Ht16|Ht16].
  - by rewrite take_4 by lia.
  - unfold parola. rewrite drop_ge, !nth_overflow by lia. done.
Qed.

(** ** The schedule *)

Lemma nth_parole_w w (l : list Z) i : 0 <= w -> parole_w w l -> 0 <= nth i l 0 < 2 ^ w.
Proof.
  intros Hw Hl. destruct (Nat.lt_ge_cases i (length l)).
  - apply (proj1 (List.Forall_forall _ l) Hl). by apply nth_In.
  - rewrite nth_overflow by done. pose proof (Z.pow_pos_nonneg 2 w). lia.
Qed.

Lemma prossima_eq t w : parole_w 32 (take t w) -> (16 <= t < length w)%nat ->
  u32 (parola w (t - 16)
       + Z.lxor (Z.lxor (sha_ruotad (parola w (t - 15)) 7) (sha_ruotad (parola w (t - 15)) 18)) (Z.shiftr (parola w (t - 15)) 3)
       + parola w (t - 7)
       + Z.lxor (Z.lxor (sha_ruotad (parola w (t - 2)) 17) (sha_ruotad (parola w (t - 2)) 19)) (Z.shiftr (parola w (t - 2)) 10))
  = prossima SHA2_32 (take t w).
Proof.
  intros HP Ht. unfold prossima. rewrite length_take, Nat.min_l by lia. unfold parola.
  rewrite <- (nth_take w t (t - 16)), <- (nth_take w t (t - 15)), <- (nth_take w t (t - 7)), <- (nth_take w t (t - 2)) by lia.
  set (W := take t w) in *. clearbody W.
  rewrite !sha_ruotad_eq by (lia || apply (nth_parole_w 32); (lia || done)).
  rewrite !Z.shiftr_div_pow2 by lia. unfold somma_w, sigma, SHR. cbn [foldr SHA2_32 v_s0 v_s1]. unfold u32.
  change (2 ^ v_w SHA2_32) with W32. f_equal. lia.
Qed.

Lemma espandi_w_eq w : parole_w 32 (take 16 w) -> length w = 64%nat ->
  espandi_w 48 16 w = orario SHA2_32 48 (take 16 w).
Proof.
  intros HP Hw.
  assert (H : length (espandi_w 48 16 w) = length w /\ take (16 + 48) (espandi_w 48 16 w) = orario SHA2_32 48 (take 16 w)).
  { apply (ciclo_accoda espandi_w
      (fun t w => u32 (parola w (t - 16)
         + Z.lxor (Z.lxor (sha_ruotad (parola w (t - 15)) 7) (sha_ruotad (parola w (t - 15)) 18)) (Z.shiftr (parola w (t - 15)) 3)
         + parola w (t - 7)
         + Z.lxor (Z.lxor (sha_ruotad (parola w (t - 2)) 17) (sha_ruotad (parola w (t - 2)) 19)) (Z.shiftr (parola w (t - 2)) 10)))
      (prossima SHA2_32) (fun W => parole_w 32 W /\ (16 <= length W)%nat)).
    - reflexivity.
    - reflexivity.
    - intros t w' [HP' H16] Ht. rewrite length_take, Nat.min_l in H16 by lia. by apply prossima_eq.
    - intros l [HP' H16]. split; [|rewrite length_app; lia]. apply Forall_app. split; [done|].
      apply Forall_singleton. apply (somma_w_range SHA2_32). cbn. lia.
    - split; [done|]. rewrite length_take. lia.
    - lia. }
  destruct H as [Hl Ht]. rewrite take_ge in Ht by lia. exact Ht.
Qed.

(** ** The rounds *)

Definition v_lista (s : Vars) : list Z := [va s; vb s; vc s; vd s; ve s; vf s; vg s; vh s].

(** One turn of the loop. *)
Definition un_giro (s : Vars) (kw : Z * Z) : Vars :=
  let '(mkVars a b c d e f g hh) := s in
  let S1 := Z.lxor (Z.lxor (sha_ruotad e 6) (sha_ruotad e 11)) (sha_ruotad e 25) in
  let ch := Z.lxor (Z.land e f) (Z.land (u32 (Z.lnot e)) g) in
  let S0 := Z.lxor (Z.lxor (sha_ruotad a 2) (sha_ruotad a 13)) (sha_ruotad a 22) in
  let mj := Z.lxor (Z.lxor (Z.land a b) (Z.land a c)) (Z.land b c) in
  let t1 := u32 (hh + S1 + ch + kw.1 + kw.2) in
  let t2 := u32 (S0 + mj) in
  mkVars (u32 (t1 + t2)) a b c (u32 (d + t1)) e f g.

Lemma giri_loop_fold w s : length w = 64%nat -> giri_loop 64 0 w s = foldl un_giro s (zip sha_K w).
Proof.
  intros Hw. apply (ciclo_foldl (fun k t s => giri_loop k t w s) un_giro sha_K w); try done.
  intros k t [a b c d e f g hh]. reflexivity.
Qed.

Lemma un_giro_eq s kw : parole_w 32 (v_lista s) -> v_lista (un_giro s kw) = giro SHA2_32 (v_lista s) kw.
Proof.
  intros Hs. destruct s as [a b c d e f g hh]. unfold v_lista, parole_w in *. cbn [va vb vc vd ve vf vg vh] in *.
  rewrite !Forall_cons in Hs. destruct Hs as (Ha & Hb & Hc & Hd & He & Hf & Hg & Hh & _).
  cbn [un_giro va vb vc vd ve vf vg vh giro]. rewrite !sha_ruotad_eq by (lia || done).
  replace (Z.land (u32 (Z.lnot e)) g) with (Z.ldiff g e) by (symmetry; apply (nega_eq 32); (done || lia)).
  unfold somma_w. cbn [foldr app SHA2_32 v_S0 v_S1 Sigma]. unfold u32, Ch, Maj. change (2 ^ v_w _) with W32.
  f_equal; [|do 4 f_equal]; rewrite ?Zplus_mod_idemp_l, ?Zplus_mod_idemp_r; f_equal; lia.
Qed.

Lemma foldl_un_giro l : forall s, parole_w 32 (v_lista s) ->
  v_lista (foldl un_giro s l) = foldl (giro SHA2_32) (v_lista s) l.
Proof.
  induction l as [|kw l IH]; intros s Hs; cbn [foldl]; [done|]. rewrite <- un_giro_eq by done. apply IH.
  rewrite un_giro_eq by done. apply (giro_range SHA2_32); [cbn; lia|done].
Qed.

(** ** The block *)

Lemma otto h : length h = 8%nat ->
  h = [parola h 0; parola h 1; parola h 2; parola h 3; parola h 4; parola h 5; parola h 6; parola h 7].
Proof. intros Hl. do 8 (destruct h as [|? h]; [done|]). by destruct h. Qed.

Lemma parole_be k n b : bytes b -> parole_w (8 * Z.of_nat k) (be <$> pezzi k n b).
Proof.
  intros Hb. revert b Hb. induction n as [|n IH]; intros b Hb; cbn [pezzi fmap list_fmap]; [constructor|].
  apply Forall_cons. split; [|apply IH; by apply Forall_drop].
  pose proof (be_range (take k b) (Forall_take _ k b Hb)) as Hr. rewrite <- B_2. rewrite length_take in Hr.
  pose proof (Z.pow_le_mono_r 256 (Z.of_nat (k `min` length b)) (Z.of_nat k)). lia.
Qed.

Lemma sha_blocco_eq h b : length h = 8%nat -> parole_w 32 h -> bytes b -> length b = 64%nat ->
  sha_blocco h b = comprimi SHA2_32 h b.
Proof.
  intros Hl Hh Hb Hlb. unfold sha_blocco.
  destruct (carica_w_eq b (replicate 64 0) Hb Hlb) as [Hcl Hct]; [done|].
  assert (HP : parole_w 32 (take 16 (carica_w 16 0 b (replicate 64 0)))) by (rewrite Hct; by apply (parole_be 4)).
  rewrite espandi_w_eq, Hct by done. set (W := orario SHA2_32 48 _).
  assert (HW : length W = 64%nat) by (unfold W, orario; rewrite length_accoda, length_fmap, length_pezzi; done).
  rewrite giri_loop_fold by done. set (s0 := mkVars _ _ _ _ _ _ _ _).
  assert (Es : v_lista s0 = h) by (symmetry; by apply otto).
  pose proof (foldl_un_giro (zip sha_K W) s0 ltac:(by rewrite Es)) as Ef. rewrite Es in Ef.
  unfold comprimi. rewrite <- sha_K_eq. change (length sha_K - 16)%nat with 48%nat. change (v_byte SHA2_32) with 4%nat.
  fold W. rewrite <- Ef. rewrite (otto h Hl) at 9. unfold v_lista. cbn [zip_with].
  unfold somma_w. cbn [foldr]. change (2 ^ v_w SHA2_32) with W32. rewrite !Z.add_0_r. reflexivity.
Qed.
