(* ===== verification/Sha256Flusso.v ===== *)
(** * SHA-256 in pieces: the state after some data, and its end *)

From S2P Require Import Prelude Bytes Esito ShaSpec ShaBlocco Sha256 Sha256Blocco.

(** ** The elementary loops: [d] is what they read, [c] what follows it *)

Lemma scrivi_val a i x : (i < length a)%nat -> scrivi a i x = Val (<[i := x]> a).
Proof. intros Hi. unfold scrivi. by rewrite (proj2 (Nat.ltb_lt _ _) Hi). Qed.

Lemma copia_val d c : forall i r, (i + length d <= length r)%nat ->
  exists r', copia (length d) i r (d ++ c) = Val (r', c) /\ length r' = length r /\
             take (i + length d) r' = take i r ++ d.
Proof.
  induction d as [|x d IH]; intros i r Hi; cbn [length app] in *.
  - exists r. rewrite Nat.add_0_r, app_nil_r. done.
  - cbn [copia leggi mbind esito_bind]. rewrite scrivi_val by lia. cbn [mbind esito_bind].
    destruct (IH (S i) (<[i := x]> r)) as (r' & E & Hl & Ht); [rewrite length_insert; lia|].
    exists r'. split; [done|]. rewrite length_insert in Hl. split; [done|].
    rewrite <- Nat.add_succ_comm, Ht, take_scritto, <- app_assoc by lia. done.
Qed.

(** All of [d] goes in, and there is room left: the data is over. *)
Lemma completa_corto d c : forall k r n, length r = 64%nat -> (n + length d < 64)%nat -> (length d < k)%nat ->
  exists r', completa k r n (d ++ c) (length d) = Val (r', (n + length d)%nat, c, 0%nat) /\ length r' = 64%nat /\
             take (n + length d) r' = take n r ++ d.
Proof.
  induction d as [|x d IH]; intros [|k] r n Hr Hn Hk; cbn [length app] in *; try lia; cbn [completa].
  - exists r. rewrite Nat.add_0_r, app_nil_r. done.
  - rewrite (proj2 (Nat.ltb_lt n 64)) by lia. cbn [Nat.ltb Nat.leb andb leggi mbind esito_bind].
    rewrite scrivi_val by lia. cbn [mbind esito_bind]. rewrite Nat.sub_succ, Nat.sub_0_r.
    destruct (IH k (<[n := x]> r) (S n)) as (r' & E & Hl & Ht); [rewrite length_insert; lia|lia|lia|].
    exists r'. rewrite <- Nat.add_succ_comm. split; [done|]. split; [done|]. rewrite Ht, take_scritto, <- app_assoc by lia. done.
Qed.

(** The block is filled by [d], and [extra] more bytes are there. *)
Lemma completa_pieno d c extra : forall k r n, length r = 64%nat -> (n + length d = 64)%nat -> (length d < k)%nat ->
  exists r', completa k r n (d ++ c) (length d + extra) = Val (r', 64%nat, c, extra) /\ r' = take n r ++ d.
Proof.
  induction d as [|x d IH]; intros [|k] r n Hr Hn Hk; cbn [length app] in *; try lia; cbn [completa].
  - assert (n = 64)%nat as -> by lia. rewrite Nat.ltb_irrefl, andb_false_r. exists r. split; [done|].
    by rewrite app_nil_r, take_ge by lia.
  - rewrite (proj2 (Nat.ltb_lt n 64)) by lia. cbn [Nat.ltb Nat.leb Nat.add andb leggi mbind esito_bind].
    rewrite scrivi_val by lia. cbn [mbind esito_bind]. rewrite Nat.sub_succ, Nat.sub_0_r.
    destruct (IH k (<[n := x]> r) (S n)) as (r' & E & Ht); [rewrite length_insert; lia|lia|lia|].
    exists r'. split; [done|]. rewrite Ht, take_scritto, <- app_assoc by lia. done.
Qed.

Abbreviation V := SHA2_32.
Abbreviation stato_ok h := (length h = 8%nat /\ parole_w 32 h).

Lemma V_byte : (0 < v_byte V)%nat.
Proof. cbn. lia. Qed.

Lemma comprimi_ok h b : stato_ok h -> stato_ok (comprimi V h b).
Proof. intros [Hl _]. split; [by rewrite length_comprimi|apply (comprimi_range V V_byte)]. Qed.

Lemma assorbi_cons h b m : length b = 64%nat -> assorbi V h (b ++ m) = assorbi V (comprimi V h b) m.
Proof.
  intros Hb. rewrite (assorbi_app V V_byte) by (by rewrite Hb). by rewrite (assorbi_blocco V V_byte h b).
Qed.

(** Data of 64 bytes or more, [q] blocks and a rest [e]. *)
Lemma interi_val q : forall d e c k h r, length d = (64 * q)%nat -> (length e < 64)%nat -> (q < k)%nat ->
  bytes d -> stato_ok h -> length r = 64%nat ->
  exists r', interi k h r (d ++ e ++ c) (length d + length e) = Val (assorbi V h d, r', e ++ c, length e) /\ length r' = 64%nat.
Proof.
  induction q as [|q IH]; intros d e c [|k] h r Hd He Hk Hb Hh Hr; try lia; cbn [interi].
  - destruct d; [|done]. cbn [length Nat.add app]. rewrite (proj2 (Nat.leb_gt _ _)) by lia. by exists r.
  - assert (exists b d', d = b ++ d' /\ length b = 64%nat) as (b & d' & -> & Hlb).
    { exists (take 64 d), (drop 64 d). rewrite take_drop, length_take. split; [done|lia]. }
    rewrite length_app in Hd |- *. rewrite Hlb in Hd |- *. rewrite <- app_assoc. rewrite (proj2 (Nat.leb_le 64 _)) by lia. apply Forall_app in Hb as [Hbb Hbd].
    destruct (copia_val b (d' ++ e ++ c) 0 r) as (r1 & E & Hl & Ht); [lia|].
    change (take 0 r) with (@nil Z) in Ht. rewrite Hlb in *. rewrite E. cbn [mbind esito_bind].
    rewrite take_ge in Ht by (cbn; lia). cbn [app] in Ht. subst r1.
    destruct (IH d' e c k (sha_blocco h b) b) as (r2 & E2 & Hl2); try lia; try done.
    { rewrite sha_blocco_eq by tauto. by apply comprimi_ok. }
    replace (64 + length d' + length e - 64)%nat with (length d' + length e)%nat by lia. exists r2. split; [|done].
    rewrite E2, sha_blocco_eq by tauto. rewrite (assorbi_cons h b d') by done. reflexivity.
Qed.

(** ** The state that has received the message [m] *)

Definition segue (s : Sha256) (m : list Z) : Prop :=
  exists m1 m2, m = m1 ++ m2 /\ (length m1 mod 64 = 0)%nat /\ (length m2 < 64)%nat /\ bytes m /\
    s_h s = assorbi V H0_256 m1 /\ s_n_resto s = length m2 /\
    length (s_resto s) = 64%nat /\ take (length m2) (s_resto s) = m2 /\
    s_bit s = u64 (8 * Z.of_nat (length m)).

Lemma H0_eq s : s_h (sha256_avvia s) = H0_256.
Proof. vm_compute. reflexivity. Qed.

Lemma H0_ok : stato_ok H0_256.
Proof. split; [vm_compute; reflexivity|]. unfold parole_w. apply Forall_forall. intros x Hx.
  assert (E : forallb (fun x => (0 <=? x) && (x <? 2 ^ 32)) H0_256 = true) by (vm_compute; reflexivity).
  rewrite forallb_forall in E. specialize (E x (proj1 (list_elem_of_In _ _) Hx)). lia.
Qed.

Lemma segue_h s m : segue s m -> stato_ok (s_h s).
Proof. intros (m1 & m2 & _ & _ & _ & _ & -> & _). apply (assorbi_ok V V_byte); apply H0_ok. Qed.

Lemma segue_avvia s : length (s_resto s) = 64%nat -> segue (sha256_avvia s) [].
Proof.
  intros Hr. exists [], []. repeat split; try done; [cbn; lia|constructor].
Qed.

Lemma u64_add a b : u64 (u64 a + b) = u64 (a + b).
Proof. apply Zplus_mod_idemp_l. Qed.

(** Data is blocks and a rest. *)
Lemma a_blocchi (d : list Z) : exists d1 e, d = d1 ++ e /\ length d1 = (64 * (length d / 64))%nat /\ (length e < 64)%nat.
Proof.
  exists (take (64 * (length d / 64)) d), (drop (64 * (length d / 64)) d). rewrite take_drop, length_take, length_drop.
  pose proof (Nat.div_mod (length d) 64). pose proof (Nat.mod_upper_bound (length d) 64). split; [done|]. lia.
Qed.

Lemma dai_coda_segue s m d c : bytes d -> (length m mod 64 = 0)%nat -> bytes m -> s_h s = assorbi V H0_256 m ->
  length (s_resto s) = 64%nat -> s_bit s = u64 (8 * Z.of_nat (length (m ++ d))) ->
  exists s', dai_coda s (d ++ c) (length d) = Val s' /\ segue s' (m ++ d).
Proof.
  intros Hd Hm Hbm Hh Hr Hbit. destruct (a_blocchi d) as (d1 & e & -> & Hd1 & He).
  pose proof Hd as Hb. apply Forall_app in Hd as [Hbd He'].
  unfold dai_coda. rewrite <- app_assoc.
  destruct (interi_val (length (d1 ++ e) / 64) d1 e c (length (d1 ++ e) / 64 + 1) (s_h s) (s_resto s))
    as (r1 & E & Hr1); try done; [lia|rewrite Hh; apply (assorbi_ok V V_byte); apply H0_ok|].
  rewrite length_app in E |- *. rewrite E. cbn [mbind esito_bind].
  destruct (copia_val e c 0 r1) as (r2 & E2 & Hr2 & Ht); [lia|]. rewrite E2. cbn [mbind esito_bind].
  eexists. split; [reflexivity|]. exists (m ++ d1), e. cbn [s_h s_resto s_n_resto s_bit]. change (take 0 r1) with (@nil Z) in Ht.
  assert (Hmd : (length (m ++ d1) mod 64 = 0)%nat).
  { rewrite length_app, Hd1, (Nat.mul_comm 64), Nat.Div0.mod_add. done. }
  repeat split; try done; [by rewrite app_assoc|by apply Forall_app|rewrite Hh; by rewrite (assorbi_app V V_byte)|lia].
Qed.

Lemma mod64_app (a b : list Z) : (length a mod 64 = 0)%nat -> length b = 64%nat -> (length (a ++ b) mod 64 = 0)%nat.
Proof. intros Ha Hb. rewrite length_app, Hb. rewrite Nat.Div0.add_mod, Ha. done. Qed.

Lemma segue_dai s m d c : segue s m -> bytes d ->
  exists s', sha256_dai s (d ++ c) (length d) = Val s' /\ segue s' (m ++ d).
Proof.
  intros Hs Hd. pose proof (segue_h _ _ Hs) as Hok. destruct Hs as (m1 & m2 & -> & Hm1 & Hm2 & Hb & Hh & Hn & Hr & Ht & Hbit).
  pose proof (proj1 (Forall_app _ _ _) Hb) as [Hb1 Hb2].
  assert (Ebit : u64 (s_bit s + Z.of_nat (length d) * 8) = u64 (8 * Z.of_nat (length ((m1 ++ m2) ++ d)))).
  { rewrite Hbit, u64_add. f_equal. rewrite !length_app. lia. }
  unfold sha256_dai. cbn [s_n_resto s_h s_resto s_bit]. rewrite Ebit, Hn. destruct (Nat.ltb_spec 0 (length m2)) as [H0|H0].
  - destruct (Nat.lt_ge_cases (length m2 + length d) 64) as [Hlt|Hge].
    + destruct (completa_corto d c 65 (s_resto s) (length m2)) as (r & E & Hlr & Htr); try done; [lia|].
      rewrite E. cbn [mbind esito_bind]. rewrite (proj2 (Nat.ltb_lt _ 64) Hlt). eexists. split; [reflexivity|].
      exists m1, (m2 ++ d). cbn [s_n_resto s_h s_resto s_bit].
      repeat split; try done; rewrite ?length_app; [by rewrite app_assoc|lia|by apply Forall_app|done|by rewrite Htr, Ht].
    + assert (exists d1 d2, d = d1 ++ d2 /\ (length m2 + length d1 = 64)%nat) as (d1 & d2 & -> & Hd1).
      { exists (take (64 - length m2) d), (drop (64 - length m2) d). rewrite take_drop, length_take. split; [done|lia]. }
      apply Forall_app in Hd as [Hd1b Hd2b]. rewrite (length_app d1 d2), <- (app_assoc d1 d2 c).
      destruct (completa_pieno d1 (d2 ++ c) (length d2) 65 (s_resto s) (length m2)) as (r & E & Er); [done..|lia|].
      rewrite E. cbn [mbind esito_bind]. rewrite Ht in Er. subst r. change (64 <? 64)%nat with false. cbn iota.
      assert (Hlb : length (m2 ++ d1) = 64%nat) by (rewrite length_app; lia).
      assert (Hbb : bytes (m2 ++ d1)) by (by apply Forall_app).
      rewrite sha_blocco_eq by tauto.
      destruct (dai_coda_segue (mkSha (comprimi V (s_h s) (m2 ++ d1)) (m2 ++ d1) 0
                  (u64 (8 * Z.of_nat (length ((m1 ++ m2) ++ d1 ++ d2))))) (m1 ++ m2 ++ d1) d2 c) as (s' & E' & Hs').
      * done.
      * by apply mod64_app.
      * by apply Forall_app.
      * cbn [s_h]. rewrite Hh, (assorbi_app V V_byte) by done. by rewrite (assorbi_blocco V V_byte _ (m2 ++ d1)).
      * done.
      * cbn [s_bit]. by rewrite !app_assoc.
      * exists s'. split; [exact E'|]. by rewrite !app_assoc in Hs' |- *.
  - destruct m2 as [|x m2]; [|cbn in H0; lia]. rewrite app_nil_r in *.
    apply dai_coda_segue; done.
Qed.

(** ** The end *)

Lemma azzera_val a : forall k r n, (n <= a <= length r)%nat -> (a - n < k)%nat ->
  exists r', azzera k a r n = Val (r', a) /\ length r' = length r /\ take a r' = take n r ++ replicate (a - n) 0.
Proof.
  induction k as [|k IH]; intros r n Hn Hk; [lia|]. cbn [azzera]. destruct (Nat.ltb_spec n a).
  - rewrite scrivi_val by lia. cbn [mbind esito_bind].
    destruct (IH (<[n := 0]> r) (S n)) as (r' & E & Hl & Ht); [rewrite length_insert; lia|lia|].
    rewrite length_insert in Hl. exists r'. split; [done|]. split; [done|].
    rewrite Ht, take_scritto, <- app_assoc by lia. replace (a - n)%nat with (S (a - S n)) by lia. done.
  - assert (n = a) as -> by lia. exists r. rewrite Nat.sub_diag, app_nil_r. done.
Qed.

Lemma metti_bit_val bit : forall k i r, (i + k = 8)%nat -> length r = 64%nat ->
  exists r', metti_bit k i bit r = Val r' /\ r' = take (56 + i) r ++ be_bytes k bit.
Proof.
  induction k as [|k IH]; intros i r Hi Hr; cbn [metti_bit].
  - exists r. split; [done|]. rewrite app_nil_r, take_ge by lia. done.
  - rewrite scrivi_val by lia. cbn [mbind esito_bind].
    destruct (IH (S i) (<[(56 + i)%nat := Z.shiftr bit (56 - 8 * Z.of_nat i) mod 256]> r)) as (r' & E & Er);
      [lia|rewrite length_insert; done|].
    exists r'. split; [done|]. rewrite Er, Nat.add_succ_r, take_scritto, <- app_assoc by lia. cbn [be_bytes app]. do 3 f_equal.
    rewrite Z.shiftr_div_pow2, B_2 by lia. do 2 f_equal. lia.
Qed.

Lemma be_bytes_mod k n : be_bytes k (n mod 256 ^ Z.of_nat k) = be_bytes k n.
Proof.
  apply be_inj; try apply be_bytes_range; [by rewrite !length_be_bytes|].
  rewrite !be_be_bytes. apply Z.mod_mod. pose proof (B_pos k). lia.
Qed.

Lemma fuori_byte_eq h : length h = 8%nat -> fuori_byte h = take 32 (mjoin (be_bytes 4 <$> h)).
Proof.
  intros Hl. rewrite take_ge.
  - unfold fuori_byte. f_equal. apply list_fmap_ext. intros i x _. cbn [be_bytes].
    rewrite !Z.shiftr_div_pow2 by lia. cbn. by rewrite Z.div_1_r.
  - do 8 (destruct h as [|? h]; [done|]). destruct h; [|done]. cbn. lia.
Qed.

(** The padding of a message whose last [n] bytes do not fill a block. *)
Lemma riempimento_eq (m1 m2 : list Z) : (length m1 mod 64 = 0)%nat -> (length m2 < 64)%nat ->
  riempimento V (Z.of_nat (length (m1 ++ m2)))
  = 128 :: replicate (if (length m2 <? 56)%nat then 55 - length m2 else 119 - length m2) 0
        ++ be_bytes 8 (u64 (8 * Z.of_nat (length (m1 ++ m2)))).
Proof.
  intros Hm1 Hm2. unfold riempimento. change (v_L V) with 8%nat. change (Z.of_nat (v_B V)) with 64.
  change u64 with (fun x => x mod 256 ^ Z.of_nat 8). cbn beta. rewrite be_bytes_mod. do 3 f_equal.
  apply Nat2Z.inj. rewrite Z2Nat.id by (apply Z.mod_pos_bound; lia). rewrite length_app, Nat2Z.inj_add.
  pose proof (Nat.div_mod (length m1) 64 ltac:(lia)) as E. rewrite Hm1 in E. rewrite E. clear E Hm1.
  destruct (Nat.ltb_spec (length m2) 56); zdm.
Qed.

Lemma blocco_fine h1 bit r pre : stato_ok h1 -> length r = 64%nat -> take 56 r = pre -> bytes pre ->
  exists r', metti_bit 8 0 bit r = Val r' /\ length r' = 64%nat /\ sha_blocco h1 r' = comprimi V h1 (pre ++ be_bytes 8 bit).
Proof.
  intros Hh Hr Ht Hb. destruct (metti_bit_val bit 8 0 r) as (r' & E & Er); [done..|].
  change (56 + 0)%nat with 56%nat in Er. rewrite Ht in Er. subst r'.
  assert (Hl : length (pre ++ be_bytes 8 bit) = 64%nat).
  { rewrite length_app, length_be_bytes, <- Ht, length_take. lia. }
  exists (pre ++ be_bytes 8 bit). split; [done|]. split; [done|].
  apply sha_blocco_eq; try tauto; try done. apply Forall_app. split; [done|apply be_bytes_range].
Qed.

Lemma bytes_zeri k : bytes (replicate k 0).
Proof. apply Forall_replicate. lia. Qed.

(** The end of a message whose last bytes [d] do not fill a block: [r0] is the
    block with these bytes and the mark. *)
Section Coda.

Context (h d r0 : list Z) (bit : Z) (Hh : stato_ok h) (Hd : bytes d).
Context (Hr0 : length r0 = 64%nat) (Ht0 : take (S (length d)) r0 = d ++ [128]).

Lemma bytes_marca : bytes (d ++ [128]).
Proof. apply Forall_app. split; [done|]. apply Forall_singleton. lia. Qed.

(** The length is in the same block. *)
Lemma coda_corta : (length d < 56)%nat ->
  exists r1 r2, azzera 65 56 r0 (S (length d)) = Val (r1, 56%nat) /\ metti_bit 8 0 bit r1 = Val r2 /\
    sha_blocco h r2 = assorbi V h (d ++ 128 :: replicate (55 - length d) 0 ++ be_bytes 8 bit).
Proof.
  intros Hn. destruct (azzera_val 56 65 r0 (S (length d))) as (r1 & E1 & Hl1 & Ht1); [lia..|]. rewrite Ht0 in Ht1.
  destruct (blocco_fine h bit r1 _ Hh ltac:(lia) Ht1) as (r2 & E2 & Hl2 & Hc).
  { apply Forall_app. split; [apply bytes_marca|apply bytes_zeri]. }
  exists r1, r2. split; [done|]. split; [done|]. rewrite Hc.
  replace (55 - length d)%nat with (56 - S (length d))%nat by lia. rewrite <- !app_assoc. symmetry.
  apply (assorbi_blocco V V_byte).
  cbn [app]. rewrite length_app. cbn [length]. rewrite length_app, length_replicate, length_be_bytes. cbn. lia.
Qed.

(** The length has a block of its own. *)
Lemma coda_lunga : (56 <= length d < 64)%nat ->
  exists r1 r2 r3, azzera 65 64 r0 (S (length d)) = Val (r1, 64%nat) /\ azzera 65 56 r1 0 = Val (r2, 56%nat) /\
    metti_bit 8 0 bit r2 = Val r3 /\
    sha_blocco (sha_blocco h r1) r3 = assorbi V h (d ++ 128 :: replicate (119 - length d) 0 ++ be_bytes 8 bit).
Proof.
  intros Hn. destruct (azzera_val 64 65 r0 (S (length d))) as (r1 & E1 & Hl1 & Ht1); [lia..|].
  rewrite Hr0 in Hl1. rewrite take_ge, Ht0 in Ht1 by lia. rewrite Ht1 in E1, Hl1. clear Ht1 r1.
  set (b1 := (d ++ [128]) ++ replicate (64 - S (length d)) 0) in *.
  assert (Hb1 : bytes b1) by (apply Forall_app; split; [apply bytes_marca|apply bytes_zeri]).
  destruct (azzera_val 56 65 b1 0) as (r2 & E2 & Hl2 & Ht2); [lia..|].
  destruct (blocco_fine (comprimi V h b1) bit r2 _ (comprimi_ok _ b1 Hh) ltac:(lia) Ht2) as (r3 & E3 & Hl3 & Hc).
  { apply (bytes_zeri 56). }
  exists b1, r2, r3. repeat (split; [done|]). rewrite (sha_blocco_eq h) by tauto. rewrite Hc.
  change (take 0 b1 ++ replicate (56 - 0) 0) with (replicate 56 0).
  replace (119 - length d)%nat with (64 - S (length d) + 56)%nat by lia.
  rewrite replicate_add, <- app_assoc, app_comm_cons, app_assoc.
  change (d ++ 128 :: replicate (64 - S (length d)) 0) with (d ++ [128] ++ replicate (64 - S (length d)) 0).
  rewrite (app_assoc d). fold b1. rewrite assorbi_cons by done. symmetry.
  apply (assorbi_blocco V V_byte). rewrite length_app, length_replicate, length_be_bytes. done.
Qed.

End Coda.

(** The digest from the state after the whole blocks. *)
Lemma fine_digest m1 m2 : (length m1 mod 64 = 0)%nat -> (length m2 < 64)%nat ->
  fuori_byte (assorbi V (assorbi V H0_256 m1)
    (m2 ++ 128 :: replicate (if (length m2 <? 56)%nat then 55 - length m2 else 119 - length m2) 0
        ++ be_bytes 8 (u64 (8 * Z.of_nat (length (m1 ++ m2)))))) = SHA256 (m1 ++ m2).
Proof.
  intros Hm1 Hm2. rewrite <- riempimento_eq by done. unfold SHA256, digest, imbottito.
  rewrite <- app_assoc, (assorbi_app V V_byte _ m1) by done.
  apply fuori_byte_eq. apply (assorbi_ok V V_byte); apply (assorbi_ok V V_byte); apply H0_ok.
Qed.

Lemma segue_fine s m : segue s m -> exists s', sha256_fine s = Val (s', SHA256 m).
Proof.
  intros Hs. pose proof (segue_h _ _ Hs) as Hok. destruct Hs as (m1 & m2 & -> & Hm1 & Hm2 & Hb & Hh & Hn & Hr & Ht & Hbit).
  apply Forall_app in Hb as [Hb1 Hb2]. pose proof (fine_digest m1 m2 Hm1 Hm2) as Ed. rewrite <- Hbit, <- Hh in Ed.
  unfold sha256_fine. rewrite Hn, scrivi_val by lia. cbn [mbind esito_bind].
  set (r0 := <[length m2 := 128]> (s_resto s)).
  assert (H0 : length r0 = 64%nat /\ take (S (length m2)) r0 = m2 ++ [128]).
  { unfold r0. rewrite length_insert, take_scritto, Ht by lia. done. }
  clearbody r0. destruct H0 as [Hr0 Ht0].
  destruct (Nat.ltb_spec 56 (S (length m2))), (Nat.ltb_spec (length m2) 56); try lia.
  - destruct (coda_lunga (s_h s) m2 r0 (s_bit s)) as (r1 & r2 & r3 & E1 & E2 & E3 & Ec); [done..|lia|].
    rewrite E1. cbn [mbind esito_bind]. rewrite E2. cbn [mbind esito_bind]. rewrite E3. cbn [mbind esito_bind].
    rewrite Ec, Ed. by eexists.
  - destruct (coda_corta (s_h s) m2 r0 (s_bit s)) as (r1 & r2 & E1 & E2 & Ec); [done..|].
    cbn [mbind esito_bind]. rewrite E1. cbn [mbind esito_bind]. rewrite E2. cbn [mbind esito_bind].
    rewrite Ec, Ed. by eexists.
Qed.
