(* ===== verification/Sha256K.v ===== *)
(** * SHA-256 of the kernel (kernel/crypto/sha256.c)

    The kernel keeps a copy of its own, in one function that composes the
    padding on the last block; a remainder of [(size_t)-1] marks a message
    whose length goes in a block by itself.  [size_max] is [(size_t)-1], which
    differs between the 32 and the 64 bit kernel.  The loops that copy, zero and
    write the length are those of Sha256.v, with the same bodies. *)

From S2P Require Import Prelude Esito Sha256 Bytes ShaSpec ShaBlocco Sha256Blocco Sha256Flusso.

Definition kruotad (x n : Z) : Z := Z.lor (Z.shiftr x n) (u32 (Z.shiftl x (32 - n))).

Definition kK : list Z := Eval cbv in mjoin [
  [0x428a2f98;0x71374491;0xb5c0fbcf;0xe9b5dba5;0x3956c25b;0x59f111f1];
  [0x923f82a4;0xab1c5ed5;0xd807aa98;0x12835b01;0x243185be;0x550c7dc3];
  [0x72be5d74;0x80deb1fe;0x9bdc06a7;0xc19bf174;0xe49b69c1;0xefbe4786];
  [0x0fc19dc6;0x240ca1cc;0x2de92c6f;0x4a7484aa;0x5cb0a9dc;0x76f988da];
  [0x983e5152;0xa831c66d;0xb00327c8;0xbf597fc7;0xc6e00bf3;0xd5a79147];
  [0x06ca6351;0x14292967;0x27b70a85;0x2e1b2138;0x4d2c6dfc;0x53380d13];
  [0x650a7354;0x766a0abb;0x81c2c92e;0x92722c85;0xa2bfe8a1;0xa81a664b];
  [0xc24b8b70;0xc76c51a3;0xd192e819;0xd6990624;0xf40e3585;0x106aa070];
  [0x19a4c116;0x1e376c08;0x2748774c;0x34b0bcb5;0x391c0cb3;0x4ed8aa4a];
  [0x5b9cca4f;0x682e6ff3;0x748f82ee;0x78a5636f;0x84c87814;0x8cc70208];
  [0x90befffa;0xa4506ceb;0xbef9a3f7;0xc67178f2]
].

Fixpoint kcarica_w (k t : nat) (blocco w : list Z) : list Z :=
  match k with
  | O => w
  | S k =>
      kcarica_w k (S t) blocco
        (<[t := Z.lor (Z.lor (Z.lor (u32 (Z.shiftl (parola blocco (t * 4)) 24)) (u32 (Z.shiftl (parola blocco (t * 4 + 1)) 16)))
                             (u32 (Z.shiftl (parola blocco (t * 4 + 2)) 8))) (parola blocco (t * 4 + 3))]> w)
  end.

Fixpoint kespandi_w (k t : nat) (w : list Z) : list Z :=
  match k with
  | O => w
  | S k =>
      let s0 := Z.lxor (Z.lxor (kruotad (parola w (t - 15)) 7) (kruotad (parola w (t - 15)) 18))
                       (Z.shiftr (parola w (t - 15)) 3) in
      let s1 := Z.lxor (Z.lxor (kruotad (parola w (t - 2)) 17) (kruotad (parola w (t - 2)) 19))
                       (Z.shiftr (parola w (t - 2)) 10) in
      kespandi_w k (S t) (<[t := u32 (parola w (t - 16) + s0 + parola w (t - 7) + s1)]> w)
  end.

Fixpoint kgiri (k t : nat) (w : list Z) (s : Vars) : Vars :=
  match k with
  | O => s
  | S k =>
      let '(mkVars a b c d e f g hh) := s in
      let S1 := Z.lxor (Z.lxor (kruotad e 6) (kruotad e 11)) (kruotad e 25) in
      let ch := Z.lxor (Z.land e f) (Z.land (u32 (Z.lnot e)) g) in
      let S0 := Z.lxor (Z.lxor (kruotad a 2) (kruotad a 13)) (kruotad a 22) in
      let mj := Z.lxor (Z.lxor (Z.land a b) (Z.land a c)) (Z.land b c) in
      let t1 := u32 (hh + S1 + ch + parola kK t + parola w t) in
      let t2 := u32 (S0 + mj) in
      kgiri k (S t) w (mkVars (u32 (t1 + t2)) a b c (u32 (d + t1)) e f g)
  end.

(** The compression, which the function has twice with the same text. *)
Definition kcomprimi (h blocco : list Z) : list Z :=
  let w := kespandi_w 48 16 (kcarica_w 16 0 blocco (replicate 64 0)) in
  let s := kgiri 64 0 w (mkVars (parola h 0) (parola h 1) (parola h 2) (parola h 3)
                                (parola h 4) (parola h 5) (parola h 6) (parola h 7)) in
  [u32 (parola h 0 + va s); u32 (parola h 1 + vb s); u32 (parola h 2 + vc s); u32 (parola h 3 + vd s);
   u32 (parola h 4 + ve s); u32 (parola h 5 + vf s); u32 (parola h 6 + vg s); u32 (parola h 7 + vh s)].

(** The local variables of the function that the loop changes. *)
Record KSha : Type := mkK { k_h : list Z; k_p : list Z; k_blocco : list Z; k_resta : Z; k_finito : bool }.

Section Kernel.

Context (size_max : Z).

(** What a turn puts in [blocco]. *)
Definition componi (bit : Z) (s : KSha) : esito KSha :=
  if 64 <=? k_resta s
  then '(b, p) ← copia 64 0 (k_blocco s) (k_p s); Val (mkK (k_h s) p b (k_resta s - 64) (k_finito s))
  else
    let n := Z.to_nat (k_resta s) in
    '(b, p) ← copia n 0 (k_blocco s) (k_p s);
    b ← scrivi b n 0x80;
    let n := S n in
    '(b, resta, finito) ←
      (if (56 <? n)%nat
       then '(b, _) ← azzera 65 64 b n; Val (b, size_max, k_finito s)
       else '(b, _) ← azzera 65 56 b n; b ← metti_bit 8 0 bit b; Val (b, k_resta s, true));
    Val (mkK (k_h s) p b resta (if resta =? size_max then finito else true)).

(** The block of the length alone. *)
Definition coda (bit : Z) (s : KSha) : esito KSha :=
  if negb (k_finito s) && (k_resta s =? size_max)
  then '(b, _) ← azzera 65 56 (k_blocco s) 0;
       b ← metti_bit 8 0 bit b;
       Val (mkK (kcomprimi (k_h s) b) (k_p s) b 0 true)
  else Val s.

Fixpoint sha256_while (k : nat) (bit : Z) (s : KSha) : esito KSha :=
  match k with
  | O => Stanco
  | S k =>
      if k_finito s then Val s
      else s ← componi bit s;
           s ← coda bit (mkK (kcomprimi (k_h s) (k_blocco s)) (k_p s) (k_blocco s) (k_resta s) (k_finito s));
           sha256_while k bit s
  end.

(** [blocco] is the uninitialised local array. *)
Definition ksha256 (blocco dati : list Z) (len : Z) : esito (list Z) :=
  let bit := u64 (len * 8) in
  s ← sha256_while (Z.to_nat (len / 64) + 2) bit
        (mkK [0x6a09e667; 0xbb67ae85; 0x3c6ef372; 0xa54ff53a; 0x510e527f; 0x9b05688c; 0x1f83d9ab; 0x5be0cd19]
             dati blocco len false);
  Val (fuori_byte (k_h s)).

(** The digits are those of [sha_cifre] in the library. *)
Definition ksha256_esa (blocco dati : list Z) (len : Z) : esito (list Z) :=
  d ← ksha256 blocco dati len; Val (in_cifre d).

End Kernel.

(** * The SHA-256 of the kernel *)


(** ** The copy is still a copy *)

Lemma kcarica_w_eq b : forall k t w, kcarica_w k t b w = carica_w k t b w.
Proof. induction k as [|k IH]; intros t w; [reflexivity|]. cbn [kcarica_w carica_w]. by rewrite IH. Qed.

Lemma kespandi_w_eq : forall k t w, kespandi_w k t w = espandi_w k t w.
Proof. induction k as [|k IH]; intros t w; [reflexivity|]. cbn [kespandi_w espandi_w]. by rewrite IH. Qed.

Lemma kgiri_eq w : forall k t s, kgiri k t w s = giri_loop k t w s.
Proof. induction k as [|k IH]; intros t [a b c d e f g hh]; [reflexivity|]. cbn [kgiri giri_loop]. by rewrite IH. Qed.

Lemma kcomprimi_eq h b : kcomprimi h b = sha_blocco h b.
Proof. unfold kcomprimi, sha_blocco. by rewrite kcarica_w_eq, kespandi_w_eq, kgiri_eq. Qed.

(** ** The loop *)

Section Kernel.

Context (size_max : Z) (Hmax : W32 - 1 <= size_max).

(** The last turns: fewer than 64 bytes are left. *)
Lemma componi_coda bit h d c b0 : stato_ok h -> length b0 = 64%nat -> (length d < 64)%nat -> bytes d ->
  exists s1, componi size_max bit (mkK h (d ++ c) b0 (Z.of_nat (length d)) false) = Val s1 /\
  exists s2, coda size_max bit (mkK (sha_blocco (k_h s1) (k_blocco s1)) (k_p s1) (k_blocco s1) (k_resta s1) (k_finito s1)) = Val s2 /\
    k_finito s2 = true /\
    k_h s2 = assorbi V h (d ++ 128 :: replicate (if (length d <? 56)%nat then 55 - length d else 119 - length d) 0 ++ be_bytes 8 bit).
Proof.
  intros Hh Hb0 Hd Hbd. unfold componi. cbn [k_resta k_p k_blocco k_h k_finito].
  rewrite (proj2 (Z.leb_gt 64 _)) by lia. rewrite Nat2Z.id.
  destruct (copia_val d c 0 b0) as (r & E & Hr & Ht); [lia|]. rewrite E. cbn [mbind esito_bind].
  change (take 0 b0) with (@nil Z) in Ht. cbn [app Nat.add] in Ht. rewrite scrivi_val by lia. cbn [mbind esito_bind].
  set (n := length d) in *. set (r0 := <[n := 128]> r).
  assert (H0 : length r0 = 64%nat /\ take (S n) r0 = d ++ [128]).
  { unfold r0. rewrite length_insert, take_scritto, Ht by lia. split; [lia|done]. }
  clearbody r0. destruct H0 as [Hr0 Ht0].
  destruct (Nat.ltb_spec 56 (S n)), (Nat.ltb_spec n 56); try (unfold n in *; lia).
  - destruct (coda_lunga h d r0 bit) as (r1 & r2 & r3 & E1 & E2 & E3 & Ec); [done..|unfold n in *; lia|].
    fold n in E1. rewrite E1. cbn [mbind esito_bind]. rewrite Z.eqb_refl. eexists. split; [reflexivity|].
    unfold coda. cbn [k_h k_p k_blocco k_resta k_finito negb andb]. rewrite Z.eqb_refl, E2. cbn [mbind esito_bind].
    rewrite E3. cbn [mbind esito_bind]. eexists. split; [reflexivity|]. split; [done|]. cbn [k_h]. rewrite kcomprimi_eq. exact Ec.
  - destruct (coda_corta h d r0 bit) as (r1 & r2 & E1 & E2 & Ec); [done..|].
    fold n in E1. rewrite E1. cbn [mbind esito_bind]. rewrite E2. cbn [mbind esito_bind].
    rewrite (proj2 (Z.eqb_neq (Z.of_nat n) size_max)) by (unfold W32 in *; lia). eexists. split; [reflexivity|].
    unfold coda. cbn [k_h k_p k_blocco k_resta k_finito negb andb]. eexists. split; [reflexivity|]. split; [done|]. exact Ec.
Qed.

(** [q] blocks and a rest [e] of fewer than 64 bytes. *)
Lemma sha256_while_val bit q : forall d e c k h b0, length d = (64 * q)%nat -> (length e < 64)%nat -> (q + 1 < k)%nat ->
  bytes d -> bytes e -> stato_ok h -> length b0 = 64%nat -> Z.of_nat (length d + length e) < W32 ->
  exists s, sha256_while size_max k bit (mkK h (d ++ e ++ c) b0 (Z.of_nat (length d + length e)) false) = Val s /\
    k_h s = assorbi V (assorbi V h d)
              (e ++ 128 :: replicate (if (length e <? 56)%nat then 55 - length e else 119 - length e) 0 ++ be_bytes 8 bit).
Proof.
  induction q as [|q IH]; intros d e c [|k] h b0 Hd He Hk Hbd Hbe Hh Hb0 Hlen; try lia; cbn [sha256_while k_finito].
  - destruct d; [|done]. cbn [length Nat.add app]. rewrite (assorbi_corto V h []) by (cbn; lia).
    destruct (componi_coda bit h e c b0) as (s1 & E1 & s2 & E2 & Ef & Eh); [done..|].
    rewrite E1. cbn [mbind esito_bind]. rewrite kcomprimi_eq, E2. cbn [mbind esito_bind].
    destruct k as [|k]; [lia|]. cbn [sha256_while]. rewrite Ef. by exists s2.
  - assert (exists b d', d = b ++ d' /\ length b = 64%nat) as (b & d' & -> & Hlb).
    { exists (take 64 d), (drop 64 d). rewrite take_drop, length_take. split; [done|lia]. }
    apply Forall_app in Hbd as [Hbb Hbd]. rewrite length_app in Hd, Hlen |- *. rewrite Hlb in Hd, Hlen |- *.
    unfold componi. cbn [k_resta k_p k_blocco k_h k_finito]. rewrite (proj2 (Z.leb_le 64 _)) by lia. rewrite <- app_assoc.
    destruct (copia_val b (d' ++ e ++ c) 0 b0) as (r1 & E & Hl & Ht); [lia|].
    change (take 0 b0) with (@nil Z) in Ht. rewrite Hlb in E, Ht. rewrite E. cbn [mbind esito_bind k_h k_p k_blocco k_resta k_finito].
    rewrite take_ge in Ht by (cbn; lia). cbn [app] in Ht. subst r1.
    unfold coda. cbn [k_h k_p k_blocco k_resta k_finito negb andb].
    rewrite (proj2 (Z.eqb_neq _ size_max)) by lia. cbn [mbind esito_bind].
    rewrite kcomprimi_eq, sha_blocco_eq by tauto.
    replace (Z.of_nat (64 + length d' + length e) - 64) with (Z.of_nat (length d' + length e)) by lia.
    rewrite (assorbi_cons h b d') by done. apply IH; try done; [lia|lia|by apply comprimi_ok|lia].
Qed.

Lemma ksha256_val b0 d c : bytes d -> length b0 = 64%nat -> Z.of_nat (length d) < W32 ->
  ksha256 size_max b0 (d ++ c) (Z.of_nat (length d)) = Val (SHA256 d).
Proof.
  intros Hb Hb0 Hlen. unfold ksha256. destruct (a_blocchi d) as (d1 & e & -> & Hd1 & He).
  apply Forall_app in Hb as [Hb1 Hbe]. pose proof Hd1 as Hq. set (q := (length (d1 ++ e) / 64)%nat) in *.
  destruct (sha256_while_val (u64 (Z.of_nat (length (d1 ++ e)) * 8)) q d1 e c (q + 2) H0_256 b0) as (s & E & Eh);
    try done; [lia|apply H0_ok|by rewrite <- length_app|].
  replace (Z.to_nat (Z.of_nat (length (d1 ++ e)) / 64) + 2)%nat with (q + 2)%nat
    by (unfold q; rewrite <- (Nat2Z.inj_div _ 64), Nat2Z.id; done).
  rewrite <- app_assoc. replace (length (d1 ++ e)) with (length d1 + length e)%nat in E |- * by (by rewrite length_app).
  change [0x6a09e667; 0xbb67ae85; 0x3c6ef372; 0xa54ff53a; 0x510e527f; 0x9b05688c; 0x1f83d9ab; 0x5be0cd19]
    with (s_h (sha256_avvia (mkSha [] [] 0 0))). rewrite H0_eq, E. cbn [mbind esito_bind]. f_equal. rewrite Eh.
  rewrite Z.mul_comm. apply fine_digest; [|done]. by rewrite Hq, Nat.mul_comm, Nat.Div0.mod_mul.
Qed.

End Kernel.
