(* ===== verification/Sha512.v ===== *)
(** * SHA-512 and SHA-384 (lib/excrypt/sha512.c)

    Words are 64 bits, indices [unsigned int]: the index of the loop over the
    blocks wraps at 2^32.  A read past the message or a write past [coda] is
    [Fuori]. *)

From S2P Require Import Prelude Esito Sha256.

Definition K512 : list Z := [
  0x428a2f98d728ae22;0x7137449123ef65cd;0xb5c0fbcfec4d3b2f;0xe9b5dba58189dbbc;
  0x3956c25bf348b538;0x59f111f1b605d019;0x923f82a4af194f9b;0xab1c5ed5da6d8118;
  0xd807aa98a3030242;0x12835b0145706fbe;0x243185be4ee4b28c;0x550c7dc3d5ffb4e2;
  0x72be5d74f27b896f;0x80deb1fe3b1696b1;0x9bdc06a725c71235;0xc19bf174cf692694;
  0xe49b69c19ef14ad2;0xefbe4786384f25e3;0x0fc19dc68b8cd5b5;0x240ca1cc77ac9c65;
  0x2de92c6f592b0275;0x4a7484aa6ea6e483;0x5cb0a9dcbd41fbd4;0x76f988da831153b5;
  0x983e5152ee66dfab;0xa831c66d2db43210;0xb00327c898fb213f;0xbf597fc7beef0ee4;
  0xc6e00bf33da88fc2;0xd5a79147930aa725;0x06ca6351e003826f;0x142929670a0e6e70;
  0x27b70a8546d22ffc;0x2e1b21385c26c926;0x4d2c6dfc5ac42aed;0x53380d139d95b3df;
  0x650a73548baf63de;0x766a0abb3c77b2a8;0x81c2c92e47edaee6;0x92722c851482353b;
  0xa2bfe8a14cf10364;0xa81a664bbc423001;0xc24b8b70d0f89791;0xc76c51a30654be30;
  0xd192e819d6ef5218;0xd69906245565a910;0xf40e35855771202a;0x106aa07032bbd1b8;
  0x19a4c116b8d2d0c8;0x1e376c085141ab53;0x2748774cdf8eeb99;0x34b0bcb5e19b48a8;
  0x391c0cb3c5c95a63;0x4ed8aa4ae3418acb;0x5b9cca4f7763e373;0x682e6ff3d6b2b8a3;
  0x748f82ee5defb2fc;0x78a5636f43172f60;0x84c87814a1f0ab72;0x8cc702081a6439ec;
  0x90befffa23631e28;0xa4506cebde82bde9;0xbef9a3f7b2c67915;0xc67178f2e372532b;
  0xca273eceea26619c;0xd186b8c721c0c207;0xeada7dd6cde0eb1e;0xf57d4f7fee6ed178;
  0x06f067aa72176fba;0x0a637dc5a2c898a6;0x113f9804bef90dae;0x1b710b35131c471b;
  0x28db77f523047d84;0x32caab7b40c72493;0x3c9ebe0a15c9bebc;0x431d67c49c100d4c;
  0x4cc5d4becb3e42b6;0x597f299cfc657e2a;0x5fcb6fab3ad6faec;0x6c44198c4a475817
].

Definition rotr (x n : Z) : Z := Z.lor (Z.shiftr x n) (u64 (Z.shiftl x (64 - n))).

Definition CH (x y z : Z) : Z := Z.lxor (Z.land x y) (Z.land (u64 (Z.lnot x)) z).
Definition MAJ (x y z : Z) : Z := Z.lxor (Z.lxor (Z.land x y) (Z.land x z)) (Z.land y z).
Definition S0 (x : Z) : Z := Z.lxor (Z.lxor (rotr x 28) (rotr x 34)) (rotr x 39).
Definition S1 (x : Z) : Z := Z.lxor (Z.lxor (rotr x 14) (rotr x 18)) (rotr x 41).
Definition s0 (x : Z) : Z := Z.lxor (Z.lxor (rotr x 1) (rotr x 8)) (Z.shiftr x 7).
Definition s1 (x : Z) : Z := Z.lxor (Z.lxor (rotr x 19) (rotr x 61)) (Z.shiftr x 6).

(** [for (j = 0; j < 8; j++) w[i] = (w[i] << 8) | p[i * 8 + j];] *)
Fixpoint parola_8 (k j i : nat) (p : list Z) (x : Z) : Z :=
  match k with
  | O => x
  | S k => parola_8 k (S j) i p (Z.lor (u64 (Z.shiftl x 8)) (parola p (i * 8 + j)))
  end.

Fixpoint carica_512 (k i : nat) (p w : list Z) : list Z :=
  match k with
  | O => w
  | S k => carica_512 k (S i) p (<[i := parola_8 8 0 i p 0]> w)
  end.

Fixpoint espandi_512 (k i : nat) (w : list Z) : list Z :=
  match k with
  | O => w
  | S k =>
      espandi_512 k (S i)
        (<[i := u64 (s1 (parola w (i - 2)) + parola w (i - 7) + s0 (parola w (i - 15)) + parola w (i - 16))]> w)
  end.

Fixpoint giri_512 (k i : nat) (w : list Z) (s : Vars) : Vars :=
  match k with
  | O => s
  | S k =>
      let '(mkVars a b c d e f g hh) := s in
      let t1 := u64 (hh + S1 e + CH e f g + parola K512 i + parola w i) in
      let t2 := u64 (S0 a + MAJ a b c) in
      giri_512 k (S i) w (mkVars (u64 (t1 + t2)) a b c (u64 (d + t1)) e f g)
  end.

Definition blocco (h p : list Z) : list Z :=
  let w := espandi_512 64 16 (carica_512 16 0 p (replicate 80 0)) in
  let s := giri_512 80 0 w (mkVars (parola h 0) (parola h 1) (parola h 2) (parola h 3)
                                   (parola h 4) (parola h 5) (parola h 6) (parola h 7)) in
  [u64 (parola h 0 + va s); u64 (parola h 1 + vb s); u64 (parola h 2 + vc s); u64 (parola h 3 + vd s);
   u64 (parola h 4 + ve s); u64 (parola h 5 + vf s); u64 (parola h 6 + vg s); u64 (parola h 7 + vh s)].

(** The 128 bytes at [m + i], which [blocco] reads. *)
Definition a_partire (m : list Z) (i : Z) : esito (list Z) :=
  if i + 128 <=? Z.of_nat (length m) then Val (take 128 (drop (Z.to_nat i) m)) else Fuori.

(** [for (i = 0; i + 128 <= n; i += 128) blocco(h, m + i);] *)
Fixpoint interi_512 (k : nat) (h m : list Z) (n i : Z) : esito (list Z * Z) :=
  match k with
  | O => Stanco
  | S k =>
      if u32 (i + 128) <=? n
      then b ← a_partire m i; interi_512 k (blocco h b) m n (u32 (i + 128))
      else Val (h, i)
  end.

(** [while ((len_coda % 128) != 112) coda[len_coda++] = 0;] *)
Fixpoint zeri_512 (k : nat) (coda : list Z) (len_coda : nat) : esito (list Z * nat) :=
  match k with
  | O => Stanco
  | S k =>
      if negb (len_coda mod 128 =? 112)%nat
      then coda ← scrivi coda len_coda 0; zeri_512 k coda (S len_coda)
      else Val (coda, len_coda)
  end.

(** The two loops of eight bytes: the high half of the length, which is zero, and
    the low half. *)
Fixpoint otto_zeri (k : nat) (coda : list Z) (len_coda : nat) : esito (list Z * nat) :=
  match k with
  | O => Val (coda, len_coda)
  | S k => coda ← scrivi coda len_coda 0; otto_zeri k coda (S len_coda)
  end.

Fixpoint otto_bit (k i : nat) (bit : Z) (coda : list Z) (len_coda : nat) : esito (list Z * nat) :=
  match k with
  | O => Val (coda, len_coda)
  | S k => coda ← scrivi coda len_coda (Z.shiftr bit (56 - 8 * Z.of_nat i) mod 256); otto_bit k (S i) bit coda (S len_coda)
  end.

(** [for (i = 0; i < len_coda; i += 128) blocco(h, coda + i);]: at most two turns. *)
Fixpoint ultimi_512 (k : nat) (h coda : list Z) (len_coda i : Z) : esito (list Z) :=
  match k with
  | O => Stanco
  | S k =>
      if i <? len_coda then b ← a_partire coda i; ultimi_512 k (blocco h b) coda len_coda (u32 (i + 128)) else Val h
  end.

(** The two loops that write [out]; [i * 8 + j] is the byte. *)
Fixpoint fuori_512 (n k : nat) (h : list Z) (quanti : nat) (out : list Z) : esito (list Z) :=
  match n with
  | O => Val out
  | S n =>
      out ← (if (k <? quanti)%nat
             then scrivi out k (Z.shiftr (parola h (k / 8)) (56 - 8 * Z.of_nat (k mod 8)) mod 256)
             else Val out);
      fuori_512 n (S k) h quanti out
  end.

(** [coda] is the uninitialised local array of 256 bytes, [out] the buffer of the
    caller. *)
Definition sha512_con (coda iniziale m : list Z) (n : Z) (out : list Z) (quanti : nat) : esito (list Z) :=
  let bit := u64 (n * 8) in
  '(h, i) ← interi_512 (Z.to_nat (n / 128) + 2) iniziale m n 0;
  let resto := u32 (n - i) in
  '(coda, _) ← copia (Z.to_nat resto) 0 coda (drop (Z.to_nat (u32 (n - resto))) m);
  coda ← scrivi coda (Z.to_nat resto) 0x80;
  '(coda, len_coda) ← zeri_512 128 coda (S (Z.to_nat resto));
  '(coda, len_coda) ← otto_zeri 8 coda len_coda;
  '(coda, len_coda) ← otto_bit 8 0 bit coda len_coda;
  h ← ultimi_512 3 h coda (Z.of_nat len_coda) 0;
  fuori_512 64 0 h quanti out.

Definition sha384_H0 : list Z := [
  0xcbbb9d5dc1059ed8; 0x629a292a367cd507; 0x9159015a3070dd17; 0x152fecd8f70e5939;
  0x67332667ffc00b31; 0x8eb44a8768581511; 0xdb0c2e0d64f98fa7; 0x47b5481dbefa4fa4
].

Definition sha384 (coda m : list Z) (n : Z) (out : list Z) : esito (list Z) :=
  sha512_con coda sha384_H0 m n out 48.

Definition sha512_H0 : list Z := [
  0x6a09e667f3bcc908; 0xbb67ae8584caa73b; 0x3c6ef372fe94f82b; 0xa54ff53a5f1d36f1;
  0x510e527fade682d1; 0x9b05688c2b3e6c1f; 0x1f83d9abfb41bd6b; 0x5be0cd19137e2179
].

Definition sha512 (coda m : list Z) (n : Z) (out : list Z) : esito (list Z) :=
  sha512_con coda sha512_H0 m n out 64.
