(* ===== verification/Sha512Blocco.v ===== *)
(** * The compression of SHA-512 is that of the standard *)

From S2P Require Import Prelude Bytes Esito ShaSpec ShaBlocco Sha256 Sha256Blocco Sha512 Sha256Flusso.

Abbreviation V64 := SHA2_64.

Lemma V64_byte : (0 < v_byte V64)%nat.
Proof. cbn. lia. Qed.

Lemma K512_eq : K512 = v_K V64.
Proof. vm_compute. reflexivity. Qed.

Lemma rotr_eq x n : 0 < n < 64 -> 0 <= x < 2 ^ 64 -> rotr x n = ROTR V64 n x.
Proof. apply (ruota_eq 64). Qed.

(** ** The words of the block *)

Lemma parola_8_eq p i : bytes p -> forall k j x, (i * 8 + j + k <= length p)%nat ->
  0 <= x -> (x + 1) * 256 ^ Z.of_nat k <= 2 ^ 64 ->
  parola_8 k j i p x = x * 256 ^ Z.of_nat k + be (take k (drop (i * 8 + j) p)).
Proof.
  intros Hp. induction k as [|k IH]; intros j x Hl Hx Hb; [rewrite take_0; cbn [parola_8 be]; change (Z.of_nat 0) with 0; lia|]. cbn [parola_8].
  rewrite (drop_nth p) by lia. cbn [take be]. fold (parola p (i * 8 + j)).
  pose proof (parola_byte p (i * 8 + j) Hp) as Hy. set (y := parola p (i * 8 + j)) in *.
  rewrite B_S in Hb |- *. pose proof (B_pos k). change (2 ^ 64) with (W32 * W32) in *.
  replace (Z.lor (u64 (Z.shiftl x 8)) y) with (x * 256 + y).
  - rewrite IH; [|lia|lia|change (2 ^ 64) with (W32 * W32); nia].
    rewrite length_take, length_drop, Nat.min_l, (Nat.add_succ_r (i * 8) j) by lia. ring.
  - rewrite Z.shiftl_mul_pow2 by lia. unfold u64. rewrite Z.mod_small by nia. symmetry.
    apply (lor_disjoint 8); [lia|by exists x|lia].
Qed.

Lemma carica_512_eq b w : bytes b -> length b = 128%nat -> length w = 80%nat ->
  length (carica_512 16 0 b w) = 80%nat /\ take 16 (carica_512 16 0 b w) = be <$> pezzi 8 16 b.
Proof.
  intros Hb Hl Hw. rewrite <- Hw, pezzi_accoda.
  assert (H : length (carica_512 16 0 b w) = length w /\ take (0 + 16) (carica_512 16 0 b w)
     = accoda (fun W => if (length W <? 16)%nat then be (take 8 (drop (length W * 8) b)) else parola_8 8 0 (length W) b 0) 16 (take 0 w)).
  { apply (ciclo_accoda (fun k t w => carica_512 k t b w) (fun t _ => parola_8 8 0 t b 0) _ (fun W => True)); try done; [|lia].
    intros t w' _ Ht. rewrite length_take, Nat.min_l by lia. destruct (Nat.ltb_spec t 16); [|done].
    rewrite parola_8_eq by (done || lia). rewrite Nat.add_0_r. lia. }
  destruct H as [Hl' Ht]. split; [done|]. cbn [Nat.add] in Ht. rewrite Ht. reflexivity.
Qed.

(** ** The schedule *)

Lemma prossima_512 t w : parole_w 64 (take t w) -> (16 <= t < length w)%nat ->
  u64 (s1 (parola w (t - 2)) + parola w (t - 7) + s0 (parola w (t - 15)) + parola w (t - 16)) = prossima V64 (take t w).
Proof.
  intros HP Ht. unfold prossima. rewrite length_take, Nat.min_l by lia. unfold parola.
  rewrite <- (nth_take w t (t - 16)), <- (nth_take w t (t - 15)), <- (nth_take w t (t - 7)), <- (nth_take w t (t - 2)) by lia.
  set (W := take t w) in *. clearbody W. unfold s0, s1.
  rewrite !rotr_eq by (lia || apply (nth_parole_w 64); (lia || done)).
  rewrite !Z.shiftr_div_pow2 by lia. unfold somma_w, sigma, SHR. cbn [foldr SHA2_64 v_s0 v_s1]. unfold u64.
  change (2 ^ v_w V64) with (W32 * W32). f_equal. lia.
Qed.

Lemma espandi_512_eq w : parole_w 64 (take 16 w) -> length w = 80%nat ->
  espandi_512 64 16 w = orario V64 64 (take 16 w).
Proof.
  intros HP Hw.
  assert (H : length (espandi_512 64 16 w) = length w /\ take (16 + 64) (espandi_512 64 16 w) = orario V64 64 (take 16 w)).
  { apply (ciclo_accoda espandi_512
      (fun i w => u64 (s1 (parola w (i - 2)) + parola w (i - 7) + s0 (parola w (i - 15)) + parola w (i - 16)))
      (prossima V64) (fun W => parole_w 64 W /\ (16 <= length W)%nat)).
    - reflexivity.
    - reflexivity.
    - intros t w' [HP' H16] Ht. rewrite length_take, Nat.min_l in H16 by lia. by apply prossima_512.
    - intros l [HP' H16]. split; [|rewrite length_app; lia]. apply Forall_app. split; [done|].
      apply Forall_singleton. apply (somma_w_range V64 V64_byte).
    - split; [done|]. rewrite length_take. lia.
    - lia. }
  destruct H as [Hl Ht]. rewrite take_ge in Ht by lia. exact Ht.
Qed.

(** ** The rounds *)

Definition un_giro_512 (s : Vars) (kw : Z * Z) : Vars :=
  let '(mkVars a b c d e f g hh) := s in
  let t1 := u64 (hh + S1 e + CH e f g + kw.1 + kw.2) in
  let t2 := u64 (S0 a + MAJ a b c) in
  mkVars (u64 (t1 + t2)) a b c (u64 (d + t1)) e f g.

Lemma giri_512_fold w s : length w = 80%nat -> giri_512 80 0 w s = foldl un_giro_512 s (zip K512 w).
Proof.
  intros Hw. apply (ciclo_foldl (fun k t s => giri_512 k t w s) un_giro_512 K512 w); try done.
  intros k t [a b c d e f g hh]. reflexivity.
Qed.

Lemma un_giro_512_eq s kw : parole_w 64 (v_lista s) -> v_lista (un_giro_512 s kw) = giro V64 (v_lista s) kw.
Proof.
  intros Hs. destruct s as [a b c d e f g hh]. unfold v_lista, parole_w in *. cbn [va vb vc vd ve vf vg vh] in *.
  rewrite !Forall_cons in Hs. destruct Hs as (Ha & Hb & Hc & Hd & He & Hf & Hg & Hh & _).
  cbn [un_giro_512 va vb vc vd ve vf vg vh giro]. unfold S0, S1, CH, MAJ. rewrite !rotr_eq by (lia || done).
  replace (Z.land (u64 (Z.lnot e)) g) with (Z.ldiff g e) by (symmetry; apply (nega_eq 64); (done || lia)).
  unfold somma_w. cbn [foldr app SHA2_64 v_S0 v_S1 Sigma]. unfold u64, Ch, Maj. change (2 ^ v_w _) with (W32 * W32).
  f_equal; [|do 4 f_equal]; rewrite ?Zplus_mod_idemp_l, ?Zplus_mod_idemp_r; f_equal; lia.
Qed.

Lemma foldl_un_giro_512 l : forall s, parole_w 64 (v_lista s) ->
  v_lista (foldl un_giro_512 s l) = foldl (giro V64) (v_lista s) l.
Proof.
  induction l as [|kw l IH]; intros s Hs; cbn [foldl]; [done|]. rewrite <- un_giro_512_eq by done. apply IH.
  rewrite un_giro_512_eq by done. apply (giro_range V64 V64_byte). done.
Qed.

Lemma blocco_eq h b : length h = 8%nat -> parole_w 64 h -> bytes b -> length b = 128%nat ->
  blocco h b = comprimi V64 h b.
Proof.
  intros Hl Hh Hb Hlb. unfold blocco.
  destruct (carica_512_eq b (replicate 80 0) Hb Hlb) as [Hcl Hct]; [done|].
  assert (HP : parole_w 64 (take 16 (carica_512 16 0 b (replicate 80 0)))) by (rewrite Hct; by apply (parole_be 8)).
  rewrite espandi_512_eq, Hct by done. set (W := orario V64 64 _).
  assert (HW : length W = 80%nat) by (unfold W, orario; rewrite length_accoda, length_fmap, length_pezzi; done).
  rewrite giri_512_fold by done. set (s0 := mkVars _ _ _ _ _ _ _ _).
  assert (Es : v_lista s0 = h) by (symmetry; by apply otto).
  pose proof (foldl_un_giro_512 (zip K512 W) s0 ltac:(by rewrite Es)) as Ef. rewrite Es in Ef.
  unfold comprimi. rewrite <- K512_eq. change (length K512 - 16)%nat with 64%nat. change (v_byte V64) with 8%nat.
  fold W. rewrite <- Ef. rewrite (otto h Hl) at 9. unfold v_lista. cbn [zip_with].
  unfold somma_w. cbn [foldr]. change (2 ^ v_w V64) with (W32 * W32). rewrite !Z.add_0_r. reflexivity.
Qed.

(** * SHA-384 and SHA-512 of a message *)


Abbreviation stato_64 h := (length h = 8%nat /\ parole_w 64 h).

Lemma comprimi_64_ok h b : stato_64 h -> stato_64 (comprimi V64 h b).
Proof. intros [Hl _]. split; [by rewrite length_comprimi|apply (comprimi_range V64 V64_byte)]. Qed.

Lemma assorbi_64_cons h b m : length b = 128%nat -> assorbi V64 h (b ++ m) = assorbi V64 (comprimi V64 h b) m.
Proof. intros Hb. rewrite (assorbi_app V64 V64_byte) by (by rewrite Hb). by rewrite (assorbi_blocco V64 V64_byte h b). Qed.

Lemma a_partire_val pre b post : length b = 128%nat ->
  a_partire (pre ++ b ++ post) (Z.of_nat (length pre)) = Val b.
Proof.
  intros Hb. unfold a_partire. rewrite (proj2 (Z.leb_le _ _)) by (rewrite !length_app; lia).
  by rewrite Nat2Z.id, drop_app_length, take_app_le, take_ge by lia.
Qed.

(** ** The whole blocks *)

Lemma interi_512_val n q : forall pre d e c k h, length d = (128 * q)%nat -> (length e < 128)%nat -> (q < k)%nat ->
  bytes d -> stato_64 h -> n = Z.of_nat (length pre + length d + length e) -> n < W32 - 128 ->
  interi_512 k h (pre ++ d ++ e ++ c) n (Z.of_nat (length pre))
  = Val (assorbi V64 h d, Z.of_nat (length pre + length d)).
Proof.
  induction q as [|q IH]; intros pre d e c [|k] h Hd He Hk Hb Hh Hn Hlt; try lia; cbn [interi_512].
  - destruct d; [|done]. cbn [length] in *. rewrite u32_small by lia. rewrite (proj2 (Z.leb_gt _ _)) by lia.
    rewrite assorbi_corto, Nat.add_0_r by (cbn; lia). done.
  - assert (exists b d', d = b ++ d' /\ length b = 128%nat) as (b & d' & -> & Hlb).
    { exists (take 128 d), (drop 128 d). rewrite take_drop, length_take. split; [done|lia]. }
    apply Forall_app in Hb as [Hbb Hbd]. rewrite length_app in Hd, Hn |- *.
    rewrite u32_small, (proj2 (Z.leb_le _ _)) by lia. rewrite <- app_assoc, a_partire_val by done. cbn [mbind esito_bind].
    rewrite assorbi_64_cons, blocco_eq by tauto.
    replace (Z.of_nat (length pre) + 128) with (Z.of_nat (length (pre ++ b))) by (rewrite length_app; lia).
    rewrite (app_assoc pre). rewrite IH; try done; [|lia|lia|by apply comprimi_64_ok|rewrite length_app; lia].
    do 3 f_equal. rewrite length_app. lia.
Qed.

(** Past 2^32 - 128 bytes the index wraps and the loop reads past the message. *)
Lemma interi_512_fuori m q : forall k h i, Z.of_nat (length m) < W32 -> W32 - 128 <= Z.of_nat (length m) ->
  i = W32 - 128 * (Z.of_nat q + 1) -> (q < k)%nat -> 0 <= i ->
  interi_512 k h m (Z.of_nat (length m)) i = Fuori.
Proof.
  induction q as [|q IH]; intros [|k] h i Hm Hm' Hi Hk H0; try lia; cbn [interi_512].
  - replace (u32 (i + 128)) with 0 by (rewrite Hi; reflexivity). rewrite (proj2 (Z.leb_le _ _)) by lia.
    unfold a_partire. by rewrite (proj2 (Z.leb_gt _ _)) by lia.
  - rewrite u32_small, (proj2 (Z.leb_le _ _)) by lia. unfold a_partire at 1.
    rewrite (proj2 (Z.leb_le _ _)) by lia. cbn [mbind esito_bind]. apply IH; lia.
Qed.

(** ** The tail *)

Lemma zeri_512_val t : (t mod 128 = 112)%nat -> forall k c l, (l <= t < length c)%nat -> (t - l < 128)%nat -> (t - l < k)%nat ->
  exists c', zeri_512 k c l = Val (c', t) /\ length c' = length c /\ take t c' = take l c ++ replicate (t - l) 0.
Proof.
  intros Ht. induction k as [|k IH]; intros c l Hl Hlt Hk; [lia|]. cbn [zeri_512].
  destruct (Nat.eqb_spec (l mod 128) 112) as [E|E]; cbn [negb].
  - assert (l = t) as -> by (pose proof (Nat.div_mod l 128); pose proof (Nat.div_mod t 128); lia).
    exists c. rewrite Nat.sub_diag, app_nil_r. done.
  - rewrite scrivi_val by lia. cbn [mbind esito_bind]. assert (l <> t) by congruence.
    destruct (IH (<[l := 0]> c) (S l)) as (c' & E' & Hc & Htk); rewrite ?length_insert; [lia..|].
    rewrite length_insert in Hc. exists c'. split; [done|]. split; [done|].
    rewrite Htk, take_scritto, <- app_assoc by lia. replace (t - l)%nat with (S (t - S l)) by lia. done.
Qed.

Lemma otto_zeri_val : forall k c l, (l + k <= length c)%nat ->
  exists c', otto_zeri k c l = Val (c', (l + k)%nat) /\ length c' = length c /\ take (l + k) c' = take l c ++ replicate k 0.
Proof.
  induction k as [|k IH]; intros c l Hl; cbn [otto_zeri].
  - exists c. rewrite Nat.add_0_r, app_nil_r. done.
  - rewrite scrivi_val by lia. cbn [mbind esito_bind].
    destruct (IH (<[l := 0]> c) (S l)) as (c' & E & Hc & Ht); [rewrite length_insert; lia|]. rewrite length_insert in Hc.
    exists c'. rewrite <- Nat.add_succ_comm. split; [done|]. split; [done|]. rewrite Ht, take_scritto, <- app_assoc by lia. done.
Qed.

Lemma otto_bit_val bit : forall k i c l, (i + k = 8)%nat -> (l + k <= length c)%nat ->
  exists c', otto_bit k i bit c l = Val (c', (l + k)%nat) /\ length c' = length c /\ take (l + k) c' = take l c ++ be_bytes k bit.
Proof.
  induction k as [|k IH]; intros i c l Hi Hl; cbn [otto_bit].
  - exists c. rewrite Nat.add_0_r, app_nil_r. done.
  - rewrite scrivi_val by lia. cbn [mbind esito_bind]. set (x := _ mod 256).
    destruct (IH (S i) (<[l := x]> c) (S l)) as (c' & E & Hc & Ht); [lia|rewrite length_insert; lia|]. rewrite length_insert in Hc.
    exists c'. rewrite <- Nat.add_succ_comm. split; [done|]. split; [done|]. rewrite Ht, take_scritto, <- app_assoc by lia.
    cbn [app be_bytes]. do 2 f_equal. unfold x. rewrite Z.shiftr_div_pow2, B_2 by lia. do 3 f_equal. lia.
Qed.

Lemma ultimi_512_val q : forall pre d post k h len, length d = (128 * q)%nat -> (q < k)%nat -> bytes d -> stato_64 h ->
  len = Z.of_nat (length pre + length d) -> len < W32 ->
  ultimi_512 k h (pre ++ d ++ post) len (Z.of_nat (length pre)) = Val (assorbi V64 h d).
Proof.
  induction q as [|q IH]; intros pre d post [|k] h len Hd Hk Hb Hh Hlen Hlt; try lia; cbn [ultimi_512].
  - destruct d; [|done]. cbn [length] in *. rewrite (proj2 (Z.ltb_ge _ _)) by lia. by rewrite assorbi_corto by (cbn; lia).
  - assert (exists b d', d = b ++ d' /\ length b = 128%nat) as (b & d' & -> & Hlb).
    { exists (take 128 d), (drop 128 d). rewrite take_drop, length_take. split; [done|lia]. }
    apply Forall_app in Hb as [Hbb Hbd]. rewrite length_app in Hd, Hlen.
    rewrite (proj2 (Z.ltb_lt _ _)) by lia. rewrite <- app_assoc, a_partire_val by done. cbn [mbind esito_bind].
    rewrite assorbi_64_cons, blocco_eq by tauto. rewrite u32_small by lia.
    replace (Z.of_nat (length pre) + 128) with (Z.of_nat (length (pre ++ b))) by (rewrite length_app; lia).
    rewrite (app_assoc pre). apply IH; try done; [lia|lia|by apply comprimi_64_ok|rewrite length_app; lia].
Qed.

(** ** The bytes of the digest *)

Lemma nth_be_bytes k x : forall j, (j < k)%nat -> nth j (be_bytes k x) 0 = x / 256 ^ Z.of_nat (k - 1 - j) mod 256.
Proof.
  induction k as [|k IH]; intros [|j] Hj; try lia; cbn [be_bytes nth].
  - do 3 f_equal. lia.
  - rewrite IH by lia. do 4 f_equal. lia.
Qed.

Lemma nth_mjoin_be h : forall k, (k < 8 * length h)%nat ->
  nth k (mjoin (be_bytes 8 <$> h)) 0 = Z.shiftr (parola h (k / 8)) (56 - 8 * Z.of_nat (k mod 8)) mod 256.
Proof.
  induction h as [|x h IH]; intros k Hk; cbn [length] in Hk; [lia|].
  change (mjoin (be_bytes 8 <$> x :: h)) with (be_bytes 8 x ++ mjoin (be_bytes 8 <$> h)).
  destruct (Nat.lt_ge_cases k 8) as [H8|H8].
  - rewrite app_nth1 by (by rewrite length_be_bytes). rewrite nth_be_bytes by done.
    rewrite Nat.div_small, Nat.mod_small by done. unfold parola. cbn [nth].
    rewrite Z.shiftr_div_pow2, B_2 by lia. do 3 f_equal. lia.
  - rewrite app_nth2, length_be_bytes, IH by (rewrite ?length_be_bytes; lia).
    assert (E : k = (k - 8 + 1 * 8)%nat) by lia. rewrite E at 3 4. rewrite Nat.div_add, Nat.Div0.mod_add by done.
    rewrite Nat.add_1_r. done.
Qed.

Lemma fuori_512_val h q out : length h = 8%nat -> (q <= 64)%nat -> forall n k, (n + k = 64)%nat -> length out = q ->
  take (k `min` q) out = take (k `min` q) (mjoin (be_bytes 8 <$> h)) ->
  fuori_512 n k h q out = Val (take q (mjoin (be_bytes 8 <$> h))).
Proof.
  intros Hh Hq n. revert out. induction n as [|n IH]; intros out k Hn Ho Ht; cbn [fuori_512].
  - rewrite Nat.min_r in Ht by lia. by rewrite take_ge in Ht by lia; rewrite Ht.
  - destruct (Nat.ltb_spec k q).
    + rewrite scrivi_val by lia. cbn [mbind esito_bind]. apply IH; [lia|by rewrite length_insert|].
      rewrite Nat.min_l in Ht |- * by lia. rewrite take_scritto, Ht, <- nth_mjoin_be by lia.
      assert (Hl : (k < length (mjoin (be_bytes 8 <$> h)))%nat).
      { do 8 (destruct h as [|? h]; [done|]). destruct h; [|done]. cbn. lia. }
      rewrite (take_S_r _ k (nth k (mjoin (be_bytes 8 <$> h)) 0)); [done|]. destruct (nth_lookup_or_length (mjoin (be_bytes 8 <$> h)) k 0); [done|lia].
    + cbn [mbind esito_bind]. apply IH; [lia|done|]. rewrite Nat.min_r in Ht |- * by lia. done.
Qed.

(** ** The padding *)

Lemma be_bytes_16 n : 0 <= n < W32 -> be_bytes 16 (8 * n) = replicate 8 0 ++ be_bytes 8 (u64 (n * 8)).
Proof.
  intros Hn. unfold u64. rewrite (Z.mul_comm n), Z.mod_small by (unfold W32 in *; lia).
  apply be_inj; [apply be_bytes_range|apply Forall_app; split; [apply bytes_zeri|apply be_bytes_range]|done|].
  rewrite be_be_bytes. change (replicate 8 0 ++ be_bytes 8 (8 * n)) with (0 :: 0 :: 0 :: 0 :: 0 :: 0 :: 0 :: 0 :: be_bytes 8 (8 * n)).
  cbn [be]. rewrite be_be_bytes. rewrite !Z.mod_small; [lia| |]; unfold W32 in *; cbn; lia.
Qed.

Lemma riempimento_512 (m1 m2 : list Z) : (length m1 mod 128 = 0)%nat -> (length m2 < 128)%nat ->
  Z.of_nat (length (m1 ++ m2)) < W32 ->
  riempimento V64 (Z.of_nat (length (m1 ++ m2)))
  = 128 :: replicate ((if (length m2 <? 112)%nat then 112 else 240) - S (length m2)) 0
        ++ replicate 8 0 ++ be_bytes 8 (u64 (Z.of_nat (length (m1 ++ m2)) * 8)).
Proof.
  intros Hm1 Hm2 Hlt. unfold riempimento. change (v_L V64) with 16%nat. change (Z.of_nat (v_B V64)) with 128.
  rewrite <- be_bytes_16 by lia. do 3 f_equal.
  apply Nat2Z.inj. rewrite Z2Nat.id by (apply Z.mod_pos_bound; lia). rewrite length_app, Nat2Z.inj_add.
  pose proof (Nat.div_mod (length m1) 128 ltac:(lia)) as E. rewrite Hm1 in E. rewrite E. clear E Hm1 Hlt.
  destruct (Nat.ltb_spec (length m2) 112); zdm.
Qed.

(** What [sha512_con] leaves in [coda]: the rest of the message and its padding. *)
Lemma coda_512 c0 e c bit : length c0 = 256%nat -> (length e < 128)%nat ->
  let t := if (length e <? 112)%nat then 112%nat else 240%nat in
  exists c1 c2 c3 c4,
    copia (length e) 0 c0 (e ++ c) = Val (c1, c) /\ length c1 = 256%nat /\
    zeri_512 128 (<[length e := 128]> c1) (S (length e)) = Val (c2, t) /\
    otto_zeri 8 c2 t = Val (c3, (t + 8)%nat) /\ otto_bit 8 0 bit c3 (t + 8) = Val (c4, (t + 16)%nat) /\ length c4 = 256%nat /\
    take (t + 16) c4 = e ++ 128 :: replicate (t - S (length e)) 0 ++ replicate 8 0 ++ be_bytes 8 bit.
Proof.
  intros Hc0 He t. destruct (copia_val e c 0 c0) as (c1 & E1 & Hl1 & Ht1); [lia|].
  change (take 0 c0) with (@nil Z) in Ht1. cbn [app Nat.add] in Ht1.
  assert (Ht : (t mod 128 = 112)%nat /\ (S (length e) <= t <= 240)%nat /\ (t - S (length e) < 128)%nat).
  { unfold t. destruct (Nat.ltb_spec (length e) 112); (split; [done|]); lia. }
  destruct Ht as (Htm & Htr & Htd).
  destruct (zeri_512_val t Htm 128 (<[length e := 128]> c1) (S (length e))) as (c2 & E2 & Hl2 & Ht2);
    rewrite ?length_insert in *; [lia..|]. rewrite take_scritto, Ht1 in Ht2 by lia.
  destruct (otto_zeri_val 8 c2 t) as (c3 & E3 & Hl3 & Ht3); [lia|]. rewrite Ht2 in Ht3.
  destruct (otto_bit_val bit 8 0 c3 (t + 8)) as (c4 & E4 & Hl4 & Ht4); [lia..|].
  replace (t + 8 + 8)%nat with (t + 16)%nat in E4, Ht4 by lia. rewrite Ht3 in Ht4.
  exists c1, c2, c3, c4. rewrite Ht4, <- !app_assoc. repeat split; (done || lia).
Qed.

(** ** The digest *)

Lemma sha512_con_val c0 h0 d c out q : length c0 = 256%nat -> stato_64 h0 -> bytes d -> length out = q -> (q <= 64)%nat ->
  Z.of_nat (length d) < W32 - 128 ->
  sha512_con c0 h0 (d ++ c) (Z.of_nat (length d)) out q = Val (digest V64 h0 q d).
Proof.
  intros Hc0 Hh Hb Ho Hq Hlt.
  assert (exists d1 e, d = d1 ++ e /\ length d1 = (128 * (length d / 128))%nat /\ (length e < 128)%nat) as (d1 & e & Ed & Hd1 & He).
  { exists (take (128 * (length d / 128)) d), (drop (128 * (length d / 128)) d). rewrite take_drop, length_take, length_drop.
    pose proof (Nat.div_mod (length d) 128). pose proof (Nat.mod_upper_bound (length d) 128). split; [done|]. lia. }
  set (q1 := (length d / 128)%nat) in *.
  assert (Ef : (Z.to_nat (Z.of_nat (length d) / 128) + 2 = q1 + 2)%nat)
    by (unfold q1; rewrite <- (Nat2Z.inj_div _ 128), Nat2Z.id; done).
  assert (Hm1 : (length d1 mod 128 = 0)%nat) by (by rewrite Hd1, Nat.mul_comm, Nat.Div0.mod_mul).
  clearbody q1. subst d. apply Forall_app in Hb as [Hb1 Hbe].
  unfold sha512_con. rewrite Ef, <- app_assoc.
  pose proof (interi_512_val (Z.of_nat (length (d1 ++ e))) q1 [] d1 e c (q1 + 2) h0 Hd1 He ltac:(lia) Hb1 Hh
                ltac:(by rewrite length_app) Hlt) as Ei.
  cbn [app length Nat.add] in Ei. change (Z.of_nat 0) with 0 in Ei. rewrite Ei. cbn [mbind esito_bind]. clear Ei.
  replace (u32 (Z.of_nat (length (d1 ++ e)) - Z.of_nat (length d1))) with (Z.of_nat (length e))
    by (rewrite length_app, u32_small; lia).
  replace (u32 (Z.of_nat (length (d1 ++ e)) - Z.of_nat (length e))) with (Z.of_nat (length d1))
    by (rewrite length_app in Hlt |- *; rewrite u32_small; lia).
  rewrite !Nat2Z.id, drop_app_length.
  destruct (coda_512 c0 e c (u64 (Z.of_nat (length (d1 ++ e)) * 8)) Hc0 He) as (c1 & c2 & c3 & c4 & E1 & Hl1 & E2 & E3 & E4 & Hl4 & Ht).
  rewrite E1. cbn [mbind esito_bind]. rewrite scrivi_val by lia. cbn [mbind esito_bind].
  rewrite E2. cbn [mbind esito_bind]. rewrite E3. cbn [mbind esito_bind]. rewrite E4. cbn [mbind esito_bind].
  pose proof (riempimento_512 d1 e Hm1 He ltac:(lia)) as Er. set (t := if (length e <? 112)%nat then 112%nat else 240%nat) in *.
  rewrite <- Er in Ht. set (fine := e ++ riempimento V64 (Z.of_nat (length (d1 ++ e)))) in *.
  assert (Hlf : length fine = (t + 16)%nat) by (rewrite <- Ht, length_take; unfold t; destruct (length e <? 112)%nat; lia).
  assert (Hok : stato_64 (assorbi V64 h0 d1)) by (apply (assorbi_ok V64 V64_byte); tauto).
  rewrite <- (take_drop (t + 16) c4), Ht.
  pose proof (ultimi_512_val (if (length e <? 112)%nat then 1 else 2) [] fine (drop (t + 16) c4) 3 (assorbi V64 h0 d1) (Z.of_nat (t + 16))) as Eu.
  cbn [app length] in Eu. change (Z.of_nat 0) with 0 in Eu. rewrite Eu; clear Eu; try done.
  - cbn [mbind esito_bind]. unfold digest, imbottito. rewrite <- app_assoc, (assorbi_app V64 V64_byte _ d1) by done. fold fine.
    apply fuori_512_val; try done. apply (assorbi_ok V64 V64_byte); tauto.
  - rewrite Hlf. unfold t. by destruct (length e <? 112)%nat.
  - destruct (length e <? 112)%nat; lia.
  - unfold fine, bytes. rewrite Er, Forall_app, Forall_cons, !Forall_app.
    split_and!; try done; [apply bytes_zeri|apply (bytes_zeri 8)|apply be_bytes_range].
  - rewrite Hlf. done.
  - unfold t, W32. destruct (length e <? 112)%nat; lia.
Qed.

Lemma sha512_con_fuori c0 h0 m out q : W32 - 128 <= Z.of_nat (length m) < W32 ->
  sha512_con c0 h0 m (Z.of_nat (length m)) out q = Fuori.
Proof.
  intros Hm. unfold sha512_con. assert (exists q1, Z.of_nat q1 = Z.of_nat (length m) / 128) as [q1 E1].
  { exists (length m / 128)%nat. apply (Nat2Z.inj_div _ 128). }
  assert (E2 : Z.of_nat (length m) / 128 = 33554431) by (unfold W32 in *; zdm). rewrite <- E1, Nat2Z.id in *.
  rewrite (interi_512_fuori m q1); [reflexivity|unfold W32 in *; lia..].
Qed.
