(* ===== verification/ShaThms.v ===== *)
(** * The digests: theorems

    The C library and the kernel compute SHA-256 as the standard defines it, the
    library in any number of pieces, and SHA-384 and SHA-512 hold up to 128 bytes
    short of 4 GB, where the index of the loop wraps. *)

From S2P Require Import Prelude Bytes Esito ShaSpec ShaBlocco Sha256.
From S2P Require Import Sha256Blocco Sha256Flusso Sha256K Sha512 Sha512Blocco.

(** A caller that has the message in pieces: each one is followed in memory by
    other bytes. *)
Fixpoint dai_tutti (s : Sha256) (l : list (list Z * list Z)) : esito Sha256 :=
  match l with
  | [] => Val s
  | (d, c) :: l => s ← sha256_dai s (d ++ c) (length d); dai_tutti s l
  end.

Lemma segue_dai_tutti l : forall s m, segue s m -> Forall (fun dc => bytes dc.1) l ->
  exists s', dai_tutti s l = Val s' /\ segue s' (m ++ mjoin (fst <$> l)).
Proof.
  induction l as [|[d c] l IH]; intros s m Hs Hl; cbn [dai_tutti].
  - exists s. by rewrite app_nil_r.
  - apply Forall_cons in Hl as [Hd Hl]. destruct (segue_dai s m d c Hs Hd) as (s1 & E & Hs1). rewrite E. cbn [mbind esito_bind].
    destruct (IH s1 (m ++ d) Hs1 Hl) as (s2 & E2 & Hs2). exists s2. split; [done|]. by rewrite <- app_assoc in Hs2.
Qed.

(** What the hexadecimal digits say. *)
Definition cifra (x : Z) : Z := if x <? 58 then x - 48 else x - 87.

Fixpoint da_cifre (l : list Z) : list Z :=
  match l with
  | x :: y :: l => cifra x * 16 + cifra y :: da_cifre l
  | _ => []
  end.

Lemma cifra_di x : 0 <= x < 16 -> cifra (parola sha_cifre (Z.to_nat x)) = x.
Proof.
  intros Hx. assert (H : forallb (fun n => cifra (parola sha_cifre n) =? Z.of_nat n) (seq 0 16) = true) by reflexivity.
  rewrite forallb_forall in H. specialize (H (Z.to_nat x) ltac:(apply in_seq; lia)). apply Z.eqb_eq in H. lia.
Qed.

Lemma da_in_cifre d : bytes d -> da_cifre (in_cifre d) = d.
Proof.
  unfold in_cifre. induction 1 as [|x d Hx _ IH]; [done|].
  change (mjoin _ ++ [0]) with (parola sha_cifre (Z.to_nat (Z.shiftr x 4)) :: parola sha_cifre (Z.to_nat (Z.land x 15)) ::
    mjoin ((fun x => [parola sha_cifre (Z.to_nat (Z.shiftr x 4)); parola sha_cifre (Z.to_nat (Z.land x 15))]) <$> d) ++ [0]).
  cbn [da_cifre]. rewrite IH. f_equal. change 15 with (Z.ones 4). rewrite Z.land_ones, Z.shiftr_div_pow2 by lia.
  change (2 ^ 4) with 16. rewrite !cifra_di by zdm. zdm.
Qed.

Lemma sha256_val s d c : length (s_resto s) = 64%nat -> bytes d -> Sha256.sha256 s (d ++ c) (length d) = Val (SHA256 d).
Proof.
  intros Hr Hd. unfold Sha256.sha256. destruct (segue_dai (sha256_avvia s) [] d c (segue_avvia s Hr) Hd) as (s1 & E & Hs1).
  rewrite E. cbn [mbind esito_bind]. destruct (segue_fine s1 _ Hs1) as (s2 & E2). by rewrite E2.
Qed.

Lemma SHA256_ok m : length (SHA256 m) = 32%nat /\ bytes (SHA256 m).
Proof. apply (digest_length V V_byte); [apply H0_ok|apply H0_ok|cbn; lia]. Qed.

(** C23: The digest of a message delivered in pieces is the SHA-256 of the whole:
    from [sha256_avvia], whatever the memory holds, each [sha256_dai] reads only its
    own piece and writes only the block of the state, every call returns, and
    [sha256_fine] gives the digest of FIPS 180-4 of the pieces one after the other,
    with no condition on their number or sizes; [sha256_fine_esa] gives its
    hexadecimal digits and a final zero, from which it is read back. *)
Theorem sha256_pezzi_correct s l :
  length (s_resto s) = 64%nat -> Forall (fun dc => bytes dc.1) l ->
  exists s1 s2, dai_tutti (sha256_avvia s) l = Val s1 /\
    sha256_fine s1 = Val (s2, SHA256 (mjoin (fst <$> l))) /\
    exists esa, sha256_fine_esa s1 = Val (s2, esa) /\ length esa = 65%nat /\
      da_cifre esa = SHA256 (mjoin (fst <$> l)).
Proof.
  intros Hr Hl. destruct (segue_dai_tutti l _ [] (segue_avvia s Hr) Hl) as (s1 & E1 & Hs1). cbn [app] in Hs1.
  destruct (segue_fine s1 _ Hs1) as (s2 & E2). exists s1, s2. split; [done|]. split; [done|].
  destruct (SHA256_ok (mjoin (fst <$> l))) as [Hlen Hb]. unfold sha256_fine_esa. rewrite E2. eexists. split; [reflexivity|].
  split; [|by apply da_in_cifre]. unfold in_cifre. rewrite length_app. generalize dependent (SHA256 (mjoin (fst <$> l))).
  intros d _ Hd _. do 32 (destruct d as [|? d]; [done|]). by destruct d.
Qed.

Lemma sha256_pezzi_correct_witness :
  let l := [([97], [1; 2]); ([], []); ([98; 99], [])] in
  let s := mkSha [] (replicate 64 7) 3 9 in
  exists s1 s2, dai_tutti (sha256_avvia s) l = Val s1 /\ sha256_fine s1 = Val (s2, SHA256 [97; 98; 99]) /\
    exists esa, sha256_fine_esa s1 = Val (s2, esa) /\ length esa = 65%nat /\ da_cifre esa = SHA256 [97; 98; 99].
Proof.
  apply (sha256_pezzi_correct (mkSha [] (replicate 64 7) 3 9) [([97], [1; 2]); ([], []); ([98; 99], [])]); [reflexivity|].
  repeat (apply Forall_cons; split); cbn [fst]; repeat (apply Forall_cons; split); try constructor; lia.
Defined.

(** The two copies agree: on any message of less than 4 GB the SHA-256 of the
    kernel, on 32 and on 64 bits ([(size_t)-1] at least 2^32 - 1), and the one of
    the C library return, read nothing past the message, and both give the digest
    of FIPS 180-4; the digits of the kernel are those of the library. *)
Theorem sha256_kernel_agrees size_max b0 s d c :
  W32 - 1 <= size_max -> length b0 = 64%nat -> length (s_resto s) = 64%nat ->
  bytes d -> Z.of_nat (length d) < W32 ->
  ksha256 size_max b0 (d ++ c) (Z.of_nat (length d)) = Val (SHA256 d) /\
  Sha256.sha256 s (d ++ c) (length d) = Val (SHA256 d) /\
  ksha256_esa size_max b0 (d ++ c) (Z.of_nat (length d)) = Sha256.sha256_esa s (d ++ c) (length d).
Proof.
  intros Hm Hb0 Hr Hd Hlen. pose proof (ksha256_val size_max Hm b0 d c Hd Hb0 Hlen) as Ek. split; [done|].
  split; [by apply sha256_val|]. unfold ksha256_esa. rewrite Ek. cbn [mbind esito_bind]. unfold sha256_esa, sha256_fine_esa.
  destruct (segue_dai (sha256_avvia s) [] d c (segue_avvia s Hr) Hd) as (s1 & E & Hs1). rewrite E. cbn [mbind esito_bind].
  destruct (segue_fine s1 _ Hs1) as (s2 & E2). by rewrite E2.
Qed.

Lemma sha256_kernel_agrees_witness :
  ksha256 (W32 - 1) (replicate 64 0) [97; 98; 99; 1] 3 = Val (SHA256 [97; 98; 99]) /\
  Sha256.sha256 (mkSha [] (replicate 64 5) 0 0) [97; 98; 99; 1] 3 = Val (SHA256 [97; 98; 99]) /\
  ksha256_esa (W32 - 1) (replicate 64 0) [97; 98; 99; 1] 3 = Sha256.sha256_esa (mkSha [] (replicate 64 5) 0 0) [97; 98; 99; 1] 3.
Proof.
  apply (sha256_kernel_agrees (W32 - 1) (replicate 64 0) (mkSha [] (replicate 64 5) 0 0) [97; 98; 99] [1]);
    [lia|reflexivity|reflexivity|repeat (apply Forall_cons; split); try constructor; lia|reflexivity].
Defined.

Lemma H0_64_ok : stato_64 H0_384 /\ stato_64 H0_512.
Proof.
  assert (P : forall l, forallb (fun x => (0 <=? x) && (x <? 2 ^ 64)) l = true -> parole_w 64 l).
  { intros l E. apply Forall_forall. intros x Hx. rewrite forallb_forall in E.
    specialize (E x (proj1 (list_elem_of_In _ _) Hx)). lia. }
  split; (split; [vm_compute; reflexivity|apply P; vm_compute; reflexivity]).
Qed.

Lemma sha384_H0_eq : sha384_H0 = H0_384.
Proof. vm_compute. reflexivity. Qed.

Lemma sha512_H0_eq : sha512_H0 = H0_512.
Proof. vm_compute. reflexivity. Qed.

(** C34: [sha384] and [sha512] of a message of less than 2^32 - 128 bytes return, read
    nothing past the message, write nothing past the 256 bytes of [coda], and give
    the digests of FIPS 180-4; from 2^32 - 128 bytes on, the index of the loop over
    the blocks wraps to zero before the bound is checked and the next block is read
    past the end of the message. *)
Theorem sha512_correct coda out384 out512 d c :
  length coda = 256%nat -> length out384 = 48%nat -> length out512 = 64%nat -> bytes d ->
  (Z.of_nat (length d) < W32 - 128 ->
     sha384 coda (d ++ c) (Z.of_nat (length d)) out384 = Val (SHA384 d) /\
     Sha512.sha512 coda (d ++ c) (Z.of_nat (length d)) out512 = Val (SHA512 d)) /\
  (W32 - 128 <= Z.of_nat (length d) < W32 ->
     sha384 coda d (Z.of_nat (length d)) out384 = Fuori /\
     Sha512.sha512 coda d (Z.of_nat (length d)) out512 = Fuori).
Proof.
  intros Hc H384 H512 Hd. destruct H0_64_ok as [O384 O512]. unfold sha384, Sha512.sha512.
  rewrite sha384_H0_eq, sha512_H0_eq. split.
  - intros Hlt. split; (apply sha512_con_val; [exact Hc|assumption|exact Hd|assumption|lia|exact Hlt]).
  - intros Hlt. split; apply sha512_con_fuori; exact Hlt.
Qed.

Lemma sha512_correct_witness :
  sha384 (replicate 256 1) [97; 98; 99; 1] 3 (replicate 48 0) = Val (SHA384 [97; 98; 99]) /\
  Sha512.sha512 (replicate 256 1) [97; 98; 99; 1] 3 (replicate 64 0) = Val (SHA512 [97; 98; 99]).
Proof.
  apply (sha512_correct (replicate 256 1) (replicate 48 0) (replicate 64 0) [97; 98; 99] [1]); try reflexivity.
  repeat (apply Forall_cons; split); try constructor; lia.
Defined.

(** The specification on the example of the standard, the string "abc". *)
Example sha_abc :
  be (SHA256 [97; 98; 99]) = 0xba7816bf8f01cfea414140de5dae2223b00361a396177a9cb410ff61f20015ad /\
  be (SHA384 [97; 98; 99]) = 0xcb00753f45a35e8bb5a03d699ac65007272c32ab0eded1631a8b605a43ff5bed8086072ba1e7cc2358baeca134c825a7 /\
  be (SHA512 [97; 98; 99])
  = 0xddaf35a193617abacc417349ae20413112e6fa4e89a97ea20a9eeee64b55d39a2192992a274fc1a836ba3c23a3feebbd454d4423643ce80e2a9ac94fa54ca49f.
Proof. vm_compute. done. Qed.
