(* ===== verification/ExcertSha.v ===== *)
(** * The digests that the certificate checks call

    The interface of Excert.v is implemented by the digests of this development:
    the caller passes buffers of bytes, so the models are applied to the values
    modulo 256, and a call that leaves its buffers, which the bound on the
    message excludes, would have no result. *)

From S2P Require Import Prelude Bytes Esito ShaSpec ShaBlocco Sha256 Sha256Flusso Sha512 ShaThms Excert Sha512Blocco.

Definition risultato (n : nat) (m : esito (list Z)) : list Z := match m with Val d => d | _ => replicate n 0 end.

Definition in_byte (l : list Z) : list Z := (fun x => x mod 256) <$> l.

(** The curves are those of [excurva_verifica], which is not modelled. *)
Definition crypto_exos (curva : Z -> list Z -> list Z -> list Z -> list Z -> bool) : Crypto := {|
  Excert.sha256 := fun l => risultato 32 (Sha256.sha256 (mkSha [] (replicate 64 0) 0 0) (in_byte l) (length l));
  Excert.sha384 := fun l => risultato 48 (Sha512.sha384 (replicate 256 0) (in_byte l) (Z.of_nat (length l)) (replicate 48 0));
  Excert.sha512 := fun l => risultato 64 (Sha512.sha512 (replicate 256 0) (in_byte l) (Z.of_nat (length l)) (replicate 64 0));
  Excert.excurva_verifica := curva
|}.

Lemma in_byte_bytes l : bytes (in_byte l).
Proof. apply Forall_fmap. apply Forall_true. intros x. cbn. apply Z.mod_pos_bound. lia. Qed.

Lemma in_byte_id l : bytes l -> in_byte l = l.
Proof. induction 1 as [|x l Hx _ IH]; [done|]. cbn. rewrite Z.mod_small by lia. f_equal. exact IH. Qed.

Lemma SHA384_ok m : length (SHA384 m) = 48%nat /\ bytes (SHA384 m).
Proof. destruct H0_64_ok as [[H1 H2] _]. apply (digest_length SHA2_64); [cbn; lia|exact H1|exact H2|cbn; lia]. Qed.

Lemma SHA512_ok m : length (SHA512 m) = 64%nat /\ bytes (SHA512 m).
Proof. destruct H0_64_ok as [_ [H1 H2]]. apply (digest_length SHA2_64); [cbn; lia|exact H1|exact H2|cbn; lia]. Qed.

(** The results of the models in terms of the standard, for every length. *)
Lemma sha256_esito l : Sha256.sha256 (mkSha [] (replicate 64 0) 0 0) (in_byte l) (length l) = Val (SHA256 (in_byte l)).
Proof.
  pose proof (sha256_val (mkSha [] (replicate 64 0) 0 0) (in_byte l) [] ltac:(reflexivity) (in_byte_bytes l)) as E.
  rewrite app_nil_r in E. unfold in_byte at 2 in E. rewrite length_fmap in E. exact E.
Qed.

Lemma sha512_con_esito h0 out q l : stato_64 h0 -> length out = q -> (q <= 64)%nat -> Z.of_nat (length l) < W32 - 128 ->
  sha512_con (replicate 256 0) h0 (in_byte l) (Z.of_nat (length l)) out q = Val (digest SHA2_64 h0 q (in_byte l)).
Proof.
  intros Hh Ho Hq Hl. assert (E : length (in_byte l) = length l) by apply length_fmap. rewrite <- E in Hl |- *.
  rewrite <- (app_nil_r (in_byte l)) at 1.
  apply sha512_con_val; [reflexivity|exact Hh|apply in_byte_bytes|exact Ho|exact Hq|exact Hl].
Qed.

(** A result, when there is one, has the size of the digest. *)
Lemma fuori_512_ok h q : forall n k out r, fuori_512 n k h q out = Val r -> bytes out -> length r = length out /\ bytes r.
Proof.
  induction n as [|n IH]; intros k out r E Hb; cbn [fuori_512] in E; [by injection E as <-|].
  destruct (k <? q)%nat; cbn [mbind esito_bind] in E; [|by apply (IH (S k) out)].
  unfold scrivi in E. destruct (k <? length out)%nat; [|done]. cbn [mbind esito_bind] in E.
  destruct (IH _ _ _ E) as [Hl Hr]; [|by rewrite length_insert in Hl].
  apply Forall_insert; [done|]. apply Z.mod_pos_bound. lia.
Qed.

Lemma sha512_con_size c h0 m n out q r : sha512_con c h0 m n out q = Val r -> bytes out -> length r = length out /\ bytes r.
Proof.
  unfold sha512_con. intros E Hb. destruct (interi_512 _ _ _ _ _) as [[h i]| | |]; try done. cbn [mbind esito_bind] in E.
  destruct (copia _ _ _ _) as [[c1 p1]| | |]; try done. cbn [mbind esito_bind] in E.
  destruct (scrivi _ _ _) as [c2| | |]; try done. cbn [mbind esito_bind] in E.
  destruct (zeri_512 _ _ _) as [[c3 l3]| | |]; try done. cbn [mbind esito_bind] in E.
  destruct (otto_zeri _ _ _) as [[c4 l4]| | |]; try done. cbn [mbind esito_bind] in E.
  destruct (otto_bit _ _ _ _ _) as [[c5 l5]| | |]; try done. cbn [mbind esito_bind] in E.
  destruct (ultimi_512 _ _ _ _ _) as [h6| | |]; try done. cbn [mbind esito_bind] in E.
  exact (fuori_512_ok _ _ _ _ _ _ E Hb).
Qed.

Lemma risultato_ok n m : (forall d, m = Val d -> length d = n /\ bytes d) -> length (risultato n m) = n /\ bytes (risultato n m).
Proof.
  intros H. destruct m as [d| | |]; cbn; [by apply H|..]; rewrite length_replicate; (split; [done|apply bytes_zeri]).
Qed.

#[export] Instance crypto_exos_ok curva : @CryptoOk (crypto_exos curva).
Proof.
  split; intros l; cbn [Excert.sha256 Excert.sha384 Excert.sha512 crypto_exos].
  - rewrite sha256_esito. apply SHA256_ok.
  - apply risultato_ok. intros d E. apply (sha512_con_size _ _ _ _ (replicate 48 0) _ _ E). apply (bytes_zeri 48).
  - apply risultato_ok. intros d E. apply (sha512_con_size _ _ _ _ (replicate 64 0) _ _ E). apply (bytes_zeri 64).
Qed.

(** On the signed part of a certificate these are the digests of the standard. *)
Theorem crypto_exos_fips curva l : bytes l -> Z.of_nat (length l) < W32 - 128 ->
  @Excert.sha256 (crypto_exos curva) l = SHA256 l /\ @Excert.sha384 (crypto_exos curva) l = SHA384 l /\
  @Excert.sha512 (crypto_exos curva) l = SHA512 l.
Proof.
  intros Hb Hl. destruct H0_64_ok as [O384 O512]. cbn [Excert.sha256 Excert.sha384 Excert.sha512 crypto_exos].
  rewrite sha256_esito. unfold Sha512.sha384, Sha512.sha512. rewrite sha384_H0_eq, sha512_H0_eq.
  rewrite !sha512_con_esito by (assumption || reflexivity || lia). rewrite in_byte_id by exact Hb. repeat split.
Qed.
