(* ===== verification/Su.v ===== *)
(** * Becoming root with a password (kernel/syscall/syscall_impl.c, [sys_su])

    A character is its byte.  The files are what the read of each gives, [None]
    when it does not open (a read error gives no bytes).  The arrays on the stack
    are lists, not initialised: they are arguments, and a write or a read outside
    them is [Fuori].  The user memory is a function from addresses to bytes that does
    not change during the call; past the end of the string that was checked the caller
    may have nothing mapped, so a read of it beyond the final zero is [Fuori] too.  The
    messages of [klog] are not modelled.  The address space is the 32 bit one. *)

From S2P Require Import Prelude Esito Sha256 Sha256K.

Definition EFAULT : Z := 14.

(** ** Strings of the caller *)

Definition syscall_verify_ptr (ptr size : Z) : bool :=
  if ptr =? 0 then false
  else if ptr <? 0x1000 then false
  else if USER_SPACE_END <=? ptr then false
  else if u32 (ptr + size) <? ptr then false
  else if USER_SPACE_END <? u32 (ptr + size) then false
  else true.

(** The loop of [syscall_verify_str] from [i], [k] turns left. *)
Fixpoint verify_loop (k : nat) (i : Z) (mem : Z -> Z) (str : Z) : bool :=
  match k with
  | O => false
  | S k =>
      if USER_SPACE_END <=? u32 (str + i) then false
      else if mem (u32 (str + i)) =? 0 then true
      else verify_loop k (i + 1) mem str
  end.

Definition syscall_verify_str (mem : Z -> Z) (str max_len : Z) : bool :=
  if negb (syscall_verify_ptr str 1) then false else verify_loop (Z.to_nat max_len) 0 mem str.

(** A string read by index: [nome[k]], up to its final zero. *)
Definition dal_chiamante (mem : Z -> Z) (str : Z) (k : nat) : esito Z :=
  if existsb (fun j => mem (u32 (str + Z.of_nat j)) =? 0) (seq 0 k) then Fuori
  else Val (mem (u32 (str + Z.of_nat k))).
Definition dal_vettore (a : list Z) (k : nat) : esito Z := if (k <? length a)%nat then Val (nth k a 0) else Fuori.

(** ** The files *)

Definition SU_FILE_MAX : nat := Z.to_nat 8192.

Record Archivio : Type := mkA {
  f_utenti : option (list Z); f_ombra : option (list Z); f_amministratori : option (list Z)
}.

(** [while ( *s >= '0' && *s <= '9') v = v * 10 + ...]: at most as many turns as the
    array that holds the string. *)
Fixpoint su_numero_loop (k : nat) (s : list Z) (i : nat) (v : Z) : esito Z :=
  match k with
  | O => Stanco
  | S k =>
      c ← dal_vettore s i;
      if (48 <=? c) && (c <=? 57) then su_numero_loop k s (S i) (u32 (v * 10 + (c - 48))) else Val v
  end.

Definition su_numero (s : list Z) : esito Z := su_numero_loop (S (length s)) s 0 0.

(** [None] is the -1 of a file that does not open. *)
Definition su_leggi (f : option (list Z)) (max : nat) : option (list Z) := take (max - 1) <$> f.

(** The line up to the newline, and what follows it:
    [while (i < n && testo[i] != '\n') i++; if (i < n) i++;] *)
Fixpoint prendi_riga (t : list Z) : list Z * list Z :=
  match t with
  | [] => ([], [])
  | x :: t => if x =? 10 then ([], t) else let '(r, t') := prendi_riga t in (x :: r, t')
  end.

(** [for (k = 0; k < l && nc < 3; k++) if (testo[p + k] == ':') c[nc++] = k;] *)
Fixpoint due_punti (r : list Z) (k : nat) (c : list nat) : list nat :=
  match r with
  | [] => c
  | x :: r => if (length c <? 3)%nat then due_punti r (S k) (if x =? 58 then c ++ [k] else c) else c
  end.

(** [for (k = 0; k < l && nome[k]; k++) if (testo[p + k] != nome[k]) break;] where
    [l] is the length of [r]: the index where it stops. *)
Fixpoint confronta (r : list Z) (nome : nat -> esito Z) (k : nat) : esito nat :=
  match r with
  | [] => Val k
  | x :: r =>
      c ← nome k;
      if c =? 0 then Val k else if negb (x =? c) then Val k else confronta r nome (S k)
  end.

(** [for (k = da; k < a && q + 1 < max; k++) out[q++] = testo[p + k];] *)
Fixpoint copia_campo (n : nat) (r : list Z) (out : list Z) (q max : nat) : esito (list Z * nat) :=
  match n with
  | O => Val (out, q)
  | S n =>
      if (q + 1 <? max)%nat
      then '(x, r) ← leggi r; out ← scrivi out q x; copia_campo n r out (S q) max
      else Val (out, q)
  end.

(** What [su_campo] does with a line that has the name. *)
Definition estrai (r : list Z) (c : list nat) (quale : nat) (out : list Z) (max : nat) : esito (list Z) :=
  let da := if (quale =? 0)%nat then 0%nat else S (nth (quale - 1) c 0%nat) in
  let a := if (quale =? 0)%nat then nth 0 c 0%nat
           else if (length c <=? quale)%nat then length r else nth quale c 0%nat in
  '(out, q) ← copia_campo (a - da) (drop da r) out 0 max;
  scrivi out q 0.

(** [while (i < n)], one turn per line. *)
Fixpoint su_campo_loop (k : nat) (t : list Z) (nome : nat -> esito Z) (quale : nat) (out : list Z) (max : nat)
  : esito (option (list Z)) :=
  match k with
  | O => Stanco
  | S k =>
      match t with
      | [] => Val None
      | _ =>
          let '(r, t) := prendi_riga t in
          if (length r =? 0)%nat || (nth 0 r 0 =? 35) then su_campo_loop k t nome quale out max
          else
            let c := due_punti r 0 [] in
            if (length c <? 2)%nat then su_campo_loop k t nome quale out max
            else
              j ← confronta (take (nth 0 c 0%nat) r) nome 0;
              fine ← (if negb (j =? nth 0 c 0%nat)%nat then Val 1 else nome j);
              if negb (fine =? 0) then su_campo_loop k t nome quale out max
              else out ← estrai r c quale out max; Val (Some out)
      end
  end.

(** [Some] is the return of 1, with the array written. *)
Definition su_campo (t : list Z) (nome : nat -> esito Z) (quale : nat) (out : list Z) (max : nat) : esito (option (list Z)) :=
  su_campo_loop (S (length t)) t nome quale out max.

(** [while (l > 0 && (testo[p + l - 1] == '\r' || ...)) l--;] *)
Fixpoint togli_coda (l : nat) (r : list Z) : nat :=
  match l with
  | O => O
  | S l' => if (nth l' r 0 =? 13) || (nth l' r 0 =? 32) then togli_coda l' r else l
  end.

Fixpoint amministratore_loop (k : nat) (t : list Z) (nome : nat -> esito Z) : esito bool :=
  match k with
  | O => Stanco
  | S k =>
      match t with
      | [] => Val false
      | _ =>
          let '(r, t) := prendi_riga t in
          let l := togli_coda (length r) r in
          if (l =? 0)%nat || (nth 0 r 0 =? 35) then amministratore_loop k t nome
          else
            j ← confronta (take l r) nome 0;
            fine ← (if negb (j =? l)%nat then Val 1 else nome j);
            if negb (fine =? 0) then amministratore_loop k t nome else Val true
      end
  end.

Definition su_amministratore (fs : Archivio) (nome : nat -> esito Z) : esito bool :=
  match su_leggi (f_amministratori fs) 1024 with
  | None | Some [] => Val false
  | Some t => amministratore_loop (S (length t)) t nome
  end.

(** ** The system call *)

(** [for (j = 0; s[j] && i < lim; j++) misto[i++] = s[j];] *)
Fixpoint aggiungi_str (k : nat) (s : nat -> esito Z) (j : nat) (misto : list Z) (i lim : nat) : esito (list Z * nat) :=
  match k with
  | O => Stanco
  | S k =>
      c ← s j;
      if negb (c =? 0) && (i <? lim)%nat
      then misto ← scrivi misto i c; aggiungi_str k s (S j) misto (S i) lim
      else Val (misto, i)
  end.

(** [for (j = 0; j < 64; j++) if (prova[j] != imp[j]) ...]: whether none differs. *)
Fixpoint uguali (k j : nat) (prova imp : list Z) : esito bool :=
  match k with
  | O => Val true
  | S k =>
      a ← dal_vettore prova j;
      b ← dal_vettore imp j;
      if negb (a =? b) then Val false else uguali k (S j) prova imp
  end.

Record Proc : Type := mkProc { p_uid : Z; p_gid : Z }.

(** The arrays on the stack of the call and of [sha256]. *)
Record Pila : Type := mkPila {
  l_sale : list Z; l_imp : list Z; l_misto : list Z; l_su : list Z; l_sg : list Z; l_blocco : list Z
}.

(** The check of the password: [Some uid] when it is right, with the field of the
    uid. *)
Definition su_password (mem : Z -> Z) (fs : Archivio) (l : Pila) (nome pass : Z) : esito (option Z) :=
  match su_leggi (f_utenti fs) SU_FILE_MAX with
  | None | Some [] => Val None
  | Some t =>
      o_su ← su_campo t (dal_chiamante mem nome) 1 (l_su l) 16;
      match o_su with
      | None => Val None
      | Some su_ =>
          o_sg ← su_campo t (dal_chiamante mem nome) 2 (l_sg l) 16;
          match o_sg, su_leggi (f_ombra fs) SU_FILE_MAX with
          | None, _ | _, None | _, Some [] => Val None
          | Some _, Some t =>
              o_sale ← su_campo t (dal_chiamante mem nome) 1 (l_sale l) 32;
              match o_sale with
              | None => Val None
              | Some sale =>
                  o_imp ← su_campo t (dal_chiamante mem nome) 2 (l_imp l) 80;
                  match o_imp with
                  | None => Val None
                  | Some imp =>
                      '(misto, i) ← aggiungi_str 161 (dal_vettore sale) 0 (l_misto l) 0 158;
                      misto ← scrivi misto i 58;
                      '(misto, i) ← aggiungi_str 161 (dal_chiamante mem pass) 0 misto (S i) 159;
                      misto ← scrivi misto i 0;
                      prova ← ksha256_esa (W32 - 1) (l_blocco l) misto (Z.of_nat i);
                      b ← uguali 64 0 prova imp;
                      if (b : bool) then uid ← su_numero su_; Val (Some uid) else Val None
                  end
              end
          end
      end
  end.

Definition sys_su (mem : Z -> Z) (fs : Archivio) (l : Pila) (self : option Proc) (nome pass : Z) : esito (Z * option Proc) :=
  match self with
  | None => Val (- ESRCH, None)
  | Some p =>
      if negb (syscall_verify_str mem nome 64) || negb (syscall_verify_str mem pass 128) then Val (- EFAULT, Some p)
      else
        o ← su_password mem fs l nome pass;
        match o with
        | None => Val (- EPERM, Some p)
        | Some uid =>
            a ← (if uid =? 0 then Val true else su_amministratore fs (dal_chiamante mem nome));
            if (a : bool) then Val (0, Some (mkProc 0 0)) else Val (- EPERM, Some p)
        end
  end.
