(* ===== verification/SuSpec.v ===== *)
(** * The account files and what [sys_su] should decide

    The files are lines, the lines fields separated by colons; an account is the
    first line with three fields or more that starts with the name. *)

From S2P Require Import Prelude Bytes Esito ShaSpec Sha256 Su.

(** ** Lines and fields *)

Fixpoint dividi (sep : Z) (l : list Z) : list (list Z) :=
  match l with
  | [] => [[]]
  | x :: l =>
      if x =? sep then [] :: dividi sep l
      else match dividi sep l with [] => [[x]] | f :: fs => (x :: f) :: fs end
  end.

Definition righe : list Z -> list (list Z) := dividi 10.
Definition campi : list Z -> list (list Z) := dividi 58.

(** A line that is not empty and is not a comment. *)
Definition attiva (r : list Z) : bool := match r with [] => false | x :: _ => negb (x =? 35) end.

Definition conto_riga (nome r : list Z) : bool :=
  attiva r && (3 <=? length (campi r))%nat && bool_decide (nth 0 (campi r) [] = nome).

(** The fields of the account. *)
Definition conto (t nome : list Z) : option (list (list Z)) := campi <$> List.find (conto_riga nome) (righe t).

(** Up to the first zero byte: what a C string has of an array. *)
Fixpoint fino_zero (l : list Z) : list Z :=
  match l with
  | [] => []
  | x :: l => if x =? 0 then [] else x :: fino_zero l
  end.

(** The number written by the leading digits, modulo 2^32. *)
Fixpoint numero (v : Z) (l : list Z) : Z :=
  match l with
  | [] => v
  | c :: l => if (48 <=? c) && (c <=? 57) then numero (u32 (v * 10 + (c - 48))) l else v
  end.

(** The line without the carriage returns and spaces at its end. *)
Definition rifilata (r : list Z) : list Z := take (togli_coda (length r) r) r.

Definition amministra (t nome : list Z) : bool :=
  existsb (fun r => attiva (rifilata r) && bool_decide (rifilata r = nome)) (righe t).

(** The 64 digits of the digest of [sale:pass]. *)
Definition impronta (sale pass : list Z) : list Z := take 64 (in_cifre (SHA256 (sale ++ 58 :: pass))).

(** The password is the one of the account. *)
Definition password_giusta (ombra nome pass : list Z) : bool :=
  match conto ombra nome with
  | None => false
  | Some f => bool_decide (take 64 (nth 2 f []) = impronta (fino_zero (take 31 (nth 1 f []))) pass)
  end.

Definition testo_di (f : option (list Z)) (max : nat) : list Z := default [] (su_leggi f max).

(** The account exists, the password is right, and the account is root's or an
    administrator's. *)
Definition su_accetta (fs : Archivio) (nome pass : list Z) : bool :=
  match conto (testo_di (f_utenti fs) SU_FILE_MAX) nome with
  | None => false
  | Some f =>
      password_giusta (testo_di (f_ombra fs) SU_FILE_MAX) nome pass &&
      ((numero 0 (take 15 (nth 1 f [])) =? 0) || amministra (testo_di (f_amministratori fs) 1024) nome)
  end.

(** ** Strings *)

(** [get] reads the string [s]. *)
Definition stringa (get : nat -> esito Z) (s : list Z) : Prop :=
  Forall (fun x => x <> 0) s /\ get (length s) = Val 0 /\ forall k, (k < length s)%nat -> get k = Val (nth k s 0).

Lemma stringa_unica get s s' : stringa get s -> stringa get s' -> s = s'.
Proof.
  intros (H & H0 & Hg) (H' & H0' & Hg').
  assert (Hl : forall a b : list Z, Forall (fun x => x <> 0) a -> get (length b) = Val 0 ->
                 (forall k, (k < length a)%nat -> get k = Val (nth k a 0)) -> (length a <= length b)%nat).
  { intros a b Ha Hb Hga. destruct (Nat.le_gt_cases (length a) (length b)) as [|Hlt]; [done|]. rewrite Hga in Hb by done.
    injection Hb as Hb. exfalso. apply (proj1 (List.Forall_forall _ a) Ha (nth (length b) a 0)); [by apply nth_In|done]. }
  apply nth_ext with (d := 0) (d' := 0); [apply Nat.le_antisymm; by apply Hl|].
  intros k Hk. assert (Hk' : (k < length s')%nat) by (pose proof (Hl s s' H H0' Hg); lia).
  pose proof (Hg k Hk) as E1. rewrite (Hg' k Hk') in E1. by injection E1.
Qed.

(** ** Splitting *)

Definition senza (sep : Z) (l : list Z) : Prop := Forall (fun x => x <> sep) l.

Lemma dividi_senza sep l : senza sep l -> dividi sep l = [l].
Proof.
  induction 1 as [|x l Hx _ IH]; [done|]. cbn [dividi]. rewrite (proj2 (Z.eqb_neq x sep) Hx), IH. done.
Qed.

Lemma dividi_app sep a b : senza sep a -> dividi sep (a ++ sep :: b) = a :: dividi sep b.
Proof.
  induction 1 as [|x a Hx _ IH]; cbn [app dividi]; [by rewrite Z.eqb_refl|]. rewrite (proj2 (Z.eqb_neq x sep) Hx), IH. done.
Qed.

Lemma spezza_o_no sep l : senza sep l \/ exists a b, l = a ++ sep :: b /\ senza sep a.
Proof.
  induction l as [|x l IH]; [left; constructor|]. destruct (Z.eq_dec x sep) as [->|Hx].
  - right. exists [], l. split; [done|constructor].
  - destruct IH as [H|(a & b & -> & Ha)]; [left; by constructor|]. right. exists (x :: a), b. split; [done|by constructor].
Qed.

(** ** The first line *)

Lemma prendi_riga_righe t : exists r t', prendi_riga t = (r, t') /\ senza 10 r /\ (length t' <= length t)%nat /\
  (t <> [] -> (length t' < length t)%nat) /\
  (righe t = r :: righe t' \/ (righe t = [r] /\ t' = [])).
Proof.
  induction t as [|x t IH]; cbn [prendi_riga].
  - exists [], []. repeat split; try done; [constructor|by right].
  - destruct (Z.eqb_spec x 10) as [->|Hx].
    + exists [], t. split; [done|]. split; [constructor|]. cbn [length]. split; [lia|]. split; [lia|]. by left.
    + destruct IH as (r & t' & -> & Hr & Hl & _ & Hs). exists (x :: r), t'. split; [done|]. split; [by constructor|].
      cbn [length]. split; [lia|]. split; [lia|]. unfold righe in *. cbn [dividi]. rewrite (proj2 (Z.eqb_neq x 10) Hx).
      destruct Hs as [->|[-> ->]]; [by left|by right].
Qed.

(** A search through the lines, with a function that ignores empty ones. *)
Lemma find_righe (P : list Z -> bool) t r t' : P [] = false -> prendi_riga t = (r, t') ->
  List.find P (righe t) = if P r then Some r else List.find P (righe t').
Proof.
  intros H0 E. destruct (prendi_riga_righe t) as (r2 & t2 & E2 & _ & _ & _ & Hs). rewrite E in E2. injection E2 as <- <-.
  destruct Hs as [->|[-> ->]]; cbn [List.find]; [done|]. destruct (P r); [done|]. cbn. by rewrite H0.
Qed.

Lemma existsb_righe (P : list Z -> bool) t r t' : P [] = false -> prendi_riga t = (r, t') ->
  existsb P (righe t) = P r || existsb P (righe t').
Proof.
  intros H0 E. destruct (prendi_riga_righe t) as (r2 & t2 & E2 & _ & _ & _ & Hs). rewrite E in E2. injection E2 as <- <-.
  destruct Hs as [->|[-> ->]]; cbn [existsb]; [done|]. cbn. rewrite H0. by rewrite !orb_false_r.
Qed.

(** ** The positions of the colons *)

Lemma due_punti_senza a : senza 58 a -> forall r k c, (length c < 3)%nat ->
  due_punti (a ++ r) k c = due_punti r (k + length a) c.
Proof.
  induction 1 as [|x a Hx _ IH]; intros r k c Hc; cbn [app length]; [by rewrite Nat.add_0_r|]. cbn [due_punti].
  rewrite (proj2 (Nat.ltb_lt _ 3) Hc), (proj2 (Z.eqb_neq x 58) Hx), IH by done. f_equal. lia.
Qed.

Lemma due_punti_colon r k c : (length c < 3)%nat -> due_punti (58 :: r) k c = due_punti r (S k) (c ++ [k]).
Proof. intros Hc. cbn [due_punti]. by rewrite (proj2 (Nat.ltb_lt _ 3) Hc). Qed.

Lemma due_punti_pieno r k c : length c = 3%nat -> due_punti r k c = c.
Proof. intros Hc. destruct r as [|x r]; [done|]. cbn [due_punti]. by rewrite Hc. Qed.

(** A line with fewer than two colons. *)
Lemma campi_pochi r : (length (campi r) < 3)%nat -> (length (due_punti r 0 []) < 2)%nat.
Proof.
  unfold campi. intros Hl. destruct (spezza_o_no 58 r) as [H|(a & b & -> & Ha)].
  - rewrite <- (app_nil_r r), due_punti_senza by (done || cbn; lia). cbn. lia.
  - rewrite dividi_app in Hl by done. cbn [length] in Hl. rewrite due_punti_senza, due_punti_colon by (done || cbn; lia).
    destruct (spezza_o_no 58 b) as [H|(a2 & b2 & -> & Ha2)].
    + rewrite <- (app_nil_r b), due_punti_senza by (done || cbn; lia). cbn. lia.
    + rewrite dividi_app in Hl by done. cbn [length] in Hl. destruct (dividi 58 b2) eqn:E; [|cbn [length] in Hl; lia].
      destruct b2; cbn in E; [done|]. destruct (_ =? _); [done|]. by destruct (dividi 58 b2).
Qed.

(** A line with two colons or more: the fields and where they are. *)
Lemma campi_tre r : (3 <= length (campi r))%nat ->
  exists f0 f1 f2 resto, r = f0 ++ 58 :: f1 ++ 58 :: f2 ++ resto /\
    nth 0 (campi r) [] = f0 /\ nth 1 (campi r) [] = f1 /\ nth 2 (campi r) [] = f2 /\
    senza 58 f0 /\ senza 58 f1 /\ senza 58 f2 /\
    (resto = [] /\ due_punti r 0 [] = [length f0; (length f0 + S (length f1))%nat] \/
     (exists b, resto = 58 :: b) /\ due_punti r 0 [] = [length f0; (length f0 + S (length f1))%nat; (length f0 + S (length f1) + S (length f2))%nat]).
Proof.
  unfold campi. intros Hl. destruct (spezza_o_no 58 r) as [H|(f0 & b & -> & H0)]; [rewrite dividi_senza in Hl by done; cbn in Hl; lia|].
  rewrite dividi_app in Hl |- * by done. cbn [length nth] in *.
  destruct (spezza_o_no 58 b) as [H|(f1 & b2 & -> & H1)]; [rewrite dividi_senza in Hl by done; cbn in Hl; lia|].
  rewrite dividi_app by done. cbn [nth].
  assert (E : due_punti (f0 ++ 58 :: f1 ++ 58 :: b2) 0 [] =
              due_punti b2 (length f0 + S (length f1) + 1) [length f0; (length f0 + S (length f1))%nat]).
  { rewrite due_punti_senza, due_punti_colon, due_punti_senza, due_punti_colon by (done || cbn; lia).
    cbn [app]. f_equal; [lia|]. do 2 f_equal. lia. }
  destruct (spezza_o_no 58 b2) as [H2|(f2 & b3 & -> & H2)].
  - exists f0, f1, b2, []. rewrite app_nil_r, dividi_senza by done. do 7 (split; [done|]). left. split; [done|].
    rewrite E, <- (app_nil_r b2), due_punti_senza by (done || cbn; lia). done.
  - exists f0, f1, f2, (58 :: b3). rewrite dividi_app by done. do 7 (split; [done|]). right. split; [by exists b3|].
    rewrite E, due_punti_senza, due_punti_colon, due_punti_pieno by (done || cbn; lia). cbn [app]. do 3 f_equal. lia.
Qed.
