(* ===== verification/SuPassi.v ===== *)
(** * The steps of [sys_su] *)

From S2P Require Import Prelude Bytes Esito ShaSpec ShaBlocco Sha256 Sha256Flusso Sha256K ShaThms Su SuSpec.

(** ** Strings of the caller *)

Lemma verify_loop_stringa mem str : forall k i, verify_loop k i mem str = true -> 0 <= i ->
  exists n, (n < k)%nat /\ mem (u32 (str + (i + Z.of_nat n))) = 0 /\
    forall j, (j < n)%nat -> mem (u32 (str + (i + Z.of_nat j))) <> 0.
Proof.
  induction k as [|k IH]; intros i E Hi; [done|]. cbn [verify_loop] in E. destruct (USER_SPACE_END <=? u32 (str + i)); [done|].
  destruct (Z.eqb_spec (mem (u32 (str + i))) 0) as [E0|E0].
  - exists 0%nat. rewrite Z.add_0_r. split; [lia|]. split; [done|]. intros j Hj. lia.
  - destruct (IH (i + 1) E ltac:(lia)) as (n & Hn & H0 & Hj). exists (S n). split; [lia|]. split.
    + rewrite <- H0. do 2 f_equal. lia.
    + intros [|j] Hjn; [by rewrite Z.add_0_r|]. replace (i + Z.of_nat (S j)) with (i + 1 + Z.of_nat j) by lia. apply Hj. lia.
Qed.

(** The bytes from [str] on. *)
Definition da_memoria (mem : Z -> Z) (str : Z) (n : nat) : list Z := (fun k => mem (u32 (str + Z.of_nat k))) <$> seq 0 n.

Lemma nth_da_memoria mem str n k : (k < n)%nat -> nth k (da_memoria mem str n) 0 = mem (u32 (str + Z.of_nat k)).
Proof.
  intros Hk. unfold da_memoria. rewrite nth_lookup, list_lookup_fmap, lookup_seq_lt by done. done.
Qed.

(** Inside the string. *)
Lemma dal_chiamante_val mem str n k : (forall j, (j < n)%nat -> mem (u32 (str + Z.of_nat j)) <> 0) -> (k <= n)%nat ->
  dal_chiamante mem str k = Val (mem (u32 (str + Z.of_nat k))).
Proof.
  intros Hj Hk. unfold dal_chiamante. destruct (existsb _ _) eqn:E; [|done]. exfalso.
  apply existsb_exists in E as (j & Hin & E0). apply in_seq in Hin. apply Z.eqb_eq in E0. apply (Hj j); [lia | done].
Qed.

Lemma verify_str_stringa mem str max : syscall_verify_str mem str max = true ->
  exists s, stringa (dal_chiamante mem str) s /\ Z.of_nat (length s) < max /\ s = da_memoria mem str (length s).
Proof.
  unfold syscall_verify_str. destruct (syscall_verify_ptr str 1); [|done]. cbn [negb]. intros E.
  destruct (verify_loop_stringa mem str _ 0 E ltac:(lia)) as (n & Hn & H0 & Hj).
  assert (Hl : length (da_memoria mem str n) = n) by (unfold da_memoria; by rewrite length_fmap, length_seq).
  exists (da_memoria mem str n). rewrite Hl. split; [|split; [lia|done]]. unfold stringa. rewrite Hl. split.
  - apply Forall_forall. intros x Hx. apply list_elem_of_lookup in Hx as [j Hx].
    pose proof (lookup_lt_Some _ _ _ Hx) as Hlt. rewrite Hl in Hlt.
    assert (x = nth j (da_memoria mem str n) 0) as -> by (by rewrite nth_lookup, Hx). rewrite nth_da_memoria by done. by apply Hj.
  - split; [rewrite (dal_chiamante_val mem str n) by done; by rewrite <- H0|].
    intros k Hk. by rewrite (dal_chiamante_val mem str n), nth_da_memoria by (done || lia).
Qed.

Lemma stringa_bytes mem str n : (forall a, 0 <= mem a < 256) -> bytes (da_memoria mem str n).
Proof. intros H. apply Forall_fmap. apply Forall_true. intros k. apply H. Qed.

(** ** Comparing names *)

Lemma nth_non_zero (s : list Z) k : Forall (fun x => x <> 0) s -> (k < length s)%nat -> nth k s 0 <> 0.
Proof. intros Hs Hk. apply (proj1 (List.Forall_forall _ s) Hs). by apply nth_In. Qed.

Lemma confronta_val get s : stringa get s -> forall r k, (k <= length s)%nat ->
  exists j, confronta r get k = Val j /\ (k <= j <= length s)%nat /\
    ((j = k + length r)%nat /\ j = length s <-> r = drop k s).
Proof.
  intros (Hs & H0 & Hg). induction r as [|x r IH]; intros k Hk; cbn [confronta length].
  - exists k. split; [done|]. split; [lia|]. rewrite Nat.add_0_r. split; [|].
    + intros [_ ->]. by rewrite drop_ge.
    + intros E. assert (length (drop k s) = 0%nat) by (by rewrite <- E). rewrite length_drop in *. lia.
  - destruct (Nat.eq_dec k (length s)) as [->|Hne].
    + rewrite H0. cbn [mbind esito_bind]. exists (length s). split; [done|]. split; [lia|].
      rewrite drop_ge by done. split; [lia|done].
    + rewrite Hg by lia. cbn [mbind esito_bind]. pose proof (nth_non_zero s k Hs ltac:(lia)) as Hn0.
      rewrite (proj2 (Z.eqb_neq _ 0) Hn0). rewrite (drop_nth s) by lia. destruct (Z.eqb_spec x (nth k s 0)) as [->|Hx]; cbn [negb].
      * destruct (IH (S k) ltac:(lia)) as (j & E & Hj & Hiff). exists j. split; [done|]. split; [lia|].
        rewrite <- Nat.add_succ_comm. rewrite Hiff. split; [by intros ->|by intros [= ->]].
      * exists k. split; [done|]. split; [lia|]. split; [lia|]. by intros [= ->].
Qed.

(** The test after the loop: the field is the name. *)
Lemma confronta_campo get s f : stringa get s ->
  exists j e, confronta f get 0 = Val j /\ (if negb (j =? length f)%nat then Val 1 else get j) = Val e /\
    (e =? 0) = bool_decide (f = s).
Proof.
  intros Hst. destruct (confronta_val get s Hst f 0 ltac:(lia)) as (j & E & Hj & Hiff). cbn [Nat.add] in Hiff. rewrite drop_0 in Hiff.
  destruct Hst as (Hs & H0 & Hg). exists j. destruct (Nat.eqb_spec j (length f)) as [->|Hne]; cbn [negb].
  - destruct (Nat.eq_dec (length f) (length s)) as [El|El].
    + exists 0. split; [done|]. split; [by rewrite El|]. symmetry. apply bool_decide_eq_true. by apply Hiff.
    + exists (nth (length f) s 0). split; [done|]. split; [apply Hg; lia|].
      rewrite (proj2 (Z.eqb_neq _ 0)) by (apply nth_non_zero; (done || lia)). symmetry. apply bool_decide_eq_false. intros ->. done.
  - exists 1. split; [done|]. split; [done|]. symmetry. apply bool_decide_eq_false. intros Ef. apply Hiff in Ef. lia.
Qed.

(** ** Copying a field *)

Lemma copia_campo_val max : forall n r out q, (n <= length r)%nat -> (q < max)%nat -> length out = max ->
  exists out', copia_campo n r out q max = Val (out', (q + n `min` (max - 1 - q))%nat) /\ length out' = max /\
    take (q + n `min` (max - 1 - q)) out' = take q out ++ take (n `min` (max - 1 - q)) r.
Proof.
  induction n as [|n IH]; intros r out q Hn Hq Ho; cbn [copia_campo].
  - exists out. rewrite Nat.min_0_l, Nat.add_0_r, take_0, app_nil_r. done.
  - destruct (Nat.ltb_spec (q + 1) max) as [Hlt|Hge].
    + destruct r as [|x r]; [cbn in Hn; lia|]. cbn [length] in Hn. cbn [leggi mbind esito_bind]. rewrite scrivi_val by lia.
      cbn [mbind esito_bind]. destruct (IH r (<[q := x]> out) (S q)) as (o & E & Hl & Ht); [lia|lia|by rewrite length_insert|].
      exists o. replace (q + S n `min` (max - 1 - q))%nat with (S q + n `min` (max - 1 - S q))%nat by lia.
      split; [done|]. split; [done|]. rewrite Ht, take_scritto, <- app_assoc by lia.
      replace (S n `min` (max - 1 - q))%nat with (S (n `min` (max - 1 - S q))) by lia. done.
    + exists out. replace (S n `min` (max - 1 - q))%nat with 0%nat by lia. rewrite Nat.add_0_r, take_0, app_nil_r. done.
Qed.

(** An array that holds the string [s], from the first bytes of a field. *)
Definition contiene (a s : list Z) (max : nat) : Prop :=
  length a = max /\ exists resto, a = take (max - 1) s ++ 0 :: resto.

Lemma estrai_val r c q out max pre f post : (0 < max)%nat -> length out = max ->
  r = pre ++ f ++ post ->
  (if (q =? 0)%nat then 0%nat else S (nth (q - 1) c 0%nat)) = length pre ->
  (if (q =? 0)%nat then nth 0 c 0%nat else if (length c <=? q)%nat then length r else nth q c 0%nat) = (length pre + length f)%nat ->
  exists a, estrai r c q out max = Val a /\ contiene a f max.
Proof.
  intros Hm Ho -> Hda Ha. unfold estrai. cbv zeta. rewrite Hda, Ha. replace (length pre + length f - length pre)%nat with (length f) by lia.
  rewrite drop_app_length.
  destruct (copia_campo_val max (length f) (f ++ post) out 0) as (o & E & Hl & Ht); [rewrite length_app; lia|lia|done|].
  rewrite E. cbn [mbind esito_bind]. cbn [Nat.add] in *. rewrite Nat.sub_0_r in *. rewrite scrivi_val by lia. eexists. split; [reflexivity|].
  split; [by rewrite length_insert|]. set (n := (length f `min` (max - 1))%nat) in *. exists (drop (S n) o).
  rewrite <- (take_drop (S n) (<[n := 0]> o)), take_scritto, Ht, drop_insert_lt by lia. cbn [app].
  rewrite <- app_assoc. cbn [app]. f_equal. unfold n. rewrite take_0, take_app_le by lia. cbn [app].
  destruct (Nat.le_gt_cases (length f) (max - 1)).
  - rewrite Nat.min_l by done. by rewrite !take_ge by lia.
  - by rewrite Nat.min_r by lia.
Qed.

(** The two fields after the name. *)
Lemma estrai_campo r q out max : (3 <= length (campi r))%nat -> (q = 1 \/ q = 2)%nat -> (0 < max)%nat -> length out = max ->
  exists a, estrai r (due_punti r 0 []) q out max = Val a /\ contiene a (nth q (campi r) []) max.
Proof.
  intros H3 Hq Hm Ho. destruct (campi_tre r H3) as (f0 & f1 & f2 & resto & Er & E0 & E1 & E2 & _ & _ & _ & Hc).
  destruct Hq as [-> | ->]; [rewrite E1|rewrite E2]; clear E0 E1 E2.
  - apply (estrai_val r _ 1 out max (f0 ++ [58]) f1 (58 :: f2 ++ resto)); try done; [by rewrite Er, <- app_assoc|..].
    all: rewrite length_app; cbn [length]; destruct Hc as [[_ ->]|[_ ->]]; cbn; lia.
  - apply (estrai_val r _ 2 out max (f0 ++ 58 :: f1 ++ [58]) f2 resto); try done.
    { rewrite Er, <- app_assoc. cbn [app]. by rewrite <- app_assoc. }
    all: rewrite length_app; cbn [length]; rewrite length_app; cbn [length];
      destruct Hc as [[Hr ->]|[_ ->]]; cbn [length Nat.eqb Nat.leb nth Nat.sub]; try lia.
    rewrite Er, Hr, app_nil_r, length_app. cbn [length]. rewrite length_app. cbn [length]. lia.
Qed.

(** ** Looking up a field *)

Lemma attiva_eq r : attiva r = negb ((length r =? 0)%nat || (nth 0 r 0 =? 35)).
Proof. by destruct r. Qed.

Lemma su_campo_loop_val get s q out max : stringa get s -> (q = 1 \/ q = 2)%nat -> (0 < max)%nat -> length out = max ->
  forall k t, (length t < k)%nat ->
  exists o, su_campo_loop k t get q out max = Val o /\
    match conto t s with None => o = None | Some f => exists a, o = Some a /\ contiene a (nth q f []) max end.
Proof.
  intros Hs Hq Hm Ho. induction k as [|k IH]; intros t Hk; [lia|]. cbn [su_campo_loop].
  destruct t as [|x t]; [by exists None|]. set (t0 := x :: t) in *.
  destruct (prendi_riga_righe t0) as (r & t' & E & _ & _ & Hlt & _). rewrite E. specialize (Hlt ltac:(done)).
  unfold conto. rewrite (find_righe (conto_riga s) t0 r t') by done.
  assert (IH' : exists o, su_campo_loop k t' get q out max = Val o /\
            match campi <$> List.find (conto_riga s) (righe t') with None => o = None | Some f => exists a, o = Some a /\ contiene a (nth q f []) max end)
    by (apply IH; lia).
  destruct ((length r =? 0)%nat || (nth 0 r 0 =? 35)) eqn:Ea.
  { unfold conto_riga. rewrite attiva_eq, Ea. exact IH'. }
  destruct (Nat.ltb_spec (length (due_punti r 0 [])) 2) as [H2|H2].
  { assert (Hf : conto_riga s r = false); [|rewrite Hf; exact IH'].
    unfold conto_riga. destruct (Nat.leb_spec 3 (length (campi r))) as [H3|H3]; [|by rewrite andb_false_r].
    destruct (campi_tre r H3) as (f0 & f1 & f2 & resto & _ & _ & _ & _ & _ & _ & _ & [[_ Ed]|[_ Ed]]); rewrite Ed in H2; cbn in H2; lia. }
  assert (H3 : (3 <= length (campi r))%nat) by (destruct (Nat.le_gt_cases 3 (length (campi r))); [done|]; pose proof (campi_pochi r); lia).
  destruct (campi_tre r H3) as (f0 & f1 & f2 & resto & Er & E0 & _ & _ & _ & _ & _ & Hc).
  assert (Hn0 : nth 0 (due_punti r 0 []) 0%nat = length f0) by (by destruct Hc as [[_ ->]|[_ ->]]).
  rewrite Hn0. replace (take (length f0) r) with f0 by (by rewrite Er, take_app_length).
  destruct (confronta_campo get s f0 Hs) as (j & e & E1 & E2 & E3). rewrite E1. cbn [mbind esito_bind]. rewrite E2. cbn [mbind esito_bind].
  rewrite E3. unfold conto_riga. rewrite attiva_eq, Ea, (proj2 (Nat.leb_le 3 _) H3), E0. cbn [negb andb].
  destruct (bool_decide (f0 = s)); cbn [negb]; [|exact IH'].
  destruct (estrai_campo r q out max H3 Hq Hm Ho) as (a & Ee & Ha). rewrite Ee. cbn [mbind esito_bind fmap option_fmap option_map].
  by exists (Some a); split; [done|]; exists a.
Qed.

Lemma su_campo_val get s t q out max : stringa get s -> (q = 1 \/ q = 2)%nat -> (0 < max)%nat -> length out = max ->
  exists o, su_campo t get q out max = Val o /\
    match conto t s with None => o = None | Some f => exists a, o = Some a /\ contiene a (nth q f []) max end.
Proof. intros. unfold su_campo. apply su_campo_loop_val; (done || lia). Qed.

(** ** Administrators *)

Lemma togli_coda_le r l : (togli_coda l r <= l)%nat.
Proof. induction l as [|l IH]; cbn [togli_coda]; [done|]. destruct (_ || _); lia. Qed.

Lemma amministratore_loop_val get s : stringa get s -> forall k t, (length t < k)%nat ->
  amministratore_loop k t get = Val (amministra t s).
Proof.
  intros Hs. induction k as [|k IH]; intros t Hk; [lia|]. cbn [amministratore_loop].
  destruct t as [|x t]; [done|]. set (t0 := x :: t) in *.
  destruct (prendi_riga_righe t0) as (r & t' & E & _ & _ & Hlt & _). rewrite E. specialize (Hlt ltac:(done)).
  unfold amministra. rewrite (existsb_righe _ t0 r t') by done. fold (amministra t' s).
  rewrite IH by lia. pose proof (togli_coda_le r (length r)) as Hle. unfold rifilata. set (l := togli_coda (length r) r) in *.
  assert (Hl : length (take l r) = l) by (rewrite length_take; lia).
  assert (Ha : attiva (take l r) = negb ((l =? 0)%nat || (nth 0 r 0 =? 35))).
  { destruct l as [|l]; [by destruct r|]. destruct r; [cbn in Hle; lia|]. done. }
  rewrite Ha. destruct ((l =? 0)%nat || (nth 0 r 0 =? 35)); [done|]. cbn [negb andb].
  destruct (confronta_campo get s (take l r) Hs) as (j & e & E1 & E2 & E3). rewrite E1. cbn [mbind esito_bind].
  rewrite Hl in E2. rewrite E2. cbn [mbind esito_bind]. rewrite E3. by destruct (bool_decide _).
Qed.

Lemma su_amministratore_val fs get s : stringa get s ->
  su_amministratore fs get = Val (amministra (testo_di (f_amministratori fs) 1024) s).
Proof.
  intros Hs. unfold su_amministratore, testo_di. destruct (su_leggi (f_amministratori fs) 1024) as [[|x t]|]; [done| |done].
  cbn [default]. by rewrite (amministratore_loop_val get s) by (done || lia).
Qed.

(** ** Numbers and strings in arrays *)

Lemma dal_vettore_val a k : (k < length a)%nat -> dal_vettore a k = Val (nth k a 0).
Proof. intros Hk. unfold dal_vettore. by rewrite (proj2 (Nat.ltb_lt _ _) Hk). Qed.

Lemma su_numero_loop_val s resto : forall pre v k, (length s < k)%nat ->
  su_numero_loop k (pre ++ s ++ 0 :: resto) (length pre) v = Val (numero v s).
Proof.
  induction s as [|c s IH]; intros pre v [|k] Hk; cbn [length] in Hk; try lia; cbn [su_numero_loop].
  - rewrite dal_vettore_val by (rewrite !length_app; cbn; lia). cbn [app mbind esito_bind].
    rewrite nth_middle. done.
  - rewrite dal_vettore_val by (rewrite !length_app; cbn; lia). cbn [app mbind esito_bind]. rewrite nth_middle. cbn [numero].
    destruct (_ && _); [|done]. replace (pre ++ c :: s ++ 0 :: resto) with ((pre ++ [c]) ++ s ++ 0 :: resto) by (by rewrite <- app_assoc).
    replace (S (length pre)) with (length (pre ++ [c])) by (rewrite length_app; cbn; lia). apply IH. lia.
Qed.

Lemma su_numero_val a f max : contiene a f max -> (0 < max)%nat -> su_numero a = Val (numero 0 (take (max - 1) f)).
Proof.
  intros [Hl [resto ->]] Hm. unfold su_numero. apply (su_numero_loop_val _ resto []). rewrite length_app. cbn. lia.
Qed.

Lemma fino_zero_app l resto : exists resto', l ++ 0 :: resto = fino_zero l ++ 0 :: resto'.
Proof.
  induction l as [|x l [r' IH]]; cbn [fino_zero app]; [by exists resto|]. destruct (Z.eqb_spec x 0) as [->|Hx].
  - by exists (l ++ 0 :: resto).
  - exists r'. by rewrite IH.
Qed.

Lemma fino_zero_non_zero l : Forall (fun x => x <> 0) (fino_zero l).
Proof.
  induction l as [|x l IH]; cbn [fino_zero]; [constructor|]. destruct (Z.eqb_spec x 0); [constructor|by constructor].
Qed.

Lemma fino_zero_incl l : exists r, l = fino_zero l ++ r.
Proof.
  induction l as [|x l [r IH]]; cbn [fino_zero]; [by exists []|]. destruct (x =? 0); [by exists (x :: l)|]. exists r. cbn. by rewrite <- IH.
Qed.

Lemma contiene_stringa a f max : contiene a f max -> stringa (dal_vettore a) (fino_zero (take (max - 1) f)).
Proof.
  intros [Hl [resto ->]]. destruct (fino_zero_app (take (max - 1) f) resto) as [r' ->]. set (s := fino_zero _).
  split; [apply fino_zero_non_zero|]. split.
  - rewrite dal_vettore_val by (rewrite length_app; cbn; lia). by rewrite nth_middle.
  - intros k Hk. rewrite dal_vettore_val by (rewrite length_app; cbn; lia). by rewrite app_nth1.
Qed.

Lemma aggiungi_str_val get s lim : stringa get s -> forall suf pre m i k, s = pre ++ suf ->
  (i + length suf <= lim <= length m)%nat -> (length suf < k)%nat ->
  exists m', aggiungi_str k get (length pre) m i lim = Val (m', (i + length suf)%nat) /\ length m' = length m /\
    take (i + length suf) m' = take i m ++ suf.
Proof.
  intros (Hs & H0 & Hg). induction suf as [|x suf IH]; intros pre m i [|k] Es Hi Hk; cbn [length] in *; try lia; cbn [aggiungi_str].
  - rewrite app_nil_r in Es. subst pre. rewrite H0. cbn [mbind esito_bind]. exists m. rewrite Nat.add_0_r, app_nil_r. done.
  - assert (Hp : (length pre < length s)%nat) by (rewrite Es, length_app; cbn; lia).
    rewrite Hg by done. cbn [mbind esito_bind]. rewrite (proj2 (Z.eqb_neq _ 0)) by (by apply nth_non_zero).
    rewrite (proj2 (Nat.ltb_lt i lim)) by lia. cbn [negb andb]. rewrite scrivi_val by lia. cbn [mbind esito_bind].
    assert (Ex : nth (length pre) s 0 = x) by (rewrite Es; apply nth_middle). rewrite Ex.
    destruct (IH (pre ++ [x]) (<[i := x]> m) (S i) k) as (m' & E & Hl & Ht); [by rewrite <- app_assoc|rewrite length_insert; lia|lia|].
    rewrite length_app, Nat.add_1_r in E. rewrite length_insert in Hl. exists m'. rewrite E, <- Nat.add_succ_comm.
    split; [done|]. split; [done|]. rewrite Ht, take_scritto, <- app_assoc by lia. done.
Qed.

Lemma uguali_val a b : forall k j, (j + k <= length a)%nat -> (j + k <= length b)%nat ->
  uguali k j a b = Val (bool_decide (take k (drop j a) = take k (drop j b))).
Proof.
  induction k as [|k IH]; intros j Ha Hb; cbn [uguali]; [done|].
  rewrite !dal_vettore_val by lia. cbn [mbind esito_bind]. rewrite (drop_nth a), (drop_nth b) by lia. cbn [firstn].
  destruct (Z.eqb_spec (nth j a 0) (nth j b 0)) as [E|E]; cbn [negb].
  - rewrite IH by lia. f_equal. rewrite E. apply bool_decide_ext. split; [by intros ->|by intros [= ->]].
  - f_equal. symmetry. apply bool_decide_eq_false. by intros [= ? ?].
Qed.

(** Digits are not zero, so a field shorter than the digest is not equal to it. *)
Lemma contiene_cifre imp f max d : contiene imp f max -> length d = 64%nat -> Forall (fun x => x <> 0) d -> (65 < max)%nat ->
  bool_decide (d = take 64 imp) = bool_decide (take 64 f = d).
Proof.
  intros [Hl [resto ->]] Hd Hnz Hm. apply bool_decide_ext. destruct (Nat.lt_ge_cases (length f) 64) as [Hlt|Hge].
  - rewrite (take_ge f) by lia. rewrite (take_ge f 64) by lia. split.
    + intros E. exfalso. assert (H0 : nth (length f) d 0 = 0).
      { rewrite E, nth_take by lia. by rewrite nth_middle. }
      by apply (nth_non_zero d (length f)); [|lia|].
    + intros E. rewrite <- E in Hd. lia.
  - rewrite take_app_le by (rewrite length_take; lia). rewrite take_take, Nat.min_l by lia. done.
Qed.

Lemma cifre_forall (P : Z -> Prop) d : (forall y, 0 <= y < 16 -> P (parola sha_cifre (Z.to_nat y))) -> bytes d ->
  Forall P (take (2 * length d) (in_cifre d)).
Proof.
  intros Hc. unfold in_cifre. induction 1 as [|x d Hx _ IH]; [constructor|].
  change (mjoin _ ++ [0]) with (parola sha_cifre (Z.to_nat (Z.shiftr x 4)) :: parola sha_cifre (Z.to_nat (Z.land x 15)) ::
    mjoin ((fun x => [parola sha_cifre (Z.to_nat (Z.shiftr x 4)); parola sha_cifre (Z.to_nat (Z.land x 15))]) <$> d) ++ [0]).
  replace (2 * length (x :: d))%nat with (S (S (2 * length d))) by (cbn; lia). cbn [firstn].
  constructor; [|constructor; [|exact IH]]; apply Hc.
  - rewrite Z.shiftr_div_pow2 by lia. change (2 ^ 4) with 16. zdm.
  - change 15 with (Z.ones 4). rewrite Z.land_ones by lia. change (2 ^ 4) with 16. zdm.
Qed.

(** A digit: one of the sixteen characters. *)
Definition e_cifra (x : Z) : Prop := 48 <= x <= 57 \/ 97 <= x <= 102.

Lemma cifre_cifra d : bytes d -> Forall e_cifra (take (2 * length d) (in_cifre d)).
Proof.
  apply cifre_forall. intros y Hy.
  assert (H : forallb (fun n => let x := parola sha_cifre n in (48 <=? x) && (x <=? 57) || (97 <=? x) && (x <=? 102)) (seq 0 16) = true)
    by reflexivity.
  rewrite forallb_forall in H. specialize (H (Z.to_nat y) ltac:(apply in_seq; lia)). cbv zeta in H. unfold e_cifra. lia.
Qed.

Lemma length_in_cifre d : length (in_cifre d) = S (2 * length d).
Proof.
  unfold in_cifre. rewrite length_app, Nat.add_1_r. f_equal. induction d as [|x d IH]; [done|]. cbn [length]. 
  change (mjoin _) with (parola sha_cifre (Z.to_nat (Z.shiftr x 4)) :: parola sha_cifre (Z.to_nat (Z.land x 15)) ::
    mjoin ((fun x => [parola sha_cifre (Z.to_nat (Z.shiftr x 4)); parola sha_cifre (Z.to_nat (Z.land x 15))]) <$> d)).
  cbn [length]. rewrite IH. lia.
Qed.

Lemma impronta_cifre sale pass : length (impronta sale pass) = 64%nat /\ Forall e_cifra (impronta sale pass).
Proof.
  unfold impronta. destruct (SHA256_ok (sale ++ 58 :: pass)) as [Hl Hb]. split.
  - rewrite length_take, length_in_cifre, Hl. done.
  - pose proof (cifre_cifra _ Hb) as H. by rewrite Hl in H.
Qed.

Lemma impronta_ok sale pass : length (impronta sale pass) = 64%nat /\ Forall (fun x => x <> 0) (impronta sale pass).
Proof.
  destruct (impronta_cifre sale pass) as [Hl Hc]. split; [done|].
  eapply Forall_impl; [exact Hc|]. intros x. unfold e_cifra. lia.
Qed.

(** ** Bytes stay bytes *)

Lemma dividi_bytes sep l : bytes l -> Forall bytes (dividi sep l).
Proof.
  induction 1 as [|x l Hx _ IH]; cbn [dividi]; [apply Forall_singleton; constructor|]. destruct (x =? sep).
  - apply Forall_cons. split; [constructor|done].
  - destruct (dividi sep l) as [|f fs]; [by do 2 apply Forall_singleton|]. apply Forall_cons in IH as [Hf Hfs].
    constructor; [by constructor|done].
Qed.

Lemma nth_bytes_di (l : list (list Z)) i : Forall bytes l -> bytes (nth i l []).
Proof.
  intros Hl. destruct (Nat.lt_ge_cases i (length l)).
  - apply (proj1 (List.Forall_forall _ l) Hl). by apply nth_In.
  - rewrite nth_overflow by done. constructor.
Qed.

Lemma conto_bytes t nome f : bytes t -> conto t nome = Some f -> Forall bytes f.
Proof.
  unfold conto. intros Ht E. destruct (List.find _ _) as [r|] eqn:Er; [|done]. injection E as <-.
  apply dividi_bytes. apply find_some in Er as [Hin _].
  by apply (proj1 (List.Forall_forall _ _) (dividi_bytes 10 t Ht)).
Qed.

Lemma conto_vuoto nome : conto [] nome = None.
Proof. done. Qed.

(** ** The password *)

Record pila_ok (l : Pila) : Prop := {
  pl_sale : length (l_sale l) = 32%nat; pl_imp : length (l_imp l) = 80%nat; pl_misto : length (l_misto l) = 160%nat;
  pl_su : length (l_su l) = 16%nat; pl_sg : length (l_sg l) = 16%nat; pl_blocco : length (l_blocco l) = 64%nat
}.

Definition file_ok (f : option (list Z)) : Prop := forall t, f = Some t -> bytes t.

(** The digest of [sale:pass], composed in [misto]. *)
Lemma misto_val a f pget pass m b0 : contiene a f 32 -> bytes f -> stringa pget pass -> bytes pass -> (length pass < 128)%nat ->
  length m = 160%nat -> length b0 = 64%nat ->
  ('(misto, i) ← aggiungi_str 161 (dal_vettore a) 0 m 0 158;
   misto ← scrivi misto i 58;
   '(misto, i) ← aggiungi_str 161 pget 0 misto (S i) 159;
   misto ← scrivi misto i 0;
   ksha256_esa (W32 - 1) b0 misto (Z.of_nat i)) = Val (in_cifre (SHA256 (fino_zero (take 31 f) ++ 58 :: pass))).
Proof.
  intros Ha Hf Hp Hbp Hlp Hm Hb0. pose proof (contiene_stringa a f 32 Ha) as Hs. cbn [Nat.sub] in Hs.
  set (s := fino_zero (take 31 f)) in *.
  assert (Hls : (length s <= 31)%nat /\ bytes s).
  { destruct (fino_zero_incl (take 31 f)) as [r Er]. fold s in Er. split.
    - assert (length (take 31 f) <= 31)%nat by (rewrite length_take; lia). rewrite Er, length_app in *. lia.
    - apply (Forall_take _ 31) in Hf. rewrite Er in Hf. exact (proj1 (proj1 (Forall_app _ _ _) Hf)). }
  destruct Hls as [Hls Hbs].
  destruct (aggiungi_str_val (dal_vettore a) s 158 Hs s [] m 0 161) as (m1 & E1 & Hl1 & Ht1); [done|lia|lia|].
  change (length (@nil Z)) with 0%nat in E1. rewrite E1. cbn [mbind esito_bind]. cbn [Nat.add] in *.
  rewrite scrivi_val by lia. cbn [mbind esito_bind].
  assert (Ht2 : take (S (length s)) (<[length s := 58]> m1) = s ++ [58]) by (rewrite take_scritto, Ht1, take_0 by lia; done).
  destruct (aggiungi_str_val pget pass 159 Hp pass [] (<[length s := 58]> m1) (S (length s)) 161) as (m2 & E2 & Hl2 & Ht3);
    [done|rewrite length_insert; lia|lia|].
  change (length (@nil Z)) with 0%nat in E2. rewrite E2. cbn [mbind esito_bind]. rewrite length_insert in Hl2.
  rewrite scrivi_val by lia. cbn [mbind esito_bind]. rewrite Ht2, <- app_assoc in Ht3. cbn [app] in Ht3.
  set (n := (S (length s) + length pass)%nat) in *. set (d := s ++ 58 :: pass) in *.
  assert (Hd : length d = n) by (unfold d, n; rewrite length_app; cbn; lia).
  assert (Hbd : bytes d) by (apply Forall_app; split; [exact Hbs|]; apply Forall_cons; split; [lia|exact Hbp]).
  rewrite <- (take_drop n (<[n := 0]> m2)), take_insert_ge, Ht3, <- Hd by lia. unfold ksha256_esa.
  rewrite ksha256_val; [done|lia|exact Hbd|exact Hb0|unfold W32; lia].
Qed.

Section Caller.

Context (mem : Z -> Z) (nome pass : Z) (sn sp : list Z).
Context (Hn : stringa (dal_chiamante mem nome) sn) (Hp : stringa (dal_chiamante mem pass) sp).
Context (Hbp : bytes sp) (Hlp : (length sp < 128)%nat).

Lemma su_password_val fs l : pila_ok l -> file_ok (f_ombra fs) ->
  su_password mem fs l nome pass
  = Val (match conto (testo_di (f_utenti fs) SU_FILE_MAX) sn with
         | None => None
         | Some f => if password_giusta (testo_di (f_ombra fs) SU_FILE_MAX) sn sp then Some (numero 0 (take 15 (nth 1 f []))) else None
         end).
Proof.
  intros [L1 L2 L3 L4 L5 L6] Hf. unfold su_password, testo_di.
  destruct (su_leggi (f_utenti fs) SU_FILE_MAX) as [[|x tu]|]; [done| |done]. cbn [default id]. set (t := x :: tu).
  destruct (su_campo_val _ sn t 1 (l_su l) 16 Hn ltac:(lia) ltac:(lia) L4) as (o1 & E1 & H1). rewrite E1. cbn [mbind esito_bind]. clear E1.
  destruct (su_campo_val _ sn t 2 (l_sg l) 16 Hn ltac:(lia) ltac:(lia) L5) as (o2 & E2 & H2).
  destruct (conto t sn) as [fu|]; [|by rewrite H1]. destruct H1 as (a1 & -> & Ha1), H2 as (a2 & -> & Ha2).
  rewrite E2. cbn [mbind esito_bind]. clear E2 t.
  destruct (su_leggi (f_ombra fs) SU_FILE_MAX) as [[|y to]|] eqn:Eo; [done| |done]. cbn [default id]. set (t := y :: to) in *.
  assert (Hbt : bytes t).
  { unfold su_leggi in Eo. destruct (f_ombra fs) as [tt|] eqn:Ef; [|done]. injection Eo as <-. apply Forall_take. by apply Hf. }
  unfold password_giusta.
  destruct (su_campo_val _ sn t 1 (l_sale l) 32 Hn ltac:(lia) ltac:(lia) L1) as (o3 & E3 & H3). rewrite E3. cbn [mbind esito_bind]. clear E3.
  destruct (su_campo_val _ sn t 2 (l_imp l) 80 Hn ltac:(lia) ltac:(lia) L2) as (o4 & E4 & H4).
  destruct (conto t sn) as [fo|] eqn:Ec; [|by rewrite H3]. destruct H3 as (a3 & -> & Ha3), H4 as (a4 & -> & Ha4).
  rewrite E4. cbn [mbind esito_bind]. clear E4.
  pose proof (misto_val a3 (nth 1 fo []) _ sp (l_misto l) (l_blocco l) Ha3 (nth_bytes_di _ 1 (conto_bytes _ _ _ Hbt Ec)) Hp Hbp Hlp L3 L6) as Em.
  destruct (aggiungi_str 161 (dal_vettore a3) 0 (l_misto l) 0 158) as [[m1 i1]| | |]; try discriminate Em. cbn [mbind esito_bind] in Em |- *.
  destruct (scrivi m1 i1 58) as [m2| | |]; try discriminate Em. cbn [mbind esito_bind] in Em |- *.
  destruct (aggiungi_str 161 _ 0 m2 (S i1) 159) as [[m3 i3]| | |]; try discriminate Em. cbn [mbind esito_bind] in Em |- *.
  destruct (scrivi m3 i3 0) as [m4| | |]; try discriminate Em. cbn [mbind esito_bind] in Em |- *.
  rewrite Em. cbn [mbind esito_bind]. set (d := SHA256 _) in *.
  destruct (impronta_ok (fino_zero (take 31 (nth 1 fo []))) sp) as [Hil Hinz]. unfold impronta in *. fold d in Hil, Hinz |- *.
  rewrite uguali_val; [|rewrite length_in_cifre; unfold d; rewrite (proj1 (SHA256_ok _)); lia|destruct Ha4; lia].
  cbn [mbind esito_bind]. rewrite !drop_0, (contiene_cifre a4 (nth 2 fo []) 80) by (done || lia).
  destruct (bool_decide _); [|done]. by rewrite (su_numero_val a1 (nth 1 fu []) 16 Ha1) by lia.
Qed.

End Caller.
