(* ===== verification/Exuser.v ===== *)
(** * The account archive in user space (lib/exuser/exuser.c)

    C strings are lists without their zero; a copy into an array cuts what does
    not fit.  The files are those of [Su.Archivio], under one root.  What a write
    leaves in a file depends on the disk: the number of bytes written is an
    argument.  The reading of the password from a keyboard or a terminal is not
    modelled, nor the clock and the process number that make the seed of a salt. *)

From S2P Require Import Prelude Esito Sha256 Su.

Definition NOME_MAX : nat := 32.
Definition PASS_MAX : nat := 64.
Definition RIGA_MAX : nat := 192.
Definition FILE_MAX : nat := Z.to_nat 8192.

(** [sha256_esa] of the library as a string: without the final zero. *)
Definition esa_di (l : list Z) : esito (list Z) :=
  d ← sha256_esa (mkSha [] (replicate 64 0) 0 0) l (length l); Val (take 64 d).

(** The array has [NOME_MAX + PASS_MAX + 2] bytes. *)
Definition impronta_di (sale pass : list Z) : esito (list Z) :=
  let dim := (NOME_MAX + PASS_MAX + 2)%nat in
  let s := take (dim - 2) sale in
  esa_di (s ++ 58 :: take (dim - 1 - S (length s)) pass).

(** [semi] is what [snprintf] wrote of the clock and the process. *)
Definition sale_nuovo (semi : list Z) : esito (list Z) := d ← esa_di semi; Val (take 16 d).

(** [while (i < n && testo[i] != '\n' && l < RIGA_MAX - 1) riga[l++] = testo[i++];] and
    [if (i < n && testo[i] == '\n') i++;] *)
Fixpoint leggi_riga_max (k : nat) (t : list Z) : list Z * list Z :=
  match t with
  | [] => ([], [])
  | x :: t' =>
      if x =? 10 then ([], t')
      else match k with
           | O => ([], t)
           | S k => let '(r, t'') := leggi_riga_max k t' in (x :: r, t'')
           end
  end.

(** [for (k = 0; riga[k]; k++) if (riga[k] == ':' && nc < 4) c[nc++] = k;] *)
Fixpoint colonne (r : list Z) (k : nat) (c : list nat) : list nat :=
  match r with
  | [] => c
  | x :: r => if x =? 0 then c else colonne r (S k) (if (x =? 58) && (length c <? 4)%nat then c ++ [k] else c)
  end.

(** The string at [riga + da], up to a zero. *)
Fixpoint stringa_da (r : list Z) : list Z :=
  match r with
  | [] => []
  | x :: r => if x =? 0 then [] else x :: stringa_da r
  end.

(** [None] is the return of -1; a turn takes a line of the text or a piece of a
    long one. *)
Fixpoint cerca_loop (k : nat) (t nome : list Z) (campi amax bmax : nat) : esito (option (list Z * list Z)) :=
  match k with
  | O => Stanco
  | S k =>
      match t with
      | [] => Val None
      | _ =>
          let '(riga, t) := leggi_riga_max (RIGA_MAX - 1) t in
          if (length (stringa_da riga) =? 0)%nat || (nth 0 riga 0 =? 35) then cerca_loop k t nome campi amax bmax
          else
            let c := colonne riga 0 [] in
            if (length c <? campi)%nat then cerca_loop k t nome campi amax bmax
            else if negb (bool_decide (stringa_da (take (nth 0 c 0%nat) riga) = nome)) then cerca_loop k t nome campi amax bmax
            else
              let c0 := nth 0 c 0%nat in
              let c1 := nth 1 c 0%nat in
              Val (Some (take (amax - 1) (stringa_da (take (c1 - S c0) (drop (S c0) riga))),
                         take (bmax - 1) (stringa_da (drop (S c1) riga))))
      end
  end.

Definition cerca_riga (f : option (list Z)) (nome : list Z) (campi amax bmax : nat) : esito (option (list Z * list Z)) :=
  match f with
  | None => Val None
  | Some t => let t := take (FILE_MAX - 1) t in cerca_loop (S (length t)) t nome campi amax bmax
  end.

(** The uid and gid fields; with the salt and the digest when they are asked for. *)
Definition trova_utente (fs : Archivio) (nome : list Z) (con_ombra : bool) : esito (option (list Z * list Z * (list Z * list Z))) :=
  u ← cerca_riga (f_utenti fs) nome 2 16 16;
  match u with
  | None => Val None
  | Some (su, sg) =>
      if con_ombra
      then o ← cerca_riga (f_ombra fs) nome 2 17 65;
           match o with None => Val None | Some si => Val (Some (su, sg, si)) end
      else Val (Some (su, sg, ([], [])))
  end.

(** The file after the write of [riga], and the result.  [None]: the file does not
    open; [Some n]: [n] bytes reach the disk before an error, if there are as many.
    A file that does not exist is created. *)
Definition scrivi_riga (f : option (list Z)) (riga : list Z) (n : option nat) : option (list Z) * Z :=
  match n with
  | None => (f, -1)
  | Some n => (Some (default [] f ++ take n riga), if (n <? length riga)%nat then -1 else 0)
  end.

(** [%u] *)
Fixpoint cifre_loop (k : nat) (x : Z) (acc : list Z) : list Z :=
  match k with
  | O => acc
  | S k => let acc := (48 + x mod 10) :: acc in if x / 10 =? 0 then acc else cifre_loop k (x / 10) acc
  end.

Definition decimale (x : Z) : list Z := cifre_loop 10 x [].

(** [n_ombra] and [n_utenti] say what the disk does with the two lines. *)
Definition aggiungi_utente (fs : Archivio) (nome pass : list Z) (uid gid : Z) (semi : list Z) (n_ombra n_utenti : option nat)
  : esito (Archivio * Z) :=
  c ← trova_utente fs nome false;
  match c with
  | Some _ => Val (fs, -2)
  | None =>
      sale ← sale_nuovo semi;
      imp ← impronta_di sale pass;
      let riga := take (RIGA_MAX - 1) (nome ++ 58 :: sale ++ 58 :: imp ++ [10]) in
      let '(o, r) := scrivi_riga (f_ombra fs) riga n_ombra in
      if negb (r =? 0) then Val (mkA (f_utenti fs) o (f_amministratori fs), -1)
      else
        let riga := take (RIGA_MAX - 1) (nome ++ 58 :: decimale uid ++ 58 :: decimale gid ++ [10]) in
        let '(u, r) := scrivi_riga (f_utenti fs) riga n_utenti in
        Val (mkA u o (f_amministratori fs), r)
  end.

Definition carattere_valido (c : Z) : bool :=
  (97 <=? c) && (c <=? 122) || (65 <=? c) && (c <=? 90) || (48 <=? c) && (c <=? 57) || (c =? 95).

Definition nome_valido (n : list Z) : bool :=
  negb (length n =? 0)%nat && forallb carattere_valido n && (length n <? NOME_MAX)%nat.

(** The answer, with the uid and gid fields that [atoi] reads. *)
Definition exuser_verifica (fs : Archivio) (nome pass : list Z) : esito (bool * option (list Z * list Z)) :=
  if negb (nome_valido nome) then Val (false, None)
  else
    u ← trova_utente fs nome true;
    match u with
    | None => Val (false, None)
    | Some (su, sg, (sale, imp)) => prova ← impronta_di sale pass; Val (bool_decide (prova = imp), Some (su, sg))
    end.

(** The loop of [exuser_e_amministratore], the same as the kernel's; the name is a
    string of the caller. *)
Definition exuser_e_amministratore (fs : Archivio) (nome : list Z) : esito bool :=
  match f_amministratori fs with
  | None => Val false
  | Some t => let t := take (Z.to_nat 2048 - 1) t in amministratore_loop (S (length t)) t (dal_vettore (nome ++ [0]))
  end.

Definition exuser_amministratore_aggiungi (fs : Archivio) (nome : list Z) (n : option nat) : esito (Archivio * Z) :=
  if negb (nome_valido nome) then Val (fs, -1)
  else
    b ← exuser_e_amministratore fs nome;
    if (b : bool) then Val (fs, 0)
    else
      let riga := take (NOME_MAX + 1) (nome ++ [10]) in
      let '(a, r) := scrivi_riga (f_amministratori fs) riga n in
      Val (mkA (f_utenti fs) (f_ombra fs) a, r).
