(* ===== verification/ExuserPassi.v ===== *)
(** * The steps of the account archive *)

From S2P Require Import Prelude Bytes Esito ShaSpec ShaBlocco Sha256 Sha256Flusso ShaThms Su SuSpec SuPassi Exuser.

(** ** The digest *)

Lemma esa_di_val l : bytes l -> esa_di l = Val (take 64 (in_cifre (SHA256 l))).
Proof.
  intros Hl. unfold esa_di, sha256_esa, sha256_fine_esa. set (s0 := mkSha [] (replicate 64 0) 0 0).
  destruct (segue_dai (sha256_avvia s0) [] l [] (segue_avvia s0 ltac:(done)) Hl) as (s1 & E & Hs1).
  rewrite app_nil_r in E. rewrite E. cbn [mbind esito_bind]. destruct (segue_fine s1 _ Hs1) as (s2 & E2). by rewrite E2.
Qed.

Lemma impronta_di_val sale pass : bytes sale -> bytes pass -> (length sale <= 16)%nat -> (length pass <= 80)%nat ->
  impronta_di sale pass = Val (impronta sale pass).
Proof.
  intros Hs Hp Hls Hlp. unfold impronta_di. cbn [NOME_MAX PASS_MAX Nat.add Nat.sub]. rewrite (take_ge sale), (take_ge pass) by lia.
  apply esa_di_val. apply Forall_app. split; [done|]. apply Forall_cons. split; [lia|done].
Qed.

(** ** Lines *)

(** Lines that fit in the array of [cerca_riga], without zero bytes. *)
Definition righe_corte (t : list Z) : Prop := Forall (fun r => (length r < RIGA_MAX)%nat /\ Forall (fun x => x <> 0) r) (righe t).

Lemma leggi_riga_max_eq : forall t r t' k, prendi_riga t = (r, t') -> (length r <= k)%nat -> leggi_riga_max k t = (r, t').
Proof.
  induction t as [|x t IH]; intros r t' k E Hk; cbn [prendi_riga] in E; [injection E as <- <-; by destruct k|].
  assert (Hx : leggi_riga_max k (x :: t) = if x =? 10 then ([], t) else match k with
           | O => ([], x :: t) | S k => let '(r, t'') := leggi_riga_max k t in (x :: r, t'') end) by (by destruct k).
  rewrite Hx. destruct (x =? 10); [injection E as <- <-; done|]. destruct (prendi_riga t) as [r1 t1]. injection E as <- <-.
  destruct k as [|k]; cbn [length] in Hk; [lia|]. by rewrite (IH r1 t1 k) by (done || lia).
Qed.

Lemma stringa_da_id r : Forall (fun x => x <> 0) r -> stringa_da r = r.
Proof. induction 1 as [|x r Hx _ IH]; cbn [stringa_da]; [done|]. by rewrite (proj2 (Z.eqb_neq x 0) Hx), IH. Qed.

(** ** Colons *)

Lemma colonne_senza a : senza 58 a -> Forall (fun x => x <> 0) a -> forall r k c,
  colonne (a ++ r) k c = colonne r (k + length a) c.
Proof.
  induction 1 as [|x a Hx _ IH]; intros H0 r k c; cbn [app length]; [by rewrite Nat.add_0_r|]. apply Forall_cons in H0 as [Hx0 H0].
  cbn [colonne]. rewrite (proj2 (Z.eqb_neq x 0) Hx0), (proj2 (Z.eqb_neq x 58) Hx). cbn [andb]. rewrite IH by done. f_equal. lia.
Qed.

Lemma colonne_colon r k c : (length c < 4)%nat -> colonne (58 :: r) k c = colonne r (S k) (c ++ [k]).
Proof. intros Hc. cbn [colonne]. rewrite (proj2 (Nat.ltb_lt _ 4) Hc). done. Qed.

Lemma colonne_prefisso r : forall k c, exists c', colonne r k c = c ++ c'.
Proof.
  induction r as [|x r IH]; intros k c; cbn [colonne]; [exists []; by rewrite app_nil_r|].
  destruct (x =? 0); [exists []; by rewrite app_nil_r|]. destruct (_ && _); [|apply IH].
  destruct (IH (S k) (c ++ [k])) as [c' ->]. exists (k :: c'). by rewrite <- app_assoc.
Qed.

Lemma colonne_poche r : Forall (fun x => x <> 0) r -> (length (campi r) < 3)%nat -> (length (colonne r 0 []) < 2)%nat.
Proof.
  unfold campi. intros H0 Hl. destruct (spezza_o_no 58 r) as [H|(a & b & -> & Ha)].
  - rewrite <- (app_nil_r r), colonne_senza by done. cbn. lia.
  - apply Forall_app in H0 as [H0a H0b]. apply Forall_cons in H0b as [_ H0b].
    rewrite dividi_app in Hl by done. cbn [length] in Hl. rewrite colonne_senza, colonne_colon by (done || cbn; lia).
    destruct (spezza_o_no 58 b) as [H|(a2 & b2 & -> & Ha2)].
    + rewrite <- (app_nil_r b), colonne_senza by done. cbn. lia.
    + rewrite dividi_app in Hl by done. cbn [length] in Hl. destruct (dividi 58 b2) eqn:E; [|cbn [length] in Hl; lia].
      destruct b2; cbn in E; [done|]. destruct (_ =? _); [done|]. by destruct (dividi 58 b2).
Qed.

Lemma colonne_tre f0 f1 r : senza 58 f0 -> senza 58 f1 -> Forall (fun x => x <> 0) (f0 ++ 58 :: f1 ++ 58 :: r) ->
  exists c', colonne (f0 ++ 58 :: f1 ++ 58 :: r) 0 [] = length f0 :: (length f0 + S (length f1))%nat :: c'.
Proof.
  intros Hf0 Hf1 H0. apply Forall_app in H0 as [H0a H0b]. apply Forall_cons in H0b as [_ H0b]. apply Forall_app in H0b as [H0b _].
  rewrite colonne_senza, colonne_colon, colonne_senza, colonne_colon by (done || cbn; lia). cbn [app Nat.add].
  match goal with |- context [colonne r ?k ?c] => destruct (colonne_prefisso r k c) as [c' ->] end.
  exists c'. cbn [app]. do 2 f_equal. lia.
Qed.

(** ** The lookup *)

Lemma cerca_loop_val nome amax bmax : forall k t, (length t < k)%nat -> righe_corte t ->
  exists o, cerca_loop k t nome 2 amax bmax = Val o /\
    match List.find (conto_riga nome) (righe t) with
    | None => o = None
    | Some r => exists b, (b = [] \/ exists b', b = 58 :: b') /\
        o = Some (take (amax - 1) (nth 1 (campi r) []), take (bmax - 1) (nth 2 (campi r) [] ++ b))
    end.
Proof.
  induction k as [|k IH]; intros t Hk Hc; [lia|]. cbn [cerca_loop].
  destruct t as [|x t]; [by exists None|]. set (t0 := x :: t) in *.
  destruct (prendi_riga_righe t0) as (r & t' & E & _ & _ & Hlt & Hr). specialize (Hlt ltac:(done)).
  assert (Hrc : (length r < RIGA_MAX)%nat /\ Forall (fun x => x <> 0) r /\ righe_corte t').
  { unfold righe_corte in Hc. destruct Hr as [Hr|[Hr ->]]; rewrite Hr in Hc; apply Forall_cons in Hc as [[H1 H2] H3].
    - done.
    - split; [done|]. split; [done|]. apply Forall_singleton. cbn. split; [unfold RIGA_MAX; lia|constructor]. }
  destruct Hrc as (Hlr & Hr0 & Hc'). rewrite (leggi_riga_max_eq t0 r t') by (done || unfold RIGA_MAX in *; lia).
  rewrite (find_righe (conto_riga nome) t0 r t') by done. specialize (IH t' ltac:(lia) Hc').
  rewrite (stringa_da_id r) by done. destruct ((length r =? 0)%nat || (nth 0 r 0 =? 35)) eqn:Ea.
  { unfold conto_riga at 1. rewrite attiva_eq, Ea. exact IH. }
  destruct (Nat.leb_spec 3 (length (campi r))) as [H3|H3].
  2: { rewrite (proj2 (Nat.ltb_lt _ 2)) by (by apply colonne_poche). unfold conto_riga at 1.
       rewrite (proj2 (Nat.leb_gt 3 _) H3), andb_false_r. exact IH. }
  destruct (campi_tre r H3) as (f0 & f1 & f2 & b & Er & E0 & E1 & E2 & Hf0 & Hf1 & _ & Hb).
  destruct (colonne_tre f0 f1 (f2 ++ b) Hf0 Hf1) as [c' Ec]; [by rewrite <- Er|]. rewrite <- Er in Ec. rewrite Ec.
  cbn [length Nat.ltb Nat.leb nth]. replace (take (length f0) r) with f0 by (by rewrite Er, take_app_length).
  assert (Hf00 : Forall (fun x => x <> 0) f0) by (rewrite Er in Hr0; by apply Forall_app in Hr0 as [? _]).
  rewrite (stringa_da_id f0) by done. unfold conto_riga at 1. rewrite attiva_eq, Ea, (proj2 (Nat.leb_le 3 _) H3), E0. cbn [negb andb].
  destruct (bool_decide (f0 = nome)); cbn [negb]; [|exact IH].
  eexists. split; [reflexivity|]. exists b. split; [by destruct Hb as [[? _]|[? _]]; [left|right]|]. rewrite E1, E2.
  assert (Ed : drop (S (length f0)) r = f1 ++ 58 :: f2 ++ b).
  { rewrite Er. replace (f0 ++ 58 :: f1 ++ 58 :: f2 ++ b) with ((f0 ++ [58]) ++ f1 ++ 58 :: f2 ++ b) by (by rewrite <- app_assoc).
    apply drop_app_length'. rewrite length_app. cbn. lia. }
  assert (Ed2 : drop (S (length f0 + S (length f1))) r = f2 ++ b).
  { replace (S (length f0 + S (length f1))) with (S (length f0) + S (length f1))%nat by lia. rewrite <- drop_drop, Ed.
    replace (f1 ++ 58 :: f2 ++ b) with ((f1 ++ [58]) ++ f2 ++ b) by (by rewrite <- app_assoc).
    apply drop_app_length'. rewrite length_app. cbn. lia. }
  rewrite Ed, Ed2. replace (length f0 + S (length f1) - S (length f0))%nat with (length f1) by lia. rewrite take_app_length.
  rewrite Er in Hr0. rewrite !Forall_app, !Forall_cons, !Forall_app, Forall_cons, Forall_app in Hr0. destruct_and! Hr0.
  rewrite !stringa_da_id; [done|by apply Forall_app|done].
Qed.

(** The digest is compared with what follows the second colon; a third colon is
    not a digit. *)
Lemma impronta_dopo d f b : length d = 64%nat -> Forall e_cifra d -> (b = [] \/ exists b', b = 58 :: b') ->
  bool_decide (d = take 64 (f ++ b)) = bool_decide (take 64 f = d).
Proof.
  intros Hd Hc Hb. apply bool_decide_ext. destruct (Nat.le_gt_cases 64 (length f)) as [Hge|Hlt].
  - rewrite take_app_le by lia. done.
  - rewrite (take_ge f) by lia. split; [|intros ->; lia]. intros E. destruct Hb as [->|[b' ->]].
    + rewrite app_nil_r, take_ge in E by lia. done.
    + exfalso. assert (H : nth (length f) d 0 = 58) by (rewrite E, nth_take by lia; apply nth_middle).
      assert (Hx : e_cifra (nth (length f) d 0)) by (apply (proj1 (List.Forall_forall _ d) Hc); apply nth_In; lia).
      rewrite H in Hx. unfold e_cifra in Hx. lia.
Qed.

(** ** The check of a password *)

(** A file as the archive writes it: bytes, lines that fit in the array. *)
Definition testo_ok (f : option (list Z)) : Prop :=
  file_ok f /\ righe_corte (testo_di f FILE_MAX).

Lemma cerca_riga_val f nome amax bmax : testo_ok f ->
  exists o, cerca_riga f nome 2 amax bmax = Val o /\
    match List.find (conto_riga nome) (righe (testo_di f FILE_MAX)) with
    | None => o = None
    | Some r => exists b, (b = [] \/ exists b', b = 58 :: b') /\
        o = Some (take (amax - 1) (nth 1 (campi r) []), take (bmax - 1) (nth 2 (campi r) [] ++ b))
    end.
Proof.
  intros [_ Hr]. unfold cerca_riga, testo_di in *. destruct f as [t|]; cbn [su_leggi fmap option_fmap option_map default] in *.
  - cbn [id] in *. apply cerca_loop_val; [apply Nat.lt_succ_diag_r|exact Hr].
  - by exists None.
Qed.

Lemma testo_bytes f max : file_ok f -> bytes (testo_di f max).
Proof.
  intros Hf. unfold testo_di. destruct f as [t|]; cbn; [|constructor]. apply Forall_take. by apply Hf.
Qed.

(** No salt longer than those that [sale_nuovo] makes. *)
Definition sali_ok (t nome : list Z) : Prop := forall f, conto t nome = Some f -> (length (nth 1 f []) <= 16)%nat.

Lemma fino_zero_id l : Forall (fun x => x <> 0) l -> fino_zero l = l.
Proof. induction 1 as [|x l Hx _ IH]; cbn [fino_zero]; [done|]. by rewrite (proj2 (Z.eqb_neq x 0) Hx), IH. Qed.

Lemma dividi_Forall (P : Z -> Prop) sep l : Forall P l -> Forall (Forall P) (dividi sep l).
Proof.
  induction 1 as [|x l Hx _ IH]; cbn [dividi]; [apply Forall_singleton; constructor|]. destruct (x =? sep).
  - apply Forall_cons. split; [constructor|done].
  - destruct (dividi sep l) as [|f fs]; [by do 2 apply Forall_singleton|]. apply Forall_cons in IH as [Hf Hfs].
    constructor; [by constructor|done].
Qed.

Lemma nth_Forall (P : list Z -> Prop) l i : P [] -> Forall P l -> P (nth i l []).
Proof.
  intros H0 Hl. destruct (Nat.lt_ge_cases i (length l)).
  - apply (proj1 (List.Forall_forall _ l) Hl). by apply nth_In.
  - by rewrite nth_overflow by done.
Qed.

Lemma exuser_verifica_val fs nome pass : nome_valido nome = true -> bytes pass -> (length pass <= 80)%nat ->
  testo_ok (f_utenti fs) -> testo_ok (f_ombra fs) -> sali_ok (testo_di (f_ombra fs) FILE_MAX) nome ->
  exists x, exuser_verifica fs nome pass
    = Val (match conto (testo_di (f_utenti fs) FILE_MAX) nome with
           | None => false | Some _ => password_giusta (testo_di (f_ombra fs) FILE_MAX) nome pass end, x).
Proof.
  intros Hv Hp Hlp Hu Ho Hs. unfold exuser_verifica, trova_utente. rewrite Hv. cbn [negb].
  destruct (cerca_riga_val (f_utenti fs) nome 16 16 Hu) as (o1 & E1 & H1). rewrite E1. cbn [mbind esito_bind]. unfold conto at 1.
  destruct (List.find _ (righe (testo_di (f_utenti fs) FILE_MAX))) as [ru|]; [|subst o1; by exists None].
  destruct H1 as (b1 & _ & ->). cbn [fmap option_fmap option_map].
  destruct (cerca_riga_val (f_ombra fs) nome 17 65 Ho) as (o2 & E2 & H2). rewrite E2. cbn [mbind esito_bind].
  unfold password_giusta. unfold sali_ok, conto in Hs. unfold conto.
  destruct (List.find _ (righe (testo_di (f_ombra fs) FILE_MAX))) as [ro|] eqn:Er; [|subst o2; by exists None].
  destruct H2 as (b & Hb & ->). cbn [fmap option_fmap option_map mbind esito_bind]. cbn [Nat.sub]. specialize (Hs _ eq_refl).
  apply find_some in Er as [Hin _]. destruct Ho as [Hf Hr].
  assert (Hrb : bytes ro) by (apply (proj1 (List.Forall_forall _ _) (dividi_bytes 10 _ (testo_bytes _ FILE_MAX Hf))); done).
  pose proof (proj1 (List.Forall_forall _ _) Hr ro Hin) as [_ Hr0]. cbn beta in Hr0.
  assert (Hf1 : bytes (nth 1 (campi ro) []) /\ Forall (fun x => x <> 0) (nth 1 (campi ro) [])).
  { split; apply (nth_Forall (Forall _)); try constructor; by apply dividi_Forall. }
  rewrite (take_ge _ 16) by done. rewrite (take_ge _ 31) by lia. rewrite fino_zero_id by apply Hf1.
  rewrite impronta_di_val by (done || apply Hf1). cbn [mbind esito_bind].
  destruct (impronta_cifre (nth 1 (campi ro) []) pass) as [Hil Hic]. rewrite impronta_dopo by done. by eexists.
Qed.

(** * Adding an account: the lines and what a lookup finds after them *)


(** ** Decimal numbers *)

Lemma numero_cifre k : forall x acc, 0 <= x < 10 ^ Z.of_nat k -> 0 <= x < W32 -> (0 < k)%nat ->
  numero 0 (cifre_loop k x acc) = numero x acc.
Proof.
  induction k as [|k IH]; intros x acc Hx Hw Hk; [lia|]. cbn [cifre_loop].
  assert (Hd : (48 <=? 48 + x mod 10) && (48 + x mod 10 <=? 57) = true) by zdm.
  destruct (Z.eqb_spec (x / 10) 0) as [E|E].
  - cbn [numero]. rewrite Hd. rewrite u32_small by (unfold W32; zdm). f_equal. zdm.
  - assert (k <> 0)%nat by (intros ->; change (Z.of_nat 1) with 1 in Hx; zdm).
    rewrite Nat2Z.inj_succ, Z.pow_succ_r in Hx by lia. rewrite IH; [|zdm|zdm|lia]. cbn [numero]. rewrite Hd.
    replace (x / 10 * 10 + (48 + x mod 10 - 48)) with x by zdm. by rewrite u32_small.
Qed.

Definition e_decimale (c : Z) : Prop := 48 <= c <= 57.

Lemma cifre_loop_ok k : forall x acc, Forall e_decimale acc -> Forall e_decimale (cifre_loop k x acc) /\ (length (cifre_loop k x acc) <= k + length acc)%nat.
Proof.
  induction k as [|k IH]; intros x acc Ha; cbn [cifre_loop]; [done|].
  assert (Hd : Forall e_decimale (48 + x mod 10 :: acc)) by (constructor; [unfold e_decimale; zdm|done]).
  destruct (_ =? 0); [split; [done|cbn; lia]|]. destruct (IH (x / 10) _ Hd) as [H1 H2]. cbn [length] in H2. split; [done|lia].
Qed.

Lemma decimale_ok x : 0 <= x < W32 -> numero 0 (decimale x) = x /\ Forall e_decimale (decimale x) /\ (length (decimale x) <= 10)%nat.
Proof.
  intros Hx. unfold decimale. destruct (cifre_loop_ok 10 x [] ltac:(constructor)) as [H1 H2]. cbn [length] in H2.
  split; [|split; [done|lia]]. rewrite numero_cifre by (unfold W32 in *; cbn; lia). done.
Qed.

(** ** Appending a line *)

Lemma dividi_concat sep a b : dividi sep (a ++ sep :: b) = dividi sep a ++ dividi sep b.
Proof.
  induction a as [|x a IH]; cbn [app dividi]; [by rewrite Z.eqb_refl|]. rewrite IH. destruct (x =? sep); [done|].
  destruct (dividi sep a) eqn:E; [|done]. destruct a; cbn in E; [done|]. destruct (_ =? _); [done|]. by destruct (dividi sep a).
Qed.

(** A text that is empty or ends with a newline. *)
Definition a_capo (t : list Z) : Prop := t = [] \/ exists t0, t = t0 ++ [10].

Lemma righe_aggiunta t r : a_capo t -> senza 10 r -> exists l, righe t = l ++ [[]] /\ righe (t ++ r ++ [10]) = l ++ [r; []].
Proof.
  intros Ht Hr. assert (E : righe (r ++ [10]) = [r; []]) by (unfold righe; by rewrite dividi_app).
  destruct Ht as [->|[t0 ->]].
  - exists []. cbn [app]. rewrite E. done.
  - exists (righe t0). unfold righe in *. rewrite <- app_assoc. cbn [app]. rewrite dividi_concat, dividi_concat, E. done.
Qed.

Lemma find_aggiunta P t r : a_capo t -> senza 10 r -> P [] = false ->
  List.find P (righe (t ++ r ++ [10])) = match List.find P (righe t) with Some x => Some x | None => if P r then Some r else None end.
Proof.
  intros Ht Hr H0. destruct (righe_aggiunta t r Ht Hr) as (l & E1 & E2). rewrite E1, E2.
  assert (H : forall (l' : list (list Z)), List.find P (l ++ l') = match List.find P l with Some x => Some x | None => List.find P l' end).
  { clear. induction l as [|x l IH]; intros l'; cbn; [done|]. destruct (P x); [done|apply IH]. }
  rewrite !H. destruct (List.find P l); [done|]. cbn. rewrite H0. by destruct (P r).
Qed.

Lemma righe_corte_aggiunta t r : a_capo t -> senza 10 r -> (length r < RIGA_MAX)%nat -> Forall (fun x => x <> 0) r ->
  righe_corte t -> righe_corte (t ++ r ++ [10]).
Proof.
  intros Ht Hr Hl H0 Hc. destruct (righe_aggiunta t r Ht Hr) as (l & E1 & E2). unfold righe_corte in *. rewrite E1 in Hc. rewrite E2.
  apply Forall_app in Hc as [Hc Hn]. apply Forall_app. split; [done|]. apply Forall_cons. split; [done|done].
Qed.

(** ** The line of an account *)

Definition riga_di (nome a b : list Z) : list Z := nome ++ 58 :: a ++ 58 :: b.

Lemma campi_riga_di nome a b : senza 58 nome -> senza 58 a -> senza 58 b -> campi (riga_di nome a b) = [nome; a; b].
Proof. intros. unfold campi, riga_di. by rewrite !dividi_app, dividi_senza. Qed.

Lemma nome_valido_ok nome : nome_valido nome = true ->
  nome <> [] /\ (length nome < 32)%nat /\ Forall (fun c => 48 <= c <= 122 /\ c <> 58) nome.
Proof.
  unfold nome_valido. intros H. apply andb_true_iff in H as [H H3]. apply andb_true_iff in H as [H1 H2]. split; [by destruct nome|].
  split; [by apply Nat.ltb_lt|]. apply Forall_forall. intros c Hc. rewrite forallb_forall in H2.
  specialize (H2 c (proj1 (list_elem_of_In _ _) Hc)). unfold carattere_valido in H2. lia.
Qed.

Lemma conto_riga_di nome nome' a b : nome_valido nome = true -> senza 58 a -> senza 58 b ->
  conto_riga nome' (riga_di nome a b) = bool_decide (nome = nome').
Proof.
  intros Hv Ha Hb. destruct (nome_valido_ok nome Hv) as (Hn & _ & Hf).
  assert (Hs : senza 58 nome) by (eapply Forall_impl; [exact Hf|]; cbn; tauto).
  unfold conto_riga. rewrite campi_riga_di by done. cbn [length Nat.leb nth].
  destruct nome as [|c nome]; [done|]. apply Forall_cons in Hf as [Hc _]. cbn [riga_di app attiva].
  rewrite (proj2 (Z.eqb_neq c 35)) by lia. done.
Qed.

(** What a lookup finds in a text with one account more. *)
Lemma conto_aggiunta t nome nome' a b : a_capo t -> nome_valido nome = true -> senza 58 a -> senza 58 b -> senza 10 a -> senza 10 b ->
  conto (t ++ riga_di nome a b ++ [10]) nome'
  = match conto t nome' with Some f => Some f | None => if bool_decide (nome = nome') then Some [nome; a; b] else None end.
Proof.
  intros Ht Hv Ha Hb Ha' Hb'. destruct (nome_valido_ok nome Hv) as (_ & _ & Hf). unfold conto.
  assert (Hs : senza 58 nome) by (eapply Forall_impl; [exact Hf|]; cbn; tauto).
  rewrite find_aggiunta; [|done| |done].
  - rewrite conto_riga_di by done. destruct (List.find _ _); [done|]. destruct (bool_decide _); [|done].
    cbn [fmap option_fmap option_map]. by rewrite campi_riga_di.
  - unfold riga_di. apply Forall_app. split; [eapply Forall_impl; [exact Hf|]; cbn; lia|].
    apply Forall_cons. split; [lia|]. apply Forall_app. split; [done|]. apply Forall_cons. split; [lia|done].
Qed.
