(* ===== verification/SuThms.v ===== *)
(** * Accounts: theorems

    The kernel decides [sys_su] as the files say, in step with the library that
    writes the files and checks the password at login, and an account that the
    library adds is the one found afterwards. *)

From S2P Require Import Prelude Bytes Esito ShaSpec ShaBlocco Sha256 Sha256Flusso.
From S2P Require Import Sha256K ShaThms Su SuSpec SuPassi Exuser ExuserPassi.

(** Examples: an archive with root and one user, memory with two strings. *)
Definition parole_in (a : Z) (s : list Z) (mem : Z -> Z) : Z -> Z :=
  fun x => if (a <=? x) && (x <? a + Z.of_nat (length s)) then nth (Z.to_nat (x - a)) s 0 else mem x.

Definition x_mem : Z -> Z := parole_in 0x8000 [97; 98] (parole_in 0x9000 [120; 121; 122] (fun _ => 0)).

Definition x_pila : Pila :=
  mkPila (replicate 32 1) (replicate 80 2) (replicate 160 3) (replicate 16 4) (replicate 16 5) (replicate 64 6).

Definition x_ombra : list Z := Eval vm_compute in 97 :: 98 :: 58 :: 115 :: 58 :: impronta [115] [120; 121; 122] ++ [10].

(** "ab:1000:100", its shadow line with the salt "s" and the password "xyz", and "ab" among the
    administrators. *)
Definition x_archivio : Archivio :=
  mkA (Some [97; 98; 58; 49; 48; 48; 48; 58; 49; 48; 48; 10])
      (Some x_ombra)
      (Some [35; 10; 97; 98; 32; 13; 10]).

Lemma x_mem_byte a : 0 <= x_mem a < 256.
Proof.
  unfold x_mem, parole_in. repeat destruct (_ && _); [| |lia];
    destruct (Z.to_nat _) as [|[|[|[|k]]]]; cbn; lia.
Qed.

Lemma x_ombra_ok : file_ok (Some x_ombra).
Proof.
  intros t Ht. injection Ht as <-. apply Forall_forall. intros x Hx.
  assert (E : forallb (fun x => (0 <=? x) && (x <? 256)) x_ombra = true) by (vm_compute; reflexivity).
  rewrite forallb_forall in E. specialize (E x (proj1 (list_elem_of_In _ _) Hx)). lia.
Qed.

Lemma x_pila_ok : pila_ok x_pila.
Proof. by split. Qed.



(** The kernel and the library agree on passwords: for a valid name, a password of
    80 characters at most, and files whose lines fit in the array of the library
    and whose salt is not longer than the ones it makes, both checks return, and
    [exuser_verifica] says yes exactly when [sys_su] finds the password right. *)
Theorem su_exuser_agree mem fs l nome pass sn sp :
  (forall a, 0 <= mem a < 256) -> pila_ok l ->
  stringa (dal_chiamante mem nome) sn -> stringa (dal_chiamante mem pass) sp -> bytes sp ->
  nome_valido sn = true -> (length sp <= 80)%nat -> testo_ok (f_utenti fs) -> testo_ok (f_ombra fs) ->
  sali_ok (testo_di (f_ombra fs) FILE_MAX) sn ->
  exists b x o, exuser_verifica fs sn sp = Val (b, x) /\ su_password mem fs l nome pass = Val o /\
    (b = true <-> o <> None).
Proof.
  intros Hm Hl Hn Hp Hbp Hv Hlp Hu Ho Hs.
  destruct (exuser_verifica_val fs sn sp Hv Hbp Hlp Hu Ho Hs) as (x & E).
  pose proof (su_password_val mem nome pass sn sp Hn Hp Hbp ltac:(lia) fs l Hl (proj1 Ho)) as E2.
  eexists _, x, _. split; [exact E|]. split; [exact E2|]. change SU_FILE_MAX with FILE_MAX.
  destruct (conto (testo_di (f_utenti fs) FILE_MAX) sn) as [f|]; [|by split]. destruct (password_giusta _ sn sp); by split.
Qed.

Lemma x_testo_ok f : file_ok f -> forallb (fun r => (length r <? 192)%nat && forallb (fun x => negb (x =? 0)) r) (righe (testo_di f FILE_MAX)) = true ->
  testo_ok f.
Proof.
  intros Hf E. split; [done|]. apply Forall_forall. intros r Hr. rewrite forallb_forall in E.
  specialize (E r (proj1 (list_elem_of_In _ _) Hr)). apply andb_true_iff in E as [E1 E2]. split; [by apply Nat.ltb_lt|].
  apply Forall_forall. intros x Hx. rewrite forallb_forall in E2. specialize (E2 x (proj1 (list_elem_of_In _ _) Hx)). lia.
Qed.

Lemma x_utenti_ok : file_ok (f_utenti x_archivio).
Proof. intros t Ht. injection Ht as <-. repeat (apply Forall_cons; split; [lia|]). constructor. Qed.

Lemma x_stringa a s : Forall (fun x => x <> 0) s -> x_mem (u32 (a + Z.of_nat (length s))) = 0 ->
  forallb (fun k => x_mem (u32 (a + Z.of_nat k)) =? nth k s 0) (seq 0 (length s)) = true -> stringa (dal_chiamante x_mem a) s.
Proof.
  intros Hs H0 E. rewrite forallb_forall in E.
  assert (Hk : forall k, (k < length s)%nat -> x_mem (u32 (a + Z.of_nat k)) = nth k s 0).
  { intros k Hk. apply Z.eqb_eq. apply E, in_seq. lia. }
  assert (N : forall j, (j < length s)%nat -> x_mem (u32 (a + Z.of_nat j)) <> 0) by (intros j Hj; rewrite Hk by done; by apply nth_non_zero).
  split; [done|]. split; [by rewrite (dal_chiamante_val _ _ (length s)), H0 by done|].
  intros k Hlt. by rewrite (dal_chiamante_val _ _ (length s)), Hk by (done || lia).
Qed.

Lemma su_exuser_agree_witness :
  exists b x o, exuser_verifica x_archivio [97; 98] [120; 121; 122] = Val (b, x) /\
    su_password x_mem x_archivio x_pila 0x8000 0x9000 = Val o /\ (b = true <-> o <> None).
Proof.
  apply (su_exuser_agree x_mem x_archivio x_pila 0x8000 0x9000 [97; 98] [120; 121; 122]).
  - exact x_mem_byte.
  - exact x_pila_ok.
  - apply x_stringa; [repeat constructor; discriminate|vm_compute; reflexivity|vm_compute; reflexivity].
  - apply x_stringa; [repeat constructor; discriminate|vm_compute; reflexivity|vm_compute; reflexivity].
  - repeat (apply Forall_cons; split; [lia|]). constructor.
  - reflexivity.
  - cbn. lia.
  - apply x_testo_ok; [exact x_utenti_ok|vm_compute; reflexivity].
  - apply x_testo_ok; [exact x_ombra_ok|vm_compute; reflexivity].
  - intros f Hf. vm_compute in Hf. injection Hf as <-. cbn. lia.
Defined.

(** ** Adding an account *)

(** A file as the archive keeps it, with room for a line in what is read of it. *)
Definition archiviato (f : option (list Z)) : Prop :=
  testo_ok f /\ a_capo (default [] f) /\ Z.of_nat (length (default [] f)) + Z.of_nat RIGA_MAX < Z.of_nat FILE_MAX.

Lemma archiviato_testo f : archiviato f -> testo_di f FILE_MAX = default [] f.
Proof.
  intros (_ & _ & Hl). unfold testo_di. destruct f as [t|]; [|done]. cbn [default id] in *.
  unfold su_leggi. cbn [fmap option_fmap option_map default id]. apply take_ge. lia.
Qed.

Lemma testo_aggiunta f r : archiviato f -> bytes r -> (length r < RIGA_MAX - 1)%nat -> senza 10 r -> Forall (fun x => x <> 0) r ->
  let f' := Some (default [] f ++ r ++ [10]) in
  testo_ok f' /\ testo_di f' FILE_MAX = default [] f ++ r ++ [10].
Proof.
  intros Ha Hb Hl Hr H0 f'. pose proof (archiviato_testo f Ha) as Et. destruct Ha as ([Hf Hc] & Ht & Hlen). rewrite Et in Hc.
  assert (E : testo_di f' FILE_MAX = default [] f ++ r ++ [10]).
  { unfold testo_di, su_leggi, f'. cbn [fmap option_fmap option_map default id]. apply take_ge. rewrite !length_app. cbn [length]. lia. }
  split; [|exact E]. split.
  - intros t Et'. injection Et' as <-. apply Forall_app. split.
    + destruct f as [t|]; [|constructor]. by apply Hf.
    + apply Forall_app. split; [done|]. apply Forall_singleton. lia.
  - rewrite E. apply righe_corte_aggiunta; try done. lia.
Qed.

(** The salt that [aggiungi_utente] takes from the seed. *)
Definition sale_di (semi : list Z) : list Z := take 16 (in_cifre (SHA256 semi)).

Lemma sale_di_ok semi : length (sale_di semi) = 16%nat /\ Forall e_cifra (sale_di semi).
Proof.
  unfold sale_di. destruct (SHA256_ok semi) as [Hl Hb]. split; [rewrite length_take, length_in_cifre, Hl; done|].
  pose proof (cifre_cifra _ Hb) as Hc. rewrite Hl in Hc. apply (Forall_take _ 16) in Hc. by rewrite take_take in Hc.
Qed.

Lemma e_cifra_ok l : Forall e_cifra l -> bytes l /\ senza 58 l /\ senza 10 l /\ Forall (fun x => x <> 0) l.
Proof. intros Hl. repeat split; (eapply Forall_impl; [exact Hl|]); unfold e_cifra; cbn; lia. Qed.

Lemma riga_di_ok nome a b : nome_valido nome = true -> bytes a -> bytes b -> senza 10 a -> senza 10 b ->
  Forall (fun x => x <> 0) a -> Forall (fun x => x <> 0) b ->
  bytes (riga_di nome a b) /\ senza 10 (riga_di nome a b) /\ Forall (fun x => x <> 0) (riga_di nome a b) /\
  length (riga_di nome a b) = (length nome + length a + length b + 2)%nat.
Proof.
  intros Hv H1 H2 H3 H4 H5 H6. destruct (nome_valido_ok nome Hv) as (_ & _ & Hf). unfold riga_di, bytes, senza.
  rewrite !Forall_app, !Forall_cons, !Forall_app, !Forall_cons.
  repeat (split || done || lia || (eapply Forall_impl; [exact Hf|]; cbn; lia)).
  rewrite length_app. cbn [length]. rewrite length_app. cbn [length]. lia.
Qed.

Lemma e_decimale_ok l : Forall e_decimale l -> bytes l /\ senza 58 l /\ senza 10 l /\ Forall (fun x => x <> 0) l.
Proof. intros Hl. repeat split; (eapply Forall_impl; [exact Hl|]); unfold e_decimale; cbn; lia. Qed.

(** The two lines that are appended. *)
Definition riga_ombra (nome pass semi : list Z) : list Z := riga_di nome (sale_di semi) (impronta (sale_di semi) pass).
Definition riga_utenti (nome : list Z) (uid gid : Z) : list Z := riga_di nome (decimale uid) (decimale gid).

Section Adding.

Context (fs : Archivio) (nome pass semi : list Z) (uid gid : Z).
Context (Hv : nome_valido nome = true).
Context (Huid : 0 <= uid < W32) (Hgid : 0 <= gid < W32).
Context (Hu : archiviato (f_utenti fs)) (Ho : archiviato (f_ombra fs)).

Lemma riga_ombra_ok : bytes (riga_ombra nome pass semi) /\ senza 10 (riga_ombra nome pass semi) /\
  Forall (fun x => x <> 0) (riga_ombra nome pass semi) /\ (length (riga_ombra nome pass semi) < RIGA_MAX - 2)%nat.
Proof.
  destruct (sale_di_ok semi) as [Hls Hcs]. destruct (impronta_cifre (sale_di semi) pass) as [Hli Hci].
  destruct (e_cifra_ok _ Hcs) as (S1 & S2 & S3 & S4), (e_cifra_ok _ Hci) as (I1 & I2 & I3 & I4).
  destruct (riga_di_ok nome _ _ Hv S1 I1 S3 I3 S4 I4) as (R1 & R2 & R3 & R4). destruct (nome_valido_ok nome Hv) as (_ & Hn & _).
  unfold riga_ombra. rewrite R4. unfold RIGA_MAX. do 3 (split; [done|]). lia.
Qed.

Lemma riga_utenti_ok : bytes (riga_utenti nome uid gid) /\ senza 10 (riga_utenti nome uid gid) /\
  Forall (fun x => x <> 0) (riga_utenti nome uid gid) /\ (length (riga_utenti nome uid gid) < RIGA_MAX - 2)%nat.
Proof.
  destruct (decimale_ok uid Huid) as (_ & Hcu & Hlu), (decimale_ok gid Hgid) as (_ & Hcg & Hlg).
  destruct (e_decimale_ok _ Hcu) as (S1 & S2 & S3 & S4), (e_decimale_ok _ Hcg) as (I1 & I2 & I3 & I4).
  destruct (riga_di_ok nome _ _ Hv S1 I1 S3 I3 S4 I4) as (R1 & R2 & R3 & R4). destruct (nome_valido_ok nome Hv) as (_ & Hn & _).
  unfold riga_utenti. rewrite R4. unfold RIGA_MAX. do 3 (split; [done|]). lia.
Qed.

(** The archive with the two lines. *)
Definition con_conto : Archivio :=
  mkA (Some (default [] (f_utenti fs) ++ riga_utenti nome uid gid ++ [10]))
      (Some (default [] (f_ombra fs) ++ riga_ombra nome pass semi ++ [10])) (f_amministratori fs).

Lemma aggiungi_utente_val n_o n_u : bytes pass -> (length pass <= 80)%nat -> bytes semi -> (RIGA_MAX <= n_o)%nat -> (RIGA_MAX <= n_u)%nat ->
  conto (default [] (f_utenti fs)) nome = None ->
  aggiungi_utente fs nome pass uid gid semi (Some n_o) (Some n_u) = Val (con_conto, 0).
Proof.
  intros Hp Hlp Hsemi Hno Hnu Hc. unfold aggiungi_utente, trova_utente.
  destruct (cerca_riga_val (f_utenti fs) nome 16 16 (proj1 Hu)) as (o & E & H). rewrite E. cbn [mbind esito_bind].
  rewrite (archiviato_testo _ Hu) in H. unfold conto in Hc. destruct (List.find _ _); [done|]. subst o. cbn [mbind esito_bind].
  unfold sale_nuovo. rewrite (esa_di_val semi Hsemi). cbn [mbind esito_bind]. rewrite take_take. change (16 `min` 64)%nat with 16%nat.
  fold (sale_di semi). destruct (sale_di_ok semi) as [Hls Hcs]. destruct (e_cifra_ok _ Hcs) as (Hbs & _).
  rewrite impronta_di_val by (done || lia). cbn [mbind esito_bind].
  assert (El : forall a b : list Z, nome ++ 58 :: a ++ 58 :: b ++ [10] = riga_di nome a b ++ [10]).
  { intros a b. unfold riga_di. rewrite <- app_assoc. cbn [app]. by rewrite <- app_assoc. }
  rewrite !El. fold (riga_ombra nome pass semi). fold (riga_utenti nome uid gid).
  destruct riga_ombra_ok as (_ & _ & _ & L1). destruct riga_utenti_ok as (_ & _ & _ & L2).
  assert (T1 : forall r, (length r < RIGA_MAX - 2)%nat -> take (RIGA_MAX - 1) (r ++ [10]) = r ++ [10])
    by (intros r Hr; apply take_ge; rewrite length_app; cbn [length]; lia).
  rewrite !T1 by done. unfold scrivi_riga.
  assert (T2 : forall (r : list Z) n, (length r < RIGA_MAX - 2)%nat -> (RIGA_MAX <= n)%nat ->
             take n (r ++ [10]) = r ++ [10] /\ Nat.ltb n (length (r ++ [10])) = false).
  { intros r n Hr Hn. rewrite length_app. cbn [length]. split; [apply take_ge; rewrite length_app; cbn [length]; lia|].
    apply Nat.ltb_ge. lia. }
  destruct (T2 _ n_o L1 Hno) as [-> ->]. destruct (T2 _ n_u L2 Hnu) as [-> ->]. reflexivity.
Qed.

Lemma con_conto_ok : testo_ok (f_utenti con_conto) /\ testo_ok (f_ombra con_conto) /\
  testo_di (f_utenti con_conto) FILE_MAX = default [] (f_utenti fs) ++ riga_utenti nome uid gid ++ [10] /\
  testo_di (f_ombra con_conto) FILE_MAX = default [] (f_ombra fs) ++ riga_ombra nome pass semi ++ [10].
Proof.
  destruct riga_ombra_ok as (O1 & O2 & O3 & O4), riga_utenti_ok as (U1 & U2 & U3 & U4).
  destruct (testo_aggiunta (f_utenti fs) (riga_utenti nome uid gid) Hu U1 ltac:(lia) U2 U3) as [HU EU].
  destruct (testo_aggiunta (f_ombra fs) (riga_ombra nome pass semi) Ho O1 ltac:(lia) O2 O3) as [HO EO].
  exact (conj HU (conj HO (conj EU EO))).
Qed.

Lemma conto_utenti_dopo nome' : conto (testo_di (f_utenti con_conto) FILE_MAX) nome'
  = match conto (default [] (f_utenti fs)) nome' with Some f => Some f
    | None => if bool_decide (nome = nome') then Some [nome; decimale uid; decimale gid] else None end.
Proof.
  destruct con_conto_ok as (_ & _ & -> & _). destruct Hu as (_ & Hc & _).
  destruct (decimale_ok uid Huid) as (_ & Hcu & _), (decimale_ok gid Hgid) as (_ & Hcg & _).
  destruct (e_decimale_ok _ Hcu) as (_ & S2 & S3 & _), (e_decimale_ok _ Hcg) as (_ & I2 & I3 & _).
  by apply conto_aggiunta.
Qed.

Lemma conto_ombra_dopo nome' : conto (testo_di (f_ombra con_conto) FILE_MAX) nome'
  = match conto (default [] (f_ombra fs)) nome' with Some f => Some f
    | None => if bool_decide (nome = nome') then Some [nome; sale_di semi; impronta (sale_di semi) pass] else None end.
Proof.
  destruct con_conto_ok as (_ & _ & _ & ->). destruct Ho as (_ & Hc & _).
  destruct (sale_di_ok semi) as [_ Hcs]. destruct (impronta_cifre (sale_di semi) pass) as [_ Hci].
  destruct (e_cifra_ok _ Hcs) as (_ & S2 & S3 & _), (e_cifra_ok _ Hci) as (_ & I2 & I3 & _).
  by apply conto_aggiunta.
Qed.

(** The password that counts: the one of an older line of the shadow file, if there
    is one. *)
Definition vale (pass' : list Z) : bool :=
  match conto (default [] (f_ombra fs)) nome with
  | Some _ => password_giusta (default [] (f_ombra fs)) nome pass'
  | None => bool_decide (impronta (sale_di semi) pass = impronta (sale_di semi) pass')
  end.

Lemma password_dopo pass' : password_giusta (testo_di (f_ombra con_conto) FILE_MAX) nome pass' = vale pass'.
Proof.
  unfold vale, password_giusta. rewrite conto_ombra_dopo. destruct (conto (default [] (f_ombra fs)) nome) as [f|]; [done|].
  rewrite bool_decide_true by done. cbn [nth]. destruct (sale_di_ok semi) as [Hls Hcs]. destruct (e_cifra_ok _ Hcs) as (_ & _ & _ & S4).
  rewrite (take_ge (sale_di semi)) by lia. rewrite (fino_zero_id _ S4).
  destruct (impronta_ok (sale_di semi) pass) as [Hli _]. by rewrite (take_ge (impronta _ pass)) by lia.
Qed.

End Adding.


Lemma x_archiviato f : testo_ok f -> bool_decide (default [] f = []) || (List.last (default [] f) 0 =? 10) = true ->
  (Z.of_nat (length (default [] f)) + Z.of_nat RIGA_MAX <? Z.of_nat FILE_MAX) = true -> archiviato f.
Proof.
  intros Ht Ha Hl. split; [done|]. split; [|by apply Z.ltb_lt]. unfold a_capo. apply orb_true_iff in Ha as [Ha%bool_decide_eq_true|Ha%Z.eqb_eq]; [by left | right].
  destruct (exists_last (l := default [] f)) as (l & x & E); [intros E; rewrite E in Ha; discriminate Ha|]. exists l. rewrite E in *. by rewrite last_last in Ha; subst x.
Qed.

