(* ===== verification/Modulo.v ===== *)
(** * The loader of kernel modules (kernel/loader/modulo.c)

    One loader for the 32 and the 64 bit kernel: [Arch] selects the layouts.  The
    file and the image are lists of bytes, an address in them an offset; a read or
    a write outside is [Fuori], a RIFIUTA is [Rifiuto].  The base address of the
    image and whether memory, file and entry point do their part are arguments.
    What the loader takes and gives back of the kernel heap is a list of events. *)

From S2P Require Import Prelude Esito Sha256 Sha256K.

Inductive Arch : Type := I386 | X86_64.

(** ** Numbers in a buffer, the least significant byte first *)

Fixpoint le (b : list Z) : Z := match b with [] => 0 | x :: b => x + 256 * le b end.

Fixpoint le_byte (n : nat) (x : Z) : list Z := match n with O => [] | S n => x mod 256 :: le_byte n (x / 256) end.

Definition le_a (b : list Z) (off : Z) (n : nat) : esito Z :=
  if (0 <=? off) && (off + Z.of_nat n <=? Z.of_nat (length b)) then Val (le (take n (drop (Z.to_nat off) b))) else Fuori.

(** [memcpy(b + off, s, n)] where [s] are the [n] bytes. *)
Definition copia_a (b : list Z) (off : Z) (s : list Z) : esito (list Z) :=
  if (length s =? 0)%nat then Val b
  else if (0 <=? off) && (off + Z.of_nat (length s) <=? Z.of_nat (length b))
  then Val (take (Z.to_nat off) b ++ s ++ drop (Z.to_nat off + length s) b)
  else Fuori.

(** The [n] bytes at [f + off]. *)
Definition tratto (f : list Z) (off n : Z) : esito (list Z) :=
  if n =? 0 then Val []
  else if (0 <=? off) && (off + n <=? Z.of_nat (length f)) then Val (take (Z.to_nat n) (drop (Z.to_nat off) f)) else Fuori.

(** ** ELF *)

Definition ET_DYN : Z := 3.
Definition PT_LOAD : Z := 1.
Definition PT_DYNAMIC : Z := 2.
Definition PT_INTERP : Z := 3.
Definition DT_NULL : Z := 0.
Definition DT_NEEDED : Z := 1.
Definition DT_PLTRELSZ : Z := 2.
Definition DT_INIT : Z := 12.
Definition DT_FINI : Z := 13.
Definition DT_JMPREL : Z := 23.
Definition DT_INIT_ARRAY : Z := 25.
Definition DT_INIT_ARRAYSZ : Z := 27.
Definition DT_PREINIT_ARRAY : Z := 32.
Definition REL_RELATIVO : Z := 8.

Definition ELF_CLASSE (a : Arch) : Z := match a with I386 => 1 | X86_64 => 2 end.
Definition ELF_MACCHINA (a : Arch) : Z := match a with I386 => 3 | X86_64 => 62 end.
Definition DT_I_REL (a : Arch) : Z := match a with I386 => 17 | X86_64 => 7 end.
Definition DT_I_RELSZ (a : Arch) : Z := match a with I386 => 18 | X86_64 => 8 end.
Definition DT_I_RELENT (a : Arch) : Z := match a with I386 => 19 | X86_64 => 9 end.
Definition REL_TIPO (a : Arch) (i : Z) : Z := match a with I386 => Z.land i 0xFF | X86_64 => Z.land i 0xFFFFFFFF end.

(** Bytes of an address, and of the four structures. *)
Definition dim_addr (a : Arch) : nat := match a with I386 => 4 | X86_64 => 8 end.
Definition dim_ehdr (a : Arch) : Z := match a with I386 => 52 | X86_64 => 64 end.
Definition dim_phdr (a : Arch) : Z := match a with I386 => 32 | X86_64 => 56 end.
Definition dim_dyn (a : Arch) : Z := match a with I386 => 8 | X86_64 => 16 end.
Definition dim_rel (a : Arch) : Z := match a with I386 => 8 | X86_64 => 24 end.

Record MElfEhdr : Type := mkEhdr {
  e_ident : list Z; e_type : Z; e_machine : Z; e_entry : Z; e_phoff : Z; e_phentsize : Z; e_phnum : Z
}.

Definition leggi_ehdr (a : Arch) (f : list Z) : esito MElfEhdr :=
  ident ← tratto f 0 16;
  ty ← le_a f 16 2;
  ma ← le_a f 18 2;
  en ← le_a f 24 (dim_addr a);
  po ← le_a f (match a with I386 => 28 | X86_64 => 32 end) (dim_addr a);
  ps ← le_a f (match a with I386 => 42 | X86_64 => 54 end) 2;
  pn ← le_a f (match a with I386 => 44 | X86_64 => 56 end) 2;
  Val (mkEhdr ident ty ma en po ps pn).

Record MElfPhdr : Type := mkPhdr { p_type : Z; p_offset : Z; p_vaddr : Z; p_filesz : Z; p_memsz : Z }.

(** [ph[i]]: the header at [f + phoff + i * sizeof]. *)
Definition leggi_phdr (a : Arch) (f : list Z) (phoff : Z) (i : nat) : esito MElfPhdr :=
  let o := phoff + Z.of_nat i * dim_phdr a in
  ty ← le_a f o 4;
  op ← le_a f (o + match a with I386 => 4 | X86_64 => 8 end) (dim_addr a);
  va ← le_a f (o + match a with I386 => 8 | X86_64 => 16 end) (dim_addr a);
  fi ← le_a f (o + match a with I386 => 16 | X86_64 => 32 end) (dim_addr a);
  me ← le_a f (o + match a with I386 => 20 | X86_64 => 40 end) (dim_addr a);
  Val (mkPhdr ty op va fi me).

Definition MODULO_DIM_MAX : Z := 1024 * 1024.

(** The checks of the header; [dim] is the length of [f]. *)
Definition controlla_ehdr (a : Arch) (f : list Z) : esito MElfEhdr :=
  let dim := Z.of_nat (length f) in
  esige (negb (dim <? dim_ehdr a));;
  e ← leggi_ehdr a f;
  let id := fun i => nth i (e_ident e) 0 in
  esige (negb (negb (id 0%nat =? 0x7F) || negb (id 1%nat =? 69) || negb (id 2%nat =? 76) || negb (id 3%nat =? 70)));;
  esige (negb (negb (id 4%nat =? ELF_CLASSE a) || negb (id 5%nat =? 1) || negb (e_machine e =? ELF_MACCHINA a)));;
  esige (e_type e =? ET_DYN);;
  esige (negb (negb (e_phentsize e =? dim_phdr a) || (e_phnum e =? 0) || (16 <? e_phnum e) ||
               (dim <? u64 (e_phoff e + u64 (e_phnum e * dim_phdr a)))));;
  Val e.

(** The loop that measures the image: the end of the last segment and where the
    dynamic section is. *)
Fixpoint misura (k i : nat) (a : Arch) (f : list Z) (phoff fine off_dyn n_dyn : Z) : esito (Z * Z * Z) :=
  match k with
  | O => Val (fine, off_dyn, n_dyn)
  | S k =>
      p ← leggi_phdr a f phoff i;
      esige (negb (p_type p =? PT_INTERP));;
      let '(off_dyn, n_dyn) := if p_type p =? PT_DYNAMIC then (p_vaddr p, u32 (p_memsz p / dim_dyn a)) else (off_dyn, n_dyn) in
      if negb (p_type p =? PT_LOAD) then misura k (S i) a f phoff fine off_dyn n_dyn
      else
        esige (negb ((p_memsz p <? p_filesz p) ||
                     (Z.of_nat (length f) <? u64 (p_offset p + p_filesz p)) ||
                     (MODULO_DIM_MAX * 2 <? u64 (p_vaddr p + p_memsz p))));;
        let q := u64 (p_vaddr p + p_memsz p) in
        misura k (S i) a f phoff (if fine <? q then q else fine) off_dyn n_dyn
  end.

(** The loop that copies the segments. *)
Fixpoint copia_segmenti (k i : nat) (a : Arch) (f : list Z) (phoff : Z) (img : list Z) : esito (list Z) :=
  match k with
  | O => Val img
  | S k =>
      p ← leggi_phdr a f phoff i;
      img ← (if p_type p =? PT_LOAD
             then s ← tratto f (p_offset p) (p_filesz p); copia_a img (p_vaddr p) s
             else Val img);
      copia_segmenti k (S i) a f phoff img
  end.

(** The relocation table, from the dynamic section. *)
Record Tabella : Type := mkTab { t_rel : Z; t_relsz : Z; t_relent : Z }.

Fixpoint leggi_dinamica (k i : nat) (a : Arch) (img : list Z) (off_dyn : Z) (t : Tabella) : esito Tabella :=
  match k with
  | O => Val t
  | S k =>
      let o := off_dyn + Z.of_nat i * dim_dyn a in
      tag ← le_a img o (dim_addr a);
      if tag =? DT_NULL then Val t
      else
        v ← le_a img (o + Z.of_nat (dim_addr a)) (dim_addr a);
        t ← (if tag =? DT_I_REL a then Val (mkTab v (t_relsz t) (t_relent t))
             else if tag =? DT_I_RELSZ a then Val (mkTab (t_rel t) v (t_relent t))
             else if tag =? DT_I_RELENT a then Val (mkTab (t_rel t) (t_relsz t) v)
             else if tag =? DT_NEEDED then Rifiuto
             else if (tag =? DT_JMPREL) || (tag =? DT_PLTRELSZ) then (if negb (v =? 0) then Rifiuto else Val t)
             else if (tag =? DT_INIT) || (tag =? DT_FINI) || (tag =? DT_INIT_ARRAY) || (tag =? DT_PREINIT_ARRAY) then Rifiuto
             else if tag =? DT_INIT_ARRAYSZ then (if negb (v =? 0) then Rifiuto else Val t)
             else Val t);
        leggi_dinamica k (S i) a img off_dyn t
  end.

(** The loop over the relocations, read from the image that they change. *)
Fixpoint riloca (k i : nat) (a : Arch) (base fine rel : Z) (img : list Z) : esito (list Z) :=
  match k with
  | O => Val img
  | S k =>
      let o := rel + Z.of_nat i * dim_rel a in
      off ← le_a img o (dim_addr a);
      info ← le_a img (o + Z.of_nat (dim_addr a)) (dim_addr a);
      esige (REL_TIPO a info =? REL_RELATIVO);;
      esige (negb (fine <? u64 (off + Z.of_nat (dim_addr a))));;
      x ← (match a with I386 => x ← le_a img off 4; Val (u32 (x + base)) | X86_64 => ad ← le_a img (o + 16) 8; Val (u64 (base + ad)) end);
      img ← copia_a img off (le_byte (dim_addr a) x);
      riloca k (S i) a base fine rel img
  end.

Record Immagine : Type := mkImg { i_img : list Z; i_dim : Z; i_ingresso : Z }.

(** What comes before the memory is taken: the header and the measures. *)
Definition controlla_elf (a : Arch) (f : list Z) : esito (MElfEhdr * Z * Z * Z) :=
  e ← controlla_ehdr a f;
  '(fine, off_dyn, n_dyn) ← misura (Z.to_nat (e_phnum e)) 0 a f (e_phoff e) 0 0 0;
  esige (negb (fine =? 0));;
  esige (negb (fine <=? e_entry e));;
  Val (e, Z.land (u64 (fine + 4095)) (u64 (Z.lnot 4095)), off_dyn, n_dyn).

(** What comes after, in an image of [fine] bytes at [base]. *)
Definition carica_img (a : Arch) (f : list Z) (base : Z) (e : MElfEhdr) (fine off_dyn n_dyn : Z) : esito Immagine :=
  img ← copia_segmenti (Z.to_nat (e_phnum e)) 0 a f (e_phoff e) (replicate (Z.to_nat fine) 0);
  t ← (if negb (n_dyn =? 0)
       then esige (negb (fine <? u64 (off_dyn + u64 (n_dyn * dim_dyn a))));;
            leggi_dinamica (Z.to_nat n_dyn) 0 a img off_dyn (mkTab 0 0 0)
       else Val (mkTab 0 0 0));
  img ← (if negb (t_relsz t =? 0)
         then esige (negb (negb (t_relent t =? dim_rel a) || (fine <? u64 (t_rel t + t_relsz t)) ||
                           negb (t_relsz t mod dim_rel a =? 0)));;
              riloca (Z.to_nat (u32 (t_relsz t / dim_rel a))) 0 a base fine (t_rel t) img
         else Val img);
  Val (mkImg img fine (base + e_entry e)).

(** Blocks of the kernel heap that the loader takes and gives back. *)
Inductive evento : Type := Presa_file | Resa_file | Presa_img | Resa_img.

(** [base] is what [kmalloc_aligned] returns, 0 when there is no memory. *)
Definition carica_elf (a : Arch) (f : list Z) (base : Z) : esito (list evento * option Immagine) :=
  o ← prova (controlla_elf a f);
  match o with
  | None => Val ([], None)
  | Some (e, fine, off_dyn, n_dyn) =>
      if base =? 0 then Val ([], None)
      else
        r ← prova (carica_img a f base e fine off_dyn n_dyn);
        match r with
        | None => Val ([Presa_img; Resa_img], None)
        | Some i => Val ([Presa_img], Some i)
        end
  end.

(** ** The trailer *)

Definition MODULO_CODA : Z := 64.
Definition MODULO_MAX : nat := 8.
Definition MODULO_NOME_MAX : nat := 32.
Definition MODULO_E_NON_CORR : Z := 74.
Definition MODULO_E_GIA : Z := 17.
Definition MODULO_E_NON_MOD : Z := 8.

(** "EXOSMOD1", "0.318", "i386" and "x86_64". *)
Definition MODULO_MAGIA : list Z := [69; 88; 79; 83; 77; 79; 68; 49].
Definition EXOS_VERSION : list Z := [48; 46; 51; 49; 56].
Definition MODULO_ARCH (a : Arch) : list Z := match a with I386 => [105; 51; 56; 54] | X86_64 => [120; 56; 54; 95; 54; 52] end.

(** [(size_t)-1] *)
Definition size_max (a : Arch) : Z := match a with I386 => W32 - 1 | X86_64 => W32 * W32 - 1 end.

(** [for (i = 0; i < n && src[i]; i++) out[i] = ...] *)
Fixpoint campo (n : nat) (src : list Z) : list Z :=
  match n, src with
  | S n, x :: src => if x =? 0 then [] else (if (32 <=? x) && (x <? 127) then x else 63) :: campo n src
  | _, _ => []
  end.

(** The result is 0, [MODULO_E_NON_MOD] or [MODULO_E_NON_CORR]; [f] has more than 64
    bytes, [blocco] is the array on the stack of [sha256]. *)
Definition controlla_coda (a : Arch) (blocco f : list Z) : esito Z :=
  let dim := Z.of_nat (length f) in
  c ← tratto f (dim - MODULO_CODA) MODULO_CODA;
  if negb (bool_decide (take 8 c = MODULO_MAGIA)) then Val MODULO_E_NON_MOD
  else
    let ok := bool_decide (campo 16 (drop 8 c) = EXOS_VERSION) && bool_decide (campo 8 (drop 24 c) = MODULO_ARCH a) in
    h ← ksha256 (size_max a) blocco f (dim - 32);
    let ok := ok && bool_decide (take 32 h = take 32 (drop 32 c)) in
    Val (if ok then 0 else MODULO_E_NON_CORR).

(** ** Loading *)

Record Modulo : Type := mkModulo { m_nome : list Z; m_base : Z; m_dim : Z; m_forzato : bool }.

(** The name after the last slash, cut to the array. *)
Fixpoint ultimo_nome (p n : list Z) : list Z :=
  match p with
  | [] => n
  | x :: p => ultimo_nome p (if x =? 47 then p else n)
  end.

Definition nome_da_percorso (p : list Z) : list Z := take (MODULO_NOME_MAX - 1) (ultimo_nome p p).

(** What the rest of the kernel does for a call: the size of the file ([None]: no
    such file), whether there is memory for it, whether it opens, the bytes that the
    read gives, the address of the image (0: no memory), what the entry point
    returns, and the array on the stack of [sha256]. *)
Record Ambiente : Type := mkAmb {
  a_stat : option Z; a_kmalloc : bool; a_apre : bool; a_letto : list Z; a_base : Z; a_ingresso : Z; a_blocco : list Z
}.

(** What follows the check of the trailer. *)
Definition avvia_modulo (a : Arch) (g : list Modulo) (nome f : list Z) (coda : Z) (m : Ambiente) : esito (list evento * list Modulo * Z) :=
  '(ev, o) ← carica_elf a (take (length f - Z.to_nat MODULO_CODA) f) (a_base m);
  match o with
  | None => Val (Presa_file :: ev ++ [Resa_file], g, - MODULO_E_NON_MOD)
  | Some i =>
      if negb (a_ingresso m =? 0) then Val (Presa_file :: ev ++ [Resa_file; Resa_img], g, - MODULO_E_NON_MOD)
      else Val (Presa_file :: ev ++ [Resa_file], g ++ [mkModulo nome (a_base m) (u32 (i_dim i)) (negb (coda =? 0))], 0)
  end.

(** [g] are the modules loaded; [percorso] is [None] for NULL. *)
Definition modulo_carica (a : Arch) (g : list Modulo) (percorso : option (list Z)) (forza : bool) (m : Ambiente)
  : esito (list evento * list Modulo * Z) :=
  match percorso with
  | None => Val ([], g, -22)
  | Some p =>
      let nome := nome_da_percorso p in
      if existsb (fun x => bool_decide (m_nome x = nome)) g then Val ([], g, - MODULO_E_GIA)
      else if (MODULO_MAX <=? length g)%nat then Val ([], g, -12)
      else match a_stat m with
           | None => Val ([], g, -2)
           | Some dim =>
               if (dim <=? MODULO_CODA + dim_ehdr a) || (MODULO_DIM_MAX <? dim) then Val ([], g, - MODULO_E_NON_MOD)
               else if negb (a_kmalloc m) then Val ([], g, -12)
               else if negb (a_apre m) then Val ([Presa_file; Resa_file], g, -2)
               else if negb (Z.of_nat (length (a_letto m)) =? dim) then Val ([Presa_file; Resa_file], g, -5)
               else
                 coda ← controlla_coda a (a_blocco m) (a_letto m);
                 if coda =? MODULO_E_NON_MOD then Val ([Presa_file; Resa_file], g, - MODULO_E_NON_MOD)
                 else if negb (coda =? 0) && negb forza then Val ([Presa_file; Resa_file], g, - MODULO_E_NON_CORR)
                 else avvia_modulo a g nome (a_letto m) coda m
           end
  end.

(** ** The list of the modules *)

(** " (caricato senza i controlli)" *)
Definition FORZATO : list Z :=
  [32; 40; 99; 97; 114; 105; 99; 97; 116; 111; 32; 115; 101; 110; 122; 97; 32; 105; 32; 99; 111; 110; 116; 114; 111; 108; 108; 105; 41].

(** [for (k = 0; k < l; k++) buf[p++] = s[k];] *)
Fixpoint metti (s buf : list Z) (p : nat) : esito (list Z * nat) :=
  match s with
  | [] => Val (buf, p)
  | x :: s => buf ← scrivi buf p x; metti s buf (S p)
  end.

Fixpoint elenco_loop (g : list Modulo) (buf : list Z) (p : nat) (max : Z) : esito (list Z * nat) :=
  match g with
  | [] => Val (buf, p)
  | m :: g =>
      let f := if m_forzato m then FORZATO else [] in
      if max <? u32 (Z.of_nat p + Z.of_nat (length (m_nome m)) + Z.of_nat (length f) + 2) then Val (buf, p)
      else
        '(buf, p) ← metti (m_nome m) buf p;
        '(buf, p) ← metti f buf p;
        '(buf, p) ← metti [10] buf p;
        elenco_loop g buf p max
  end.

(** [None] is a NULL buffer. *)
Definition modulo_elenco (g : list Modulo) (buf : option (list Z)) (max : Z) : esito (option (list Z) * Z) :=
  match buf with
  | None => Val (None, -22)
  | Some b =>
      if max =? 0 then Val (Some b, -22)
      else '(b, p) ← elenco_loop g b 0 max; b ← scrivi b p 0; Val (Some b, Z.of_nat (length g))
  end.

(** At boot, "/dev/ext4.mod" and then "/rdboot/dev/ext4.mod": the two calls and what each
    finds; the messages are not modelled. *)
Definition EXT4_MOD : list Z := [47; 100; 101; 118; 47; 101; 120; 116; 52; 46; 109; 111; 100].
Definition RDBOOT_EXT4_MOD : list Z := [47; 114; 100; 98; 111; 111; 116] ++ EXT4_MOD.

Definition modulo_avvio (a : Arch) (g : list Modulo) (m1 m2 : Ambiente) : esito (list Modulo) :=
  '(_, g, r) ← modulo_carica a g (Some EXT4_MOD) false m1;
  if negb (r =? 0) then '(_, g, _) ← modulo_carica a g (Some RDBOOT_EXT4_MOD) false m2; Val g
  else Val g.
