(* ===== verification/ModuloPassi.v ===== *)
(** * The 32 bit loader stays inside the file and the image *)

From S2P Require Import Prelude Bytes Esito ShaBlocco Sha256 Modulo.

(** ** Numbers in buffers *)

Lemma le_range b : bytes b -> 0 <= le b < 256 ^ Z.of_nat (length b).
Proof.
  induction 1 as [|x b Hx _ IH]; cbn [le length]; [cbn; lia|]. rewrite B_S. nia.
Qed.

Lemma le_byte_ok n x : length (le_byte n x) = n /\ bytes (le_byte n x).
Proof.
  revert x. induction n as [|n IH]; intros x; cbn [le_byte length]; [split; [done|constructor]|].
  destruct (IH (x / 256)) as [Hl Hb]. split; [by rewrite Hl|]. constructor; [apply Z.mod_pos_bound; lia|done].
Qed.

Lemma le_le_byte n : forall x, 0 <= x < 256 ^ Z.of_nat n -> le (le_byte n x) = x.
Proof.
  induction n as [|n IH]; intros x Hx; cbn [le_byte le]; [change (Z.of_nat 0) with 0 in Hx; lia|]. rewrite B_S in Hx.
  rewrite IH by zdm. zdm.
Qed.

Lemma le_a_val b off n : 0 <= off -> off + Z.of_nat n <= Z.of_nat (length b) ->
  le_a b off n = Val (le (take n (drop (Z.to_nat off) b))).
Proof. intros H1 H2. unfold le_a. by rewrite (proj2 (Z.leb_le 0 off) H1), (proj2 (Z.leb_le _ _) H2). Qed.

Lemma le_a_certo b off n : bytes b -> 0 <= off -> off + Z.of_nat n <= Z.of_nat (length b) ->
  certo (le_a b off n) (fun x => 0 <= x < 256 ^ Z.of_nat n).
Proof.
  intros Hb H1 H2. rewrite le_a_val by done. cbn.
  pose proof (le_range (take n (drop (Z.to_nat off) b)) (Forall_take _ _ _ (Forall_drop _ _ _ Hb))) as Hr.
  rewrite length_take, length_drop, Nat.min_l in Hr by lia. done.
Qed.

Lemma certo_salvo {A} (m : esito A) (P : A -> Prop) : certo m P -> salvo m P.
Proof. by destruct m. Qed.

Lemma tratto_certo f off n : bytes f -> 0 <= off -> 0 <= n -> off + n <= Z.of_nat (length f) ->
  certo (tratto f off n) (fun s => Z.of_nat (length s) = n /\ bytes s).
Proof.
  intros Hb H1 H2 H3. unfold tratto. destruct (Z.eqb_spec n 0) as [->|Hn]; [split; [done|constructor]|].
  rewrite (proj2 (Z.leb_le 0 off) H1), (proj2 (Z.leb_le _ _) H3). cbn. split; [|by apply Forall_take, Forall_drop].
  rewrite length_take, length_drop. lia.
Qed.

Lemma copia_a_certo b off s : bytes b -> bytes s -> (s <> [] -> 0 <= off) -> (s <> [] -> off + Z.of_nat (length s) <= Z.of_nat (length b)) ->
  certo (copia_a b off s) (fun b' => length b' = length b /\ bytes b').
Proof.
  intros Hb Hs H1 H2. unfold copia_a. destruct (Nat.eqb_spec (length s) 0) as [E|E]; [done|].
  assert (Hne : s <> []) by (by intros ->). specialize (H1 Hne). specialize (H2 Hne).
  rewrite (proj2 (Z.leb_le 0 off) H1), (proj2 (Z.leb_le _ _) H2). cbn. split.
  - rewrite !length_app, length_take, length_drop. lia.
  - apply Forall_app. split; [by apply Forall_take|]. apply Forall_app. split; [done|by apply Forall_drop].
Qed.

(** ** The header *)

Lemma p256_4 : 256 ^ Z.of_nat 4 = W32.
Proof. reflexivity. Qed.

Lemma p256_2 : 256 ^ Z.of_nat 2 = 65536.
Proof. reflexivity. Qed.

(** The header of a file that passes the checks. *)
Definition ehdr_ok (f : list Z) (e : MElfEhdr) : Prop :=
  0 <= e_entry e < W32 /\ 0 <= e_phoff e < W32 /\ 1 <= e_phnum e <= 16 /\
  e_phoff e + e_phnum e * 32 <= Z.of_nat (length f).

Lemma controlla_ehdr_salvo f : bytes f -> Z.of_nat (length f) < W32 -> salvo (controlla_ehdr I386 f) (ehdr_ok f).
Proof.
  intros Hf Hl. unfold controlla_ehdr. chiama salvo_esige as _ Hd. cbn [dim_ehdr] in Hd.
  assert (H52 : 52 <= Z.of_nat (length f)) by lia.
  assert (He : certo (leggi_ehdr I386 f) (fun e => 0 <= e_entry e < W32 /\ 0 <= e_phoff e < W32 /\ 0 <= e_phnum e < 65536)).
  { unfold leggi_ehdr. cbn [dim_addr]. chiama (tratto_certo f 0 16 Hf) as ident _; [lia..|].
    do 2 (chiama (le_a_certo f _ _ Hf) as ? _; [lia..|]).
    chiama (le_a_certo f _ _ Hf) as en Hen; [lia..|]. chiama (le_a_certo f _ _ Hf) as po Hpo; [lia..|].
    chiama (le_a_certo f _ _ Hf) as ps _; [lia..|]. chiama (le_a_certo f _ _ Hf) as pn Hpn; [lia..|].
    rewrite ?p256_4, ?p256_2 in *. cbn. lia. }
  chiama (certo_salvo _ _ He) as e (H1 & H2 & H3). do 3 chiama salvo_esige as _ _. chiama salvo_esige as _ Hp.
  cbn [dim_phdr] in Hp. unfold ehdr_ok. cbn. unfold W32 in *. rewrite (u64_small (e_phnum e * 32)), u64_small in Hp by (unfold W32; lia).
  lia.
Qed.

(** ** The program headers *)

Definition phdr_ok (p : MElfPhdr) : Prop :=
  0 <= p_type p < W32 /\ 0 <= p_offset p < W32 /\ 0 <= p_vaddr p < W32 /\ 0 <= p_filesz p < W32 /\ 0 <= p_memsz p < W32.

Lemma leggi_phdr_certo f phoff i n : bytes f -> 0 <= phoff -> (i < n)%nat -> phoff + Z.of_nat n * 32 <= Z.of_nat (length f) ->
  certo (leggi_phdr I386 f phoff i) phdr_ok.
Proof.
  intros Hf H0 Hi Hn. unfold leggi_phdr. cbn [dim_phdr dim_addr].
  chiama (le_a_certo f _ _ Hf) as ty Hty; [lia..|]. chiama (le_a_certo f _ _ Hf) as op Hop; [lia..|].
  chiama (le_a_certo f _ _ Hf) as va Hva; [lia..|]. chiama (le_a_certo f _ _ Hf) as fi Hfi; [lia..|].
  chiama (le_a_certo f _ _ Hf) as me Hme; [lia..|]. rewrite ?p256_4 in *. unfold phdr_ok. cbn. lia.
Qed.

(** A segment to load is inside the file and, in memory, below [fine]. *)
Definition segmento_ok (f : list Z) (phoff fine : Z) (i : nat) : Prop :=
  forall p, leggi_phdr I386 f phoff i = Val p -> p_type p = PT_LOAD ->
    p_filesz p <= p_memsz p /\ p_offset p + p_filesz p <= Z.of_nat (length f) /\ p_vaddr p + p_memsz p <= fine.

Lemma segmento_ok_mono f phoff a b i : a <= b -> segmento_ok f phoff a i -> segmento_ok f phoff b i.
Proof. intros Hab H p Hp Ht. destruct (H p Hp Ht) as (? & ? & ?). lia. Qed.

Definition FINE_MAX : Z := MODULO_DIM_MAX * 2.

Lemma misura_salvo f phoff n : bytes f -> 0 <= phoff -> phoff + Z.of_nat n * 32 <= Z.of_nat (length f) -> Z.of_nat (length f) < W32 ->
  forall k i fine od nd, (i + k = n)%nat -> 0 <= fine <= FINE_MAX -> 0 <= od < W32 -> 0 <= nd < W32 ->
  salvo (misura k i I386 f phoff fine od nd)
    (fun '(fine', od', nd') => fine <= fine' <= FINE_MAX /\ 0 <= od' < W32 /\ 0 <= nd' < W32 /\
       forall j, (i <= j < n)%nat -> segmento_ok f phoff fine' j).
Proof.
  intros Hf H0 Hn Hlf. induction k as [|k IH]; intros i fine od nd Hik Hfine Hod Hnd; cbn [misura].
  - cbn. repeat split; lia.
  - pose proof (leggi_phdr_certo f phoff i n Hf H0 ltac:(lia) Hn) as Hc.
    destruct (leggi_phdr I386 f phoff i) as [p| | |] eqn:Ep; try done. cbn in Hc. destruct Hc as (Hty & Hop & Hva & Hfi & Hme).
    cbn [mbind esito_bind]. chiama salvo_esige as _ _.
    set (odn := if p_type p =? PT_DYNAMIC then _ else _).
    assert (Hodn : 0 <= odn.1 < W32 /\ 0 <= odn.2 < W32) by (unfold odn; destruct (_ =? _); cbn; [split; [lia|apply u32_range]|done]).
    destruct odn as [od' nd']. destruct Hodn as [Hod' Hnd']. cbn [fst snd] in *.
    destruct (Z.eqb_spec (p_type p) PT_LOAD) as [Et|Et]; cbn [negb].
    + chiama salvo_esige as _ Hs. unfold FINE_MAX, MODULO_DIM_MAX in *. change (256 ^ Z.of_nat 4) with W32 in *.
      rewrite !u64_small in * by (unfold W32 in *; lia). 
      eapply salvo_weaken; [apply (IH (S i) (if fine <? p_vaddr p + p_memsz p then p_vaddr p + p_memsz p else fine)); try lia|].
      { destruct (Z.ltb_spec fine (p_vaddr p + p_memsz p)); lia. }
      intros [[fine' od''] nd''] (H1 & H2 & H3 & H4). split; [destruct (Z.ltb_spec fine (p_vaddr p + p_memsz p)); lia|].
      split; [done|]. split; [done|]. intros j Hj. destruct (Nat.eq_dec j i) as [->|Hne]; [|apply H4; lia].
      intros q Hq _. rewrite Ep in Hq. injection Hq as <-. destruct (Z.ltb_spec fine (p_vaddr p + p_memsz p)); lia.
    + eapply salvo_weaken; [apply (IH (S i)); (done || lia)|]. intros [[fine' od''] nd''] (H1 & H2 & H3 & H4).
      do 3 (split; [done|]). intros j Hj. destruct (Nat.eq_dec j i) as [->|Hne]; [|apply H4; lia].
      intros q Hq Ht. rewrite Ep in Hq. injection Hq as <-. done.
Qed.

(** ** Copying the segments *)

Lemma copia_segmenti_certo f phoff n fine : bytes f -> 0 <= phoff -> phoff + Z.of_nat n * 32 <= Z.of_nat (length f) ->
  (forall j, (j < n)%nat -> segmento_ok f phoff fine j) ->
  forall k i img, (i + k = n)%nat -> bytes img -> fine <= Z.of_nat (length img) ->
  certo (copia_segmenti k i I386 f phoff img) (fun img' => length img' = length img /\ bytes img').
Proof.
  intros Hf H0 Hn Hs. induction k as [|k IH]; intros i img Hik Hb Hl; cbn [copia_segmenti]; [done|].
  pose proof (leggi_phdr_certo f phoff i n Hf H0 ltac:(lia) Hn) as Hc.
  destruct (leggi_phdr I386 f phoff i) as [p| | |] eqn:Ep; try done. cbn in Hc. destruct Hc as (Hty & Hop & Hva & Hfi & Hme).
  cbn [mbind esito_bind].
  assert (Himg : certo (if p_type p =? PT_LOAD then s ← tratto f (p_offset p) (p_filesz p); copia_a img (p_vaddr p) s else Val img)
                   (fun img' => length img' = length img /\ bytes img')).
  { destruct (Z.eqb_spec (p_type p) PT_LOAD) as [Et|Et]; [|done]. destruct (Hs i ltac:(lia) p Ep Et) as (S1 & S2 & S3).
    chiama (tratto_certo f (p_offset p) (p_filesz p) Hf) as s (Hls & Hbs); [lia..|].
    apply copia_a_certo; [done|done|lia|lia]. }
  eapply certo_bind; [exact Himg|]. intros img' [Hl' Hb']. eapply certo_weaken; [apply IH; [lia|done|lia]|].
  intros img'' [Hl'' Hb'']. split; [by rewrite Hl''|done].
Qed.

(** ** The dynamic section and the relocations *)

Definition tab_ok (t : Tabella) : Prop := 0 <= t_rel t < W32 /\ 0 <= t_relsz t < W32 /\ 0 <= t_relent t < W32.

Lemma leggi_dinamica_salvo img od n : bytes img -> 0 <= od -> od + Z.of_nat n * 8 <= Z.of_nat (length img) ->
  forall k i t, (i + k = n)%nat -> tab_ok t -> salvo (leggi_dinamica k i I386 img od t) tab_ok.
Proof.
  intros Hb H0 Hn. induction k as [|k IH]; intros i t Hik Ht; cbn [leggi_dinamica]; [done|]. cbn [dim_dyn dim_addr].
  chiama (fun H1 H2 => certo_salvo _ _ (le_a_certo img _ 4 Hb H1 H2)) as tag _; [lia..|].
  destruct (tag =? DT_NULL); [done|].
  chiama (fun H1 H2 => certo_salvo _ _ (le_a_certo img _ 4 Hb H1 H2)) as v Hv; [lia..|]. rewrite p256_4 in Hv.
  eapply salvo_bind with (P := tab_ok); [|intros t' Ht'; apply IH; (done || lia)].
  unfold tab_ok in *. repeat destruct (_ =? _); cbn; (done || lia).
Qed.

Lemma riloca_salvo base fine rel n : 0 <= rel -> rel + Z.of_nat n * 8 <= fine -> fine < W32 ->
  forall k i img, (i + k = n)%nat -> bytes img -> fine = Z.of_nat (length img) ->
  salvo (riloca k i I386 base fine rel img) (fun img' => length img' = length img /\ bytes img').
Proof.
  intros H0 Hn Hfine. induction k as [|k IH]; intros i img Hik Hb Hl; cbn [riloca]; [done|]. cbn [dim_rel dim_addr].
  chiama (fun H1 H2 => certo_salvo _ _ (le_a_certo img _ 4 Hb H1 H2)) as off Hoff; [lia..|]. rewrite p256_4 in Hoff.
  chiama (fun H1 H2 => certo_salvo _ _ (le_a_certo img _ 4 Hb H1 H2)) as info _; [lia..|].
  chiama salvo_esige as _ _. chiama salvo_esige as _ Ho. rewrite u64_small in Ho by (unfold W32 in *; lia). apply negb_true_iff, Z.ltb_ge in Ho.
  eapply salvo_bind with (P := fun _ => True).
  { cbv iota. chiama (fun H1 H2 => certo_salvo _ _ (le_a_certo img _ 4 Hb H1 H2)) as y Hy; [lia|lia|]. exact I. }
  intros x _. destruct (le_byte_ok 4 x) as [Hlx Hbx].
  chiama (fun H1 H2 => certo_salvo _ _ (copia_a_certo img off (le_byte 4 x) Hb Hbx H1 H2)) as img' (Hl' & Hb'); [lia|rewrite Hlx; lia|].
  eapply salvo_weaken; [apply IH; [lia|done|lia]|]. intros img'' [Hl'' Hb'']. split; [by rewrite Hl''|done].
Qed.

(** ** The whole *)

Lemma pagine_64 x : 0 <= x -> x + 4095 < W32 -> Z.land (u64 (x + 4095)) (u64 (Z.lnot 4095)) = (x + 4095) / 4096 * 4096.
Proof.
  intros H0 H1. rewrite (u64_small (x + 4095)) by (unfold W32 in *; lia). rewrite Z.land_comm.
  change (u64 (Z.lnot 4095)) with (Z.lnot 4095 mod 2 ^ 64). rewrite (nega_eq 64 4095 (x + 4095)) by (unfold W32 in *; lia). change 4095 with (Z.ones 12) at 2. rewrite Z.ldiff_ones_r by lia.
  rewrite Z.shiftl_mul_pow2, Z.shiftr_div_pow2 by lia. done.
Qed.

Lemma controlla_elf_salvo f : bytes f -> Z.of_nat (length f) < W32 ->
  salvo (controlla_elf I386 f) (fun '(e, fine, od, nd) =>
    ehdr_ok f e /\ 0 < fine <= FINE_MAX /\ fine mod 4096 = 0 /\ e_entry e < fine /\ 0 <= od < W32 /\ 0 <= nd < W32 /\
    forall j, (j < Z.to_nat (e_phnum e))%nat -> segmento_ok f (e_phoff e) fine j).
Proof.
  intros Hf Hl. unfold controlla_elf. chiama (controlla_ehdr_salvo f Hf Hl) as e He. pose proof He as (H1 & H2 & H3 & H4).
  chiama (misura_salvo f (e_phoff e) (Z.to_nat (e_phnum e)) Hf) as [[fine od] nd] (Hf1 & Hod & Hnd & Hs);
    try lia; try (unfold FINE_MAX, MODULO_DIM_MAX, W32; lia).
  chiama salvo_esige as _ Hz. chiama salvo_esige as _ Hen. unfold FINE_MAX, MODULO_DIM_MAX in *.
  rewrite pagine_64 by (unfold W32; lia). cbn.
  assert (Hr : fine <= (fine + 4095) / 4096 * 4096 <= 2 * 1024 * 1024) by zdm.
  split; [done|]. split; [lia|]. split; [by rewrite Z.mod_mul|]. split; [lia|]. split; [done|]. split; [done|].
  intros j Hj. eapply segmento_ok_mono; [|apply Hs; lia]. lia.
Qed.

Lemma carica_img_salvo f base e fine od nd : bytes f -> ehdr_ok f e -> 0 < fine <= FINE_MAX ->
  e_entry e < fine -> 0 <= od < W32 -> 0 <= nd < W32 ->
  (forall j, (j < Z.to_nat (e_phnum e))%nat -> segmento_ok f (e_phoff e) fine j) ->
  salvo (carica_img I386 f base e fine od nd)
    (fun i => Z.of_nat (length (i_img i)) = fine /\ bytes (i_img i) /\ i_dim i = fine /\ i_ingresso i = base + e_entry e).
Proof.
  intros Hf (H1 & H2 & H3 & H4) Hfine Hen Hod Hnd Hs. unfold carica_img, FINE_MAX, MODULO_DIM_MAX in *.
  assert (Hc : certo (copia_segmenti (Z.to_nat (e_phnum e)) 0 I386 f (e_phoff e) (replicate (Z.to_nat fine) 0))
                 (fun img' => length img' = length (replicate (Z.to_nat fine) 0) /\ bytes img')).
  { apply (copia_segmenti_certo f (e_phoff e) (Z.to_nat (e_phnum e)) fine); try done; try lia;
      [apply Forall_replicate; lia|rewrite length_replicate; lia]. }
  eapply salvo_bind; [exact (certo_salvo _ _ Hc)|]. intros img [Hl Hb].
  rewrite length_replicate in Hl. eapply salvo_bind with (P := tab_ok).
  { destruct (Z.eqb_spec nd 0) as [->|Hne]; cbn [negb]; [unfold tab_ok, W32; cbn; lia|].
    chiama salvo_esige as _ Hd. cbn [dim_dyn] in Hd. rewrite (u64_small (nd * 8)), u64_small in Hd by (unfold W32 in *; lia).
    apply negb_true_iff, Z.ltb_ge in Hd.
    apply (leggi_dinamica_salvo img od (Z.to_nat nd)); try done; try lia. }
  intros t (T1 & T2 & T3). eapply salvo_bind with (P := fun img' => length img' = length img /\ bytes img').
  { destruct (Z.eqb_spec (t_relsz t) 0); cbn [negb]; [done|]. chiama salvo_esige as _ Hr. cbn [dim_rel] in *.
    rewrite u64_small in Hr by (unfold W32 in *; lia). apply negb_true_iff in Hr. rewrite !orb_false_iff in Hr.
    destruct Hr as [[_ Hr] Hm]. apply Z.ltb_ge in Hr. apply negb_false_iff, Z.eqb_eq in Hm.
    rewrite u32_small by (split; [apply Z.div_pos; lia|]; unfold W32 in *; zdm).
    apply (riloca_salvo base fine (t_rel t) (Z.to_nat (t_relsz t / 8))); try done; try lia.
    - rewrite Z2Nat.id by (apply Z.div_pos; lia). zdm.
    - unfold W32. lia. }
  intros img' [Hl' Hb']. cbn. repeat split; (done || lia).
Qed.

(** * What the relocations do to the 32 bit image *)


(** The word at an offset. *)
Definition parola_a (img : list Z) (off : Z) : Z := le (take 4 (drop (Z.to_nat off) img)).

Definition byte_a (img : list Z) (q : Z) : Z := nth (Z.to_nat q) img 0.

Lemma take_4_a img off : 0 <= off -> off + 4 <= Z.of_nat (length img) ->
  take 4 (drop (Z.to_nat off) img) = [byte_a img off; byte_a img (off + 1); byte_a img (off + 2); byte_a img (off + 3)].
Proof.
  intros H0 H4. unfold byte_a. rewrite !Z2Nat.inj_add by lia. set (n := Z.to_nat off). assert (Hn : (n + 4 <= length img)%nat) by lia. clearbody n.
  rewrite (drop_nth img n), (drop_nth img (S n)), (drop_nth img (S (S n))), (drop_nth img (S (S (S n)))) by lia.
  cbn [firstn]. change (Z.to_nat 1) with 1%nat. change (Z.to_nat 2) with 2%nat. change (Z.to_nat 3) with 3%nat.
  by rewrite !Nat.add_succ_r, Nat.add_0_r.
Qed.

Lemma le_a_parola img off : 0 <= off -> off + 4 <= Z.of_nat (length img) -> le_a img off 4 = Val (parola_a img off).
Proof. intros H0 H4. apply le_a_val; [done|lia]. Qed.

(** Words are determined by their bytes. *)
Lemma parola_a_ext img img' off : 0 <= off -> off + 4 <= Z.of_nat (length img) -> length img' = length img ->
  (forall q, off <= q < off + 4 -> byte_a img' q = byte_a img q) -> parola_a img' off = parola_a img off.
Proof.
  intros H0 H4 Hl Hq. unfold parola_a. rewrite !take_4_a by (rewrite ?Hl; lia). by rewrite !Hq by lia.
Qed.

Lemma byte_copia img off s img' q : copia_a img off s = Val img' -> s <> [] -> 0 <= q ->
  byte_a img' q = if (off <=? q) && (q <? off + Z.of_nat (length s)) then nth (Z.to_nat (q - off)) s 0 else byte_a img q.
Proof.
  unfold copia_a. intros E Hs Hq. destruct (Nat.eqb_spec (length s) 0) as [E0|E0]; [by destruct s|].
  destruct ((0 <=? off) && _) eqn:Eb; [|done]. apply andb_true_iff in Eb as [H1 H2]. apply Z.leb_le in H1, H2. injection E as <-.
  unfold byte_a. assert (Ht : length (take (Z.to_nat off) img) = Z.to_nat off) by (rewrite length_take; lia).
  destruct (Z.leb_spec off q) as [Hoq|Hoq]; cbn [andb].
  - rewrite app_nth2 by lia. rewrite Ht. replace (Z.to_nat q - Z.to_nat off)%nat with (Z.to_nat (q - off)) by lia.
    destruct (Z.ltb_spec q (off + Z.of_nat (length s))) as [Hqs|Hqs].
    + by rewrite app_nth1 by lia.
    + rewrite app_nth2 by lia. rewrite !nth_lookup, lookup_drop. do 2 f_equal. lia.
  - rewrite app_nth1 by lia. by rewrite nth_take by lia.
Qed.

Lemma parola_copia img off x img' : copia_a img off (le_byte 4 x) = Val img' -> 0 <= off -> 0 <= x < W32 ->
  off + 4 <= Z.of_nat (length img) -> length img' = length img -> parola_a img' off = x.
Proof.
  intros E H0 Hx H4 Hl. unfold parola_a. rewrite take_4_a by lia.
  rewrite !(byte_copia _ _ _ _ _ E) by (done || lia). destruct (le_byte_ok 4 x) as [Hlx _]. rewrite Hlx.
  assert (Hk : forall k, 0 <= k < 4 -> (off <=? off + k) && (off + k <? off + Z.of_nat 4) = true)
    by (intros k Hk; apply andb_true_iff; split; [apply Z.leb_le|apply Z.ltb_lt]; lia).
  pose proof (Hk 0 ltac:(lia)) as K0. rewrite Z.add_0_r in K0. rewrite K0, (Hk 1), (Hk 2), (Hk 3) by lia.
  replace (off - off) with 0 by lia. replace (off + 1 - off) with 1 by lia.
  replace (off + 2 - off) with 2 by lia. replace (off + 3 - off) with 3 by lia.
  change (le (le_byte 4 x) = x). by apply le_le_byte.
Qed.

Section Rilocazioni.

Context (base fine rel : Z) (n : nat) (img0 : list Z).
Context (Hrel : 0 <= rel) (Htab : rel + Z.of_nat n * 8 <= fine) (Hl0 : fine = Z.of_nat (length img0)).
Context (Hb0 : bytes img0).

(** The target of the relocation [j]. *)
Definition bersaglio (j : nat) : Z := parola_a img0 (rel + Z.of_nat j * 8).

Definition fuori_da (q : Z) (m : nat) : Prop := forall j, (j < m)%nat -> q < bersaglio j \/ bersaglio j + 4 <= q.

(** No target is in the table, and no two overlap. *)
Definition separati : Prop :=
  (forall j, (j < n)%nat -> bersaglio j + 4 <= rel \/ rel + Z.of_nat n * 8 <= bersaglio j) /\
  (forall j j', (j < j' < n)%nat -> bersaglio j + 4 <= bersaglio j' \/ bersaglio j' + 4 <= bersaglio j).

(** After [i] relocations. *)
Definition fino_a (i : nat) (img : list Z) : Prop :=
  length img = length img0 /\ bytes img /\
  (forall q, 0 <= q -> fuori_da q i -> byte_a img q = byte_a img0 q) /\
  (forall j, (j < i)%nat -> bersaglio j + 4 <= fine /\ parola_a img (bersaglio j) = u32 (parola_a img0 (bersaglio j) + base)).

Context (Hsep : separati).

Lemma bersaglio_range j : (j < n)%nat -> 0 <= bersaglio j < W32.
Proof.
  intros Hj. unfold bersaglio, parola_a.
  pose proof (le_range (take 4 (drop (Z.to_nat (rel + Z.of_nat j * 8)) img0)) (Forall_take _ _ _ (Forall_drop _ _ _ Hb0))) as Hr.
  rewrite length_take, length_drop, Nat.min_l in Hr by lia. by rewrite p256_4 in Hr.
Qed.

(** The table is still the one of the beginning. *)
Lemma voce_intatta i img : fino_a i img -> (i < n)%nat -> parola_a img (rel + Z.of_nat i * 8) = bersaglio i.
Proof.
  intros (Hl & _ & Hq & _) Hi. apply parola_a_ext; try lia. intros q Hqr. apply Hq; [lia|].
  intros j Hj. destruct Hsep as [Ht _]. destruct (Ht j ltac:(lia)); lia.
Qed.

Lemma riloca_passo i img : fino_a i img -> (i < n)%nat -> bersaglio i + 4 <= fine ->
  forall img', copia_a img (bersaglio i) (le_byte 4 (u32 (parola_a img (bersaglio i) + base))) = Val img' -> fino_a (S i) img'.
Proof.
  intros (Hl & Hb & Hq & Hw) Hi Hbi img' E. pose proof (bersaglio_range i Hi) as Hr. destruct Hsep as [_ Hd].
  set (x := u32 (parola_a img (bersaglio i) + base)) in *. pose proof (u32_range (parola_a img (bersaglio i) + base)) as Hx. fold x in Hx.
  destruct (le_byte_ok 4 x) as [Hlx Hbx].
  assert (Hc : length img' = length img /\ bytes img').
  { pose proof (copia_a_certo img (bersaglio i) (le_byte 4 x) Hb Hbx ltac:(lia) ltac:(rewrite Hlx; lia)) as Hc. by rewrite E in Hc. }
  destruct Hc as [Hl' Hb'].
  assert (Hby : forall q, 0 <= q -> q < bersaglio i \/ bersaglio i + 4 <= q -> byte_a img' q = byte_a img q).
  { intros q Hq0 Hqi. rewrite (byte_copia _ _ _ _ _ E) by (done || lia). rewrite Hlx.
    replace ((bersaglio i <=? q) && (q <? bersaglio i + Z.of_nat 4)) with false; [done|].
    symmetry. apply andb_false_iff. destruct Hqi; [left; apply Z.leb_gt|right; apply Z.ltb_ge]; lia. }
  split; [lia|]. split; [done|]. split.
  - intros q Hq0 Hf. rewrite Hby by (done || apply Hf; lia). apply Hq; [done|]. intros j Hj. apply Hf. lia.
  - intros j Hj. destruct (Nat.eq_dec j i) as [->|Hne]; (split; [|]).
    + done.
    + rewrite (parola_copia img (bersaglio i) x img' E) by lia. unfold x. do 2 f_equal. apply parola_a_ext; try lia.
      intros q Hqr. apply Hq; [lia|]. intros j Hj'. destruct (Hd j i ltac:(lia)); lia.
    + apply Hw. lia.
    + destruct (Hw j ltac:(lia)) as [Hf <-]. pose proof (bersaglio_range j ltac:(lia)).
      apply parola_a_ext; try lia. intros q Hqr. apply Hby; [lia|]. destruct (Hd j i ltac:(lia)); lia.
Qed.

Lemma riloca_fino k : forall i img img', (i + k = n)%nat -> fino_a i img ->
  riloca k i I386 base fine rel img = Val img' -> fino_a n img'.
Proof.
  induction k as [|k IH]; intros i img img' Hik Hi E; cbn [riloca] in E.
  - injection E as <-. assert (i = n) as -> by lia. done.
  - pose proof Hi as (Hl & Hb & _ & _). pose proof (voce_intatta i img Hi ltac:(lia)) as Ev. cbn [dim_rel dim_addr] in E.
    rewrite (le_a_parola img (rel + Z.of_nat i * 8)) in E by lia. cbn [mbind esito_bind] in E. rewrite Ev in E.
    destruct (le_a img (rel + Z.of_nat i * 8 + Z.of_nat 4) 4) as [info| | |]; try done. cbn [mbind esito_bind] in E.
    destruct (REL_TIPO I386 info =? REL_RELATIVO); [|done]. cbn [esige mbind esito_bind] in E.
    pose proof (bersaglio_range i ltac:(lia)) as Hr. rewrite u64_small in E by (unfold W32 in *; lia).
    destruct (Z.ltb_spec fine (bersaglio i + Z.of_nat 4)) as [Hlt|Hle]; [done|]. cbn [negb esige mbind esito_bind] in E.
    rewrite (le_a_parola img (bersaglio i)) in E by lia. cbn [mbind esito_bind] in E.
    destruct (copia_a img (bersaglio i) _) as [img1| | |] eqn:Ec; try done. cbn [mbind esito_bind] in E.
    apply (IH (S i) img1); [lia| |done]. apply (riloca_passo i img Hi ltac:(lia) ltac:(lia) img1 Ec).
Qed.

End Rilocazioni.
