(* ===== verification/ModuloThms.v ===== *)
(** * The module loader: theorems

    On 32 bits no file makes the loader leave the file or the image, relocations
    do what they say, and a load that fails leaves nothing behind; on 64 bits the
    sums of the checks wrap and a file can make it write outside the image. *)

From S2P Require Import Prelude Bytes Esito ShaSpec ShaBlocco Sha256.
From S2P Require Import Sha256Flusso Sha256K ShaThms Modulo ModuloPassi.

(** ** The ELF *)

Lemma carica_elf_val f base : bytes f -> Z.of_nat (length f) < W32 ->
  exists ev o, carica_elf I386 f base = Val (ev, o) /\
    match o with
    | None => ev = [] \/ ev = [Presa_img; Resa_img]
    | Some i => ev = [Presa_img] /\ base <> 0 /\ Z.of_nat (length (i_img i)) = i_dim i /\ 0 < i_dim i <= 2 * 1024 * 1024 /\
        i_dim i mod 4096 = 0 /\ base <= i_ingresso i < base + i_dim i
    end.
Proof.
  intros Hf Hl. unfold carica_elf. pose proof (controlla_elf_salvo f Hf Hl) as Hc.
  destruct (controlla_elf I386 f) as [[[[e fine] od] nd]| | |]; cbn in Hc |- *; try done; [|by exists [], None; split; [|left]].
  destruct Hc as (He & Hfine & Hm & Hen & Hod & Hnd & Hs). unfold FINE_MAX, MODULO_DIM_MAX in *.
  destruct (Z.eqb_spec base 0) as [_|Hb]; [by exists [], None; split; [|left]|].
  pose proof (carica_img_salvo f base e fine od nd Hf He Hfine Hen Hod Hnd Hs) as Hi.
  destruct (carica_img I386 f base e fine od nd) as [i| | |]; cbn in Hi |- *; try done.
  - destruct Hi as (Hli & _ & Hd & Hin). destruct He as (He1 & _). eexists _, _. split; [reflexivity|]. cbn.
    rewrite Hd, Hin. repeat split; (done || lia).
  - eexists _, _. split; [reflexivity|]. by right.
Qed.

(** C25: The 32 bit loader is safe on any file: [carica_elf] always returns, and reads
    and writes nothing outside the file and the image it takes memory for.  Either
    it refuses the file and has given back what it took, or it holds one block, an
    image of the announced size, a positive multiple of the page of at most 2 MB,
    with the entry point inside. *)
Theorem carica_elf_32_safe f base : bytes f -> Z.of_nat (length f) < W32 ->
  exists ev o, carica_elf I386 f base = Val (ev, o) /\
    match o with
    | None => ev = [] \/ ev = [Presa_img; Resa_img]
    | Some i => ev = [Presa_img] /\ base <> 0 /\ Z.of_nat (length (i_img i)) = i_dim i /\ 0 < i_dim i <= 2 * 1024 * 1024 /\
        i_dim i mod 4096 = 0 /\ base <= i_ingresso i < base + i_dim i
    end.
Proof. exact (carica_elf_val f base). Qed.

(** ELF headers, from their fields. *)
Definition x_ehdr32 (entry phnum : Z) : list Z :=
  [127; 69; 76; 70; 1; 1; 1] ++ replicate 9 0 ++ le_byte 2 3 ++ le_byte 2 3 ++ le_byte 4 1 ++ le_byte 4 entry ++ le_byte 4 52 ++
  le_byte 4 0 ++ le_byte 4 0 ++ le_byte 2 52 ++ le_byte 2 32 ++ le_byte 2 phnum ++ replicate 6 0.
Definition x_phdr32 (ty off va fi me : Z) : list Z :=
  le_byte 4 ty ++ le_byte 4 off ++ le_byte 4 va ++ le_byte 4 va ++ le_byte 4 fi ++ le_byte 4 me ++ le_byte 4 7 ++ le_byte 4 4096.

(** A module with a segment of 32 bytes, of which the first word is relocated. *)
Definition x_elf32 : list Z :=
  x_ehdr32 4 2 ++ x_phdr32 1 116 0 72 128 ++ x_phdr32 2 148 32 40 40 ++
  le_byte 4 16 ++ replicate 20 144 ++ le_byte 4 0 ++ le_byte 4 8 ++
  le_byte 4 17 ++ le_byte 4 24 ++ le_byte 4 18 ++ le_byte 4 8 ++ le_byte 4 19 ++ le_byte 4 8 ++ replicate 16 0.

Lemma x_elf32_bytes : bytes x_elf32.
Proof.
  apply Forall_forall. intros x Hx.
  assert (E : forallb (fun x => (0 <=? x) && (x <? 256)) x_elf32 = true) by (vm_compute; reflexivity).
  rewrite forallb_forall in E. specialize (E x (proj1 (list_elem_of_In _ _) Hx)). lia.
Qed.

Lemma carica_elf_32_safe_witness :
  exists i, carica_elf I386 x_elf32 0x200000 = Val ([Presa_img], Some i) /\ take 8 (i_img i) = le_byte 4 0x200010 ++ replicate 4 144 /\
    i_ingresso i = 0x200004 /\ i_dim i mod 4096 = 0.
Proof.
  destruct (carica_elf_32_safe x_elf32 0x200000 x_elf32_bytes ltac:(reflexivity)) as (ev & o & E & H).
  pose proof E as E'. vm_compute in E'. injection E' as <- <-. destruct H as (_ & _ & _ & _ & Hm & _).
  eexists. split; [exact E|]. split; [reflexivity|]. split; [reflexivity|]. exact Hm.
Defined.

(** The relocations do what the ELF says: with a table of [n] relocations inside
    the 32 bit image, targets that do not overlap each other nor the table, when
    [riloca] accepts them every target is inside the image and its word has the base
    added modulo 2^32, and every byte that is not in a target is as before. *)
Theorem riloca_32_correct base fine rel n img img' :
  0 <= rel -> rel + Z.of_nat n * 8 <= fine -> fine = Z.of_nat (length img) -> bytes img ->
  separati rel n img -> riloca n 0 I386 base fine rel img = Val img' ->
  length img' = length img /\
  (forall j, (j < n)%nat -> bersaglio rel img j + 4 <= fine /\
     parola_a img' (bersaglio rel img j) = u32 (parola_a img (bersaglio rel img j) + base)) /\
  (forall q, 0 <= q -> fuori_da rel img q n -> byte_a img' q = byte_a img q).
Proof.
  intros H0 Ht Hl Hb Hsep E.
  destruct (riloca_fino base fine rel n img H0 Ht Hl Hb Hsep n 0 img img' eq_refl) as (L & _ & Q & W).
  - split; [done|]. split; [done|]. split; [done|]. intros j Hj. lia.
  - exact E.
  - done.
Qed.

Definition x_img : list Z := le_byte 4 0x10 ++ replicate 12 7 ++ le_byte 4 0 ++ le_byte 4 8 ++ le_byte 4 12 ++ le_byte 4 8.

Lemma riloca_32_correct_witness :
  exists img', riloca 2 0 I386 0x1000 32 16 x_img = Val img' /\ parola_a img' 0 = 0x1010 /\ byte_a img' 5 = 7.
Proof.
  assert (E : exists img', riloca 2 0 I386 0x1000 32 16 x_img = Val img') by (eexists; vm_compute; reflexivity).
  destruct E as [img' E]. exists img'. split; [exact E|].
  destruct (riloca_32_correct 0x1000 32 16 2 x_img img') as (_ & W & Q); try (reflexivity || lia).
  - repeat (apply Forall_cons; split; [vm_compute; split; congruence|]). constructor.
  - split.
    + intros [|[|j]] Hj; [left|left|lia]; vm_compute; congruence.
    + intros [|[|j]] [|[|j']] Hj; try lia. left. vm_compute. congruence.
  - exact E.
  - split; [exact (proj2 (W 0%nat ltac:(lia)))|]. apply (Q 5); [lia|].
    intros [|[|j]] Hj; [right|left|lia]; vm_compute; congruence.
Defined.

(** ** The trailer *)

Definition coda_di (f : list Z) : list Z := drop (length f - 64) f.

Definition magia_ok (f : list Z) : Prop := take 8 (coda_di f) = MODULO_MAGIA.

(** The trailer is the one of this kernel and says the digest of what comes before. *)
Definition coda_ok (a : Arch) (f : list Z) : Prop :=
  campo 16 (drop 8 (coda_di f)) = EXOS_VERSION /\ campo 8 (drop 24 (coda_di f)) = MODULO_ARCH a /\
  SHA256 (take (length f - 32) f) = drop (length f - 32) f.

Lemma size_max_ok a : W32 - 1 <= size_max a.
Proof. destruct a; unfold size_max, W32; lia. Qed.

Lemma controlla_coda_val a b0 f : bytes f -> 64 < Z.of_nat (length f) < W32 -> length b0 = 64%nat ->
  exists z, controlla_coda a b0 f = Val z /\
    (z = MODULO_E_NON_MOD /\ ~ magia_ok f \/ magia_ok f /\ z = 0 /\ coda_ok a f \/ magia_ok f /\ z = MODULO_E_NON_CORR /\ ~ coda_ok a f).
Proof.
  intros Hf Hl Hb0. unfold controlla_coda, MODULO_CODA, tratto. cbn [Z.eqb].
  rewrite (proj2 (Z.leb_le 0 _)) by lia. rewrite (proj2 (Z.leb_le _ _)) by lia. cbn [andb mbind esito_bind].
  replace (Z.to_nat (Z.of_nat (length f) - 64)) with (length f - 64)%nat by lia.
  rewrite (take_ge (drop (length f - 64) f)) by (rewrite length_drop; lia). fold (coda_di f). unfold magia_ok.
  destruct (bool_decide_reflect (take 8 (coda_di f) = MODULO_MAGIA)) as [Em|Em]; cbn [negb]; [|by eexists; split; [reflexivity|left]].
  assert (Hd : ksha256 (size_max a) b0 f (Z.of_nat (length f) - 32) = Val (SHA256 (take (length f - 32) f))).
  { rewrite <- (take_drop (length f - 32) f) at 1.
    replace (Z.of_nat (length f) - 32) with (Z.of_nat (length (take (length f - 32) f))) by (rewrite length_take; lia).
    apply ksha256_val; [apply size_max_ok|by apply Forall_take|done|rewrite length_take; lia]. }
  rewrite Hd. cbn [mbind esito_bind]. destruct (SHA256_ok (take (length f - 32) f)) as [Hs _].
  assert (Ed : take 32 (drop 32 (coda_di f)) = drop (length f - 32) f).
  { unfold coda_di. rewrite drop_drop. replace (length f - 64 + 32)%nat with (length f - 32)%nat by lia.
    apply take_ge. rewrite length_drop. lia. }
  rewrite Ed, take_ge by lia. eexists. split; [reflexivity|]. right. unfold coda_ok.
  destruct (bool_decide_reflect (campo 16 (drop 8 (coda_di f)) = EXOS_VERSION)) as [E1|E1];
  destruct (bool_decide_reflect (campo 8 (drop 24 (coda_di f)) = MODULO_ARCH a)) as [E2|E2];
  destruct (bool_decide_reflect (SHA256 (take (length f - 32) f) = drop (length f - 32) f)) as [E3|E3]; cbn [andb];
    first [left; tauto|right; tauto].
Qed.

(** ** Loading *)

(** The blocks held after some events: of files and of images. *)
Definition in_mano (ev : list evento) : Z * Z :=
  foldl (fun '(a, b) e => match e with
    | Presa_file => (a + 1, b) | Resa_file => (a - 1, b) | Presa_img => (a, b + 1) | Resa_img => (a, b - 1) end) (0, 0) ev.

Lemma avvia_modulo_val g nome f coda m : bytes f -> Z.of_nat (length f) < W32 ->
  exists ev g' r, avvia_modulo I386 g nome f coda m = Val (ev, g', r) /\
    (r <> 0 /\ g' = g /\ in_mano ev = (0, 0) \/
     r = 0 /\ in_mano ev = (0, 1) /\ a_ingresso m = 0 /\
     exists d, 0 < d <= 2 * 1024 * 1024 /\ g' = g ++ [mkModulo nome (a_base m) d (negb (coda =? 0))]).
Proof.
  intros Hf Hl. unfold avvia_modulo, MODULO_CODA. set (f' := take _ f).
  destruct (carica_elf_val f' (a_base m)) as (ev & o & E & H);
    [by apply Forall_take|unfold f'; rewrite length_take; lia|]. rewrite E. cbn [mbind esito_bind].
  destruct o as [i|].
  - destruct H as (-> & _ & _ & Hd & _ & _). destruct (Z.eqb_spec (a_ingresso m) 0) as [Ei|Ei]; cbn [negb].
    + do 3 eexists. split; [reflexivity|]. right. split; [done|]. split; [done|]. split; [done|]. exists (i_dim i).
      split; [done|]. by rewrite u32_small by (unfold W32; lia).
    + do 3 eexists. split; [reflexivity|]. by left.
  - do 3 eexists. split; [reflexivity|]. left. by destruct H as [->| ->].
Qed.

(** C26: [modulo_carica] on 32 bits, whatever the file system, the heap, the file and the
    entry point do: it always returns; an error leaves the table of the modules as it
    was and no block of the heap held; a success holds the image and nothing else and
    adds to the table, which has at most 8, one module with the name of the file, that
    no other module has; its trailer has the magic and, unless the checks were waived,
    the version and architecture of this kernel and the SHA-256 of what precedes it,
    and the mark of a forced module says when it does not. *)
Theorem modulo_carica_32_correct g percorso forza m :
  bytes (a_letto m) -> length (a_blocco m) = 64%nat ->
  exists ev g' r, modulo_carica I386 g percorso forza m = Val (ev, g', r) /\
    (r <> 0 /\ g' = g /\ in_mano ev = (0, 0) \/
     r = 0 /\ in_mano ev = (0, 1) /\ a_ingresso m = 0 /\
     exists p x, percorso = Some p /\ g' = g ++ [x] /\ m_nome x = nome_da_percorso p /\ (length g' <= MODULO_MAX)%nat /\
       (length (m_nome x) < MODULO_NOME_MAX)%nat /\ (forall y, y ∈ g -> m_nome y <> m_nome x) /\
       magia_ok (a_letto m) /\ (m_forzato x = false <-> coda_ok I386 (a_letto m)) /\ (forza = false -> m_forzato x = false)).
Proof.
  intros Hf Hb0. unfold modulo_carica. destruct percorso as [p|]; [|do 3 eexists; split; [reflexivity|by left]].
  destruct (existsb _ g) eqn:Eg; [do 3 eexists; split; [reflexivity|by left]|].
  destruct (Nat.leb_spec MODULO_MAX (length g)) as [H8|H8]; [do 3 eexists; split; [reflexivity|by left]|].
  destruct (a_stat m) as [dim|]; [|do 3 eexists; split; [reflexivity|by left]].
  destruct ((dim <=? MODULO_CODA + dim_ehdr I386) || (MODULO_DIM_MAX <? dim)) eqn:Ed; [do 3 eexists; split; [reflexivity|by left]|].
  apply orb_false_iff in Ed as [Ed1 Ed2]. apply Z.leb_gt in Ed1. apply Z.ltb_ge in Ed2. unfold MODULO_CODA, MODULO_DIM_MAX in *. cbn [dim_ehdr] in Ed1.
  destruct (a_kmalloc m); cbn [negb]; [|do 3 eexists; split; [reflexivity|by left]].
  destruct (a_apre m); cbn [negb]; [|do 3 eexists; split; [reflexivity|by left]].
  destruct (Z.eqb_spec (Z.of_nat (length (a_letto m))) dim) as [El|El]; cbn [negb]; [|do 3 eexists; split; [reflexivity|by left]].
  destruct (controlla_coda_val I386 (a_blocco m) (a_letto m) Hf ltac:(unfold W32; lia) Hb0) as (z & Ez & Hz). rewrite Ez. cbn [mbind esito_bind].
  destruct (Z.eqb_spec z MODULO_E_NON_MOD) as [En|En]; [do 3 eexists; split; [reflexivity|by left]|].
  assert (Hmag : magia_ok (a_letto m) /\ (negb (z =? 0) = false <-> coda_ok I386 (a_letto m))).
  { destruct Hz as [[? _]|[(? & -> & ?)|(? & -> & ?)]]; [done|by split|]. by split. }
  destruct Hmag as [Hmag Hcoda].
  destruct (negb (z =? 0) && negb forza) eqn:Ef; [do 3 eexists; split; [reflexivity|by left]|].
  destruct (avvia_modulo_val g (nome_da_percorso p) (a_letto m) z m Hf ltac:(unfold W32; lia)) as (ev & g' & r & E & H). rewrite E.
  exists ev, g', r. split; [done|]. destruct H as [?|(Hr & Hev & Hin & d & Hd & ->)]; [by left|]. right. do 3 (split; [done|]).
  eexists p, _. split; [done|]. split; [done|]. cbn [m_nome m_forzato]. split; [done|]. split; [rewrite length_app; cbn; lia|].
  split; [unfold nome_da_percorso, MODULO_NOME_MAX; rewrite length_take; lia|]. split.
  - intros y Hy Ey. apply not_true_iff_false in Eg. apply Eg. apply existsb_exists. exists y.
    split; [by apply list_elem_of_In|]. by apply bool_decide_eq_true.
  - split; [done|]. split; [done|]. intros ->. by rewrite andb_true_r in Ef.
Qed.

(** A trailer for a module. *)
Definition x_coda (a : Arch) (f : list Z) : list Z :=
  let c := MODULO_MAGIA ++ EXOS_VERSION ++ replicate 11 0 ++ MODULO_ARCH a ++ replicate (8 - length (MODULO_ARCH a)) 0 in
  f ++ c ++ SHA256 (f ++ c).

Definition x_amb (f : list Z) (base : Z) : Ambiente :=
  mkAmb (Some (Z.of_nat (length f))) true true f base 0 (replicate 64 0).

Definition x_modulo32 : list Z := Eval vm_compute in x_coda I386 x_elf32.

Lemma x_modulo32_bytes : bytes x_modulo32.
Proof.
  apply Forall_forall. intros x Hx.
  assert (E : forallb (fun x => (0 <=? x) && (x <? 256)) x_modulo32 = true) by (vm_compute; reflexivity).
  rewrite forallb_forall in E. specialize (E x (proj1 (list_elem_of_In _ _) Hx)). lia.
Qed.

Lemma modulo_carica_32_correct_witness :
  exists ev g', modulo_carica I386 [] (Some EXT4_MOD) false (x_amb x_modulo32 0x200000) = Val (ev, g', 0) /\
    in_mano ev = (0, 1) /\ coda_ok I386 x_modulo32.
Proof.
  destruct (modulo_carica_32_correct [] (Some EXT4_MOD) false (x_amb x_modulo32 0x200000) x_modulo32_bytes eq_refl) as (ev & g' & r & E & H).
  assert (Er : exists ev' g'', modulo_carica I386 [] (Some EXT4_MOD) false (x_amb x_modulo32 0x200000) = Val (ev', g'', 0))
    by (do 2 eexists; vm_compute; reflexivity).
  destruct Er as (ev' & g'' & Er). rewrite E in Er. injection Er as _ _ Er. rewrite Er in E, H. clear Er. exists ev, g'. split; [exact E|].
  clear E. destruct H as [[H _]|(_ & Hev & _ & p & x & _ & _ & _ & _ & _ & _ & _ & Hc & Hf)]; [destruct (H eq_refl)|].
  split; [exact Hev|]. apply Hc. exact (Hf eq_refl).
Defined.

(** ** On 64 bits *)

Definition x_ehdr64 (entry phnum : Z) : list Z :=
  [127; 69; 76; 70; 2; 1; 1] ++ replicate 9 0 ++ le_byte 2 3 ++ le_byte 2 62 ++ le_byte 4 1 ++ le_byte 8 entry ++ le_byte 8 64 ++
  le_byte 8 0 ++ le_byte 4 0 ++ le_byte 2 64 ++ le_byte 2 56 ++ le_byte 2 phnum ++ replicate 6 0.
Definition x_phdr64 (ty off va fi me : Z) : list Z :=
  le_byte 4 ty ++ le_byte 4 7 ++ le_byte 8 off ++ le_byte 8 va ++ le_byte 8 va ++ le_byte 8 fi ++ le_byte 8 me ++ le_byte 8 4096.

(** A segment whose address and size add up to 2^64 + 16. *)
Definition x_elf64 : list Z := x_ehdr64 0 1 ++ x_phdr64 1 0 (2 ^ 64 - 4096) 16 (4096 + 16).

Definition x_modulo64 : list Z := Eval vm_compute in x_coda X86_64 x_elf64.

(** C35: The 64 bit loader can be made to write outside the image: there is a file, of
    bytes, with the trailer that this kernel asks for, whose ELF passes every check of
    the headers while a segment to copy starts past the end of the image, because the
    sum of its address and size wraps at 2^64; [modulo_carica], with the checks on,
    copies it outside the memory that it took. *)
Theorem modulo_carica_64_outside :
  bytes x_modulo64 /\ coda_ok X86_64 x_modulo64 /\ magia_ok x_modulo64 /\
  (exists e fine p, controlla_elf X86_64 (take (length x_modulo64 - 64) x_modulo64) = Val (e, fine, 0, 0) /\
     leggi_phdr X86_64 (take (length x_modulo64 - 64) x_modulo64) (e_phoff e) 0 = Val p /\
     p_type p = PT_LOAD /\ 0 < p_filesz p /\ fine <= p_vaddr p) /\
  (forall base, base <> 0 -> carica_elf X86_64 (take (length x_modulo64 - 64) x_modulo64) base = Fuori) /\
  modulo_carica X86_64 [] (Some EXT4_MOD) false (x_amb x_modulo64 0x200000) = Fuori.
Proof.
  split.
  { apply Forall_forall. intros x Hx.
    assert (E : forallb (fun x => (0 <=? x) && (x <? 256)) x_modulo64 = true) by (vm_compute; reflexivity).
    rewrite forallb_forall in E. specialize (E x (proj1 (list_elem_of_In _ _) Hx)). lia. }
  split; [unfold coda_ok; split; [vm_compute; reflexivity|]; split; vm_compute; reflexivity|].
  split; [vm_compute; reflexivity|]. split.
  - do 3 eexists. split; [vm_compute; reflexivity|]. split; [vm_compute; reflexivity|].
    split; [reflexivity|]. split; [reflexivity|]. vm_compute. congruence.
  - split; [|vm_compute; reflexivity]. intros base Hb. unfold carica_elf. set (f := take _ _). vm_compute in f.
    set (c := controlla_elf X86_64 f). vm_compute in c. cbn [c prova mbind esito_bind].
    rewrite (proj2 (Z.eqb_neq base 0) Hb). unfold carica_img. set (s := copia_segmenti _ _ _ _ _ _). vm_compute in s. reflexivity.
Qed.

(** ** The list of the modules *)

(** The line of a module. *)
Definition riga_modulo (m : Modulo) : list Z := m_nome m ++ (if m_forzato m then FORZATO else []) ++ [10].

Lemma metti_val s : forall buf p, (p + length s <= length buf)%nat ->
  exists buf', metti s buf p = Val (buf', (p + length s)%nat) /\ length buf' = length buf /\
    take (p + length s) buf' = take p buf ++ s.
Proof.
  induction s as [|x s IH]; intros buf p Hp; cbn [metti length] in *.
  - exists buf. rewrite Nat.add_0_r, app_nil_r. done.
  - rewrite scrivi_val by lia. cbn [mbind esito_bind].
    destruct (IH (<[p := x]> buf) (S p)) as (b & E & Hl & Ht); [rewrite length_insert; lia|]. rewrite length_insert in Hl.
    exists b. rewrite <- Nat.add_succ_comm. split; [done|]. split; [done|]. rewrite Ht, take_scritto, <- app_assoc by lia. done.
Qed.

(** A module of the table: a name that fits. *)
Definition modulo_ok (m : Modulo) : Prop := (length (m_nome m) < MODULO_NOME_MAX)%nat.

Lemma elenco_loop_val max : 0 <= max < W32 - 4096 -> forall g buf p, Forall modulo_ok g -> Z.of_nat p < max <= Z.of_nat (length buf) ->
  exists buf' k, elenco_loop g buf p max = Val (buf', (p + length (mjoin (riga_modulo <$> take k g)))%nat) /\
    length buf' = length buf /\ Z.of_nat (p + length (mjoin (riga_modulo <$> take k g))) < max /\
    take (p + length (mjoin (riga_modulo <$> take k g))) buf' = take p buf ++ mjoin (riga_modulo <$> take k g) /\
    (k = length g \/ exists m, g !! k = Some m /\ max <= Z.of_nat (p + length (mjoin (riga_modulo <$> take k g)) + length (riga_modulo m))).
Proof.
  intros Hmax. induction g as [|m g IH]; intros buf p Hg Hp; cbn [elenco_loop].
  - exists buf, 0%nat. cbn. rewrite Nat.add_0_r, app_nil_r. repeat split; try lia; by left.
  - apply Forall_cons in Hg as [Hm Hg]. unfold modulo_ok, MODULO_NOME_MAX in Hm. set (f := if m_forzato m then FORZATO else []).
    assert (Hf : (length f <= 29)%nat) by (unfold f; destruct (m_forzato m); cbn; lia).
    assert (Hlr : length (riga_modulo m) = (length (m_nome m) + length f + 1)%nat)
      by (unfold riga_modulo; fold f; rewrite !length_app; cbn; lia).
    rewrite u32_small by (unfold W32 in *; lia). destruct (Z.ltb_spec max (Z.of_nat p + Z.of_nat (length (m_nome m)) + Z.of_nat (length f) + 2)).
    + exists buf, 0%nat. cbn. rewrite Nat.add_0_r, app_nil_r. repeat split; try lia. right. exists m. split; [done|]. lia.
    + destruct (metti_val (m_nome m) buf p) as (b1 & E1 & L1 & T1); [lia|]. rewrite E1. cbn [mbind esito_bind].
      destruct (metti_val f b1 (p + length (m_nome m))) as (b2 & E2 & L2 & T2); [lia|]. rewrite E2. cbn [mbind esito_bind].
      destruct (metti_val [10] b2 (p + length (m_nome m) + length f)) as (b3 & E3 & L3 & T3); [cbn; lia|]. rewrite E3. cbn [mbind esito_bind].
      rewrite T2, T1, <- !app_assoc in T3. cbn [length] in *.
      replace (p + length (m_nome m) + length f + 1)%nat with (p + length (riga_modulo m))%nat in * by lia.
      destruct (IH b3 (p + length (riga_modulo m))%nat Hg ltac:(lia)) as (b4 & k & E4 & L4 & M4 & T4 & K4).
      assert (Ej : mjoin (riga_modulo <$> take (S k) (m :: g)) = riga_modulo m ++ mjoin (riga_modulo <$> take k g)) by done.
      assert (El : (p + length (mjoin (riga_modulo <$> take (S k) (m :: g))) = p + length (riga_modulo m) + length (mjoin (riga_modulo <$> take k g)))%nat)
        by (rewrite Ej, length_app; lia).
      exists b4, (S k). rewrite El. split; [exact E4|]. split; [lia|]. split; [done|]. split.
      * rewrite T4, T3, Ej. unfold riga_modulo at 2. fold f. by rewrite <- !app_assoc.
      * destruct K4 as [->|(m' & Hm' & Hk)]; [by left|]. right. exists m'. split; [done|]. lia.
Qed.

(** [modulo_elenco] writes only the [max] bytes of its buffer: the lines of the first
    modules that fit with a final zero, all of them if there is room, and returns how
    many modules there are. *)
Theorem modulo_elenco_correct g buf max : Forall modulo_ok g -> 0 < max < W32 - 4096 -> max <= Z.of_nat (length buf) ->
  exists buf' k, modulo_elenco g (Some buf) max = Val (Some buf', Z.of_nat (length g)) /\ length buf' = length buf /\
    take (S (length (mjoin (riga_modulo <$> take k g)))) buf' = mjoin (riga_modulo <$> take k g) ++ [0] /\
    (k = length g \/ exists m, g !! k = Some m /\ max <= Z.of_nat (length (mjoin (riga_modulo <$> take k g)) + length (riga_modulo m))).
Proof.
  intros Hg Hm Hl. unfold modulo_elenco. rewrite (proj2 (Z.eqb_neq max 0)) by lia.
  destruct (elenco_loop_val max ltac:(lia) g buf 0 Hg ltac:(lia)) as (b & k & E & L & M & T & K). cbn [Nat.add] in *.
  rewrite E. cbn [mbind esito_bind]. rewrite scrivi_val by lia. cbn [mbind esito_bind]. eexists _, k. split; [reflexivity|].
  rewrite length_insert, take_scritto, T, take_0 by lia. done.
Qed.
