(* ===== verification/Pagine.v ===== *)
(** * What paging asks of the page allocator

    The page tables, fork and shared memory take pages, add owners to them and give
    them back through five functions of pmm.c.  [Pagine] has the functions and
    [PagineOk] what they promise, in terms of the owners [o] of the pages that have a
    client: what is counted for such a page are these owners, whoever they are.  Pages
    that no client holds may be taken by the kernel heap at any time. *)

From S2P Require Import Prelude Pmm.

Class Pagine (P : Type) : Type := {
  pg_stato : P -> (Z -> Z) -> Prop;
  pg_totale : P -> Z;
  pg_alloc : P -> Z * P;
  pg_alloc_kernel : P -> Z * P;
  pg_free : Z -> P -> run P;
  pg_inc : Z -> P -> run (bool * P);
  pg_conta : Z -> P -> run Z
}.

(** [o] with [k] more owners of [f]. *)
Definition piu (f k : Z) (o : Z -> Z) (g : Z) : Z := o g + (if g =? f then k else 0).

(** A page handed out: its address, and its one owner. *)
Definition presa {P} `{Pagine P} (o : Z -> Z) (p : P) (r : Z * P) : Prop :=
  pg_totale (snd r) = pg_totale p /\
  (fst r = 0 /\ pg_stato (snd r) o \/
   exists f, fst r = f * PAGE_SIZE /\ 0 < f < pg_totale p /\ o f = 0 /\ pg_stato (snd r) (piu f 1 o)).

Class PagineOk (P : Type) `{Pagine P} : Prop := {
  pg_ext p o o' : pg_stato p o -> (forall f, o' f = o f) -> pg_stato p o';
  pg_range p o f : pg_stato p o -> 0 <= o f /\ (0 < o f -> 0 < f < pg_totale p);
  pg_max p o : pg_stato p o -> pg_totale p < PMM_PAGINE_4GB;
  pg_alloc_ok p o : pg_stato p o -> presa o p (pg_alloc p);
  pg_alloc_kernel_ok p o : pg_stato p o -> presa o p (pg_alloc_kernel p);
  pg_free_ok p o f : pg_stato p o -> 0 < o f ->
    exists p', pg_free (f * PAGE_SIZE) p = Ok p' /\ pg_totale p' = pg_totale p /\ pg_stato p' (piu f (-1) o);
  pg_inc_ok p o f : pg_stato p o -> 0 < o f ->
    exists b p', pg_inc (f * PAGE_SIZE) p = Ok (b, p') /\ pg_totale p' = pg_totale p /\
      pg_stato p' (piu f (if (b : bool) then 1 else 0) o);
  pg_conta_ok p o f : pg_stato p o -> 0 < o f -> pg_conta (f * PAGE_SIZE) p = Ok (u32 (o f))
}.
