(* ===== verification/Paging.v ===== *)
(** * Page tables, copy on write and fork (kernel/mm/paging.c, 32 bits)

    Physical memory is seen by frames: [fis m f j] is the word [j] of the frame [f].
    A directory is the number of its frame, and so is a page table; PDE and PTE are
    words with their bits.  The other part of the state is the page allocator, behind
    the interface [Pagine].  What the disk cache, the swap and the scheduler do when
    memory is short is behind [Scambio].  The TLB and CR3 have no counterpart, nor
    have the log messages; the window through which the kernel reaches a frame is
    the frame itself. *)

From S2P Require Import Prelude Pmm Pagine.

(** ** Bits of a PDE or PTE *)

Definition PG_PRESENT : Z := 1.
Definition PG_WRITABLE : Z := 2.
Definition PG_USER : Z := 4.
Definition PG_HUGE : Z := 128.
Definition PG_SWAP : Z := 512.
Definition PG_FISSA : Z := 512.
Definition PG_RISERVA : Z := 1024.
Definition PG_COW : Z := 1024.
Definition PG_PIGRA : Z := 2048.
Definition PG_CONDIVISA : Z := 2048.

(** [e & b] as a condition. *)
Definition ha (e b : Z) : bool := negb (Z.land e b =? 0).

Definition PTE_E_RISERVA (pte : Z) : bool := Z.land pte (Z.lor (Z.lor PG_PRESENT 512) PG_RISERVA) =? PG_RISERVA.
Definition PTE_E_PIGRA (pte : Z) : bool := Z.land pte (Z.lor (Z.lor (Z.lor PG_PRESENT 512) PG_RISERVA) PG_PIGRA) =? PG_PIGRA.
Definition PTE_E_COW (pte : Z) : bool := Z.land pte (Z.lor PG_PRESENT PG_COW) =? Z.lor PG_PRESENT PG_COW.
Definition PTE_E_CONDIVISA (pte : Z) : bool := Z.land pte (Z.lor PG_PRESENT PG_CONDIVISA) =? Z.lor PG_PRESENT PG_CONDIVISA.
Definition SWAP_PTE_E_SWAP (pte : Z) : bool := Z.land pte (Z.lor PG_PRESENT PG_SWAP) =? PG_SWAP.
Definition SWAP_PTE_SLOT (pte : Z) : Z := Z.shiftr pte 12.

Definition PG_ADDR (entry : Z) : Z := Z.land entry 0xFFFFF000.
Definition PD_INDEX (vaddr : Z) : Z := Z.land (Z.shiftr vaddr 22) 0x3FF.
Definition PT_INDEX (vaddr : Z) : Z := Z.land (Z.shiftr vaddr 12) 0x3FF.
Definition PAGINA_DI (v : Z) : Z := Z.land v 0xFFFFF000.

(** [x & ~b] on 32 bits. *)
Definition senza_bit (x b : Z) : Z := Z.land x (u32 (Z.lnot b)).

(** The frame of an address, and the one that an entry names. *)
Definition frame (a : Z) : Z := a / PAGE_SIZE.
Definition tab (entry : Z) : Z := frame (PG_ADDR entry).

Record Mondo (P : Type) : Type := mkMondo { fis : Z -> Z -> Z; pag : P }.
Arguments mkMondo {P} fis pag.
Arguments fis {P} _ _ _.
Arguments pag {P} _.

(** The rest of the kernel: [blk_cache_cedi(64)], [swap_sfratta], [swap_attivo], the
    others running during [sched_sleep], [pf_torna_da_swap], [swap_slot_molla]. *)
Class Scambio (P : Type) : Type := {
  cache_cedi : P -> bool * P;
  swap_sfratta : Mondo P -> run (bool * Mondo P);
  swap_attivo : bool;
  dormi : Mondo P -> run (Mondo P);
  pf_torna_da_swap : Z -> Z -> Mondo P -> run (bool * Mondo P);
  swap_slot_molla : Z -> Mondo P -> run (Mondo P)
}.

(** The static variables that these functions only read: the frame of the directory
    of the kernel, and the entries of the framebuffer. *)
Class Statiche : Type := { kernel_page_directory : Z; g_fb_pde_da : Z; g_fb_pde_a : Z }.

Section Paging.

Context {P : Type} {PG : Pagine P} {SC : Scambio P} {ST : Statiche}.

Implicit Types m : Mondo P.

(** [f[j] = v] *)
Definition metti (f j v : Z) (m : Mondo P) : Mondo P :=
  mkMondo (fun g k => if (g =? f) && (k =? j) then v else fis m g k) (pag m).

(** A whole frame, written word by word from 0 to 1023. *)
Definition riempi (f : Z) (v : Z -> Z) (m : Mondo P) : Mondo P :=
  mkMondo (fun g k => if (g =? f) && (0 <=? k) && (k <? 1024) then v k else fis m g k) (pag m).

Definition con_pag (p : P) (m : Mondo P) : Mondo P := mkMondo (fis m) p.

Definition pmm_free (a : Z) (m : Mondo P) : run (Mondo P) := p ← pg_free a (pag m); Ok (con_pag p m).

Definition PMM_OLTRE_RAM (a : Z) (m : Mondo P) : bool := u32 (pg_totale (pag m) * PAGE_SIZE) <=? a.

Definition TAB_C_E (d v : Z) (m : Mondo P) : bool := ha (fis m d (PD_INDEX v)) PG_PRESENT.
Definition TAB_GRANDE (d v : Z) (m : Mondo P) : bool := ha (fis m d (PD_INDEX v)) PG_HUGE.
Definition TAB_DI (d v : Z) (m : Mondo P) : Z := tab (fis m d (PD_INDEX v)).

(** ** Tables *)

Definition paging_azzera_fisica (phys : Z) (m : Mondo P) : Mondo P := riempi (tab phys) (fun _ => 0) m.

Definition spezza_4mb (d pd_idx : Z) (m : Mondo P) : run (Z * Mondo P) :=
  let base := Z.land (fis m d pd_idx) 0xFFC00000 in
  let flags := senza_bit (Z.land (fis m d pd_idx) 0xFFF) PG_HUGE in
  let '(pt_phys, p) := pg_alloc_kernel (pag m) in
  if pt_phys =? 0 then Ok (-1, con_pag p m)
  else
    let m := riempi (frame pt_phys) (fun i => Z.lor (u32 (base + i * PAGE_SIZE)) flags) (con_pag p m) in
    Ok (0, metti d pd_idx (Z.lor pt_phys (Z.land flags (Z.lor (Z.lor PG_PRESENT PG_WRITABLE) PG_USER))) m).

(** [for (giri = 0; giri < 64 && pt_phys == 0; giri++)] *)
Fixpoint giri_tabella (k : nat) (m : Mondo P) : run (Z * Mondo P) :=
  match k with
  | O => Ok (0, m)
  | S k =>
      let '(c, p) := cache_cedi (pag m) in
      let m := con_pag p m in
      '(s, m) ← (if (c : bool) then Ok (true, m) else swap_sfratta m);
      if (s : bool)
      then let '(pt_phys, p) := pg_alloc_kernel (pag m) in
           if negb (pt_phys =? 0) then Ok (pt_phys, con_pag p m) else giri_tabella k (con_pag p m)
      else Ok (0, m)
  end.

Definition tabella_nuova (m : Mondo P) : run (Z * Mondo P) :=
  let '(pt_phys, p) := pg_alloc_kernel (pag m) in
  if pt_phys =? 0 then giri_tabella 64 (con_pag p m) else Ok (pt_phys, con_pag p m).

(** [pt[pt_idx] = phys_addr | (flags & 0xFFF) | PG_PRESENT] *)
Definition scrivi_pte (pt pt_idx phys_addr flags : Z) (m : Mondo P) : Mondo P :=
  metti pt pt_idx (Z.lor (Z.lor phys_addr (Z.land flags 0xFFF)) PG_PRESENT) m.

(** [k] bounds the calls of the function to itself: there is at most one. *)
Fixpoint map_page (k : nat) (d virt_addr phys_addr flags : Z) (m : Mondo P) : run (Z * Mondo P) :=
  match k with
  | O => NoFuel
  | S k =>
      let pd_idx := PD_INDEX virt_addr in
      let pt_idx := PT_INDEX virt_addr in
      let virt_addr := Z.land virt_addr 0xFFFFF000 in
      let phys_addr := Z.land phys_addr 0xFFFFF000 in
      '(r, m) ← (if ha (fis m d pd_idx) PG_PRESENT && ha (fis m d pd_idx) PG_HUGE then spezza_4mb d pd_idx m else Ok (0, m));
      if negb (r =? 0) then Ok (-1, m)
      else if ha (fis m d pd_idx) PG_PRESENT
      then
        let pt := tab (fis m d pd_idx) in
        let m := if ha flags PG_USER && negb (ha (fis m d pd_idx) PG_USER) && (USER_SPACE_BASE <=? virt_addr)
                 then metti d pd_idx (Z.lor (fis m d pd_idx) PG_USER) m else m in
        Ok (0, scrivi_pte pt pt_idx phys_addr flags m)
      else
        '(pt_phys, m) ← tabella_nuova m;
        if pt_phys =? 0 then Ok (-1, m)
        else
          let m := riempi (frame pt_phys) (fun _ => 0) m in
          if ha (fis m d pd_idx) PG_PRESENT
          then m ← pmm_free pt_phys m; map_page k d virt_addr phys_addr flags m
          else
            let m := metti d pd_idx
                       (Z.lor (Z.lor (Z.lor pt_phys PG_PRESENT) PG_WRITABLE)
                              (if USER_SPACE_BASE <=? virt_addr then PG_USER else Z.land flags PG_USER)) m in
            Ok (0, scrivi_pte (frame pt_phys) pt_idx phys_addr flags m)
  end.

Definition paging_map_page (d virt_addr phys_addr flags : Z) (m : Mondo P) : run (Z * Mondo P) :=
  map_page 2 d virt_addr phys_addr flags m.

Definition paging_unmap_page (d virt_addr : Z) (m : Mondo P) : run (Mondo P) :=
  let pd_idx := PD_INDEX virt_addr in
  if negb (ha (fis m d pd_idx) PG_PRESENT) then Ok m
  else
    '(r, m) ← (if ha (fis m d pd_idx) PG_HUGE then spezza_4mb d pd_idx m else Ok (0, m));
    if negb (r =? 0) then Ok m
    else Ok (metti (tab (fis m d pd_idx)) (PT_INDEX virt_addr) 0 m).

Definition paging_get_physical (d virt_addr : Z) (m : Mondo P) : Z :=
  let e := fis m d (PD_INDEX virt_addr) in
  if negb (ha e PG_PRESENT) then 0
  else if ha e PG_HUGE then Z.lor (Z.land e 0xFFC00000) (Z.land virt_addr 0x003FFFFF)
  else
    let pte := fis m (tab e) (PT_INDEX virt_addr) in
    if negb (ha pte PG_PRESENT) then 0 else Z.lor (PG_ADDR pte) (Z.land virt_addr 0xFFF).

(** A null directory is [None]. *)
Definition paging_pte_leggi (pd : option Z) (virt : Z) (m : Mondo P) : Z :=
  match pd with
  | None => 0
  | Some d => let e := fis m d (PD_INDEX virt) in
              if negb (ha e PG_PRESENT) || ha e PG_HUGE then 0 else fis m (tab e) (PT_INDEX virt)
  end.

Definition paging_pte_scrivi (pd : option Z) (virt valore : Z) (m : Mondo P) : Mondo P :=
  match pd with
  | None => m
  | Some d => let e := fis m d (PD_INDEX virt) in
              if negb (ha e PG_PRESENT) || ha e PG_HUGE then m else metti (tab e) (PT_INDEX virt) valore m
  end.

(** ** Directories *)

(** [None] is NULL. *)
Definition paging_create_directory (m : Mondo P) : run (option Z * Mondo P) :=
  let '(phys, p) := pg_alloc_kernel (pag m) in
  let m := con_pag p m in
  if phys =? 0 then Ok (None, m)
  else
    let d := frame phys in
    let m := riempi d (fun _ => 0) m in
    let m := mkMondo (fun g k => if (g =? d) && (0 <=? k) && (k <? PD_INDEX USER_SPACE_BASE)
                                 then fis m kernel_page_directory k else fis m g k) (pag m) in
    Ok (Some d, mkMondo (fun g k => if (g =? d) && (g_fb_pde_da <=? k) && (k <? g_fb_pde_a)
                                    then fis m kernel_page_directory k else fis m g k) (pag m)).

(** The entries [j] to 1023 of a table. *)
Fixpoint libera_tabella (n : nat) (pt j : Z) (m : Mondo P) : run (Mondo P) :=
  match n with
  | O => Ok m
  | S n =>
      let pte := fis m pt j in
      m ← (if SWAP_PTE_E_SWAP pte then swap_slot_molla (SWAP_PTE_SLOT pte) m
           else if ha pte PG_PRESENT
           then if PMM_OLTRE_RAM (PG_ADDR pte) m then Ok m
                else if ha pte PG_FISSA then Ok m
                else pmm_free (PG_ADDR pte) m
           else Ok m);
      libera_tabella n pt (j + 1) m
  end.

(** The entries [i] to 1023 of the directory. *)
Fixpoint libera_directory (n : nat) (d i : Z) (m : Mondo P) : run (Mondo P) :=
  match n with
  | O => Ok m
  | S n =>
      m ← (if (g_fb_pde_da <=? i) && (i <? g_fb_pde_a) then Ok m
           else if ha (fis m d i) PG_PRESENT
           then m ← libera_tabella 1024 (tab (fis m d i)) 0 m; pmm_free (PG_ADDR (fis m d i)) m
           else Ok m);
      libera_directory n d (i + 1) m
  end.

Definition paging_destroy_directory (pd : option Z) (m : Mondo P) : run (Mondo P) :=
  match pd with
  | None => Ok m
  | Some d =>
      if d =? kernel_page_directory then Ok m
      else m ← libera_directory (Z.to_nat (1024 - PD_INDEX USER_SPACE_BASE)) d (PD_INDEX USER_SPACE_BASE) m;
           pmm_free (d * PAGE_SIZE) m
  end.

(** ** Reserved and promised pages *)

Definition paging_riserva (d virt : Z) (m : Mondo P) : run (Z * Mondo P) :=
  let virt := Z.land virt 0xFFFFF000 in
  '(r, m) ← paging_map_page d virt 0 0 m;
  if negb (r =? 0) then Ok (-1, m)
  else Ok (0, metti (TAB_DI d virt m) (PT_INDEX virt) PG_RISERVA m).

Definition paging_pigra (d virt flags : Z) (m : Mondo P) : run (Z * Mondo P) :=
  let virt := Z.land virt 0xFFFFF000 in
  '(r, m) ← paging_map_page d virt 0 0 m;
  if negb (r =? 0) then Ok (-1, m)
  else Ok (0, metti (TAB_DI d virt m) (PT_INDEX virt) (Z.lor PG_PIGRA (Z.land flags (Z.lor PG_USER PG_WRITABLE))) m).

(** [for (giri = 0; f == 0 && giri < 100; giri++)] *)
Fixpoint giri_utente (k : nat) (m : Mondo P) : run (Z * Mondo P) :=
  match k with
  | O => Ok (0, m)
  | S k =>
      let ancora := fun m => let '(f, p) := pg_alloc (pag m) in
                             if negb (f =? 0) then Ok (f, con_pag p m) else giri_utente k (con_pag p m) in
      let '(c, p) := cache_cedi (pag m) in
      let m := con_pag p m in
      if (c : bool) then ancora m
      else
        '(s, m) ← swap_sfratta m;
        if (s : bool) then ancora m
        else if negb swap_attivo then Ok (0, m)
        else m ← dormi m; ancora m
  end.

(** [pmm_alloc_page_utente] is [pmm_alloc_page] on 32 bits. *)
Definition pagina_utente (m : Mondo P) : run (Z * Mondo P) :=
  let '(f, p) := pg_alloc (pag m) in
  if negb (f =? 0) then Ok (f, con_pag p m) else giri_utente 100 (con_pag p m).

Definition paging_pigra_tocca (pd : option Z) (virt : Z) (m : Mondo P) : run (Z * Mondo P) :=
  let pagina := PAGINA_DI virt in
  match pd with
  | None => Ok (0, m)
  | Some d =>
      if (pagina <? USER_SPACE_BASE) || (USER_SPACE_END <=? pagina) then Ok (0, m)
      else if negb (TAB_C_E d pagina m) || TAB_GRANDE d pagina m then Ok (0, m)
      else
        let pt := TAB_DI d pagina m in
        let pti := PT_INDEX pagina in
        let pte := fis m pt pti in
        if negb (PTE_E_PIGRA pte) then Ok (0, m)
        else
          '(fisico, m) ← pagina_utente m;
          if fisico =? 0 then Ok (0, m)
          else
            let m := paging_azzera_fisica fisico m in
            if negb (PTE_E_PIGRA (fis m pt pti))
            then m' ← pmm_free fisico m; Ok (if ha (fis m pt pti) PG_PRESENT then 1 else 0, m')
            else Ok (1, metti pt pti (Z.lor (Z.lor (PG_ADDR fisico) (Z.land pte (Z.lor PG_USER PG_WRITABLE))) PG_PRESENT) m)
  end.

(** ** Copy on write *)

Definition cow_copia_fisica (da a : Z) (m : Mondo P) : Mondo P := riempi (frame a) (fis m (frame da)) m.

(** [k] bounds the calls of the function to itself, one for each time that another
    thread changes the entry while this one sleeps. *)
Fixpoint cow_loop (k : nat) (d pagina : Z) (m : Mondo P) : run (Z * Mondo P) :=
  match k with
  | O => NoFuel
  | S k =>
      if (pagina <? USER_SPACE_BASE) || (USER_SPACE_END <=? pagina) then Ok (0, m)
      else if negb (TAB_C_E d pagina m) || TAB_GRANDE d pagina m then Ok (0, m)
      else
        let pt := TAB_DI d pagina m in
        let pti := PT_INDEX pagina in
        let pte := fis m pt pti in
        if negb (PTE_E_COW pte) then Ok (0, m)
        else
          let vecchio := PG_ADDR pte in
          c ← pg_conta vecchio (pag m);
          if c <=? 1 then Ok (1, metti pt pti (Z.lor (senza_bit pte PG_COW) PG_WRITABLE) m)
          else
            '(nuovo, m) ← pagina_utente m;
            if nuovo =? 0 then Ok (-1, m)
            else if negb (fis m pt pti =? pte)
            then m' ← pmm_free nuovo m;
                 if PTE_E_COW (fis m pt pti) then cow_loop k d pagina m' else Ok (1, m')
            else
              let m := cow_copia_fisica vecchio nuovo m in
              let m := metti pt pti (Z.lor (Z.lor (senza_bit (Z.lxor pte (PG_ADDR pte)) PG_COW) PG_WRITABLE) (PG_ADDR nuovo)) m in
              m ← pmm_free vecchio m;
              Ok (1, m)
  end.

Definition cow_risolvi (k : nat) (pd : option Z) (pagina : Z) (m : Mondo P) : run (Z * Mondo P) :=
  match pd with None => Ok (0, m) | Some d => cow_loop k d pagina m end.

End Paging.
