(* ===== verification/Fork.v ===== *)
(** * fork: the user half of a space, and its protection (kernel/mm/paging.c, 32 bits)

    [paging_copia_spazio] gives the child the frames of the parent, [paging_proteggi]
    is mprotect, [pf_copia_su_scrittura] the answer to a write into a read-only page. *)

From S2P Require Import Prelude Pmm Pagine Paging.

Definition TAB_VOCI : Z := 1024.

Definition PROT_READ : Z := 1.
Definition PROT_WRITE : Z := 2.
Definition PROT_EXEC : Z := 4.

Section Fork.

Context {P : Type} {PG : Pagine P} {SC : Scambio P}.

Implicit Types m : Mondo P.

(** ** What the swap holds comes back *)

(** The entries [i] to 1023 of the table [pt] of [blocco]; [false] is the return of
    -ENOMEM. *)
Fixpoint torna_tabella (n : nat) (d pt blocco i : Z) (m : Mondo P) : run (bool * Mondo P) :=
  match n with
  | O => Ok (true, m)
  | S n =>
      '(b, m) ← (if SWAP_PTE_E_SWAP (fis m pt i) then pf_torna_da_swap d (u32 (blocco + i * PAGE_SIZE)) m
                 else Ok (true, m));
      if (b : bool) then torna_tabella n d pt blocco (i + 1) m else Ok (false, m)
  end.

(** The blocks of 4 MB from [blocco]; [n] is how many are left. *)
Fixpoint torna_giro (n : nat) (d blocco : Z) (m : Mondo P) : run (bool * Mondo P) :=
  match n with
  | O => Ok (true, m)
  | S n =>
      '(b, m) ← (if negb (TAB_C_E d blocco m) || TAB_GRANDE d blocco m then Ok (true, m)
                 else torna_tabella 1024 d (TAB_DI d blocco m) blocco 0 m);
      if (b : bool) then torna_giro n d (u32 (blocco + TAB_VOCI * PAGE_SIZE)) m else Ok (false, m)
  end.

(** ** The tables *)

(** What the child gets of the entry [pte], at index [i] of the table [pt] of the
    parent: [None] is the return of -ENOMEM. *)
Definition voce_figlio (pt i pte : Z) (m : Mondo P) : run (option Z * Mondo P) :=
  if ha pte PG_PRESENT then
    let fr := PG_ADDR pte in
    if PMM_OLTRE_RAM fr m || ha pte PG_FISSA then Ok (Some pte, m)
    else
      '(b, p) ← pg_inc fr (pag m);
      let m := con_pag p m in
      if PTE_E_CONDIVISA pte then Ok (if (b : bool) then Some pte else None, m)
      else if (b : bool) then
        if ha pte (Z.lor PG_WRITABLE PG_COW)
        then let figlio := Z.lor (senza_bit pte PG_WRITABLE) PG_COW in Ok (Some figlio, metti pt i figlio m)
        else Ok (Some pte, m)
      else
        let '(nuovo, p) := pg_alloc (pag m) in
        let m := con_pag p m in
        if nuovo =? 0 then Ok (None, m)
        else
          let m := cow_copia_fisica fr nuovo m in
          Ok (Some (Z.lor (Z.lor (senza_bit (Z.lxor pte (PG_ADDR pte)) PG_COW) (PG_ADDR nuovo))
                          (if ha pte PG_COW then PG_WRITABLE else 0)), m)
  else Ok (Some pte, m).

(** The entry in the table of the child: made by mapping, then written as it must
    be; [false] is the return of -ENOMEM, with what was taken given back. *)
Definition installa (al va pte figlio : Z) (m : Mondo P) : run (bool * Mondo P) :=
  '(r, m) ← paging_map_page al va 0 0 m;
  if negb (r =? 0) then
    m ← (if ha figlio PG_PRESENT && negb (figlio =? pte) && negb (ha figlio PG_COW) then pmm_free (PG_ADDR figlio) m
         else if ha figlio PG_PRESENT && negb (PMM_OLTRE_RAM (PG_ADDR figlio) m) && negb (ha figlio PG_FISSA)
         then pmm_free (PG_ADDR figlio) m
         else Ok m);
    Ok (false, m)
  else Ok (true, paging_pte_scrivi (Some al) va figlio m).

(** One turn of the loop over the entries of a table, [pt] the table of the parent,
    which is read again after the swap. *)
Definition copia_voce (d al pt blocco i : Z) (m : Mondo P) : run (bool * Z * Mondo P) :=
  let va := u32 (blocco + i * PAGE_SIZE) in
  if fis m pt i =? 0 then Ok (true, pt, m)
  else
    '(s, pt, m) ← (if SWAP_PTE_E_SWAP (fis m pt i)
                   then '(s, m) ← pf_torna_da_swap d va m; Ok (s, TAB_DI d blocco m, m)
                   else Ok (true, pt, m));
    let pte := fis m pt i in
    if negb (s : bool) then Ok (false, pt, m)
    else if pte =? 0 then Ok (true, pt, m)
    else if SWAP_PTE_E_SWAP pte then Ok (false, pt, m)
    else
      '(f, m) ← voce_figlio pt i pte m;
      match f with
      | None => Ok (false, pt, m)
      | Some figlio => '(b, m) ← installa al va pte figlio m; Ok (b, pt, m)
      end.

Fixpoint copia_tabella (n : nat) (d al pt blocco i : Z) (m : Mondo P) : run (bool * Mondo P) :=
  match n with
  | O => Ok (true, m)
  | S n =>
      '(b, pt, m) ← copia_voce d al pt blocco i m;
      if (b : bool) then copia_tabella n d al pt blocco (i + 1) m else Ok (false, m)
  end.

(** The table of a block. *)
Definition copia_blocco (d al blocco : Z) (m : Mondo P) : run (bool * Mondo P) :=
  if negb (TAB_C_E d blocco m) then Ok (true, m)
  else
    '(r, m) ← (if TAB_GRANDE d blocco m then spezza_4mb d (PD_INDEX blocco) m else Ok (0, m));
    if negb (r =? 0) then Ok (false, m)
    else if TAB_C_E al blocco m && negb (TAB_GRANDE al blocco m) && (TAB_DI al blocco m =? TAB_DI d blocco m)
    then Ok (true, m)
    else copia_tabella 1024 d al (TAB_DI d blocco m) blocco 0 m.

Fixpoint copia_blocchi (n : nat) (d al blocco : Z) (m : Mondo P) : run (bool * Mondo P) :=
  match n with
  | O => Ok (true, m)
  | S n =>
      '(b, m) ← copia_blocco d al blocco m;
      if (b : bool) then copia_blocchi n d al (u32 (blocco + TAB_VOCI * PAGE_SIZE)) m else Ok (false, m)
  end.

(** The blocks from [USER_SPACE_BASE] to [USER_SPACE_END]. *)
Definition n_blocchi : nat := Z.to_nat ((USER_SPACE_END - USER_SPACE_BASE) / (TAB_VOCI * PAGE_SIZE)).

Definition paging_copia_spazio (d al : Z) (m : Mondo P) : run (Z * Mondo P) :=
  '(b, m) ← torna_giro n_blocchi d USER_SPACE_BASE m;
  if negb (b : bool) then Ok (- ENOMEM, m)
  else
    '(b, m) ← torna_giro n_blocchi d USER_SPACE_BASE m;
    if negb (b : bool) then Ok (- ENOMEM, m)
    else
      '(b, m) ← copia_blocchi n_blocchi d al USER_SPACE_BASE m;
      Ok (if (b : bool) then 0 else - ENOMEM, m).

End Fork.
