(* ===== verification/Memsys.v ===== *)
(** * The memory system calls (kernel/syscall/syscall_impl.c, kernel/mm/paging.c, 32 bits)

    mmap, munmap, mprotect and sbrk of a program, mmio_map and fb_map of a driver and
    of the window server, and the page of the executable that arrives at the first
    touch.  They work on the directory of the caller and on the border of its heap,
    [heap_end], which threads share through their leader.  The parameters of mmap are
    read at once: the caller does not keep them in the range that it maps. *)

From S2P Require Import Prelude Pmm Pagine Paging Fork.

Definition EFAULT : Z := 14.
Definition ENODEV : Z := 19.

Definition MAP_SHARED : Z := 0x01.
Definition MAP_FIXED : Z := 0x10.

Definition PG_WRITE_THRU : Z := 8.
Definition PG_CACHE_DIS : Z := 16.

Definition MMIO_BYTE_MAX : Z := 16 * 1024 * 1024.

(** [(int32_t)x] *)
Definition s32 (x : Z) : Z := if x <? 2147483648 then x else x - W32.

Definition PROT_TUTTI : Z := Z.lor (Z.lor PROT_READ PROT_WRITE) PROT_EXEC.

Record ProcVma : Type := mkVma { vstart : Z; vend : Z; file_off : Z; file_fine : Z; pg_flags : Z }.

(** The fields of a process that these calls use; 0 is the null directory. *)
Record Proc : Type := mkProc {
  pid : Z;
  tgid : Z;
  uid : Z;
  is_driver : bool;
  page_directory : Z;
  heap_start : Z;
  heap_end : Z;
  heap_max : Z;
  exe_handle : Z;
  vma : list ProcVma
}.

Definition con_heap_end (e : Z) (p : Proc) : Proc :=
  mkProc (pid p) (tgid p) (uid p) (is_driver p) (page_directory p) (heap_start p) e (heap_max p) (exe_handle p) (vma p).

Record MmapParams : Type := mkMmapParams { mp_addr : Z; mp_length : Z; mp_prot : Z; mp_flags : Z; mp_fd : Z; mp_offset : Z }.

(** The file system and the table of processes: [vfs_read] gives the count it returns
    and what it puts in the buffer; nobody else changes the page tables while it waits
    for the disk. *)
Class Sistema : Type := {
  vfs_read : Z -> Z -> Z -> Z * (Z -> Z);
  proc_get_by_pid : Z -> option Proc
}.

Definition pagine_di (byte : Z) : Z := align_up byte PAGE_SIZE / PAGE_SIZE.

Section Memsys.

Context {P : Type} {PG : Pagine P} {SC : Scambio P} {SI : Sistema}.

Implicit Types m : Mondo P.

(** ** Loops over pages *)

(** [for (i = ...; ...; i++) f(vaddr + i * PAGE_SIZE)], [n] times. *)
Fixpoint per_pagine (n : nat) (vaddr i : Z) (f : Z -> Mondo P -> run (Mondo P)) (m : Mondo P) : run (Mondo P) :=
  match n with
  | O => Ok m
  | S n => m ← f (u32 (vaddr + i * PAGE_SIZE)) m; per_pagine n vaddr (i + 1) f m
  end.

(** The same with a body that can fail: whether all went well, and the index at the
    end. *)
Fixpoint finche (n : nat) (vaddr i : Z) (f : Z -> Mondo P -> run (bool * Mondo P)) (m : Mondo P) : run (bool * Z * Mondo P) :=
  match n with
  | O => Ok (true, i, m)
  | S n =>
      '(b, m) ← f (u32 (vaddr + i * PAGE_SIZE)) m;
      if (b : bool) then finche n vaddr (i + 1) f m else Ok (false, i, m)
  end.

(** All the pages, or none: those done are undone with [disfa]. *)
Definition tutte (pages vaddr : Z) (fai : Z -> Mondo P -> run (bool * Mondo P)) (disfa : Z -> Mondo P -> run (Mondo P))
    (m : Mondo P) : run (bool * Mondo P) :=
  '(b, i, m) ← finche (Z.to_nat pages) vaddr 0 fai m;
  if (b : bool) then Ok (true, m) else m ← per_pagine (Z.to_nat i) vaddr 0 disfa m; Ok (false, m).

(** [if (phys) pmm_free_page(phys); paging_unmap_page(pd, va)] *)
Definition smonta (d va : Z) (m : Mondo P) : run (Mondo P) :=
  let phys := paging_get_physical d va m in
  m ← (if negb (phys =? 0) then pmm_free phys m else Ok m);
  paging_unmap_page d va m.

(** The same of MAP_FIXED, which clears the offset. *)
Definition smonta_fissa (d va : Z) (m : Mondo P) : run (Mondo P) :=
  let pa := paging_get_physical d va m in
  m ← (if negb (pa =? 0) then pmm_free (Z.land pa 0xFFFFF000) m else Ok m);
  paging_unmap_page d va m.

(** A promised page, a reserved one: [false] is a result other than 0. *)
Definition promette (d flags va : Z) (m : Mondo P) : run (bool * Mondo P) :=
  '(r, m) ← paging_pigra d va flags m; Ok (r =? 0, m).

Definition riserva (d va : Z) (m : Mondo P) : run (bool * Mondo P) :=
  '(r, m) ← paging_riserva d va m; Ok (r =? 0, m).

(** ** mmap *)

(** A page of MAP_SHARED; the one that cannot be mapped is given back. *)
Definition condivide (d flags va : Z) (m : Mondo P) : run (bool * Mondo P) :=
  let '(f, p) := pg_alloc (pag m) in
  let m := con_pag p m in
  if f =? 0 then Ok (false, m)
  else
    let m := paging_azzera_fisica f m in
    '(r, m) ← paging_map_page d va f (Z.lor flags PG_CONDIVISA) m;
    if negb (r =? 0) then m ← pmm_free f m; Ok (false, m) else Ok (true, m).

(** The way back of MAP_SHARED. *)
Definition smonta_condivisa (d va : Z) (m : Mondo P) : run (Mondo P) :=
  let g := paging_get_physical d va m in
  m ← paging_unmap_page d va m;
  if negb (g =? 0) then pmm_free (Z.land g 0xFFFFF000) m else Ok m.

(** Above the heap: the address that comes after [heap_end], if [pages] pages fit
    under [heap_max]. *)
Definition sopra_heap (pages : Z) (proc : Proc) : option Z :=
  let vaddr := align_up (heap_end proc) PAGE_SIZE in
  let vaddr := if vaddr <? USER_SPACE_BASE then USER_SPACE_BASE else vaddr in
  if heap_max proc =? 0 then None
  else if (heap_max proc <? vaddr) || ((heap_max proc - vaddr) / PAGE_SIZE <? pages) then None
  else Some vaddr.

(** The address of a mapping, or the error. *)
Definition dove (p : MmapParams) (pages : Z) (proc : Proc) : Z + Z :=
  if ha (mp_flags p) MAP_FIXED then
    let vaddr := Z.land (mp_addr p) 0xFFFFF000 in
    if (vaddr <? USER_SPACE_BASE) || (USER_SPACE_END <=? vaddr) then inr (- EINVAL)
    else if (USER_SPACE_END - vaddr) / PAGE_SIZE <? pages then inr (- EINVAL)
    else if negb (heap_max proc =? 0) && (heap_max proc <? u32 (vaddr + pages * PAGE_SIZE)) then inr (- EINVAL)
    else inl vaddr
  else
    match sopra_heap pages proc with Some vaddr => inl vaddr | None => inr (- ENOMEM) end.

(** [if (fine > proc->heap_end) proc->heap_end = fine] *)
Definition alza (fine : Z) (proc : Proc) : Proc := if heap_end proc <? fine then con_heap_end fine proc else proc.

Definition flags_mmap (prot : Z) : Z :=
  Z.lor (Z.lor PG_PRESENT (if ha prot PROT_TUTTI then PG_USER else 0)) (if ha prot PROT_WRITE then PG_WRITABLE else 0).

(** The pages, by the kind of mapping. *)
Definition pagine_mmap (p : MmapParams) (d pages vaddr : Z) (m : Mondo P) : run (bool * Mondo P) :=
  if negb (ha (mp_prot p) PROT_TUTTI) then tutte pages vaddr (riserva d) (paging_unmap_page d) m
  else if ha (mp_flags p) MAP_SHARED then tutte pages vaddr (condivide d (flags_mmap (mp_prot p))) (smonta_condivisa d) m
  else tutte pages vaddr (promette d (flags_mmap (mp_prot p))) (paging_unmap_page d) m.

(** [None] is a pointer that [syscall_verify_ptr] refuses. *)
Definition sys_mmap (arg : option MmapParams) (proc : Proc) (m : Mondo P) : run (Z * Proc * Mondo P) :=
  match arg with
  | None => Ok (- EFAULT, proc, m)
  | Some p =>
      if mp_length p =? 0 then Ok (- EINVAL, proc, m)
      else
        let pages := pagine_di (mp_length p) in
        match dove p pages proc with
        | inr e => Ok (e, proc, m)
        | inl vaddr =>
            let d := page_directory proc in
            m ← (if ha (mp_flags p) MAP_FIXED then per_pagine (Z.to_nat pages) vaddr 0 (smonta_fissa d) m else Ok m);
            '(b, m) ← pagine_mmap p d pages vaddr m;
            if (b : bool) then Ok (s32 vaddr, alza (u32 (vaddr + pages * PAGE_SIZE)) proc, m) else Ok (- ENOMEM, proc, m)
        end
  end.

(** ** munmap *)

Definition sys_munmap (a1 length : Z) (proc : Proc) (m : Mondo P) : run (Z * Proc * Mondo P) :=
  let addr := Z.land a1 0xFFFFF000 in
  let pages := pagine_di length in
  if (addr <? USER_SPACE_BASE) || (USER_SPACE_END <=? addr) then Ok (- EINVAL, proc, m)
  else if length =? 0 then Ok (- EINVAL, proc, m)
  else
    m ← per_pagine (Z.to_nat pages) addr 0 (smonta (page_directory proc)) m;
    Ok (0, (if (u32 (addr + pages * PAGE_SIZE) =? heap_end proc) && (heap_start proc <=? addr) then con_heap_end addr proc else proc), m).

(** ** sbrk *)

Definition sys_sbrk (a1 : Z) (proc : Proc) (m : Mondo P) : run (Z * Proc * Mondo P) :=
  let incr := s32 a1 in
  let d := page_directory proc in
  if (heap_start proc =? 0) || (heap_max proc =? 0) then Ok (- ENOMEM, proc, m)
  else
    let old_end := heap_end proc in
    if incr =? 0 then Ok (s32 old_end, proc, m)
    else if 0 <? incr then
      let pages := pagine_di (u32 incr) in
      if (heap_max proc <? heap_end proc) || ((heap_max proc - heap_end proc) / PAGE_SIZE <? pages) then Ok (- ENOMEM, proc, m)
      else
        '(b, m) ← tutte pages (heap_end proc) (promette d (Z.lor (Z.lor PG_PRESENT PG_WRITABLE) PG_USER)) (paging_unmap_page d) m;
        if (b : bool) then Ok (s32 old_end, con_heap_end (u32 (heap_end proc + pages * PAGE_SIZE)) proc, m)
        else Ok (- ENOMEM, proc, m)
    else
      let shrink := Z.land (u32 (- incr)) (u32 (Z.lnot (PAGE_SIZE - 1))) in
      if shrink =? 0 then Ok (s32 old_end, proc, m)
      else if u32 (heap_end proc - heap_start proc) <? shrink then Ok (- EINVAL, proc, m)
      else
        let new_end := u32 (heap_end proc - shrink) in
        m ← per_pagine (Z.to_nat (shrink / PAGE_SIZE)) new_end 0 (smonta d) m;
        Ok (s32 old_end, con_heap_end new_end proc, m).

(** ** Windows on devices *)

Definition e_un_driver (p : Proc) : bool := is_driver p && (uid p =? 0).

(** One page of a device; [va - vaddr] is its offset in the window from [base]. *)
Definition dispositivo (d vaddr base flags va : Z) (m : Mondo P) : run (bool * Mondo P) :=
  '(r, m) ← paging_map_page d va (u32 (base + (va - vaddr))) flags m; Ok (r =? 0, m).

(** The arguments are [z->fisico] and [z->byte], and the second result is [z->virt]. *)
Definition sys_mmio_map (z : option (Z * Z)) (proc : Proc) (m : Mondo P) : run (Z * option Z * Proc * Mondo P) :=
  match z with
  | None => Ok (- EFAULT, None, proc, m)
  | Some (fisico, byte) =>
      if byte =? 0 then Ok (- EINVAL, None, proc, m)
      else if MMIO_BYTE_MAX <? byte then Ok (- EINVAL, None, proc, m)
      else if negb (e_un_driver proc) then Ok (- EPERM, None, proc, m)
      else
        let base := Z.land fisico (u32 (Z.lnot (PAGE_SIZE - 1))) in
        let dentro := fisico - base in
        let fine := u32 (base + align_up (u32 (dentro + byte)) PAGE_SIZE) in
        let pagine := u32 (fine - base) / PAGE_SIZE in
        if base <? u32 (pg_totale (pag m) * PAGE_SIZE) then Ok (- EPERM, None, proc, m)
        else if fine <? base then Ok (- EINVAL, None, proc, m)
        else
          match sopra_heap pagine proc with
          | None => Ok (- ENOMEM, None, proc, m)
          | Some vaddr =>
              let d := page_directory proc in
              '(b, m) ← tutte pagine vaddr
                (dispositivo d vaddr base (Z.lor PG_PRESENT (Z.lor PG_USER (Z.lor PG_WRITABLE (Z.lor PG_FISSA (Z.lor PG_CACHE_DIS PG_WRITE_THRU))))))
                (paging_unmap_page d) m;
              if (b : bool) then Ok (0, Some (u32 (vaddr + dentro)), con_heap_end (u32 (vaddr + pagine * PAGE_SIZE)) proc, m)
              else Ok (- ENOMEM, None, proc, m)
          end
  end.

(** [fisico], [passo] and [alt] are what [vga_info_fb] tells, [wc] is [pat_flag_wc()]. *)
Definition sys_fb_map (fisico passo alt wc : Z) (proc : option Proc) (m : Mondo P) : run (Z * option Proc * Mondo P) :=
  match proc with
  | None => Ok (- ESRCH, None, m)
  | Some proc =>
      if (fisico =? 0) || (passo =? 0) || (alt =? 0) then Ok (- ENODEV, Some proc, m)
      else
        let byte := u32 (passo * alt) in
        let base := Z.land fisico (u32 (Z.lnot (PAGE_SIZE - 1))) in
        let fine := u32 (base + align_up (u32 (fisico - base + byte)) PAGE_SIZE) in
        let pagine := u32 (fine - base) / PAGE_SIZE in
        if fine <? base then Ok (- EINVAL, Some proc, m)
        else
          match sopra_heap pagine proc with
          | None => Ok (- ENOMEM, Some proc, m)
          | Some vaddr =>
              let d := page_directory proc in
              '(b, m) ← tutte pagine vaddr
                (dispositivo d vaddr base (Z.lor PG_PRESENT (Z.lor PG_USER (Z.lor PG_WRITABLE (Z.lor PG_FISSA wc)))))
                (paging_unmap_page d) m;
              if (b : bool) then Ok (s32 (u32 (vaddr + (fisico - base))), Some (con_heap_end (u32 (vaddr + pagine * PAGE_SIZE)) proc), m)
              else Ok (- ENOMEM, Some proc, m)
          end
  end.

(** ** A page of the executable *)

(** The leader of the group keeps the file and its segments. *)
Definition immagine_di (p : Proc) : Proc :=
  if negb (tgid p =? 0) && negb (tgid p =? pid p) && (exe_handle p <? 0)
  then match proc_get_by_pid (tgid p) with
       | Some capo => if page_directory capo =? page_directory p then capo else p
       | None => p
       end
  else p.

Fixpoint cerca_vma (pagina : Z) (l : list ProcVma) : option ProcVma :=
  match l with
  | [] => None
  | v :: l => if (vstart v <=? pagina) && (pagina <? vend v) then Some v else cerca_vma pagina l
  end.

(** The byte [b] of the new page: from the file, then zeros; and its words. *)
Definition byte_pagina (buf : Z -> Z) (letti b : Z) : Z := if b <? letti then buf b mod 256 else 0.
Definition parola_pagina (buf : Z -> Z) (letti k : Z) : Z :=
  byte_pagina buf letti (4 * k) + byte_pagina buf letti (4 * k + 1) * 256 +
  byte_pagina buf letti (4 * k + 2) * 65536 + byte_pagina buf letti (4 * k + 3) * 16777216.

(** How many bytes of the page come from the file. *)
Definition da_leggere (v : ProcVma) (pagina : Z) : Z :=
  if pagina <? file_fine v then Z.min (u32 (file_fine v - pagina)) PAGE_SIZE else 0.

(** [None] is a failed or short read. *)
Definition leggi_pagina (h : Z) (v : ProcVma) (pagina : Z) : option (Z * (Z -> Z)) :=
  let quanti := da_leggere v pagina in
  if 0 <? quanti then
    let '(n, buf) := vfs_read h quanti (u32 (file_off v + (pagina - vstart v))) in
    if (n <? 0) || (n <? quanti) then None else Some (n, buf)
  else Some (0, fun _ => 0).

Definition pf_carica_da_file (p : Proc) (fault_addr : Z) (m : Mondo P) : run (bool * Mondo P) :=
  let pagina := PAGINA_DI fault_addr in
  let p := immagine_di p in
  let d := page_directory p in
  if (exe_handle p <? 0) || (d =? 0) then Ok (false, m)
  else
    match cerca_vma pagina (vma p) with
    | None => Ok (false, m)
    | Some v =>
        match leggi_pagina (exe_handle p) v pagina with
        | None => Ok (false, m)
        | Some (letti, buf) =>
            if negb (paging_get_physical d pagina m =? 0) then Ok (true, m)
            else
              '(phys, m) ← pagina_utente m;
              if phys =? 0 then Ok (false, m)
              else
                let m := riempi (frame phys) (parola_pagina buf letti) m in
                '(r, m) ← paging_map_page d pagina phys (pg_flags v) m;
                if negb (r =? 0) then m ← pmm_free phys m; Ok (false, m) else Ok (true, m)
        end
    end.

(** ** mprotect *)

(** Step 1: the page must be resident, or without a frame on purpose. *)
Definition residente (p : Proc) (va : Z) (m : Mondo P) : run (bool * Mondo P) :=
  let d := page_directory p in
  '(r, m) ← (if TAB_C_E d va m && TAB_GRANDE d va m then spezza_4mb d (PD_INDEX va) m else Ok (0, m));
  if negb (r =? 0) then Ok (false, m)
  else
    let pte := fis m (TAB_DI d va m) (PT_INDEX va) in
    if TAB_C_E d va m && ha pte PG_PRESENT then Ok (true, m)
    else if TAB_C_E d va m && SWAP_PTE_E_SWAP pte then pf_torna_da_swap d va m
    else if TAB_C_E d va m && (PTE_E_RISERVA pte || PTE_E_PIGRA pte) then Ok (true, m)
    else pf_carica_da_file p va m.

(** Step 2: nothing is missing. *)
Fixpoint controlla (n : nat) (d virt i : Z) (m : Mondo P) : bool :=
  match n with
  | O => true
  | S n =>
      let va := u32 (virt + i * PAGE_SIZE) in
      let pte := fis m (TAB_DI d va m) (PT_INDEX va) in
      TAB_C_E d va m && (PTE_E_RISERVA pte || PTE_E_PIGRA pte || ha pte PG_PRESENT) && controlla n d virt (i + 1) m
  end.

(** Step 3: the new rights of one page. *)
Definition applica (d nuovi va : Z) (m : Mondo P) : run (Mondo P) :=
  let pt := TAB_DI d va m in
  let pti := PT_INDEX va in
  let pte := fis m pt pti in
  if negb (ha pte PG_PRESENT)
  then Ok (metti pt pti (if ha nuovi PG_USER then Z.lor PG_PIGRA nuovi else PG_RISERVA) m)
  else
    c ← (if ha nuovi PG_WRITABLE && negb (PTE_E_CONDIVISA pte) && negb (PMM_OLTRE_RAM (PG_ADDR pte) m)
         then if ha pte PG_COW then Ok true else c ← pg_conta (PG_ADDR pte) (pag m); Ok (1 <? c)
         else Ok false);
    let n := if (c : bool) then Z.lor (senza_bit nuovi PG_WRITABLE) PG_COW else nuovi in
    Ok (metti pt pti (Z.lor (senza_bit pte (Z.lor (Z.lor PG_USER PG_WRITABLE) PG_COW)) n) m).

Definition diritti (prot : Z) : Z :=
  Z.lor (if ha prot PROT_TUTTI then PG_USER else 0) (if ha prot PROT_WRITE then PG_WRITABLE else 0).

Definition paging_proteggi (p : Proc) (virt pagine prot : Z) (m : Mondo P) : run (Z * Mondo P) :=
  let d := page_directory p in
  if d =? 0 then Ok (- EINVAL, m)
  else
    '(b, _, m) ← finche (Z.to_nat pagine) virt 0 (residente p) m;
    if negb (b : bool) then Ok (- ENOMEM, m)
    else if negb (controlla (Z.to_nat pagine) d virt 0 m) then Ok (- ENOMEM, m)
    else m ← per_pagine (Z.to_nat pagine) virt 0 (applica d (diritti prot)) m; Ok (0, m).

Definition sys_mprotect (addr len prot : Z) (proc : option Proc) (m : Mondo P) : run (Z * Mondo P) :=
  match proc with
  | None => Ok (- ESRCH, m)
  | Some proc =>
      if ha addr (PAGE_SIZE - 1) then Ok (- EINVAL, m)
      else if ha prot (u32 (Z.lnot PROT_TUTTI)) then Ok (- EINVAL, m)
      else if len =? 0 then Ok (0, m)
      else if (addr <? USER_SPACE_BASE) || (USER_SPACE_END <=? addr) then Ok (- ENOMEM, m)
      else
        let pages := pagine_di len in
        if (USER_SPACE_END - addr) / PAGE_SIZE <? pages then Ok (- ENOMEM, m)
        else paging_proteggi proc addr pages prot m
  end.

(** ** Threads *)

(** A call of a thread [io] of the group of [capo], with the lock of the space. *)
Definition con_lo_spazio (fai : Proc -> Mondo P -> run (Z * Proc * Mondo P)) (io capo : Proc) (m : Mondo P)
    : run (Z * Proc * Proc * Mondo P) :=
  '(r, io, m) ← fai (con_heap_end (heap_end capo) io) m;
  Ok (r, io, con_heap_end (heap_end io) capo, m).

End Memsys.
