(* ===== verification/PagingBit.v ===== *)
(** * Bits of the entries and sums over lists

    What the theorems on paging need of words: a flag as a bit, the frame as the bits
    from 12 on, and sums of a function over a list that changes in one place. *)

From S2P Require Import Prelude Bytes Pmm Paging.

(** ** Flags *)

Lemma ha_bit e k : 0 <= k -> ha e (2 ^ k) = Z.testbit e k.
Proof.
  intros Hk. unfold ha. destruct (Z.eqb_spec (Z.land e (2 ^ k)) 0) as [E|E]; cbn [negb].
  - assert (B : Z.testbit (Z.land e (2 ^ k)) k = false) by (by rewrite E, Z.bits_0).
    rewrite Z.land_spec, Z.pow2_bits_true, andb_true_r in B by lia. done.
  - destruct (Z.testbit e k) eqn:B; [done|]. exfalso. apply E. apply Z.bits_inj'. intros n Hn.
    rewrite Z.land_spec, Z.bits_0, Z.pow2_bits_eqb by lia. destruct (Z.eqb_spec k n) as [<-|]; [by rewrite B | apply andb_false_r].
Qed.

Lemma ha_or e a b : ha e (Z.lor a b) = ha e a || ha e b.
Proof.
  unfold ha. rewrite Z.land_lor_distr_r. destruct (Z.eqb_spec (Z.land e a) 0) as [->|Ea].
  - by rewrite Z.lor_0_l.
  - cbn [negb orb]. apply negb_true_iff, Z.eqb_neq. intros E. apply Z.lor_eq_0_iff in E as [E _]. done.
Qed.

(** All the bits of [b]. *)
Lemma tutti_bit e b c : Z.land e (Z.lor b c) = Z.lor b c <-> Z.land e b = b /\ Z.land e c = c.
Proof.
  split.
  - intros E. split; apply Z.bits_inj'; intros n Hn; pose proof (f_equal (fun x => Z.testbit x n) E) as B; cbv beta in B;
      rewrite Z.land_spec, Z.lor_spec in B; rewrite Z.land_spec;
      destruct (Z.testbit b n), (Z.testbit c n), (Z.testbit e n); cbn in *; congruence.
  - intros [E1 E2]. rewrite Z.land_lor_distr_r. by rewrite E1, E2.
Qed.

Lemma un_bit e k : 0 <= k -> Z.land e (2 ^ k) = 2 ^ k <-> Z.testbit e k = true.
Proof.
  intros Hk. rewrite <- (ha_bit e k Hk). unfold ha. assert (0 < 2 ^ k) by (apply Z.pow_pos_nonneg; lia).
  destruct (Z.eqb_spec (Z.land e (2 ^ k)) 0) as [E|E]; cbn [negb]; [split; [lia | done]|]. split; [done|]. intros _.
  apply Z.bits_inj'. intros n Hn. rewrite Z.land_spec, Z.pow2_bits_eqb by lia.
  destruct (Z.eqb_spec k n) as [<-|]; [|apply andb_false_r]. rewrite andb_true_r.
  rewrite <- ha_bit by lia. unfold ha. by apply negb_true_iff, Z.eqb_neq.
Qed.

(** The flags of the code as bits. *)
Lemma ha_P e : ha e PG_PRESENT = Z.testbit e 0.
Proof. exact (ha_bit e 0 ltac:(lia)). Qed.
Lemma ha_W e : ha e PG_WRITABLE = Z.testbit e 1.
Proof. exact (ha_bit e 1 ltac:(lia)). Qed.
Lemma ha_U e : ha e PG_USER = Z.testbit e 2.
Proof. exact (ha_bit e 2 ltac:(lia)). Qed.
Lemma ha_H e : ha e PG_HUGE = Z.testbit e 7.
Proof. exact (ha_bit e 7 ltac:(lia)). Qed.
Lemma ha_F e : ha e PG_FISSA = Z.testbit e 9.
Proof. exact (ha_bit e 9 ltac:(lia)). Qed.
Lemma ha_C e : ha e PG_COW = Z.testbit e 10.
Proof. exact (ha_bit e 10 ltac:(lia)). Qed.

Lemma PTE_E_COW_bit e : PTE_E_COW e = Z.testbit e 0 && Z.testbit e 10.
Proof.
  unfold PTE_E_COW. apply eq_true_iff_eq. rewrite Z.eqb_eq, tutti_bit, andb_true_iff.
  change PG_PRESENT with (2 ^ 0). change PG_COW with (2 ^ 10). by rewrite !un_bit by lia.
Qed.

Lemma PTE_E_CONDIVISA_bit e : PTE_E_CONDIVISA e = Z.testbit e 0 && Z.testbit e 11.
Proof.
  unfold PTE_E_CONDIVISA. apply eq_true_iff_eq. rewrite Z.eqb_eq, tutti_bit, andb_true_iff.
  change PG_PRESENT with (2 ^ 0). change PG_CONDIVISA with (2 ^ 11). by rewrite !un_bit by lia.
Qed.

Lemma SWAP_bit e : SWAP_PTE_E_SWAP e = negb (Z.testbit e 0) && Z.testbit e 9.
Proof.
  unfold SWAP_PTE_E_SWAP. apply eq_true_iff_eq. rewrite Z.eqb_eq, andb_true_iff, negb_true_iff.
  assert (A : Z.land e (Z.lor PG_PRESENT PG_SWAP) = Z.lor (if Z.testbit e 0 then 1 else 0) (if Z.testbit e 9 then 512 else 0)).
  { rewrite Z.land_lor_distr_r. f_equal.
    - change PG_PRESENT with (2 ^ 0). rewrite <- ha_bit by lia. unfold ha. destruct (Z.eqb_spec (Z.land e (2 ^ 0)) 0); [done|].
      cbn [negb]. apply (un_bit e 0); [lia|]. rewrite <- ha_bit by lia. unfold ha. by apply negb_true_iff, Z.eqb_neq.
    - change PG_SWAP with (2 ^ 9). rewrite <- ha_bit by lia. unfold ha. destruct (Z.eqb_spec (Z.land e (2 ^ 9)) 0); [done|].
      cbn [negb]. apply (un_bit e 9); [lia|]. rewrite <- ha_bit by lia. unfold ha. by apply negb_true_iff, Z.eqb_neq. }
  rewrite A. destruct (Z.testbit e 0), (Z.testbit e 9); vm_compute; intuition congruence.
Qed.

Lemma senza_bit_spec x b n : 0 <= n < 32 -> Z.testbit (senza_bit x b) n = Z.testbit x n && negb (Z.testbit b n).
Proof.
  intros Hn. unfold senza_bit, u32. change W32 with (2 ^ 32). rewrite Z.land_spec, Z.mod_pow2_bits_low, Z.lnot_spec by lia. done.
Qed.

(** ** Frames *)

Lemma parola_tab e : 0 <= e < W32 -> tab e = Z.shiftr e 12.
Proof.
  intros He. unfold tab, frame, PG_ADDR. change 0xFFFFF000 with (W32 - 2 ^ 12). rewrite land_highmask by lia.
  rewrite Z.shiftr_div_pow2 by lia. change (2 ^ 12) with 4096. unfold PAGE_SIZE. zdm.
Qed.

Lemma PG_ADDR_tab e : 0 <= e < W32 -> PG_ADDR e = tab e * PAGE_SIZE.
Proof.
  intros He. unfold tab, frame, PG_ADDR. change 0xFFFFF000 with (W32 - 2 ^ 12). rewrite land_highmask by lia.
  change (2 ^ 12) with 4096. unfold PAGE_SIZE. zdm.
Qed.

Lemma tab_range e : 0 <= e < W32 -> 0 <= tab e < 1048576.
Proof. intros He. rewrite parola_tab by done. rewrite Z.shiftr_div_pow2 by lia. change (2 ^ 12) with 4096. unfold W32 in He. zdm. Qed.

Lemma land_range a b : 0 <= a < W32 -> 0 <= Z.land a b < W32.
Proof.
  intros Ha. assert (N : 0 <= Z.land a b) by (apply Z.land_nonneg; lia). split; [done|]. change W32 with (2 ^ 32) in *.
  destruct (Z.eq_dec (Z.land a b) 0) as [->|]; [done|]. apply Z.log2_lt_pow2; [lia|].
  assert (Hn : Z.testbit (Z.land a b) (Z.log2 (Z.land a b)) = true) by (apply Z.bit_log2; lia).
  rewrite Z.land_spec in Hn. apply andb_true_iff in Hn as [Hn _].
  remember (Z.log2 (Z.land a b)) as k eqn:En. clear En. destruct (Z.lt_ge_cases k 32); [done|]. exfalso.
  replace a with (a mod 2 ^ 32) in Hn by (apply Z.mod_small; lia). rewrite Z.mod_pow2_bits_high in Hn by lia. done.
Qed.

Lemma lxor_addr e : 0 <= e < W32 -> Z.lxor e (PG_ADDR e) = e mod 4096.
Proof.
  intros He. unfold PG_ADDR. apply Z.bits_inj'. intros n Hn. rewrite Z.lxor_spec, Z.land_spec. change 4096 with (2 ^ 12).
  change 0xFFFFF000 with (Z.shiftl (Z.ones 20) 12). rewrite Z.shiftl_spec by lia. destruct (Z.lt_ge_cases n 12).
  - rewrite (Z.testbit_neg_r _ (n - 12)) by lia. rewrite andb_false_r, xorb_false_r, Z.mod_pow2_bits_low by lia. done.
  - rewrite Z.mod_pow2_bits_high by lia. destruct (Z.lt_ge_cases n 32).
    + rewrite Z.ones_spec_low, andb_true_r by lia. apply xorb_nilpotent.
    + replace e with (e mod 2 ^ 32) by (apply Z.mod_small; done). rewrite Z.mod_pow2_bits_high by lia. done.
Qed.

(** An entry made of an address and flags. *)
Lemma tab_lor f fl : 0 <= f < 1048576 -> 0 <= fl < 4096 -> 0 <= Z.lor (f * PAGE_SIZE) fl < W32 /\ tab (Z.lor (f * PAGE_SIZE) fl) = f.
Proof.
  intros Hf Hfl. assert (R : 0 <= Z.lor (f * PAGE_SIZE) fl < W32) by (apply lor_u32; unfold PAGE_SIZE, W32; lia).
  split; [done|]. rewrite parola_tab by done. rewrite Z.shiftr_lor, !Z.shiftr_div_pow2 by lia. change (2 ^ 12) with 4096. unfold PAGE_SIZE.
  rewrite Z.div_mul, (Z.div_small fl) by lia. apply Z.lor_0_r.
Qed.

Lemma bit_indirizzo f n : 0 <= n < 12 -> Z.testbit (f * PAGE_SIZE) n = false.
Proof. intros Hn. change PAGE_SIZE with (2 ^ 12). apply Z.mul_pow2_bits_low. lia. Qed.

Lemma bit_mod4096 e n : 0 <= n < 12 -> Z.testbit (e mod 4096) n = Z.testbit e n.
Proof. intros. change 4096 with (2 ^ 12). apply Z.mod_pow2_bits_low. lia. Qed.

(** ** Entries made from entries *)

Lemma bit_alto x n : 0 <= x < 4096 -> 12 <= n -> Z.testbit x n = false.
Proof. intros Hx Hn. replace x with (x mod 2 ^ 12) by (apply Z.mod_small; lia). apply Z.mod_pow2_bits_high. lia. Qed.

Lemma bit_sotto x : (forall n, 12 <= n -> Z.testbit x n = false) -> 0 <= x < 4096.
Proof.
  intros H. assert (E : x = x mod 2 ^ 12); [|rewrite E; apply Z.mod_pos_bound; lia]. apply Z.bits_inj'. intros n Hn.
  destruct (Z.lt_ge_cases n 12); [by rewrite Z.mod_pow2_bits_low by lia | by rewrite Z.mod_pow2_bits_high, H by lia].
Qed.

Lemma bit_fuori x n : 0 <= x < W32 -> 32 <= n -> Z.testbit x n = false.
Proof. intros Hx Hn. replace x with (x mod 2 ^ 32) by (apply Z.mod_small; done). apply Z.mod_pow2_bits_high. lia. Qed.

Lemma senza_bit_range x b : 0 <= x < W32 -> 0 <= senza_bit x b < W32.
Proof. apply land_range. Qed.

(** [(e & ~b) | c], with flags [b] and [c]. *)
Lemma flag_bits e b c : 0 <= e < W32 -> 0 <= b < 4096 -> 0 <= c < 4096 ->
  let v := Z.lor (senza_bit e b) c in
  0 <= v < W32 /\ tab v = tab e /\
  (forall n, 0 <= n < 12 -> Z.testbit v n = Z.testbit e n && negb (Z.testbit b n) || Z.testbit c n).
Proof.
  intros He Hb Hc v. assert (R : 0 <= v < W32) by (apply lor_u32; [by apply senza_bit_range | unfold W32; lia]).
  split; [done|]. split.
  - rewrite !parola_tab by done. apply Z.bits_inj'. intros n Hn. rewrite !Z.shiftr_spec by done. unfold v.
    rewrite Z.lor_spec, (bit_alto c), orb_false_r by lia. destruct (Z.lt_ge_cases (n + 12) 32).
    + by rewrite senza_bit_spec, (bit_alto b), andb_true_r by lia.
    + rewrite !bit_fuori; [done | done | lia | by apply senza_bit_range | lia].
  - intros n Hn. unfold v. by rewrite Z.lor_spec, senza_bit_spec by lia.
Qed.

(** [((e ^ PG_ADDR(e)) & ~b) | x * PAGE_SIZE | c]. *)
Lemma copia_bits e x b c : 0 <= e < W32 -> 0 <= x < 1048576 -> 0 <= c < 4096 ->
  let v := Z.lor (Z.lor (senza_bit (Z.lxor e (PG_ADDR e)) b) (x * PAGE_SIZE)) c in
  0 <= v < W32 /\ tab v = x /\
  (forall n, 0 <= n < 12 -> Z.testbit v n = Z.testbit e n && negb (Z.testbit b n) || Z.testbit c n).
Proof.
  intros He Hx Hc v. assert (Hm : 0 <= e mod 4096 < 4096) by (apply Z.mod_pos_bound; lia).
  set (s := senza_bit (e mod 4096) b). assert (Hs : 0 <= s < W32) by (apply senza_bit_range; unfold W32; lia).
  assert (Hv : v = Z.lor (Z.lor s (x * PAGE_SIZE)) c) by (unfold v, s; by rewrite lxor_addr).
  assert (R : 0 <= v < W32).
  { rewrite Hv. repeat apply lor_u32; [done | unfold PAGE_SIZE, W32; lia | unfold W32; lia]. }
  split; [done|]. split.
  - rewrite parola_tab by done. apply Z.bits_inj'. intros n Hn. rewrite Z.shiftr_spec, Hv, !Z.lor_spec, (bit_alto c) by lia.
    rewrite orb_false_r. change PAGE_SIZE with (2 ^ 12). rewrite Z.mul_pow2_bits by lia. replace (n + 12 - 12) with n by lia.
    assert (E : Z.testbit s (n + 12) = false); [|by rewrite E].
    unfold s, senza_bit. by rewrite Z.land_spec, (bit_alto (e mod 4096)) by lia.
  - intros n Hn. rewrite Hv, !Z.lor_spec, bit_indirizzo, orb_false_r by done. unfold s.
    rewrite senza_bit_spec, bit_mod4096 by lia. done.
Qed.

(** The flags of an entry but PG_WRITABLE and PG_COW, and whether it has either: what
    the program may do with the page, copied at the first write or not. *)
Definition permessi (e : Z) : Z * bool :=
  (senza_bit (e mod 4096) (Z.lor PG_WRITABLE PG_COW), ha e (Z.lor PG_WRITABLE PG_COW)).

Lemma permessi_eq e e' :
  (forall n, 0 <= n < 12 -> n <> 1 -> n <> 10 -> Z.testbit e' n = Z.testbit e n) ->
  Z.testbit e' 1 || Z.testbit e' 10 = Z.testbit e 1 || Z.testbit e 10 -> permessi e' = permessi e.
Proof.
  intros Hn H1. unfold permessi. rewrite !ha_or, !ha_W, !ha_C, H1. f_equal. apply Z.bits_inj'. intros n Hp.
  assert (R : forall x, 0 <= x mod 4096 < 4096) by (intros x; apply Z.mod_pos_bound; lia).
  destruct (Z.lt_ge_cases n 12) as [Hl|Hg].
  - rewrite !senza_bit_spec, !bit_mod4096 by lia. destruct (Z.eq_dec n 1) as [->|]; [by rewrite !andb_false_r|].
    destruct (Z.eq_dec n 10) as [->|]; [by rewrite !andb_false_r|]. by rewrite Hn.
  - unfold senza_bit. rewrite !Z.land_spec, !(bit_alto (_ mod 4096)); [done | apply R | lia | apply R | lia].
Qed.

(** Read only, to be copied. *)
Definition cow_di (e : Z) : Z := Z.lor (senza_bit e PG_WRITABLE) PG_COW.

Lemma cow_di_ok e : 0 <= e < W32 -> ha e (Z.lor PG_WRITABLE PG_COW) = true ->
  0 <= cow_di e < W32 /\ tab (cow_di e) = tab e /\ permessi (cow_di e) = permessi e /\
  (forall n, 0 <= n < 12 -> n <> 1 -> n <> 10 -> Z.testbit (cow_di e) n = Z.testbit e n) /\
  Z.testbit (cow_di e) 1 = false /\ Z.testbit (cow_di e) 10 = true.
Proof.
  intros He Hc. destruct (flag_bits e PG_WRITABLE PG_COW He) as (R & T & B); [unfold PG_WRITABLE; lia | unfold PG_COW; lia |].
  fold (cow_di e) in R, T, B. assert (B1 : Z.testbit (cow_di e) 1 = false) by (rewrite B, andb_false_r by lia; done).
  assert (B2 : Z.testbit (cow_di e) 10 = true) by (rewrite B by lia; apply orb_true_r).
  assert (Bn : forall n, 0 <= n < 12 -> n <> 1 -> n <> 10 -> Z.testbit (cow_di e) n = Z.testbit e n).
  { intros n Hn N1 N2. rewrite B by done. change PG_WRITABLE with (2 ^ 1). change PG_COW with (2 ^ 10).
    rewrite !Z.pow2_bits_false by lia. by rewrite andb_true_r, orb_false_r. }
  repeat (split; [done|]). split; [|done]. apply permessi_eq; [done|]. rewrite B1, B2. rewrite ha_or, ha_W, ha_C in Hc. by rewrite Hc.
Qed.

(** The entry of a copy in the frame [x], which stays writable if it was to be copied. *)
Definition voce_copia (e x : Z) : Z :=
  Z.lor (Z.lor (senza_bit (Z.lxor e (PG_ADDR e)) PG_COW) (x * PAGE_SIZE)) (if ha e PG_COW then PG_WRITABLE else 0).

Lemma voce_copia_ok e x : 0 <= e < W32 -> 0 <= x < 1048576 ->
  0 <= voce_copia e x < W32 /\ tab (voce_copia e x) = x /\ permessi (voce_copia e x) = permessi e /\
  (forall n, 0 <= n < 12 -> n <> 1 -> n <> 10 -> Z.testbit (voce_copia e x) n = Z.testbit e n) /\ Z.testbit (voce_copia e x) 10 = false.
Proof.
  intros He Hx. destruct (copia_bits e x PG_COW (if ha e PG_COW then PG_WRITABLE else 0) He Hx) as (R & T & B).
  { unfold PG_WRITABLE. destruct (ha e PG_COW); lia. }
  fold (voce_copia e x) in R, T, B.
  assert (Bn : forall n, 0 <= n < 12 -> n <> 1 -> n <> 10 -> Z.testbit (voce_copia e x) n = Z.testbit e n).
  { intros n Hn N1 N2. rewrite B by done. change PG_COW with (2 ^ 10) at 1. rewrite Z.pow2_bits_false, andb_true_r by lia.
    change PG_WRITABLE with (2 ^ 1). destruct (ha e PG_COW); [rewrite Z.pow2_bits_false by lia | rewrite Z.bits_0]; apply orb_false_r. }
  assert (B10 : Z.testbit (voce_copia e x) 10 = false) by (rewrite B, andb_false_r by lia; by destruct (ha e PG_COW)).
  repeat (split; [done|]). split; [|done]. apply permessi_eq; [done|]. rewrite B10, B, ha_C by lia.
  destruct (Z.testbit e 10), (Z.testbit e 1); done.
Qed.

Lemma voce_copia_w e x : Z.testbit e 10 = true -> Z.testbit (voce_copia e x) 1 = true.
Proof. intros H. unfold voce_copia. rewrite ha_C, H, !Z.lor_spec. apply orb_true_r. Qed.

(** The frame has no other owner: the page is the program's own. *)
Definition cow_propria (e : Z) : Z := Z.lor (senza_bit e PG_COW) PG_WRITABLE.

Lemma cow_propria_ok e : 0 <= e < W32 -> PTE_E_COW e = true ->
  0 <= cow_propria e < W32 /\ tab (cow_propria e) = tab e /\ permessi (cow_propria e) = permessi e /\
  (forall n, 0 <= n < 12 -> n <> 1 -> n <> 10 -> Z.testbit (cow_propria e) n = Z.testbit e n) /\
  Z.testbit (cow_propria e) 1 = true /\ Z.testbit (cow_propria e) 10 = false.
Proof.
  intros He Hc. destruct (flag_bits e PG_COW PG_WRITABLE He) as (R & T & B); [unfold PG_COW; lia | unfold PG_WRITABLE; lia |].
  fold (cow_propria e) in R, T, B. assert (B1 : Z.testbit (cow_propria e) 1 = true) by (rewrite B by lia; apply orb_true_r).
  assert (B10 : Z.testbit (cow_propria e) 10 = false) by (rewrite B, andb_false_r by lia; done).
  assert (Bn : forall n, 0 <= n < 12 -> n <> 1 -> n <> 10 -> Z.testbit (cow_propria e) n = Z.testbit e n).
  { intros n Hn N1 N2. rewrite B by done. change PG_WRITABLE with (2 ^ 1). change PG_COW with (2 ^ 10).
    rewrite !Z.pow2_bits_false by lia. by rewrite andb_true_r, orb_false_r. }
  repeat (split; [done|]). split; [|done]. apply permessi_eq; [done|]. rewrite B1, B10.
  rewrite PTE_E_COW_bit in Hc. apply andb_true_iff in Hc as [_ ->]. by rewrite orb_true_r.
Qed.

(** ** Sums *)

Section Somma.

Context {A : Type} `{EqDecision A}.

Implicit Types (g h : A -> Z) (l : list A).

Definition somma (g : A -> Z) (l : list A) : Z := foldr (fun x a => g x + a) 0 l.

Lemma somma_cons g x l : somma g (x :: l) = g x + somma g l.
Proof. done. Qed.

#[local] Arguments somma : simpl never.

Lemma somma_app g l k : somma g (l ++ k) = somma g l + somma g k.
Proof. induction l as [|x l IH]; [done|]. cbn [app]. rewrite !somma_cons, IH. lia. Qed.

Lemma somma_ext g h l : (forall x, x ∈ l -> g x = h x) -> somma g l = somma h l.
Proof.
  induction l as [|x l IH]; intros E; [done|]. rewrite !somma_cons, (E x), IH; [done | | left].
  intros y Hy. apply E. by right.
Qed.

Lemma somma_nonneg g l : (forall x, x ∈ l -> 0 <= g x) -> 0 <= somma g l.
Proof.
  induction l as [|x l IH]; intros N; [done|]. rewrite somma_cons. pose proof (N x ltac:(left)).
  assert (0 <= somma g l); [|lia]. apply IH. intros y Hy. apply N. by right.
Qed.

Lemma somma_zero g l : (forall x, x ∈ l -> g x = 0) -> somma g l = 0.
Proof. intros E. rewrite (somma_ext g (fun _ => 0)) by done. clear E. induction l as [|x l IH]; [done|]. by rewrite somma_cons, IH. Qed.

Lemma somma_change g h l x :
  NoDup l -> x ∈ l -> (forall y, y ∈ l -> y <> x -> g y = h y) -> somma g l = somma h l + (g x - h x).
Proof.
  induction l as [|a l IH]; intros Hn Hx E; [by apply not_elem_of_nil in Hx|]. apply NoDup_cons in Hn as [Ha Hn].
  rewrite !somma_cons. destruct (decide (a = x)) as [->|Ne].
  - rewrite (somma_ext g h l); [lia|]. intros y Hy. apply E; [by right | intros ->; done].
  - apply elem_of_cons in Hx as [->|Hx]; [done|]. rewrite IH, (E a); [lia | left | done | done | done |].
    intros y Hy. apply E. by right.
Qed.

Lemma somma_ge g l x : (forall y, y ∈ l -> 0 <= g y) -> x ∈ l -> g x <= somma g l.
Proof.
  intros N Hx. apply list_elem_of_split in Hx as (l1 & l2 & ->). rewrite somma_app, somma_cons.
  assert (0 <= somma g l1 /\ 0 <= somma g l2); [|lia]. split; apply somma_nonneg; intros y Hy; apply N; set_solver.
Qed.

Lemma somma_two g l x y :
  NoDup l -> (forall z, z ∈ l -> 0 <= g z) -> x ∈ l -> y ∈ l -> x <> y -> g x + g y <= somma g l.
Proof.
  intros Hn N Hx Hy Ne. rewrite (somma_change g (fun z => if decide (z = x) then 0 else g z) l x Hn Hx).
  2:{ intros z _ Nz. by rewrite decide_False. }
  rewrite decide_True by done. pose proof (somma_ge (fun z => if decide (z = x) then 0 else g z) l y) as G. cbv beta in G.
  rewrite (decide_False (P := y = x)) in G by done. assert (g y <= somma (fun z => if decide (z = x) then 0 else g z) l); [|lia].
  apply G; [|done]. intros z Hz. destruct (decide (z = x)); [lia | auto].
Qed.

Lemma somma_pos g l : (forall y, y ∈ l -> 0 <= g y) -> 0 < somma g l -> exists x, x ∈ l /\ 0 < g x.
Proof.
  induction l as [|a l IH]; intros N Hp; [done|]. rewrite somma_cons in Hp.
  destruct (Z.lt_ge_cases 0 (g a)) as [Ha|Ha]; [exists a; split; [left | done]|].
  pose proof (N a ltac:(left)). destruct IH as (x & Hx & ?); [intros y Hy; apply N; by right | lia |]. exists x. split; [by right | done].
Qed.

End Somma.

#[global] Arguments somma : simpl never.
