(* ===== verification/PagingSpec.v ===== *)
(** * Spaces: who uses a frame, and the invariant

    A frame is used as a directory, as a table of the user half of a directory, or
    as data of a table.  [usi] counts the uses of a frame by the directories [D]; the
    owners that the page allocator knows are these and those of others, [ext] (the
    zones of shared memory, the buffers of devices).  The invariant [spazi] says that
    the counts agree, that a directory and a table have no other use, and that a frame
    writable by a program and not meant to be shared has one use. *)

From S2P Require Import Prelude Pmm Pagine Paging PagingBit.

(** The places that name a frame. *)
Inductive Uso : Type := UDir (d : Z) | UTab (d i : Z) | UDat (d i j : Z).

#[export] Instance uso_eq : EqDecision Uso.
Proof. solve_decision. Defined.

Section Spec.

Context {P : Type} {PG : Pagine P} {ST : Statiche}.

Implicit Types (m : Mondo P) (D : list Z) (s : Uso).

(** An entry of a directory that describes memory of the program. *)
Definition utente (i : Z) : bool := (16 <=? i) && (i <? 1024) && negb ((g_fb_pde_da <=? i) && (i <? g_fb_pde_a)).

Definition IU : list Z := List.filter utente (seqZ 16 1008).
Definition JU : list Z := seqZ 0 1024.

Definition elenco_usi (D : list Z) : list Uso :=
  (UDir <$> D) ++ (D ≫= fun d => UTab d <$> IU) ++ (D ≫= fun d => IU ≫= fun i => UDat d i <$> JU).

Definition in_usi (D : list Z) (s : Uso) : Prop :=
  match s with
  | UDir d => d ∈ D
  | UTab d i => d ∈ D /\ utente i = true
  | UDat d i j => d ∈ D /\ utente i = true /\ 0 <= j < 1024
  end.

Lemma utente_range i : utente i = true -> 16 <= i < 1024.
Proof. unfold utente. rewrite !andb_true_iff, Z.leb_le, Z.ltb_lt. lia. Qed.

Lemma elem_IU i : i ∈ IU <-> utente i = true.
Proof.
  unfold IU. rewrite list_elem_of_In, List.filter_In, <- list_elem_of_In, elem_of_seqZ. split; [tauto|].
  intros Hu. pose proof (utente_range i Hu). split; [lia | done].
Qed.

Lemma elem_JU j : j ∈ JU <-> 0 <= j < 1024.
Proof. unfold JU. rewrite elem_of_seqZ. lia. Qed.

Lemma nodup_IU : NoDup IU.
Proof. apply NoDup_ListNoDup, List.NoDup_filter, NoDup_ListNoDup, NoDup_seqZ. Qed.

Lemma nodup_JU : NoDup JU.
Proof. apply NoDup_seqZ. Qed.

Lemma elem_usi D s : s ∈ elenco_usi D <-> in_usi D s.
Proof.
  unfold elenco_usi. rewrite !elem_of_app, list_elem_of_fmap, !list_elem_of_bind. destruct s as [d|d i|d i j]; cbn [in_usi]; split.
  - intros [(x & [= ->] & Hx)|[(x & Hx & _)|(x & Hx & _)]]; [done | |].
    + apply list_elem_of_fmap in Hx as (? & ? & _). done.
    + apply list_elem_of_bind in Hx as (? & Hx & _). apply list_elem_of_fmap in Hx as (? & ? & _). done.
  - intros Hd. left. eauto.
  - intros [(x & ? & _)|[(x & Hx & Hd)|(x & Hx & _)]]; [done | |].
    + apply list_elem_of_fmap in Hx as (y & [= <- <-] & Hy). by rewrite elem_IU in Hy.
    + apply list_elem_of_bind in Hx as (? & Hx & _). apply list_elem_of_fmap in Hx as (? & ? & _). done.
  - intros [Hd Hi]. right. left. exists d. split; [|done]. apply list_elem_of_fmap. exists i. by rewrite elem_IU.
  - intros [(x & ? & _)|[(x & Hx & _)|(x & Hx & Hd)]]; [done | |].
    + apply list_elem_of_fmap in Hx as (? & ? & _). done.
    + apply list_elem_of_bind in Hx as (y & Hx & Hy). apply list_elem_of_fmap in Hx as (z & [= <- <- <-] & Hz).
      by rewrite elem_IU in Hy; rewrite elem_JU in Hz.
  - intros (Hd & Hi & Hj). right. right. exists d. split; [|done]. apply list_elem_of_bind. exists i. rewrite elem_IU. split; [|done].
    apply list_elem_of_fmap. exists j. by rewrite elem_JU.
Qed.

Lemma nodup_usi D : NoDup D -> NoDup (elenco_usi D).
Proof.
  intros HD. unfold elenco_usi. apply NoDup_app. split; [apply NoDup_fmap_2; [congruence | done]|]. split.
  { intros s Hs Hr. apply list_elem_of_fmap in Hs as (d & -> & _). apply elem_of_app in Hr as [Hr|Hr].
    - apply list_elem_of_bind in Hr as (? & Hr & _). apply list_elem_of_fmap in Hr as (? & ? & _). done.
    - apply list_elem_of_bind in Hr as (? & Hr & _). apply list_elem_of_bind in Hr as (? & Hr & _).
      apply list_elem_of_fmap in Hr as (? & ? & _). done. }
  apply NoDup_app. split; [|split].
  - apply NoDup_bind; [| |done].
    + intros x y s _ _ Hx Hy. apply list_elem_of_fmap in Hx as (? & -> & _). apply list_elem_of_fmap in Hy as (? & [= -> _] & _). done.
    + intros x _. apply NoDup_fmap_2; [congruence | apply nodup_IU].
  - intros s Hs Hr. apply list_elem_of_bind in Hs as (? & Hs & _). apply list_elem_of_fmap in Hs as (? & -> & _).
    apply list_elem_of_bind in Hr as (? & Hr & _). apply list_elem_of_bind in Hr as (? & Hr & _).
    apply list_elem_of_fmap in Hr as (? & ? & _). done.
  - apply NoDup_bind; [| |done].
    + intros x y s _ _ Hx Hy. apply list_elem_of_bind in Hx as (? & Hx & _). apply list_elem_of_fmap in Hx as (? & -> & _).
      apply list_elem_of_bind in Hy as (? & Hy & _). apply list_elem_of_fmap in Hy as (? & [= -> _ _] & _). done.
    + intros x _. apply NoDup_bind; [| |apply nodup_IU].
      * intros a b s _ _ Ha Hb. apply list_elem_of_fmap in Ha as (? & -> & _). apply list_elem_of_fmap in Hb as (? & [= -> _] & _). done.
      * intros a _. apply NoDup_fmap_2; [congruence | apply nodup_JU].
Qed.

(** ** Uses *)

(** An entry that counts as an owner of its frame: present, of RAM, not a buffer of
    a device. *)
Definition contata m (e : Z) : bool := ha e PG_PRESENT && negb (PMM_OLTRE_RAM (PG_ADDR e) m) && negb (ha e PG_FISSA).

(** A buffer of a device. *)
Definition fissa m (e : Z) : bool := ha e PG_PRESENT && negb (PMM_OLTRE_RAM (PG_ADDR e) m) && ha e PG_FISSA.

(** A page that the program may write and that nobody else must see written. *)
Definition privata (e : Z) : bool := ha e PG_WRITABLE && negb (PTE_E_CONDIVISA e).

Definition presente m (d i : Z) : bool := ha (fis m d i) PG_PRESENT.

(** The entry at [i], [j]: 0 where there is no table. *)
Definition voce m (d i j : Z) : Z := if presente m d i then fis m (tab (fis m d i)) j else 0.

Definition uno (b : bool) : Z := if b then 1 else 0.

Definition uso m (f : Z) (s : Uso) : Z :=
  match s with
  | UDir d => uno (d =? f)
  | UTab d i => uno (presente m d i && (tab (fis m d i) =? f))
  | UDat d i j => uno (contata m (voce m d i j) && (tab (voce m d i j) =? f))
  end.

Definition usi m D (f : Z) : Z := somma (uso m f) (elenco_usi D).

(** The frames of directories and tables. *)
Definition strutt m D (f : Z) : Prop :=
  f ∈ D \/ exists d i, d ∈ D /\ utente i = true /\ presente m d i = true /\ tab (fis m d i) = f.

(** A page to be copied counts, is read only, and is not meant to be shared. *)
Definition cow_ok m (e : Z) : Prop :=
  PTE_E_COW e = true -> contata m e = true /\ ha e PG_WRITABLE = false /\ PTE_E_CONDIVISA e = false.

Record spazi m D (ext : Z -> Z) (dma : Z -> Prop) : Prop := mkSpazi {
  sp_parole : forall f j, 0 <= fis m f j < W32;
  sp_nodup : NoDup D;
  sp_ext : forall f, 0 <= ext f;
  sp_conti : pg_stato (pag m) (fun f => ext f + usi m D f);
  sp_huge : forall d i, d ∈ D -> utente i = true -> presente m d i = true -> ha (fis m d i) PG_HUGE = false;
  sp_strutt : forall f, strutt m D f -> usi m D f = 1;
  sp_swap : forall d i j, in_usi D (UDat d i j) -> SWAP_PTE_E_SWAP (voce m d i j) = false;
  sp_fissa : forall d i j, in_usi D (UDat d i j) -> fissa m (voce m d i j) = true -> dma (tab (voce m d i j));
  sp_dma : forall f, dma f -> 0 < ext f /\ usi m D f = 0;
  sp_priv : forall d i j, in_usi D (UDat d i j) -> contata m (voce m d i j) = true -> privata (voce m d i j) = true ->
    usi m D (tab (voce m d i j)) = 1;
  sp_cow : forall d i j, in_usi D (UDat d i j) -> cow_ok m (voce m d i j)
}.

(** ** Counting *)

Lemma uso_range m f s : 0 <= uso m f s <= 1.
Proof. destruct s; cbn [uso]; unfold uno; repeat case_match; lia. Qed.

Lemma usi_nonneg m D f : 0 <= usi m D f.
Proof. apply somma_nonneg. intros s _. apply uso_range. Qed.

Lemma usi_ge m D f s : in_usi D s -> uso m f s = 1 -> 1 <= usi m D f.
Proof. intros Hs Hu. rewrite <- Hu. apply somma_ge; [intros; apply uso_range | by apply elem_usi]. Qed.

(** Two places that name a frame with one use are the same. *)
Lemma usi_uno m D f s s' :
  NoDup D -> usi m D f <= 1 -> in_usi D s -> in_usi D s' -> uso m f s = 1 -> uso m f s' = 1 -> s = s'.
Proof.
  intros HD Hu Hs Hs' H1 H2. destruct (decide (s = s')) as [|Ne]; [done|]. exfalso.
  pose proof (somma_two (uso m f) (elenco_usi D) s s' (nodup_usi D HD) ltac:(intros; apply uso_range)
    ltac:(by apply elem_usi) ltac:(by apply elem_usi) Ne) as G. unfold usi in Hu. lia.
Qed.

Lemma usi_pos m D f : 0 < usi m D f -> exists s, in_usi D s /\ uso m f s = 1.
Proof.
  intros Hp. destruct (somma_pos (uso m f) (elenco_usi D)) as (s & Hs & Hu); [intros; apply uso_range | done |].
  exists s. rewrite elem_usi in Hs. split; [done|]. pose proof (uso_range m f s). lia.
Qed.

(** What one changed place does to the count. *)
Lemma usi_change m m' D f s :
  NoDup D -> in_usi D s -> (forall s', in_usi D s' -> s' <> s -> uso m' f s' = uso m f s') ->
  usi m' D f = usi m D f + (uso m' f s - uso m f s).
Proof.
  intros HD Hs H. apply somma_change; [by apply nodup_usi | by apply elem_usi |].
  intros s' Hs'. apply H. by apply elem_usi.
Qed.

Lemma usi_ext m m' D f : (forall s, in_usi D s -> uso m' f s = uso m f s) -> usi m' D f = usi m D f.
Proof. intros H. apply somma_ext. intros s Hs. apply H. by apply elem_usi. Qed.

Lemma uso_dat m d i j f : uso m f (UDat d i j) = 1 <-> contata m (voce m d i j) = true /\ tab (voce m d i j) = f.
Proof.
  cbn [uso]. unfold uno. destruct (contata m (voce m d i j)), (Z.eqb_spec (tab (voce m d i j)) f); cbn; intuition (lia || congruence).
Qed.

Lemma uso_tab m d i f : uso m f (UTab d i) = 1 <-> presente m d i = true /\ tab (fis m d i) = f.
Proof. cbn [uso]. unfold uno. destruct (presente m d i), (Z.eqb_spec (tab (fis m d i)) f); cbn; intuition (lia || congruence). Qed.

Lemma uso_dir m d f : uso m f (UDir d) = 1 <-> d = f.
Proof. cbn [uso]. unfold uno. destruct (Z.eqb_spec d f); intuition (lia || congruence). Qed.

Lemma strutt_usi m D f : strutt m D f -> exists s, in_usi D s /\ uso m f s = 1 /\ (forall d i j, s <> UDat d i j).
Proof.
  intros [Hd|(d & i & Hd & Hi & Hp & Ht)].
  - exists (UDir f). split; [done|]. split; [by apply uso_dir | done].
  - exists (UTab d i). split; [done|]. split; [by apply uso_tab | done].
Qed.

(** ** Consequences of the invariant *)

Section Inv.

Context {PO : PagineOk P}.
Context m D ext dma (SP : spazi m D ext dma).

Lemma sp_o f : 0 <= ext f /\ 0 <= usi m D f /\ (0 < ext f + usi m D f -> 0 < f < pg_totale (pag m)).
Proof.
  split; [apply (sp_ext _ _ _ _ SP)|]. split; [apply usi_nonneg|]. apply (pg_range _ _ _ (sp_conti _ _ _ _ SP)).
Qed.

Lemma sp_strutt_pos f : strutt m D f -> 0 < f < pg_totale (pag m).
Proof. intros Hs. apply sp_o. rewrite (sp_strutt _ _ _ _ SP f Hs). pose proof (sp_ext _ _ _ _ SP f). lia. Qed.

(** A table has one place, and is neither a directory nor data. *)
Lemma tab_unica d i d' i' :
  d ∈ D -> utente i = true -> presente m d i = true -> d' ∈ D -> utente i' = true -> presente m d' i' = true ->
  tab (fis m d i) = tab (fis m d' i') -> d = d' /\ i = i'.
Proof.
  intros H1 H2 H3 H4 H5 H6 E.
  assert (U : usi m D (tab (fis m d i)) <= 1) by (rewrite (sp_strutt _ _ _ _ SP); [lia | right; eauto 6]).
  assert (X : UTab d i = UTab d' i'); [|by injection X].
  apply (usi_uno m D (tab (fis m d i)) _ _ (sp_nodup _ _ _ _ SP) U); [done | done | by apply uso_tab | by apply uso_tab].
Qed.

Lemma tab_non_dir d i d' : d ∈ D -> utente i = true -> presente m d i = true -> d' ∈ D -> tab (fis m d i) <> d'.
Proof.
  intros H1 H2 H3 H4 E.
  assert (U : usi m D d' <= 1) by (rewrite (sp_strutt _ _ _ _ SP); [lia | by left]).
  assert (X : UTab d i = UDir d'); [|done].
  apply (usi_uno m D d' _ _ (sp_nodup _ _ _ _ SP) U); [done | done | by apply uso_tab | by apply uso_dir].
Qed.

Lemma strutt_non_dat f d i j :
  strutt m D f -> in_usi D (UDat d i j) -> contata m (voce m d i j) = true -> tab (voce m d i j) <> f.
Proof.
  intros Hs Hu Hc E. destruct (strutt_usi _ _ _ Hs) as (s & Hi & H1 & Nd). apply (Nd d i j).
  assert (U : usi m D f <= 1) by (rewrite (sp_strutt _ _ _ _ SP); [lia | done]).
  by apply (usi_uno m D f _ _ (sp_nodup _ _ _ _ SP) U); [| |done|apply uso_dat].
Qed.

(** A frame that nobody owns has no place. *)
Lemma libera_fuori f : ext f + usi m D f = 0 -> ~ strutt m D f /\ ~ dma f /\
  (forall d i j, in_usi D (UDat d i j) -> contata m (voce m d i j) = true -> tab (voce m d i j) <> f).
Proof.
  intros E. pose proof (sp_o f) as (? & ? & _). split; [|split].
  - intros Hs. rewrite (sp_strutt _ _ _ _ SP f Hs) in E. lia.
  - intros Hd. destruct (sp_dma _ _ _ _ SP f Hd). lia.
  - intros d i j Hu Hc Et. pose proof (usi_ge m D f (UDat d i j) Hu ltac:(by apply uso_dat)). lia.
Qed.

(** The frame of a present entry is not a directory nor a table. *)
Lemma voce_non_strutt d i j : in_usi D (UDat d i j) -> ha (voce m d i j) PG_PRESENT = true -> ~ strutt m D (tab (voce m d i j)).
Proof.
  intros Hu Hp Hs. pose proof (sp_strutt_pos _ Hs) as Hr. destruct (contata m (voce m d i j)) eqn:Ec.
  { by apply (strutt_non_dat _ d i j Hs Hu Ec). }
  destruct (fissa m (voce m d i j)) eqn:Ef.
  { pose proof (sp_dma _ _ _ _ SP _ (sp_fissa _ _ _ _ SP d i j Hu Ef)) as [_ U0].
    rewrite (sp_strutt _ _ _ _ SP _ Hs) in U0. lia. }
  unfold contata in Ec. unfold fissa in Ef. rewrite Hp in Ec, Ef. destruct (PMM_OLTRE_RAM (PG_ADDR (voce m d i j)) m) eqn:Eo.
  2:{ cbn in Ec, Ef. destruct (ha (voce m d i j) PG_FISSA); done. }
  unfold PMM_OLTRE_RAM in Eo. apply Z.leb_le in Eo. pose proof (pg_max _ _ (sp_conti _ _ _ _ SP)) as Hm. unfold PMM_PAGINE_4GB in Hm.
  assert (Hw : 0 <= voce m d i j < W32) by (unfold voce; case_match; [apply (sp_parole _ _ _ _ SP) | done]).
  rewrite PG_ADDR_tab, u32_small in Eo by (done || (unfold PAGE_SIZE, W32; lia)). unfold PAGE_SIZE in Eo. lia.
Qed.

Lemma voce_parola d i j : 0 <= voce m d i j < W32.
Proof. unfold voce. case_match; [apply (sp_parole _ _ _ _ SP) | done]. Qed.

(** The frame of an entry that counts is owned. *)
Lemma contata_usi d i j : in_usi D (UDat d i j) -> contata m (voce m d i j) = true -> 1 <= usi m D (tab (voce m d i j)).
Proof. intros Hu Hc. apply (usi_ge m D _ (UDat d i j) Hu). by apply uso_dat. Qed.

End Inv.

(** ** What a change of memory does to the invariant *)

Definition stesso_totale m m' : Prop := pg_totale (pag m') = pg_totale (pag m).

Lemma contata_totale m m' e : stesso_totale m m' -> contata m' e = contata m e.
Proof. unfold stesso_totale, contata, PMM_OLTRE_RAM. by intros ->. Qed.

Lemma fissa_totale m m' e : stesso_totale m m' -> fissa m' e = fissa m e.
Proof. unfold stesso_totale, fissa, PMM_OLTRE_RAM. by intros ->. Qed.

Lemma cow_totale m m' e : stesso_totale m m' -> cow_ok m e -> cow_ok m' e.
Proof. unfold cow_ok. intros Ht. by rewrite (contata_totale m m' e Ht). Qed.

(** What counts is the frame, PG_PRESENT and PG_FISSA. *)
Lemma contata_voce m e e' :
  0 <= e < W32 -> 0 <= e' < W32 -> tab e' = tab e -> (forall n, 0 <= n < 12 -> n <> 1 -> n <> 10 -> Z.testbit e' n = Z.testbit e n) ->
  contata m e' = contata m e /\ ha e' PG_PRESENT = ha e PG_PRESENT /\ PTE_E_CONDIVISA e' = PTE_E_CONDIVISA e.
Proof.
  intros He He' T B. assert (Hp : ha e' PG_PRESENT = ha e PG_PRESENT) by (by rewrite !ha_P, B by lia).
  split; [|split; [done|]].
  - unfold contata, PMM_OLTRE_RAM. rewrite !PG_ADDR_tab by done. by rewrite T, Hp, !ha_F, B by lia.
  - by rewrite !PTE_E_CONDIVISA_bit, !B by lia.
Qed.

Lemma voce_copia_contata m e x :
  contata m e = true -> 0 <= e < W32 -> 0 < x < pg_totale (pag m) -> pg_totale (pag m) < 1048576 -> contata m (voce_copia e x) = true.
Proof.
  intros Hc He Hx Hm. destruct (voce_copia_ok e x He ltac:(lia)) as (R & T & _ & Bn & _). unfold contata in Hc |- *.
  rewrite !andb_true_iff, !negb_true_iff in Hc |- *. destruct Hc as [[Hp _] Hf]. rewrite ha_P, Bn, <- ha_P by lia.
  rewrite ha_F, Bn, <- ha_F by lia. split; [split; [done|] | done]. unfold PMM_OLTRE_RAM.
  rewrite PG_ADDR_tab, T, u32_small by (done || (unfold PAGE_SIZE, W32; lia)). apply Z.leb_gt. unfold PAGE_SIZE. lia.
Qed.

Lemma presente_eq m m' d i : fis m' d i = fis m d i -> presente m' d i = presente m d i.
Proof. unfold presente. by intros ->. Qed.

(** Equal places have equal uses. *)
Lemma uso_eq_voci m m' D s f :
  stesso_totale m m' -> in_usi D s ->
  (forall d i, d ∈ D -> utente i = true -> presente m' d i = presente m d i /\ tab (fis m' d i) = tab (fis m d i)) ->
  (forall d i j, in_usi D (UDat d i j) -> voce m' d i j = voce m d i j) ->
  uso m' f s = uso m f s.
Proof.
  intros Ht Hs Hd Hv. destruct s as [d|d i|d i j]; cbn [uso].
  - done.
  - destruct Hs as [H1 H2]. destruct (Hd d i H1 H2) as [-> ->]. done.
  - rewrite (Hv d i j Hs), (contata_totale _ _ _ Ht). done.
Qed.

(** The same directories and tables, seen through their entries. *)
Record stesse_voci m m' D : Prop := {
  sv_totale : stesso_totale m m';
  sv_dir : forall d i, d ∈ D -> utente i = true -> presente m' d i = presente m d i /\ tab (fis m' d i) = tab (fis m d i) /\
    ha (fis m' d i) PG_HUGE = ha (fis m d i) PG_HUGE;
  sv_voce : forall d i j, in_usi D (UDat d i j) -> voce m' d i j = voce m d i j
}.

Lemma sv_usi m m' D f : stesse_voci m m' D -> usi m' D f = usi m D f.
Proof.
  intros [Ht Hd Hv]. apply usi_ext. intros s Hs. apply (uso_eq_voci m m' D); try done. intros d i H1 H2. split; by apply Hd.
Qed.

Lemma sv_strutt m m' D f : stesse_voci m m' D -> strutt m' D f <-> strutt m D f.
Proof.
  intros [_ Hd _]. unfold strutt. split; (intros [?|(d & i & H1 & H2 & H3 & H4)]; [by left|]; right; exists d, i;
    destruct (Hd d i H1 H2) as (E1 & E2 & _)); [by rewrite <- E1, <- E2 | by rewrite E1, E2].
Qed.

Lemma spazi_stesse m m' D ext ext' dma :
  spazi m D ext dma -> stesse_voci m m' D -> (forall f j, 0 <= fis m' f j < W32) -> (forall f, 0 <= ext' f) ->
  pg_stato (pag m') (fun f => ext' f + usi m' D f) -> (forall f, dma f -> 0 < ext' f) -> spazi m' D ext' dma.
Proof.
  intros SP V Hw He Hs Hx. destruct SP as [_ Hn _ _ Hh Hst Hsw Hf Hdm Hp Hcw]. split; try done.
  - intros d i H1 H2. destruct (sv_dir _ _ _ V d i H1 H2) as (-> & _ & ->). by apply Hh.
  - intros f Hf'. rewrite (sv_usi _ _ _ _ V). apply Hst. by apply (sv_strutt _ _ _ _ V).
  - intros d i j Hu. rewrite (sv_voce _ _ _ V) by done. by apply Hsw.
  - intros d i j Hu. rewrite (sv_voce _ _ _ V), (fissa_totale _ _ _ (sv_totale _ _ _ V)) by done. by apply Hf.
  - intros f Hd. rewrite (sv_usi _ _ _ _ V). split; [auto | by apply Hdm].
  - intros d i j Hu. rewrite (sv_voce _ _ _ V), (contata_totale _ _ _ (sv_totale _ _ _ V)), (sv_usi _ _ _ _ V) by done. by apply Hp.
  - intros d i j Hu. rewrite (sv_voce _ _ _ V) by done. apply (cow_totale m m'); [apply V | by apply Hcw].
Qed.

(** Memory that changes only outside directories and tables. *)
Lemma fuori_stesse m m' D :
  stesso_totale m m' -> (forall f k, strutt m D f -> fis m' f k = fis m f k) -> stesse_voci m m' D.
Proof.
  intros Ht Hf. assert (Hd : forall d i, d ∈ D -> fis m' d i = fis m d i) by (intros d i H; apply Hf; by left).
  split; [done | |].
  - intros d i H1 _. unfold presente. by rewrite (Hd d i H1).
  - intros d i j (H1 & H2 & H3). unfold voce, presente. rewrite (Hd d i H1). destruct (ha (fis m d i) PG_PRESENT) eqn:E; [|done].
    apply Hf. right. exists d, i. done.
Qed.

(** ** One entry written *)

(** [m'] is [m] with [v] at the word [k] of the frame [t]. *)
Definition scritto m (t k v : Z) m' : Prop :=
  stesso_totale m m' /\ forall f j, fis m' f j = if (f =? t) && (j =? k) then v else fis m f j.

(** The frame of an entry that counts may have the use of the place [s] added. *)
Definition voce_nuova_ok m m' D (dma : Z -> Prop) (s : Uso) (v : Z) : Prop :=
  if contata m v
  then ~ dma (tab v) /\
    (usi m' D (tab v) = 1 \/
     privata v = false /\ ~ strutt m D (tab v) /\
     forall d i j, in_usi D (UDat d i j) -> UDat d i j <> s -> contata m (voce m d i j) = true -> tab (voce m d i j) = tab v ->
       privata (voce m d i j) = false)
  else fissa m v = true -> dma (tab v).

Section Scrivi.

Context {PO : PagineOk P}.
Context m D ext dma (SP : spazi m D ext dma).
Context m' d i j v (Hu : in_usi D (UDat d i j)) (Hp : presente m d i = true) (Hm : scritto m (tab (fis m d i)) j v m').

Lemma scritto_dir d' i' : d' ∈ D -> fis m' d' i' = fis m d' i'.
Proof.
  intros Hd. rewrite (proj2 Hm). destruct Hu as (H1 & H2 & H3).
  rewrite (proj2 (Z.eqb_neq _ _)); [done|]. intros ->. by apply (tab_non_dir m D ext dma SP d i (tab (fis m d i)) H1 H2 Hp).
Qed.

Lemma scritto_qui : voce m' d i j = v.
Proof.
  destruct Hu as (H1 & _). unfold voce. rewrite (presente_eq m m' d i), Hp by (by apply scritto_dir).
  rewrite (scritto_dir d i) by done. by rewrite (proj2 Hm), !Z.eqb_refl.
Qed.

Lemma scritto_altrove d' i' j' : in_usi D (UDat d' i' j') -> UDat d' i' j' <> UDat d i j -> voce m' d' i' j' = voce m d' i' j'.
Proof.
  intros (H1 & H2 & H3) Ne. destruct Hu as (K1 & K2 & K3). unfold voce.
  rewrite (presente_eq m m' d' i'), (scritto_dir d' i') by (try apply scritto_dir; done). destruct (presente m d' i') eqn:Ep; [|done].
  rewrite (proj2 Hm). destruct (Z.eqb_spec (tab (fis m d' i')) (tab (fis m d i))) as [E|]; [|done].
  destruct (tab_unica m D ext dma SP d' i' d i H1 H2 Ep K1 K2 Hp E) as [-> ->].
  destruct (Z.eqb_spec j' j) as [->|]; [done | done].
Qed.

Lemma scritto_usi f : usi m' D f = usi m D f + (uno (contata m v && (tab v =? f)) - uso m f (UDat d i j)).
Proof.
  rewrite (usi_change m m' D f (UDat d i j) (sp_nodup _ _ _ _ SP) Hu).
  - cbn [uso]. rewrite scritto_qui, (contata_totale m m' v (proj1 Hm)). done.
  - intros s Hs Ne. destruct s as [d'|d' i'|d' i' j']; cbn [uso].
    + done.
    + destruct Hs as [H1 H2]. unfold presente. by rewrite scritto_dir.
    + rewrite scritto_altrove by done. by rewrite (contata_totale m m' _ (proj1 Hm)).
Qed.

Lemma scritto_strutt f : strutt m' D f <-> strutt m D f.
Proof.
  unfold strutt. split; (intros [?|(d' & i' & H1 & H2 & H3 & H4)]; [by left|]; right; exists d', i');
    unfold presente in *; rewrite scritto_dir in * by done; done.
Qed.

Lemma scritto_spazi ext' :
  0 <= v < W32 -> SWAP_PTE_E_SWAP v = false -> cow_ok m v -> (forall f, 0 <= ext' f) -> (forall f, dma f -> 0 < ext' f) ->
  pg_stato (pag m') (fun f => ext' f + usi m' D f) -> voce_nuova_ok m m' D dma (UDat d i j) v -> spazi m' D ext' dma.
Proof.
  intros Hv Hsw Hcw He Hx Hst Hok. assert (Ht := proj1 Hm). pose proof (sp_nodup _ _ _ _ SP) as HD.
  assert (Hnew : contata m v = true -> uso m' (tab v) (UDat d i j) = 1).
  { intros Hc. apply uso_dat. rewrite scritto_qui, (contata_totale m m' v Ht). done. }
  unfold voce_nuova_ok in Hok. split; try done.
  - intros f k. rewrite (proj2 Hm). destruct (_ && _); [exact Hv | apply (sp_parole _ _ _ _ SP)].
  - intros d' i' H1 H2. unfold presente. rewrite scritto_dir by done. by apply (sp_huge _ _ _ _ SP).
  - intros f Hs. apply scritto_strutt in Hs. rewrite scritto_usi, (sp_strutt _ _ _ _ SP f Hs).
    assert (Eo : uso m f (UDat d i j) = 0).
    { cbn [uso]. unfold uno. destruct (contata m (voce m d i j)) eqn:Ec; [|done].
      rewrite (proj2 (Z.eqb_neq _ _)); [done|]. by apply (strutt_non_dat m D ext dma SP f d i j). }
    rewrite Eo. destruct (contata m v) eqn:Ec; [|unfold uno; cbn; lia].
    destruct (Z.eqb_spec (tab v) f) as [E|]; [|unfold uno; cbn; lia]. exfalso.
    destruct Hok as (_ & [U1|(_ & Ns & _)]); [|by rewrite E in Ns].
    apply scritto_strutt in Hs. destruct (strutt_usi _ _ _ Hs) as (s & Hi & H1 & Nd). apply (Nd d i j).
    apply (usi_uno m' D f _ _ HD); [rewrite <- E; lia | done | done | done |]. rewrite <- E. by apply Hnew.
  - intros d' i' j' Hu'. destruct (decide (UDat d' i' j' = UDat d i j)) as [[= -> -> ->]|Ne].
    + by rewrite scritto_qui.
    + rewrite scritto_altrove by done. by apply (sp_swap _ _ _ _ SP).
  - intros d' i' j' Hu'. rewrite (fissa_totale m m' _ Ht). destruct (decide (UDat d' i' j' = UDat d i j)) as [[= -> -> ->]|Ne].
    + rewrite scritto_qui. intros Hf. destruct (contata m v) eqn:Ec; [|auto].
      exfalso. unfold contata in Ec. unfold fissa in Hf. rewrite andb_true_iff in Ec, Hf. destruct Ec as [_ Ec], Hf as [_ Hf].
      rewrite Hf in Ec. done.
    + rewrite scritto_altrove by done. by apply (sp_fissa _ _ _ _ SP).
  - intros f Hd. split; [auto|]. destruct (sp_dma _ _ _ _ SP f Hd) as [_ U0]. rewrite scritto_usi, U0.
    pose proof (uso_range m f (UDat d i j)). assert (Eo : uso m f (UDat d i j) = 0).
    { pose proof (somma_ge (uso m f) (elenco_usi D) (UDat d i j) ltac:(intros; apply uso_range) ltac:(by apply elem_usi)) as G.
      unfold usi in U0. lia. }
    rewrite Eo. destruct (contata m v) eqn:Ec; [|done]. destruct Hok as [Nd _]. rewrite (proj2 (Z.eqb_neq (tab v) f)); [done|].
    intros E. by rewrite E in Nd.
  - intros d' i' j' Hu'. rewrite (contata_totale m m' _ Ht). destruct (decide (UDat d' i' j' = UDat d i j)) as [[= -> -> ->]|Ne].
    + rewrite scritto_qui. intros Hc Hpr. rewrite Hc in Hok. destruct Hok as (_ & [U1|(Np & _)]); [done | congruence].
    + rewrite scritto_altrove by done. intros Hc Hpr. pose proof (sp_priv _ _ _ _ SP d' i' j' Hu' Hc Hpr) as U1.
      rewrite scritto_usi, U1.
      assert (Eo : uso m (tab (voce m d' i' j')) (UDat d i j) = 0).
      { pose proof (uso_range m (tab (voce m d' i' j')) (UDat d i j)).
        destruct (Z.eq_dec (uso m (tab (voce m d' i' j')) (UDat d i j)) 1) as [E1|]; [|lia]. exfalso. apply Ne.
        apply (usi_uno m D (tab (voce m d' i' j')) _ _ HD); [lia | done | done | by apply uso_dat | done]. }
      rewrite Eo. destruct (contata m v) eqn:Ec; [|done].
      destruct (Z.eqb_spec (tab v) (tab (voce m d' i' j'))) as [E|]; [|done]. exfalso.
      destruct Hok as (_ & [U2|(_ & _ & Hq)]).
      * rewrite E, scritto_usi, U1, Eo, E, Z.eqb_refl, Ec in U2. cbn in U2. lia.
      * rewrite (Hq d' i' j') in Hpr; done.
  - intros d' i' j' Hu'. apply (cow_totale m m' _ Ht). destruct (decide (UDat d' i' j' = UDat d i j)) as [[= -> -> ->]|Ne].
    + by rewrite scritto_qui.
    + rewrite scritto_altrove by done. by apply (sp_cow _ _ _ _ SP).
Qed.

End Scrivi.

(** ** A table added *)

Section Tabella.

Context {PO : PagineOk P}.
Context m D ext dma (SP : spazi m D ext dma).
Context m' (d i t e : Z) (Hd : d ∈ D) (Hi : utente i = true) (Hp : presente m d i = false).
Context (Ht : stesso_totale m m') (Hfree : ext t + usi m D t = 0).
Context (He : 0 <= e < W32) (Hte : tab e = t) (HeP : ha e PG_PRESENT = true) (HeH : ha e PG_HUGE = false).
Context (Hm : forall f k, fis m' f k = if (f =? d) && (k =? i) then e else
                                       if (f =? t) && (0 <=? k) && (k <? 1024) then 0 else fis m f k).

Lemma tabella_dir d' i' : d' ∈ D -> (d' <> d \/ i' <> i) -> fis m' d' i' = fis m d' i'.
Proof.
  intros H1 Ne. rewrite Hm. rewrite (proj2 (andb_false_iff (d' =? d) (i' =? i))) by (rewrite !Z.eqb_neq; tauto).
  destruct (libera_fuori m D ext dma SP t Hfree) as (Ns & _).
  rewrite (proj2 (Z.eqb_neq d' t)); [done|]. intros ->. apply Ns. by left.
Qed.

Lemma tabella_pres : presente m' d i = true /\ tab (fis m' d i) = t.
Proof. unfold presente. by rewrite Hm, !Z.eqb_refl. Qed.

Lemma tabella_zero j : 0 <= j < 1024 -> fis m' t j = 0.
Proof.
  intros Hj. rewrite Hm, Z.eqb_refl, (proj2 (Z.leb_le 0 j)), (proj2 (Z.ltb_lt j 1024)) by lia.
  rewrite (proj2 (Z.eqb_neq t d)); [done|]. intros E. apply (proj1 (libera_fuori m D ext dma SP t Hfree)). left. by rewrite E.
Qed.

Lemma tabella_voce d' i' j : in_usi D (UDat d' i' j) -> voce m' d' i' j = voce m d' i' j.
Proof.
  intros (H1 & H2 & H3). unfold voce. destruct (decide (d' = d /\ i' = i)) as [[-> ->]|Ne].
  - destruct tabella_pres as [-> ->]. rewrite Hp. by apply tabella_zero.
  - assert (E : fis m' d' i' = fis m d' i') by (apply tabella_dir; [done | lia]). rewrite (presente_eq _ _ _ _ E), E.
    destruct (presente m d' i') eqn:Ep; [|done]. rewrite Hm.
    assert (N1 : tab (fis m d' i') <> d) by (by apply (tab_non_dir m D ext dma SP)).
    rewrite (proj2 (Z.eqb_neq _ _) N1). cbn [andb].
    rewrite (proj2 (Z.eqb_neq _ t)); [done|]. intros E2. apply (proj1 (libera_fuori m D ext dma SP t Hfree)). right. eauto 6.
Qed.

Lemma tabella_usi f : usi m' D f = usi m D f + (if f =? t then 1 else 0).
Proof.
  rewrite (usi_change m m' D f (UTab d i) (sp_nodup _ _ _ _ SP)); [|done|].
  - cbn [uso]. destruct tabella_pres as [-> ->]. rewrite Hp. cbn. rewrite Z.eqb_sym. unfold uno. destruct (f =? t); lia.
  - intros s Hs Ne. destruct s as [d'|d' i'|d' i' j']; cbn [uso].
    + done.
    + destruct Hs as [H1 H2]. assert (E : fis m' d' i' = fis m d' i').
      { apply tabella_dir; [done|]. destruct (decide (d' = d)) as [->|]; [|by left]. right. intros ->. done. }
      unfold presente. by rewrite E.
    + rewrite tabella_voce by done. by rewrite (contata_totale m m' _ Ht).
Qed.

Lemma tabella_strutt f : strutt m' D f <-> strutt m D f \/ f = t.
Proof.
  unfold strutt. split.
  - intros [?|(d' & i' & H1 & H2 & H3 & H4)]; [tauto|]. destruct (decide (d' = d /\ i' = i)) as [[-> ->]|Ne].
    + right. rewrite <- H4. by destruct tabella_pres as [_ ->].
    + left. right. exists d', i'. assert (E : fis m' d' i' = fis m d' i') by (apply tabella_dir; [done | lia]).
      unfold presente in *. by rewrite E in *.
  - intros [[?|(d' & i' & H1 & H2 & H3 & H4)]|Ef]; [by left | |].
    + right. exists d', i'. assert (E : fis m' d' i' = fis m d' i').
      { apply tabella_dir; [done|]. destruct (decide (d' = d)) as [->|]; [|by left]. right. intros ->. congruence. }
      unfold presente in *. by rewrite E.
    + right. exists d, i. rewrite Ef. by destruct tabella_pres.
Qed.

Lemma tabella_spazi : pg_stato (pag m') (piu t 1 (fun f => ext f + usi m D f)) -> spazi m' D ext dma.
Proof.
  intros Hst. destruct (libera_fuori m D ext dma SP t Hfree) as (Ns & Nd & Nv).
  assert (Ht0 : usi m D t = 0) by (pose proof (sp_ext _ _ _ _ SP t); pose proof (usi_nonneg m D t); lia). split.
  - intros f k. rewrite Hm. destruct (_ && _); [done|]. destruct (_ && _ && _); [done | apply (sp_parole _ _ _ _ SP)].
  - apply (sp_nodup _ _ _ _ SP).
  - apply (sp_ext _ _ _ _ SP).
  - eapply pg_ext; [exact Hst|]. intros f. unfold piu. rewrite tabella_usi. lia.
  - intros d' i' H1 H2. destruct (decide (d' = d /\ i' = i)) as [[-> ->]|Ne].
    + intros _. rewrite Hm, !Z.eqb_refl. done.
    + unfold presente. rewrite tabella_dir by (done || lia). by apply (sp_huge _ _ _ _ SP).
  - intros f Hs. apply tabella_strutt in Hs. rewrite tabella_usi. destruct (Z.eqb_spec f t) as [->|Ne]; [lia|].
    destruct Hs as [Hs| ->]; [|done]. rewrite (sp_strutt _ _ _ _ SP f Hs). lia.
  - intros d' i' j Hu. rewrite tabella_voce by done. by apply (sp_swap _ _ _ _ SP).
  - intros d' i' j Hu. rewrite tabella_voce, (fissa_totale m m' _ Ht) by done. by apply (sp_fissa _ _ _ _ SP).
  - intros f Hf. destruct (sp_dma _ _ _ _ SP f Hf) as [H1 H2]. split; [done|]. rewrite tabella_usi.
    rewrite (proj2 (Z.eqb_neq f t)); [lia|]. intros ->. done.
  - intros d' i' j Hu. rewrite tabella_voce, (contata_totale m m' _ Ht) by done. intros Hc Hpr. rewrite tabella_usi.
    rewrite (sp_priv _ _ _ _ SP d' i' j Hu Hc Hpr). rewrite (proj2 (Z.eqb_neq _ t)); [lia|]. by apply Nv.
  - intros d' i' j Hu. rewrite tabella_voce by done. apply (cow_totale m m' _ Ht). by apply (sp_cow _ _ _ _ SP).
Qed.

End Tabella.

End Spec.
