(* ===== verification/PagingPassi.v ===== *)
(** * Spaces: mapping a page

    [paging_map_page] adds at most a table and writes one entry.  The lemmas describe
    its two outcomes by the state before the entry is written, which satisfies the
    invariant and has the entries that there were. *)

From S2P Require Import Prelude Bytes Pmm Pagine Paging PagingBit PagingSpec.

(** ** Addresses *)

(** The address of the page [j] of the table [i]. *)
Definition va (i j : Z) : Z := i * 4194304 + j * 4096.

Lemma land_3ff x : Z.land x 0x3FF = x mod 1024.
Proof. change 0x3FF with (Z.ones 10). rewrite Z.land_ones by lia. done. Qed.

Lemma va_indici i j : 0 <= i < 1024 -> 0 <= j < 1024 -> PD_INDEX (va i j) = i /\ PT_INDEX (va i j) = j.
Proof.
  intros Hi Hj. unfold PD_INDEX, PT_INDEX, va. rewrite !land_3ff, !Z.shiftr_div_pow2 by lia.
  change (2 ^ 22) with 4194304. change (2 ^ 12) with 4096. zdm.
Qed.

Lemma va_range i j : 0 <= i < 1024 -> 0 <= j < 1024 -> 0 <= va i j < W32 /\ va i j mod 4096 = 0.
Proof. intros Hi Hj. unfold va, W32. zdm. Qed.

Lemma land_pagina x : 0 <= x < W32 -> Z.land x 0xFFFFF000 = x - x mod 4096.
Proof. intros Hx. change 0xFFFFF000 with (W32 - 2 ^ 12). by rewrite land_highmask by lia. Qed.

Lemma va_allineata i j : 0 <= i < 1024 -> 0 <= j < 1024 -> Z.land (va i j) 0xFFFFF000 = va i j.
Proof. intros Hi Hj. destruct (va_range i j Hi Hj) as [Hr Hm]. rewrite land_pagina by done. lia. Qed.

(** The entry that [paging_map_page] writes. *)
Definition voce_mappa (phys_addr flags : Z) : Z :=
  Z.lor (Z.lor (Z.land phys_addr 0xFFFFF000) (Z.land flags 0xFFF)) PG_PRESENT.

(** The swap is off: the only pages that can be given up are those of the disk
    cache, which are not in any space. *)
Class SenzaSwap (P : Type) {PG : Pagine P} {SC : Scambio P} : Prop := {
  ss_cedi p o : pg_stato p o -> pg_stato (snd (cache_cedi p)) o /\ pg_totale (snd (cache_cedi p)) = pg_totale p;
  ss_sfratta (m : Mondo P) : swap_sfratta m = Ok (false, m);
  ss_attivo : swap_attivo = false
}.

Section Passi.

Context {P : Type} {PG : Pagine P} {PO : PagineOk P} {SC : Scambio P} {SS : SenzaSwap P} {ST : Statiche}.

Implicit Types (m : Mondo P) (D : list Z).

(** ** A page from the allocator *)

(** A page in hand, or none. *)
Definition ottenuta m (o : Z -> Z) (r : Z * Mondo P) : Prop :=
  fis (snd r) = fis m /\ stesso_totale m (snd r) /\
  (fst r = 0 /\ pg_stato (pag (snd r)) o \/
   exists t, fst r = t * PAGE_SIZE /\ 0 < t < pg_totale (pag m) /\ o t = 0 /\ pg_stato (pag (snd r)) (piu t 1 o)).

Lemma presa_ottenuta m o a p : presa o (pag m) (a, p) -> ottenuta m o (a, con_pag p m).
Proof. intros [Ht Hp]. split; [done|]. split; [exact Ht | exact Hp]. Qed.

Lemma ottenuta_trans m m1 o r : fis m1 = fis m -> stesso_totale m m1 -> ottenuta m1 o r -> ottenuta m o r.
Proof.
  unfold stesso_totale. intros E Et (F & Ft & Hp). split; [by rewrite F|]. split; [unfold stesso_totale; by rewrite Ft, Et|].
  by rewrite <- Et.
Qed.

Lemma giri_tabella_spec k : forall m o, pg_stato (pag m) o -> exists r, giri_tabella k m = Ok r /\ ottenuta m o r.
Proof.
  induction k as [|k IH]; intros m o Ho; cbn [giri_tabella].
  { eexists. split; [reflexivity|]. split; [done|]. split; [done|]. by left. }
  destruct (ss_cedi (pag m) o Ho) as [Hc Hct]. destruct (cache_cedi (pag m)) as [c p]. cbn [snd] in *.
  destruct c.
  - cbn [mbind run_bind]. pose proof (pg_alloc_kernel_ok (pag (con_pag p m)) o Hc) as Ha.
    destruct (pg_alloc_kernel (pag (con_pag p m))) as [a q]. destruct (Z.eqb_spec a 0) as [->|Na]; cbn [negb].
    + destruct Ha as [Hat [[_ Hs]|(t & ? & ? & _)]]; cbn [fst snd] in *; [|unfold PAGE_SIZE in *; lia].
      destruct (IH (con_pag q (con_pag p m)) o Hs) as (r & E & Hr). exists r. split; [done|].
      apply (ottenuta_trans m (con_pag q (con_pag p m))); [done | | done]. unfold stesso_totale. cbn in *. congruence.
    + eexists. split; [reflexivity|]. apply (ottenuta_trans m (con_pag p m)); [done | exact Hct |]. by apply presa_ottenuta.
  - rewrite ss_sfratta. cbn [mbind run_bind]. eexists. split; [reflexivity|]. split; [done|]. split; [exact Hct|]. by left.
Qed.

Lemma tabella_nuova_spec m o : pg_stato (pag m) o -> exists r, tabella_nuova m = Ok r /\ ottenuta m o r.
Proof.
  intros Ho. unfold tabella_nuova. pose proof (pg_alloc_kernel_ok (pag m) o Ho) as Ha.
  destruct (pg_alloc_kernel (pag m)) as [a p]. destruct (Z.eqb_spec a 0) as [->|Na].
  - destruct Ha as [Hat [[_ Hs]|(t & ? & ? & _)]]; cbn [fst snd] in *; [|unfold PAGE_SIZE in *; lia].
    destruct (giri_tabella_spec 64 (con_pag p m) o Hs) as (r & E & Hr). exists r. split; [done|].
    apply (ottenuta_trans m (con_pag p m)); [done | exact Hat | done].
  - eexists. split; [reflexivity|]. by apply presa_ottenuta.
Qed.

Lemma giri_utente_spec k : forall m o, pg_stato (pag m) o -> exists r, giri_utente k m = Ok r /\ ottenuta m o r.
Proof.
  induction k as [|k IH]; intros m o Ho; cbn [giri_utente].
  { eexists. split; [reflexivity|]. split; [done|]. split; [done|]. by left. }
  destruct (ss_cedi (pag m) o Ho) as [Hc Hct]. destruct (cache_cedi (pag m)) as [c p]. cbn [snd] in *.
  destruct c.
  - pose proof (pg_alloc_ok (pag (con_pag p m)) o Hc) as Ha.
    destruct (pg_alloc (pag (con_pag p m))) as [a q]. destruct (Z.eqb_spec a 0) as [->|Na]; cbn [negb].
    + destruct Ha as [Hat [[_ Hs]|(t & ? & ? & _)]]; cbn [fst snd] in *; [|unfold PAGE_SIZE in *; lia].
      destruct (IH (con_pag q (con_pag p m)) o Hs) as (r & E & Hr). exists r. split; [done|].
      apply (ottenuta_trans m (con_pag q (con_pag p m))); [done | | done]. unfold stesso_totale. cbn in *. congruence.
    + eexists. split; [reflexivity|]. apply (ottenuta_trans m (con_pag p m)); [done | exact Hct |]. by apply presa_ottenuta.
  - rewrite ss_sfratta. cbn [mbind run_bind]. rewrite ss_attivo. cbn [negb]. eexists. split; [reflexivity|].
    split; [done|]. split; [exact Hct|]. by left.
Qed.

Lemma pagina_utente_spec m o : pg_stato (pag m) o -> exists r, pagina_utente m = Ok r /\ ottenuta m o r.
Proof.
  intros Ho. unfold pagina_utente. pose proof (pg_alloc_ok (pag m) o Ho) as Ha.
  destruct (pg_alloc (pag m)) as [a p]. destruct (Z.eqb_spec a 0) as [->|Na]; cbn [negb].
  - destruct Ha as [Hat [[_ Hs]|(t & ? & ? & _)]]; cbn [fst snd] in *; [|unfold PAGE_SIZE in *; lia].
    destruct (giri_utente_spec 100 (con_pag p m) o Hs) as (r & E & Hr). exists r. split; [done|].
    apply (ottenuta_trans m (con_pag p m)); [done | exact Hat | done].
  - eexists. split; [reflexivity|]. by apply presa_ottenuta.
Qed.

(** ** States with the same entries *)

(** [m1] has the entries of [m], perhaps a table more, and the same memory in every
    frame that had an owner and was not a directory nor a table. *)
Record come m D (ext : Z -> Z) m1 : Prop := {
  co_totale : stesso_totale m m1;
  co_voce : forall d i j, in_usi D (UDat d i j) -> voce m1 d i j = voce m d i j;
  co_fermo : forall f k, ~ strutt m D f -> 0 < ext f + usi m D f \/ pg_totale (pag m) <= f -> fis m1 f k = fis m f k;
  co_pres : forall d i, d ∈ D -> utente i = true -> presente m d i = true ->
    presente m1 d i = true /\ tab (fis m1 d i) = tab (fis m d i);
  co_altre : forall d i, d ∈ D -> utente i = false -> fis m1 d i = fis m d i;
  co_usi : forall f, 0 < ext f + usi m D f -> usi m1 D f = usi m D f;
  co_strutt : forall f, strutt m1 D f -> strutt m D f \/ ext f + usi m D f = 0
}.

Lemma come_refl m D ext : come m D ext m.
Proof. split; try done. intros f. by left. Qed.

Lemma come_pag m D ext m1 : fis m1 = fis m -> stesso_totale m m1 -> come m D ext m1.
Proof.
  intros E Ht. assert (V : stesse_voci m m1 D) by (apply fuori_stesse; [done|]; intros; by rewrite E). split; try done.
  - apply V.
  - intros f k _ _. by rewrite E.
  - intros d i H1 H2. destruct (sv_dir _ _ _ V d i H1 H2) as (-> & -> & _). done.
  - intros d i _ _. by rewrite E.
  - intros f _. by apply sv_usi.
  - intros f Hs. left. by apply (sv_strutt _ _ _ _ V).
Qed.

Lemma spazi_pag m D ext dma m1 :
  spazi m D ext dma -> fis m1 = fis m -> stesso_totale m m1 -> pg_stato (pag m1) (fun f => ext f + usi m D f) -> spazi m1 D ext dma.
Proof.
  intros SP E Ht Hs. assert (V : stesse_voci m m1 D) by (apply fuori_stesse; [done|]; intros; by rewrite E).
  apply (spazi_stesse m m1 D ext ext dma SP V).
  - intros f j. rewrite E. apply (sp_parole _ _ _ _ SP).
  - apply (sp_ext _ _ _ _ SP).
  - eapply pg_ext; [exact Hs|]. intros f. cbn beta. by rewrite (sv_usi _ _ _ _ V).
  - intros f Hf. by apply (sp_dma _ _ _ _ SP).
Qed.

Lemma come_trans m D ext dma m1 m2 :
  spazi m D ext dma -> spazi m1 D ext dma -> come m D ext m1 -> come m1 D ext m2 -> come m D ext m2.
Proof.
  intros SP SP1 [T1 V1 F1 P1 A1 U1 S1] [T2 V2 F2 P2 A2 U2 S2].
  assert (G : forall f, ~ strutt m D f -> 0 < ext f + usi m D f \/ pg_totale (pag m) <= f ->
    ~ strutt m1 D f /\ (0 < ext f + usi m1 D f \/ pg_totale (pag m1) <= f)).
  { unfold stesso_totale in T1. intros f Ns [Ho|Ho].
    - split; [|left; by rewrite U1]. intros Hs. destruct (S1 f Hs); [done | lia].
    - split; [|right; by rewrite T1]. intros Hs. pose proof (sp_strutt_pos m1 D ext dma SP1 f Hs). rewrite T1 in *. lia. }
  split.
  - unfold stesso_totale in *. congruence.
  - intros d i j Hu. by rewrite V2, V1.
  - intros f k Ns Ho. destruct (G f Ns Ho) as [G1 G2]. by rewrite F2, F1.
  - intros d i H1 H2 H3. destruct (P1 d i H1 H2 H3) as [Q1 E1]. destruct (P2 d i H1 H2 Q1) as [Q2 E2]. by rewrite E2.
  - intros d i H1 H2. by rewrite A2, A1.
  - intros f Ho. rewrite U2, U1 by (try rewrite U1; done). done.
  - intros f Hs. destruct (S2 f Hs) as [H|H]; [by apply S1|]. right.
    pose proof (sp_o m D ext dma SP f) as (? & ? & _). destruct (Z.eq_dec (ext f + usi m D f) 0) as [|Ne]; [done|].
    rewrite U1 in H by lia. lia.
Qed.

(** The frame of a present entry is owned, or is not RAM. *)
Lemma voce_posseduta m D ext dma d i j :
  spazi m D ext dma -> in_usi D (UDat d i j) -> ha (voce m d i j) PG_PRESENT = true ->
  0 < ext (tab (voce m d i j)) + usi m D (tab (voce m d i j)) \/ pg_totale (pag m) <= tab (voce m d i j).
Proof.
  intros SP Hu Hp. pose proof (sp_o m D ext dma SP (tab (voce m d i j))) as (He & Hu0 & _).
  destruct (contata m (voce m d i j)) eqn:Ec; [left; pose proof (contata_usi m D d i j Hu Ec); lia|].
  destruct (fissa m (voce m d i j)) eqn:Ef.
  { left. pose proof (sp_dma _ _ _ _ SP _ (sp_fissa _ _ _ _ SP d i j Hu Ef)). lia. }
  right. unfold contata in Ec. unfold fissa in Ef. rewrite Hp in Ec, Ef.
  destruct (PMM_OLTRE_RAM (PG_ADDR (voce m d i j)) m) eqn:Eo; [|cbn in Ec, Ef; destruct (ha (voce m d i j) PG_FISSA); done].
  unfold PMM_OLTRE_RAM in Eo. apply Z.leb_le in Eo. pose proof (pg_max _ _ (sp_conti _ _ _ _ SP)) as Hm. unfold PMM_PAGINE_4GB in Hm.
  pose proof (voce_parola m D ext dma SP d i j) as Hw.
  destruct (Z.le_gt_cases (pg_totale (pag m)) 0) as [Hn|Hn].
  { pose proof (tab_range _ Hw). lia. }
  rewrite PG_ADDR_tab, u32_small in Eo by (done || (unfold PAGE_SIZE, W32; lia)). unfold PAGE_SIZE in Eo. lia.
Qed.

Lemma come_contenuto m D ext dma m1 d i j k :
  spazi m D ext dma -> come m D ext m1 -> in_usi D (UDat d i j) -> ha (voce m d i j) PG_PRESENT = true ->
  fis m1 (tab (voce m d i j)) k = fis m (tab (voce m d i j)) k.
Proof.
  intros SP C Hu Hp. apply (co_fermo _ _ _ _ C).
  - by apply (voce_non_strutt m D ext dma SP).
  - by apply (voce_posseduta m D ext dma).
Qed.

(** ** [paging_map_page] *)

(** The entry of the directory for a new table. *)
Definition pde_nuova (t : Z) : Z := Z.lor (Z.lor (Z.lor (t * PAGE_SIZE) PG_PRESENT) PG_WRITABLE) PG_USER.

Lemma pde_nuova_ok t : 0 <= t < 1048576 ->
  0 <= pde_nuova t < W32 /\ tab (pde_nuova t) = t /\ ha (pde_nuova t) PG_PRESENT = true /\ ha (pde_nuova t) PG_HUGE = false.
Proof.
  intros Ht. unfold pde_nuova. rewrite <- !Z.lor_assoc. change (Z.lor PG_PRESENT (Z.lor PG_WRITABLE PG_USER)) with 7.
  destruct (tab_lor t 7 Ht ltac:(lia)) as [R E]. split; [done|]. split; [done|].
  rewrite ha_P, ha_H, !Z.lor_spec, !bit_indirizzo by lia. done.
Qed.

(** The directory entry that gets PG_USER. *)
Lemma pde_utente_ok e : 0 <= e < W32 -> let e' := Z.lor e PG_USER in
  0 <= e' < W32 /\ tab e' = tab e /\ ha e' PG_PRESENT = ha e PG_PRESENT /\ ha e' PG_HUGE = ha e PG_HUGE.
Proof.
  intros He e'. assert (R : 0 <= e' < W32) by (apply lor_u32; [done | unfold PG_USER, W32; lia]). split; [done|].
  split.
  - rewrite !parola_tab by done. unfold e'. rewrite Z.shiftr_lor. change (Z.shiftr PG_USER 12) with 0. apply Z.lor_0_r.
  - rewrite !ha_P, !ha_H. unfold e'. rewrite !Z.lor_spec. split; apply orb_false_r.
Qed.

(** Bits of an entry of a directory, the table unchanged. *)
Lemma pde_bit_stesse m D ext dma d i e :
  spazi m D ext dma -> d ∈ D -> utente i = true -> tab e = tab (fis m d i) -> ha e PG_PRESENT = ha (fis m d i) PG_PRESENT ->
  ha e PG_HUGE = ha (fis m d i) PG_HUGE -> stesse_voci m (metti d i e m) D.
Proof.
  intros SP Hd Hi Et Ep Eh. assert (Hx : forall d' i', d' ∈ D -> (d' = d /\ i' = i) \/ fis (metti d i e m) d' i' = fis m d' i').
  { intros d' i' _. cbn [fis metti]. destruct (Z.eqb_spec d' d), (Z.eqb_spec i' i); cbn; auto. }
  assert (Hq : fis (metti d i e m) d i = e) by (cbn [fis metti]; by rewrite !Z.eqb_refl).
  assert (Hd' : forall d' i', d' ∈ D -> presente (metti d i e m) d' i' = presente m d' i' /\
     tab (fis (metti d i e m) d' i') = tab (fis m d' i') /\ ha (fis (metti d i e m) d' i') PG_HUGE = ha (fis m d' i') PG_HUGE).
  { intros d' i' H1. unfold presente. destruct (Hx d' i' H1) as [[-> ->]| ->]; [rewrite Hq|]; done. }
  split; [done | auto |]. intros d' i' j' (H1 & H2 & H3). unfold voce. destruct (Hd' d' i' H1) as (-> & -> & _).
  destruct (presente m d' i') eqn:E; [|done]. cbn [fis metti]. rewrite (proj2 (Z.eqb_neq (tab (fis m d' i')) d)); [done|].
  by apply (tab_non_dir m D ext dma SP).
Qed.

Lemma stesse_come m D ext dma m1 :
  spazi m D ext dma -> stesse_voci m m1 D -> (forall f k, ~ strutt m D f -> fis m1 f k = fis m f k) ->
  (forall d i, d ∈ D -> utente i = false -> fis m1 d i = fis m d i) -> come m D ext m1.
Proof.
  intros SP V F A. split.
  - apply V.
  - apply V.
  - intros f k Ns _. by apply F.
  - intros d i H1 H2. destruct (sv_dir _ _ _ V d i H1 H2) as (-> & -> & _). done.
  - exact A.
  - intros f _. by apply sv_usi.
  - intros f Hs. left. by apply (sv_strutt _ _ _ _ V).
Qed.

(** The state before the entry is written: the table is there. *)
Lemma map_page_spec m D ext dma d i j pa flags :
  spazi m D ext dma -> in_usi D (UDat d i j) ->
  exists r m', paging_map_page d (va i j) pa flags m = Ok (r, m') /\
    (r = -1 /\ spazi m' D ext dma /\ come m D ext m' \/
     r = 0 /\ exists m1, spazi m1 D ext dma /\ come m D ext m1 /\ presente m1 d i = true /\
       scritto m1 (tab (fis m1 d i)) j (voce_mappa pa flags) m' /\ pag m' = pag m1).
Proof.
  intros SP (Hd & Hi & Hj). pose proof (utente_range i Hi) as Hir. destruct (va_indici i j ltac:(lia) Hj) as [Ei Ej].
  unfold paging_map_page. cbn [map_page]. rewrite Ei, Ej, va_allineata by lia. fold (presente m d i).
  assert (Hb : (USER_SPACE_BASE <=? va i j) = true) by (apply Z.leb_le; unfold USER_SPACE_BASE, va; lia).
  destruct (presente m d i) eqn:Ep.
  - rewrite (sp_huge _ _ _ _ SP d i Hd Hi Ep). cbn [andb mbind run_bind negb Z.eqb]. unfold presente in Ep. rewrite Ep. fold (presente m d i) in Ep.
    rewrite Hb, andb_true_r.
    eexists 0, _. split; [reflexivity|]. right. split; [done|].
    destruct (ha flags PG_USER && negb (ha (fis m d i) PG_USER)).
    + set (e := Z.lor (fis m d i) PG_USER). destruct (pde_utente_ok (fis m d i) (sp_parole _ _ _ _ SP d i)) as (R & Et & E1 & E2).
      fold e in R, Et, E1, E2. pose proof (pde_bit_stesse m D ext dma d i e SP Hd Hi Et E1 E2) as V.
      assert (SP1 : spazi (metti d i e m) D ext dma).
      { apply (spazi_stesse m _ D ext ext dma SP V).
        - intros f k. cbn [fis metti]. destruct (_ && _); [done | apply (sp_parole _ _ _ _ SP)].
        - apply (sp_ext _ _ _ _ SP).
        - eapply pg_ext; [exact (sp_conti _ _ _ _ SP)|]. intros f. cbn beta. by rewrite (sv_usi _ _ _ _ V).
        - intros f Hf. by apply (sp_dma _ _ _ _ SP). }
      exists (metti d i e m). split; [done|]. destruct (sv_dir _ _ _ V d i Hd Hi) as (Q1 & Q2 & _). split; [|split; [by rewrite Q1|]].
      * apply (stesse_come m D ext dma _ SP V).
        -- intros f k Ns. cbn [fis metti]. rewrite (proj2 (Z.eqb_neq f d)); [done|]. intros ->. apply Ns. by left.
        -- intros d' i' _ Hi'. cbn [fis metti]. rewrite (proj2 (Z.eqb_neq i' i)); [by rewrite andb_false_r|]. intros ->. congruence.
      * rewrite Q2. split; [|done]. split; [done|]. intros f k. done.
    + exists m. split; [done|]. split; [apply come_refl|]. split; [done|]. split; [|done]. split; [done|]. intros f k. done.
  - cbn [andb mbind run_bind negb Z.eqb]. unfold presente in Ep. rewrite Ep.
    destruct (tabella_nuova_spec m _ (sp_conti _ _ _ _ SP)) as ([a m0] & Ea & F & Ft & Hp). rewrite Ea. cbn [mbind run_bind fst snd] in *.
    destruct Hp as [[-> Hs]|(t & -> & Ht & Ho & Hs)].
    + cbn [Z.eqb]. eexists (-1), _. split; [reflexivity|]. left. split; [done|]. split.
      * by apply (spazi_pag m).
      * by apply come_pag.
    + rewrite (proj2 (Z.eqb_neq (t * PAGE_SIZE) 0)) by (unfold PAGE_SIZE; lia).
      assert (Etf : frame (t * PAGE_SIZE) = t) by (unfold frame, PAGE_SIZE; apply Z.div_mul; lia). rewrite Etf.
      destruct (libera_fuori m D ext dma SP t Ho) as (Ns & Nd & Nv).
      assert (Ntd : t <> d) by (intros ->; apply Ns; by left).
      assert (Er : fis (riempi t (fun _ => 0) m0) d i = fis m d i).
      { cbn [fis riempi]. rewrite (proj2 (Z.eqb_neq d t)) by congruence. by rewrite F. }
      rewrite Er, Ep, Hb. pose proof (pg_max _ _ (sp_conti _ _ _ _ SP)) as Hmx. unfold PMM_PAGINE_4GB in Hmx.
      destruct (pde_nuova_ok t ltac:(lia)) as (R & Et & E1 & E2). fold (pde_nuova t).
      set (m1 := metti d i (pde_nuova t) (riempi t (fun _ => 0) m0)).
      assert (Hm1 : forall f k, fis m1 f k = if (f =? d) && (k =? i) then pde_nuova t else
                                 if (f =? t) && (0 <=? k) && (k <? 1024) then 0 else fis m f k).
      { intros f k. unfold m1. cbn [fis metti riempi]. by rewrite F. }
      assert (SP1 : spazi m1 D ext dma) by (eapply (tabella_spazi m D ext dma SP m1 d i t (pde_nuova t)); eauto).
      destruct (tabella_pres m m1 d i t (pde_nuova t) Et E1 Hm1) as [Hp1 Ht1].
      eexists 0, _. split; [reflexivity|]. right. split; [done|]. exists m1. split; [done|]. split; [|split; [done|]].
      * split.
        -- exact Ft.
        -- intros d' i' j' Hu. by apply (tabella_voce m D ext dma SP m1 d i t (pde_nuova t)).
        -- intros f k Nf Hof. rewrite Hm1. rewrite (proj2 (Z.eqb_neq f d)); [|intros ->; apply Nf; by left]. cbn [andb].
           rewrite (proj2 (Z.eqb_neq f t)); [done|]. intros ->. lia.
        -- intros d' i' H1 H2 H3. unfold presente. rewrite (tabella_dir m D ext dma SP m1 d i t (pde_nuova t)); try done.
           destruct (decide (d' = d)) as [->|]; [|by left]. right. intros ->. unfold presente in H3. congruence.
        -- intros d' i' H1 H2. apply (tabella_dir m D ext dma SP m1 d i t (pde_nuova t)); try done. right. intros ->. congruence.
        -- intros f Hof. rewrite (tabella_usi m D ext dma SP m1 d i t (pde_nuova t)); try done.
           rewrite (proj2 (Z.eqb_neq f t)); [lia|]. intros ->. lia.
        -- intros f Hs'. apply (tabella_strutt m D ext dma SP m1 d i t (pde_nuova t)) in Hs'; try done.
           destruct Hs' as [?| ->]; [by left | by right].
      * rewrite Ht1. split; [|done]. split; [done|]. intros f k. done.
Qed.

End Passi.
