(* ===== verification/PagingVista.v ===== *)
(** * What a program sees of its memory

    Two entries show the same page when the program may do the same with them and
    reads the same words: whether the frame is its own or will be copied at the first
    write does not matter.  [tiene] says of a change of the machine which places keep
    their view; it is how the theorems on fork and on copy on write are stated. *)

From S2P Require Import Prelude Pmm Pagine Paging PagingBit PagingSpec PagingPassi.

(** An entry, and the memory it is read in. *)
Definition stessa_vista {P} (m : Mondo P) (e : Z) (m' : Mondo P) (e' : Z) : Prop :=
  if ha e PG_PRESENT
  then ha e' PG_PRESENT = true /\ permessi e' = permessi e /\ forall k, 0 <= k < 1024 -> fis m' (tab e') k = fis m (tab e) k
  else e' = e.

Section Vista.

Context {P : Type} {PG : Pagine P} {PO : PagineOk P} {ST : Statiche}.

Implicit Types (m : Mondo P) (D : list Z).

Lemma vista_refl m e : stessa_vista m e m e.
Proof. unfold stessa_vista. by destruct (ha e PG_PRESENT). Qed.

Lemma vista_trans m1 e1 m2 e2 m3 e3 : stessa_vista m1 e1 m2 e2 -> stessa_vista m2 e2 m3 e3 -> stessa_vista m1 e1 m3 e3.
Proof.
  unfold stessa_vista. destruct (ha e1 PG_PRESENT) eqn:E1.
  - intros (E2 & H2 & C2). rewrite E2. intros (E3 & H3 & C3). split; [done|]. split; [congruence|].
    intros k Hk. by rewrite C3, C2.
  - intros ->. by rewrite E1.
Qed.

Lemma vista_sym m1 e1 m2 e2 : stessa_vista m1 e1 m2 e2 -> stessa_vista m2 e2 m1 e1.
Proof.
  unfold stessa_vista. destruct (ha e1 PG_PRESENT) eqn:E1.
  - intros (E2 & H2 & C2). rewrite E2. split; [done|]. split; [done|]. intros k Hk. by rewrite C2.
  - intros ->. by rewrite E1.
Qed.

(** Entry and memory taken together, the views are an equivalence. *)
#[export] Instance vista_equiv : Equivalence (fun x y : Mondo P * Z => stessa_vista x.1 x.2 y.1 y.2).
Proof.
  split.
  - intros [m e]. apply vista_refl.
  - intros [m e] [m' e']. apply vista_sym.
  - intros [m e] [m' e'] [m'' e'']. apply vista_trans.
Qed.

Lemma vista_stessa_voce m m' e : (ha e PG_PRESENT = true -> forall k, 0 <= k < 1024 -> fis m' (tab e) k = fis m (tab e) k) -> stessa_vista m e m' e.
Proof. intros H. unfold stessa_vista. destruct (ha e PG_PRESENT); [auto | done]. Qed.

Lemma vista_zero m m' e : stessa_vista m 0 m' e -> e = 0.
Proof. done. Qed.

(** The places outside [X] keep their view; directories keep their tables. *)
Record tiene m D (X : Uso -> Prop) m' : Prop := {
  ti_totale : stesso_totale m m';
  ti_vista : forall d i j, in_usi D (UDat d i j) -> ~ X (UDat d i j) -> stessa_vista m (voce m d i j) m' (voce m' d i j);
  ti_altre : forall d i, d ∈ D -> utente i = false -> fis m' d i = fis m d i;
  ti_pres : forall d i, d ∈ D -> utente i = true -> presente m d i = true -> presente m' d i = true /\ tab (fis m' d i) = tab (fis m d i)
}.

Definition nessuno (s : Uso) : Prop := False.

Lemma tiene_refl m D X : tiene m D X m.
Proof. split; try done. intros d i j _ _. apply vista_refl. Qed.

Lemma tiene_trans m D X m1 Y m2 (Z : Uso -> Prop) :
  tiene m D X m1 -> tiene m1 D Y m2 -> (forall s, X s \/ Y s -> Z s) -> tiene m D Z m2.
Proof.
  intros [T1 V1 A1 P1] [T2 V2 A2 P2] HZ. split.
  - unfold stesso_totale in *. congruence.
  - intros d i j Hu Nz. apply (vista_trans _ _ m1 (voce m1 d i j)); [apply V1 | apply V2]; auto.
  - intros d i H1 H2. by rewrite A2, A1.
  - intros d i H1 H2 H3. destruct (P1 d i H1 H2 H3) as [Q1 E1]. destruct (P2 d i H1 H2 Q1) as [Q2 E2]. by rewrite E2.
Qed.

Lemma tiene_weaken m D (X Y : Uso -> Prop) m' : tiene m D X m' -> (forall s, X s -> Y s) -> tiene m D Y m'.
Proof. intros T H. apply (tiene_trans m D X m' nessuno m' Y T (tiene_refl _ _ _)). unfold nessuno. intros s [|]; [auto | done]. Qed.

Lemma come_tiene m D ext dma m1 X : spazi m D ext dma -> come m D ext m1 -> tiene m D X m1.
Proof.
  intros SP C. split; try apply C. intros d i j Hu _. rewrite (co_voce _ _ _ _ C) by done. apply vista_stessa_voce.
  intros Hp k _. by apply (come_contenuto m D ext dma).
Qed.

(** Memory that does not change. *)
Lemma tiene_pag m D m1 X : fis m1 = fis m -> stesso_totale m m1 -> tiene m D X m1.
Proof.
  intros E Ht. assert (V : forall d i j, voce m1 d i j = voce m d i j) by (intros; unfold voce, presente; by rewrite E). split; try done.
  - intros d i j _ _. rewrite V. apply vista_stessa_voce. by rewrite E.
  - intros d i _ _. by rewrite E.
  - intros d i _ _. unfold presente. by rewrite E.
Qed.

(** One entry written. *)
Lemma scritto_tiene m D ext dma m' d i j v :
  spazi m D ext dma -> in_usi D (UDat d i j) -> presente m d i = true -> scritto m (tab (fis m d i)) j v m' ->
  tiene m D (fun s => s = UDat d i j) m'.
Proof.
  intros SP Hu Hp Hm. assert (Hd : forall d' i', d' ∈ D -> fis m' d' i' = fis m d' i') by (intros; eapply scritto_dir; eauto).
  split.
  - apply Hm.
  - intros d' i' j' Hu' Ne. rewrite (scritto_altrove m D ext dma SP m' d i j v Hu Hp Hm) by done. apply vista_stessa_voce.
    intros Hpr k _. rewrite (proj2 Hm). rewrite (proj2 (Z.eqb_neq _ (tab (fis m d i)))); [done|]. intros E.
    apply (voce_non_strutt m D ext dma SP d' i' j' Hu' Hpr). rewrite E. right. destruct Hu as (H1 & H2 & _). eauto 6.
  - intros d' i' H1 _. by apply Hd.
  - intros d' i' H1 _. unfold presente. by rewrite Hd.
Qed.

(** The places outside [X] keep also their entry, as it is. *)
Record ferme m D (X : Uso -> Prop) m' : Prop := {
  fe_tiene :> tiene m D X m';
  fe_voce : forall d i j, in_usi D (UDat d i j) -> ~ X (UDat d i j) -> voce m' d i j = voce m d i j
}.

Lemma ferme_refl m D X : ferme m D X m.
Proof. split; [apply tiene_refl | done]. Qed.

Lemma ferme_trans m D X m1 Y m2 (Z : Uso -> Prop) :
  ferme m D X m1 -> ferme m1 D Y m2 -> (forall s, X s \/ Y s -> Z s) -> ferme m D Z m2.
Proof.
  intros [T1 V1] [T2 V2] HZ. split; [by apply (tiene_trans m D X m1 Y m2 Z)|]. intros d i j Hu Nz. rewrite V2, V1; auto.
Qed.

Lemma ferme_weaken m D (X Y : Uso -> Prop) m' : ferme m D X m' -> (forall s, X s -> Y s) -> ferme m D Y m'.
Proof. intros [T V] H. split; [by apply (tiene_weaken m D X)|]. intros d i j Hu Ny. apply V; auto. Qed.

Lemma come_ferme m D ext dma m1 X : spazi m D ext dma -> come m D ext m1 -> ferme m D X m1.
Proof. intros SP C. split; [by apply (come_tiene m D ext dma)|]. intros d i j Hu _. by apply C. Qed.

Lemma ferme_pag m D m1 X : fis m1 = fis m -> stesso_totale m m1 -> ferme m D X m1.
Proof. intros E Ht. split; [by apply tiene_pag|]. intros d i j _ _. unfold voce, presente. by rewrite E. Qed.

Lemma scritto_ferme m D ext dma m' d i j v :
  spazi m D ext dma -> in_usi D (UDat d i j) -> presente m d i = true -> scritto m (tab (fis m d i)) j v m' ->
  ferme m D (fun s => s = UDat d i j) m'.
Proof.
  intros SP Hu Hp Hm. split; [by apply (scritto_tiene m D ext dma m' d i j v)|]. intros d' i' j' Hu' Ne.
  by apply (scritto_altrove m D ext dma SP m' d i j v Hu Hp Hm).
Qed.

(** A frame filled that no directory, table or entry names. *)
Lemma riempi_tiene m D ext dma x v X :
  spazi m D ext dma -> ~ strutt m D x -> x < pg_totale (pag m) ->
  (forall d i j, in_usi D (UDat d i j) -> ha (voce m d i j) PG_PRESENT = true -> tab (voce m d i j) <> x) -> tiene m D X (riempi x v m).
Proof.
  intros SP Ns Hx Nv. assert (F : forall f k, f <> x -> fis (riempi x v m) f k = fis m f k).
  { intros f k Ne. cbn [fis riempi]. by rewrite (proj2 (Z.eqb_neq f x)). }
  assert (V : stesse_voci m (riempi x v m) D).
  { apply fuori_stesse; [done|]. intros f k Hf. apply F. intros ->. done. }
  split.
  - done.
  - intros d i j Hu _. rewrite (sv_voce _ _ _ V) by done. apply vista_stessa_voce. intros Hp k _. apply F. by apply Nv.
  - intros d i H1 _. apply F. intros ->. apply Ns. by left.
  - intros d i H1 H2 H3. destruct (sv_dir _ _ _ V d i H1 H2) as (-> & -> & _). done.
Qed.

(** A free frame has no present entry. *)
Lemma libera_senza_voci m D ext dma x :
  spazi m D ext dma -> ext x + usi m D x = 0 -> x < pg_totale (pag m) ->
  forall d i j, in_usi D (UDat d i j) -> ha (voce m d i j) PG_PRESENT = true -> tab (voce m d i j) <> x.
Proof. intros SP E Hx d i j Hu Hp <-. destruct (voce_posseduta m D ext dma d i j SP Hu Hp); lia. Qed.

(** The place written shows what it showed. *)
Lemma tiene_anche m D m' s :
  tiene m D (fun s' => s' = s) m' -> (forall d i j, s = UDat d i j -> stessa_vista m (voce m d i j) m' (voce m' d i j)) -> tiene m D nessuno m'.
Proof.
  intros T H. split; try apply T. intros d i j Hu _. destruct (decide (UDat d i j = s)) as [E|Ne]; [by apply H | by apply T].
Qed.

(** Owners that others take or leave. *)
Lemma spazi_conti m D ext dma m1 ext1 :
  spazi m D ext dma -> fis m1 = fis m -> stesso_totale m m1 -> (forall f, 0 <= ext1 f) -> (forall f, dma f -> 0 < ext1 f) ->
  pg_stato (pag m1) (fun f => ext1 f + usi m D f) -> spazi m1 D ext1 dma.
Proof.
  intros SP E Ht He Hx Hs. assert (V : stesse_voci m m1 D) by (apply fuori_stesse; [done|]; intros; by rewrite E).
  apply (spazi_stesse m m1 D ext ext1 dma SP V); try done.
  - intros f j. rewrite E. apply (sp_parole _ _ _ _ SP).
  - eapply pg_ext; [exact Hs|]. intros f. cbn beta. by rewrite (sv_usi _ _ _ _ V).
Qed.

(** A free frame taken and filled. *)
Lemma pagina_fresca m D ext dma m0 x v :
  spazi m D ext dma -> 0 < x < pg_totale (pag m) -> ext x + usi m D x = 0 -> fis m0 = fis m -> stesso_totale m m0 ->
  pg_stato (pag m0) (piu x 1 (fun f => ext f + usi m D f)) -> (forall k, 0 <= v k < W32) ->
  let m1 := riempi x v m0 in
  stesse_voci m m1 D /\ usi m1 D x = 0 /\ spazi m1 D (piu x 1 ext) dma /\ tiene m D nessuno m1 /\ ~ strutt m1 D x /\ ~ dma x.
Proof.
  intros SP Hx Ho F Ht Hs Hv m1. destruct (libera_fuori m D ext dma SP x Ho) as (Ns & Nd & _).
  assert (V : stesse_voci m m1 D).
  { apply fuori_stesse; [done|]. intros f k Hf. cbn [fis m1 riempi]. rewrite F, (proj2 (Z.eqb_neq f x)); [done|]. intros ->. done. }
  split; [done|]. split; [rewrite (sv_usi _ _ _ _ V); pose proof (sp_o m D ext dma SP x); lia|].
  assert (He : forall f, 0 <= piu x 1 ext f) by (intros f; unfold piu; pose proof (sp_ext _ _ _ _ SP f); destruct (f =? x); lia).
  assert (Hd : forall f, dma f -> 0 < piu x 1 ext f).
  { intros f Hf. unfold piu. pose proof (proj1 (sp_dma _ _ _ _ SP f Hf)). destruct (f =? x); lia. }
  split; [|split; [|split; [intros Hs'; by apply (sv_strutt _ _ _ _ V) in Hs' | done]]].
  - apply (spazi_stesse m m1 D ext _ dma SP V); try done.
    + intros f k. cbn [fis m1 riempi]. rewrite F. destruct (_ && _ && _); [done | apply (sp_parole _ _ _ _ SP)].
    + eapply pg_ext; [exact Hs|]. intros f. cbn beta. rewrite (sv_usi _ _ _ _ V). unfold piu. lia.
  - apply (tiene_trans m D nessuno m0 nessuno); [by apply tiene_pag | | unfold nessuno; intros s [|]; done].
    assert (V0 : stesse_voci m m0 D) by (apply fuori_stesse; [done|]; intros; by rewrite F).
    apply (riempi_tiene m0 D (piu x 1 ext) dma).
    + apply (spazi_conti m D ext dma m0 _ SP F Ht He Hd). eapply pg_ext; [exact Hs|]. intros f. unfold piu. lia.
    + intros Hs'. by apply (sv_strutt _ _ _ _ V0) in Hs'.
    + unfold stesso_totale in Ht. lia.
    + intros d i j Hu Hh. rewrite (sv_voce _ _ _ V0) in Hh |- * by done. by apply (libera_senza_voci m D ext dma x SP Ho (proj2 Hx) d i j).
Qed.

End Vista.
