(* ===== verification/ForkPassi.v ===== *)
(** * fork: one entry

    [voce_figlio] finds what the child gets for an entry of the parent, with the owner
    that the child will be already counted; [installa] puts it in the table of the
    child, or gives the owner back. *)

From S2P Require Import Prelude Pmm Pagine Paging Fork PagingBit PagingSpec PagingPassi PagingVista.

Section ForkPassi.

Context {P : Type} {PG : Pagine P} {PO : PagineOk P} {SC : Scambio P} {SS : SenzaSwap P} {ST : Statiche}.

Implicit Types (m : Mondo P) (D : list Z).

(** ** What the child gets *)

(** [figlio], in the memory [m1], is ready to be written for the entry [pte] of [m]. *)
Record pronta m D (ext : Z -> Z) (dma : Z -> Prop) (pte figlio : Z) m1 : Prop := {
  pr_parola : 0 <= figlio < W32;
  pr_swap : SWAP_PTE_E_SWAP figlio = false;
  pr_cow : cow_ok m figlio;
  pr_vista : stessa_vista m pte m1 figlio;
  pr_tiene : tiene m D nessuno m1;
  pr_spazi : spazi m1 D (piu (tab figlio) (uno (contata m figlio)) ext) dma;
  pr_ammessa :
    if contata m figlio
    then ~ dma (tab figlio) /\ (usi m1 D (tab figlio) = 0 \/
         privata figlio = false /\ exists d i j, in_usi D (UDat d i j) /\ contata m1 (voce m1 d i j) = true /\
           tab (voce m1 d i j) = tab figlio /\ privata (voce m1 d i j) = false)
    else fissa m figlio = true -> dma (tab figlio);
  pr_ferma : ha figlio PG_PRESENT = true -> ~ strutt m1 D (tab figlio) /\
    (0 < piu (tab figlio) (uno (contata m figlio)) ext (tab figlio) + usi m1 D (tab figlio) \/ pg_totale (pag m1) <= tab figlio);
  pr_copia : ha figlio PG_PRESENT && negb (figlio =? pte) && negb (ha figlio PG_COW) = true -> contata m figlio = true
}.

Section Figlio.

Context m D ext dma (SP : spazi m D ext dma) d i j (Hu : in_usi D (UDat d i j)) (Hp : presente m d i = true).

Let pte := voce m d i j.
Let pt := tab (fis m d i).

Lemma pte_qui : fis m pt j = pte.
Proof. unfold pte, pt, voce. by rewrite Hp. Qed.

Lemma pte_parola : 0 <= pte < W32.
Proof. by apply (voce_parola m D ext dma). Qed.

Lemma contata_non_dma : contata m pte = true -> ~ dma (tab pte).
Proof.
  intros Hc Hd. pose proof (contata_usi m D d i j Hu Hc) as U. pose proof (proj2 (sp_dma _ _ _ _ SP _ Hd)) as U0.
  unfold pte in U0. lia.
Qed.

(** The entry as it is, nothing counted: absent, a buffer of a device, not RAM. *)
Lemma figlio_uguale : contata m pte = false -> pronta m D ext dma pte pte m.
Proof.
  intros Hc. assert (E : forall f, piu (tab pte) (uno (contata m pte)) ext f = ext f).
  { intros f. unfold piu. rewrite Hc. destruct (f =? tab pte); cbn; lia. }
  split.
  - apply pte_parola.
  - by apply (sp_swap _ _ _ _ SP).
  - by apply (sp_cow _ _ _ _ SP).
  - apply vista_refl.
  - apply tiene_refl.
  - apply (spazi_conti m D ext dma m _ SP); try done.
    + intros f. rewrite E. apply (sp_ext _ _ _ _ SP).
    + intros f Hf. rewrite E. by apply (sp_dma _ _ _ _ SP).
    + eapply pg_ext; [exact (sp_conti _ _ _ _ SP)|]. intros f. cbn beta. by rewrite E.
  - rewrite Hc. by apply (sp_fissa _ _ _ _ SP).
  - intros Hpr. split; [by apply (voce_non_strutt m D ext dma SP)|]. rewrite E. by apply (voce_posseduta m D ext dma).
  - rewrite Z.eqb_refl, andb_false_r. done.
Qed.

(** The others that name the frame of [pte], when [pte] is not its only user. *)
Lemma altri_non_privati d' i' j' :
  contata m pte = true -> in_usi D (UDat d' i' j') -> UDat d' i' j' <> UDat d i j -> contata m (voce m d' i' j') = true ->
  tab (voce m d' i' j') = tab pte -> privata (voce m d' i' j') = false.
Proof.
  intros Hc Hu' Ne Hc' Et. destruct (privata (voce m d' i' j')) eqn:Ep; [|done]. exfalso. apply Ne.
  pose proof (sp_priv _ _ _ _ SP d' i' j' Hu' Hc' Ep) as U.
  apply (usi_uno m D (tab pte) _ _ (sp_nodup _ _ _ _ SP)); [rewrite <- Et; lia | done | done | by apply uso_dat | by apply uso_dat].
Qed.

(** One owner more of the frame. *)
Lemma conta_padre p1 :
  contata m pte = true -> pg_totale p1 = pg_totale (pag m) -> pg_stato p1 (piu (tab pte) 1 (fun f => ext f + usi m D f)) ->
  spazi (con_pag p1 m) D (piu (tab pte) 1 ext) dma.
Proof.
  intros Hc Ht Hs. apply (spazi_conti m D ext dma); try done.
  - intros f. unfold piu. pose proof (sp_ext _ _ _ _ SP f). destruct (f =? tab pte); lia.
  - intros f Hf. unfold piu. pose proof (proj1 (sp_dma _ _ _ _ SP f Hf)). destruct (f =? tab pte); lia.
  - eapply pg_ext; [exact Hs|]. intros f. unfold piu. lia.
Qed.

Lemma figlio_stessa p1 :
  contata m pte = true -> privata pte = false -> pg_totale p1 = pg_totale (pag m) ->
  pg_stato p1 (piu (tab pte) 1 (fun f => ext f + usi m D f)) -> pronta m D ext dma pte pte (con_pag p1 m).
Proof.
  intros Hc Hpr Ht Hs. split.
  - apply pte_parola.
  - by apply (sp_swap _ _ _ _ SP).
  - by apply (sp_cow _ _ _ _ SP).
  - by apply vista_stessa_voce.
  - by apply tiene_pag.
  - rewrite Hc. by apply conta_padre.
  - rewrite Hc. split; [by apply contata_non_dma|]. right. split; [done|]. exists d, i, j. split; [done|].
    rewrite (contata_totale m (con_pag p1 m)) by done. done.
  - intros Hh. split.
    + by apply (voce_non_strutt m D ext dma SP).
    + left. rewrite Hc. unfold piu. rewrite Z.eqb_refl. pose proof (sp_o m D ext dma SP (tab pte)) as (? & ? & _).
      pose proof (usi_nonneg (con_pag p1 m) D (tab pte)). cbn. lia.
  - rewrite Z.eqb_refl, andb_false_r. done.
Qed.

(** Read only in both, to be copied at the first write. *)
Lemma figlio_cow p1 :
  contata m pte = true -> PTE_E_CONDIVISA pte = false -> ha pte (Z.lor PG_WRITABLE PG_COW) = true ->
  pg_totale p1 = pg_totale (pag m) -> pg_stato p1 (piu (tab pte) 1 (fun f => ext f + usi m D f)) ->
  pronta m D ext dma pte (cow_di pte) (metti pt j (cow_di pte) (con_pag p1 m)).
Proof.
  intros Hc Hcd Hwc Ht Hs. set (m0 := con_pag p1 m). set (m1 := metti pt j (cow_di pte) m0).
  pose proof (conta_padre p1 Hc Ht Hs) as SP0. fold m0 in SP0.
  destruct (cow_di_ok pte pte_parola Hwc) as (R & T & Pm & Bn & B1 & B10).
  destruct (contata_voce m pte (cow_di pte) pte_parola R T Bn) as (Hcc & Hh & Hcd'). rewrite Hc in Hcc. rewrite Hcd in Hcd'.
  assert (Hpp : ha pte PG_PRESENT = true) by (unfold contata in Hc; by apply andb_true_iff in Hc as [[? _]%andb_true_iff _]).
  rewrite Hpp in Hh.
  assert (Hnp : privata (cow_di pte) = false) by (unfold privata; by rewrite ha_W, B1).
  assert (Hcw : cow_ok m (cow_di pte)).
  { intros _. split; [done|]. by rewrite ha_W, B1. }
  assert (Hm : scritto m0 (tab (fis m0 d i)) j (cow_di pte) m1) by (split; [done|]; intros f k; done).
  assert (Ct : forall e, contata m0 e = contata m e) by (intros; by apply contata_totale).
  assert (Ns : ~ strutt m D (tab pte)) by (by apply (voce_non_strutt m D ext dma SP)).
  assert (Qu : forall f, usi m1 D f = usi m0 D f).
  { intros f. rewrite (scritto_usi m0 D _ dma SP0 m1 d i j (cow_di pte) Hu Hp Hm). cbn [uso].
    change (voce m0 d i j) with pte. rewrite !Ct, Hcc, T, Hc. lia. }
  assert (SP1 : spazi m1 D (piu (tab pte) 1 ext) dma).
  { apply (scritto_spazi m0 D _ dma SP0 m1 d i j (cow_di pte) Hu Hp Hm); try done.
    - rewrite SWAP_bit, <- ha_P, Hh. done.
    - by apply (cow_totale m m0).
    - apply (sp_ext _ _ _ _ SP0).
    - intros f Hf. by apply (sp_dma _ _ _ _ SP0).
    - eapply pg_ext; [exact (sp_conti _ _ _ _ SP0)|]. intros f. cbn beta. by rewrite Qu.
    - unfold voce_nuova_ok. rewrite Ct, Hcc, T. split.
      + by apply contata_non_dma.
      + right. split; [done|]. split; [exact Ns|]. intros d' i' j' Hu' Ne Hc' Et. rewrite Ct in Hc'. by apply (altri_non_privati d' i' j'). }
  assert (Hq : voce m1 d i j = cow_di pte) by (by apply (scritto_qui m0 D _ dma SP0 m1 d i j)).
  assert (Hv : stessa_vista m pte m1 (cow_di pte)).
  { unfold stessa_vista. rewrite Hpp, T. split; [done|]. split; [done|]. intros k _. cbn [fis metti m1].
    rewrite (proj2 (Z.eqb_neq (tab pte) pt)); [done|]. intros E. apply Ns. rewrite E. right. destruct Hu as (? & ? & _). unfold pt. eauto 6. }
  split; try done.
  - rewrite SWAP_bit, <- ha_P, Hh. done.
  - apply (tiene_anche m D m1 (UDat d i j)).
    + eapply tiene_trans; [by apply (tiene_pag m D m0 nessuno) | by eapply (scritto_tiene m0 D _ dma m1 d i j) |].
      unfold nessuno. intros s [|]; done.
    + intros ? ? ? [= <- <- <-]. rewrite Hq. exact Hv.
  - rewrite T, Hcc. exact SP1.
  - rewrite Hcc, T. split; [by apply contata_non_dma|]. right. split; [done|]. exists d, i, j. rewrite Hq. rewrite (contata_totale m m1) by done. done.
  - intros _. rewrite T, Hcc. split.
    + intros Hs'. apply (scritto_strutt m0 D _ dma SP0 m1 d i j (cow_di pte) Hu Hp Hm) in Hs'. done.
    + left. unfold piu. rewrite Z.eqb_refl. pose proof (sp_ext _ _ _ _ SP (tab pte)). pose proof (usi_nonneg m1 D (tab pte)). cbn. lia.
Qed.

(** A copy for the child. *)
Lemma figlio_copia p1 x :
  contata m pte = true -> pg_totale p1 = pg_totale (pag m) -> 0 < x < pg_totale (pag m) -> ext x + usi m D x = 0 ->
  pg_stato p1 (piu x 1 (fun f => ext f + usi m D f)) ->
  pronta m D ext dma pte (voce_copia pte x) (riempi x (fis m (tab pte)) (con_pag p1 m)).
Proof.
  intros Hc Ht Hx Ho Hs. pose proof (pg_max _ _ (sp_conti _ _ _ _ SP)) as Hmx. unfold PMM_PAGINE_4GB in Hmx.
  set (m1 := riempi x (fis m (tab pte)) (con_pag p1 m)).
  destruct (voce_copia_ok pte x pte_parola ltac:(lia)) as (R & T & Pm & Bn & B10).
  assert (Hpp : ha pte PG_PRESENT = true) by (unfold contata in Hc; by apply andb_true_iff in Hc as [[? _]%andb_true_iff _]).
  assert (Hh : ha (voce_copia pte x) PG_PRESENT = true) by (rewrite ha_P, Bn, <- ha_P by lia; done).
  assert (Hcc : contata m (voce_copia pte x) = true) by (apply voce_copia_contata; done || apply pte_parola).
  destruct (pagina_fresca m D ext dma (con_pag p1 m) x (fis m (tab pte)) SP Hx Ho eq_refl Ht Hs ltac:(intros; apply (sp_parole _ _ _ _ SP)))
    as (V & Hu0 & SP1 & T1 & Ns & Nd). fold m1 in V, Hu0, SP1, T1, Ns.
  split; try done.
  - rewrite SWAP_bit, <- ha_P, Hh. done.
  - intros Hcw. rewrite PTE_E_COW_bit, B10, andb_false_r in Hcw. done.
  - unfold stessa_vista. rewrite Hpp, T. split; [done|]. split; [done|]. intros k Hk. cbn [fis m1 riempi con_pag].
    rewrite Z.eqb_refl, (proj2 (Z.leb_le 0 k)), (proj2 (Z.ltb_lt k 1024)) by lia. done.
  - rewrite T, Hcc. exact SP1.
  - rewrite Hcc, T. split; [done | by left].
  - intros _. rewrite T, Hcc. split; [done|]. left. unfold piu. rewrite Z.eqb_refl. pose proof (sp_ext _ _ _ _ SP x). rewrite Hu0. cbn. lia.
Qed.

(** [voce_figlio]: the entry of the child, or nothing and nothing changed. *)
Lemma voce_figlio_spec :
  exists r m1, voce_figlio pt j pte m = Ok (r, m1) /\
    match r with
    | Some figlio => pronta m D ext dma pte figlio m1
    | None => spazi m1 D ext dma /\ tiene m D nessuno m1
    end.
Proof.
  unfold voce_figlio. destruct (ha pte PG_PRESENT) eqn:Ep.
  2:{ eexists (Some pte), m. split; [done|]. apply figlio_uguale. unfold contata. by rewrite Ep. }
  destruct (PMM_OLTRE_RAM (PG_ADDR pte) m || ha pte PG_FISSA) eqn:Eo.
  { eexists (Some pte), m. split; [done|]. apply figlio_uguale. unfold contata. rewrite Ep. cbn [andb].
    rewrite <- negb_orb, Eo. done. }
  assert (Hc : contata m pte = true) by (unfold contata; rewrite Ep; cbn [andb]; by rewrite <- negb_orb, Eo).
  rewrite (PG_ADDR_tab pte pte_parola).
  destruct (pg_inc_ok (pag m) _ (tab pte) (sp_conti _ _ _ _ SP)) as (b & p1 & E & Ht & Hs).
  { pose proof (contata_usi m D d i j Hu Hc) as U. fold pte in U. pose proof (sp_ext _ _ _ _ SP (tab pte)). lia. }
  rewrite E. cbn [mbind run_bind]. clear E. destruct (PTE_E_CONDIVISA pte) eqn:Ecd; destruct b.
  - eexists (Some pte), _. split; [reflexivity|]. apply figlio_stessa; try done. unfold privata. by rewrite Ecd, andb_false_r.
  - eexists None, _. split; [reflexivity|]. split; [|by apply tiene_pag].
    apply (spazi_pag m D ext dma); try done. eapply pg_ext; [exact Hs|]. intros f. unfold piu. destruct (f =? tab pte); lia.
  - destruct (ha pte (Z.lor PG_WRITABLE PG_COW)) eqn:Ewc.
    + eexists (Some (cow_di pte)), _. split; [reflexivity|]. by apply figlio_cow.
    + eexists (Some pte), _. split; [reflexivity|]. apply figlio_stessa; try done. rewrite ha_or in Ewc.
      apply orb_false_iff in Ewc as [Ew _]. unfold privata. by rewrite Ew.
  - set (o := fun f => ext f + usi m D f) in *. assert (Hs' : pg_stato p1 o).
    { eapply pg_ext; [exact Hs|]. intros f. unfold piu. destruct (f =? tab pte); lia. }
    pose proof (pg_alloc_ok p1 o Hs') as [Ht2 Ha]. change (pag (con_pag p1 m)) with p1. destruct (pg_alloc p1) as [a p2]. cbn [fst snd] in *.
    destruct Ha as [[-> Hs2]|(x & -> & Hx & Hox & Hs2)].
    + cbn [Z.eqb]. eexists None, _. split; [reflexivity|]. split; [|apply tiene_pag; [done | unfold stesso_totale; cbn; congruence]].
      apply (spazi_pag m D ext dma); try done. unfold stesso_totale. cbn. congruence.
    + rewrite (proj2 (Z.eqb_neq (x * PAGE_SIZE) 0)) by (unfold PAGE_SIZE; lia).
      pose proof (pg_max _ _ (sp_conti _ _ _ _ SP)) as Hmx. unfold PMM_PAGINE_4GB in Hmx. rewrite Ht in Hx.
      eexists (Some (voce_copia pte x)), (riempi x (fis m (tab pte)) (con_pag p2 m)). split.
      * unfold cow_copia_fisica, voce_copia. assert (F : forall y, frame (y * PAGE_SIZE) = y) by (intros; apply Z.div_mul; done).
        rewrite !F. rewrite (PG_ADDR_tab (x * PAGE_SIZE)) by (unfold PAGE_SIZE, W32; lia).
        rewrite (proj2 (tab_lor x 0 ltac:(lia) ltac:(lia))) || rewrite <- (Z.lor_0_r (x * PAGE_SIZE)), (proj2 (tab_lor x 0 ltac:(lia) ltac:(lia))), Z.lor_0_r.
        rewrite (PG_ADDR_tab pte pte_parola). reflexivity.
      * apply figlio_copia; try done. congruence.
Qed.

End Figlio.

(** ** In the table of the child *)

Section Installa.

Context m D ext dma pte figlio m1 (PR : pronta m D ext dma pte figlio m1).
Context al i j (Hu : in_usi D (UDat al i j)) (Hz : voce m1 al i j = 0).

Let x := tab figlio.
Let c := uno (contata m figlio).

Lemma figlio_totale m2 : stesso_totale m1 m2 -> contata m2 figlio = contata m figlio /\ fissa m2 figlio = fissa m figlio.
Proof.
  intros Ht. pose proof (ti_totale _ _ _ _ (pr_tiene _ _ _ _ _ _ _ PR)) as Ht1.
  assert (Ht2 : stesso_totale m m2) by (unfold stesso_totale in *; congruence). by rewrite (contata_totale m m2 _ Ht2), (fissa_totale m m2 _ Ht2).
Qed.

(** What is taken goes back. *)
Lemma installa_rende m2 :
  spazi m2 D (piu x c ext) dma -> stesso_totale m1 m2 -> (forall f, 0 <= ext f) -> (forall f, dma f -> 0 < ext f) ->
  exists m3, (if ha figlio PG_PRESENT && negb (figlio =? pte) && negb (ha figlio PG_COW) then pmm_free (PG_ADDR figlio) m2
              else if ha figlio PG_PRESENT && negb (PMM_OLTRE_RAM (PG_ADDR figlio) m2) && negb (ha figlio PG_FISSA)
              then pmm_free (PG_ADDR figlio) m2 else Ok m2) = Ok m3 /\
    fis m3 = fis m2 /\ stesso_totale m2 m3 /\ spazi m3 D ext dma.
Proof.
  intros SP2 Ht He Hx. destruct (figlio_totale m2 Ht) as [Hc _].
  assert (E : forall A (a b : A), (if ha figlio PG_PRESENT && negb (figlio =? pte) && negb (ha figlio PG_COW) then a
      else if ha figlio PG_PRESENT && negb (PMM_OLTRE_RAM (PG_ADDR figlio) m2) && negb (ha figlio PG_FISSA) then a else b) =
      if contata m figlio then a else b).
  { intros A a b. fold (contata m2 figlio). rewrite Hc. destruct (_ && _ && _) eqn:Et; [|done].
    by rewrite (pr_copia _ _ _ _ _ _ _ PR Et). }
  rewrite E. clear E. destruct (contata m figlio) eqn:Ec; unfold c in SP2; cbn [uno] in SP2.
  - unfold pmm_free. rewrite (PG_ADDR_tab figlio (pr_parola _ _ _ _ _ _ _ PR)). fold x.
    destruct (pg_free_ok (pag m2) _ x (sp_conti _ _ _ _ SP2)) as (p3 & E & Ht3 & Hs3).
    { unfold piu. rewrite Z.eqb_refl. pose proof (He x). pose proof (usi_nonneg m2 D x). lia. }
    rewrite E. cbn [mbind run_bind]. eexists. split; [reflexivity|]. split; [done|]. split; [exact Ht3|].
    apply (spazi_conti m2 D _ dma _ ext SP2); try done. eapply pg_ext; [exact Hs3|]. intros f. unfold piu. destruct (f =? x); lia.
  - exists m2. split; [done|]. split; [done|]. split; [done|]. apply (spazi_conti m2 D _ dma _ ext SP2); try done.
    eapply pg_ext; [exact (sp_conti _ _ _ _ SP2)|]. intros f. unfold piu. destruct (f =? x); lia.
Qed.

(** The entry may be written where the table is. *)
Lemma installa_ammessa m2 m4 :
  spazi m2 D (piu x c ext) dma -> come m1 D (piu x c ext) m2 -> (forall f, 0 <= ext f) -> presente m2 al i = true ->
  scritto m2 (tab (fis m2 al i)) j figlio m4 -> voce_nuova_ok m2 m4 D dma (UDat al i j) figlio.
Proof.
  intros SP2 C He Hp2 Hm. destruct (figlio_totale m2 (co_totale _ _ _ _ C)) as [Hc Hf].
  pose proof (pr_ammessa _ _ _ _ _ _ _ PR) as Ha. unfold voce_nuova_ok. rewrite Hc, Hf. fold x in Ha |- *.
  destruct (contata m figlio) eqn:Ec; [|done]. destruct Ha as [Nd Ha]. split; [done|].
  assert (Hpf : ha figlio PG_PRESENT = true) by (unfold contata in Ec; by apply andb_true_iff in Ec as [[? _]%andb_true_iff _]).
  assert (Hx1 : 0 < piu x c ext x + usi m1 D x).
  { unfold piu, c. rewrite Z.eqb_refl. pose proof (He x). pose proof (usi_nonneg m1 D x). cbn [uno]. lia. }
  pose proof (co_usi _ _ _ _ C x Hx1) as Eu.
  assert (Hz2 : voce m2 al i j = 0) by (by rewrite (co_voce _ _ _ _ C)).
  destruct Ha as [U0|(Np & d & i' & j' & Hu' & Hc' & Et & Np')].
  - left. rewrite (scritto_usi m2 D _ dma SP2 m4 al i j figlio Hu Hp2 Hm). fold x. rewrite Hc, Z.eqb_refl, Eu, U0. cbn [uso].
    by rewrite Hz2.
  - right. split; [done|]. split.
    + intros Hs. destruct (pr_ferma _ _ _ _ _ _ _ PR Hpf) as [Ns _]. destruct (co_strutt _ _ _ _ C x Hs); [done | lia].
    + intros d2 i2 j2 Hu2 _ Hc2 Et2. destruct (privata (voce m2 d2 i2 j2)) eqn:Ep; [|done].
      pose proof (sp_priv _ _ _ _ SP2 d2 i2 j2 Hu2 Hc2 Ep) as U1. rewrite Et2 in U1.
      assert (X : UDat d2 i2 j2 = UDat d i' j').
      { apply (usi_uno m2 D x _ _ (sp_nodup _ _ _ _ SP2)); [lia | done | done | by apply uso_dat |].
        apply uso_dat. rewrite (co_voce _ _ _ _ C) by done. rewrite (contata_totale m1 m2) by apply C. done. }
      injection X as -> -> ->. rewrite (co_voce _ _ _ _ C) in Ep by done. congruence.
Qed.

Lemma installa_figlio_spec : (forall f, 0 <= ext f) -> (forall f, dma f -> 0 < ext f) ->
  exists b m', installa al (va i j) pte figlio m1 = Ok (b, m') /\ spazi m' D ext dma /\ tiene m1 D (fun s => s = UDat al i j) m' /\
    if (b : bool) then stessa_vista m pte m' (voce m' al i j) else voce m' al i j = 0.
Proof.
  intros He Hx. pose proof (pr_spazi _ _ _ _ _ _ _ PR) as SP1. fold x c in SP1. unfold installa.
  destruct (map_page_spec m1 D _ dma al i j 0 0 SP1 Hu) as (r & m2 & E & Hr). rewrite E. cbn [mbind run_bind]. clear E.
  destruct Hr as [(-> & SP2 & C)|(-> & m1' & SP2 & C & Hp2 & Hm & Epg)]; cbn [Z.eqb negb].
  - destruct (installa_rende m2 SP2 (co_totale _ _ _ _ C) He Hx) as (m3 & E & F & Ht3 & SP3). rewrite E. cbn [mbind run_bind].
    eexists false, m3. split; [reflexivity|]. split; [done|]. split.
    + eapply tiene_trans; [exact (come_tiene m1 D _ dma m2 (fun s => s = UDat al i j) SP1 C) | exact (tiene_pag m2 D m3 nessuno F Ht3) |].
      unfold nessuno. intros s [|]; done.
    + unfold voce, presente. rewrite F. fold (presente m2 al i). fold (voce m2 al i j). by rewrite (co_voce _ _ _ _ C).
  - rename m2 into m3, m1' into m2. destruct Hu as (H1 & H2 & H3). pose proof (utente_range i H2).
    destruct (va_indici i j ltac:(lia) H3) as [Ei Ej].
    assert (Ed : fis m3 al i = fis m2 al i) by (by apply (scritto_dir m2 D _ dma SP2 m3 al i j (voce_mappa 0 0))).
    assert (Hsc : exists m4, paging_pte_scrivi (Some al) (va i j) figlio m3 = m4 /\ scritto m2 (tab (fis m2 al i)) j figlio m4 /\ pag m4 = pag m2).
    { unfold paging_pte_scrivi. rewrite Ei, Ej, Ed. fold (presente m2 al i). rewrite Hp2, (sp_huge _ _ _ _ SP2 al i H1 H2 Hp2).
      cbn [negb orb]. eexists. split; [reflexivity|]. split; [|done]. split; [exact (proj1 Hm)|]. intros f k. cbn [fis metti].
      destruct ((f =? tab (fis m2 al i)) && (k =? j)) eqn:Eb; [done|]. by rewrite (proj2 Hm), Eb. }
    destruct Hsc as (m4 & E4 & Hm4 & Ep4). rewrite E4. clear E4 Hm Ed Epg m3.
    assert (Hui : in_usi D (UDat al i j)) by done.
    destruct (figlio_totale m2 (co_totale _ _ _ _ C)) as [Hc _].
    eexists true, m4. split; [reflexivity|]. split; [|split].
    + apply (scritto_spazi m2 D _ dma SP2 m4 al i j figlio Hui Hp2 Hm4); try done; try apply PR.
      * intros Hcw. rewrite Hc. by apply PR.
      * eapply pg_ext; [rewrite Ep4; exact (sp_conti _ _ _ _ SP2)|]. intros f. cbn beta.
        rewrite (scritto_usi m2 D _ dma SP2 m4 al i j figlio Hui Hp2 Hm4). cbn [uso]. rewrite (co_voce _ _ _ _ C), Hz, Hc by done. change (contata m2 0) with false.
        fold x. unfold piu, c. rewrite (Z.eqb_sym f x). destruct (contata m figlio), (x =? f); cbn; lia.
      * by apply (installa_ammessa m2 m4).
    + eapply tiene_trans; [exact (come_tiene m1 D _ dma m2 nessuno SP1 C) | exact (scritto_tiene m2 D _ dma m4 al i j figlio SP2 Hui Hp2 Hm4) |].
      unfold nessuno. intros s [|]; done.
    + rewrite (scritto_qui m2 D _ dma SP2 m4 al i j figlio Hui Hp2 Hm4).
      apply (vista_trans _ _ m1 figlio); [apply PR|]. apply vista_stessa_voce. intros Hpf k _.
      destruct (pr_ferma _ _ _ _ _ _ _ PR Hpf) as [Ns Hown]. rewrite (proj2 Hm4).
      rewrite (proj2 (Z.eqb_neq (tab figlio) (tab (fis m2 al i)))); [by apply (co_fermo _ _ _ _ C)|].
      intros E. assert (Hs : strutt m2 D (tab figlio)) by (rewrite E; right; eauto 6).
      destruct (co_strutt _ _ _ _ C _ Hs) as [|H0]; [done|]. destruct Hown as [Ho|Ho]; [fold x c in Ho, H0; lia|].
      pose proof (sp_strutt_pos m2 D _ dma SP2 _ Hs) as Hps. rewrite (co_totale _ _ _ _ C) in Hps. lia.
Qed.

End Installa.

End ForkPassi.

(** * fork: the tables and the whole space

    The loops of [paging_copia_spazio] over the entries of a table and over the
    blocks of 4 MB, by the step of one entry. *)


Section ForkGiri.

Context {P : Type} {PG : Pagine P} {PO : PagineOk P} {SC : Scambio P} {SS : SenzaSwap P} {ST : Statiche}.

Implicit Types (m : Mondo P) (D : list Z).

Context D (ext : Z -> Z) (dma : Z -> Prop) d al (Hd : d ∈ D) (Hal : al ∈ D) (Ne : d <> al).

Lemma indirizzo_voce i j : 0 <= i < 1024 -> 0 <= j < 1024 -> u32 (va i 0 + j * PAGE_SIZE) = va i j.
Proof. intros Hi Hj. rewrite u32_small; unfold va, PAGE_SIZE, W32; lia. Qed.

Lemma indirizzo_blocco i : 0 <= i < 1023 -> u32 (va i 0 + TAB_VOCI * PAGE_SIZE) = va (i + 1) 0.
Proof. intros Hi. unfold TAB_VOCI. rewrite u32_small; unfold va, PAGE_SIZE, W32; lia. Qed.

(** ** An entry *)

Lemma copia_voce_spec m i j :
  spazi m D ext dma -> utente i = true -> 0 <= j < 1024 -> presente m d i = true -> voce m al i j = 0 ->
  exists b m', copia_voce d al (tab (fis m d i)) (va i 0) j m = Ok (b, tab (fis m d i), m') /\
    spazi m' D ext dma /\ tiene m D (fun s => s = UDat al i j) m' /\
    ((b : bool) = true -> stessa_vista m (voce m d i j) m' (voce m' al i j)).
Proof.
  intros SP Hi Hj Hp Hz. pose proof (utente_range i Hi) as Hir. assert (Hu : in_usi D (UDat d i j)) by done.
  unfold copia_voce. rewrite indirizzo_voce by lia. rewrite (pte_qui m d i j Hp).
  destruct (Z.eqb_spec (voce m d i j) 0) as [E0|N0].
  { eexists true, m. split; [reflexivity|]. split; [done|]. split; [apply tiene_refl|]. intros _. by rewrite E0, Hz. }
  rewrite (sp_swap _ _ _ _ SP d i j Hu). cbn [mbind run_bind negb]. rewrite (pte_qui m d i j Hp), (proj2 (Z.eqb_neq _ _) N0).
  rewrite (sp_swap _ _ _ _ SP d i j Hu).
  destruct (voce_figlio_spec m D ext dma SP d i j Hu Hp) as (r & m1 & E & Hr). rewrite E. cbn [mbind run_bind]. clear E.
  destruct r as [figlio|].
  - assert (Hz1 : voce m1 al i j = 0).
    { pose proof (ti_vista _ _ _ _ (pr_tiene _ _ _ _ _ _ _ Hr) al i j ltac:(done) (fun h => h)) as V. rewrite Hz in V. done. }
    destruct (installa_figlio_spec m D ext dma _ figlio m1 Hr al i j ltac:(done) Hz1) as (b & m' & E & SP' & T & Hv).
    { apply (sp_ext _ _ _ _ SP). } { intros f Hf. by apply (sp_dma _ _ _ _ SP). }
    rewrite E. cbn [mbind run_bind]. eexists b, m'. split; [reflexivity|]. split; [done|]. split.
    + apply (tiene_trans m D nessuno m1 _ m' _ (pr_tiene _ _ _ _ _ _ _ Hr) T). unfold nessuno. intros s [|]; done.
    + intros ->. exact Hv.
  - destruct Hr as [SP1 T]. eexists false, m1. split; [reflexivity|]. split; [done|]. split; [|done].
    apply (tiene_weaken m D nessuno); [done|]. unfold nessuno. done.
Qed.

(** ** A table *)

Lemma copia_tabella_spec n : forall m i j,
  spazi m D ext dma -> utente i = true -> 0 <= j -> j + Z.of_nat n = 1024 -> presente m d i = true ->
  (forall j', j <= j' < 1024 -> voce m al i j' = 0) ->
  exists b m', copia_tabella n d al (tab (fis m d i)) (va i 0) j m = Ok (b, m') /\
    spazi m' D ext dma /\ tiene m D (fun s => exists j', s = UDat al i j' /\ j <= j' < 1024) m' /\
    ((b : bool) = true -> forall j', j <= j' < 1024 -> stessa_vista m (voce m d i j') m' (voce m' al i j')).
Proof.
  induction n as [|n IH]; intros m i j SP Hi Hj Hn Hp Hz; cbn [copia_tabella].
  { eexists true, m. split; [reflexivity|]. split; [done|]. split; [apply tiene_refl|]. intros _ j'. lia. }
  destruct (copia_voce_spec m i j SP Hi ltac:(lia) Hp (Hz j ltac:(lia))) as (b & m1 & E & SP1 & T1 & V1).
  rewrite E. cbn [mbind run_bind]. clear E. destruct (ti_pres _ _ _ _ T1 d i Hd Hi Hp) as [Hp1 Et1].
  destruct b.
  2:{ eexists false, m1. split; [reflexivity|]. split; [done|]. split; [|done]. apply (tiene_weaken _ _ _ _ _ T1).
      intros s ->. exists j. split; [done | lia]. }
  destruct (IH m1 i (j + 1) SP1 Hi ltac:(lia) ltac:(lia) Hp1) as (b & m2 & E & SP2 & T2 & V2).
  { intros j' Hj'. pose proof (ti_vista _ _ _ _ T1 al i j' ltac:(cbn; auto with lia) ltac:(injection 1; lia)) as V.
    rewrite (Hz j') in V by lia. done. }
  rewrite Et1 in E. rewrite E. eexists b, m2. split; [reflexivity|]. split; [done|]. split.
  - apply (tiene_trans _ _ _ _ _ _ _ T1 T2). intros s [->|(j' & -> & ?)]; [exists j | exists j']; (split; [done | lia]).
  - intros -> j' Hj'. destruct (Z.eq_dec j' j) as [->|Nj].
    + apply (vista_trans _ _ m1 (voce m1 al i j)); [auto|]. apply T2; [cbn; auto with lia|]. intros (j' & [= <-] & ?). lia.
    + apply (vista_trans _ _ m1 (voce m1 d i j')); [|apply V2; [done | lia]].
      apply T1; [cbn; auto with lia|]. injection 1. congruence.
Qed.

(** ** A block of 4 MB *)

(** The entries of the framebuffer are those of the kernel in both directories. *)
Definition schermo m : Prop :=
  forall i, 16 <= i < 1024 -> utente i = false -> fis m al i = fis m d i /\ (presente m d i = true -> ha (fis m d i) PG_HUGE = false).

Lemma schermo_tiene m X m' : schermo m -> tiene m D X m' -> schermo m'.
Proof. intros S T i Hi Hf. unfold presente. rewrite !(ti_altre _ _ _ _ T) by done. by apply S. Qed.

Lemma copia_blocco_spec m i :
  spazi m D ext dma -> schermo m -> 16 <= i < 1024 -> (utente i = true -> forall j, 0 <= j < 1024 -> voce m al i j = 0) ->
  exists b m', copia_blocco d al (va i 0) m = Ok (b, m') /\
    spazi m' D ext dma /\ tiene m D (fun s => exists j, s = UDat al i j) m' /\
    ((b : bool) = true -> utente i = true -> forall j, 0 <= j < 1024 -> stessa_vista m (voce m d i j) m' (voce m' al i j)).
Proof.
  intros SP S Hi Hz. unfold copia_blocco, TAB_C_E, TAB_GRANDE, TAB_DI. destruct (va_indici i 0 ltac:(lia) ltac:(lia)) as [Ei _].
  rewrite !Ei. fold (presente m d i). destruct (presente m d i) eqn:Ep; cbn [negb].
  2:{ eexists true, m. split; [reflexivity|]. split; [done|]. split; [apply tiene_refl|]. intros _ Hut j Hj.
      rewrite (Hz Hut j Hj). unfold voce. rewrite Ep. done. }
  destruct (utente i) eqn:Eu.
  - rewrite (sp_huge _ _ _ _ SP d i Hd Eu Ep). cbn [mbind run_bind negb Z.eqb].
    assert (Et : ha (fis m al i) PG_PRESENT && negb (ha (fis m al i) PG_HUGE) && (tab (fis m al i) =? tab (fis m d i)) = false).
    { fold (presente m al i). destruct (presente m al i) eqn:Ea; [|done].
      rewrite (proj2 (Z.eqb_neq (tab (fis m al i)) (tab (fis m d i)))); [apply andb_false_r|]. intros E.
      destruct (tab_unica m D ext dma SP al i d i Hal Eu Ea Hd Eu Ep E) as [E' _]. done. }
    rewrite Et. destruct (copia_tabella_spec 1024 m i 0 SP Eu ltac:(lia) ltac:(lia) Ep) as (b & m' & E & SP' & T & V).
    { intros j' Hj'. by apply Hz. }
    rewrite E. eexists b, m'. split; [reflexivity|]. split; [done|]. split; [|auto].
    apply (tiene_weaken _ _ _ _ _ T). intros s (j' & -> & _). eauto.
  - destruct (S i Hi Eu) as [Ef Eh]. rewrite (Eh Ep). cbn [mbind run_bind negb Z.eqb]. rewrite Ef. fold (presente m d i).
    rewrite Ep, (Eh Ep), Z.eqb_refl. cbn [andb negb]. eexists true, m. split; [reflexivity|]. split; [done|]. split; [apply tiene_refl | done].
Qed.

Lemma copia_blocchi_spec n : forall m i,
  spazi m D ext dma -> schermo m -> 16 <= i -> i + Z.of_nat n < 1024 ->
  (forall i' j, i <= i' -> utente i' = true -> 0 <= j < 1024 -> voce m al i' j = 0) ->
  exists b m', copia_blocchi n d al (va i 0) m = Ok (b, m') /\
    spazi m' D ext dma /\ tiene m D (fun s => exists i' j, s = UDat al i' j /\ i <= i') m' /\
    ((b : bool) = true -> forall i' j, i <= i' < i + Z.of_nat n -> utente i' = true -> 0 <= j < 1024 ->
       stessa_vista m (voce m d i' j) m' (voce m' al i' j)).
Proof.
  induction n as [|n IH]; intros m i SP S Hi Hn Hz; cbn [copia_blocchi].
  { eexists true, m. split; [reflexivity|]. split; [done|]. split; [apply tiene_refl|]. intros _ i' j. lia. }
  destruct (copia_blocco_spec m i SP S ltac:(lia)) as (b & m1 & E & SP1 & T1 & V1).
  { intros Hut j Hj. by apply Hz. }
  rewrite E. cbn [mbind run_bind]. clear E. destruct b.
  2:{ eexists false, m1. split; [reflexivity|]. split; [done|]. split; [|done]. apply (tiene_weaken _ _ _ _ _ T1).
      intros s (j & ->). exists i, j. split; [done | lia]. }
  rewrite indirizzo_blocco by lia.
  destruct (IH m1 (i + 1) SP1 (schermo_tiene _ _ _ S T1) ltac:(lia) ltac:(lia)) as (b & m2 & E & SP2 & T2 & V2).
  { intros i' j Hi' Hut Hj. pose proof (ti_vista _ _ _ _ T1 al i' j ltac:(done)) as V.
    rewrite (Hz i' j) in V by (done || lia). apply V. intros (j' & [= E' _]). lia. }
  rewrite E. eexists b, m2. split; [reflexivity|]. split; [done|]. split.
  - apply (tiene_trans _ _ _ _ _ _ _ T1 T2). intros s [(j & ->)|(i' & j & -> & ?)]; [exists i, j | exists i', j]; (split; [done | lia]).
  - intros -> i' j Hi' Hut Hj. destruct (Z.eq_dec i' i) as [->|Nj].
    + apply (vista_trans _ _ m1 (voce m1 al i j)); [auto|]. apply T2; [done|]. intros (i' & j' & [= <- _] & ?). lia.
    + apply (vista_trans _ _ m1 (voce m1 d i' j)); [|apply V2; [done | lia | done | done]].
      apply T1; [done|]. intros (j' & [= E' _ _]). done.
Qed.

(** ** The whole space *)

(** Nothing is on the swap. *)
Lemma torna_tabella_spec n : forall m pt blocco i,
  (forall j, i <= j < i + Z.of_nat n -> SWAP_PTE_E_SWAP (fis m pt j) = false) -> torna_tabella n d pt blocco i m = Ok (true, m).
Proof.
  induction n as [|n IH]; intros m pt blocco i H; cbn [torna_tabella]; [done|]. rewrite H by lia. cbn [mbind run_bind].
  apply IH. intros j Hj. apply H. lia.
Qed.

Definition schermo_presente m : Prop :=
  forall i j, 16 <= i < 1024 -> utente i = false -> presente m d i = true -> 0 <= j < 1024 ->
    SWAP_PTE_E_SWAP (fis m (tab (fis m d i)) j) = false.

Lemma torna_giro_spec n : forall m i,
  spazi m D ext dma -> schermo_presente m -> 16 <= i -> i + Z.of_nat n < 1024 -> torna_giro n d (va i 0) m = Ok (true, m).
Proof.
  induction n as [|n IH]; intros m i SP S Hi Hn; cbn [torna_giro]; [done|].
  unfold TAB_C_E, TAB_GRANDE, TAB_DI. destruct (va_indici i 0 ltac:(lia) ltac:(lia)) as [Ei _]. rewrite !Ei. fold (presente m d i).
  assert (E : (if negb (presente m d i) || ha (fis m d i) PG_HUGE then Ok (true, m)
               else torna_tabella 1024 d (tab (fis m d i)) (va i 0) 0 m) = Ok (true, m)).
  { destruct (presente m d i) eqn:Ep; [|done]. destruct (ha (fis m d i) PG_HUGE); [done|]. cbn [negb orb].
    apply torna_tabella_spec. intros j Hj. destruct (utente i) eqn:Eu; [|apply S; done || lia].
    pose proof (sp_swap _ _ _ _ SP d i j ltac:(done)) as Hs. unfold voce in Hs. by rewrite Ep in Hs. }
  rewrite E. cbn [mbind run_bind]. rewrite indirizzo_blocco by lia. apply IH; done || lia.
Qed.

Lemma copia_spazio_spec m :
  spazi m D ext dma -> schermo m -> schermo_presente m ->
  (forall i j, utente i = true -> 0 <= j < 1024 -> voce m al i j = 0) ->
  exists r m', paging_copia_spazio d al m = Ok (r, m') /\ (r = 0 \/ r = - ENOMEM) /\
    spazi m' D ext dma /\ tiene m D (fun s => exists i j, s = UDat al i j) m' /\
    (r = 0 -> forall i j, i < PD_INDEX USER_SPACE_END -> utente i = true -> 0 <= j < 1024 ->
       stessa_vista m (voce m d i j) m' (voce m' al i j)).
Proof.
  intros SP S SS1 Hz. unfold paging_copia_spazio. change USER_SPACE_BASE with (va 16 0).
  assert (Hn : 16 + Z.of_nat n_blocchi = PD_INDEX USER_SPACE_END /\ PD_INDEX USER_SPACE_END < 1024) by done.
  rewrite torna_giro_spec by (done || lia). cbn [mbind run_bind negb]. rewrite torna_giro_spec by (done || lia). cbn [mbind run_bind negb].
  destruct (copia_blocchi_spec n_blocchi m 16 SP S ltac:(lia) ltac:(lia)) as (b & m' & E & SP' & T & V).
  { intros i' j _. apply Hz. }
  rewrite E. cbn [mbind run_bind]. eexists _, m'. split; [reflexivity|]. split; [destruct b; tauto|]. split; [done|]. split.
  - apply (tiene_weaken _ _ _ _ _ T). intros s (i & j & -> & _). eauto.
  - destruct b; [|unfold ENOMEM; lia]. intros _ i j Hi Hut Hj. apply V; try done. pose proof (utente_range i Hut). lia.
Qed.

End ForkGiri.
