(* ===== verification/PagingCow.v ===== *)
(** * Copy on write, promised pages

    [cow_risolvi] makes a page of the program its own at the first write; [paging_pigra_tocca]
    gives the page that was promised.  Both keep what every program sees. *)

From S2P Require Import Prelude Pmm Pagine Paging PagingBit PagingSpec PagingPassi PagingVista.

Section PagingCow.

Context {P : Type} {PG : Pagine P} {PO : PagineOk P} {SC : Scambio P} {SS : SenzaSwap P} {ST : Statiche}.

Implicit Types (m : Mondo P) (D : list Z).

(** A count of owners has 32 bits, and would come back to zero past them. *)
Definition non_avvolta m D (ext : Z -> Z) (f : Z) : Prop := ext f + usi m D f < W32.

(** It never is when the places that may own a frame are few enough. *)
Definition pochi D (ext : Z -> Z) : Prop := forall f, ext f + Z.of_nat (length (elenco_usi D)) < W32.

Lemma somma_length {A} (g : A -> Z) l : (forall x, g x <= 1) -> somma g l <= Z.of_nat (length l).
Proof.
  intros Hg. induction l as [|x l IH]; [done|]. change (somma g (x :: l)) with (g x + somma g l). cbn [length]. specialize (Hg x). lia.
Qed.

Lemma pochi_conti m D ext f : pochi D ext -> non_avvolta m D ext f.
Proof.
  intros H. unfold non_avvolta, usi. specialize (H f). pose proof (somma_length (uso m f) (elenco_usi D) ltac:(intros; apply uso_range)). lia.
Qed.

(** At most a million places for each space. *)
Lemma length_usi D : Z.of_nat (length (elenco_usi D)) <= 1033201 * Z.of_nat (length D).
Proof.
  assert (HI : (length IU <= 1008)%nat).
  { unfold IU. etrans; [apply List.filter_length_le|]. by rewrite length_seqZ. }
  assert (HB : forall {A B} (g : A -> list B) k l, (forall x, (length (g x) <= k)%nat) -> (length (l ≫= g) <= length l * k)%nat).
  { intros A B g k l Hg. induction l as [|x l IHl]; [done|]. rewrite bind_cons, length_app. specialize (Hg x). cbn [length]. lia. }
  unfold elenco_usi. rewrite !length_app, length_fmap.
  pose proof (HB _ _ (fun d => UTab d <$> IU) 1008%nat D ltac:(intros x; cbn beta; rewrite length_fmap; exact HI)) as H1.
  assert (H2 : (length (D ≫= fun d => IU ≫= fun i => UDat d i <$> JU) <= length D * (1008 * 1024))%nat).
  { apply HB. intros d. etrans; [apply (HB _ _ _ 1024%nat); intros i; rewrite length_fmap; unfold JU; by rewrite length_seqZ|]. lia. }
  lia.
Qed.

(** A page of the program alone, that it may write. *)
Definition propria m D (e : Z) : Prop :=
  contata m e = true /\ ha e PG_WRITABLE = true /\ ha e PG_COW = false /\ usi m D (tab e) = 1.

Section Voce.

Context m D ext dma (SP : spazi m D ext dma) d i j (Hu : in_usi D (UDat d i j)) (Hp : presente m d i = true).

Let pte := voce m d i j.
Let pt := tab (fis m d i).

(** The frame has one owner. *)
Lemma cow_da_solo m' :
  PTE_E_COW pte = true -> ext (tab pte) + usi m D (tab pte) <= 1 -> m' = metti pt j (cow_propria pte) m ->
  spazi m' D ext dma /\ tiene m D nessuno m' /\ propria m' D (voce m' d i j).
Proof.
  intros Hc Ho ->. set (m' := metti pt j (cow_propria pte) m).
  pose proof (voce_parola m D ext dma SP d i j) as Hw. fold pte in Hw.
  destruct (sp_cow _ _ _ _ SP d i j Hu Hc) as (Hct & _ & Hnc). fold pte in Hct.
  destruct (cow_propria_ok pte Hw Hc) as (R & T & Pm & Bn & B1 & B10).
  assert (Hm : scritto m (tab (fis m d i)) j (cow_propria pte) m') by (split; [done|]; intros f k; done).
  destruct (contata_voce m pte (cow_propria pte) Hw R T Bn) as (Hcc & Hh & _). rewrite Hct in Hcc.
  assert (Hpp : ha pte PG_PRESENT = true) by (unfold contata in Hct; by apply andb_true_iff in Hct as [[? _]%andb_true_iff _]).
  rewrite Hpp in Hh.
  assert (Qu : forall f, usi m' D f = usi m D f).
  { intros f. rewrite (scritto_usi m D ext dma SP m' d i j _ Hu Hp Hm). cbn [uso]. fold pte. rewrite Hcc, T, Hct. lia. }
  assert (U1 : usi m' D (tab pte) = 1).
  { rewrite Qu. pose proof (contata_usi m D d i j Hu Hct) as U. fold pte in U. pose proof (sp_ext _ _ _ _ SP (tab pte)). lia. }
  assert (Hq : voce m' d i j = cow_propria pte) by (by apply (scritto_qui m D ext dma SP m' d i j)).
  split; [|split].
  - apply (scritto_spazi m D ext dma SP m' d i j _ Hu Hp Hm); try done.
    + rewrite SWAP_bit, <- ha_P, Hh. done.
    + intros Hcw. rewrite PTE_E_COW_bit, B10, andb_false_r in Hcw. done.
    + apply (sp_ext _ _ _ _ SP).
    + intros f Hf. by apply (sp_dma _ _ _ _ SP).
    + eapply pg_ext; [exact (sp_conti _ _ _ _ SP)|]. intros f. cbn beta. by rewrite Qu.
    + unfold voce_nuova_ok. rewrite Hcc, T. split; [|by left]. intros Hd. pose proof (proj2 (sp_dma _ _ _ _ SP _ Hd)). rewrite Qu in U1. lia.
  - apply (tiene_anche m D m' (UDat d i j)); [by apply (scritto_tiene m D ext dma m' d i j (cow_propria pte))|].
    intros ? ? ? [= <- <- <-]. rewrite Hq. unfold stessa_vista. fold pte.
    rewrite Hpp, T.
    split; [done|]. split; [done|]. intros k _. cbn [fis metti m']. rewrite (proj2 (Z.eqb_neq (tab pte) pt)); [done|].
    intros E. apply (voce_non_strutt m D ext dma SP d i j Hu Hpp). fold pte. rewrite E. right. destruct Hu as (? & ? & _). unfold pt. eauto 6.
  - rewrite Hq. unfold propria. rewrite (contata_totale m m') by done. rewrite ha_W, ha_C, B1, B10, T. done.
Qed.

(** The frame has others: a copy takes its place, and one owner leaves. *)
Lemma cow_copia m0 x :
  PTE_E_COW pte = true -> fis m0 = fis m -> stesso_totale m m0 -> 0 < x < pg_totale (pag m) -> ext x + usi m D x = 0 ->
  pg_stato (pag m0) (piu x 1 (fun f => ext f + usi m D f)) ->
  exists m3, pmm_free (tab pte * PAGE_SIZE) (metti pt j (voce_copia pte x) (riempi x (fis m (tab pte)) m0)) = Ok m3 /\
    spazi m3 D ext dma /\ tiene m D nessuno m3 /\ propria m3 D (voce m3 d i j).
Proof.
  intros Hc F Ht Hx Ho Hs. pose proof (voce_parola m D ext dma SP d i j) as Hw. fold pte in Hw.
  pose proof (pg_max _ _ (sp_conti _ _ _ _ SP)) as Hmx. unfold PMM_PAGINE_4GB in Hmx.
  destruct (sp_cow _ _ _ _ SP d i j Hu Hc) as (Hct & _ & Hnc). fold pte in Hct.
  destruct (voce_copia_ok pte x Hw ltac:(lia)) as (R & T & Pm & Bn & B10).
  assert (Hcow : Z.testbit pte 10 = true) by (rewrite PTE_E_COW_bit in Hc; by apply andb_true_iff in Hc as [_ ?]).
  destruct (pagina_fresca m D ext dma m0 x (fis m (tab pte)) SP Hx Ho F Ht Hs ltac:(intros; apply (sp_parole _ _ _ _ SP)))
    as (V & Hu0 & SP1 & T1 & Ns & Nd). set (m1 := riempi x (fis m (tab pte)) m0) in *.
  destruct (ti_pres _ _ _ _ T1 d i (proj1 Hu) (proj1 (proj2 Hu)) Hp) as [Hp1 Ept]. fold pt in Ept.
  pose proof (sv_voce _ _ _ V d i j Hu) as Ev. fold pte in Ev.
  set (m2 := metti pt j (voce_copia pte x) m1).
  assert (Hm : scritto m1 (tab (fis m1 d i)) j (voce_copia pte x) m2) by (rewrite Ept; split; [done|]; intros f k; done).
  assert (Ct : forall e, contata m1 e = contata m e) by (intros; apply contata_totale; apply V).
  assert (Hcc : contata m (voce_copia pte x) = true) by (by apply voce_copia_contata).
  assert (Qu : forall f, usi m2 D f = usi m D f + ((if f =? x then 1 else 0) - (if f =? tab pte then 1 else 0))).
  { intros f. rewrite (scritto_usi m1 D _ dma SP1 m2 d i j _ Hu Hp1 Hm), (sv_usi _ _ _ _ V). cbn [uso]. rewrite Ev, !Ct, Hcc, Hct, T.
    rewrite (Z.eqb_sym f x), (Z.eqb_sym f (tab pte)). unfold uno. destruct (x =? f), (tab pte =? f); cbn; lia. }
  pose proof (contata_usi m D d i j Hu Hct) as Upos. fold pte in Upos. pose proof (sp_ext _ _ _ _ SP (tab pte)) as Epos.
  assert (Nx : x <> tab pte) by (intros ->; lia).
  assert (Ux : usi m2 D x = 1).
  { rewrite Qu, Z.eqb_refl, (proj2 (Z.eqb_neq x (tab pte)) Nx). pose proof (sp_o m D ext dma SP x). lia. }
  assert (SP2 : spazi m2 D (piu (tab pte) 1 ext) dma).
  { apply (scritto_spazi m1 D _ dma SP1 m2 d i j _ Hu Hp1 Hm); try done.
    - rewrite SWAP_bit, <- ha_P, ha_P, Bn by lia. rewrite PTE_E_COW_bit in Hc. by apply andb_true_iff in Hc as [-> _].
    - intros Hcw. rewrite PTE_E_COW_bit, B10, andb_false_r in Hcw. done.
    - intros f. unfold piu. pose proof (sp_ext _ _ _ _ SP f). destruct (f =? tab pte); lia.
    - intros f Hf. unfold piu. pose proof (proj1 (sp_dma _ _ _ _ SP f Hf)). destruct (f =? tab pte); lia.
    - eapply pg_ext; [exact Hs|]. intros f. cbn beta. rewrite Qu. unfold piu. lia.
    - unfold voce_nuova_ok. rewrite Ct, Hcc, T. split; [done | by left]. }
  unfold pmm_free. destruct (pg_free_ok (pag m2) _ (tab pte) (sp_conti _ _ _ _ SP2)) as (p3 & E & Ht3 & Hs3).
  { unfold piu. rewrite Z.eqb_refl. pose proof (usi_nonneg m2 D (tab pte)). lia. }
  rewrite E. cbn [mbind run_bind]. set (m3 := con_pag p3 m2).
  assert (V3 : stesse_voci m2 m3 D) by (apply fuori_stesse; [exact Ht3 | done]).
  assert (Hq : voce m3 d i j = voce_copia pte x) by (exact (scritto_qui m1 D _ dma SP1 m2 d i j _ Hu Hp1 Hm)).
  exists m3. split; [reflexivity|]. split; [|split].
  - apply (spazi_conti m2 D _ dma m3 ext SP2); try done; [apply (sp_ext _ _ _ _ SP) | intros f Hf; by apply (sp_dma _ _ _ _ SP)|].
    eapply pg_ext; [exact Hs3|]. intros f. unfold piu. destruct (f =? tab pte); lia.
  - apply (tiene_anche m D m3 (UDat d i j)).
    + apply (tiene_trans m D nessuno m1 (fun s => s = UDat d i j)); [done | | unfold nessuno; intros s [|]; done].
      apply (tiene_trans m1 D (fun s => s = UDat d i j) m2 nessuno); [| by apply tiene_pag | unfold nessuno; intros s [|]; done].
      by apply (scritto_tiene m1 D _ dma m2 d i j (voce_copia pte x) SP1).
    + intros ? ? ? [= <- <- <-]. rewrite Hq. fold pte. unfold stessa_vista. rewrite PTE_E_COW_bit in Hc. apply andb_true_iff in Hc as [Hc0 _].
      rewrite !ha_P, Bn, Hc0, T by lia. split; [done|]. split; [done|]. intros k Hk.
      cbn [fis m3 con_pag m2 metti m1 riempi]. assert (Nxp : x <> pt).
      { intros ->. apply Ns. rewrite <- Ept. right. destruct Hu as (? & ? & _). eauto 6. }
      rewrite (proj2 (Z.eqb_neq x pt) Nxp), Z.eqb_refl, (proj2 (Z.leb_le 0 k)), (proj2 (Z.ltb_lt k 1024)) by lia. done.
  - rewrite Hq. unfold propria. assert (Ht' : stesso_totale m m3) by (unfold stesso_totale in *; cbn in *; congruence).
    rewrite (contata_totale m m3 _ Ht'), T, (sv_usi _ _ _ _ V3), ha_W, ha_C, B10. split; [done|]. split; [|done].
    apply voce_copia_w. done.
Qed.

End Voce.

(** ** The tests before *)

Lemma pagina_range i j : 16 <= i < PD_INDEX USER_SPACE_END -> 0 <= j < 1024 ->
  (va i j <? USER_SPACE_BASE) || (USER_SPACE_END <=? va i j) = false.
Proof.
  intros Hi Hj. change (PD_INDEX USER_SPACE_END) with 768 in Hi.
  apply orb_false_iff. rewrite Z.ltb_ge, Z.leb_gt. unfold USER_SPACE_BASE, USER_SPACE_END, va. lia.
Qed.

Lemma frame_pagina x : frame (x * PAGE_SIZE) = x.
Proof. by apply Z.div_mul. Qed.

Lemma PG_ADDR_pagina x : 0 <= x < 1048576 -> PG_ADDR (x * PAGE_SIZE) = x * PAGE_SIZE.
Proof.
  intros Hx. rewrite PG_ADDR_tab by (unfold PAGE_SIZE, W32; lia). f_equal.
  pose proof (proj2 (tab_lor x 0 Hx ltac:(lia))) as E. by rewrite Z.lor_0_r in E.
Qed.

Lemma cow_risolvi_spec k m D ext dma d i j :
  spazi m D ext dma -> in_usi D (UDat d i j) -> i < PD_INDEX USER_SPACE_END -> non_avvolta m D ext (tab (voce m d i j)) ->
  exists r m', cow_risolvi (S k) (Some d) (va i j) m = Ok (r, m') /\ spazi m' D ext dma /\ tiene m D nessuno m' /\
    if PTE_E_COW (voce m d i j) then r = 1 /\ propria m' D (voce m' d i j) \/ r = -1 /\ fis m' = fis m
    else r = 0 /\ m' = m.
Proof.
  intros SP Hu Hi Hna. destruct Hu as (Hd & Hut & Hj). assert (Hu : in_usi D (UDat d i j)) by done.
  pose proof (utente_range i Hut) as Hir. cbn [cow_risolvi cow_loop]. rewrite pagina_range by lia.
  unfold TAB_C_E, TAB_GRANDE, TAB_DI. destruct (va_indici i j ltac:(lia) Hj) as [Ei Ej]. rewrite !Ei, !Ej. fold (presente m d i).
  destruct (presente m d i) eqn:Hp; cbn [negb orb].
  2:{ eexists 0, m. split; [reflexivity|]. split; [done|]. split; [apply tiene_refl|]. unfold voce. rewrite Hp. done. }
  rewrite (sp_huge _ _ _ _ SP d i Hd Hut Hp).
  assert (Ev : fis m (tab (fis m d i)) j = voce m d i j) by (unfold voce; by rewrite Hp). rewrite Ev.
  destruct (PTE_E_COW (voce m d i j)) eqn:Hc; cbn [negb].
  2:{ eexists 0, m. split; [reflexivity|]. split; [done|]. split; [apply tiene_refl | done]. }
  pose proof (voce_parola m D ext dma SP d i j) as Hw. rewrite (PG_ADDR_tab _ Hw).
  destruct (sp_cow _ _ _ _ SP d i j Hu Hc) as (Hct & _ & _). pose proof (contata_usi m D d i j Hu Hct) as Upos.
  pose proof (sp_ext _ _ _ _ SP (tab (voce m d i j))) as He. unfold non_avvolta in Hna.
  pose proof (pg_conta_ok (pag m) _ (tab (voce m d i j)) (sp_conti _ _ _ _ SP) ltac:(lia)) as Ec. cbn beta in Ec.
  rewrite u32_small in Ec by lia. rewrite Ec. cbn [mbind run_bind].
  destruct (Z.leb_spec (ext (tab (voce m d i j)) + usi m D (tab (voce m d i j))) 1) as [Hn|Hn].
  { eexists 1, _. split; [reflexivity|]. destruct (cow_da_solo m D ext dma SP d i j Hu Hp _ Hc ltac:(lia) eq_refl) as (S1 & S2 & S3). auto. }
  destruct (pagina_utente_spec m _ (sp_conti _ _ _ _ SP)) as ([a m0] & Ea & F & Ft & Hr). rewrite Ea. cbn [mbind run_bind fst snd] in *.
  destruct Hr as [[-> Hs]|(x & -> & Hx & Ho & Hs)].
  - cbn [Z.eqb]. eexists (-1), m0. split; [reflexivity|]. split; [by apply (spazi_pag m)|]. split; [by apply tiene_pag|]. by right.
  - rewrite (proj2 (Z.eqb_neq (x * PAGE_SIZE) 0)) by (unfold PAGE_SIZE; lia). rewrite F, Ev, Z.eqb_refl. cbn [negb].
    pose proof (pg_max _ _ (sp_conti _ _ _ _ SP)) as Hmx. unfold PMM_PAGINE_4GB in Hmx.
    destruct (cow_copia m D ext dma SP d i j Hu Hp m0 x Hc F Ft Hx Ho Hs) as (m3 & E3 & S1 & S2 & S3).
    unfold cow_copia_fisica. rewrite !frame_pagina, F, PG_ADDR_pagina by lia.
    assert (Hv : Z.lor (Z.lor (senza_bit (Z.lxor (voce m d i j) (tab (voce m d i j) * PAGE_SIZE)) PG_COW) PG_WRITABLE) (x * PAGE_SIZE) =
                 voce_copia (voce m d i j) x).
    { unfold voce_copia. rewrite PTE_E_COW_bit in Hc. apply andb_true_iff in Hc as [_ Hc]. rewrite ha_C, Hc, (PG_ADDR_tab _ Hw).
      rewrite <- !Z.lor_assoc. f_equal. apply Z.lor_comm. }
    rewrite Hv, E3. cbn [mbind run_bind]. eexists 1, m3. split; [reflexivity|]. split; [done|]. split; [done|]. by left.
Qed.

(** ** A write by the program *)

(** Another present entry does not name the frame of a page of the program alone. *)
Lemma propria_sola m D ext dma d i j d' i' j' :
  spazi m D ext dma -> in_usi D (UDat d i j) -> propria m D (voce m d i j) -> in_usi D (UDat d' i' j') ->
  UDat d' i' j' <> UDat d i j -> ha (voce m d' i' j') PG_PRESENT = true -> tab (voce m d' i' j') <> tab (voce m d i j).
Proof.
  intros SP Hu (Hc & _ & _ & U1) Hu' Ne Hh E. set (f := tab (voce m d i j)) in *.
  pose proof (sp_o m D ext dma SP f) as (He & _ & Hr). destruct (contata m (voce m d' i' j')) eqn:Ec.
  { apply Ne. apply (usi_uno m D f _ _ (sp_nodup _ _ _ _ SP)); [lia | done | done | by apply uso_dat | by apply uso_dat]. }
  destruct (fissa m (voce m d' i' j')) eqn:Ef.
  { pose proof (sp_fissa _ _ _ _ SP d' i' j' Hu' Ef) as Hd. rewrite E in Hd. pose proof (sp_dma _ _ _ _ SP f Hd). lia. }
  destruct (PMM_OLTRE_RAM (PG_ADDR (voce m d' i' j')) m) eqn:Eo.
  2:{ unfold contata in Ec. unfold fissa in Ef. rewrite Hh, Eo in Ec, Ef. destruct (ha (voce m d' i' j') PG_FISSA); done. }
  unfold contata in Hc. rewrite !andb_true_iff, !negb_true_iff in Hc. destruct Hc as [[_ Hc] _]. unfold PMM_OLTRE_RAM in Eo, Hc.
  rewrite PG_ADDR_tab in Eo, Hc by (apply (voce_parola m D ext dma); done). rewrite E in Eo. fold f in Hc. congruence.
Qed.

Lemma scrive_propria m D ext dma d i j k v :
  spazi m D ext dma -> in_usi D (UDat d i j) -> propria m D (voce m d i j) -> 0 <= v < W32 ->
  spazi (metti (tab (voce m d i j)) k v m) D ext dma /\
  tiene m D (fun s => s = UDat d i j) (metti (tab (voce m d i j)) k v m) /\
  voce (metti (tab (voce m d i j)) k v m) d i j = voce m d i j.
Proof.
  intros SP Hu Hpr Hv. set (f := tab (voce m d i j)). set (m' := metti f k v m).
  assert (Hh : ha (voce m d i j) PG_PRESENT = true).
  { destruct Hpr as (Hc & _). unfold contata in Hc. by apply andb_true_iff in Hc as [[? _]%andb_true_iff _]. }
  pose proof (voce_non_strutt m D ext dma SP d i j Hu Hh) as Ns. fold f in Ns.
  assert (F : forall g w, g <> f -> fis m' g w = fis m g w) by (intros g w N; cbn [fis m' metti]; by rewrite (proj2 (Z.eqb_neq g f) N)).
  assert (V : stesse_voci m m' D) by (apply fuori_stesse; [done|]; intros g w Hg; apply F; intros ->; done).
  split; [|split].
  - apply (spazi_stesse m m' D ext ext dma SP V).
    + intros g w. cbn [fis m' metti]. destruct (_ && _); [done | apply (sp_parole _ _ _ _ SP)].
    + apply (sp_ext _ _ _ _ SP).
    + eapply pg_ext; [exact (sp_conti _ _ _ _ SP)|]. intros g. cbn beta. by rewrite (sv_usi _ _ _ _ V).
    + intros g Hg. by apply (sp_dma _ _ _ _ SP).
  - split.
    + done.
    + intros d' i' j' Hu' Ne. rewrite (sv_voce _ _ _ V) by done. apply vista_stessa_voce. intros Hh' w _. apply F.
      by apply (propria_sola m D ext dma d i j d' i' j').
    + intros d' i' H1 _. apply F. intros ->. apply Ns. by left.
    + intros d' i' H1 H2 H3. destruct (sv_dir _ _ _ V d' i' H1 H2) as (-> & -> & _). done.
  - by apply (sv_voce _ _ _ V).
Qed.

(** ** A promised page *)

(** The entry of the page that was promised by [e], in the frame [x]. *)
Definition voce_mantenuta (e x : Z) : Z := Z.lor (Z.lor (x * PAGE_SIZE) (Z.land e (Z.lor PG_USER PG_WRITABLE))) PG_PRESENT.

Lemma voce_mantenuta_ok e x : 0 <= x < 1048576 ->
  0 <= voce_mantenuta e x < W32 /\ tab (voce_mantenuta e x) = x /\
  (forall n, 0 <= n < 12 -> Z.testbit (voce_mantenuta e x) n = (n =? 0) || ((n =? 1) || (n =? 2)) && Z.testbit e n).
Proof.
  intros Hx. unfold voce_mantenuta. rewrite <- Z.lor_assoc. set (fl := Z.lor (Z.land e (Z.lor PG_USER PG_WRITABLE)) PG_PRESENT).
  change (Z.lor PG_USER PG_WRITABLE) with 6 in fl. change PG_PRESENT with 1 in fl.
  assert (B : forall n, 0 <= n -> Z.testbit fl n = (n =? 0) || ((n =? 1) || (n =? 2)) && Z.testbit e n).
  { intros n Hn. unfold fl. rewrite Z.lor_spec, Z.land_spec. destruct (Z.lt_ge_cases n 3) as [Hl|Hg].
    - assert (n = 0 \/ n = 1 \/ n = 2) as [->|[->| ->]] by lia; cbn; rewrite ?andb_true_r, ?andb_false_r, ?orb_false_r, ?orb_true_r; done.
    - rewrite (Z.bits_above_log2 6), (Z.bits_above_log2 1), andb_false_r by (cbn; lia).
      rewrite (proj2 (Z.eqb_neq n 0)), (proj2 (Z.eqb_neq n 1)), (proj2 (Z.eqb_neq n 2)) by lia. done. }
  assert (R : 0 <= fl < 4096) by (apply bit_sotto; intros n Hn; rewrite B by lia;
    rewrite (proj2 (Z.eqb_neq n 0)), (proj2 (Z.eqb_neq n 1)), (proj2 (Z.eqb_neq n 2)) by lia; done).
  destruct (tab_lor x fl Hx R) as [R1 T]. split; [done|]. split; [done|]. intros n Hn. rewrite Z.lor_spec, bit_indirizzo by done. apply B. lia.
Qed.

Lemma PTE_E_PIGRA_assente e : PTE_E_PIGRA e = true -> ha e PG_PRESENT = false.
Proof.
  unfold PTE_E_PIGRA. intros E%Z.eqb_eq. pose proof (f_equal (fun x => Z.testbit x 0) E) as B. cbv beta in B.
  rewrite Z.land_spec, andb_true_r in B. by rewrite ha_P, B.
Qed.

(** The page that replaces an absent entry. *)
Lemma pigra_scrive m D ext dma d i j m0 x :
  spazi m D ext dma -> in_usi D (UDat d i j) -> presente m d i = true -> ha (voce m d i j) PG_PRESENT = false ->
  fis m0 = fis m -> stesso_totale m m0 -> 0 < x < pg_totale (pag m) -> ext x + usi m D x = 0 ->
  pg_stato (pag m0) (piu x 1 (fun f => ext f + usi m D f)) ->
  let e := voce_mantenuta (voce m d i j) x in
  let m' := metti (tab (fis m d i)) j e (riempi x (fun _ => 0) m0) in
  spazi m' D ext dma /\ tiene m D (fun s => s = UDat d i j) m' /\ voce m' d i j = e /\ usi m' D x = 1 /\
  forall k, 0 <= k < 1024 -> fis m' x k = 0.
Proof.
  intros SP Hu Hp Ha F Ht Hx Ho Hs e m'. pose proof (pg_max _ _ (sp_conti _ _ _ _ SP)) as Hmx. unfold PMM_PAGINE_4GB in Hmx.
  destruct (voce_mantenuta_ok (voce m d i j) x ltac:(lia)) as (R & T & B). fold e in R, T, B.
  destruct (pagina_fresca m D ext dma m0 x (fun _ => 0) SP Hx Ho F Ht Hs ltac:(done)) as (V & Hu0 & SP1 & T1 & Ns & Nd).
  set (m1 := riempi x (fun _ => 0) m0) in *.
  destruct (ti_pres _ _ _ _ T1 d i (proj1 Hu) (proj1 (proj2 Hu)) Hp) as [Hp1 Ept].
  assert (Hm : scritto m1 (tab (fis m1 d i)) j e m') by (rewrite Ept; split; [done|]; intros f k; done).
  assert (Hcc : contata m1 e = true).
  { rewrite (contata_totale m m1) by apply V. unfold contata. rewrite ha_P, ha_F, !B by lia. cbn [Z.eqb orb andb negb].
    unfold PMM_OLTRE_RAM. rewrite PG_ADDR_tab, T, u32_small by (done || (unfold PAGE_SIZE, W32; lia)).
    rewrite andb_true_r. apply negb_true_iff, Z.leb_gt. unfold PAGE_SIZE. lia. }
  assert (Hold : forall f, uso m1 f (UDat d i j) = 0).
  { intros f. cbn [uso]. rewrite (sv_voce _ _ _ V d i j Hu). unfold contata. by rewrite Ha. }
  assert (Qu : forall f, usi m' D f = usi m D f + (if f =? x then 1 else 0)).
  { intros f. rewrite (scritto_usi m1 D _ dma SP1 m' d i j e Hu Hp1 Hm), (sv_usi _ _ _ _ V), Hold, Hcc, T, (Z.eqb_sym f x).
    unfold uno. destruct (x =? f); cbn; lia. }
  assert (Ux : usi m' D x = 1) by (rewrite Qu, Z.eqb_refl; pose proof (sp_o m D ext dma SP x); lia).
  split; [|split; [|split; [|split]]]; [| | |done|].
  - apply (scritto_spazi m1 D _ dma SP1 m' d i j e Hu Hp1 Hm); try done.
    + rewrite SWAP_bit, B by lia. done.
    + intros Hcw. rewrite PTE_E_COW_bit, (B 10), andb_false_r in Hcw by lia. done.
    + apply (sp_ext _ _ _ _ SP).
    + intros f Hf. by apply (sp_dma _ _ _ _ SP).
    + eapply pg_ext; [exact Hs|]. intros f. cbn beta. rewrite Qu. unfold piu. lia.
    + unfold voce_nuova_ok. rewrite Hcc, T. split; [done | by left].
  - apply (tiene_trans m D nessuno m1 (fun s => s = UDat d i j)); [done | | unfold nessuno; intros s [|]; done].
    by apply (scritto_tiene m1 D _ dma m' d i j e SP1).
  - by apply (scritto_qui m1 D _ dma SP1 m' d i j).
  - intros k Hk. cbn [fis m' metti m1 riempi]. rewrite (proj2 (Z.eqb_neq x (tab (fis m d i)))).
    2:{ intros E. apply Ns. rewrite E, <- Ept. right. destruct Hu as (? & ? & _). eauto 6. }
    rewrite Z.eqb_refl, (proj2 (Z.leb_le 0 k)), (proj2 (Z.ltb_lt k 1024)) by lia. done.
Qed.

Lemma pigra_tocca_spec m D ext dma d i j :
  spazi m D ext dma -> in_usi D (UDat d i j) -> i < PD_INDEX USER_SPACE_END ->
  exists r m', paging_pigra_tocca (Some d) (va i j) m = Ok (r, m') /\ spazi m' D ext dma /\ tiene m D (fun s => s = UDat d i j) m' /\
    if PTE_E_PIGRA (voce m d i j)
    then r = 1 /\ (exists x, voce m' d i j = voce_mantenuta (voce m d i j) x /\ 0 < x < pg_totale (pag m') /\ usi m' D x = 1 /\
                     forall k, 0 <= k < 1024 -> fis m' x k = 0) \/
         r = 0 /\ fis m' = fis m
    else r = 0 /\ m' = m.
Proof.
  intros SP Hu Hi. destruct Hu as (Hd & Hut & Hj). assert (Hu : in_usi D (UDat d i j)) by done.
  pose proof (utente_range i Hut) as Hir. unfold paging_pigra_tocca, PAGINA_DI. rewrite va_allineata, pagina_range by lia.
  unfold TAB_C_E, TAB_GRANDE, TAB_DI. destruct (va_indici i j ltac:(lia) Hj) as [Ei Ej]. rewrite !Ei, !Ej. fold (presente m d i).
  destruct (presente m d i) eqn:Hp; cbn [negb orb].
  2:{ eexists 0, m. split; [reflexivity|]. split; [done|]. split; [apply tiene_refl|]. unfold voce. rewrite Hp. done. }
  rewrite (sp_huge _ _ _ _ SP d i Hd Hut Hp).
  assert (Ev : fis m (tab (fis m d i)) j = voce m d i j) by (unfold voce; by rewrite Hp). rewrite Ev.
  destruct (PTE_E_PIGRA (voce m d i j)) eqn:Hg; cbn [negb].
  2:{ eexists 0, m. split; [reflexivity|]. split; [done|]. split; [apply tiene_refl | done]. }
  destruct (pagina_utente_spec m _ (sp_conti _ _ _ _ SP)) as ([a m0] & Ea & F & Ft & Hr). rewrite Ea. cbn [mbind run_bind fst snd] in *.
  destruct Hr as [[-> Hs]|(x & -> & Hx & Ho & Hs)].
  { cbn [Z.eqb]. eexists 0, m0. split; [reflexivity|]. split; [by apply (spazi_pag m)|]. split; [by apply tiene_pag|]. by right. }
  rewrite (proj2 (Z.eqb_neq (x * PAGE_SIZE) 0)) by (unfold PAGE_SIZE; lia).
  pose proof (pg_max _ _ (sp_conti _ _ _ _ SP)) as Hmx. unfold PMM_PAGINE_4GB in Hmx.
  assert (Etx : tab (x * PAGE_SIZE) = x) by (unfold tab; by rewrite PG_ADDR_pagina, frame_pagina by lia).
  unfold paging_azzera_fisica. rewrite !Etx, !PG_ADDR_pagina by lia.
  destruct (libera_fuori m D ext dma SP x Ho) as (Ns & _ & _).
  assert (Er : fis (riempi x (fun _ => 0) m0) (tab (fis m d i)) j = voce m d i j).
  { cbn [fis riempi]. rewrite F, Ev. rewrite (proj2 (Z.eqb_neq (tab (fis m d i)) x)); [done|]. intros <-. apply Ns. right. eauto 6. }
  rewrite Er, Hg. cbn [negb]. fold (voce_mantenuta (voce m d i j) x).
  pose proof (pigra_scrive m D ext dma d i j m0 x SP Hu Hp (PTE_E_PIGRA_assente _ Hg) F Ft Hx Ho Hs) as (S1 & S2 & S3 & S4 & S5).
  eexists 1, _. split; [reflexivity|]. split; [exact S1|]. split; [exact S2|]. left. split; [done|]. exists x.
  split; [exact S3|]. split; [|exact (conj S4 S5)]. pose proof (ti_totale _ _ _ _ S2) as Q. unfold stesso_totale in Q. rewrite Q. exact Hx.
Qed.

End PagingCow.
