(* ===== verification/PagingDir.v ===== *)
(** * Directories made and destroyed

    [paging_destroy_directory] gives back exactly the uses that the directory had, in
    the order of the loops; [paging_create_directory] adds an empty space. *)

From S2P Require Import Prelude Pmm Pagine Paging PagingBit PagingSpec PagingPassi PagingVista.

Section PagingDir.

Context {P : Type} {PG : Pagine P} {PO : PagineOk P} {ST : Statiche}.

Implicit Types (m : Mondo P) (D : list Z).

(** ** The uses of one directory *)

Definition usi_tabella (d i : Z) : list Uso := (UDat d i <$> JU) ++ [UTab d i].
Definition usi_da (d i : Z) (n : nat) : list Uso := List.filter utente (seqZ i (Z.of_nat n)) ≫= usi_tabella d.
Definition usi_dir (d : Z) : list Uso := usi_da d 16 1008 ++ [UDir d].

Definition senza (d : Z) (D : list Z) : list Z := filter (fun x => x <> d) D.

Lemma elem_senza d D x : x ∈ senza d D <-> x ∈ D /\ x <> d.
Proof. unfold senza. rewrite list_elem_of_filter. tauto. Qed.

Lemma senza_fuori x D : x ∉ D -> senza x D = D.
Proof.
  unfold senza. induction D as [|y D IH]; [done|]. rewrite not_elem_of_cons. intros [N1 N2].
  rewrite filter_cons_True by congruence. by rewrite IH.
Qed.

Lemma elem_usi_tabella d i s : s ∈ usi_tabella d i <-> s = UTab d i \/ exists j, s = UDat d i j /\ 0 <= j < 1024.
Proof.
  unfold usi_tabella. rewrite elem_of_app, list_elem_of_singleton, list_elem_of_fmap. setoid_rewrite elem_JU. tauto.
Qed.

Lemma elem_usi_dir d s :
  s ∈ usi_dir d <-> s = UDir d \/ exists i, utente i = true /\ (s = UTab d i \/ exists j, s = UDat d i j /\ 0 <= j < 1024).
Proof.
  unfold usi_dir, usi_da. change (List.filter utente (seqZ 16 (Z.of_nat 1008))) with IU. rewrite elem_of_app, list_elem_of_singleton, list_elem_of_bind.
  split.
  - intros [(i & Hs & Hi)| ->]; [right | by left]. exists i. by rewrite elem_IU in Hi; rewrite elem_usi_tabella in Hs.
  - intros [->|(i & Hi & Hs)]; [by right | left]. exists i. by rewrite elem_usi_tabella, elem_IU.
Qed.

Lemma nodup_usi_dir d : NoDup (usi_dir d).
Proof.
  unfold usi_dir, usi_da. change (List.filter utente (seqZ 16 (Z.of_nat 1008))) with IU. apply NoDup_app.
  split; [|split; [|apply NoDup_singleton]].
  - apply NoDup_bind.
    + intros i i' s _ _ H1 H2. apply elem_usi_tabella in H1 as [->|(? & -> & _)]; apply elem_usi_tabella in H2 as [E|(? & E & _)]; congruence.
    + intros i _. unfold usi_tabella. apply NoDup_app. split; [apply NoDup_fmap_2; [congruence | apply nodup_JU]|].
      split; [|apply NoDup_singleton]. intros s Hs H. apply list_elem_of_singleton in H as ->. apply list_elem_of_fmap in Hs as (? & ? & _). done.
    + apply nodup_IU.
  - intros s Hs H. apply list_elem_of_singleton in H as ->. apply list_elem_of_bind in Hs as (i & Hs & _).
    apply elem_usi_tabella in Hs as [|(? & ? & _)]; done.
Qed.

Lemma somma_perm {A} (g : A -> Z) l k : l ≡ₚ k -> somma g l = somma g k.
Proof. induction 1; rewrite ?somma_cons in *; lia || congruence. Qed.

(** The uses of the others, and those of [d]. *)
Lemma usi_senza m D d f : NoDup D -> d ∈ D -> usi m D f = usi m (senza d D) f + somma (uso m f) (usi_dir d).
Proof.
  intros HD Hd. unfold usi. rewrite <- somma_app. apply somma_perm, NoDup_Permutation.
  - by apply nodup_usi.
  - apply NoDup_app. split; [apply nodup_usi; by apply NoDup_filter|]. split; [|apply nodup_usi_dir].
    intros s Hs H. apply elem_usi in Hs. apply elem_usi_dir in H as [->|(i & _ & [->|(j & -> & _)])]; cbn [in_usi] in Hs;
      rewrite elem_senza in Hs; tauto.
  - intros s. rewrite elem_of_app, !elem_usi, elem_usi_dir. destruct s as [d'|d' i|d' i j]; cbn [in_usi]; rewrite elem_senza.
    + destruct (Z.eq_dec d' d) as [->|Ne]; [tauto|]. split; [tauto|]. intros [|[|(? & _ & [|(? & ? & _)])]]; try tauto; congruence.
    + destruct (Z.eq_dec d' d) as [->|Ne].
      * split; [intros []; eauto 6|]. intros [|[|(i' & ? & [[= ->]|(? & ? & _)])]]; done || tauto.
      * split; [tauto|]. intros [|[|(i' & ? & [[= -> ->]|(? & ? & _)])]]; done || tauto.
    + destruct (Z.eq_dec d' d) as [->|Ne].
      * split; [intros (? & ? & ?); eauto 8|]. intros [|[|(i' & ? & [|(j' & [= -> ->] & ?)])]]; done || tauto.
      * split; [tauto|]. intros [|[|(i' & ? & [|(j' & [= -> -> ->] & ?)])]]; done || tauto.
Qed.

Lemma uso_stesso m m' f s : fis m' = fis m -> stesso_totale m m' -> uso m' f s = uso m f s.
Proof.
  intros F Ht. destruct s as [d|d i|d i j]; cbn [uso]; unfold presente, voce, presente; rewrite ?F; [done | done |].
  by rewrite (contata_totale m m').
Qed.

(** ** [paging_destroy_directory] *)

Section Distruggi.

Context {SC : Scambio P}.

(** One use given back. *)
Lemma rende_uso m (R : Z -> Z) f :
  pg_stato (pag m) (fun g => (if f =? g then 1 else 0) + R g) -> (forall g, 0 <= R g) ->
  exists m', pmm_free (f * PAGE_SIZE) m = Ok m' /\ fis m' = fis m /\ stesso_totale m m' /\ pg_stato (pag m') R.
Proof.
  intros Hs Hr. destruct (pg_free_ok (pag m) _ f Hs) as (p & E & Ht & Hs'). { rewrite Z.eqb_refl. pose proof (Hr f). lia. }
  unfold pmm_free. rewrite E. cbn [mbind run_bind]. eexists. split; [reflexivity|]. split; [done|]. split; [exact Ht|].
  eapply pg_ext; [exact Hs'|]. intros g. unfold piu. rewrite (Z.eqb_sym g f). destruct (f =? g); lia.
Qed.

Lemma libera_tabella_spec n : forall m d i j (R : Z -> Z),
  (forall f k, 0 <= fis m f k < W32) -> presente m d i = true -> (forall j', 0 <= j' < 1024 -> SWAP_PTE_E_SWAP (voce m d i j') = false) ->
  0 <= j -> j + Z.of_nat n = 1024 ->
  (forall g, 0 <= R g) -> pg_stato (pag m) (fun g => somma (uso m g) (UDat d i <$> seqZ j (Z.of_nat n)) + R g) ->
  exists m', libera_tabella n (tab (fis m d i)) j m = Ok m' /\ fis m' = fis m /\ stesso_totale m m' /\ pg_stato (pag m') R.
Proof.
  induction n as [|n IH]; intros m d i j R Hw Hp Hsw Hj Hn HR Hs; cbn [libera_tabella].
  { exists m. repeat split; try done. }
  assert (Ev : fis m (tab (fis m d i)) j = voce m d i j) by (unfold voce; by rewrite Hp). rewrite Ev, Hsw by lia.
  set (e := voce m d i j). assert (He : 0 <= e < W32) by (unfold e; rewrite <- Ev; apply Hw).
  set (R1 := fun g => somma (uso m g) (UDat d i <$> seqZ (j + 1) (Z.of_nat n)) + R g).
  assert (HR1 : forall g, 0 <= R1 g).
  { intros g. unfold R1. pose proof (HR g). pose proof (somma_nonneg (uso m g) (UDat d i <$> seqZ (j + 1) (Z.of_nat n)) ltac:(intros; apply uso_range)). lia. }
  assert (Hs1 : pg_stato (pag m) (fun g => uno (contata m e && (tab e =? g)) + R1 g)).
  { eapply pg_ext; [exact Hs|]. intros g. unfold R1. rewrite Nat2Z.inj_succ, (seqZ_cons j) by lia. rewrite Z.pred_succ.
    rewrite fmap_cons, somma_cons. cbn [uso]. fold e. unfold Z.succ.  lia. }
  assert (Hstep : exists m1, (if ha e PG_PRESENT then if PMM_OLTRE_RAM (PG_ADDR e) m then Ok m
        else if ha e PG_FISSA then Ok m else pmm_free (PG_ADDR e) m else Ok m) = Ok m1 /\ fis m1 = fis m /\ stesso_totale m m1 /\ pg_stato (pag m1) R1).
  { destruct (contata m e) eqn:Ec; cbn [andb] in Hs1.
    - destruct (rende_uso m R1 (tab e) Hs1 HR1) as (m1 & E1 & F1). exists m1. split; [|done]. unfold contata in Ec.
      rewrite !andb_true_iff, !negb_true_iff in Ec. destruct Ec as [[-> ->] ->]. by rewrite PG_ADDR_tab.
    - exists m. assert (pg_stato (pag m) R1) by (eapply pg_ext; [exact Hs1 | done]). split; [|done]. unfold contata in Ec.
      destruct (ha e PG_PRESENT); [|done]. destruct (PMM_OLTRE_RAM (PG_ADDR e) m); [done|]. by destruct (ha e PG_FISSA). }
  destruct Hstep as (m1 & E1 & F1 & T1 & S1). rewrite E1. cbn [mbind run_bind].
  destruct (IH m1 d i (j + 1) R) as (m2 & E2 & F2 & T2 & S2).
  - by rewrite F1.
  - unfold presente. by rewrite F1.
  - intros j'. unfold voce, presente. rewrite F1. apply Hsw.
  - lia.
  - lia.
  - done.
  - eapply pg_ext; [exact S1|]. intros g. unfold R1. f_equal. apply somma_ext. intros s _. by apply uso_stesso.
  - rewrite F1 in E2. exists m2. split; [done|]. split; [congruence|]. split; [unfold stesso_totale in *; congruence | done].
Qed.

Lemma libera_directory_spec n : forall m d i (R : Z -> Z),
  (forall f k, 0 <= fis m f k < W32) -> (forall i' j', utente i' = true -> 0 <= j' < 1024 -> SWAP_PTE_E_SWAP (voce m d i' j') = false) ->
  16 <= i -> i + Z.of_nat n = 1024 ->
  (forall g, 0 <= R g) -> pg_stato (pag m) (fun g => somma (uso m g) (usi_da d i n) + R g) ->
  exists m', libera_directory n d i m = Ok m' /\ fis m' = fis m /\ stesso_totale m m' /\ pg_stato (pag m') R.
Proof.
  induction n as [|n IH]; intros m d i R Hw Hsw Hi Hn HR Hs; cbn [libera_directory].
  { exists m. repeat split; try done. }
  set (R1 := fun g => somma (uso m g) (usi_da d (i + 1) n) + R g).
  assert (HR1 : forall g, 0 <= R1 g).
  { intros g. unfold R1. pose proof (HR g). pose proof (somma_nonneg (uso m g) (usi_da d (i + 1) n) ltac:(intros; apply uso_range)). lia. }
  assert (Eu : utente i = negb ((g_fb_pde_da <=? i) && (i <? g_fb_pde_a))).
  { unfold utente. by rewrite (proj2 (Z.leb_le 16 i)), (proj2 (Z.ltb_lt i 1024)) by lia. }
  assert (Hs1 : pg_stato (pag m) (fun g => (if utente i then somma (uso m g) (UDat d i <$> JU) + uso m g (UTab d i) else 0) + R1 g)).
  { eapply pg_ext; [exact Hs|]. intros g. unfold R1, usi_da. rewrite Nat2Z.inj_succ, (seqZ_cons i) by lia. rewrite Z.pred_succ. unfold Z.succ.
    cbn [List.filter]. destruct (utente i); [|done]. cbn [mbind list_bind]. rewrite somma_app. unfold usi_tabella at 2.
    rewrite somma_app, somma_cons. change (somma (uso m g) []) with 0. lia. }
  assert (Hstep : exists m1, (if (g_fb_pde_da <=? i) && (i <? g_fb_pde_a) then Ok m
       else if ha (fis m d i) PG_PRESENT then m ← libera_tabella 1024 (tab (fis m d i)) 0 m; pmm_free (PG_ADDR (fis m d i)) m else Ok m) = Ok m1 /\
     fis m1 = fis m /\ stesso_totale m m1 /\ pg_stato (pag m1) R1).
  { destruct ((g_fb_pde_da <=? i) && (i <? g_fb_pde_a)); cbn [negb] in Eu; rewrite Eu in Hs1.
    { exists m. repeat split; try done. }
    fold (presente m d i). destruct (presente m d i) eqn:Ep.
    - destruct (libera_tabella_spec 1024 m d i 0 (fun g => uso m g (UTab d i) + R1 g)) as (m1 & E1 & F1 & T1 & S1); try done.
      + intros j' Hj'. by apply Hsw.
      + intros g. pose proof (uso_range m g (UTab d i)). pose proof (HR1 g). lia.
      + eapply pg_ext; [exact Hs1|]. intros g. cbn beta iota. change (seqZ 0 (Z.of_nat 1024)) with JU. lia.
      + rewrite E1. cbn [mbind run_bind]. rewrite F1, (PG_ADDR_tab _ (Hw d i)).
        destruct (rende_uso m1 R1 (tab (fis m d i))) as (m2 & E2 & F2 & T2 & S2); [|done|].
        * eapply pg_ext; [exact S1|]. intros g. cbn [uso]. rewrite Ep. done.
        * exists m2. split; [done|]. split; [congruence|]. split; [unfold stesso_totale in *; congruence | done].
    - exists m. repeat split; try done. eapply pg_ext; [exact Hs1|]. intros g. cbn [uso]. rewrite Ep.
      rewrite somma_zero; [done|]. intros s Hs'. apply list_elem_of_fmap in Hs' as (j & -> & _). cbn [uso]. unfold voce. by rewrite Ep. }
  destruct Hstep as (m1 & E1 & F1 & T1 & S1). rewrite E1. cbn [mbind run_bind].
  destruct (IH m1 d (i + 1) R) as (m2 & E2 & F2 & T2 & S2); [by rewrite F1 | | lia | lia | done | |].
  - intros i' j'. unfold voce, presente. rewrite F1. apply Hsw.
  - eapply pg_ext; [exact S1|]. intros g. unfold R1. f_equal. apply somma_ext. intros s _. by apply uso_stesso.
  - exists m2. split; [done|]. split; [congruence|]. split; [unfold stesso_totale in *; congruence | done].
Qed.

(** The spaces that are left. *)
Lemma spazi_senza m D ext dma d m' :
  spazi m D ext dma -> d ∈ D -> fis m' = fis m -> stesso_totale m m' ->
  pg_stato (pag m') (fun f => ext f + usi m (senza d D) f) -> spazi m' (senza d D) ext dma.
Proof.
  intros SP Hd F Ht Hs. assert (U : forall f, usi m' (senza d D) f = usi m (senza d D) f).
  { intros f. apply usi_ext. intros s _. by apply uso_stesso. }
  assert (L : forall f, usi m' (senza d D) f <= usi m D f).
  { intros f. rewrite U, (usi_senza m D d f (sp_nodup _ _ _ _ SP) Hd).
    pose proof (somma_nonneg (uso m f) (usi_dir d) ltac:(intros; apply uso_range)). lia. }
  assert (I : forall s, in_usi (senza d D) s -> in_usi D s) by (intros [?|? ?|? ? ?]; cbn [in_usi]; rewrite elem_senza; tauto).
  assert (Ev : forall d i j, voce m' d i j = voce m d i j) by (intros; unfold voce, presente; by rewrite F).
  assert (Ep : forall d i, presente m' d i = presente m d i) by (intros; unfold presente; by rewrite F).
  split.
  - rewrite F. apply (sp_parole _ _ _ _ SP).
  - apply NoDup_filter, (sp_nodup _ _ _ _ SP).
  - apply (sp_ext _ _ _ _ SP).
  - eapply pg_ext; [exact Hs|]. intros f. cbn beta. by rewrite U.
  - intros d' i H1 H2. rewrite Ep, F. apply (sp_huge _ _ _ _ SP); [by apply elem_senza in H1 as [? _] | done].
  - intros f Hf. assert (HfD : strutt m D f).
    { destruct Hf as [Hf|(d' & i & H1 & H2 & H3 & H4)]; [left; by apply elem_senza in Hf as [? _]|]. right. exists d', i.
      rewrite <- Ep, <- F. by apply elem_senza in H1 as [? _]. }
    pose proof (L f) as Lf. rewrite (sp_strutt _ _ _ _ SP f HfD) in Lf. destruct (strutt_usi _ _ _ Hf) as (s & Hi & H1 & _).
    pose proof (usi_ge m' _ f s Hi H1). lia.
  - intros d' i j Hu. rewrite Ev. apply (sp_swap _ _ _ _ SP). by apply (I (UDat d' i j)).
  - intros d' i j Hu. rewrite Ev, (fissa_totale m m' _ Ht). apply (sp_fissa _ _ _ _ SP). by apply (I (UDat d' i j)).
  - intros f Hf. destruct (sp_dma _ _ _ _ SP f Hf) as [H1 H2]. split; [done|]. pose proof (L f). pose proof (usi_nonneg m' (senza d D) f). lia.
  - intros d' i j Hu. rewrite Ev, (contata_totale m m' _ Ht). intros Hc Hpr. pose proof (sp_priv _ _ _ _ SP d' i j (I _ Hu) Hc Hpr) as U1.
    pose proof (L (tab (voce m d' i j))) as Lf. rewrite U1 in Lf.
    assert (1 <= usi m' (senza d D) (tab (voce m d' i j))); [|lia]. rewrite <- Ev. apply contata_usi; [done|].
    by rewrite Ev, (contata_totale m m' _ Ht).
  - intros d' i j Hu. rewrite Ev. apply (cow_totale m m' _ Ht). apply (sp_cow _ _ _ _ SP). by apply (I (UDat d' i j)).
Qed.

Lemma destroy_directory_spec m D ext dma d :
  spazi m D ext dma -> d ∈ D -> d <> kernel_page_directory ->
  exists m', paging_destroy_directory (Some d) m = Ok m' /\ fis m' = fis m /\ stesso_totale m m' /\ spazi m' (senza d D) ext dma.
Proof.
  intros SP Hd Nk. set (o' := fun f => ext f + usi m (senza d D) f).
  assert (Ho' : forall f, 0 <= o' f).
  { intros f. unfold o'. pose proof (sp_ext _ _ _ _ SP f). pose proof (usi_nonneg m (senza d D) f). lia. }
  unfold paging_destroy_directory. rewrite (proj2 (Z.eqb_neq _ _) Nk).
  change (Z.to_nat (1024 - PD_INDEX USER_SPACE_BASE)) with 1008%nat. change (PD_INDEX USER_SPACE_BASE) with 16.
  destruct (libera_directory_spec 1008 m d 16 (fun g => (if d =? g then 1 else 0) + o' g)) as (m1 & E1 & F1 & T1 & S1).
  - apply (sp_parole _ _ _ _ SP).
  - intros i j Hi Hj.
    by apply (sp_swap _ _ _ _ SP).
  - lia.
  - lia.
  - intros g. pose proof (Ho' g). destruct (d =? g); lia.
  - eapply pg_ext; [exact (sp_conti _ _ _ _ SP)|]. intros g. cbn beta. rewrite (usi_senza m D d g (sp_nodup _ _ _ _ SP) Hd).
    unfold usi_dir, o'. rewrite somma_app, somma_cons. change (somma (uso m g) []) with 0. cbn [uso]. unfold uno. lia.
  - rewrite E1. cbn [mbind run_bind]. destruct (rende_uso m1 o' d S1 Ho') as (m2 & E2 & F2 & T2 & S2). exists m2.
    assert (F : fis m2 = fis m) by congruence. assert (T : stesso_totale m m2) by (unfold stesso_totale in *; congruence).
    split; [done|]. split; [done|]. split; [done|]. by apply (spazi_senza m).
Qed.

End Distruggi.

(** ** [paging_create_directory] *)

Section Crea.

Context m D ext dma (SP : spazi m D ext dma) m' (x : Z).
Context (Ht : stesso_totale m m') (Hx : 0 < x < pg_totale (pag m)) (Ho : ext x + usi m D x = 0).
Context (Hs : pg_stato (pag m') (piu x 1 (fun f => ext f + usi m D f))).
Context (Hf : forall f k, f <> x -> fis m' f k = fis m f k) (Hw : forall k, 0 <= fis m' x k < W32).
Context (Hz : forall i, utente i = true -> fis m' x i = 0).

Lemma crea_fuori : ~ strutt m D x /\ ~ dma x /\ x ∉ D.
Proof.
  destruct (libera_fuori m D ext dma SP x Ho) as (Ns & Nd & _). split; [done|]. split; [done|]. intros H. apply Ns. by left.
Qed.

Lemma crea_stesse : stesse_voci m m' D.
Proof. apply fuori_stesse; [done|]. intros f k H. apply Hf. intros ->. by apply (proj1 crea_fuori). Qed.

Lemma crea_vuota i j : utente i = true -> presente m' x i = false /\ voce m' x i j = 0.
Proof. intros Hi. assert (E : presente m' x i = false) by (unfold presente; by rewrite Hz). unfold voce. by rewrite E. Qed.

Lemma crea_usi f : usi m' (x :: D) f = usi m D f + (if x =? f then 1 else 0).
Proof.
  destruct crea_fuori as (_ & _ & Nx). rewrite (usi_senza m' (x :: D) x f).
  2:{ apply NoDup_cons. split; [done | apply (sp_nodup _ _ _ _ SP)]. } 2:{ left. }
  assert (E : senza x (x :: D) = D).
  { unfold senza. rewrite filter_cons_False by tauto. by apply senza_fuori. }
  rewrite E, (sv_usi _ _ _ _ crea_stesse). f_equal. unfold usi_dir. rewrite somma_app, somma_cons.
  change (somma (uso m' f) []) with 0. rewrite (somma_zero _ (usi_da x 16 1008)); [cbn [uso]; unfold uno; lia|].
  intros s Hin. assert (Hin' : s ∈ usi_dir x) by (unfold usi_dir; apply elem_of_app; by left).
  apply elem_usi_dir in Hin' as [->|(i & Hi & [->|(j & -> & _)])].
  - unfold usi_da in Hin. apply list_elem_of_bind in Hin as (i & Hin & _). by apply elem_usi_tabella in Hin as [|(? & ? & _)].
  - cbn [uso]. by rewrite (proj1 (crea_vuota i 0 Hi)).
  - cbn [uso]. by rewrite (proj2 (crea_vuota i j Hi)).
Qed.

Lemma crea_strutt f : strutt m' (x :: D) f -> f = x \/ strutt m D f.
Proof.
  intros [[->|H]%elem_of_cons|(d & i & [->|Hd]%elem_of_cons & Hi & Hp & E)]; [by left | right; by left | |].
  - by rewrite (proj1 (crea_vuota i 0 Hi)) in Hp.
  - right. right. exists d, i. destruct (sv_dir _ _ _ crea_stesse d i Hd Hi) as (E1 & E2 & _). by rewrite <- E1, <- E2.
Qed.

Lemma crea_spazi : spazi m' (x :: D) ext dma.
Proof.
  destruct crea_fuori as (Ns & Nd & Nx). pose proof crea_stesse as V.
  assert (Hux : usi m D x = 0) by (pose proof (sp_o m D ext dma SP x); lia).
  assert (I : forall d i j, in_usi (x :: D) (UDat d i j) -> voce m' d i j = 0 \/ in_usi D (UDat d i j) /\ voce m' d i j = voce m d i j).
  { intros d i j ([->|Hd]%elem_of_cons & Hi & Hj); [left; by apply crea_vuota | right; split; [done|]]. by apply (sv_voce _ _ _ V). }
  split.
  - intros f j. destruct (Z.eq_dec f x) as [->|Ne]; [done|]. rewrite Hf by done. apply (sp_parole _ _ _ _ SP).
  - apply NoDup_cons. split; [done | apply (sp_nodup _ _ _ _ SP)].
  - apply (sp_ext _ _ _ _ SP).
  - eapply pg_ext; [exact Hs|]. intros f. cbn beta. rewrite crea_usi. unfold piu. rewrite (Z.eqb_sym f x). lia.
  - intros d i [->|Hd]%elem_of_cons Hi Hp; [by rewrite (proj1 (crea_vuota i 0 Hi)) in Hp|].
    destruct (sv_dir _ _ _ V d i Hd Hi) as (E1 & _ & ->). apply (sp_huge _ _ _ _ SP); [done | done | by rewrite <- E1].
  - intros f [->|Hst]%crea_strutt; rewrite crea_usi; [rewrite Hux, Z.eqb_refl; done|].
    rewrite (sp_strutt _ _ _ _ SP f Hst), (proj2 (Z.eqb_neq x f)); [done|]. intros ->. done.
  - intros d i j Hu. destruct (I d i j Hu) as [->|[Hu' ->]]; [done | by apply (sp_swap _ _ _ _ SP)].
  - intros d i j Hu. rewrite (fissa_totale m m' _ Ht). destruct (I d i j Hu) as [->|[Hu' ->]]; [done | by apply (sp_fissa _ _ _ _ SP)].
  - intros f Hd. destruct (sp_dma _ _ _ _ SP f Hd) as [H1 H2]. split; [done|]. rewrite crea_usi, H2, (proj2 (Z.eqb_neq x f)); [done|].
    intros ->. done.
  - intros d i j Hu. rewrite (contata_totale m m' _ Ht). destruct (I d i j Hu) as [->|[Hu' ->]]; [done|]. intros Hc Hpr.
    pose proof (sp_priv _ _ _ _ SP d i j Hu' Hc Hpr) as U1. rewrite crea_usi, U1, (proj2 (Z.eqb_neq x _)); [done|]. intros E. rewrite <- E in U1. lia.
  - intros d i j Hu. apply (cow_totale m m' _ Ht). destruct (I d i j Hu) as [->|[Hu' ->]]; [done | by apply (sp_cow _ _ _ _ SP)].
Qed.

Lemma crea_tiene : tiene m D nessuno m'.
Proof.
  destruct crea_fuori as (Ns & _ & Nx). pose proof crea_stesse as V. split; [done | | |].
  - intros d i j Hu _. rewrite (sv_voce _ _ _ V) by done. apply vista_stessa_voce. intros Hp k _. apply Hf.
    by apply (libera_senza_voci m D ext dma x SP Ho (proj2 Hx) d i j).
  - intros d i Hd _. apply Hf. intros ->. done.
  - intros d i H1 H2 H3. destruct (sv_dir _ _ _ V d i H1 H2) as (-> & -> & _). done.
Qed.

End Crea.

Lemma create_directory_spec m D ext dma :
  spazi m D ext dma -> 0 < ext kernel_page_directory ->
  exists r m', paging_create_directory m = Ok (r, m') /\ stesso_totale m m' /\
    match r with
    | None => spazi m' D ext dma /\ fis m' = fis m
    | Some x => (x ∉ D) /\ x <> kernel_page_directory /\ spazi m' (x :: D) ext dma /\ tiene m D nessuno m' /\
        forall i, 0 <= i < 1024 -> fis m' x i = if utente i then 0 else fis m kernel_page_directory i
    end.
Proof.
  intros SP Hk. unfold paging_create_directory. pose proof (pg_alloc_kernel_ok (pag m) _ (sp_conti _ _ _ _ SP)) as [Ht Hr].
  destruct (pg_alloc_kernel (pag m)) as [a p]. cbn [fst snd] in *. destruct Hr as [[-> Hs]|(x & -> & Hx & Ho & Hs)].
  { cbn [Z.eqb]. eexists None, _. split; [reflexivity|]. split; [exact Ht|]. split; [by apply (spazi_pag m) | done]. }
  rewrite (proj2 (Z.eqb_neq (x * PAGE_SIZE) 0)) by (unfold PAGE_SIZE; lia).
  assert (Ex : frame (x * PAGE_SIZE) = x) by (by apply Z.div_mul). rewrite Ex. change (PD_INDEX USER_SPACE_BASE) with 16.
  assert (Nk : kernel_page_directory <> x).
  { intros E. rewrite <- E in Ho. pose proof (usi_nonneg m D kernel_page_directory). lia. }
  set (m' := mkMondo _ _). assert (Hm : forall f k, f <> x -> fis m' f k = fis m f k).
  { intros f k Ne. cbn [fis m' riempi con_pag]. by rewrite (proj2 (Z.eqb_neq f x) Ne). }
  assert (Hd : forall i, fis m' x i = if (g_fb_pde_da <=? i) && (i <? g_fb_pde_a) || (0 <=? i) && (i <? 16) then fis m kernel_page_directory i
                                      else if (0 <=? i) && (i <? 1024) then 0 else fis m x i).
  { intros i. cbn [fis m' riempi con_pag]. rewrite Z.eqb_refl, (proj2 (Z.eqb_neq _ _) Nk). cbn [andb].
    destruct ((g_fb_pde_da <=? i) && (i <? g_fb_pde_a)), ((0 <=? i) && (i <? 16)); done. }
  assert (Hz : forall i, utente i = true -> fis m' x i = 0).
  { intros i Hi. rewrite Hd. unfold utente in Hi. rewrite !andb_true_iff, negb_true_iff, Z.leb_le, Z.ltb_lt in Hi. destruct Hi as [[H1 H2] ->].
    rewrite (proj2 (Z.ltb_ge i 16)), (proj2 (Z.leb_le 0 i)), (proj2 (Z.ltb_lt i 1024)) by lia. done. }
  assert (Hw : forall k, 0 <= fis m' x k < W32).
  { intros k. rewrite Hd. repeat case_match; try apply (sp_parole _ _ _ _ SP). unfold W32. lia. }
  eexists (Some x), m'. split; [reflexivity|]. split; [exact Ht|]. split; [by apply (crea_fuori m D ext dma SP x Ho)|]. split; [done|].
  split; [by apply (crea_spazi m D ext dma SP m' x)|]. split; [by apply (crea_tiene m D ext dma SP m' x)|].
  intros i Hi. destruct (utente i) eqn:Eu; [by apply Hz|]. rewrite Hd. unfold utente in Eu.
  rewrite (proj2 (Z.leb_le 0 i)), (proj2 (Z.ltb_lt i 1024)) in * by lia. rewrite andb_true_r in Eu. cbn [andb].
  destruct ((g_fb_pde_da <=? i) && (i <? g_fb_pde_a)); [done|]. cbn [orb negb] in *. rewrite andb_true_r in Eu.
  by rewrite (proj2 (Z.ltb_lt i 16)) by (apply Z.leb_gt in Eu; lia).
Qed.

End PagingDir.
