(* ===== verification/PagingMappa.v ===== *)
(** * Mapping, unmapping, asking for the physical address

    A page passes from the hands of the kernel ([ext]) to a space and back; a page of
    4 MB that is split translates as before. *)

From S2P Require Import Prelude Bytes Pmm Pagine Paging PagingBit PagingSpec PagingPassi PagingVista.

(** ** Words *)

Lemma land_fff x : Z.land x 0xFFF = x mod 4096.
Proof. change 0xFFF with (Z.ones 12). by rewrite Z.land_ones by lia. Qed.

Lemma voce_mappa_ok f flags : 0 <= f < 1048576 -> let e := voce_mappa (f * PAGE_SIZE) flags in
  0 <= e < W32 /\ tab e = f /\ forall n, 0 <= n < 12 -> Z.testbit e n = Z.testbit flags n || (n =? 0).
Proof.
  intros Hf e. assert (Ee : e = Z.lor (f * PAGE_SIZE) (Z.lor (flags mod 4096) PG_PRESENT)).
  { unfold e, voce_mappa. rewrite land_fff, land_pagina by (unfold PAGE_SIZE, W32; lia).
    replace (f * PAGE_SIZE - (f * PAGE_SIZE) mod 4096) with (f * PAGE_SIZE) by (unfold PAGE_SIZE; rewrite Z.mod_mul; lia).
    by rewrite Z.lor_assoc. }
  assert (R : 0 <= Z.lor (flags mod 4096) PG_PRESENT < 4096).
  { apply bit_sotto. intros n Hn. pose proof (Z.mod_pos_bound flags 4096).
    rewrite Z.lor_spec, (bit_alto (flags mod 4096)), (bit_alto PG_PRESENT) by (unfold PG_PRESENT; lia). done. }
  rewrite Ee. destruct (tab_lor f _ Hf R) as [R1 T]. split; [done|]. split; [done|]. intros n Hn.
  rewrite !Z.lor_spec, bit_indirizzo, bit_mod4096 by done. cbn [orb]. change PG_PRESENT with (2 ^ 0).
  by rewrite Z.pow2_bits_eqb, (Z.eqb_sym 0) by lia.
Qed.

Lemma lor_offset f o : 0 <= o < 4096 -> Z.lor (f * PAGE_SIZE) o = f * PAGE_SIZE + o.
Proof. intros Ho. apply (lor_disjoint 12); [lia | by exists f | exact Ho]. Qed.

Lemma land_22 v : Z.land v 0x003FFFFF = v mod 4194304.
Proof. change 0x003FFFFF with (Z.ones 22). by rewrite Z.land_ones by lia. Qed.

Lemma land_base e : 0 <= e < W32 -> Z.land e 0xFFC00000 = e - e mod 4194304.
Proof. intros He. change 0xFFC00000 with (W32 - 2 ^ 22). by rewrite land_highmask by lia. Qed.

(** The flags of the small pages, and of the entry of their table. *)
Definition flags_4mb (e : Z) : Z := senza_bit (Z.land e 0xFFF) PG_HUGE.

Lemma flags_4mb_ok e : 0 <= flags_4mb e < 4096 /\ forall n, 0 <= n < 12 -> Z.testbit (flags_4mb e) n = Z.testbit e n && negb (n =? 7).
Proof.
  unfold flags_4mb. rewrite land_fff. pose proof (Z.mod_pos_bound e 4096). split.
  - apply bit_sotto. intros n Hn. unfold senza_bit. by rewrite Z.land_spec, (bit_alto (e mod 4096)) by lia.
  - intros n Hn. rewrite senza_bit_spec, bit_mod4096 by lia. change PG_HUGE with (2 ^ 7). by rewrite Z.pow2_bits_eqb, (Z.eqb_sym 7) by lia.
Qed.

(** A small page of a split one. *)
Lemma pte_4mb_ok e k : 0 <= e < W32 -> 0 <= k < 1024 -> let v := Z.lor (u32 (Z.land e 0xFFC00000 + k * PAGE_SIZE)) (flags_4mb e) in
  0 <= v < W32 /\ PG_ADDR v = e - e mod 4194304 + k * 4096 /\ ha v PG_PRESENT = ha e PG_PRESENT.
Proof.
  intros He Hk v. destruct (flags_4mb_ok e) as [R B]. assert (Ev : v = Z.lor ((e - e mod 4194304 + k * 4096) / 4096 * PAGE_SIZE) (flags_4mb e)).
  { unfold v. rewrite land_base, u32_small by (done || (unfold PAGE_SIZE, W32 in *; zdm)). f_equal. unfold PAGE_SIZE. zdm. }
  assert (Hr : 0 <= (e - e mod 4194304 + k * 4096) / 4096 < 1048576) by (unfold W32 in He; zdm).
  destruct (tab_lor _ _ Hr R) as [Rv T]. rewrite <- Ev in Rv, T. split; [done|]. split.
  - rewrite PG_ADDR_tab, T by done. unfold PAGE_SIZE. zdm.
  - rewrite !ha_P, Ev, Z.lor_spec, bit_indirizzo, B by lia. apply andb_true_r.
Qed.

Lemma pde_4mb_ok e x : 0 <= x < 1048576 -> let v := Z.lor (x * PAGE_SIZE) (Z.land (flags_4mb e) 7) in
  tab v = x /\ ha v PG_PRESENT = ha e PG_PRESENT /\ ha v PG_HUGE = false.
Proof.
  intros Hx v. destruct (flags_4mb_ok e) as [R B].
  assert (R7 : 0 <= Z.land (flags_4mb e) 7 < 4096).
  { apply bit_sotto. intros n Hn. by rewrite Z.land_spec, (bit_alto (flags_4mb e)) by lia. }
  destruct (tab_lor x _ Hx R7) as [_ T]. split; [done|]. unfold v. rewrite ha_P, ha_P, ha_H, !Z.lor_spec, !bit_indirizzo, !Z.land_spec, !B by lia.
  cbn. rewrite !andb_true_r, andb_false_r. done.
Qed.

Section PagingMappa.

Context {P : Type} {PG : Pagine P} {PO : PagineOk P} {SC : Scambio P} {SS : SenzaSwap P} {ST : Statiche}.

Implicit Types (m : Mondo P) (D : list Z).

Lemma va_offset i j o : 0 <= i < 1024 -> 0 <= j < 1024 -> 0 <= o < 4096 ->
  PD_INDEX (va i j + o) = i /\ PT_INDEX (va i j + o) = j /\ Z.land (va i j + o) 0xFFF = o.
Proof.
  intros Hi Hj Ho. unfold PD_INDEX, PT_INDEX, va. rewrite !land_3ff, land_fff, !Z.shiftr_div_pow2 by lia.
  change (2 ^ 22) with 4194304. change (2 ^ 12) with 4096. zdm.
Qed.

(** The physical address of a byte of a page that is there. *)
Lemma get_physical_voce m D ext dma d i j o :
  spazi m D ext dma -> in_usi D (UDat d i j) -> 0 <= o < 4096 ->
  paging_get_physical d (va i j + o) m =
    if ha (voce m d i j) PG_PRESENT then tab (voce m d i j) * PAGE_SIZE + o else 0.
Proof.
  intros SP (Hd & Hut & Hj) Ho. pose proof (utente_range i Hut). destruct (va_offset i j o ltac:(lia) Hj Ho) as (Ei & Ej & Eo).
  unfold paging_get_physical. rewrite Ei, Ej, Eo. unfold voce. fold (presente m d i). destruct (presente m d i) eqn:Ep; cbn [negb]; [|done].
  rewrite (sp_huge _ _ _ _ SP d i Hd Hut Ep). destruct (ha (fis m (tab (fis m d i)) j) PG_PRESENT); cbn [negb]; [|done].
  rewrite PG_ADDR_tab by apply (sp_parole _ _ _ _ SP). by apply lor_offset.
Qed.

(** ** A page mapped *)

Lemma mappa_spec m D ext dma d i j f flags :
  spazi m D ext dma -> in_usi D (UDat d i j) -> ha (voce m d i j) PG_PRESENT = false ->
  0 < ext f -> ~ dma f -> ~ strutt m D f -> ha flags PG_FISSA = false -> ha flags PG_COW = false ->
  usi m D f = 0 \/ privata (voce_mappa (f * PAGE_SIZE) flags) = false /\
    (forall d' i' j', in_usi D (UDat d' i' j') -> contata m (voce m d' i' j') = true -> tab (voce m d' i' j') = f ->
       privata (voce m d' i' j') = false) ->
  exists r m', paging_map_page d (va i j) (f * PAGE_SIZE) flags m = Ok (r, m') /\
    (r = -1 /\ spazi m' D ext dma /\ ferme m D nessuno m' \/
     r = 0 /\ spazi m' D (piu f (-1) ext) dma /\ ferme m D (fun s => s = UDat d i j) m' /\
       voce m' d i j = voce_mappa (f * PAGE_SIZE) flags /\ forall k, fis m' f k = fis m f k).
Proof.
  intros SP Hu Ha He Nd Ns Hf9 Hf10 Hok. pose proof (sp_o m D ext dma SP f) as (_ & Hu0 & Hr). specialize (Hr ltac:(lia)).
  pose proof (pg_max _ _ (sp_conti _ _ _ _ SP)) as Hmx. unfold PMM_PAGINE_4GB in Hmx.
  destruct (map_page_spec m D ext dma d i j (f * PAGE_SIZE) flags SP Hu) as (r & m' & E & Hm). exists r, m'. split; [done|].
  destruct Hm as [(-> & SP' & C)|(-> & m1 & SP1 & C & Hp1 & Hm & Ep)]; [left | right]; (split; [done|]).
  { split; [done|]. by apply (come_ferme m D ext dma). }
  set (e := voce_mappa (f * PAGE_SIZE) flags) in *. destruct (voce_mappa_ok f flags ltac:(lia)) as (R & T & B). fold e in R, T, B.
  assert (Hcc : contata m e = true).
  { unfold contata. rewrite ha_P, ha_F, !B by lia. rewrite ha_F in Hf9. rewrite Hf9, orb_true_r. cbn [Z.eqb orb negb andb].
    rewrite andb_true_r. unfold PMM_OLTRE_RAM. rewrite PG_ADDR_tab, T, u32_small by (done || (unfold PAGE_SIZE, W32; lia)).
    apply negb_true_iff, Z.leb_gt. unfold PAGE_SIZE. lia. }
  assert (Ct : forall v, contata m1 v = contata m v) by (intros; apply contata_totale; apply C).
  assert (U1 : usi m1 D f = usi m D f) by (apply (co_usi _ _ _ _ C); lia).
  assert (Qu : forall g, usi m' D g = usi m1 D g + (if f =? g then 1 else 0)).
  { intros g. rewrite (scritto_usi m1 D ext dma SP1 m' d i j e Hu Hp1 Hm). cbn [uso]. rewrite (co_voce _ _ _ _ C) by done.
    rewrite !Ct, Hcc, T. unfold contata. rewrite Ha. unfold uno. cbn [andb]. destruct (f =? g); lia. }
  assert (Ns1 : ~ strutt m1 D f).
  { intros Hs. destruct (co_strutt _ _ _ _ C f Hs); [done | lia]. }
  split; [|split; [|split]].
  - apply (scritto_spazi m1 D ext dma SP1 m' d i j e Hu Hp1 Hm); try done.
    + rewrite SWAP_bit, B by lia. by rewrite orb_true_r.
    + intros Hcw. rewrite ha_C in Hf10. rewrite PTE_E_COW_bit, (B 10), Hf10, andb_false_r in Hcw by lia. done.
    + intros g. unfold piu. pose proof (sp_ext _ _ _ _ SP g). destruct (Z.eqb_spec g f) as [->|]; lia.
    + intros g Hg. unfold piu. pose proof (proj1 (sp_dma _ _ _ _ SP g Hg)). destruct (Z.eqb_spec g f) as [->|]; [done | lia].
    + rewrite Ep. eapply pg_ext; [exact (sp_conti _ _ _ _ SP1)|]. intros g. cbn beta. rewrite Qu. unfold piu.
      rewrite (Z.eqb_sym g f). destruct (f =? g); lia.
    + unfold voce_nuova_ok. rewrite Ct, Hcc, T. split; [done|]. destruct Hok as [H0|[Hn Ho]].
      * left. rewrite Qu, U1, H0, Z.eqb_refl. done.
      * right. split; [done|]. split; [done|]. intros d' i' j' Hu' _. rewrite (co_voce _ _ _ _ C), Ct by done. by apply Ho.
  - apply (ferme_trans m D nessuno m1 (fun s => s = UDat d i j)); [by apply (come_ferme m D ext dma) | | unfold nessuno; intros s [|]; done].
    by apply (scritto_ferme m1 D ext dma m' d i j e SP1).
  - by apply (scritto_qui m1 D ext dma SP1 m' d i j).
  - intros k. rewrite (proj2 Hm), (proj2 (Z.eqb_neq f (tab (fis m1 d i)))); [apply (co_fermo _ _ _ _ C); [done | lia]|].
    intros E1. apply Ns1. rewrite E1. right. destruct Hu as (? & ? & _). eauto 6.
Qed.

(** ** A page unmapped: its owner is now the caller *)

Lemma unmap_spec m D ext dma d i j :
  spazi m D ext dma -> in_usi D (UDat d i j) ->
  exists m', paging_unmap_page d (va i j) m = Ok m' /\
    spazi m' D (piu (tab (voce m d i j)) (uno (contata m (voce m d i j))) ext) dma /\
    ferme m D (fun s => s = UDat d i j) m' /\ voce m' d i j = 0.
Proof.
  intros SP Hu. destruct Hu as (Hd & Hut & Hj). assert (Hu : in_usi D (UDat d i j)) by done. pose proof (utente_range i Hut).
  destruct (va_indici i j ltac:(lia) Hj) as [Ei Ej]. unfold paging_unmap_page. rewrite Ei, Ej. fold (presente m d i).
  set (e := voce m d i j). set (ext' := piu (tab e) (uno (contata m e)) ext).
  assert (He : forall g, 0 <= ext' g).
  { intros g. unfold ext', piu, uno. pose proof (sp_ext _ _ _ _ SP g). destruct (g =? tab e), (contata m e); lia. }
  assert (Hx : forall g, dma g -> 0 < ext' g).
  { intros g Hg. unfold ext', piu, uno. pose proof (proj1 (sp_dma _ _ _ _ SP g Hg)). destruct (g =? tab e), (contata m e); lia. }
  destruct (presente m d i) eqn:Hp; cbn [negb].
  2:{ assert (E0 : e = 0) by (unfold e, voce; by rewrite Hp). exists m. split; [done|]. split; [|split; [apply ferme_refl | done]].
      apply (spazi_conti m D ext dma); try done. eapply pg_ext; [exact (sp_conti _ _ _ _ SP)|]. intros g. unfold ext', piu. rewrite E0.
      change (contata m 0) with false. cbn [uno]. destruct (g =? tab 0); lia. }
  rewrite (sp_huge _ _ _ _ SP d i Hd Hut Hp). cbn [mbind run_bind negb Z.eqb]. eexists. split; [reflexivity|].
  set (m' := metti _ _ _ _). assert (Hm : scritto m (tab (fis m d i)) j 0 m') by (split; [done|]; intros f k; done).
  split; [|split; [by apply (scritto_ferme m D ext dma m' d i j 0) | by apply (scritto_qui m D ext dma SP m' d i j)]].
  apply (scritto_spazi m D ext dma SP m' d i j 0 Hu Hp Hm); try done.
  eapply pg_ext; [exact (sp_conti _ _ _ _ SP)|]. intros g. cbn beta. rewrite (scritto_usi m D ext dma SP m' d i j 0 Hu Hp Hm).
  cbn [uso]. fold e. change (contata m 0) with false. unfold ext', piu. rewrite (Z.eqb_sym g). unfold uno. cbn [andb].
  destruct (tab e =? g), (contata m e); cbn; lia.
Qed.

(** ** A page promised or reserved: no frame yet *)

(** [paging_map_page] of nothing, then the entry as it must be. *)
Lemma segna_spec m D ext dma d i j v :
  spazi m D ext dma -> in_usi D (UDat d i j) -> contata m (voce m d i j) = false ->
  0 <= v < W32 -> ha v PG_PRESENT = false -> SWAP_PTE_E_SWAP v = false ->
  exists r m2, paging_map_page d (va i j) 0 0 m = Ok (r, m2) /\
    (r = -1 /\ spazi m2 D ext dma /\ ferme m D nessuno m2 \/
     r = 0 /\ let m' := metti (TAB_DI d (va i j) m2) (PT_INDEX (va i j)) v m2 in
       spazi m' D ext dma /\ ferme m D (fun s => s = UDat d i j) m' /\ voce m' d i j = v).
Proof.
  intros SP Hu Hold Hv Hvp Hvs. destruct (map_page_spec m D ext dma d i j 0 0 SP Hu) as (r & m2 & E & Hr). exists r, m2. split; [done|].
  destruct Hr as [(-> & S & C)|(-> & m1 & SP1 & C & Hp1 & Hm & Ep)]; [left | right]; (split; [done|]).
  { split; [done|]. by apply (come_ferme m D ext dma). }
  destruct Hu as (Hd & Hut & Hj). assert (Hu : in_usi D (UDat d i j)) by done. pose proof (utente_range i Hut).
  destruct (va_indici i j ltac:(lia) Hj) as [Ei Ej]. unfold TAB_DI. rewrite Ei, Ej.
  assert (Ed : fis m2 d i = fis m1 d i) by (by apply (scritto_dir m1 D ext dma SP1 m2 d i j (voce_mappa 0 0))). rewrite Ed.
  set (m' := metti (tab (fis m1 d i)) j v m2). cbv zeta.
  assert (Hm' : scritto m1 (tab (fis m1 d i)) j v m').
  { split; [exact (proj1 Hm)|]. intros f k. cbn [fis m' metti]. destruct ((f =? tab (fis m1 d i)) && (k =? j)) eqn:Eb; [done|].
    by rewrite (proj2 Hm), Eb. }
  assert (Hcv : contata m1 v = false) by (unfold contata; by rewrite Hvp).
  split; [|split; [|by apply (scritto_qui m1 D ext dma SP1 m' d i j)]].
  - apply (scritto_spazi m1 D ext dma SP1 m' d i j v Hu Hp1 Hm'); try done.
    + intros Hcw. rewrite PTE_E_COW_bit, <- ha_P, Hvp in Hcw. done.
    + apply (sp_ext _ _ _ _ SP).
    + intros g Hg. by apply (sp_dma _ _ _ _ SP).
    + change (pag m') with (pag m2). rewrite Ep. eapply pg_ext; [exact (sp_conti _ _ _ _ SP1)|]. intros g. cbn beta.
      rewrite (scritto_usi m1 D ext dma SP1 m' d i j v Hu Hp1 Hm'), Hcv. cbn [uso]. rewrite (co_voce _ _ _ _ C) by done.
      rewrite (contata_totale m m1) by apply C. rewrite Hold. cbn. lia.
    + unfold voce_nuova_ok. rewrite Hcv. unfold fissa. by rewrite Hvp.
  - apply (ferme_trans m D nessuno m1 (fun s => s = UDat d i j)); [by apply (come_ferme m D ext dma) | | unfold nessuno; intros s [|]; done].
    by apply (scritto_ferme m1 D ext dma m' d i j v SP1).
Qed.

Lemma bit_sopra c n : 0 <= c < 8 -> 3 <= n -> Z.testbit c n = false.
Proof. intros Hc Hn. replace c with (c mod 2 ^ 3) by (apply Z.mod_small; done). apply Z.mod_pow2_bits_high. lia. Qed.

(** The entry of a promise. *)
Definition voce_promessa (flags : Z) : Z := Z.lor PG_PIGRA (Z.land flags (Z.lor PG_USER PG_WRITABLE)).

Lemma voce_promessa_ok flags : 0 <= voce_promessa flags < W32 /\ PTE_E_PIGRA (voce_promessa flags) = true /\
  forall n, 0 <= n < 12 -> Z.testbit (voce_promessa flags) n = (n =? 11) || ((n =? 1) || (n =? 2)) && Z.testbit flags n.
Proof.
  assert (E : Z.land flags 6 = Z.b2z (Z.testbit flags 1) * 2 + Z.b2z (Z.testbit flags 2) * 4).
  { apply Z.bits_inj'. intros n Hn. rewrite Z.land_spec. destruct (Z.lt_ge_cases n 3) as [Hl|Hg].
    - assert (n = 0 \/ n = 1 \/ n = 2) as [->|[->| ->]] by lia; destruct (Z.testbit flags 1), (Z.testbit flags 2); cbn;
        rewrite ?andb_true_r, ?andb_false_r; done.
    - rewrite (Z.bits_above_log2 6), andb_false_r by (cbn; lia). symmetry.
      destruct (Z.testbit flags 1), (Z.testbit flags 2); cbn [Z.b2z]; apply bit_sopra; lia. }
  unfold voce_promessa. change (Z.lor PG_USER PG_WRITABLE) with 6. rewrite E. split; [|split].
  - destruct (Z.testbit flags 1), (Z.testbit flags 2); done.
  - destruct (Z.testbit flags 1), (Z.testbit flags 2); done.
  - intros n Hn. assert (n = 0 \/ n = 1 \/ n = 2 \/ n = 11 \/ 3 <= n < 11) as [->|[->|[->|[->|Hr]]]] by lia.
    1-4: destruct (Z.testbit flags 1), (Z.testbit flags 2); done.
    rewrite (proj2 (Z.eqb_neq n 11)), (proj2 (Z.eqb_neq n 1)), (proj2 (Z.eqb_neq n 2)) by lia. cbn [orb andb].
    change PG_PIGRA with (2 ^ 11). rewrite Z.lor_spec, Z.pow2_bits_false by lia. cbn [orb].
    destruct (Z.testbit flags 1), (Z.testbit flags 2); cbn [Z.b2z]; apply bit_sopra; lia.
Qed.

Lemma pigra_spec m D ext dma d i j flags :
  spazi m D ext dma -> in_usi D (UDat d i j) -> contata m (voce m d i j) = false ->
  exists r m', paging_pigra d (va i j) flags m = Ok (r, m') /\ spazi m' D ext dma /\
    (r = -1 /\ ferme m D nessuno m' \/ r = 0 /\ ferme m D (fun s => s = UDat d i j) m' /\ voce m' d i j = voce_promessa flags).
Proof.
  intros SP Hu Hold. pose proof Hu as (_ & Hut & Hj). pose proof (utente_range i Hut). destruct (voce_promessa_ok flags) as (R & _ & B).
  destruct (segna_spec m D ext dma d i j (voce_promessa flags) SP Hu Hold R) as (r & m2 & E & Hr).
  { by rewrite ha_P, B by lia. } { rewrite SWAP_bit, !B by lia. done. }
  unfold paging_pigra. rewrite va_allineata, E by lia. cbn [mbind run_bind].
  destruct Hr as [(-> & S & T)|(-> & S & T & V)]; cbn [Z.eqb negb]; eexists _, _; (split; [reflexivity|]); (split; [exact S|]); [left | right]; done.
Qed.

Lemma riserva_spec m D ext dma d i j :
  spazi m D ext dma -> in_usi D (UDat d i j) -> contata m (voce m d i j) = false ->
  exists r m', paging_riserva d (va i j) m = Ok (r, m') /\ spazi m' D ext dma /\
    (r = -1 /\ ferme m D nessuno m' \/ r = 0 /\ ferme m D (fun s => s = UDat d i j) m' /\ voce m' d i j = PG_RISERVA).
Proof.
  intros SP Hu Hold. pose proof Hu as (_ & Hut & Hj). pose proof (utente_range i Hut).
  destruct (segna_spec m D ext dma d i j PG_RISERVA SP Hu Hold ltac:(done) eq_refl eq_refl) as (r & m2 & E & Hr).
  unfold paging_riserva. rewrite va_allineata, E by lia. cbn [mbind run_bind].
  destruct Hr as [(-> & S & T)|(-> & S & T & V)]; cbn [Z.eqb negb]; eexists _, _; (split; [reflexivity|]); (split; [exact S|]); [left | right]; done.
Qed.

(** ** A page of 4 MB split *)

Lemma spezza_spec m (o : Z -> Z) d i :
  pg_stato (pag m) o -> (forall f k, 0 <= fis m f k < W32) -> 0 < o d -> 0 <= i < 1024 ->
  ha (fis m d i) PG_PRESENT = true -> ha (fis m d i) PG_HUGE = true ->
  (forall k, 0 <= k < 1024 -> ha (fis m d k) PG_PRESENT = true -> ha (fis m d k) PG_HUGE = false ->
     0 < o (tab (fis m d k)) /\ tab (fis m d k) <> d) ->
  exists r m', spezza_4mb d i m = Ok (r, m') /\
    (r = -1 /\ fis m' = fis m /\ pg_stato (pag m') o \/
     r = 0 /\ exists x, o x = 0 /\ pg_stato (pag m') (piu x 1 o) /\ ha (fis m' d i) PG_HUGE = false /\
       (forall f k, f <> x -> (f <> d \/ k <> i) -> fis m' f k = fis m f k) /\
       forall v, 0 <= v < W32 -> paging_get_physical d v m' = paging_get_physical d v m).
Proof.
  intros Hs Hw Hod Hi HP HH Htab. unfold spezza_4mb. fold (flags_4mb (fis m d i)). set (e := fis m d i) in *.
  change (Z.lor (Z.lor PG_PRESENT PG_WRITABLE) PG_USER) with 7.
  pose proof (pg_alloc_kernel_ok (pag m) o Hs) as [Ht Hr]. pose proof (pg_max _ _ Hs) as Hmx. unfold PMM_PAGINE_4GB in Hmx.
  destruct (pg_alloc_kernel (pag m)) as [a p]. cbn [fst snd] in *. destruct Hr as [[-> Hs']|(x & -> & Hx & Hox & Hs')].
  { cbn [Z.eqb]. eexists (-1), _. split; [reflexivity|]. left. done. }
  rewrite (proj2 (Z.eqb_neq (x * PAGE_SIZE) 0)) by (unfold PAGE_SIZE; lia).
  assert (Ex : frame (x * PAGE_SIZE) = x) by (by apply Z.div_mul). rewrite Ex.
  eexists 0, _. split; [reflexivity|]. right. split; [done|]. exists x. split; [done|]. split; [exact Hs'|].
  set (m' := metti _ _ _ _). assert (Nx : x <> d) by (intros ->; lia).
  assert (Ed : forall k, fis m' d k = if k =? i then Z.lor (x * PAGE_SIZE) (Z.land (flags_4mb e) 7) else fis m d k).
  { intros k. cbn [fis m' metti riempi con_pag]. rewrite Z.eqb_refl. cbn [andb]. destruct (k =? i); [done|].
    rewrite (proj2 (Z.eqb_neq d x)) by congruence. done. }
  destruct (pde_4mb_ok e x ltac:(lia)) as (T & P' & H'). rewrite HP in P'.
  split; [by rewrite Ed, Z.eqb_refl|]. split.
  { intros f k N1 N2. cbn [fis m' metti riempi con_pag]. rewrite (proj2 (andb_false_iff (f =? d) (k =? i))) by (rewrite !Z.eqb_neq; tauto).
    rewrite (proj2 (Z.eqb_neq f x) N1). done. }
  intros v Hv. unfold paging_get_physical. rewrite Ed. set (pi := PD_INDEX v). set (ti := PT_INDEX v).
  assert (Hpi : 0 <= pi < 1024) by (unfold pi, PD_INDEX; rewrite land_3ff; apply Z.mod_pos_bound; lia).
  assert (Hti : 0 <= ti < 1024) by (unfold ti, PT_INDEX; rewrite land_3ff; apply Z.mod_pos_bound; lia).
  destruct (Z.eqb_spec pi i) as [Epi|Npi].
  - rewrite P', H', T. cbn [negb]. rewrite Epi. fold e. rewrite HP, HH. cbn [negb].
    destruct (pte_4mb_ok e ti (Hw d i) Hti) as (Rv & A & Pv).
    assert (Ept : fis m' x ti = Z.lor (u32 (Z.land e 0xFFC00000 + ti * PAGE_SIZE)) (flags_4mb e)).
    { cbn [fis m' metti riempi con_pag]. rewrite (proj2 (Z.eqb_neq x d) Nx), Z.eqb_refl, (proj2 (Z.leb_le 0 ti)), (proj2 (Z.ltb_lt ti 1024)) by lia. done. }
    rewrite Ept, Pv, HP, A, land_fff, land_22, (land_base e (Hw d i)). cbn [negb]. unfold ti, PT_INDEX. rewrite land_3ff, Z.shiftr_div_pow2 by lia.
    change (2 ^ 12) with 4096. pose proof (Hw d i) as He. fold e in He. clear - He Hv.
    rewrite (lor_disjoint 12), (lor_disjoint 22); try lia.
    + zdm.
    + exists (e / 4194304). change (2 ^ 22) with 4194304. zdm.
    + apply Z.mod_pos_bound. lia.
    + exists (e / 4194304 * 1024 + v / 4096 mod 1024). change (2 ^ 12) with 4096. zdm.
    + apply Z.mod_pos_bound. lia.
  - destruct (ha (fis m d pi) PG_PRESENT) eqn:EP; cbn [negb]; [|done]. destruct (ha (fis m d pi) PG_HUGE) eqn:EH; [done|].
    destruct (Htab pi Hpi EP EH) as [Hot Ntd]. assert (Nt : tab (fis m d pi) <> x) by (intros E; rewrite E in Hot; lia).
    assert (Et : fis m' (tab (fis m d pi)) ti = fis m (tab (fis m d pi)) ti); [|by rewrite Et].
    cbn [fis m' metti riempi con_pag]. by rewrite (proj2 (Z.eqb_neq _ x) Nt), (proj2 (Z.eqb_neq _ d) Ntd).
Qed.

End PagingMappa.
