(* ===== verification/PagingMacchina.v ===== *)
(** * Any sequence of calls

    The calls that the kernel makes on page tables, and the writes of the programs, as
    steps of a machine.  A step says with its label on whose behalf it is made.  The
    calls are those that the kernel makes: each constructor has the conditions that
    their callers establish.  The invariant holds at every state, and a program sees
    its memory change only by steps of its own and by writes to what it shares. *)

From S2P Require Import Prelude Pmm Pagine Paging Fork PagingBit PagingSpec PagingPassi PagingVista.
From S2P Require Import ForkPassi PagingCow PagingDir PagingMappa.

Section Macchina.

Context {P : Type} {PG : Pagine P} {PO : PagineOk P} {SC : Scambio P} {SS : SenzaSwap P} {ST : Statiche}.

(** The memory, the directories, and the owners that are not spaces. *)
Record Stato : Type := mkStato { st_m : Mondo P; st_D : list Z; st_ext : Z -> Z }.

Implicit Types (m : Mondo P) (D : list Z) (ext : Z -> Z).

Definition bene (dma : Z -> Prop) (s : Stato) : Prop := spazi (st_m s) (st_D s) (st_ext s) dma.

(** A step of the kernel for nobody in particular, a call for the directory [d], a
    use of its own memory by the program of [d], a write of the program of [d] into the
    frame [f] through any other page that it may write: one shared on purpose, a buffer
    of a device, what is not RAM. *)
Inductive etichetta : Type := Kernel | Per (d : Z) | Usa (d : Z) | Condivisa (d f : Z).

Inductive passo (dma : Z -> Prop) : etichetta -> Stato -> Stato -> Prop :=
  | p_crea m D ext r m' : 0 < ext kernel_page_directory -> paging_create_directory m = Ok (r, m') ->
      passo dma Kernel (mkStato m D ext) (mkStato m' (match r with Some x => x :: D | None => D end) ext)
  | p_fork m D ext d al r m' : d ∈ D -> al ∈ D -> d <> al -> schermo d al m -> schermo_presente d m ->
      (forall i j, utente i = true -> 0 <= j < 1024 -> voce m al i j = 0) -> paging_copia_spazio d al m = Ok (r, m') ->
      passo dma (Per al) (mkStato m D ext) (mkStato m' D ext)
  | p_distruggi m D ext d m' : d ∈ D -> d <> kernel_page_directory -> paging_destroy_directory (Some d) m = Ok m' ->
      passo dma (Per d) (mkStato m D ext) (mkStato m' (senza d D) ext)
  | p_cow m D ext d i j k r m' : in_usi D (UDat d i j) -> i < PD_INDEX USER_SPACE_END -> non_avvolta m D ext (tab (voce m d i j)) ->
      cow_risolvi (S k) (Some d) (va i j) m = Ok (r, m') -> passo dma Kernel (mkStato m D ext) (mkStato m' D ext)
  | p_tocca m D ext d i j r m' : in_usi D (UDat d i j) -> i < PD_INDEX USER_SPACE_END ->
      paging_pigra_tocca (Some d) (va i j) m = Ok (r, m') -> passo dma (Usa d) (mkStato m D ext) (mkStato m' D ext)
  | p_scrive m D ext d i j k v : in_usi D (UDat d i j) -> contata m (voce m d i j) = true -> privata (voce m d i j) = true -> 0 <= v < W32 ->
      passo dma (Usa d) (mkStato m D ext) (mkStato (metti (tab (voce m d i j)) k v m) D ext)
  | p_scrive_condivisa m D ext d i j k v : in_usi D (UDat d i j) -> ha (voce m d i j) PG_PRESENT = true -> ha (voce m d i j) PG_WRITABLE = true ->
      contata m (voce m d i j) && privata (voce m d i j) = false -> 0 <= v < W32 ->
      passo dma (Condivisa d (tab (voce m d i j))) (mkStato m D ext) (mkStato (metti (tab (voce m d i j)) k v m) D ext)
  | p_mappa m D ext d i j f flags r m' : in_usi D (UDat d i j) -> ha (voce m d i j) PG_PRESENT = false ->
      0 < ext f -> ~ dma f -> ~ strutt m D f -> ha flags PG_FISSA = false -> ha flags PG_COW = false ->
      usi m D f = 0 \/ privata (voce_mappa (f * PAGE_SIZE) flags) = false /\
        (forall d' i' j', in_usi D (UDat d' i' j') -> contata m (voce m d' i' j') = true -> tab (voce m d' i' j') = f ->
           privata (voce m d' i' j') = false) ->
      paging_map_page d (va i j) (f * PAGE_SIZE) flags m = Ok (r, m') ->
      passo dma (Per d) (mkStato m D ext) (mkStato m' D (if r =? 0 then piu f (-1) ext else ext))
  | p_smonta m D ext d i j m' : in_usi D (UDat d i j) -> paging_unmap_page d (va i j) m = Ok m' ->
      passo dma (Per d) (mkStato m D ext) (mkStato m' D (piu (tab (voce m d i j)) (uno (contata m (voce m d i j))) ext))
  | p_promette m D ext d i j flags r m' : in_usi D (UDat d i j) -> contata m (voce m d i j) = false ->
      paging_pigra d (va i j) flags m = Ok (r, m') -> passo dma (Per d) (mkStato m D ext) (mkStato m' D ext)
  | p_riserva m D ext d i j r m' : in_usi D (UDat d i j) -> contata m (voce m d i j) = false ->
      paging_riserva d (va i j) m = Ok (r, m') -> passo dma (Per d) (mkStato m D ext) (mkStato m' D ext)
  | p_prende m D ext f p : pg_alloc (pag m) = (f * PAGE_SIZE, p) -> f <> 0 ->
      passo dma Kernel (mkStato m D ext) (mkStato (con_pag p m) D (piu f 1 ext))
  | p_rende m D ext f m' : 0 < ext f -> ~ dma f -> pmm_free (f * PAGE_SIZE) m = Ok m' ->
      passo dma Kernel (mkStato m D ext) (mkStato m' D (piu f (-1) ext)).

(** Steps that satisfy [chi], each in the state in which it is made. *)
Inductive passi (dma : Z -> Prop) (chi : Stato -> etichetta -> Prop) : Stato -> Stato -> Prop :=
  | passi_nil s : passi dma chi s s
  | passi_cons a s s1 s2 : chi s a -> passo dma a s s1 -> passi dma chi s1 s2 -> passi dma chi s s2.

(** The step is not of the program of [d], and does not write the frame that its page
    at [i], [j] shows. *)
Definition altrui (d i j : Z) (s : Stato) (a : etichetta) : Prop :=
  match a with
  | Kernel => True
  | Per x | Usa x => x <> d
  | Condivisa _ f => ~ (ha (voce (st_m s) d i j) PG_PRESENT = true /\ tab (voce (st_m s) d i j) = f)
  end.

(** What the steps of others leave to the directories that stay: the pages that they
    see, and the places where there is nothing; the latter also when a program uses
    its memory. *)
Definition restano (a : etichetta) (s s' : Stato) : Prop :=
  forall d, d ∈ st_D s -> a <> Per d -> d ∈ st_D s' /\ forall i j, utente i = true -> 0 <= j < 1024 ->
    (voce (st_m s) d i j = 0 -> voce (st_m s') d i j = 0) /\
    (altrui d i j s a -> stessa_vista (st_m s) (voce (st_m s) d i j) (st_m s') (voce (st_m s') d i j)).

(** It is enough to know the views. *)
Lemma restano_vista a s s' :
  (forall d, d ∈ st_D s -> a <> Per d -> d ∈ st_D s' /\ forall i j, utente i = true -> 0 <= j < 1024 ->
     stessa_vista (st_m s) (voce (st_m s) d i j) (st_m s') (voce (st_m s') d i j)) -> restano a s s'.
Proof.
  intros H d Hd Na. destruct (H d Hd Na) as [Hd' V]. split; [done|]. intros i j Hi Hj. specialize (V i j Hi Hj). split; [|done].
  intros E. rewrite E in V. by apply vista_zero in V.
Qed.

Lemma restano_tiene a m D ext D' m' ext' X :
  tiene m D X m' -> (forall d, d ∈ D -> a <> Per d -> d ∈ D') -> (forall d i j, a <> Per d -> ~ X (UDat d i j)) ->
  restano a (mkStato m D ext) (mkStato m' D' ext').
Proof.
  intros T HD HX. apply restano_vista. cbn [st_D st_m]. intros d Hd Na. split; [by apply HD|]. intros i j Hi Hj. apply T; [done | by apply HX].
Qed.

(** A use of one page of the program. *)
Lemma restano_usa m D ext d i j m' ext' :
  tiene m D (fun s => s = UDat d i j) m' -> (voce m d i j = 0 -> voce m' d i j = 0) -> restano (Usa d) (mkStato m D ext) (mkStato m' D ext').
Proof.
  intros T H0 d' Hd' _. cbn [st_D st_m]. split; [done|]. intros i' j' Hi Hj. split.
  - intros E. destruct (decide (UDat d' i' j' = UDat d i j)) as [[= -> -> ->]|Ne]; [by apply H0|].
    pose proof (ti_vista _ _ _ _ T d' i' j' ltac:(done) Ne) as V. rewrite E in V. by apply vista_zero in V.
  - intros Na. cbn [altrui] in Na. apply T; [done|]. intros [= -> _ _]. done.
Qed.

(** A private page that counts is the program's alone. *)
Lemma privata_propria m D ext dma d i j :
  spazi m D ext dma -> in_usi D (UDat d i j) -> contata m (voce m d i j) = true -> privata (voce m d i j) = true -> propria m D (voce m d i j).
Proof.
  intros SP Hu Hc Hp. pose proof (sp_priv _ _ _ _ SP d i j Hu Hc Hp) as U1. unfold propria. split; [done|].
  assert (Hw : ha (voce m d i j) PG_WRITABLE = true) by (unfold privata in Hp; by apply andb_true_iff in Hp as [? _]).
  split; [done|]. split; [|done]. destruct (ha (voce m d i j) PG_COW) eqn:Ec; [|done].
  assert (Hpp : ha (voce m d i j) PG_PRESENT = true) by (unfold contata in Hc; by apply andb_true_iff in Hc as [[? _]%andb_true_iff _]).
  destruct (sp_cow _ _ _ _ SP d i j Hu) as (_ & Hw' & _); [|congruence].
  rewrite PTE_E_COW_bit, <- ha_P, <- ha_C, Hpp, Ec. done.
Qed.

(** A write through a page shared on purpose, or into a buffer of a device. *)
Lemma scrive_condivisa m D ext dma d i j k v :
  spazi m D ext dma -> in_usi D (UDat d i j) -> ha (voce m d i j) PG_PRESENT = true -> 0 <= v < W32 ->
  let f := tab (voce m d i j) in let m' := metti f k v m in
  spazi m' D ext dma /\
  forall d' i' j', in_usi D (UDat d' i' j') -> voce m' d' i' j' = voce m d' i' j' /\
    (~ (ha (voce m d' i' j') PG_PRESENT = true /\ tab (voce m d' i' j') = f) -> stessa_vista m (voce m d' i' j') m' (voce m' d' i' j')).
Proof.
  intros SP Hu Hh Hv f m'. pose proof (voce_non_strutt m D ext dma SP d i j Hu Hh) as Ns. fold f in Ns.
  assert (F : forall g w, g <> f -> fis m' g w = fis m g w) by (intros g w N; cbn [fis m' metti]; by rewrite (proj2 (Z.eqb_neq g f) N)).
  assert (V : stesse_voci m m' D) by (apply fuori_stesse; [done|]; intros g w Hg; apply F; intros ->; done).
  split.
  - apply (spazi_stesse m m' D ext ext dma SP V).
    + intros g w. cbn [fis m' metti]. destruct (_ && _); [done | apply (sp_parole _ _ _ _ SP)].
    + apply (sp_ext _ _ _ _ SP).
    + eapply pg_ext; [exact (sp_conti _ _ _ _ SP)|]. intros g. cbn beta. by rewrite (sv_usi _ _ _ _ V).
    + intros g Hg. by apply (sp_dma _ _ _ _ SP).
  - intros d' i' j' Hu'. rewrite (sv_voce _ _ _ V) by done. split; [done|]. intros N. apply vista_stessa_voce. intros Hh' w _.
    apply F. intros E. by apply N.
Qed.

Lemma passo_bene dma a s s' : bene dma s -> passo dma a s s' -> bene dma s' /\ restano a s s'.
Proof.
  unfold bene. intros SP H. destruct H as
    [m D ext r m' Hk E|m D ext d al r m' Hd Hal Ne S1 S2 Hz E|m D ext d m' Hd Nk E|m D ext d i j k r m' Hu Hi Hn E|m D ext d i j r m' Hu Hi E
    |m D ext d i j k v Hu Hc Hp Hv|m D ext d i j k v Hu Hpr Hw Hcf Hv|m D ext d i j f flags r m' Hu Ha He Nd Ns H9 H10 H0 E|m D ext d i j m' Hu E|m D ext d i j flags r m' Hu Hold E|m D ext d i j r m' Hu Hold E|m D ext f p E Nf|m D ext f m' He Nd E];
    cbn [st_m st_D st_ext] in *.
  - destruct (create_directory_spec m D ext dma SP Hk) as (r' & m1 & E1 & Ht & Hr). rewrite E in E1. injection E1 as <- <-.
    destruct r as [x|].
    + destruct Hr as (_ & _ & S & T & _). split; [done|]. apply (restano_tiene _ _ _ _ _ _ _ _ T); [intros; by right | by intros ? ? ? _ []].
    + destruct Hr as (S & F). split; [done|]. apply (restano_tiene _ _ _ _ _ _ _ nessuno); [by apply tiene_pag | done | by intros ? ? ? _ []].
  - destruct (copia_spazio_spec D ext dma d al Hd Hal Ne m SP S1 S2 Hz) as (r' & m1 & E1 & _ & S & T & _). rewrite E in E1. injection E1 as <- <-.
    split; [done|]. apply (restano_tiene _ _ _ _ _ _ _ _ T); [done|]. intros d' i j Na (? & ? & [= -> _]). done.
  - destruct (destroy_directory_spec m D ext dma d SP Hd Nk) as (m1 & E1 & F & Ht & S). rewrite E in E1. injection E1 as <-.
    split; [done|]. apply (restano_tiene _ _ _ _ _ _ _ nessuno); [by apply tiene_pag | | by intros ? ? ? _ []].
    intros d' Hd' Na. apply elem_senza. split; [done | congruence].
  - destruct (cow_risolvi_spec k m D ext dma d i j SP Hu Hi Hn) as (r' & m1 & E1 & S & T & _). rewrite E in E1. injection E1 as <- <-.
    split; [done|]. apply (restano_tiene _ _ _ _ _ _ _ _ T); [done | by intros ? ? ? _ []].
  - destruct (pigra_tocca_spec m D ext dma d i j SP Hu Hi) as (r' & m1 & E1 & S & T & Hr). rewrite E in E1. injection E1 as <- <-.
    split; [done|]. apply (restano_usa _ _ _ _ _ _ _ _ T). intros E0. rewrite E0 in Hr. change (PTE_E_PIGRA 0) with false in Hr. cbv iota in Hr.
    by destruct Hr as [_ ->].
  - destruct (scrive_propria m D ext dma d i j k v SP Hu) as (S & T & Ev); [by apply (privata_propria m D ext dma) | done |].
    split; [done|]. apply (restano_usa _ _ _ _ _ _ _ _ T). by rewrite Ev.
  - destruct (scrive_condivisa m D ext dma d i j k v SP Hu Hpr Hv) as (S & V). split; [done|]. intros d' Hd' _. cbn [st_D st_m]. split; [done|].
    intros i' j' Hi' Hj'. destruct (V d' i' j' ltac:(done)) as [Ev Hs]. split; [by rewrite Ev | exact Hs].
  - destruct (mappa_spec m D ext dma d i j f flags SP Hu Ha He Nd Ns H9 H10 H0) as (r' & m1 & E1 & D1). rewrite E in E1. injection E1 as <- <-.
    destruct D1 as [(-> & S & T)|(-> & S & T & _)]; cbn [Z.eqb]; (split; [done|]); apply (restano_tiene _ _ _ _ _ _ _ _ T); try done;
      [by intros ? ? ? _ [] | intros ? ? ? Na [= -> _ _]; done].
  - destruct (unmap_spec m D ext dma d i j SP Hu) as (m1 & E1 & S & T & _). rewrite E in E1. injection E1 as <-.
    split; [done|]. apply (restano_tiene _ _ _ _ _ _ _ _ T); [done|]. intros ? ? ? Na [= -> _ _]. done.
  - destruct (pigra_spec m D ext dma d i j flags SP Hu Hold) as (r' & m1 & E1 & S & D1). rewrite E in E1. injection E1 as <- <-.
    split; [done|]. destruct D1 as [(_ & T)|(_ & T & _)]; apply (restano_tiene _ _ _ _ _ _ _ _ T); try done;
      [by intros ? ? ? _ [] | intros ? ? ? Na [= -> _ _]; done].
  - destruct (riserva_spec m D ext dma d i j SP Hu Hold) as (r' & m1 & E1 & S & D1). rewrite E in E1. injection E1 as <- <-.
    split; [done|]. destruct D1 as [(_ & T)|(_ & T & _)]; apply (restano_tiene _ _ _ _ _ _ _ _ T); try done;
      [by intros ? ? ? _ [] | intros ? ? ? Na [= -> _ _]; done].
  - pose proof (pg_alloc_ok (pag m) _ (sp_conti _ _ _ _ SP)) as [Ht Hr]. rewrite E in Ht, Hr. cbn [fst snd] in *.
    destruct Hr as [[E0 _]|(x & Ex & Hx & Hox & Hs)]; [unfold PAGE_SIZE in E0; lia|].
    assert (f = x) as -> by (unfold PAGE_SIZE in Ex; lia). split.
    + apply (spazi_conti m D ext dma); try done.
      * intros g. unfold piu. pose proof (sp_ext _ _ _ _ SP g). destruct (g =? x); lia.
      * intros g Hg. unfold piu. pose proof (proj1 (sp_dma _ _ _ _ SP g Hg)). destruct (g =? x); lia.
      * eapply pg_ext; [exact Hs|]. intros g. unfold piu. lia.
    + apply (restano_tiene _ _ _ _ _ _ _ nessuno); [by apply tiene_pag | done | by intros ? ? ? _ []].
  - unfold pmm_free in E. destruct (pg_free_ok (pag m) _ f (sp_conti _ _ _ _ SP)) as (p & Ep & Ht & Hs).
    { pose proof (usi_nonneg m D f). lia. }
    rewrite Ep in E. cbn [mbind run_bind] in E. injection E as <-. split.
    + apply (spazi_conti m D ext dma); try done.
      * intros g. unfold piu. pose proof (sp_ext _ _ _ _ SP g). destruct (Z.eqb_spec g f) as [->|]; lia.
      * intros g Hg. unfold piu. pose proof (proj1 (sp_dma _ _ _ _ SP g Hg)). destruct (Z.eqb_spec g f) as [->|]; [done | lia].
      * eapply pg_ext; [exact Hs|]. intros g. unfold piu. destruct (g =? f); lia.
    + apply (restano_tiene _ _ _ _ _ _ _ nessuno); [by apply tiene_pag | done | by intros ? ? ? _ []].
Qed.

Lemma passi_bene dma chi s s' : passi dma chi s s' -> bene dma s -> bene dma s'.
Proof. induction 1 as [s|a s s1 s2 Ha Hp _ IH]; intros B; [done|]. apply IH. by apply (passo_bene dma a s). Qed.

Lemma passi_vista dma d i j s s' :
  passi dma (altrui d i j) s s' -> bene dma s -> d ∈ st_D s -> utente i = true -> 0 <= j < 1024 ->
  d ∈ st_D s' /\ stessa_vista (st_m s) (voce (st_m s) d i j) (st_m s') (voce (st_m s') d i j).
Proof.
  induction 1 as [s|a s s1 s2 Ha Hp _ IH]; intros B Hd Hi Hj; [split; [done | apply vista_refl]|].
  destruct (passo_bene dma a s s1 B Hp) as [B1 R]. destruct (R d Hd) as [Hd1 V]; [intros ->; done|].
  destruct (IH B1 Hd1 Hi Hj) as [Hd2 V2]. split; [done|]. apply (vista_trans _ _ (st_m s1) (voce (st_m s1) d i j)); [by apply V | done].
Qed.

End Macchina.
