(* ===== verification/PagineConti.v ===== *)
(** * An allocator that only counts

    The smallest allocator that keeps the promises of [PagineOk]: the owners of every
    frame, and the first frame without owners.  It is the specification of the
    interface as a program, and the machine on which the theorems are tried. *)

From S2P Require Import Prelude Pmm Pagine Paging PagingBit PagingSpec PagingPassi.

Record Conti : Type := mkConti { cn_totale : Z; cn_owners : Z -> Z }.

(** The first frame from [f] on without owners, among [n]. *)
Fixpoint cn_cerca (n : nat) (o : Z -> Z) (f : Z) : Z :=
  match n with
  | O => 0
  | S n => if o f =? 0 then f else cn_cerca n o (f + 1)
  end.

Definition cn_prende (p : Conti) : Z * Conti :=
  let f := cn_cerca (Z.to_nat (cn_totale p - 1)) (cn_owners p) 1 in
  if f =? 0 then (0, p) else (f * PAGE_SIZE, mkConti (cn_totale p) (piu f 1 (cn_owners p))).

#[export] Instance conti_pagine : Pagine Conti := {
  pg_stato p o := (forall f, o f = cn_owners p f) /\
    (forall f, 0 <= cn_owners p f /\ (0 < cn_owners p f -> 0 < f < cn_totale p)) /\ cn_totale p < PMM_PAGINE_4GB;
  pg_totale := cn_totale;
  pg_alloc := cn_prende;
  pg_alloc_kernel := cn_prende;
  pg_free a p := Ok (mkConti (cn_totale p) (piu (a / PAGE_SIZE) (-1) (cn_owners p)));
  pg_inc a p := Ok (true, mkConti (cn_totale p) (piu (a / PAGE_SIZE) 1 (cn_owners p)));
  pg_conta a p := Ok (u32 (cn_owners p (a / PAGE_SIZE)))
}.

Lemma cn_cerca_ok n : forall o f, 0 < f -> cn_cerca n o f = 0 \/ f <= cn_cerca n o f < f + Z.of_nat n /\ o (cn_cerca n o f) = 0.
Proof.
  induction n as [|n IH]; intros o f Hf; cbn [cn_cerca]; [by left|]. destruct (Z.eqb_spec (o f) 0) as [E|_].
  - right. split; [lia | done].
  - destruct (IH o (f + 1) ltac:(lia)) as [|[? ?]]; [by left | right; split; [lia | done]].
Qed.

Lemma cn_prende_ok p o : pg_stato p o -> presa o p (cn_prende p).
Proof.
  intros (E & R & M). unfold cn_prende. destruct (cn_cerca_ok (Z.to_nat (cn_totale p - 1)) (cn_owners p) 1 ltac:(lia)) as [->|[Hr H0]].
  - split; [done|]. left. by split.
  - set (f := cn_cerca _ _ _) in *. rewrite (proj2 (Z.eqb_neq f 0)) by lia. split; [done|]. right. exists f.
    split; [done|]. split; [cbn; lia|]. split; [by rewrite E|]. split; [|split; [|done]]; cbn [snd cn_owners cn_totale].
    + intros g. unfold piu. by rewrite E.
    + intros g. unfold piu. destruct (R g). destruct (Z.eqb_spec g f) as [->|]; [|split; [lia|]; intros; apply R; lia]. split; lia.
Qed.

#[export] Instance conti_ok : PagineOk Conti.
Proof.
  assert (F : forall x, x * PAGE_SIZE / PAGE_SIZE = x) by (intros; by apply Z.div_mul). split.
  - intros p o o' (E & R) E'. split; [|done]. intros f. by rewrite E'.
  - intros p o f (E & R & _). rewrite E. apply R.
  - intros p o (_ & _ & M). exact M.
  - exact cn_prende_ok.
  - exact cn_prende_ok.
  - intros p o f (E & R & M) Hf. cbn [pg_free conti_pagine]. rewrite F. eexists. split; [reflexivity|]. split; [done|].
    split; [|split; [|done]]; cbn [cn_owners cn_totale]; intros g; unfold piu; [by rewrite E|].
    destruct (R g). rewrite E in Hf. destruct (Z.eqb_spec g f) as [->|]; [split; [lia|]; intros; apply R; lia | split; [lia|]; intros; apply R; lia].
  - intros p o f (E & R & M) Hf. cbn [pg_inc conti_pagine]. rewrite F. eexists true, _. split; [reflexivity|]. split; [done|].
    split; [|split; [|done]]; cbn [cn_owners cn_totale]; intros g; unfold piu; [by rewrite E|].
    destruct (R g). rewrite E in Hf. destruct (Z.eqb_spec g f) as [->|]; [split; [lia|]; intros; apply R; lia | split; [lia|]; intros; apply R; lia].
  - intros p o f (E & R & M) Hf. cbn [pg_conta conti_pagine]. rewrite F. by rewrite E.
Qed.

(** Nothing else can be given up. *)
#[export] Instance conti_scambio : Scambio Conti := {
  cache_cedi p := (false, p);
  swap_sfratta m := Ok (false, m);
  swap_attivo := false;
  dormi m := Ok m;
  pf_torna_da_swap _ _ m := Ok (false, m);
  swap_slot_molla _ m := Ok m
}.

#[export] Instance conti_senza_swap : SenzaSwap Conti.
Proof. by split. Qed.
