(* ===== verification/PagineRif.v ===== *)
(** * pmm.c keeps what paging asks

    The page allocator with its counts, its table of excess owners and the heap that
    holds the table, as an instance of [Pagine].  Of a page that has owners among the
    clients, these are exactly the owners that the tables record, and it is not a page
    of the heap. *)

From S2P Require Import Prelude Mem Pmm PmmSpec PmmInit Oltre Kheap KheapInv KheapSpec KheapFree KheapThms PmmRef Pagine.

Definition con_pmm (s : Rif) (p : Pmm) : Rif := mkRif (set_pages p (rif_heap s)) (rif_tab s) (rif_ptr s).

Definition clienti (o : Z -> Z) (f : Z) : Prop := 0 < o f.

Definition rif_stato (s : Rif) (o : Z -> Z) : Prop :=
  (exists L, rif_inv (clienti o) s L) /\ g_total_pages (kpages (rif_heap s)) < PMM_PAGINE_4GB /\
  forall f, 0 <= o f /\ (0 < o f -> in_uso s f /\ rif_owners s f = o f).

Section PagineRif.

(** The caller that [kmalloc] records in the header of a block. *)
Context (chi : Z).

#[export] Instance rif_pagine : Pagine Rif := {
  pg_stato := rif_stato;
  pg_totale s := g_total_pages (kpages (rif_heap s));
  pg_alloc s := let '(a, p) := pmm_alloc_page (kpages (rif_heap s)) in (a, con_pmm s p);
  pg_alloc_kernel s := let '(a, p) := pmm_alloc_page_kernel (kpages (rif_heap s)) in (a, con_pmm s p);
  pg_free a s := '(p, t) ← pmm_free_page a (rif_pmm s); Ok (mkRif (set_pages p (rif_heap s)) t (rif_ptr s));
  pg_inc a s := pmm_ref_inc a chi s;
  pg_conta a s := pmm_ref_count a (rif_pmm s)
}.

(** A free page has no owners in the tables. *)
Lemma libera_owners s t q : rif_ok s t -> 0 < q < g_total_pages s -> BITMAP_TEST q s = false ->
  rif_at s q = 0 /\ voce (g_oltre t) (q * PAGE_SIZE) = 0.
Proof.
  intros I Hq Hb. split; [apply (ro_zero _ _ I); [lia | done]|].
  destruct (Z.eq_dec (voce (g_oltre t) (q * PAGE_SIZE)) 0) as [|Ne]; [done|]. exfalso.
  destruct (ro_entry _ _ I (q * PAGE_SIZE) ltac:(unfold PAGE_SIZE; lia) Ne) as (_ & _ & B & _).
  destruct (page_addr q ltac:(lia)) as (_ & _ & E). unfold addr_to_page in E. rewrite E in B. congruence.
Qed.

(** Deleting an entry keeps the size of the array. *)
Lemma ricuci_length l i j n l' : ricuci l i j n = Ok l' -> length l' = length l.
Proof.
  revert l i j. induction n as [|n IH]; intros l i j; cbn [ricuci]; [done|]. destruct (pagina l j =? 0); [by intros [= <-]|].
  destruct (in_mezzo _ _ _); intros E; apply IH in E; rewrite E; [|done]. by rewrite !length_set_slot.
Qed.

Lemma free_page_posti a s t p t' : pmm_free_page a (s, t) = Ok (p, t') -> g_oltre_posti t' = g_oltre_posti t.
Proof.
  unfold pmm_free_page. repeat (destruct (_ : bool) in |- *; [by intros [= _ <-]|]).
  destruct (negb (g_rif s =? 0) && (0 <? rif_at s (addr_to_page a))); [|by intros [= _ <-]].
  unfold oltre_togli. destruct (oltre_trova t a) as [r| |]; cbn [mbind run_bind]; [|done|done].
  destruct r as [x|]; [|by intros [= _ <-]]. destruct (negb _); [intros [= _ <-]; unfold g_oltre_posti; cbn [g_oltre]; by rewrite length_set_slot|].
  destruct (ricuci _ _ _ _) as [l| |] eqn:E; cbn [mbind run_bind]; [|done|done]. intros [= _ <-]. unfold g_oltre_posti. cbn [g_oltre].
  by rewrite (ricuci_length _ _ _ _ _ E), length_set_slot.
Qed.

(** ** The counts of pmm.c, call by call *)

(** The pages but [f] are in use as they were, with the owners that they had. *)
Definition altre_uguali (f : Z) (s s' : Rif) : Prop :=
  forall q, 0 < q < g_total_pages (kpages (rif_heap s)) -> q <> f ->
    BITMAP_TEST q (kpages (rif_heap s')) = BITMAP_TEST q (kpages (rif_heap s)) /\ rif_owners s' q = rif_owners s q.

(** [r] is no page and nothing done, or a page that was free and has one owner. *)
Definition una_pagina (s : Rif) (r : Z * Pmm) : Prop :=
  r = (0, kpages (rif_heap s)) \/
  exists f, fst r = f * PAGE_SIZE /\ 0 < f < g_total_pages (kpages (rif_heap s)) /\ BITMAP_TEST f (kpages (rif_heap s)) = false /\
    rif_owners (con_pmm s (snd r)) f = 1 /\ altre_uguali f s (con_pmm s (snd r)).

Lemma una_pagina_ok s r :
  rif_ok (kpages (rif_heap s)) (rif_tab s) -> alloc1_ok (kpages (rif_heap s)) r -> una_pagina s r.
Proof.
  intros I [W' [[E1 E2]|(i & Hi & E & T)]]; [left; destruct r; cbn in *; by subst|]. right. exists i.
  pose proof (took_free _ _ _ _ T i ltac:(lia)) as Hfree. destruct (libera_owners _ _ i I Hi Hfree) as [R0 V0].
  destruct (took_rif_ok i 1 _ _ _ I W' ltac:(lia) ltac:(lia) T) as (_ & HT & HR & _).
  assert (HB := took_bits _ _ _ _ T). do 3 (split; [done|]). unfold rif_owners, owners, con_pmm, altre_uguali. cbn [rif_heap rif_tab kpages set_pages].
  split.
  - rewrite HB, (proj2 (Z.leb_le i i)), (proj2 (Z.ltb_lt i (i + 1))) by lia. cbn [andb orb]. rewrite HR, R0, V0 by lia. done.
  - intros q Hq Ne. unfold rif_owners, owners. cbn [rif_heap rif_tab kpages set_pages]. rewrite HB, HR by lia.
    assert (((i <=? q) && (q <? i + 1)) = false) as -> by (apply andb_false_iff; rewrite Z.leb_gt, Z.ltb_ge; lia). done.
Qed.

(** An owner less; with the last one the page is free. *)
Lemma un_proprietario_meno s f :
  rif_ok (kpages (rif_heap s)) (rif_tab s) -> in_uso s f ->
  exists p t, pmm_free_page (f * PAGE_SIZE) (rif_pmm s) = Ok (p, t) /\
    let s' := mkRif (set_pages p (rif_heap s)) t (rif_ptr s) in
    rif_owners s' f = rif_owners s f - 1 /\ BITMAP_TEST f p = (1 <? rif_owners s f) /\ altre_uguali f s s'.
Proof.
  intros I [Hr Hb]. destruct (free_page_spec _ _ f I Hr Hb) as (p & t & E & I' & HT & HO & Hoth). exists p, t. split; [exact E|].
  cbv zeta. unfold altre_uguali, rif_owners. cbn [rif_heap rif_tab kpages set_pages]. split; [done|]. split.
  - unfold owners in HO at 1. pose proof (rif_range p f). pose proof (voce_nonneg t (f * PAGE_SIZE) (ro_tab _ _ I') ltac:(unfold PAGE_SIZE; lia)).
    destruct (BITMAP_TEST f p); symmetry; [apply Z.ltb_lt | apply Z.ltb_ge]; lia.
  - intros q Hq Ne. destruct (Hoth q Hq Ne). done.
Qed.

(** A page taken by the allocator, of either band. *)
Lemma rif_prende s o a p :
  rif_stato s o -> alloc1_ok (kpages (rif_heap s)) (a, p) -> presa o s (a, con_pmm s p).
Proof.
  intros ((L & K & I & HP) & Hm & Ho) [W' HA]. destruct s as [h t ptr]. cbn [rif_heap rif_tab rif_ptr] in *. cbn [fst snd] in *.
  assert (Eh : set_pages (kpages h) h = h) by (by destruct h).
  destruct HA as [[-> ->]|(i & Hi & -> & T)].
  { split; [by cbn [snd con_pmm rif_heap kpages set_pages pg_totale rif_pagine]|]. left. split; [done|]. cbn [snd]. unfold con_pmm. cbn [rif_heap rif_tab rif_ptr]. rewrite Eh. exact (conj (ex_intro _ L (conj K (conj I HP))) (conj Hm Ho)). }
  pose proof (took_free _ _ _ _ T i ltac:(lia)) as Hfree.
  destruct (took_rif_ok i 1 (kpages h) p t I W' ltac:(lia) ltac:(lia) T) as (I' & HT & HR & HB).
  assert (Ho0 : o i = 0).
  { destruct (Ho i) as [H0 Hp]. destruct (Z.eq_dec (o i) 0) as [|]; [done|]. exfalso. destruct (Hp ltac:(lia)) as [[_ B] _].
    cbn [rif_heap] in B.  congruence. }
  split; [exact HT|]. right. exists i. split; [done|]. split; [done|]. split; [done|]. split; [|split].
  - exists L. split; [|split; [exact I' | exact HP]]. cbn [rif_heap con_pmm]. apply (kinv_cambia (clienti o)); [done | done | |].
    + intros k Hk. unfold clienti, piu in Hk. destruct (Z.eqb_spec k i) as [Ek|Ne].
      * left. rewrite Ek, (took_bits _ _ _ _ T), (proj2 (Z.leb_le i i)), (proj2 (Z.ltb_lt i (i + 1))) by lia. done.
      * destruct (proj2 (Ho k) ltac:(lia)) as [[_ B] _]. left. apply HB. exact B.
    + intros k Hk Nk. cbn [rif_heap kpages] in Hk. assert (Ne : k <> i).
      { intros E. rewrite E in Hk. destruct Hk as [Hk|Hk]; [|lia]. rewrite Hfree in Hk. discriminate Hk. }
      split.
      * destruct Hk as [Hk|Hk]; [left; by apply HB | right; by rewrite HT].
      * unfold clienti, piu in *. rewrite (proj2 (Z.eqb_neq k i) Ne). lia.
  - change (g_total_pages p < PMM_PAGINE_4GB). rewrite HT. done.
  - intros f. unfold piu. destruct (Ho f) as [H0 Hp]. destruct (Z.eqb_spec f i) as [->|Ne].
    + split; [lia|]. intros _. unfold in_uso, rif_owners, owners. cbn [rif_heap rif_tab con_pmm kpages set_pages snd].
      assert (B : BITMAP_TEST i p = true).
      { rewrite (took_bits _ _ _ _ T), (proj2 (Z.leb_le i i)), (proj2 (Z.ltb_lt i (i + 1))) by lia. done. }
      destruct (libera_owners (kpages h) t i I ltac:(lia) Hfree) as [R0 V0]. rewrite B, HT, HR, R0, V0 by lia. split; [split; [lia | done]|]. lia.
    + split; [lia|]. intros Hf. destruct (Hp ltac:(lia)) as [[Hr B] Hle]. unfold in_uso, rif_owners, owners in *.
      cbn [rif_heap rif_tab con_pmm kpages set_pages snd] in *.  rewrite B in Hle. rewrite HT, (HB f B), HR by lia. split; [done | lia].
Qed.

(** An owner less. *)
Lemma rif_rende s o f :
  rif_stato s o -> 0 < o f ->
  exists s', pg_free (f * PAGE_SIZE) s = Ok s' /\ pg_totale s' = pg_totale s /\ rif_stato s' (piu f (-1) o).
Proof.
  intros ((L & K & I & HP) & Hm & Ho) Hf. destruct (proj2 (Ho f) Hf) as [[Hr Hb] Hle]. destruct s as [h t ptr].
  cbn [rif_heap rif_tab rif_ptr] in *.
  destruct (free_page_spec (kpages h) t f I Hr Hb) as (p & t' & E & I' & HT & HO & Hoth).
  cbn [pg_free rif_pagine]. unfold rif_pmm. cbn [rif_heap rif_tab]. rewrite E. cbn [mbind run_bind]. eexists. split; [reflexivity|]. split; [exact HT|].
  assert (Et : g_oltre_posti t' = g_oltre_posti t) by (by apply (free_page_posti (f * PAGE_SIZE) (kpages h) t p t')).
  assert (Hbit : forall k, k <> f -> pagina_presa (kpages h) k -> pagina_presa p k).
  { intros k Ne [Hk|Hk]; [|right; by rewrite HT]. destruct (decide (0 < k < g_total_pages (kpages h))) as [Hd|Hd].
    - left. by rewrite (proj2 (Hoth k Hd Ne)).
    - destruct (Z.eq_dec k 0) as [Ek|]; [left; rewrite Ek; apply (wf_zero p (ro_wf _ _ I')) | right; rewrite HT; lia]. }
  split; [|split].
  - exists L. split; [|split; [exact I'|]].
    + cbn [rif_heap]. apply (kinv_cambia (clienti o)); [done | apply (ro_wf _ _ I') | |].
      * intros k Hk. unfold clienti, piu in Hk. destruct (Z.eqb_spec k f) as [Ek|Ne].
        -- left. rewrite Ek in Hk |- *. unfold rif_owners in Hle. cbn [rif_heap rif_tab] in Hle. unfold owners in HO at 1.
           destruct (BITMAP_TEST f p); [done | lia].
        -- apply Hbit; [done|]. left. by apply (proj2 (Ho k) ltac:(lia)).
      * intros k Hk Nk. assert (Ne : k <> f) by (intros Ek; apply Nk; unfold clienti; by rewrite Ek). split; [by apply Hbit|].
        unfold clienti, piu in *. rewrite (proj2 (Z.eqb_neq k f) Ne). lia.
    + cbn [rif_ptr rif_tab]. by rewrite Et.
  - change (g_total_pages p < PMM_PAGINE_4GB). rewrite HT. done.
  - intros g. unfold piu. destruct (Ho g) as [H0 Hp]. destruct (Z.eqb_spec g f) as [Eg|Ne].
    + rewrite Eg. split; [lia|]. intros Hpos. unfold in_uso, rif_owners. cbn [rif_heap rif_tab kpages set_pages].
      unfold rif_owners in Hle. cbn [rif_heap rif_tab] in Hle. rewrite HT, HO. split; [|lia]. split; [done|].
      unfold owners in HO at 1. destruct (BITMAP_TEST f p); [done | lia].
    + split; [lia|]. intros Hpos. destruct (Hp ltac:(lia)) as [[Hg Bg] Hle']. cbn [rif_heap] in Hg, Bg.
      destruct (Hoth g Hg Ne) as [O1 B1]. unfold in_uso, rif_owners in *. cbn [rif_heap rif_tab kpages set_pages] in *. rewrite HT, O1, B1. split; [done | lia].
Qed.

(** The size of RAM does not change when the heap grows for the table. *)
Lemma ref_inc_totale a s b s' :
  rif_ok (kpages (rif_heap s)) (rif_tab s) -> pmm_ref_inc a chi s = Ok (b, s') ->
  g_total_pages (kpages (rif_heap s')) = g_total_pages (kpages (rif_heap s)).
Proof.
  intros I. unfold pmm_ref_inc. destruct s as [h t ptr]. cbn [rif_heap rif_tab rif_ptr] in *.
  destruct (g_rif (kpages h) =? 0); [by intros [= _ <-]|]. destruct (negb _); [by intros [= _ <-]|].
  destruct (_ <=? _); [by intros [= _ <-]|]. destruct (negb _); [by intros [= _ <-]|]. destruct (_ <? _); [by intros [= _ <-]|].
  unfold rif_aggiungi. cbn [rif_heap rif_tab rif_ptr]. destruct (oltre_trova t a) as [r| |]; cbn [mbind run_bind]; [|done|done].
  destruct (match r with Some _ => false | None => _ end).
  - destruct (kmalloc _ _ h) as [[nuova h1]| |] eqn:Ek; cbn [mbind run_bind]; [|done|done].
    destruct (kmalloc_rif_ok _ _ _ _ _ t I Ek) as (_ & HT & _).
    destruct (oltre_aggiungi _ a t) as [[ok t']| |]; cbn [mbind run_bind]; [|done|done]. destruct (nuova =? NULL); [by intros [= _ <-]|].
    destruct (ptr =? NULL); cbn [mbind run_bind]; [by intros [= _ <-]|].
    destruct (kfree ptr h1) as [h2| |] eqn:Ef; cbn [mbind run_bind]; [|done|done]. intros [= _ <-]. cbn [rif_heap].
    by rewrite (kpages_kfree _ _ _ Ef).
  - destruct (oltre_aggiungi _ a t) as [[ok t']| |]; cbn [mbind run_bind]; [|done|done]. by intros [= _ <-].
Qed.

(** An owner more. *)
Lemma rif_aggiunge s o f :
  rif_stato s o -> 0 < o f ->
  exists b s', pg_inc (f * PAGE_SIZE) s = Ok (b, s') /\ pg_totale s' = pg_totale s /\ rif_stato s' (piu f (if (b : bool) then 1 else 0) o).
Proof.
  intros ((L & RI) & Hm & Ho) Hf. destruct (proj2 (Ho f) Hf) as [U _].
  destruct (ref_inc_spec (clienti o) s L f chi RI U) as (b & s' & L' & E & RI' & G & _). exists b, s'. split; [done|].
  assert (HT : g_total_pages (kpages (rif_heap s')) = g_total_pages (kpages (rif_heap s))) by (apply (ref_inc_totale (f * PAGE_SIZE) s b s'); [apply RI | done]).
  split; [exact HT|]. split; [|split; [by rewrite HT|]].
  - exists L'. destruct RI' as (K & I & HP). split; [|done]. assert (Eh : set_pages (kpages (rif_heap s')) (rif_heap s') = rif_heap s') by (by destruct (rif_heap s')).
    rewrite <- Eh. apply (kinv_cambia (clienti o)); [done | apply (ro_wf _ _ I) | |].
    + intros k Hk. left. apply (G k). apply (Ho k). unfold clienti, piu in Hk. destruct (Z.eqb_spec k f) as [Ek|]; [by rewrite Ek | lia].
    + intros k Hk Nk. split; [done|]. unfold clienti, piu in *. destruct (Z.eqb_spec k f) as [Ek|]; [rewrite Ek in Nk; lia | lia].
  - intros g. unfold piu. destruct (Ho g) as [H0 Hp]. destruct (Z.eqb_spec g f) as [Eg|Ne].
    + rewrite Eg. split; [destruct b; lia|]. intros _. destruct (Ho f) as [_ Hp']. destruct (Hp' Hf) as [U' Hle]. destruct (G f U') as [G1 G2].
      rewrite Z.eqb_refl in G2. split; [done|]. rewrite G2. lia.
    + split; [lia|]. intros Hpos. destruct (Hp ltac:(lia)) as [U' Hle]. destruct (G g U') as [G1 G2]. rewrite (proj2 (Z.eqb_neq g f) Ne) in G2.
      split; [done | lia].
Qed.

#[export] Instance rif_pagine_ok : PagineOk Rif.
Proof.
  split.
  - intros s o o' ((L & K & I & HP) & Hm & Ho) E. split; [|split; [done | intros f; by rewrite E]]. exists L. split; [|done].
    assert (Eh : set_pages (kpages (rif_heap s)) (rif_heap s) = rif_heap s) by (by destruct (rif_heap s)). rewrite <- Eh.
    apply (kinv_cambia (clienti o)); [done | apply (ro_wf _ _ I) | |].
    + intros k Hk. left. unfold clienti in Hk. rewrite E in Hk. by apply (Ho k).
    + intros k Hk Nk. split; [done|]. unfold clienti in *. by rewrite E.
  - intros s o f (_ & _ & Ho). destruct (Ho f) as [H0 Hp]. split; [done|]. intros Hf. by destruct (Hp Hf) as [[Hr _] _].
  - intros s o (_ & Hm & _). exact Hm.
  - intros s o Hs. cbn [pg_alloc rif_pagine]. assert (W : pmm_wf (kpages (rif_heap s))) by (destruct Hs as ((L & _ & I & _) & _); apply (ro_wf _ _ I)).
    pose proof (pmm_alloc_page_ok _ W) as HA. destruct (pmm_alloc_page (kpages (rif_heap s))) as [a p]. by apply rif_prende.
  - intros s o Hs. cbn [pg_alloc_kernel rif_pagine]. assert (W : pmm_wf (kpages (rif_heap s))) by (destruct Hs as ((L & _ & I & _) & _); apply (ro_wf _ _ I)).
    pose proof (proj1 (pmm_alloc_page_kernel_ok _ W)) as HA. destruct (pmm_alloc_page_kernel (kpages (rif_heap s))) as [a p]. by apply rif_prende.
  - intros s o f. apply rif_rende.
  - intros s o f. apply rif_aggiunge.
  - intros s o f ((L & K & I & _) & _ & Ho) Hf. destruct (proj2 (Ho f) Hf) as [[Hr Hb] Hle]. cbv beta. rewrite <- Hle.
    cbn [pg_conta rif_pagine]. unfold rif_pmm. by apply ref_count_spec.
Qed.

End PagineRif.

(** With no clients. *)
Lemma rif_stato_vuoto s L :
  rif_inv (fun _ => False) s L -> g_total_pages (kpages (rif_heap s)) < PMM_PAGINE_4GB -> rif_stato s (fun _ => 0).
Proof.
  intros (K & I & HP) Hm. split; [|split; [done | intros f; lia]]. exists L. split; [|done].
  assert (Eh : set_pages (kpages (rif_heap s)) (rif_heap s) = rif_heap s) by (by destruct (rif_heap s)). rewrite <- Eh.
  apply (kinv_cambia (fun _ => False)); [done | apply (ro_wf _ _ I) | |].
  - intros k Hk. unfold clienti in Hk. lia.
  - intros k Hk _. split; [done|]. unfold clienti. lia.
Qed.
