(* ===== verification/PagingThms.v ===== *)
(** * Page tables, fork, copy on write: the claims

    Against the interface of the page allocator, for any allocator that keeps it and
    any set of spaces that satisfies the invariant; then tried on a machine of 64
    frames. *)

From S2P Require Import PmmSpec Oltre Kheap KheapInv PmmRef PmmThms PagineRif.
From S2P Require Import Prelude Pmm Pagine Paging Fork PagingBit PagingSpec PagingPassi PagingVista.
From S2P Require Import ForkPassi PagingCow PagingDir PagingMappa PagingMacchina PagineConti.

Section PagingThms.

Context {P : Type} {PG : Pagine P} {PO : PagineOk P} {SC : Scambio P} {SS : SenzaSwap P} {ST : Statiche}.

Implicit Types (m : Mondo P) (D : list Z).

(** C3: [paging_copia_spazio], with the swap off, always returns, with 0 or -ENOMEM; the
    counts of owners agree with the tables in either case, every space but the
    child's sees what it saw, and after 0 the child sees at every address what the
    parent saw, with the same rights, whether the page is shared until the first
    write, shared for good, promised, a buffer of a device or copied at once. *)
Theorem paging_copia_spazio_correct m D ext dma d al :
  spazi m D ext dma -> d ∈ D -> al ∈ D -> d <> al -> schermo d al m -> schermo_presente d m ->
  (forall i j, utente i = true -> 0 <= j < 1024 -> voce m al i j = 0) ->
  exists r m', paging_copia_spazio d al m = Ok (r, m') /\ (r = 0 \/ r = - ENOMEM) /\ spazi m' D ext dma /\
    (forall d' i j, in_usi D (UDat d' i j) -> d' <> al -> stessa_vista m (voce m d' i j) m' (voce m' d' i j)) /\
    (r = 0 -> forall i j, i < PD_INDEX USER_SPACE_END -> utente i = true -> 0 <= j < 1024 ->
       stessa_vista m (voce m d i j) m' (voce m' al i j)).
Proof.
  intros SP Hd Hal Ne S1 S2 Hz. destruct (copia_spazio_spec D ext dma d al Hd Hal Ne m SP S1 S2 Hz) as (r & m' & E & Hr & SP' & T & V).
  exists r, m'. do 3 (split; [done|]). split; [|done]. intros d' i j Hu Nd. apply T; [done|]. intros (? & ? & [= -> _]). done.
Qed.

(** C7: a child made by [paging_create_directory] and [paging_copia_spazio] and then
    destroyed leaves the counts as they were, whatever the copy returned: the owners of
    every frame are those of the spaces that were there before and of [ext], and
    those spaces see what they saw. *)
Theorem paging_fork_undone m D ext dma d x m1 :
  spazi m D ext dma -> d ∈ D -> 0 < ext kernel_page_directory -> paging_create_directory m = Ok (Some x, m1) ->
  (forall i, 16 <= i < 1024 -> utente i = false ->
     fis m d i = fis m kernel_page_directory i /\ (presente m d i = true -> ha (fis m d i) PG_HUGE = false)) ->
  schermo_presente d m1 ->
  exists r m2 m3, paging_copia_spazio d x m1 = Ok (r, m2) /\ paging_destroy_directory (Some x) m2 = Ok m3 /\
    spazi m3 D ext dma /\ pg_stato (pag m3) (fun f => ext f + usi m3 D f) /\
    forall d' i j, in_usi D (UDat d' i j) -> stessa_vista m (voce m d' i j) m3 (voce m3 d' i j).
Proof.
  intros SP Hd Hk E Hfb S2. destruct (create_directory_spec m D ext dma SP Hk) as (r0 & m1' & E' & _ & H). rewrite E in E'. injection E' as <- <-.
  destruct H as (Nx & Nk & SP1 & T1 & Hx). assert (Ndx : d <> x) by (intros ->; done).
  destruct (copia_spazio_spec (x :: D) ext dma d x) with (m := m1) as (r & m2 & E2 & _ & SP2 & T2 & _); try done.
  - by right.
  - left.
  - intros i Hi Hf. rewrite (Hx i) by lia. rewrite Hf. destruct (Hfb i Hi Hf) as [Ef Eh].
    unfold presente in *. rewrite (ti_altre _ _ _ _ T1) by done. split; [by rewrite Ef | done].
  - intros i j Hut Hj. unfold voce, presente. pose proof (utente_range i Hut). rewrite (Hx i) by lia. rewrite Hut. done.
  - destruct (destroy_directory_spec m2 (x :: D) ext dma x SP2 ltac:(left) Nk) as (m3 & E3 & F & Ht & SP3).
    assert (ED : senza x (x :: D) = D) by (unfold senza; rewrite filter_cons_False by tauto; by apply senza_fuori). rewrite ED in SP3.
    exists r, m2, m3. do 3 (split; [done|]). split; [apply SP3|]. intros d' i j Hu.
    apply (vista_trans _ _ m1 (voce m1 d' i j)); [apply T1; [done | intros []]|]. apply (vista_trans _ _ m2 (voce m2 d' i j)).
    + destruct Hu as (? & ? & ?). apply T2; [split; [by right | done]|]. intros (? & ? & [= -> _]). done.
    + apply (ti_vista _ _ _ _ (tiene_pag m2 D m3 nessuno F Ht)); [done | intros []].
Qed.

(** C4: [cow_risolvi] at a page to be copied returns 1 or, with no memory left, -1; no
    program sees anything change, and after 1 the page is writable and the program's
    alone: a word written into it is seen at that address of that space only.  At any
    other page it returns 0 and does nothing. *)
Theorem cow_risolvi_correct k m D ext dma d i j :
  spazi m D ext dma -> in_usi D (UDat d i j) -> i < PD_INDEX USER_SPACE_END -> non_avvolta m D ext (tab (voce m d i j)) ->
  exists r m', cow_risolvi (S k) (Some d) (va i j) m = Ok (r, m') /\ spazi m' D ext dma /\ tiene m D nessuno m' /\
    if PTE_E_COW (voce m d i j)
    then r = 1 /\ ha (voce m' d i j) PG_WRITABLE = true /\
         (forall w v, 0 <= v < W32 -> let m2 := metti (tab (voce m' d i j)) w v m' in
            spazi m2 D ext dma /\ tiene m D (fun s => s = UDat d i j) m2) \/
         r = -1 /\ fis m' = fis m
    else r = 0 /\ m' = m.
Proof.
  intros SP Hu Hi Hn. destruct (cow_risolvi_spec k m D ext dma d i j SP Hu Hi Hn) as (r & m' & E & SP' & T & H).
  exists r, m'. do 3 (split; [done|]). destruct (PTE_E_COW (voce m d i j)); [|done]. destruct H as [[-> Hp]|H]; [left | by right].
  split; [done|]. split; [apply Hp|]. intros w v Hv. destruct (scrive_propria m' D ext dma d i j w v SP' Hu Hp Hv) as (S & T2 & _).
  split; [done|]. apply (tiene_trans _ _ _ _ _ _ _ T T2). unfold nessuno. intros s [|]; done.
Qed.

(** a page promised by [paging_pigra] where there was none and then touched: if both
    return success the entry is present with the rights that were asked for, its frame
    has this use only, and it reads as zeros; nothing else changes for anybody. *)
Theorem paging_pigra_then_tocca m D ext dma d i j flags m1 r m2 :
  spazi m D ext dma -> in_usi D (UDat d i j) -> i < PD_INDEX USER_SPACE_END -> contata m (voce m d i j) = false ->
  paging_pigra d (va i j) flags m = Ok (0, m1) -> paging_pigra_tocca (Some d) (va i j) m1 = Ok (r, m2) ->
  spazi m2 D ext dma /\ tiene m D (fun s => s = UDat d i j) m2 /\
  (r = 0 \/ r = 1 /\ let e := voce m2 d i j in
     ha e PG_PRESENT = true /\ ha e PG_WRITABLE = ha flags PG_WRITABLE /\ ha e PG_USER = ha flags PG_USER /\
     usi m2 D (tab e) = 1 /\ forall k, 0 <= k < 1024 -> fis m2 (tab e) k = 0).
Proof.
  intros SP Hu Hi Hold E1 E2. destruct (pigra_spec m D ext dma d i j flags SP Hu Hold) as (r1 & m1' & E1' & SP1 & H1).
  rewrite E1 in E1'. injection E1' as <- <-. destruct H1 as [[? _]|(_ & T1 & V1)]; [done|].
  destruct (pigra_tocca_spec m1 D ext dma d i j SP1 Hu Hi) as (r2 & m2' & E2' & SP2 & T2 & H2). rewrite E2 in E2'. injection E2' as <- <-.
  split; [done|]. split; [apply (tiene_trans _ _ _ _ _ _ _ T1 T2); tauto|]. rewrite V1 in H2.
  destruct (voce_promessa_ok flags) as (_ & Hg & B). rewrite Hg in H2. destruct H2 as [(-> & x & V2 & Hx & Hu2 & Hz)|[-> _]]; [|by left].
  right. split; [done|]. cbv zeta. rewrite V2. pose proof (pg_max _ _ (sp_conti _ _ _ _ SP2)) as Hmx. unfold PMM_PAGINE_4GB in Hmx.
  destruct (voce_mantenuta_ok (voce_promessa flags) x ltac:(lia)) as (_ & T & B2). rewrite T, !ha_P, !ha_W, !ha_U, !B2, !B by lia. cbn. tauto.
Qed.

(** C8: [paging_destroy_directory] gives back each use of the directory exactly once: the
    directory, its tables, the frames of its pages, not the buffers of devices nor
    what is not RAM; the memory is not written, and the spaces that are left satisfy
    the invariant.  NULL and the directory of the kernel are left alone. *)
Theorem paging_destroy_directory_correct m D ext dma d :
  spazi m D ext dma -> d ∈ D ->
  exists m', paging_destroy_directory (Some d) m = Ok m' /\ paging_destroy_directory None m = Ok m /\
    if d =? kernel_page_directory then m' = m
    else fis m' = fis m /\ spazi m' (senza d D) ext dma /\
      pg_stato (pag m') (fun f => ext f + usi m D f - somma (uso m f) (usi_dir d)).
Proof.
  intros SP Hd. destruct (Z.eqb_spec d kernel_page_directory) as [E|N].
  - exists m. split; [|done]. cbn [paging_destroy_directory]. by rewrite E, Z.eqb_refl.
  - destruct (destroy_directory_spec m D ext dma d SP Hd N) as (m' & E & F & Ht & SP'). exists m'. do 4 (split; [done|]).
    eapply pg_ext; [exact (sp_conti _ _ _ _ SP')|]. intros f. cbn beta. rewrite (usi_senza m D d f (sp_nodup _ _ _ _ SP) Hd).
    rewrite (usi_ext m m' (senza d D) f); [lia|]. intros s _. by apply uso_stesso.
Qed.

(** a page of the kernel mapped where there was none, with rights that do not mark
    it as a buffer nor to be copied: [paging_get_physical] gives its address at every
    offset, its words are untouched, and [paging_unmap_page] takes it out again and
    gives it back to the caller, nobody else seeing anything. *)
Theorem paging_map_unmap_roundtrip m D ext dma d i j f flags m1 o :
  spazi m D ext dma -> in_usi D (UDat d i j) -> ha (voce m d i j) PG_PRESENT = false ->
  0 < ext f -> ~ dma f -> usi m D f = 0 -> ha flags PG_FISSA = false -> ha flags PG_COW = false -> 0 <= o < 4096 ->
  paging_map_page d (va i j) (f * PAGE_SIZE) flags m = Ok (0, m1) ->
  paging_get_physical d (va i j + o) m1 = f * PAGE_SIZE + o /\ spazi m1 D (piu f (-1) ext) dma /\
  (forall k, fis m1 f k = fis m f k) /\
  exists m2, paging_unmap_page d (va i j) m1 = Ok m2 /\ spazi m2 D ext dma /\ voce m2 d i j = 0 /\
    paging_get_physical d (va i j + o) m2 = 0 /\ tiene m D (fun s => s = UDat d i j) m2.
Proof.
  intros SP Hu Ha He Nd U0 H9 H10 Ho E. assert (Ns : ~ strutt m D f) by (intros Hs; rewrite (sp_strutt _ _ _ _ SP f Hs) in U0; lia).
  destruct (mappa_spec m D ext dma d i j f flags SP Hu Ha He Nd Ns H9 H10 (or_introl U0)) as (r & m1' & E' & H). rewrite E in E'. injection E' as <- <-.
  destruct H as [(? & _)|(_ & SP1 & T1 & V1 & F1)]; [done|]. pose proof (sp_o m D ext dma SP f) as (_ & _ & Hr). specialize (Hr ltac:(lia)).
  pose proof (pg_max _ _ (sp_conti _ _ _ _ SP)) as Hmx. unfold PMM_PAGINE_4GB in Hmx.
  destruct (voce_mappa_ok f flags ltac:(lia)) as (R & T & B). split; [|split; [done|split; [done|]]].
  { rewrite (get_physical_voce m1 D _ dma d i j o SP1 Hu Ho), V1, ha_P, B, T by lia. by rewrite orb_true_r. }
  destruct (unmap_spec m1 D _ dma d i j SP1 Hu) as (m2 & E2 & SP2 & T2 & V2). exists m2. split; [done|].
  assert (Hc : contata m1 (voce m1 d i j) = true).
  { rewrite V1, (contata_totale m m1) by apply T1. unfold contata, PMM_OLTRE_RAM. rewrite ha_P, ha_F, !B by lia. rewrite ha_F in H9.
    rewrite H9, PG_ADDR_tab, T, u32_small by (done || (unfold PAGE_SIZE, W32; lia)). rewrite orb_true_r. cbn [andb orb negb Z.eqb].
    rewrite andb_true_r. apply negb_true_iff, Z.leb_gt. unfold PAGE_SIZE. lia. }
  rewrite Hc, V1, T in SP2. cbn [uno] in SP2. assert (SP3 : spazi m2 D ext dma).
  { apply (spazi_conti m2 D _ dma m2 ext SP2); try done; [apply (sp_ext _ _ _ _ SP) | intros g Hg; by apply (sp_dma _ _ _ _ SP) |].
    eapply pg_ext; [exact (sp_conti _ _ _ _ SP2)|]. intros g. unfold piu. destruct (g =? f); lia. }
  split; [done|]. split; [done|]. split; [by rewrite (get_physical_voce m2 D ext dma d i j o SP3 Hu Ho), V2|].
  apply (tiene_trans _ _ _ _ _ _ _ T1 T2). tauto.
Qed.

(** [spezza_4mb] replaces a page of 4 MB with a table that translates every address
    as before ([paging_get_physical] of the whole directory does not change), or finds
    no memory and leaves the directory as it was; no frame but the directory and the
    new table is written. *)
Theorem spezza_4mb_equivalent m (o : Z -> Z) d i :
  pg_stato (pag m) o -> (forall f k, 0 <= fis m f k < W32) -> 0 < o d -> 0 <= i < 1024 ->
  ha (fis m d i) PG_PRESENT = true -> ha (fis m d i) PG_HUGE = true ->
  (forall k, 0 <= k < 1024 -> ha (fis m d k) PG_PRESENT = true -> ha (fis m d k) PG_HUGE = false ->
     0 < o (tab (fis m d k)) /\ tab (fis m d k) <> d) ->
  exists r m', spezza_4mb d i m = Ok (r, m') /\
    (r = -1 /\ fis m' = fis m /\ pg_stato (pag m') o \/
     r = 0 /\ exists x, o x = 0 /\ pg_stato (pag m') (piu x 1 o) /\ ha (fis m' d i) PG_HUGE = false /\
       (forall f k, f <> x -> (f <> d \/ k <> i) -> fis m' f k = fis m f k) /\
       forall v, 0 <= v < W32 -> paging_get_physical d v m' = paging_get_physical d v m).
Proof. apply spezza_spec. Qed.

(** C5: the invariant of the page tables (words of 32 bits, tables that are tables, one
    use of each directory and table, one user of each frame that a program may write
    unless it is meant to be shared, counts of owners equal to the uses) holds after
    any sequence of the steps of the machine.  These are: a directory made, with the
    directory of the kernel owned; a fork into a child with no page yet, whose entries
    of the framebuffer are the parent's; the end of a directory that is not the
    kernel's; a copy on write where the owners of the frame are fewer than 2^32; the
    first use of a promised page; a mapping where no page is present, of a frame that
    the kernel holds, is no table and no buffer of a device, with flags that do not mark
    it as a buffer nor to be copied, and which nobody uses or else all its users and the
    new one share on purpose; an unmapping; a promise or a reservation where no page is
    counted; a page taken by the kernel, or given back, which is not a device's; a write
    of a program at any page that it may write, private or not.  Pages mapped over
    present ones and buffers marked by a driver are not steps; the swap is off. *)
Theorem paging_always_well_formed dma chi (s s' : Stato) :
  passi dma chi s s' -> bene dma s -> bene dma s'.
Proof. apply passi_bene. Qed.

(** C2: isolation, page by page.  Take any sequence of the steps of the machine (those
    listed for the invariant, with their conditions) none of which is a call for the
    directory [d] nor a use of its memory by its own program, and in which no program
    writes, through a page shared on purpose, a buffer of a device or a page outside the
    RAM, into the frame that [d] sees at the page [i], [j].  It may hold writes of the
    other programs to all their private pages and to whatever else they share, forks of
    [d] into other spaces, copies on write, also of the page of [d], and the end of the
    others.  Then [d] is still there, and its page has the words and the rights that it
    had. *)
Theorem paging_isolation dma (s s' : Stato) d i j :
  passi dma (altrui d i j) s s' -> bene dma s -> d ∈ st_D s -> utente i = true -> 0 <= j < 1024 ->
  d ∈ st_D s' /\ stessa_vista (st_m s) (voce (st_m s) d i j) (st_m s') (voce (st_m s') d i j).
Proof. apply passi_vista. Qed.

End PagingThms.

(** ** A machine of 64 frames

    Frame 1 is the directory of the kernel; two directories are made, a page is mapped
    in the first and another promised. *)

Module Prova.

#[export] Instance statiche : Statiche := {| kernel_page_directory := 1; g_fb_pde_da := 960; g_fb_pde_a := 962 |}.

Definition dopo {A} (m : Mondo Conti) (r : run (A * Mondo Conti)) : Mondo Conti := match r with Ok (_, m') => m' | _ => m end.
Definition esito {A} (r : run (A * Mondo Conti)) : option A := match r with Ok (a, _) => Some a | _ => None end.

Definition e0 (f : Z) : Z := if f =? 1 then 1 else 0.
Definition niente (f : Z) : Prop := False.

Definition m0 : Mondo Conti := mkMondo (fun _ _ => 0) (mkConti 64 e0).
Definition m1 : Mondo Conti := dopo m0 (paging_create_directory m0).
Definition m2 : Mondo Conti := dopo m1 (paging_create_directory m1).
Definition m3 : Mondo Conti := con_pag (snd (pg_alloc (pag m2))) m2.
Definition m4 : Mondo Conti := dopo m3 (paging_map_page 2 (va 16 0) (4 * PAGE_SIZE) 7 m3).
Definition m5 : Mondo Conti := dopo m4 (paging_pigra 2 (va 16 1) 6 m4).

Lemma ok_dopo {A} (m : Mondo Conti) (r : run (A * Mondo Conti)) a : esito r = Some a -> r = Ok (a, dopo m r).
Proof. destruct r as [[a' m']| |]; [|done|done]. cbn. by intros [= ->]. Qed.

Lemma spazi0 : spazi m0 [] e0 niente.
Proof.
  assert (U : forall f, usi m0 [] f = 0) by done. assert (N : forall d, d ∈ ([] : list Z) -> False) by (intros d H; by apply not_elem_of_nil in H).
  split.
  - done.
  - apply NoDup_nil_2.
  - intros f. unfold e0. destruct (f =? 1); lia.
  - split; [|split; [|done]]; intros f; [rewrite U; cbn; lia|]. cbn. unfold e0. destruct (Z.eqb_spec f 1) as [->|]; lia.
  - intros d i H. by destruct (N d H).
  - intros f [H|(d & i & H & _)]; [by destruct (N f H) | by destruct (N d H)].
  - intros d i j (H & _). by destruct (N d H).
  - intros d i j (H & _). by destruct (N d H).
  - done.
  - intros d i j (H & _). by destruct (N d H).
  - intros d i j (H & _). by destruct (N d H).
Qed.

Lemma conti_usi (m : Mondo Conti) D ext dma f : spazi m D ext dma -> ext f + usi m D f = cn_owners (pag m) f.
Proof. intros SP. destruct (sp_conti _ _ _ _ SP) as [E _]. apply E. Qed.

Lemma spazi1 : spazi m1 [2] e0 niente.
Proof.
  assert (Hp : passo niente Kernel (mkStato m0 [] e0) (mkStato m1 [2] e0)).
  { apply (p_crea niente m0 [] e0 (Some 2) m1); [done|]. by apply ok_dopo. }
  exact (proj1 (passo_bene niente Kernel (mkStato m0 [] e0) (mkStato m1 [2] e0) spazi0 Hp)).
Qed.

Lemma spazi2 : spazi m2 [3; 2] e0 niente.
Proof.
  assert (Hp : passo niente Kernel (mkStato m1 [2] e0) (mkStato m2 [3; 2] e0)).
  { apply (p_crea niente m1 [2] e0 (Some 3) m2); [done|]. by apply ok_dopo. }
  exact (proj1 (passo_bene niente Kernel (mkStato m1 [2] e0) (mkStato m2 [3; 2] e0) spazi1 Hp)).
Qed.

Definition e3 : Z -> Z := piu 4 1 e0.
Definition e4 : Z -> Z := piu 4 (-1) e3.

Lemma passo3 : passo niente Kernel (mkStato m2 [3; 2] e0) (mkStato m3 [3; 2] e3).
Proof. apply (p_prende niente m2 [3; 2] e0 4 (snd (pg_alloc (pag m2)))); [vm_compute; done | done]. Qed.

Lemma spazi3 : spazi m3 [3; 2] e3 niente.
Proof. exact (proj1 (passo_bene niente Kernel (mkStato m2 [3; 2] e0) (mkStato m3 [3; 2] e3) spazi2 passo3)). Qed.

Lemma libera4 : usi m3 [3; 2] 4 = 0.
Proof.
  assert (E1 : cn_owners (pag m3) 4 = 1) by (vm_compute; reflexivity). assert (E3 : e3 4 = 1) by reflexivity.
  pose proof (conti_usi m3 _ _ _ 4 spazi3) as E. rewrite E1, E3 in E. lia.
Qed.

Lemma in23 i j : utente i = true -> 0 <= j < 1024 -> in_usi [3; 2] (UDat 2 i j) /\ in_usi [3; 2] (UDat 3 i j).
Proof. intros. split; (split; [set_solver | done]). Qed.

Lemma map4 : paging_map_page 2 (va 16 0) (4 * PAGE_SIZE) 7 m3 = Ok (0, m4).
Proof. by apply ok_dopo. Qed.

Lemma passo4 : passo niente (Per 2) (mkStato m3 [3; 2] e3) (mkStato m4 [3; 2] e4).
Proof.
  apply (p_mappa niente m3 [3; 2] e3 2 16 0 4 7 0 m4).
  - by apply in23.
  - vm_compute. reflexivity.
  - vm_compute. reflexivity.
  - intros [].
  - intros H. pose proof (sp_strutt _ _ _ _ spazi3 4 H) as U. rewrite libera4 in U. discriminate U.
  - reflexivity.
  - reflexivity.
  - left. exact libera4.
  - exact map4.
Qed.

Lemma spazi4 : spazi m4 [3; 2] e4 niente.
Proof. exact (proj1 (passo_bene niente (Per 2) (mkStato m3 [3; 2] e3) (mkStato m4 [3; 2] e4) spazi3 passo4)). Qed.

Lemma pigra5 : paging_pigra 2 (va 16 1) 6 m4 = Ok (0, m5).
Proof. by apply ok_dopo. Qed.

Lemma passo5 : passo niente (Per 2) (mkStato m4 [3; 2] e4) (mkStato m5 [3; 2] e4).
Proof. apply (p_promette niente m4 [3; 2] e4 2 16 1 6 0 m5); [by apply in23 | done | exact pigra5]. Qed.

Lemma spazi5 : spazi m5 [3; 2] e4 niente.
Proof. exact (proj1 (passo_bene niente (Per 2) (mkStato m4 [3; 2] e4) (mkStato m5 [3; 2] e4) spazi4 passo5)). Qed.

(** The second directory is still as it was made. *)
Lemma vuoto2 i j : utente i = true -> voce m2 3 i j = 0.
Proof.
  intros Hi. destruct (create_directory_spec m1 [2] e0 niente spazi1 ltac:(done)) as (r & m' & E & _ & H).
  assert (E2 : paging_create_directory m1 = Ok (Some 3, m2)) by (by apply ok_dopo). rewrite E2 in E. injection E as <- <-.
  destruct H as (_ & _ & _ & _ & H). pose proof (utente_range i Hi). unfold voce, presente. rewrite (H i) by lia. by rewrite Hi.
Qed.

Lemma passi25 i j : passi niente (altrui 3 i j) (mkStato m2 [3; 2] e0) (mkStato m5 [3; 2] e4).
Proof.
  eapply passi_cons; [|exact passo3|]; [done|]. eapply passi_cons; [|exact passo4|]; [done|].
  eapply passi_cons; [|exact passo5|]; [done | apply passi_nil].
Qed.

Lemma vuoto3 i j : utente i = true -> 0 <= j < 1024 -> voce m5 3 i j = 0.
Proof.
  intros Hi Hj. destruct (passi_vista niente 3 i j _ _ (passi25 i j) spazi2 ltac:(left) Hi Hj) as [_ W].
  cbn [st_m] in W. rewrite (vuoto2 i j Hi) in W. exact W.
Qed.

(** The entries of the framebuffer are absent. *)
Lemma schermo_voci i : utente i = false -> 16 <= i < 1024 -> i = 960 \/ i = 961.
Proof.
  intros Hu Hi. unfold utente in Hu. cbn [g_fb_pde_da g_fb_pde_a statiche] in Hu.
  rewrite (proj2 (Z.leb_le 16 i)), (proj2 (Z.ltb_lt i 1024)) in Hu by lia.
  cbn [andb] in Hu. apply negb_false_iff, andb_true_iff in Hu as [H1%Z.leb_le H2%Z.ltb_lt]. lia.
Qed.

Lemma schermo5 : schermo 2 3 m5 /\ schermo_presente 2 m5.
Proof.
  split.
  - intros i Hi Hf. destruct (schermo_voci i Hf Hi) as [->| ->]; vm_compute; done.
  - intros i j Hi Hf Hp. exfalso. destruct (schermo_voci i Hf Hi) as [->| ->]; vm_compute in Hp; done.
Qed.

Lemma fork_riesce : esito (paging_copia_spazio 2 3 m5) = Some 0.
Proof. vm_compute. reflexivity. Qed.

Definition m6 : Mondo Conti := dopo m5 (paging_copia_spazio 2 3 m5).

Lemma in32 : 2 ∈ ([3; 2] : list Z) /\ 3 ∈ ([3; 2] : list Z).
Proof. set_solver. Qed.

Lemma spazi6 : spazi m6 [3; 2] e4 niente.
Proof.
  assert (Hp : passo niente (Per 3) (mkStato m5 [3; 2] e4) (mkStato m6 [3; 2] e4)).
  { apply (p_fork niente m5 [3; 2] e4 2 3 0 m6); [apply in32 | apply in32 | lia | apply schermo5 | apply schermo5 | apply vuoto3 |].
    apply ok_dopo, fork_riesce. }
  exact (proj1 (passo_bene niente (Per 3) (mkStato m5 [3; 2] e4) (mkStato m6 [3; 2] e4) spazi5 Hp)).
Qed.

(** The page that parent and child share has two owners. *)
Lemma conta6 : tab (voce m6 2 16 0) = 4 /\ non_avvolta m6 [3; 2] e4 (tab (voce m6 2 16 0)).
Proof.
  assert (E : tab (voce m6 2 16 0) = 4) by (vm_compute; reflexivity). split; [exact E|]. rewrite E. unfold non_avvolta.
  rewrite (conti_usi m6 [3; 2] e4 niente 4 spazi6). vm_compute. reflexivity.
Qed.

(** Another directory, and its end. *)
Definition m7 : Mondo Conti := dopo m5 (paging_create_directory m5).

Lemma crea7 : paging_create_directory m5 = Ok (Some 6, m7).
Proof. apply ok_dopo. vm_compute. reflexivity. Qed.

Lemma schermo7 : schermo_presente 2 m7.
Proof. intros i j Hi Hf Hp. exfalso. destruct (schermo_voci i Hf Hi) as [->| ->]; vm_compute in Hp; discriminate Hp. Qed.

Lemma schermo_nucleo i : 16 <= i < 1024 -> utente i = false ->
  fis m5 2 i = fis m5 kernel_page_directory i /\ (presente m5 2 i = true -> ha (fis m5 2 i) PG_HUGE = false).
Proof. intros Hi Hf. destruct (schermo_voci i Hf Hi) as [->| ->]; vm_compute; done. Qed.

(** The directory of the kernel with a page of 4 MB. *)
Definition m8 : Mondo Conti := metti 1 0 0x83 m0.

Lemma grande8 : pg_stato (pag m8) e0 /\ (forall f k, 0 <= fis m8 f k < W32) /\
  forall k, 0 <= k < 1024 -> ha (fis m8 1 k) PG_PRESENT = true -> ha (fis m8 1 k) PG_HUGE = false ->
    0 < e0 (tab (fis m8 1 k)) /\ tab (fis m8 1 k) <> 1.
Proof.
  split; [|split].
  - eapply pg_ext; [exact (sp_conti _ _ _ _ spazi0)|]. intros f. cbn beta. change (usi m0 [] f) with 0. lia.
  - intros f k. cbn [fis m8 metti m0]. destruct (_ && _); unfold W32; lia.
  - intros k _ Hp Hh. exfalso. cbn [fis m8 metti m0] in Hp, Hh. destruct (_ && _); [vm_compute in Hh | vm_compute in Hp]; discriminate.
Qed.

End Prova.

#[local] Existing Instance Prova.statiche.

Lemma paging_copia_spazio_correct_witness :
  exists m', paging_copia_spazio 2 3 Prova.m5 = Ok (0, m') /\
    stessa_vista Prova.m5 (voce Prova.m5 2 16 0) m' (voce m' 3 16 0) /\ stessa_vista Prova.m5 (voce Prova.m5 2 16 1) m' (voce m' 3 16 1).
Proof.
  destruct (paging_copia_spazio_correct Prova.m5 [3; 2] Prova.e4 Prova.niente 2 3 Prova.spazi5 ltac:(set_solver) ltac:(set_solver) ltac:(lia)
    (proj1 Prova.schermo5) (proj2 Prova.schermo5) Prova.vuoto3) as (r & m' & E & _ & _ & _ & V).
  pose proof Prova.fork_riesce as F. rewrite E in F. injection F as ->. exists m'. split; [done|].
  split; (apply (V eq_refl); [vm_compute; reflexivity | reflexivity | lia]).
Defined.

Lemma paging_fork_undone_witness :
  exists r m2 m3, paging_copia_spazio 2 6 Prova.m7 = Ok (r, m2) /\ paging_destroy_directory (Some 6) m2 = Ok m3 /\
    stessa_vista Prova.m5 (voce Prova.m5 2 16 0) m3 (voce m3 2 16 0).
Proof.
  destruct (paging_fork_undone Prova.m5 [3; 2] Prova.e4 Prova.niente 2 6 Prova.m7 Prova.spazi5 (proj1 Prova.in32) eq_refl
    Prova.crea7 Prova.schermo_nucleo Prova.schermo7) as (r & m2 & m3 & E2 & E3 & _ & _ & V).
  exists r, m2, m3. split; [exact E2|]. split; [exact E3|]. apply V. exact (proj1 (Prova.in23 16 0 eq_refl ltac:(lia))).
Defined.

Lemma cow_risolvi_correct_witness :
  exists m', cow_risolvi 1 (Some 2) (va 16 0) Prova.m6 = Ok (1, m') /\ ha (voce m' 2 16 0) PG_WRITABLE = true /\
    tiene Prova.m6 [3; 2] (fun s => s = UDat 2 16 0) (metti (tab (voce m' 2 16 0)) 7 99 m').
Proof.
  destruct (cow_risolvi_correct 0 Prova.m6 [3; 2] Prova.e4 Prova.niente 2 16 0 Prova.spazi6 (proj1 (Prova.in23 16 0 eq_refl ltac:(lia)))
    ltac:(reflexivity) (proj2 Prova.conta6)) as (r & m' & E & _ & _ & H).
  assert (F : Prova.esito (cow_risolvi 1 (Some 2) (va 16 0) Prova.m6) = Some 1) by (vm_compute; reflexivity).
  rewrite E in F. injection F as ->. assert (C : PTE_E_COW (voce Prova.m6 2 16 0) = true) by (vm_compute; reflexivity). rewrite C in H.
  destruct H as [(_ & Hw & V)|[H _]]; [|discriminate H]. exists m'. split; [exact E|]. split; [exact Hw|]. apply (V 7 99). unfold W32. lia.
Defined.

Lemma paging_pigra_then_tocca_witness :
  exists m2, paging_pigra_tocca (Some 2) (va 16 1) Prova.m5 = Ok (1, m2) /\ ha (voce m2 2 16 1) PG_WRITABLE = true /\
    fis m2 (tab (voce m2 2 16 1)) 5 = 0.
Proof.
  assert (E2 : paging_pigra_tocca (Some 2) (va 16 1) Prova.m5 = Ok (1, Prova.dopo Prova.m5 (paging_pigra_tocca (Some 2) (va 16 1) Prova.m5)))
    by (apply Prova.ok_dopo; vm_compute; reflexivity).
  destruct (paging_pigra_then_tocca Prova.m4 [3; 2] Prova.e4 Prova.niente 2 16 1 6 Prova.m5 1 _ Prova.spazi4
    (proj1 (Prova.in23 16 1 eq_refl ltac:(lia))) ltac:(reflexivity) ltac:(vm_compute; reflexivity) Prova.pigra5 E2) as (_ & _ & [H|(_ & _ & Hw & _ & _ & Hz)]);
    [discriminate H|].
  eexists. split; [exact E2|]. split; [exact Hw|]. apply Hz. lia.
Defined.

Lemma paging_destroy_directory_correct_witness :
  exists m', paging_destroy_directory (Some 2) Prova.m5 = Ok m' /\ spazi m' (senza 2 [3; 2]) Prova.e4 Prova.niente.
Proof.
  destruct (paging_destroy_directory_correct Prova.m5 [3; 2] Prova.e4 Prova.niente 2 Prova.spazi5 (proj1 Prova.in32)) as (m' & E & _ & H).
  exists m'. split; [exact E|]. exact (proj1 (proj2 H)).
Defined.

Lemma paging_map_unmap_roundtrip_witness :
  paging_get_physical 2 (va 16 0 + 5) Prova.m4 = 4 * PAGE_SIZE + 5 /\
  exists m2, paging_unmap_page 2 (va 16 0) Prova.m4 = Ok m2 /\ paging_get_physical 2 (va 16 0 + 5) m2 = 0.
Proof.
  destruct (paging_map_unmap_roundtrip Prova.m3 [3; 2] Prova.e3 Prova.niente 2 16 0 4 7 Prova.m4 5 Prova.spazi3
    (proj1 (Prova.in23 16 0 eq_refl ltac:(lia))) ltac:(vm_compute; reflexivity) ltac:(reflexivity) (fun h => h) Prova.libera4
    eq_refl eq_refl ltac:(lia) Prova.map4) as (E & _ & _ & m2 & E2 & _ & _ & G & _).
  split; [exact E|]. exists m2. split; [exact E2 | exact G].
Defined.

Lemma spezza_4mb_equivalent_witness :
  exists m', spezza_4mb 1 0 Prova.m8 = Ok (0, m') /\ paging_get_physical 1 0x123456 m' = 0x123456.
Proof.
  destruct (spezza_4mb_equivalent Prova.m8 Prova.e0 1 0 (proj1 Prova.grande8) (proj1 (proj2 Prova.grande8)) ltac:(reflexivity) ltac:(lia)
    eq_refl eq_refl (proj2 (proj2 Prova.grande8))) as (r & m' & E & H).
  assert (F : Prova.esito (spezza_4mb 1 0 Prova.m8) = Some 0) by (vm_compute; reflexivity). rewrite E in F. injection F as ->.
  destruct H as [[H _]|(_ & x & _ & _ & _ & _ & G)]; [discriminate H|]. exists m'. split; [exact E|].
  rewrite G by (unfold W32; lia). vm_compute. reflexivity.
Defined.

Lemma paging_always_well_formed_witness : bene Prova.niente (mkStato Prova.m5 [3; 2] Prova.e4).
Proof. exact (paging_always_well_formed Prova.niente _ _ _ (Prova.passi25 0 0) Prova.spazi2). Defined.

Lemma paging_isolation_witness : 3 ∈ ([3; 2] : list Z) /\ voce Prova.m5 3 20 7 = 0.
Proof.
  destruct (paging_isolation Prova.niente (mkStato Prova.m2 [3; 2] Prova.e0) (mkStato Prova.m5 [3; 2] Prova.e4) 3 20 7
    (Prova.passi25 20 7) Prova.spazi2 (proj2 Prova.in32) eq_refl ltac:(lia)) as [H V].
  split; [exact H|]. cbn [st_m] in V. rewrite (Prova.vuoto2 20 7 eq_refl) in V. exact V.
Defined.

(** ** The allocator of the kernel *)

Lemma rif_piccolo_stato chi : @pg_stato Rif (rif_pagine chi) rif_piccolo (fun _ => 0).
Proof. destruct rif_piccolo_inv as (L & RI). apply (rif_stato_vuoto rif_piccolo L RI). vm_compute. reflexivity. Qed.

(** C6: pmm.c keeps what paging.c relies on, on any state in which it serves the clients
    [o] (the pages that they hold are in use, with exactly their owners in the counts,
    and are not pages of the heap).  [pmm_alloc_page] and [pmm_alloc_page_kernel] give
    nothing and change nothing, or give a page that was free and has one owner after;
    [pmm_free_page] of a page in use takes exactly one owner away, and the page is free
    after it exactly when that was the last; in both cases no other page changes.
    [pmm_ref_inc] adds exactly one owner or, only when the byte of the page is full,
    returns false and adds none; every other page in use keeps its owners (free pages
    may go to the heap, which grows for the table of excess owners).  [pmm_ref_count] is
    the number of owners, at 32 bits.  So pmm.c is an instance of the interface that the
    theorems on page tables assume, and there is a machine in such a state, with pages
    to give. *)
Theorem pmm_serves_paging (chi : Z) :
  @PagineOk Rif (rif_pagine chi) /\
  (forall s o, @pg_stato Rif (rif_pagine chi) s o ->
     una_pagina s (pmm_alloc_page (kpages (rif_heap s))) /\ una_pagina s (pmm_alloc_page_kernel (kpages (rif_heap s))) /\
     forall f, in_uso s f ->
       (exists p t, pmm_free_page (f * PAGE_SIZE) (rif_pmm s) = Ok (p, t) /\
          let s' := mkRif (set_pages p (rif_heap s)) t (rif_ptr s) in
          rif_owners s' f = rif_owners s f - 1 /\ BITMAP_TEST f p = (1 <? rif_owners s f) /\ altre_uguali f s s') /\
       (exists b s', pmm_ref_inc (f * PAGE_SIZE) chi s = Ok (b, s') /\
          (b = false -> rif_at (kpages (rif_heap s)) f = RIF_MAX) /\
          forall q, in_uso s q -> in_uso s' q /\ rif_owners s' q = rif_owners s q + (if (q =? f) && b then 1 else 0)) /\
       pmm_ref_count (f * PAGE_SIZE) (rif_pmm s) = Ok (u32 (rif_owners s f))) /\
  exists s, @pg_stato Rif (rif_pagine chi) s (fun _ => 0) /\ fst (@pg_alloc Rif (rif_pagine chi) s) <> 0.
Proof.
  split; [apply rif_pagine_ok|]. split.
  - intros s o ((L & RI) & _). pose proof RI as (_ & I & _). pose proof (ro_wf _ _ I) as W.
    split; [by apply una_pagina_ok, pmm_alloc_page_ok|]. split; [by apply una_pagina_ok, pmm_alloc_page_kernel_ok|].
    intros f U. split; [by apply un_proprietario_meno|]. split.
    + destruct (ref_inc_spec (clienti o) s L f chi RI U) as (b & s' & L' & E & _ & G & F). exists b, s'. split; [done|]. split; [done|].
      intros q Hq. destruct (G q Hq) as [G1 G2]. split; [done|]. rewrite G2. by destruct (q =? f), b.
    + destruct U as [Hr Hb]. by apply ref_count_spec.
  - exists rif_piccolo. split; [apply rif_piccolo_stato|]. vm_compute. discriminate.
Qed.
