(* ===== verification/MemsysPassi.v ===== *)
(** * The memory system calls, page by page

    What each body of a loop does to one page, and what follows for the loop: the pages
    of a range ([fascia]) are all treated, or all put back.  Entries outside the range
    are the same ([ferme]). *)

From S2P Require Import Prelude Bytes Pmm Pagine Paging Fork PagingBit PagingSpec PagingPassi PagingVista.
From S2P Require Import PagingCow PagingMappa Memsys.

(** The screen is not among the pages of programs. *)
Class SchermoFuori {ST : Statiche} : Prop := schermo_fuori i : 16 <= i < PD_INDEX USER_SPACE_END -> utente i = true.

(** A page of a program. *)
Definition pagina_ok (a : Z) : Prop := a mod 4096 = 0 /\ USER_SPACE_BASE <= a < USER_SPACE_END.

(** The place of an address, and those of the pages [i] to [j - 1] from [a]. *)
Definition posto (d a : Z) : Uso := UDat d (PD_INDEX a) (PT_INDEX a).
Definition fascia (d a i j : Z) (s : Uso) : Prop := exists k, i <= k < j /\ s = posto d (a + k * PAGE_SIZE).

Definition fascia_ok (a n : Z) : Prop := a mod 4096 = 0 /\ USER_SPACE_BASE <= a /\ 0 <= n /\ a + n * PAGE_SIZE <= USER_SPACE_END.

(** ** Addresses *)

Lemma indici a : 0 <= a < W32 -> PD_INDEX a = a / 4194304 /\ PT_INDEX a = a / 4096 mod 1024.
Proof.
  intros Ha. unfold PD_INDEX, PT_INDEX. rewrite !land_3ff, !Z.shiftr_div_pow2 by lia. change (2 ^ 22) with 4194304. change (2 ^ 12) with 4096.
  unfold W32 in Ha. zdm.
Qed.

Lemma indirizzo a : a mod 4096 = 0 -> 0 <= a < W32 -> va (PD_INDEX a) (PT_INDEX a) = a.
Proof. intros Hm Ha. destruct (indici a Ha) as [-> ->]. unfold va, W32 in *. zdm. Qed.

Lemma pagina_ok_range a : pagina_ok a -> a mod 4096 = 0 /\ 0 <= a < W32.
Proof. unfold pagina_ok, USER_SPACE_BASE, USER_SPACE_END, W32. lia. Qed.

Lemma pagina_fascia a n k : fascia_ok a n -> 0 <= k < n -> pagina_ok (a + k * PAGE_SIZE).
Proof.
  unfold fascia_ok, pagina_ok, PAGE_SIZE. intros (Hm & Hb & Hn & He) Hk. split; [|nia].
  rewrite Z.mod_add by lia. done.
Qed.

Lemma fascia_u32 a n k : fascia_ok a n -> 0 <= k < n -> u32 (a + k * PAGE_SIZE) = a + k * PAGE_SIZE.
Proof. intros Hf Hk. apply u32_small. apply pagina_ok_range. by apply (pagina_fascia a n). Qed.

Lemma posto_inj d d' a b : pagina_ok a -> pagina_ok b -> posto d a = posto d' b -> d = d' /\ a = b.
Proof.
  intros Ha Hb E. unfold posto in E. injection E as -> E1 E2. split; [done|].
  apply pagina_ok_range in Ha as [Ha Ra]. apply pagina_ok_range in Hb as [Hb Rb].
  by rewrite <- (indirizzo a Ha Ra), <- (indirizzo b Hb Rb), E1, E2.
Qed.

Lemma pagina_indici a : pagina_ok a -> 16 <= PD_INDEX a < PD_INDEX USER_SPACE_END /\ 0 <= PT_INDEX a < 1024.
Proof.
  intros Ha. pose proof (pagina_ok_range a Ha) as [_ Hr]. destruct (indici a Hr) as [-> ->]. destruct Ha as [Hm Ha].
  change (PD_INDEX USER_SPACE_END) with 768. unfold USER_SPACE_BASE, USER_SPACE_END in Ha. zdm.
Qed.

(** How many pages a length takes: on 32 bits the sum of [ALIGN_UP] can wrap. *)
Lemma pagine_di_spec n : 0 <= n <= 0xFFFFF000 -> pagine_di n = (n + 4095) / 4096.
Proof.
  intros Hn. unfold pagine_di. change PAGE_SIZE with 4096. rewrite align_up_4096 by (unfold W32; lia). by rewrite Z.div_mul.
Qed.

Lemma pagine_di_avvolta n : 0xFFFFF000 < n < W32 -> pagine_di n = 0.
Proof.
  intros Hn. unfold pagine_di, align_up, u32. change PAGE_SIZE with 4096. unfold W32 in *.
  replace ((n + (4096 - 1)) mod 4294967296) with (n - 0xFFFFF001) by zdm.
  change (Z.lnot (4096 - 1) mod 4294967296) with (2 ^ 32 - 2 ^ 12). change (2 ^ 32) with W32. rewrite land_highmask by (unfold W32; lia).
  change (2 ^ 12) with 4096. rewrite Z.mod_small by lia. by rewrite Z.sub_diag.
Qed.

Lemma pagine_di_range n : 0 <= n < W32 -> 0 <= pagine_di n <= 1048575.
Proof.
  intros Hn. destruct (Z.le_gt_cases n 0xFFFFF000); [rewrite pagine_di_spec by lia; zdm | rewrite pagine_di_avvolta by lia; lia].
Qed.

Section MemsysPassi.

Context {P : Type} {PG : Pagine P} {PO : PagineOk P} {SC : Scambio P} {SS : SenzaSwap P} {ST : Statiche} {SF : SchermoFuori} {SI : Sistema}.

Implicit Types (m : Mondo P) (D : list Z).

Definition voce_a m (d a : Z) : Z := voce m d (PD_INDEX a) (PT_INDEX a).

Lemma posto_in D d a : d ∈ D -> pagina_ok a -> in_usi D (posto d a).
Proof. intros Hd Ha. destruct (pagina_indici a Ha) as [Hi Hj]. split; [done|]. split; [by apply schermo_fuori | done]. Qed.

(** A page that is there is RAM with an owner, not a buffer of a device. *)
Definition ordinaria m (e : Z) : Prop := ha e PG_PRESENT = true -> contata m e = true.

Lemma ordinaria_totale m m' e : stesso_totale m m' -> ordinaria m e -> ordinaria m' e.
Proof. intros Ht H Hp. rewrite (contata_totale m m' e Ht). by apply H. Qed.

Lemma ordinaria_assente m e : ha e PG_PRESENT = false -> ordinaria m e.
Proof. intros H Hp. congruence. Qed.

(** ** Owners *)

Lemma spazi_uguali m D ext ext' dma : spazi m D ext dma -> (forall f, ext' f = ext f) -> spazi m D ext' dma.
Proof.
  intros SP E. apply (spazi_conti m D ext dma m ext' SP); try done.
  - intros f. rewrite E. apply SP.
  - intros f Hf. rewrite E. by apply (sp_dma _ _ _ _ SP).
  - eapply pg_ext; [apply SP|]. intros f. cbn beta. by rewrite E.
Qed.

(** A page of the kernel given back. *)
Lemma rende_spec m D ext dma f :
  spazi m D ext dma -> 0 < ext f -> ~ dma f ->
  exists p, pg_free (f * PAGE_SIZE) (pag m) = Ok p /\ spazi (con_pag p m) D (piu f (-1) ext) dma /\ ferme m D nessuno (con_pag p m).
Proof.
  intros SP He Nd. destruct (pg_free_ok (pag m) _ f (sp_conti _ _ _ _ SP)) as (p & Ep & Ht & Hs).
  { pose proof (usi_nonneg m D f). lia. }
  exists p. split; [done|]. split; [|by apply ferme_pag]. apply (spazi_conti m D ext dma); try done.
  - intros g. unfold piu. pose proof (sp_ext _ _ _ _ SP g). destruct (Z.eqb_spec g f) as [->|]; lia.
  - intros g Hg. unfold piu. pose proof (proj1 (sp_dma _ _ _ _ SP g Hg)). destruct (Z.eqb_spec g f) as [->|]; [done | lia].
  - eapply pg_ext; [exact Hs|]. intros g. unfold piu. destruct (g =? f); lia.
Qed.

(** ** One page taken out *)

(** Unmapping looks at the tables only. *)
Lemma unmap_con_pag m D ext dma d i j m1 :
  spazi m D ext dma -> in_usi D (UDat d i j) -> paging_unmap_page d (va i j) m = Ok m1 ->
  pag m1 = pag m /\ forall p, paging_unmap_page d (va i j) (con_pag p m) = Ok (con_pag p m1).
Proof.
  intros SP (Hd & Hut & Hj) E. pose proof (utente_range i Hut). destruct (va_indici i j ltac:(lia) Hj) as [Ei Ej].
  unfold paging_unmap_page in *. rewrite Ei, Ej in *. cbn [fis con_pag] in *. fold (presente m d i) in *.
  destruct (presente m d i) eqn:Hp; cbn [negb] in *.
  - rewrite (sp_huge _ _ _ _ SP d i Hd Hut Hp) in *. cbn [mbind run_bind negb Z.eqb] in *. injection E as <-. done.
  - by injection E as <-.
Qed.

(** The owner that goes with the entry of an ordinary page. *)
Lemma smonta_conti m D ext dma d i j m1 :
  spazi m D ext dma -> in_usi D (UDat d i j) -> contata m (voce m d i j) = true ->
  spazi m1 D (piu (tab (voce m d i j)) 1 ext) dma -> stesso_totale m m1 ->
  0 < tab (voce m d i j) < pg_totale (pag m) /\
  exists p, pg_free (tab (voce m d i j) * PAGE_SIZE) (pag m1) = Ok p /\ spazi (con_pag p m1) D ext dma /\ ferme m1 D nessuno (con_pag p m1).
Proof.
  intros SP Hu Hc SP1 Ht. set (f := tab (voce m d i j)) in *. pose proof (contata_usi m D d i j Hu Hc) as U. fold f in U.
  pose proof (sp_o m D ext dma SP f) as (He & _ & Hr). split; [apply Hr; lia|].
  assert (Nd : ~ dma f) by (intros Hf; pose proof (proj2 (sp_dma _ _ _ _ SP f Hf)); lia).
  destruct (rende_spec m1 D _ dma f SP1) as (p & Ep & S & F); [unfold piu; rewrite Z.eqb_refl; lia | done |].
  exists p. split; [done|]. split; [|done]. apply (spazi_uguali _ _ _ _ _ S). intros g. unfold piu. destruct (g =? f); lia.
Qed.

Definition tolta m D ext dma (d a : Z) m' : Prop :=
  spazi m' D ext dma /\ ferme m D (fun s => s = posto d a) m' /\ voce_a m' d a = 0.

Section Pagina.

Context D ext dma d (Hd : d ∈ D) a (Ha : pagina_ok a) m (SP : spazi m D ext dma).

Lemma qui : in_usi D (UDat d (PD_INDEX a) (PT_INDEX a)) /\ va (PD_INDEX a) (PT_INDEX a) = a.
Proof. split; [by apply posto_in | apply indirizzo; by apply pagina_ok_range]. Qed.

Lemma fisico_spec : paging_get_physical d a m = if ha (voce_a m d a) PG_PRESENT then tab (voce_a m d a) * PAGE_SIZE else 0.
Proof.
  destruct qui as [Hu Ea]. pose proof (get_physical_voce m D ext dma d _ _ 0 SP Hu ltac:(lia)) as E.
  rewrite !Z.add_0_r, Ea in E. exact E.
Qed.

Lemma smonta_spec : ordinaria m (voce_a m d a) -> exists m', smonta d a m = Ok m' /\ tolta m D ext dma d a m'.
Proof.
  intros Ho. destruct qui as [Hu Ea]. destruct (unmap_spec m D ext dma d _ _ SP Hu) as (m1 & E1 & S1 & F1 & V1). rewrite Ea in E1.
  destruct (unmap_con_pag m D ext dma d _ _ m1 SP Hu ltac:(by rewrite Ea)) as [Ep Hp]. rewrite Ea in Hp.
  unfold smonta. rewrite fisico_spec. fold (voce_a m d a) in S1. destruct (ha (voce_a m d a) PG_PRESENT) eqn:Hpr.
  - specialize (Ho Hpr). rewrite Ho in S1. cbn [uno] in S1.
    destruct (smonta_conti m D ext dma d _ _ m1 SP Hu Ho S1 ltac:(apply F1)) as (R & p & Efr & S2 & F2). fold (voce_a m d a) in R, Efr.
    rewrite (proj2 (Z.eqb_neq _ 0)) by (unfold PAGE_SIZE; lia). cbn [negb]. unfold pmm_free. rewrite <- Ep, Efr. cbn [mbind run_bind].
    rewrite Hp. eexists. split; [reflexivity|]. split; [done|]. split; [|exact V1].
    apply (ferme_trans _ _ _ _ _ _ _ F1 F2). unfold nessuno. intros s [|]; done.
  - cbn [Z.eqb negb mbind run_bind]. exists m1. split; [done|]. split; [|done]. apply (spazi_uguali _ _ _ _ _ S1). intros f.
    unfold piu, contata. fold (voce_a m d a). rewrite Hpr. cbn [andb uno]. destruct (f =? _); lia.
Qed.

Lemma smonta_fissa_smonta : smonta_fissa d a m = smonta d a m.
Proof.
  unfold smonta_fissa, smonta. rewrite fisico_spec. destruct (ha (voce_a m d a) PG_PRESENT); [|done].
  assert (Hw : 0 <= voce_a m d a < W32) by (by apply (voce_parola m D ext dma)).
  pose proof (PG_ADDR_pagina (tab (voce_a m d a)) (tab_range _ Hw)) as E. unfold PG_ADDR in E. by rewrite E.
Qed.

Lemma smonta_condivisa_spec : ordinaria m (voce_a m d a) -> exists m', smonta_condivisa d a m = Ok m' /\ tolta m D ext dma d a m'.
Proof.
  intros Ho. destruct qui as [Hu Ea]. destruct (unmap_spec m D ext dma d _ _ SP Hu) as (m1 & E1 & S1 & F1 & V1). rewrite Ea in E1.
  unfold smonta_condivisa. rewrite fisico_spec, E1. cbn [mbind run_bind]. fold (voce_a m d a) in S1.
  destruct (ha (voce_a m d a) PG_PRESENT) eqn:Hpr.
  - specialize (Ho Hpr). rewrite Ho in S1. cbn [uno] in S1.
    destruct (smonta_conti m D ext dma d _ _ m1 SP Hu Ho S1 ltac:(apply F1)) as (R & p & Efr & S2 & F2). fold (voce_a m d a) in R, Efr.
    rewrite (proj2 (Z.eqb_neq _ 0)) by (unfold PAGE_SIZE; lia). cbn [negb].
    assert (Hw : 0 <= voce_a m d a < W32) by (by apply (voce_parola m D ext dma)).
    pose proof (PG_ADDR_pagina (tab (voce_a m d a)) (tab_range _ Hw)) as E. unfold PG_ADDR in E. rewrite E. unfold pmm_free. rewrite Efr.
    cbn [mbind run_bind]. eexists. split; [reflexivity|]. split; [done|]. split; [|exact V1].
    apply (ferme_trans _ _ _ _ _ _ _ F1 F2). unfold nessuno. intros s [|]; done.
  - cbn [Z.eqb negb]. exists m1. split; [done|]. split; [|done]. apply (spazi_uguali _ _ _ _ _ S1). intros f.
    unfold piu, contata. fold (voce_a m d a). rewrite Hpr. cbn [andb uno]. destruct (f =? _); lia.
Qed.

(** An entry without an owner: a promise, a window on a device. *)
Lemma smappa_spec : contata m (voce_a m d a) = false -> exists m', paging_unmap_page d a m = Ok m' /\ tolta m D ext dma d a m'.
Proof.
  intros Hc. destruct qui as [Hu Ea]. destruct (unmap_spec m D ext dma d _ _ SP Hu) as (m1 & E1 & S1 & F1 & V1). rewrite Ea in E1.
  exists m1. split; [done|]. split; [|done]. apply (spazi_uguali _ _ _ _ _ S1). intros f.
  unfold piu. fold (voce_a m d a). rewrite Hc. cbn [uno]. destruct (f =? _); lia.
Qed.

(** ** One page put in *)

(** The body of a loop that can fail, at an empty place: the entry is as [Q] says,
    or nothing changed. *)
Definition messa (Q : Mondo P -> Z -> Prop) (r : run (bool * Mondo P)) : Prop :=
  exists b m', r = Ok (b, m') /\ spazi m' D ext dma /\
    if (b : bool) then ferme m D (fun s => s = posto d a) m' /\ Q m' (voce_a m' d a) else ferme m D nessuno m'.

Lemma promette_spec flags : voce_a m d a = 0 -> messa (fun _ e => e = voce_promessa flags) (promette d flags a m).
Proof.
  intros H0. destruct qui as [Hu Ea]. destruct (pigra_spec m D ext dma d _ _ flags SP Hu) as (r & m' & E & S & H).
  { fold (voce_a m d a). by rewrite H0. }
  rewrite Ea in E. unfold promette, messa. rewrite E. cbn [mbind run_bind].
  destruct H as [[-> F]|(-> & F & V)]; cbn [Z.eqb]; eexists _, m'; (split; [reflexivity|]); done.
Qed.

Lemma riserva_mem_spec : voce_a m d a = 0 -> messa (fun _ e => e = PG_RISERVA) (riserva d a m).
Proof.
  intros H0. destruct qui as [Hu Ea]. destruct (riserva_spec m D ext dma d _ _ SP Hu) as (r & m' & E & S & H).
  { fold (voce_a m d a). by rewrite H0. }
  rewrite Ea in E. unfold riserva, messa. rewrite E. cbn [mbind run_bind].
  destruct H as [[-> F]|(-> & F & V)]; cbn [Z.eqb]; eexists _, m'; (split; [reflexivity|]); done.
Qed.

(** A page that the allocator gave, with the words [v] and the rights [flags]. *)
Definition nuova (v : Z -> Z) (flags : Z) m (e : Z) : Prop :=
  ha e PG_PRESENT = true /\ contata m e = true /\ (forall n, 1 <= n < 12 -> Z.testbit e n = Z.testbit flags n) /\
  forall k, 0 <= k < 1024 -> fis m (tab e) k = v k.

(** A fresh page filled and mapped; given back if it cannot be. *)
Lemma nuova_spec v flags m0 x :
  ha (voce_a m d a) PG_PRESENT = false -> ha flags PG_FISSA = false -> ha flags PG_COW = false -> (forall k, 0 <= v k < W32) ->
  0 < x < pg_totale (pag m) -> ext x + usi m D x = 0 -> fis m0 = fis m -> stesso_totale m m0 -> pg_stato (pag m0) (piu x 1 (fun f => ext f + usi m D f)) ->
  messa (nuova v flags) ('(r, m) ← paging_map_page d a (x * PAGE_SIZE) flags (riempi x v m0);
                         if negb (r =? 0) then m ← pmm_free (x * PAGE_SIZE) m; Ok (false, m) else Ok (true, m)).
Proof.
  intros H0 H9 H10 Hv Hx Hox Hf Ht Hs. destruct qui as [Hu Ea]. pose proof (pg_max _ _ (sp_conti _ _ _ _ SP)) as Hmx. unfold PMM_PAGINE_4GB in Hmx.
  destruct (pagina_fresca m D ext dma m0 x v SP Hx Hox Hf Ht Hs Hv) as (V & U0 & S1 & T1 & Ns & Nd).
  set (m1 := riempi x v m0) in *. assert (F1 : ferme m D nessuno m1) by (split; [done|]; intros; by apply V).
  assert (Hp1 : 0 < piu x 1 ext x) by (unfold piu; rewrite Z.eqb_refl; pose proof (sp_ext _ _ _ _ SP x); lia).
  destruct (mappa_spec m1 D _ dma d _ _ x flags S1 Hu) as (r & m2 & E & H); try done.
  { rewrite (sv_voce _ _ _ V) by done. exact H0. } { by left. }
  rewrite Ea in E. unfold messa. rewrite E. cbn [mbind run_bind]. destruct H as [(-> & S2 & F2)|(-> & S2 & F2 & V2 & Z2)]; cbn [Z.eqb negb].
  - destruct (rende_spec m2 D _ dma x S2) as (p2 & Ep & S3 & F3); [done | done |].
    unfold pmm_free. rewrite Ep. cbn [mbind run_bind]. eexists false, _. split; [reflexivity|].
    split; [apply (spazi_uguali _ _ _ _ _ S3); intros g; unfold piu; destruct (g =? x); lia|].
    apply (ferme_trans _ _ _ _ _ _ _ F1 (ferme_trans _ _ _ _ _ _ nessuno F2 F3 ltac:(tauto))). tauto.
  - eexists true, _. split; [reflexivity|]. split; [apply (spazi_uguali _ _ _ _ _ S2); intros g; unfold piu; destruct (g =? x); lia|].
    split; [apply (ferme_trans _ _ _ _ _ _ _ F1 F2); unfold nessuno; tauto|]. fold (voce_a m2 d a) in V2. rewrite V2.
    destruct (voce_mappa_ok x flags ltac:(lia)) as (R & T & B). set (e := voce_mappa _ _) in *.
    assert (Ep : ha e PG_PRESENT = true) by (rewrite ha_P, B by lia; apply orb_true_r).
    split; [done|]. split; [|split].
    + unfold contata, PMM_OLTRE_RAM. rewrite Ep, ha_F, B, PG_ADDR_tab, T, <- ha_F, H9 by (done || lia).
      replace (pg_totale (pag m2)) with (pg_totale (pag m)).
      2:{ pose proof (ti_totale _ _ _ _ F2) as Q2. unfold stesso_totale in Q2, Ht. cbn [pag m1 riempi] in Q2. congruence. }
      rewrite u32_small by (unfold PAGE_SIZE, W32; lia). cbn [orb negb andb Z.eqb]. rewrite andb_true_r. apply negb_true_iff, Z.leb_gt. unfold PAGE_SIZE. lia.
    + intros n Hn. by rewrite B, (proj2 (Z.eqb_neq n 0)), orb_false_r by lia.
    + intros k Hk. rewrite T, Z2. cbn [fis m1 riempi]. by rewrite Z.eqb_refl, (proj2 (Z.leb_le 0 k)), (proj2 (Z.ltb_lt k 1024)) by lia.
Qed.

Lemma condivide_spec flags :
  voce_a m d a = 0 -> ha flags PG_FISSA = false -> ha flags PG_COW = false ->
  messa (nuova (fun _ => 0) (Z.lor flags PG_CONDIVISA)) (condivide d flags a m).
Proof.
  intros H0 H9 H10. unfold condivide. pose proof (pg_alloc_ok (pag m) _ (sp_conti _ _ _ _ SP)) as [Ht Hr].
  destruct (pg_alloc (pag m)) as [f p]. cbn [fst snd] in *. destruct Hr as [[-> Hs]|(x & -> & Hx & Hox & Hs)].
  { cbn [Z.eqb]. eexists false, _. split; [reflexivity|]. split; [by apply (spazi_pag m D ext dma) | by apply ferme_pag]. }
  rewrite (proj2 (Z.eqb_neq _ 0)) by (unfold PAGE_SIZE; lia). pose proof (pg_max _ _ (sp_conti _ _ _ _ SP)) as Hmx. unfold PMM_PAGINE_4GB in Hmx.
  unfold paging_azzera_fisica. assert (Tx : tab (x * PAGE_SIZE) = x) by (unfold tab; by rewrite PG_ADDR_pagina, frame_pagina by lia). rewrite Tx.
  apply nuova_spec; try done.
  - by rewrite H0.
  - rewrite ha_F, Z.lor_spec, <- ha_F, H9. done.
  - rewrite ha_C, Z.lor_spec, <- ha_C, H10. done.
Qed.

(** A page of a device: not RAM, so nobody's. *)
Lemma mappa_fuori_spec f flags :
  voce_a m d a = 0 -> 0 <= f < 1048576 -> pg_totale (pag m) <= f -> ha flags PG_COW = false ->
  exists r m', paging_map_page d a (f * PAGE_SIZE) flags m = Ok (r, m') /\ spazi m' D ext dma /\
    (r = -1 /\ ferme m D nessuno m' \/ r = 0 /\ ferme m D (fun s => s = posto d a) m' /\ voce_a m' d a = voce_mappa (f * PAGE_SIZE) flags).
Proof.
  intros H0 Hf Ht H10. destruct qui as [Hu Ea]. destruct (map_page_spec m D ext dma d _ _ (f * PAGE_SIZE) flags SP Hu) as (r & m' & E & Hm).
  rewrite Ea in E. exists r, m'. split; [done|]. destruct Hm as [(-> & S & C)|(-> & m1 & S1 & C & Hp1 & Hm & Ep)].
  { split; [done|]. left. split; [done|]. by apply (come_ferme m D ext dma). }
  destruct (voce_mappa_ok f flags Hf) as (R & T & B). set (e := voce_mappa _ _) in *.
  assert (Ho : PMM_OLTRE_RAM (PG_ADDR e) m1 = true).
  { unfold PMM_OLTRE_RAM. rewrite PG_ADDR_tab, T by done. apply Z.leb_le. pose proof (co_totale _ _ _ _ C) as Q. unfold stesso_totale in Q. rewrite Q.
    pose proof (sp_strutt_pos m D ext dma SP d ltac:(by left)). rewrite u32_small; unfold PAGE_SIZE, W32; lia. }
  assert (Hc : contata m1 e = false) by (unfold contata; by rewrite Ho, andb_false_r).
  split.
  - apply (scritto_spazi m1 D ext dma S1 m' d _ _ e Hu Hp1 Hm); try done.
    + rewrite SWAP_bit, B by lia. by rewrite orb_true_r.
    + intros Hcw. rewrite ha_C in H10. rewrite PTE_E_COW_bit, (B 10), H10, andb_false_r in Hcw by lia. done.
    + apply SP.
    + intros g Hg. by apply (sp_dma _ _ _ _ SP).
    + rewrite Ep. eapply pg_ext; [exact (sp_conti _ _ _ _ S1)|]. intros g. cbn beta.
      rewrite (scritto_usi m1 D ext dma S1 m' d _ _ e Hu Hp1 Hm), Hc. cbn [uso]. rewrite (co_voce _ _ _ _ C) by done. fold (voce_a m d a).
      rewrite H0. change (contata m1 0) with false. cbn [andb uno]. lia.
    + unfold voce_nuova_ok. rewrite Hc. unfold fissa. by rewrite Ho, andb_false_r.
  - right. split; [done|]. split; [|by apply (scritto_qui m1 D ext dma S1 m' d)].
    apply (ferme_trans m D nessuno m1 (fun s => s = posto d a)); [by apply (come_ferme m D ext dma) | | unfold nessuno; intros s [|]; done].
    by apply (scritto_ferme m1 D ext dma m' d _ _ e S1).
Qed.

End Pagina.

(** ** Loops *)

(** What an entry that does not change keeps. *)
Definition stabile (Q : Mondo P -> Z -> Prop) : Prop :=
  forall m m' e, stesso_totale m m' -> stessa_vista m e m' e -> Q m e -> Q m' e.

(** The same for a relation between the entry of an address before and after. *)
Definition stabile2 (R : Z -> Mondo P -> Z -> Mondo P -> Z -> Prop) : Prop :=
  forall a m0 m e m1 e' m2, stesso_totale m0 m -> stessa_vista m0 e m e -> R a m e m1 e' ->
    stesso_totale m1 m2 -> stessa_vista m1 e' m2 e' -> R a m0 e m2 e'.

Lemma stabile_voce (Q : Z -> Prop) : stabile (fun _ e => Q e).
Proof. by intros m m' e _ _. Qed.

Lemma stabile_ordinaria : stabile ordinaria.
Proof. intros m m' e Ht _. by apply ordinaria_totale. Qed.

Lemma stabile_nuova v flags : stabile (nuova v flags).
Proof.
  intros m m' e Ht Hv (H1 & H2 & H3 & H4). unfold stessa_vista in Hv. rewrite H1 in Hv. destruct Hv as (_ & _ & Hv).
  unfold nuova. rewrite (contata_totale m m' e Ht). do 3 (split; [done|]). intros k Hk. by rewrite Hv, H4.
Qed.

Lemma stabile2_dopo (Q : Z -> Mondo P -> Z -> Prop) : (forall a, stabile (Q a)) -> stabile2 (fun a _ _ m' e' => Q a m' e').
Proof. intros HQ a m0 m e m1 e' m2 _ _ H Ht Hv. by apply (HQ a m1). Qed.

Lemma ferme_voce_a m D X m' d a :
  ferme m D X m' -> d ∈ D -> pagina_ok a -> ~ X (posto d a) ->
  voce_a m' d a = voce_a m d a /\ stesso_totale m m' /\ stessa_vista m (voce_a m d a) m' (voce_a m d a).
Proof.
  intros [T V] Hd Ha Nx. pose proof (posto_in D d a Hd Ha) as Hu. pose proof (V d _ _ Hu Nx) as E. split; [exact E|]. split; [apply T|].
  pose proof (ti_vista _ _ _ _ T d _ _ Hu Nx) as W. rewrite E in W. exact W.
Qed.

Section Giri.

(** [I] is the invariant of the loop. *)
Context D (I : Mondo P -> Prop) (d : Z) (Hd : d ∈ D) (vaddr N : Z) (HN : fascia_ok vaddr N).

Abbreviation pg k := (vaddr + k * PAGE_SIZE).

Lemma fascia_fuori i j k : 0 <= i -> j <= N -> 0 <= k < N -> ~ (i <= k < j) -> ~ fascia d vaddr i j (posto d (pg k)).
Proof.
  intros Hi Hj Hk Nk (k' & Hk' & E). apply posto_inj in E as [_ E]; [|apply (pagina_fascia vaddr N); done || lia..].
  unfold PAGE_SIZE in E. lia.
Qed.

(** What a page not yet treated keeps while the page [i] is. *)
Lemma passo_altra m m' i k : 0 <= i < N -> 0 <= k < N -> k <> i -> ferme m D (fun s => s = posto d (pg i)) m' ->
  voce_a m' d (pg k) = voce_a m d (pg k) /\ stesso_totale m m' /\ stessa_vista m (voce_a m d (pg k)) m' (voce_a m d (pg k)).
Proof.
  intros Hi Hk Ne F. apply (ferme_voce_a _ _ _ _ _ _ F Hd); [by apply (pagina_fascia vaddr N)|]. intros E.
  apply posto_inj in E as [_ E]; [|apply (pagina_fascia vaddr N); done..]. unfold PAGE_SIZE in E. lia.
Qed.

Section Corpo.

Context (Q : Z -> Mondo P -> Z -> Prop) (R : Z -> Mondo P -> Z -> Mondo P -> Z -> Prop) (HQ : forall a, stabile (Q a)) (HR : stabile2 R).

(** Pages [i] to [j - 1] treated, the others as they were. *)
Definition trattate m i j m' : Prop :=
  I m' /\ ferme m D (fascia d vaddr i j) m' /\
  forall k, i <= k < j -> R (pg k) m (voce_a m d (pg k)) m' (voce_a m' d (pg k)).

Lemma trattate_nessuna m i : I m -> trattate m i i m.
Proof. intros SP. split; [done|]. split; [apply ferme_refl | intros; lia]. Qed.

Lemma trattate_cons m m1 m2 i j :
  0 <= i < j -> j <= N -> ferme m D (fun s => s = posto d (pg i)) m1 -> R (pg i) m (voce_a m d (pg i)) m1 (voce_a m1 d (pg i)) ->
  trattate m1 (i + 1) j m2 -> trattate m i j m2.
Proof.
  intros Hi Hj F1 R1 (S & F2 & R2). split; [done|]. split.
  - apply (ferme_trans _ _ _ _ _ _ _ F1 F2). intros s [->|(k & Hk & ->)]; [exists i | exists k]; (split; [lia | done]).
  - intros k Hk. destruct (Z.eq_dec k i) as [->|Ne].
    + destruct (ferme_voce_a _ _ _ _ d (pg i) F2 Hd) as (E & Ht & Hv); [apply (pagina_fascia vaddr N); [done | lia] | apply fascia_fuori; lia |].
      rewrite E. apply (HR _ m m _ m1 _ m2); try done. apply vista_refl.
    + destruct (passo_altra m m1 i k ltac:(lia) ltac:(lia) Ne F1) as (E & Ht & Hv). specialize (R2 k ltac:(lia)). rewrite E in R2.
      apply (HR _ m m1 _ m2 _ m2); try done. apply vista_refl.
Qed.

Definition passo_ok (f : Z -> Mondo P -> run (Mondo P)) : Prop :=
  forall m a, pagina_ok a -> vaddr <= a < vaddr + N * PAGE_SIZE -> I m -> Q a m (voce_a m d a) ->
    exists m', f a m = Ok m' /\ I m' /\ ferme m D (fun s => s = posto d a) m' /\ R a m (voce_a m d a) m' (voce_a m' d a).

Lemma per_pagine_spec f : passo_ok f -> forall n i m, 0 <= i -> i + Z.of_nat n <= N -> I m ->
  (forall k, i <= k < i + Z.of_nat n -> Q (pg k) m (voce_a m d (pg k))) ->
  exists m', per_pagine n vaddr i f m = Ok m' /\ trattate m i (i + Z.of_nat n) m'.
Proof.
  intros Hf n. induction n as [|n IH]; intros i m Hi Hn SP HQm.
  - exists m. split; [done|]. replace (i + Z.of_nat 0) with i by lia. by apply trattate_nessuna.
  - cbn [per_pagine]. rewrite (fascia_u32 vaddr N) by (done || lia).
    destruct (Hf m (pg i)) as (m1 & E1 & S1 & F1 & R1); [apply (pagina_fascia vaddr N); [done | lia] | unfold PAGE_SIZE; lia | done | apply HQm; lia |].
    rewrite E1. cbn [mbind run_bind]. destruct (IH (i + 1) m1) as (m2 & E2 & T2); [lia | lia | done | |].
    + intros k Hk. destruct (passo_altra m m1 i k ltac:(lia) ltac:(lia) ltac:(lia) F1) as (E & Ht & Hv). rewrite E.
      apply (HQ _ m); [done | done | apply HQm; lia].
    + exists m2. split; [done|]. replace (i + Z.of_nat (S n)) with (i + 1 + Z.of_nat n) in * by lia.
      apply (trattate_cons m m1); [lia | lia | done | done | done].
Qed.

Definition tenta_ok (f : Z -> Mondo P -> run (bool * Mondo P)) : Prop :=
  forall m a, pagina_ok a -> vaddr <= a < vaddr + N * PAGE_SIZE -> I m -> Q a m (voce_a m d a) ->
    exists b m', f a m = Ok (b, m') /\ I m' /\
      if (b : bool) then ferme m D (fun s => s = posto d a) m' /\ R a m (voce_a m d a) m' (voce_a m' d a) else ferme m D nessuno m'.

Lemma finche_spec f : tenta_ok f -> forall n i m, 0 <= i -> i + Z.of_nat n <= N -> I m ->
  (forall k, i <= k < i + Z.of_nat n -> Q (pg k) m (voce_a m d (pg k))) ->
  exists b j m', finche n vaddr i f m = Ok (b, j, m') /\ i <= j <= i + Z.of_nat n /\ (b = true -> j = i + Z.of_nat n) /\ trattate m i j m'.
Proof.
  intros Hf n. induction n as [|n IH]; intros i m Hi Hn SP HQm.
  - exists true, i, m. split; [done|]. split; [lia|]. split; [lia|]. by apply trattate_nessuna.
  - cbn [finche]. rewrite (fascia_u32 vaddr N) by (done || lia).
    destruct (Hf m (pg i)) as (b & m1 & E1 & S1 & H1); [apply (pagina_fascia vaddr N); [done | lia] | unfold PAGE_SIZE; lia | done | apply HQm; lia |].
    rewrite E1. cbn [mbind run_bind]. destruct b.
    + destruct H1 as [F1 R1]. destruct (IH (i + 1) m1) as (b & j & m2 & E2 & Hj & Hb & T2); [lia | lia | done | |].
      * intros k Hk. destruct (passo_altra m m1 i k ltac:(lia) ltac:(lia) ltac:(lia) F1) as (E & Ht & Hv). rewrite E.
        apply (HQ _ m); [done | done | apply HQm; lia].
      * exists b, j, m2. split; [done|]. split; [lia|]. split; [intros Eb; specialize (Hb Eb); lia|].
        apply (trattate_cons m m1); [lia | lia | done | done | done].
    + exists false, i, m1. split; [done|]. split; [lia|]. split; [done|]. split; [done|]. split; [|intros; lia].
      by apply (ferme_weaken m D nessuno).
Qed.

End Corpo.

(** Empty entries that are empty again. *)
Lemma ferme_vuota m m2 j : ferme m D (fascia d vaddr 0 j) m2 ->
  (forall k, 0 <= k < j -> voce_a m d (pg k) = 0 /\ voce_a m2 d (pg k) = 0) -> ferme m D nessuno m2.
Proof.
  intros F V. assert (V0 : forall d' i' j', fascia d vaddr 0 j (UDat d' i' j') -> voce m2 d' i' j' = 0 /\ voce m d' i' j' = 0).
  { intros d' i' j' (k & Hk & [= -> -> ->]). destruct (V k Hk). done. }
  assert (Dc : forall s, fascia d vaddr 0 j s \/ ~ fascia d vaddr 0 j s).
  { intros s. destruct (decide (Exists (fun k => s = posto d (pg k)) (seqZ 0 j))) as [H|H]; [left | right].
    - apply Exists_exists in H as (k & Hk & ->). apply elem_of_seqZ in Hk. exists k. split; [lia | done].
    - intros (k & Hk & ->). apply H, Exists_exists. exists k. rewrite elem_of_seqZ. split; [lia | done]. }
  split; [split|].
  - apply F.
  - intros d' i' j' Hu _. destruct (Dc (UDat d' i' j')) as [Hf|Hf]; [|by apply F]. destruct (V0 d' i' j' Hf) as [-> ->]. done.
  - apply F.
  - apply F.
  - intros d' i' j' Hu _. destruct (Dc (UDat d' i' j')) as [Hf|Hf]; [|by apply F]. by destruct (V0 d' i' j' Hf) as [-> ->].
Qed.

(** All the pages or none: the entries were empty, and become empty again. *)
Lemma tutte_spec (Q : Z -> Mondo P -> Z -> Prop) fai disfa m :
  (forall a, stabile (Q a)) -> tenta_ok (fun _ _ e => e = 0) (fun a _ _ m' e' => Q a m' e') fai -> passo_ok Q (fun _ _ _ _ e' => e' = 0) disfa ->
  I m -> (forall k, 0 <= k < N -> voce_a m d (pg k) = 0) ->
  exists b m', tutte N vaddr fai disfa m = Ok (b, m') /\ I m' /\
    if (b : bool) then ferme m D (fascia d vaddr 0 N) m' /\ forall k, 0 <= k < N -> Q (pg k) m' (voce_a m' d (pg k)) else ferme m D nessuno m'.
Proof.
  intros HQ Hfai Hdis SP H0. assert (Hn0 : 0 <= N) by apply HN. unfold tutte.
  destruct (finche_spec (fun _ _ e => e = 0) _ (fun _ => stabile_voce _) (stabile2_dopo Q HQ) fai Hfai (Z.to_nat N) 0 m) as (b & j & m1 & E1 & Hj & Hb & S1 & F1 & R1);
    [lia | lia | done | intros k Hk; apply H0; lia |]. rewrite Z2Nat.id in Hj, Hb by lia. rewrite E1. cbn [mbind run_bind]. destruct b.
  - rewrite (Hb eq_refl) in *. exists true, m1. split; [done|]. split; [done|]. split; [done|]. intros k Hk. apply R1. lia.
  - destruct (per_pagine_spec Q (fun _ _ _ _ e' => e' = 0) HQ (stabile2_dopo (fun _ _ e => e = 0) (fun _ => stabile_voce _)) disfa Hdis (Z.to_nat j) 0 m1) as (m2 & E2 & S2 & F2 & R2);
      [lia | lia | done | intros k Hk; apply R1; lia |].
    rewrite E2. cbn [mbind run_bind]. exists false, m2. split; [done|]. split; [done|]. rewrite Z2Nat.id in F2, R2 by lia.
    apply (ferme_vuota m m2 j); [apply (ferme_trans _ _ _ _ _ _ _ F1 F2); tauto|]. intros k Hk. split; [apply H0; lia | apply R2; lia].
Qed.

End Giri.

(** ** Pages of the executable *)

Lemma immagine_dir p : page_directory (immagine_di p) = page_directory p.
Proof. unfold immagine_di. destruct (_ && _ && _); [|done]. destruct (proc_get_by_pid (tgid p)) as [c|]; [|done]. by destruct (Z.eqb_spec (page_directory c) (page_directory p)). Qed.

(** The rights of the segments are those of programs. *)
Definition segmenti_ok (p : Proc) : Prop :=
  forall v, v ∈ vma (immagine_di p) -> ha (pg_flags v) PG_FISSA = false /\ ha (pg_flags v) PG_COW = false.

Lemma cerca_vma_in a l v : cerca_vma a l = Some v -> v ∈ l /\ vstart v <= a < vend v.
Proof.
  induction l as [|w l IH]; cbn [cerca_vma]; [done|]. destruct (_ && _) eqn:E.
  - intros [= ->]. apply andb_true_iff in E as [E1%Z.leb_le E2%Z.ltb_lt]. split; [left | lia].
  - intros H. destruct (IH H). split; [by right | done].
Qed.

Lemma parola_pagina_range buf n k : 0 <= parola_pagina buf n k < W32.
Proof.
  assert (B : forall b, 0 <= byte_pagina buf n b < 256) by (intros b; unfold byte_pagina; destruct (b <? n); [apply Z.mod_pos_bound; lia | lia]).
  unfold parola_pagina, W32. pose proof (B (4 * k)). pose proof (B (4 * k + 1)). pose proof (B (4 * k + 2)). pose proof (B (4 * k + 3)). lia.
Qed.

(** The file has the page. *)
Definition nel_file (p : Proc) (a : Z) : bool :=
  (0 <=? exe_handle (immagine_di p)) &&
  match cerca_vma a (vma (immagine_di p)) with
  | Some v => match leggi_pagina (exe_handle (immagine_di p)) v a with Some _ => true | None => false end
  | None => false
  end.

(** A page with the bytes that the file has at its address. *)
Definition caricata (p : Proc) (a : Z) m (e : Z) : Prop :=
  nel_file p a = true /\ exists v n buf, cerca_vma a (vma (immagine_di p)) = Some v /\ leggi_pagina (exe_handle (immagine_di p)) v a = Some (n, buf) /\
    nuova (parola_pagina buf n) (pg_flags v) m e.

(** What the page has to hold, said of the file and of the segments: the segment is the
    first that has the address, and the byte of the address [x] is the one of the file
    that goes there, or 0 past the bytes of the file. *)
Definition primo_segmento (l : list ProcVma) (a : Z) (v : ProcVma) : Prop :=
  exists l1 l2, l = l1 ++ v :: l2 /\ vstart v <= a < vend v /\ forall w, w ∈ l1 -> ~ (vstart w <= a < vend w).

Definition atteso (file : Z -> Z) (v : ProcVma) (x : Z) : Z :=
  if x <? file_fine v then file (file_off v + (x - vstart v)) else 0.

(** The byte [b] of a frame: words are little endian. *)
Definition byte_in m (f b : Z) : Z := Z.shiftr (fis m f (b / 4)) (8 * (b mod 4)) mod 256.

Definition dal_file (file : Z -> Z) (p : Proc) (a : Z) m (e : Z) : Prop :=
  exists v, primo_segmento (vma (immagine_di p)) a v /\ ha e PG_PRESENT = true /\ contata m e = true /\
    (forall n, 1 <= n < 12 -> Z.testbit e n = Z.testbit (pg_flags v) n) /\
    forall b, 0 <= b < 4096 -> byte_in m (tab e) b = atteso file v (a + b).

(** [vfs_read] gives at most the bytes that are asked for, and they are the file's. *)
Definition legge_il_file (h : Z) (file : Z -> Z) : Prop :=
  forall n off r buf, 0 <= n -> 0 <= off < W32 -> vfs_read h n off = (r, buf) -> r <= n /\ forall b, 0 <= b < r -> buf b mod 256 = file (off + b).

(** Addresses and offsets of the segments are words of 32 bits. *)
Definition segmenti_file (p : Proc) : Prop :=
  forall v, v ∈ vma (immagine_di p) -> 0 <= vstart v /\ 0 <= file_fine v < W32 /\ 0 <= file_off v /\ file_off v + (vend v - vstart v) <= W32.

(** There is nothing to bring in: no file, no segment, or a read that fails or is short. *)
Definition non_c_e (p : Proc) (a : Z) : Prop :=
  exe_handle (immagine_di p) < 0 \/ (forall v, v ∈ vma (immagine_di p) -> ~ (vstart v <= a < vend v)) \/
  exists v, primo_segmento (vma (immagine_di p)) a v /\
    let n := Z.min (file_fine v - a) PAGE_SIZE in
    0 < n /\ fst (vfs_read (exe_handle (immagine_di p)) n (file_off v + (a - vstart v))) < n.

(** No frame for the page, or none for its table. *)
Definition senza_memoria (d a : Z) m : Prop :=
  exists x m0, pagina_utente m = Ok (x, m0) /\
    (x = 0 \/ exists flags m1 r m2, paging_map_page d a x flags m1 = Ok (r, m2) /\ r <> 0).

Lemma cerca_vma_primo a l : match cerca_vma a l with Some v => primo_segmento l a v | None => forall v, v ∈ l -> ~ (vstart v <= a < vend v) end.
Proof.
  induction l as [|w l IH]; cbn [cerca_vma]; [intros v H; by apply not_elem_of_nil in H|]. destruct (_ && _) eqn:E.
  - apply andb_true_iff in E as [E1%Z.leb_le E2%Z.ltb_lt]. exists [], l. split; [done|]. split; [lia|]. intros v H. by apply not_elem_of_nil in H.
  - assert (Nw : ~ (vstart w <= a < vend w)) by (apply andb_false_iff in E as [E%Z.leb_gt|E%Z.ltb_ge]; lia). destruct (cerca_vma a l) as [v|].
    + destruct IH as (l1 & l2 & -> & Hv & Hl). exists (w :: l1), l2. split; [done|]. split; [done|]. intros u [->|Hu]%elem_of_cons; [done | by apply Hl].
    + intros u [->|Hu]%elem_of_cons; [done | by apply IH].
Qed.

Lemma primo_segmento_unico l a v w : primo_segmento l a v -> cerca_vma a l = Some w -> v = w.
Proof.
  intros (l1 & l2 & -> & Hv & Hl). induction l1 as [|u l1 IH]; cbn [app cerca_vma].
  - rewrite (proj2 (Z.leb_le _ _)), (proj2 (Z.ltb_lt _ _)) by lia. by intros [= ->].
  - destruct (_ && _) eqn:E; [|apply IH; intros x Hx; apply Hl; by right].
    apply andb_true_iff in E as [E1%Z.leb_le E2%Z.ltb_lt]. destruct (Hl u); [left | lia].
Qed.

Lemma primo_in l a v : primo_segmento l a v -> v ∈ l.
Proof. intros (l1 & l2 & -> & _). apply elem_of_app. right. left. Qed.

(** Words and bytes of the new page. *)
Lemma byte_parola buf n b : 0 <= b -> Z.shiftr (parola_pagina buf n (b / 4)) (8 * (b mod 4)) mod 256 = byte_pagina buf n b.
Proof.
  intros Hb. assert (E : b = 4 * (b / 4) + b mod 4) by zdm. assert (Hm : 0 <= b mod 4 < 4) by zdm. rewrite E at 3. set (q := b / 4). set (r := b mod 4) in *.
  clearbody q r. assert (B : forall x, 0 <= byte_pagina buf n x < 256) by (intros x; unfold byte_pagina; destruct (x <? n); [apply Z.mod_pos_bound; lia | lia]).
  unfold parola_pagina. pose proof (B (4 * q)) as B0. pose proof (B (4 * q + 1)) as B1. pose proof (B (4 * q + 2)) as B2. pose proof (B (4 * q + 3)) as B3.
  rewrite Z.shiftr_div_pow2 by lia. assert (r = 0 \/ r = 1 \/ r = 2 \/ r = 3) as [-> | [-> | [-> | ->]]] by lia.
  - rewrite Z.add_0_r. change (2 ^ (8 * 0)) with 1. rewrite Z.div_1_r. symmetry. apply (Z.mod_unique _ _ (byte_pagina buf n (4 * q + 1) + byte_pagina buf n (4 * q + 2) * 256 + byte_pagina buf n (4 * q + 3) * 65536)); lia.
  - change (2 ^ (8 * 1)) with 256. symmetry. apply (Z.mod_unique _ _ (byte_pagina buf n (4 * q + 2) + byte_pagina buf n (4 * q + 3) * 256)); [lia|].
    symmetry. apply (Z.div_unique _ _ _ (byte_pagina buf n (4 * q))); lia.
  - change (2 ^ (8 * 2)) with 65536. symmetry. apply (Z.mod_unique _ _ (byte_pagina buf n (4 * q + 3))); [lia|].
    symmetry. apply (Z.div_unique _ _ _ (byte_pagina buf n (4 * q) + byte_pagina buf n (4 * q + 1) * 256)); lia.
  - change (2 ^ (8 * 3)) with 16777216. symmetry. apply (Z.mod_unique _ _ 0); [lia|].
    symmetry. apply (Z.div_unique _ _ _ (byte_pagina buf n (4 * q) + byte_pagina buf n (4 * q + 1) * 256 + byte_pagina buf n (4 * q + 2) * 65536)); lia.
Qed.

(** What the read asked for and got. *)
Lemma leggi_pagina_spec file p a v : segmenti_file p -> legge_il_file (exe_handle (immagine_di p)) file -> pagina_ok a ->
  primo_segmento (vma (immagine_di p)) a v ->
  match leggi_pagina (exe_handle (immagine_di p)) v a with
  | Some (n, buf) => forall b, 0 <= b < 4096 -> byte_pagina buf n b = atteso file v (a + b)
  | None => non_c_e p a
  end.
Proof.
  intros Hs Hl Ha Hv. destruct (Hs v (primo_in _ _ _ Hv)) as (H1 & H2 & H3 & H4). assert (Hr := Hv). destruct Hr as (_ & _ & _ & Hr & _).
  destruct Ha as [_ Ha]. unfold USER_SPACE_BASE, USER_SPACE_END in Ha.
  unfold leggi_pagina, da_leggere. destruct (Z.ltb_spec a (file_fine v)) as [Hf|Hf].
  - rewrite u32_small by lia. set (q := Z.min (file_fine v - a) PAGE_SIZE) in *. assert (Hq : 0 < q) by (unfold q, PAGE_SIZE; lia).
    rewrite (proj2 (Z.ltb_lt 0 q)), u32_small by lia. destruct (vfs_read _ q _) as [n buf] eqn:E.
    destruct (Hl q (file_off v + (a - vstart v)) n buf ltac:(lia) ltac:(lia) E) as [Hn Hb]. destruct (Z.ltb_spec n 0); cbn [orb].
    { right. right. exists v. split; [done|]. fold q. cbv zeta. rewrite E. cbn [fst]. lia. }
    destruct (Z.ltb_spec n q).
    { right. right. exists v. split; [done|]. fold q. cbv zeta. rewrite E. cbn [fst]. lia. }
    assert (n = q) as -> by lia. intros b Hb4. unfold byte_pagina, atteso. destruct (Z.ltb_spec b q), (Z.ltb_spec (a + b) (file_fine v)); unfold q, PAGE_SIZE in *; try lia.
    rewrite Hb by lia. f_equal. lia.
  - cbn [Z.ltb Z.compare]. intros b Hb. unfold byte_pagina, atteso. rewrite (proj2 (Z.ltb_ge b 0)), (proj2 (Z.ltb_ge (a + b) _)) by lia. done.
Qed.

Lemma caricata_dal_file file p a m e : segmenti_file p -> legge_il_file (exe_handle (immagine_di p)) file -> pagina_ok a ->
  caricata p a m e -> dal_file file p a m e.
Proof.
  intros Hs Hl Ha (_ & v & n & buf & Ev & El & Hp & Hc & Hb & Hw). pose proof (cerca_vma_primo a (vma (immagine_di p))) as Hv. rewrite Ev in Hv.
  pose proof (leggi_pagina_spec file p a v Hs Hl Ha Hv) as Hr. rewrite El in Hr.
  exists v. do 4 (split; [done|]). intros b Hb4. unfold byte_in. rewrite Hw by zdm. rewrite byte_parola by lia. by apply Hr.
Qed.

Lemma nel_file_vero file p a : segmenti_file p -> legge_il_file (exe_handle (immagine_di p)) file -> pagina_ok a ->
  nel_file p a = false <-> non_c_e p a.
Proof.
  intros Hs Hl Ha. unfold nel_file. pose proof (cerca_vma_primo a (vma (immagine_di p))) as Hv.
  destruct (Z.leb_spec 0 (exe_handle (immagine_di p))) as [Hh|Hh]; cbn [andb]; [|split; [by left | done]].
  destruct (cerca_vma a (vma (immagine_di p))) as [v|] eqn:Ev; [|split; [intros _; right; by left | done]].
  pose proof (leggi_pagina_spec file p a v Hs Hl Ha Hv) as Hr. destruct (leggi_pagina _ v a) as [[n buf]|] eqn:El; [|done].
  split; [done|]. intros [?|[N|(w & Hw & H0 & Hn)]]; [lia | |].
  - destruct Hv as (l1 & l2 & El2 & Hv & _). destruct (N v); [|done]. rewrite El2. apply elem_of_app. right. left.
  - rewrite (primo_segmento_unico _ _ _ _ Hw Ev) in *. exfalso. destruct (Hs v (primo_in _ _ _ Hv)) as (H1 & H2 & H3 & H4). destruct Hv as (_ & _ & _ & Hr1 & _).
    destruct Ha as [_ Ha]. unfold USER_SPACE_BASE, USER_SPACE_END in Ha.
    unfold leggi_pagina, da_leggere in El. rewrite (proj2 (Z.ltb_lt a (file_fine v))), u32_small in El by lia.
    set (q := Z.min (file_fine v - a) PAGE_SIZE) in *. rewrite (proj2 (Z.ltb_lt 0 q)), u32_small in El by lia.
    destruct (vfs_read _ q _) as [n' buf']. cbn [fst] in Hn. destruct (Z.ltb_spec n' 0), (Z.ltb_spec n' q); cbn [orb] in El; try done. lia.
Qed.

Section File.

Context D (ext : Z -> Z) (dma : Z -> Prop) (p : Proc) (Hd : page_directory p ∈ D) (Hv : segmenti_ok p).

Lemma carica_spec a m : pagina_ok a -> spazi m D ext dma -> ha (voce_a m (page_directory p) a) PG_PRESENT = false ->
  exists b m', pf_carica_da_file p a m = Ok (b, m') /\ spazi m' D ext dma /\ (nel_file p a = false -> b = false /\ m' = m) /\
    (b = false -> nel_file p a = false \/ senza_memoria (page_directory p) a m) /\
    if (b : bool) then ferme m D (fun s => s = posto (page_directory p) a) m' /\ caricata p a m' (voce_a m' (page_directory p) a)
    else ferme m D nessuno m'.
Proof.
  intros Ha SP H0. unfold pf_carica_da_file, nel_file. rewrite immagine_dir.
  assert (Ea : PAGINA_DI a = a).
  { unfold PAGINA_DI. destruct (pagina_ok_range a Ha) as [Hm Hr]. rewrite land_pagina by done. lia. }
  rewrite Ea, (proj2 (Z.eqb_neq (page_directory p) 0)).
  2:{ pose proof (sp_strutt_pos m D ext dma SP _ (or_introl Hd)). lia. }
  rewrite orb_false_r, Z.ltb_antisym.
  assert (K : exists b m', Ok (false, m) = Ok (b, m') /\ spazi m' D ext dma /\ (false = false -> b = false /\ m' = m) /\
    (b = false -> false = false \/ senza_memoria (page_directory p) a m) /\
    if (b : bool) then ferme m D (fun s => s = posto (page_directory p) a) m' /\ caricata p a m' (voce_a m' (page_directory p) a)
    else ferme m D nessuno m').
  { exists false, m. split; [done|]. split; [done|]. split; [done|]. split; [by left | apply ferme_refl]. }
  destruct (0 <=? exe_handle (immagine_di p)) eqn:Ex; cbn [negb andb]; [|exact K].
  destruct (cerca_vma a (vma (immagine_di p))) as [v|] eqn:Ev; [|exact K].
  destruct (leggi_pagina (exe_handle (immagine_di p)) v a) as [[n buf]|] eqn:El; [|exact K]. clear K.
  rewrite (fisico_spec D ext dma _ Hd a Ha m SP), H0. cbn [Z.eqb negb].
  destruct (pagina_utente_spec m _ (sp_conti _ _ _ _ SP)) as ([x m0] & E & F & Ht & Hr). cbn [fst snd] in *. rewrite E. cbn [mbind run_bind].
  destruct Hr as [[-> Hs]|(f & -> & Hf & Hof & Hs)].
  { cbn [Z.eqb]. exists false, m0. split; [done|]. split; [by apply (spazi_pag m D ext dma)|]. split; [done|].
    split; [intros _; right; exists 0, m0; split; [done | by left] | by apply ferme_pag]. }
  rewrite (proj2 (Z.eqb_neq _ 0)), frame_pagina by (unfold PAGE_SIZE; lia). destruct (Hv v) as [H9 H10]; [by apply (cerca_vma_in a)|].
  destruct (nuova_spec D ext dma (page_directory p) Hd a Ha m SP (parola_pagina buf n) (pg_flags v) m0 f) as (b & m' & E' & S & H); try done.
  { apply parola_pagina_range. }
  exists b, m'. split; [exact E'|]. split; [done|]. split; [done|]. split.
  { intros ->. right. exists (f * PAGE_SIZE), m0. split; [done|]. right.
    destruct (paging_map_page _ a (f * PAGE_SIZE) (pg_flags v) _) as [[r m2]| |] eqn:Em; cbn [mbind run_bind] in E'; [|done|done].
    eexists _, _, r, m2. split; [exact Em|]. intros ->. cbn [Z.eqb negb] in E'. done. }
  destruct b; [|done]. destruct H as [H Q]. split; [done|].
  split; [unfold nel_file; by rewrite Ex, Ev, El|]. exists v, n, buf. done.
Qed.

(** ** mprotect *)

(** An entry that mprotect finds: present, reserved or promised. *)
Definition utile (e : Z) : bool := ha e PG_PRESENT || PTE_E_RISERVA e || PTE_E_PIGRA e.

Lemma utile_presente m d a : utile (voce_a m d a) = true -> presente m d (PD_INDEX a) = true.
Proof. unfold voce_a, voce. by destruct (presente m d (PD_INDEX a)). Qed.

(** Step 1. *)
Definition portata (a : Z) m (e : Z) m' (e' : Z) : Prop :=
  if utile e then e' = e /\ stessa_vista m e m' e else caricata p a m' e'.

Lemma residente_spec a m : pagina_ok a -> spazi m D ext dma ->
  let d := page_directory p in
  exists b m', residente p a m = Ok (b, m') /\ spazi m' D ext dma /\
    (utile (voce_a m d a) = true -> b = true /\ m' = m) /\
    if (b : bool) then ferme m D (fun s => s = posto d a) m' /\ portata a m (voce_a m d a) m' (voce_a m' d a) else ferme m D nessuno m'.
Proof.
  intros Ha SP d. destruct (qui D d Hd a Ha) as [(_ & Hut & Hj) Ea]. unfold residente. fold d. unfold TAB_C_E, TAB_GRANDE, TAB_DI.
  fold (presente m d (PD_INDEX a)). assert (Eh : presente m d (PD_INDEX a) && ha (fis m d (PD_INDEX a)) PG_HUGE = false).
  { destruct (presente m d (PD_INDEX a)) eqn:Ep; [|done]. by rewrite (sp_huge _ _ _ _ SP d _ Hd Hut Ep). }
  rewrite Eh. cbn [mbind run_bind Z.eqb negb]. fold (presente m d (PD_INDEX a)).
  assert (Ee : forall g : Z -> bool, g 0 = false -> presente m d (PD_INDEX a) && g (fis m (tab (fis m d (PD_INDEX a))) (PT_INDEX a)) = g (voce_a m d a)).
  { intros g G0. unfold voce_a, voce. by destruct (presente m d (PD_INDEX a)). }
  rewrite (Ee (fun e => ha e PG_PRESENT)), (Ee SWAP_PTE_E_SWAP), (Ee (fun e => PTE_E_RISERVA e || PTE_E_PIGRA e)) by done.
  pose proof (sp_swap _ _ _ _ SP d _ _ (proj1 (qui D d Hd a Ha))) as Hsw. fold (voce_a m d a) in Hsw. rewrite Hsw.
  unfold utile, portata. unfold utile. set (e := voce_a m d a) in *. destruct (ha e PG_PRESENT) eqn:Hp; cbn [orb].
  { exists true, m. split; [done|]. split; [done|]. split; [done|]. split; [apply ferme_refl|]. split; [done | apply vista_refl]. }
  destruct (PTE_E_RISERVA e || PTE_E_PIGRA e) eqn:Hrp; cbn [orb].
  { exists true, m. split; [done|]. split; [done|]. split; [done|]. split; [apply ferme_refl|]. split; [done | apply vista_refl]. }
  destruct (carica_spec a m Ha SP Hp) as (b & m' & E & S & Hn & _ & H). exists b, m'. done.
Qed.

Lemma stabile2_portata : stabile2 portata.
Proof.
  intros a m0 m e m1 e' m2 T1 V1 H T2 V2. unfold portata in *. destruct (utile e).
  - destruct H as [-> H]. split; [done|]. apply (vista_trans _ _ m e); [done|]. by apply (vista_trans _ _ m1 e).
  - destruct H as (E0 & v & n & buf & E1 & E2 & H). split; [done|]. exists v, n, buf. split; [done|]. split; [done|]. by apply (stabile_nuova _ _ m1).
Qed.

End File.

(** Step 3: the rights of an entry become [prot]; the frame and its words stay. *)
Definition protetta (prot : Z) m (e : Z) m' (e' : Z) : Prop :=
  if ha e PG_PRESENT
  then ha e' PG_PRESENT = true /\ tab e' = tab e /\ (forall k, 0 <= k < 1024 -> fis m' (tab e) k = fis m (tab e) k) /\
       (forall n, 0 <= n < 12 -> n <> 1 -> n <> 2 -> n <> 10 -> Z.testbit e' n = Z.testbit e n) /\
       ha e' PG_USER = ha prot PROT_TUTTI /\ ha e' (Z.lor PG_WRITABLE PG_COW) = ha prot PROT_WRITE
  else e' = if ha prot PROT_TUTTI then voce_promessa (diritti prot) else PG_RISERVA.

Lemma stabile2_protetta prot : stabile2 (fun _ => protetta prot).
Proof.
  intros a m0 m e m1 e' m2 _ V1 H _ V2. unfold protetta, stessa_vista in *. destruct (ha e PG_PRESENT); [|done].
  destruct H as (H1 & H2 & H3 & H4). rewrite H1 in V2. destruct V1 as (_ & _ & V1), V2 as (_ & _ & V2). do 2 (split; [done|]). split; [|done].
  intros k Hk. rewrite <- H2, V2, H2, H3 by done. by rewrite V1.
Qed.

Lemma prot_scrive prot : ha prot PROT_WRITE = true -> ha prot PROT_TUTTI = true.
Proof. unfold PROT_TUTTI. rewrite !ha_or. intros ->. by rewrite orb_true_r. Qed.

Lemma diritti_bit prot : 0 <= diritti prot < 4096 /\ ha (diritti prot) PG_USER = ha prot PROT_TUTTI /\
  ha (diritti prot) PG_WRITABLE = ha prot PROT_WRITE /\ Z.lor PG_PIGRA (diritti prot) = voce_promessa (diritti prot) /\
  forall n, 0 <= n -> n <> 1 -> n <> 2 -> Z.testbit (diritti prot) n = false.
Proof.
  assert (B : forall n, 0 <= n -> n <> 1 -> n <> 2 -> forall c : Z, c = 0 \/ c = 2 \/ c = 4 \/ c = 6 -> Z.testbit c n = false).
  { intros n Hn N1 N2 c Hc. destruct (Z.eq_dec n 0) as [->|]; [by destruct Hc as [->|[->|[->| ->]]]|]. apply bit_sopra; lia. }
  unfold diritti. destruct (ha prot PROT_TUTTI), (ha prot PROT_WRITE); (split; [vm_compute; split; [discriminate | reflexivity]|]);
    (do 3 (split; [vm_compute; reflexivity|])); intros n H1 H2 H3; apply B; try done; cbn; tauto.
Qed.

(** [(pte & ~(PG_USER | PG_WRITABLE | PG_COW)) | n] *)
Definition voce_protetta (e n : Z) : Z := Z.lor (senza_bit e (Z.lor (Z.lor PG_USER PG_WRITABLE) PG_COW)) n.

Lemma voce_protetta_ok e prot (c : bool) : 0 <= e < W32 -> (c = true -> ha prot PROT_WRITE = true) ->
  let n := if c then Z.lor (senza_bit (diritti prot) PG_WRITABLE) PG_COW else diritti prot in
  let v := voce_protetta e n in
  0 <= v < W32 /\ tab v = tab e /\ (forall k, 0 <= k < 12 -> k <> 1 -> k <> 2 -> k <> 10 -> Z.testbit v k = Z.testbit e k) /\
  ha v PG_USER = ha prot PROT_TUTTI /\ ha v PG_WRITABLE = ha prot PROT_WRITE && negb c /\ ha v PG_COW = c.
Proof.
  intros He Hc n v. destruct (diritti_bit prot) as (Rd & Bu & Bw & _ & Bn).
  assert (Rn : 0 <= n < 4096 /\ (forall k, 0 <= k < 12 -> Z.testbit n k = Z.testbit (diritti prot) k && negb (c && (k =? 1)) || c && (k =? 10))).
  { unfold n. destruct c; cbn [andb].
    - destruct (flag_bits (diritti prot) PG_WRITABLE PG_COW ltac:(unfold W32; lia) ltac:(unfold PG_WRITABLE; lia) ltac:(unfold PG_COW; lia)) as (R & _ & B).
      split.
      + apply bit_sotto. intros k Hk. rewrite Z.lor_spec. unfold senza_bit. rewrite Z.land_spec, (bit_alto (diritti prot)), (bit_alto PG_COW) by (unfold PG_COW; lia). done.
      + intros k Hk. rewrite B by done. change PG_WRITABLE with (2 ^ 1). change PG_COW with (2 ^ 10). by rewrite !Z.pow2_bits_eqb, (Z.eqb_sym 1), (Z.eqb_sym 10) by lia.
    - split; [done|]. intros k Hk. by rewrite andb_true_r, orb_false_r. }
  destruct Rn as [Rn Bnn].
  destruct (flag_bits e (Z.lor (Z.lor PG_USER PG_WRITABLE) PG_COW) n He ltac:(done) Rn) as (R & T & B). fold (voce_protetta e n) in R, T, B. fold v in R, T, B.
  split; [done|]. split; [done|]. split.
  - intros k Hk N1 N2 N10. rewrite B, Bnn, Bn, (proj2 (Z.eqb_neq k 10)), andb_false_r by lia. cbn [andb orb]. rewrite orb_false_r.
    rewrite !Z.lor_spec. change PG_USER with (2 ^ 2). change PG_WRITABLE with (2 ^ 1). change PG_COW with (2 ^ 10). rewrite !Z.pow2_bits_false by lia. apply andb_true_r.
  - rewrite !ha_U, !ha_W, !ha_C, !B, !Bnn by lia. rewrite ha_U in Bu. rewrite ha_W in Bw. rewrite Bu, Bw, (Bn 10) by lia.
    change (Z.testbit (Z.lor (Z.lor PG_USER PG_WRITABLE) PG_COW) 2) with true. change (Z.testbit (Z.lor (Z.lor PG_USER PG_WRITABLE) PG_COW) 1) with true.
    change (Z.testbit (Z.lor (Z.lor PG_USER PG_WRITABLE) PG_COW) 10) with true. cbn [negb Z.eqb]. rewrite !andb_false_r. cbn [orb andb].
    change (2 =? 1) with false. change (2 =? 10) with false. change (1 =? 10) with false. change (10 =? 1) with false.
    destruct c; cbn [andb negb orb]; rewrite ?andb_true_r, ?orb_false_r, ?andb_false_r; repeat split; try done. exact (ha_W prot).
Qed.

Section Applica.

Context D (ext : Z -> Z) (dma : Z -> Prop) (d : Z) (Hd : d ∈ D).
Context (Hna : pochi D ext) (prot : Z).

(** The entry that is written at a page that is there. *)
Lemma applica_voce_spec a m : pagina_ok a -> spazi m D ext dma -> fissa m (voce_a m d a) = false -> ha (voce_a m d a) PG_PRESENT = true ->
  let e := voce_a m d a in
  exists c : bool, (if ha (diritti prot) PG_WRITABLE && negb (PTE_E_CONDIVISA e) && negb (PMM_OLTRE_RAM (PG_ADDR e) m)
                    then if ha e PG_COW then Ok true else c ← pg_conta (PG_ADDR e) (pag m); Ok (1 <? c) else Ok false) = Ok c /\
    (c = true -> ha prot PROT_WRITE = true /\ PTE_E_CONDIVISA e = false /\ contata m e = true) /\
    (c = false -> ha prot PROT_WRITE = true -> PTE_E_CONDIVISA e = false -> contata m e = true -> usi m D (tab e) = 1).
Proof.
  intros Ha SP Hf Hp e. destruct (qui D d Hd a Ha) as [Hu _]. destruct (diritti_bit prot) as (_ & _ & -> & _).
  destruct (ha prot PROT_WRITE); cbn [andb]; [|exists false; done]. destruct (PTE_E_CONDIVISA e) eqn:Ec; cbn [andb negb]; [exists false; done|].
  assert (Hc : contata m e = negb (PMM_OLTRE_RAM (PG_ADDR e) m)).
  { unfold contata, fissa in *. fold e in Hp, Hf. rewrite Hp in *. cbn [andb] in *. destruct (PMM_OLTRE_RAM (PG_ADDR e) m); [done|]. cbn [negb andb] in *. by rewrite Hf. }
  destruct (PMM_OLTRE_RAM (PG_ADDR e) m); cbn [negb] in *; [exists false; split; [done|]; split; [done|]; congruence|].
  destruct (ha e PG_COW) eqn:Ecw.
  - exists true. done.
  - assert (Hw : 0 <= e < W32) by (by apply (voce_parola m D ext dma)). rewrite PG_ADDR_tab by done.
    pose proof (contata_usi m D d _ _ Hu Hc) as U. fold (voce_a m d a) in U. fold e in U. pose proof (sp_o m D ext dma SP (tab e)) as (He & _).
    pose proof (pochi_conti m D ext (tab e) Hna) as Hle. unfold non_avvolta in Hle.
    rewrite (pg_conta_ok (pag m) _ (tab e) (sp_conti _ _ _ _ SP)), u32_small by lia. cbn [mbind run_bind]. exists (1 <? ext (tab e) + usi m D (tab e)).
    split; [done|]. split; [done|]. intros Hc1 _ _ _. apply Z.ltb_ge in Hc1. lia.
Qed.

Lemma applica_spec a m : pagina_ok a -> spazi m D ext dma -> utile (voce_a m d a) = true /\ fissa m (voce_a m d a) = false ->
  exists m', applica d (diritti prot) a m = Ok m' /\ spazi m' D ext dma /\ ferme m D (fun s => s = posto d a) m' /\
    protetta prot m (voce_a m d a) m' (voce_a m' d a).
Proof.
  intros Ha SP [Hut Hf]. destruct (qui D d Hd a Ha) as [Hu _]. pose proof (utile_presente m d a Hut) as Hp. pose proof Hu as (_ & Hui & Hj).
  set (e := voce_a m d a) in *. assert (Hw : 0 <= e < W32) by (by apply (voce_parola m D ext dma)).
  assert (Ee : fis m (TAB_DI d a m) (PT_INDEX a) = e) by (unfold e, voce_a, voce, TAB_DI; by rewrite Hp).
  unfold applica. rewrite Ee. unfold TAB_DI. set (t := tab (fis m d (PD_INDEX a))) in *. set (j := PT_INDEX a) in *.
  assert (W : forall v, scritto m t j v (metti t j v m)) by (intros v; split; [done|]; intros f k; done).
  assert (Hext := sp_ext _ _ _ _ SP). assert (Hdm : forall f, dma f -> 0 < ext f) by (intros f Hfd; by apply (sp_dma _ _ _ _ SP)).
  unfold protetta. destruct (ha e PG_PRESENT) eqn:Hpr; cbn [negb].
  - destruct (applica_voce_spec a m Ha SP Hf Hpr) as (c & Ec0 & Hct & Hcf). fold e in Ec0, Hct, Hcf. rewrite Ec0. cbn [mbind run_bind].
    fold (voce_protetta e (if c then Z.lor (senza_bit (diritti prot) PG_WRITABLE) PG_COW else diritti prot)).
    destruct (voce_protetta_ok e prot c Hw ltac:(intros; by apply Hct)) as (R & T & B & BU & BW & BC).
    set (v := voce_protetta e _) in *. set (m' := metti t j v m). eexists. split; [reflexivity|]. fold m'.
    assert (Pv : ha v PG_PRESENT = true) by (rewrite ha_P, B, <- ha_P by lia; done).
    assert (Fv : ha v PG_FISSA = ha e PG_FISSA) by (rewrite !ha_F, B by lia; done).
    assert (Cv : contata m v = contata m e) by (unfold contata; by rewrite Pv, Hpr, Fv, !PG_ADDR_tab, T by done).
    assert (Sv : PTE_E_CONDIVISA v = PTE_E_CONDIVISA e) by (rewrite !PTE_E_CONDIVISA_bit, <- !ha_P, Pv, Hpr, B by lia; done).
    assert (Qu : forall g, usi m' D g = usi m D g).
    { intros g. rewrite (scritto_usi m D ext dma SP m' d _ _ v Hu Hp (W v)), Cv, T. cbn [uso]. change (voce m d (PD_INDEX a) j) with e. lia. }
    split; [|split].
    + apply (scritto_spazi m D ext dma SP m' d _ _ v Hu Hp (W v)); try done.
      * rewrite SWAP_bit, <- ha_P, Pv. done.
      * intros Hcw. rewrite PTE_E_COW_bit, <- !ha_P, <- ha_C, Pv, BC in Hcw. cbn [andb] in Hcw. destruct (Hct Hcw) as (_ & H2 & H3).
        rewrite Cv, BW, Sv, Hcw. cbn [negb]. by rewrite andb_false_r.
      * eapply pg_ext; [exact (sp_conti _ _ _ _ SP)|]. intros g. cbn beta. by rewrite Qu.
      * unfold voce_nuova_ok. rewrite Cv, T. destruct (contata m e) eqn:Ec.
        2:{ intros Hfv. exfalso. unfold fissa in Hfv, Hf. rewrite Pv, Fv, PG_ADDR_tab, T, <- PG_ADDR_tab in Hfv by done. rewrite Hpr in Hf. congruence. }
        pose proof (contata_usi m D d _ _ Hu Ec) as U. change (voce m d (PD_INDEX a) j) with e in U.
        split; [intros Hfd; pose proof (proj2 (sp_dma _ _ _ _ SP _ Hfd)); lia|]. rewrite Qu.
        destruct (privata v) eqn:Epv; [left | right].
        -- unfold privata in Epv. rewrite BW, Sv in Epv. apply andb_true_iff in Epv as [[E1 E2]%andb_true_iff E3]. apply negb_true_iff in E2, E3. by apply Hcf.
        -- split; [done|]. split; [by apply (voce_non_strutt m D ext dma SP)|]. intros d' i' j' Hu' Ne Hc' Ht'.
           destruct (privata (voce m d' i' j')) eqn:Ep'; [|done]. exfalso. apply Ne.
           pose proof (sp_priv _ _ _ _ SP d' i' j' Hu' Hc' Ep') as U1. rewrite Ht' in U1.
           apply (usi_uno m D (tab e) _ _ (sp_nodup _ _ _ _ SP)); [lia | done | done | by apply uso_dat | by apply uso_dat].
    + by apply (scritto_ferme m D ext dma m' d _ _ v SP).
    + assert (Ev : voce_a m' d a = v) by exact (scritto_qui m D ext dma SP m' d _ _ v Hu Hp (W v)). rewrite Ev. split; [done|]. split; [done|]. split.
      * intros k _. rewrite (proj2 (W v)), (proj2 (Z.eqb_neq (tab e) t)); [done|]. intros Et.
        apply (voce_non_strutt m D ext dma SP d _ _ Hu Hpr). change (voce m d (PD_INDEX a) j) with e. rewrite Et. right. eauto 6.
      * split; [intros n Hn N1 N2 N10; by apply B|]. split; [done|]. rewrite ha_or, BW, BC. destruct c; cbn [negb]; [|by rewrite andb_true_r, orb_false_r].
        rewrite orb_true_r. symmetry. by apply Hct.
  - destruct (diritti_bit prot) as (_ & BU & _ & EP & _). rewrite EP, BU. set (v := if ha prot PROT_TUTTI then _ else _).
    assert (Hv : 0 <= v < W32 /\ ha v PG_PRESENT = false /\ SWAP_PTE_E_SWAP v = false).
    { unfold v. destruct (ha prot PROT_TUTTI); [|done]. destruct (voce_promessa_ok (diritti prot)) as (R & _ & B). split; [done|].
      rewrite ha_P, SWAP_bit, !B by lia. done. }
    destruct Hv as (R & Pv & Sv). set (m' := metti t j v m). eexists. split; [reflexivity|]. fold m'.
    assert (Cv : contata m v = false) by (unfold contata; by rewrite Pv). assert (Ce : contata m e = false) by (unfold contata; by rewrite Hpr).
    split; [|split; [by apply (scritto_ferme m D ext dma m' d _ _ v SP) | by apply (scritto_qui m D ext dma SP m' d)]].
    apply (scritto_spazi m D ext dma SP m' d _ _ v Hu Hp (W v)); try done.
    + intros Hcw. rewrite PTE_E_COW_bit, <- ha_P, Pv in Hcw. done.
    + eapply pg_ext; [exact (sp_conti _ _ _ _ SP)|]. intros g. cbn beta. rewrite (scritto_usi m D ext dma SP m' d _ _ v Hu Hp (W v)), Cv.
      cbn [uso]. change (voce m d (PD_INDEX a) j) with e. rewrite Ce. cbn [andb uno]. lia.
    + unfold voce_nuova_ok. rewrite Cv. unfold fissa. by rewrite Pv.
Qed.

End Applica.

End MemsysPassi.
