(* ===== verification/MemsysThms.v ===== *)
(** * The memory system calls: the claims

    The border of the heap ([heap_ok]): above [heap_end] and under [heap_max] no page is
    mapped, promised or reserved.  The calls keep it, and the invariant of the page
    tables; they change the pages of their range and no other. *)

From S2P Require Import Prelude Bytes Pmm Pagine Paging Fork PagingBit PagingSpec PagingPassi PagingVista.
From S2P Require Import PagingCow PagingDir PagingMappa PagingMacchina PagineConti PagingThms Memsys MemsysPassi.

Section MemsysThms.

Context {P : Type} {PG : Pagine P} {PO : PagineOk P} {SC : Scambio P} {SS : SenzaSwap P} {ST : Statiche} {SF : SchermoFuori} {SI : Sistema}.

Implicit Types (m : Mondo P) (D : list Z) (proc : Proc).

Record heap_ok m proc : Prop := {
  ho_pagina : heap_end proc mod 4096 = 0;
  ho_ordine : USER_SPACE_BASE <= heap_start proc <= heap_end proc /\ heap_end proc <= heap_max proc <= USER_SPACE_END;
  ho_vuoto : forall a, a mod 4096 = 0 -> heap_end proc <= a < heap_max proc -> voce_a m (page_directory proc) a = 0
}.

(** The invariant of the page tables, of a loop. *)
Abbreviation inv D ext dma := (fun m => spazi m D ext dma).

Abbreviation pg v k := (v + k * PAGE_SIZE).

(** ** The border *)

Lemma sopra_heap_spec m proc pages : heap_ok m proc ->
  sopra_heap pages proc = if (heap_max proc - heap_end proc) / PAGE_SIZE <? pages then None else Some (heap_end proc).
Proof.
  intros H. pose proof (ho_ordine _ _ H) as O. pose proof (ho_pagina _ _ H) as Hp. unfold sopra_heap, USER_SPACE_BASE, USER_SPACE_END in *.
  change PAGE_SIZE with 4096. rewrite align_up_4096 by (unfold W32; lia).
  replace ((heap_end proc + 4095) / 4096 * 4096) with (heap_end proc) by zdm.
  rewrite (proj2 (Z.ltb_ge (heap_end proc) _)) by lia. rewrite (proj2 (Z.eqb_neq (heap_max proc) 0)), (proj2 (Z.ltb_ge (heap_max proc) _)) by lia. done.
Qed.

Lemma heap_fascia m proc pages : heap_ok m proc -> 0 <= pages -> ((heap_max proc - heap_end proc) / PAGE_SIZE <? pages) = false ->
  fascia_ok (heap_end proc) pages /\ heap_end proc + pages * PAGE_SIZE <= heap_max proc.
Proof.
  intros H Hn Hl. pose proof (ho_ordine _ _ H) as O. pose proof (ho_pagina _ _ H) as Hp. apply Z.ltb_ge in Hl. unfold fascia_ok, PAGE_SIZE in *. zdm.
Qed.

Lemma heap_vuote m proc pages k : heap_ok m proc -> fascia_ok (heap_end proc) pages -> heap_end proc + pages * PAGE_SIZE <= heap_max proc ->
  0 <= k < pages -> voce_a m (page_directory proc) (pg (heap_end proc) k) = 0.
Proof.
  intros H Hf Hm Hk. apply (ho_vuoto _ _ H); [by apply (pagina_fascia _ _ _ Hf Hk)|]. unfold PAGE_SIZE in *. nia.
Qed.

Lemma fascia_range d v n a : fascia_ok v n -> pagina_ok a -> fascia d v 0 n (posto d a) -> v <= a < v + n * PAGE_SIZE.
Proof.
  intros Hf Ha (k & Hk & E). apply posto_inj in E as [_ ->]; [|done | by apply (pagina_fascia v n)]. unfold PAGE_SIZE. nia.
Qed.

Lemma fascia_qui v n a : fascia_ok v n -> pagina_ok a -> v <= a < v + n * PAGE_SIZE -> exists k, 0 <= k < n /\ a = pg v k.
Proof. intros (Hv & _) (Ha & _) H. exists ((a - v) / 4096). unfold PAGE_SIZE in *. zdm. Qed.

Lemma con_heap_end_id proc : con_heap_end (heap_end proc) proc = proc.
Proof. by destruct proc. Qed.

(** A call that changes the entries [X] and moves the border to [e']. *)
Lemma heap_ok_cambia m D X m' proc e' : heap_ok m proc -> page_directory proc ∈ D -> ferme m D X m' -> e' mod 4096 = 0 ->
  heap_start proc <= e' <= heap_max proc ->
  (forall a, pagina_ok a -> e' <= a < heap_max proc ->
     voce_a m' (page_directory proc) a = 0 \/ heap_end proc <= a /\ ~ X (posto (page_directory proc) a)) ->
  heap_ok m' (con_heap_end e' proc).
Proof.
  intros H Hd F Hp Hr Hv. pose proof (ho_ordine _ _ H) as O. split; cbn [con_heap_end heap_end heap_start heap_max page_directory]; [done | lia |].
  intros a Ha Hra. assert (Hpa : pagina_ok a) by (split; [done | lia]). destruct (Hv a Hpa Hra) as [E|[Hge Nx]]; [done|].
  destruct (ferme_voce_a _ _ _ _ _ a F Hd Hpa Nx) as (E & _). rewrite E. apply (ho_vuoto _ _ H); [done | lia].
Qed.

Lemma heap_ok_fermo m D m' proc : heap_ok m proc -> page_directory proc ∈ D -> ferme m D nessuno m' -> heap_ok m' proc.
Proof.
  intros H Hd F. pose proof (ho_ordine _ _ H). rewrite <- (con_heap_end_id proc).
  apply (heap_ok_cambia m D nessuno); try done; [by apply H | lia |]. intros a Ha Hr. right. split; [lia | by intros []].
Qed.

(** The border goes up over a range that was filled, or stays. *)
Lemma heap_ok_alza m D m' proc v n : heap_ok m proc -> page_directory proc ∈ D -> fascia_ok v n -> v + n * PAGE_SIZE <= heap_max proc ->
  ferme m D (fascia (page_directory proc) v 0 n) m' ->
  heap_ok m' (alza (v + n * PAGE_SIZE) proc) /\ heap_end (alza (v + n * PAGE_SIZE) proc) = Z.max (heap_end proc) (v + n * PAGE_SIZE).
Proof.
  intros H Hd Hf Hm F. pose proof (ho_ordine _ _ H) as O. pose proof (ho_pagina _ _ H) as Hp.
  assert (E : alza (v + n * PAGE_SIZE) proc = con_heap_end (Z.max (heap_end proc) (v + n * PAGE_SIZE)) proc).
  { unfold alza. destruct (Z.ltb_spec (heap_end proc) (v + n * PAGE_SIZE)); [by rewrite Z.max_r by lia|]. rewrite Z.max_l by lia. by rewrite con_heap_end_id. }
  rewrite E. split; [|done]. apply (heap_ok_cambia m D (fascia (page_directory proc) v 0 n)); try done.
  - destruct Hf as (Hv & _). unfold PAGE_SIZE. destruct (Z.max_spec (heap_end proc) (v + n * 4096)) as [[_ ->]|[_ ->]]; [|done].
    by rewrite Z.mod_add by lia.
  - lia.
  - intros a Ha Hr. right. split; [lia|]. intros Hx. apply (fascia_range _ v n a Hf Ha) in Hx. lia.
Qed.

(** ** Ranges taken out *)

Lemma smonta_giro m D ext dma d v n :
  spazi m D ext dma -> d ∈ D -> fascia_ok v n -> (forall k, 0 <= k < n -> ordinaria m (voce_a m d (pg v k))) ->
  exists m', per_pagine (Z.to_nat n) v 0 (smonta d) m = Ok m' /\ per_pagine (Z.to_nat n) v 0 (smonta_fissa d) m = Ok m' /\
    spazi m' D ext dma /\ ferme m D (fascia d v 0 n) m' /\ forall k, 0 <= k < n -> voce_a m' d (pg v k) = 0.
Proof.
  intros SP Hd Hf Ho. assert (Hn : 0 <= n) by apply Hf.
  assert (K : forall f, (forall a m1, pagina_ok a -> spazi m1 D ext dma -> f a m1 = smonta d a m1) ->
    passo_ok D (inv D ext dma) d v n (fun _ => ordinaria) (fun _ _ _ _ e' => e' = 0) f).
  { intros f Ef m1 a Ha _ S Q. rewrite Ef by done. destruct (smonta_spec D ext dma d Hd a Ha m1 S Q) as (m' & E & S' & F & V). by exists m'. }
  assert (G : forall f, passo_ok D (inv D ext dma) d v n (fun _ => ordinaria) (fun _ _ _ _ e' => e' = 0) f ->
    exists m', per_pagine (Z.to_nat n) v 0 f m = Ok m' /\ trattate D (inv D ext dma) d v (fun _ _ _ _ e' => e' = 0) m 0 n m').
  { intros f Hp. destruct (per_pagine_spec D (inv D ext dma) d Hd v n Hf (fun _ => ordinaria) (fun _ _ _ _ e' => e' = 0) (fun _ => stabile_ordinaria)
      (stabile2_dopo (fun _ _ e => e = 0) (fun _ => stabile_voce _)) f Hp (Z.to_nat n) 0 m) as (m' & E & T); [lia | lia | done | intros k Hk; apply Ho; lia |].
    rewrite Z2Nat.id in T by lia. by exists m'. }
  destruct (G (smonta d) (K _ ltac:(done))) as (m' & E & S & F & V). exists m'. split; [done|]. split; [|done].
  enough (X : forall k i m1, 0 <= i -> i + Z.of_nat k <= n -> spazi m1 D ext dma -> (forall j, i <= j < i + Z.of_nat k -> ordinaria m1 (voce_a m1 d (pg v j))) ->
    per_pagine k v i (smonta_fissa d) m1 = per_pagine k v i (smonta d) m1) by (rewrite X; [done | lia | lia | done | intros j Hj; apply Ho; lia]).
  clear - Hd Hf K PO SS SF. induction k as [|k IH]; intros i m1 Hi Hk S Ho; [done|]. cbn [per_pagine]. rewrite (fascia_u32 v n) by (done || lia).
  assert (Ha : pagina_ok (pg v i)) by (apply (pagina_fascia v n); [done | lia]). rewrite (smonta_fissa_smonta D ext dma d Hd _ Ha m1 S).
  destruct (smonta_spec D ext dma d Hd _ Ha m1 S ltac:(apply Ho; lia)) as (m2 & E2 & S2 & F2 & V2). rewrite E2. cbn [mbind run_bind].
  apply IH; [lia | lia | done |]. intros j Hj. destruct (passo_altra D d Hd v n Hf m1 m2 i j ltac:(lia) ltac:(lia) ltac:(lia) F2) as (E & Ht & _).
  rewrite E. apply (ordinaria_totale m1); [done | apply Ho; lia].
Qed.

(** ** Ranges put in *)

(** The entry of a page of a mapping. *)
Definition mappata (p : MmapParams) m (e : Z) : Prop :=
  if negb (ha (mp_prot p) PROT_TUTTI) then e = PG_RISERVA
  else if ha (mp_flags p) MAP_SHARED then nuova (fun _ => 0) (Z.lor (flags_mmap (mp_prot p)) PG_CONDIVISA) m e
  else e = voce_promessa (flags_mmap (mp_prot p)).

Lemma promessa_assente flags : ha (voce_promessa flags) PG_PRESENT = false.
Proof. destruct (voce_promessa_ok flags) as (_ & _ & B). by rewrite ha_P, B by lia. Qed.

Lemma assente_non_contata m e : ha e PG_PRESENT = false -> contata m e = false.
Proof. intros H. unfold contata. by rewrite H. Qed.

Lemma mappata_ordinaria p m e : mappata p m e -> ordinaria m e.
Proof.
  unfold mappata. destruct (ha (mp_prot p) PROT_TUTTI); cbn [negb]; [|intros ->; by apply ordinaria_assente].
  destruct (ha (mp_flags p) MAP_SHARED); [intros (_ & H & _) _; done | intros ->; apply ordinaria_assente, promessa_assente].
Qed.

Lemma flags_mmap_bit prot : ha (flags_mmap prot) PG_FISSA = false /\ ha (flags_mmap prot) PG_COW = false /\
  ha (flags_mmap prot) PG_USER = ha prot PROT_TUTTI /\ ha (flags_mmap prot) PG_WRITABLE = ha prot PROT_WRITE.
Proof. unfold flags_mmap. by destruct (ha prot PROT_TUTTI), (ha prot PROT_WRITE). Qed.

(** Entries that have no owner are undone by unmapping. *)
Lemma disfa_smappa D ext dma d v n (Q : Z -> Mondo P -> Z -> Prop) : d ∈ D -> (forall a m e, Q a m e -> contata m e = false) ->
  passo_ok D (inv D ext dma) d v n Q (fun _ _ _ _ e' => e' = 0) (paging_unmap_page d).
Proof.
  intros Hd HQ m a Ha _ S H. destruct (smappa_spec D ext dma d Hd a Ha m S (HQ _ _ _ H)) as (m' & E & S' & F & V). by exists m'.
Qed.

Lemma promette_giro m D ext dma d v n flags : spazi m D ext dma -> d ∈ D -> fascia_ok v n -> (forall k, 0 <= k < n -> voce_a m d (pg v k) = 0) ->
  exists b m', tutte n v (promette d flags) (paging_unmap_page d) m = Ok (b, m') /\ spazi m' D ext dma /\
    if (b : bool) then ferme m D (fascia d v 0 n) m' /\ forall k, 0 <= k < n -> voce_a m' d (pg v k) = voce_promessa flags else ferme m D nessuno m'.
Proof.
  intros SP Hd Hf H0. apply (tutte_spec D (inv D ext dma) d Hd v n Hf (fun _ _ e => e = voce_promessa flags)); try done.
  - intros _. apply stabile_voce.
  - intros m1 a Ha _ S E. by apply promette_spec.
  - apply disfa_smappa; [done|]. intros a m1 e ->. apply assente_non_contata, promessa_assente.
Qed.

Lemma pagine_mmap_spec m D ext dma d v n p : spazi m D ext dma -> d ∈ D -> fascia_ok v n -> (forall k, 0 <= k < n -> voce_a m d (pg v k) = 0) ->
  exists b m', pagine_mmap p d n v m = Ok (b, m') /\ spazi m' D ext dma /\
    if (b : bool) then ferme m D (fascia d v 0 n) m' /\ forall k, 0 <= k < n -> mappata p m' (voce_a m' d (pg v k)) else ferme m D nessuno m'.
Proof.
  intros SP Hd Hf H0. unfold pagine_mmap, mappata. destruct (ha (mp_prot p) PROT_TUTTI); cbn [negb]; [destruct (ha (mp_flags p) MAP_SHARED)|].
  - destruct (flags_mmap_bit (mp_prot p)) as (H9 & H10 & _).
    apply (tutte_spec D (inv D ext dma) d Hd v n Hf (fun _ => nuova (fun _ => 0) (Z.lor (flags_mmap (mp_prot p)) PG_CONDIVISA))); try done.
    + intros _. apply stabile_nuova.
    + intros m1 a Ha _ S E. by apply condivide_spec.
    + intros m1 a Ha _ S (_ & Hc & _). destruct (smonta_condivisa_spec D ext dma d Hd a Ha m1 S (fun _ => Hc)) as (m' & E & S' & F & V). by exists m'.
  - by apply promette_giro.
  - apply (tutte_spec D (inv D ext dma) d Hd v n Hf (fun _ _ e => e = PG_RISERVA)); try done.
    + intros _. apply stabile_voce.
    + intros m1 a Ha _ S E. by apply riserva_mem_spec.
    + apply disfa_smappa; [done|]. by intros a m1 e ->.
Qed.

(** Where a mapping goes. *)
Lemma dove_spec m p proc pages : heap_ok m proc -> 0 <= mp_addr p < W32 -> 0 <= pages ->
  match dove p pages proc with
  | inl v => fascia_ok v pages /\ v + pages * PAGE_SIZE <= heap_max proc /\
             v = if ha (mp_flags p) MAP_FIXED then Z.land (mp_addr p) 0xFFFFF000 else heap_end proc
  | inr e => e = if ha (mp_flags p) MAP_FIXED then - EINVAL else - ENOMEM
  end.
Proof.
  intros H Ha Hn. unfold dove. pose proof (ho_ordine _ _ H) as O. destruct (ha (mp_flags p) MAP_FIXED).
  - rewrite land_pagina by done. set (v := mp_addr p - mp_addr p mod 4096). assert (Hv : v mod 4096 = 0) by (unfold v; zdm).
    destruct (Z.ltb_spec v USER_SPACE_BASE), (Z.leb_spec USER_SPACE_END v); cbn [orb]; try done.
    destruct (Z.ltb_spec ((USER_SPACE_END - v) / PAGE_SIZE) pages); [done|].
    assert (Hf : fascia_ok v pages) by (unfold fascia_ok, PAGE_SIZE in *; zdm).
    rewrite (proj2 (Z.eqb_neq (heap_max proc) 0)) by (unfold USER_SPACE_BASE in *; lia). cbn [negb andb].
    rewrite u32_small by (unfold fascia_ok, USER_SPACE_BASE, USER_SPACE_END, W32, PAGE_SIZE in *; lia).
    destruct (Z.ltb_spec (heap_max proc) (v + pages * PAGE_SIZE)); [done|]. split; [done|]. split; [lia | done].
  - rewrite (sopra_heap_spec m) by done. destruct (_ <? pages) eqn:El; [done|]. destruct (heap_fascia m proc pages H Hn El). done.
Qed.

Lemma fascia_fine v n : fascia_ok v n -> u32 (v + n * PAGE_SIZE) = v + n * PAGE_SIZE.
Proof. unfold fascia_ok, USER_SPACE_BASE, USER_SPACE_END, PAGE_SIZE. intros H. apply u32_small. unfold W32. lia. Qed.

(** ** mmap *)

Lemma sys_mmap_spec m D ext dma proc p :
  spazi m D ext dma -> page_directory proc ∈ D -> heap_ok m proc -> 0 <= mp_addr p < W32 -> 0 <= mp_length p < W32 ->
  let d := page_directory proc in
  let pages := pagine_di (mp_length p) in
  let fisso := Z.land (mp_addr p) 0xFFFFF000 in
  (ha (mp_flags p) MAP_FIXED = true -> fascia_ok fisso pages -> forall k, 0 <= k < pages -> ordinaria m (voce_a m d (pg fisso k))) ->
  exists r proc' m', sys_mmap (Some p) proc m = Ok (r, proc', m') /\ spazi m' D ext dma /\ heap_ok m' proc' /\ page_directory proc' = d /\
    (proc' = proc /\ (r = - EINVAL /\ m' = m /\ (mp_length p = 0 \/ ha (mp_flags p) MAP_FIXED = true) \/ r = - ENOMEM /\ ferme m D (if ha (mp_flags p) MAP_FIXED then fascia d fisso 0 pages else nessuno) m') \/
     exists v, r = s32 v /\ v = (if ha (mp_flags p) MAP_FIXED then fisso else heap_end proc) /\ fascia_ok v pages /\
       ferme m D (fascia d v 0 pages) m' /\ (forall k, 0 <= k < pages -> mappata p m' (voce_a m' d (pg v k))) /\
       heap_end proc' = Z.max (heap_end proc) (v + pages * PAGE_SIZE)).
Proof.
  intros SP Hd H Ha Hl d pages fisso Ho. unfold sys_mmap. destruct (Z.eqb_spec (mp_length p) 0) as [E0|_].
  { exists (- EINVAL), proc, m. do 4 (split; [done|]). left. split; [done|]. left. auto. }
  fold pages. pose proof (pagine_di_range _ Hl) as Hp. fold pages in Hp. pose proof (dove_spec m p proc pages H Ha ltac:(lia)) as Hdv.
  destruct (dove p pages proc) as [v|e].
  2:{ exists e, proc, m. do 4 (split; [done|]). left. split; [done|]. rewrite Hdv. destruct (ha _ _); [left; auto|]. right. split; [done | apply ferme_refl]. }
  destruct Hdv as (Hf & Hm & Ev). fold fisso in Ev. fold d.
  assert (K : exists m1, (if ha (mp_flags p) MAP_FIXED then per_pagine (Z.to_nat pages) v 0 (smonta_fissa d) m else Ok m) = Ok m1 /\ spazi m1 D ext dma /\
    ferme m D (if ha (mp_flags p) MAP_FIXED then fascia d v 0 pages else nessuno) m1 /\ forall k, 0 <= k < pages -> voce_a m1 d (pg v k) = 0).
  { destruct (ha (mp_flags p) MAP_FIXED) eqn:Efx.
    - destruct (smonta_giro m D ext dma d v pages SP Hd Hf) as (m1 & _ & E & S & F & V); [rewrite Ev; rewrite Ev in Hf; by apply Ho|]. by exists m1.
    - exists m. split; [done|]. split; [done|]. split; [apply ferme_refl|]. intros k Hk. rewrite Ev. apply (heap_vuote m proc pages); [done | | | done].
      + by rewrite <- Ev. + by rewrite <- Ev. }
  destruct K as (m1 & E1 & S1 & F1 & V1). rewrite E1. cbn [mbind run_bind].
  destruct (pagine_mmap_spec m1 D ext dma d v pages p S1 Hd Hf V1) as (b & m2 & E2 & S2 & H2). rewrite E2. cbn [mbind run_bind]. destruct b.
  - destruct H2 as [F2 V2]. rewrite (fascia_fine v pages Hf).
    assert (F : ferme m D (fascia d v 0 pages) m2) by (apply (ferme_trans _ _ _ _ _ _ _ F1 F2); unfold nessuno; intros s [Hs|Hs]; [by destruct (ha _ _) | done]).
    destruct (heap_ok_alza m D m2 proc v pages H Hd Hf Hm F) as [Hh Eh]. eexists _, _, m2. split; [reflexivity|]. split; [done|]. split; [done|].
    split; [unfold alza; by destruct (_ <? _)|]. right. exists v. done.
  - assert (F : ferme m D (if ha (mp_flags p) MAP_FIXED then fascia d v 0 pages else nessuno) m2)
      by (apply (ferme_trans _ _ _ _ _ _ _ F1 H2); unfold nessuno; tauto).
    eexists _, proc, m2. split; [reflexivity|]. split; [done|]. split; [|split; [done|]; left; split; [done|]; right; split; [done|]].
    + rewrite <- (con_heap_end_id proc). pose proof (ho_ordine _ _ H). apply (heap_ok_cambia _ _ _ _ _ _ H Hd F); [apply H | lia |].
      intros a Hpa Hr. destruct (Z.le_gt_cases (v + pages * PAGE_SIZE) a) as [Hg|Hg].
      * right. split; [lia|]. destruct (ha _ _); [|by intros []]. intros Hx. apply (fascia_range _ v pages a Hf Hpa) in Hx. lia.
      * destruct (Z.le_gt_cases v a) as [Hva|Hva].
        -- left. destruct (fascia_qui v pages a Hf Hpa ltac:(lia)) as (k & Hk & ->). rewrite <- (V1 k Hk).
           apply (ferme_voce_a _ _ _ _ _ _ H2 Hd); [done | by intros []].
        -- right. split; [lia|]. destruct (ha _ _); [|by intros []]. intros Hx. apply (fascia_range _ v pages a Hf Hpa) in Hx. lia.
    + destruct (ha (mp_flags p) MAP_FIXED); [by rewrite <- Ev | done].
Qed.

(** ** munmap *)

(** The border after a range is taken out: down to it if it was the top. *)
Definition abbassa (v fine : Z) proc : Z := if (fine =? heap_end proc) && (heap_start proc <=? v) then v else heap_end proc.

Lemma sys_munmap_spec m D ext dma proc a1 length :
  spazi m D ext dma -> page_directory proc ∈ D -> heap_ok m proc -> 0 <= a1 < W32 -> 0 < length < W32 ->
  let d := page_directory proc in
  let v := Z.land a1 0xFFFFF000 in
  let pages := pagine_di length in
  fascia_ok v pages -> v < USER_SPACE_END -> (forall k, 0 <= k < pages -> ordinaria m (voce_a m d (pg v k))) ->
  exists m', let proc' := con_heap_end (abbassa v (v + pages * PAGE_SIZE) proc) proc in
    sys_munmap a1 length proc m = Ok (0, proc', m') /\ spazi m' D ext dma /\ heap_ok m' proc' /\
    ferme m D (fascia d v 0 pages) m' /\ forall k, 0 <= k < pages -> voce_a m' d (pg v k) = 0.
Proof.
  intros SP Hd H Ha Hl d v pages Hf Hv Ho. destruct (smonta_giro m D ext dma d v pages SP Hd Hf Ho) as (m' & E & _ & S & F & V). exists m'.
  pose proof (ho_ordine _ _ H) as O. unfold sys_munmap. fold v pages d. rewrite (proj2 (Z.ltb_ge v _)), (proj2 (Z.leb_gt _ v)) by (unfold fascia_ok in Hf; lia).
  cbn [orb]. rewrite (proj2 (Z.eqb_neq length 0)), E, (fascia_fine v pages Hf) by lia. cbn [mbind run_bind]. unfold abbassa.
  split; [by destruct (_ && _); [|rewrite con_heap_end_id]|]. split; [done|]. split; [|done].
  assert (Hfv : forall a, pagina_ok a -> heap_end proc <= a -> voce_a m' d a = 0 \/ heap_end proc <= a /\ ~ fascia d v 0 pages (posto d a)).
  { intros a Hpa Hr. destruct (Z.le_gt_cases v a), (Z.lt_ge_cases a (v + pages * PAGE_SIZE)).
    - left. destruct (fascia_qui v pages a Hf Hpa ltac:(lia)) as (k & Hk & ->). by apply V.
    - right. split; [lia|]. intros Hx. apply (fascia_range _ v pages a Hf Hpa) in Hx. lia.
    - right. split; [lia|]. intros Hx. apply (fascia_range _ v pages a Hf Hpa) in Hx. lia.
    - right. split; [lia|]. intros Hx. apply (fascia_range _ v pages a Hf Hpa) in Hx. lia. }
  destruct ((v + pages * PAGE_SIZE =? heap_end proc) && (heap_start proc <=? v)) eqn:Eb.
  - apply andb_true_iff in Eb as [E1%Z.eqb_eq E2%Z.leb_le]. apply (heap_ok_cambia _ _ _ _ _ _ H Hd F); [apply Hf | unfold fascia_ok, PAGE_SIZE in *; lia |].
    intros a Hpa Hr. destruct (Z.lt_ge_cases a (heap_end proc)); [|by apply Hfv]. left.
    destruct (fascia_qui v pages a Hf Hpa ltac:(lia)) as (k & Hk & ->). by apply V.
  - apply (heap_ok_cambia _ _ _ _ _ _ H Hd F); [apply H | lia |]. intros a Hpa Hr. apply Hfv; [done | lia].
Qed.

Lemma sys_munmap_errore m proc a1 length :
  ~ (USER_SPACE_BASE <= Z.land a1 0xFFFFF000 < USER_SPACE_END /\ length <> 0) -> sys_munmap a1 length proc m = Ok (- EINVAL, proc, m).
Proof.
  intros N. unfold sys_munmap. destruct (Z.ltb_spec (Z.land a1 0xFFFFF000) USER_SPACE_BASE), (Z.leb_spec USER_SPACE_END (Z.land a1 0xFFFFF000)); cbn [orb]; try done.
  destruct (Z.eqb_spec length 0); [done | lia].
Qed.

(** ** sbrk *)

Lemma sys_sbrk_spec m D ext dma proc a1 :
  spazi m D ext dma -> page_directory proc ∈ D -> heap_ok m proc -> 0 <= a1 < W32 ->
  let d := page_directory proc in
  let su := (s32 a1 + 4095) / 4096 in
  let giu := - s32 a1 / 4096 in
  (forall a, pagina_ok a -> heap_end proc - giu * PAGE_SIZE <= a < heap_end proc -> heap_start proc <= a -> ordinaria m (voce_a m d a)) ->
  exists r proc' m', sys_sbrk a1 proc m = Ok (r, proc', m') /\ spazi m' D ext dma /\ heap_ok m' proc' /\ page_directory proc' = d /\
    (proc' = proc /\ ferme m D nessuno m' /\ (0 < s32 a1 /\ r = - ENOMEM \/ s32 a1 < 0 /\ r = - EINVAL /\ heap_end proc - heap_start proc < giu * PAGE_SIZE) \/
     r = s32 (heap_end proc) /\
       if 0 <=? s32 a1
       then heap_end proc' = heap_end proc + su * PAGE_SIZE /\ ferme m D (fascia d (heap_end proc) 0 su) m' /\
            forall k, 0 <= k < su -> voce_a m' d (pg (heap_end proc) k) = voce_promessa 7
       else heap_end proc' = heap_end proc - giu * PAGE_SIZE /\ ferme m D (fascia d (heap_end proc') 0 giu) m' /\
            forall k, 0 <= k < giu -> voce_a m' d (pg (heap_end proc') k) = 0).
Proof.
  intros SP Hd H Ha d su giu Ho. pose proof (ho_ordine _ _ H) as O. pose proof (ho_pagina _ _ H) as Hp.
  assert (Hi : - 2147483648 <= s32 a1 < 2147483648) by (unfold s32, W32 in *; destruct (Z.ltb_spec a1 2147483648); lia).
  unfold sys_sbrk. fold d. set (incr := s32 a1) in *.
  rewrite (proj2 (Z.eqb_neq (heap_start proc) 0)), (proj2 (Z.eqb_neq (heap_max proc) 0)) by (unfold USER_SPACE_BASE in O; lia). cbn [orb].
  destruct (Z.eqb_spec incr 0) as [E0|N0].
  { exists (s32 (heap_end proc)), proc, m. do 4 (split; [done|]). right. split; [done|].
    assert (Es : su = 0) by (unfold su; by rewrite E0). rewrite Es, E0. cbn [Z.leb Z.compare]. split; [lia|]. split; [apply ferme_refl | intros; lia]. }
  destruct (Z.ltb_spec 0 incr) as [Hpos|Hneg].
  - rewrite u32_small, pagine_di_spec by (unfold W32; lia). fold su. assert (Hsu : 0 < su) by (unfold su; zdm).
    rewrite (proj2 (Z.ltb_ge (heap_max proc) _)), (proj2 (Z.leb_le 0 incr)) by lia. cbn [orb].
    destruct ((heap_max proc - heap_end proc) / PAGE_SIZE <? su) eqn:El.
    { exists (- ENOMEM), proc, m. do 4 (split; [done|]). left. split; [done|]. split; [apply ferme_refl | auto]. }
    destruct (heap_fascia m proc su H ltac:(lia) El) as [Hf Hm]. rewrite (fascia_fine _ _ Hf).
    destruct (promette_giro m D ext dma d (heap_end proc) su (Z.lor (Z.lor PG_PRESENT PG_WRITABLE) PG_USER) SP Hd Hf) as (b & m' & E & S & Hb).
    { intros k Hk. by apply (heap_vuote m proc su). }
    rewrite E. cbn [mbind run_bind]. destruct b.
    + destruct Hb as [F V]. eexists _, _, m'. split; [reflexivity|]. split; [done|]. split; [|split; [done|]; right; done].
      destruct (heap_ok_alza m D m' proc (heap_end proc) su H Hd Hf Hm F) as [Hh _]. unfold alza in Hh.
      rewrite (proj2 (Z.ltb_lt _ _)) in Hh by (unfold PAGE_SIZE; lia). exact Hh.
    + exists (- ENOMEM), proc, m'. split; [done|]. split; [done|]. split; [by apply (heap_ok_fermo m D)|]. split; [done|]. left. auto.
  - rewrite (proj2 (Z.leb_gt 0 incr)), (u32_small (- incr)) by (unfold W32; lia).
    change (u32 (Z.lnot (PAGE_SIZE - 1))) with 0xFFFFF000. rewrite land_pagina by (unfold W32; lia).
    replace (- incr - - incr mod 4096) with (giu * PAGE_SIZE) by (unfold giu, PAGE_SIZE; zdm). assert (Hg : 0 <= giu) by (unfold giu; zdm).
    destruct (Z.eqb_spec (giu * PAGE_SIZE) 0) as [Eg|Ng].
    { exists (s32 (heap_end proc)), proc, m. do 4 (split; [done|]). right. split; [done|]. assert (giu = 0) as -> by (unfold PAGE_SIZE in Eg; lia).
      split; [lia|]. split; [apply ferme_refl | intros; lia]. }
    rewrite (u32_small (heap_end proc - heap_start proc)) by (unfold USER_SPACE_BASE, USER_SPACE_END, W32 in *; lia).
    destruct (Z.ltb_spec (heap_end proc - heap_start proc) (giu * PAGE_SIZE)) as [Hl|Hl].
    { exists (- EINVAL), proc, m. do 4 (split; [done|]). left. split; [done|]. split; [apply ferme_refl|]. right. split; [lia | auto]. }
    rewrite (u32_small (heap_end proc - giu * PAGE_SIZE)) by (unfold USER_SPACE_BASE, USER_SPACE_END, W32, PAGE_SIZE in *; lia).
    set (v := heap_end proc - giu * PAGE_SIZE) in *.
    assert (Hf : fascia_ok v giu) by (unfold v, fascia_ok, PAGE_SIZE, USER_SPACE_BASE, USER_SPACE_END in *; zdm).
    replace (giu * PAGE_SIZE / PAGE_SIZE) with giu by (by rewrite Z.div_mul).
    destruct (smonta_giro m D ext dma d v giu SP Hd Hf) as (m' & E & _ & S & F & V).
    { intros k Hk. apply Ho; [by apply (pagina_fascia v giu) | unfold v, PAGE_SIZE in *; nia..]. }
    rewrite E. cbn [mbind run_bind]. eexists _, _, m'. split; [reflexivity|]. split; [done|]. split; [|split; [done|]; right; done].
    apply (heap_ok_cambia _ _ _ _ _ _ H Hd F); [apply Hf | unfold v, PAGE_SIZE in *; lia |]. intros a Hpa Hr.
    destruct (Z.lt_ge_cases a (heap_end proc)).
    + left. destruct (fascia_qui v giu a Hf Hpa ltac:(unfold v, PAGE_SIZE in *; lia)) as (k & Hk & ->). by apply V.
    + right. split; [lia|]. intros Hx. apply (fascia_range _ v giu a Hf Hpa) in Hx. unfold v, PAGE_SIZE in *. lia.
Qed.

(** ** mprotect *)

Lemma finche_utile D ext dma m proc v N : spazi m D ext dma -> page_directory proc ∈ D -> segmenti_ok proc -> fascia_ok v N ->
  forall n i, 0 <= i -> i + Z.of_nat n <= N -> (forall k, i <= k < i + Z.of_nat n -> utile (voce_a m (page_directory proc) (pg v k)) = true) ->
  finche n v i (residente proc) m = Ok (true, i + Z.of_nat n, m).
Proof.
  intros SP Hd Hv Hf n. induction n as [|n IH]; intros i Hi Hn Hu; cbn [finche]; [by rewrite Z.add_0_r|].
  rewrite (fascia_u32 v N) by (done || lia).
  destruct (residente_spec D ext dma proc Hd Hv (pg v i) m) as (b & m' & E & _ & Ht & _); [apply (pagina_fascia v N); [done | lia] | done |].
  destruct (Ht (Hu i ltac:(lia))) as [-> ->]. rewrite E. cbn [mbind run_bind]. rewrite IH; [|lia | lia | intros k Hk; apply Hu; lia].
  by replace (i + 1 + Z.of_nat n) with (i + Z.of_nat (S n)) by lia.
Qed.

Lemma controlla_vero m d v N : fascia_ok v N -> forall n i, 0 <= i -> i + Z.of_nat n <= N ->
  (forall k, i <= k < i + Z.of_nat n -> utile (voce_a m d (pg v k)) = true) -> controlla n d v i m = true.
Proof.
  intros Hf n. induction n as [|n IH]; intros i Hi Hn Hu; cbn [controlla]; [done|]. rewrite (fascia_u32 v N) by (done || lia).
  rewrite IH; [|lia | lia | intros k Hk; apply Hu; lia]. specialize (Hu i ltac:(lia)). pose proof (utile_presente _ _ _ Hu) as Hp.
  unfold TAB_C_E, TAB_DI. fold (presente m d (PD_INDEX (pg v i))). rewrite Hp. unfold utile, voce_a, voce in Hu. rewrite Hp in Hu.
  cbn [andb]. rewrite andb_true_r, (orb_comm _ (ha _ _)), orb_assoc. exact Hu.
Qed.

(** What mprotect does to a page: [prot] on the entry that was there, or on the one
    that came from the executable. *)
Definition rimessa (proc : Proc) (prot a : Z) m (e : Z) m' (e' : Z) : Prop :=
  if utile e then protetta prot m e m' e' else exists m1 e1, caricata proc a m1 e1 /\ protetta prot m1 e1 m' e'.

Lemma nuova_utile v flags m e : nuova v flags m e -> utile e = true /\ fissa m e = false.
Proof.
  intros (H1 & H2 & _). unfold utile, fissa. rewrite H1. split; [done|]. unfold contata in H2. apply andb_true_iff in H2 as [_ H2].
  apply negb_true_iff in H2. rewrite H2. apply andb_false_r.
Qed.

Lemma proteggi_spec m D ext dma proc v n prot :
  spazi m D ext dma -> page_directory proc ∈ D -> segmenti_ok proc -> pochi D ext -> fascia_ok v n ->
  let d := page_directory proc in
  (forall k, 0 <= k < n -> fissa m (voce_a m d (pg v k)) = false) ->
  exists r m', paging_proteggi proc v n prot m = Ok (r, m') /\ spazi m' D ext dma /\ ferme m D (fascia d v 0 n) m' /\
    ((forall k, 0 <= k < n -> utile (voce_a m d (pg v k)) = true) -> r = 0) /\
    (r = 0 /\ (forall k, 0 <= k < n -> utile (voce_a m d (pg v k)) || nel_file proc (pg v k) = true) /\
       (forall k, 0 <= k < n -> rimessa proc prot (pg v k) m (voce_a m d (pg v k)) m' (voce_a m' d (pg v k))) \/
     r = - ENOMEM /\ forall k, 0 <= k < n -> utile (voce_a m d (pg v k)) = true \/ nel_file proc (pg v k) = false ->
       voce_a m' d (pg v k) = voce_a m d (pg v k) /\ stessa_vista m (voce_a m d (pg v k)) m' (voce_a m d (pg v k))).
Proof.
  intros SP Hd Hv Hna Hf d Hfx. assert (Hn : 0 <= n) by apply Hf. unfold paging_proteggi. fold d.
  rewrite (proj2 (Z.eqb_neq d 0)) by (pose proof (sp_strutt_pos m D ext dma SP d (or_introl Hd)); lia).
  destruct (finche_spec D (inv D ext dma) d Hd v n Hf (fun _ m e => fissa m e = false) (portata proc)) with (f := residente proc) (n := Z.to_nat n) (i := 0) (m := m)
    as (b & j & m1 & E1 & Hj & Hb & S1 & F1 & R1).
  { intros a m0 m1 e Ht _. by rewrite (fissa_totale m0 m1 e Ht). } { apply stabile2_portata. }
  { intros m0 a Ha _ S0 _. destruct (residente_spec D ext dma proc Hd Hv a m0 Ha S0) as (b & m' & E & S & _ & H). exists b, m'. done. }
  { lia. } { lia. } { done. } { intros k Hk. apply Hfx. lia. }
  rewrite Z2Nat.id in Hj, Hb by lia. rewrite E1. cbn [mbind run_bind].
  assert (Hall : (forall k, 0 <= k < n -> utile (voce_a m d (pg v k)) = true) -> b = true).
  { intros Hu. rewrite (finche_utile D ext dma m proc v n SP Hd Hv Hf) in E1; [by injection E1 | lia | lia | intros k Hk; apply Hu; lia]. }
  destruct b; cbn [negb].
  - rewrite (Hb eq_refl) in *.
    assert (Hu1 : forall k, 0 <= k < n -> utile (voce_a m1 d (pg v k)) = true /\ fissa m1 (voce_a m1 d (pg v k)) = false).
    { intros k Hk. specialize (R1 k ltac:(lia)). specialize (Hfx k Hk). unfold portata in R1. destruct (utile (voce_a m d (pg v k))) eqn:Eu.
      - destruct R1 as [-> _]. split; [done|]. rewrite (fissa_totale m m1); [done | apply F1].
      - destruct R1 as (_ & w & x & y & _ & _ & Hnu). by apply (nuova_utile _ _ _ _ Hnu). }
    rewrite (controlla_vero m1 d v n Hf) by (lia || (intros k Hk; apply Hu1; lia)). cbn [negb].
    destruct (per_pagine_spec D (inv D ext dma) d Hd v n Hf (fun _ m e => utile e = true /\ fissa m e = false) (fun _ => protetta prot)) with (f := applica d (diritti prot)) (n := Z.to_nat n) (i := 0) (m := m1)
      as (m2 & E2 & S2 & F2 & R2).
    { intros a m0 m2 e Ht _. by rewrite (fissa_totale m0 m2 e Ht). } { apply stabile2_protetta. }
    { intros m0 a Ha _ S0 Hq. by apply applica_spec. } { lia. } { lia. } { done. } { intros k Hk. apply Hu1. lia. }
    rewrite Z2Nat.id in F2, R2 by lia. rewrite E2. cbn [mbind run_bind]. exists 0, m2. split; [done|]. split; [done|].
    split; [apply (ferme_trans _ _ _ _ _ _ _ F1 F2); tauto|]. split; [done|]. left. split; [done|]. split.
    + intros k Hk. specialize (R1 k ltac:(lia)). unfold portata in R1. destruct (utile _); [done|]. by destruct R1 as (-> & _).
    + intros k Hk. specialize (R1 k ltac:(lia)). specialize (R2 k ltac:(lia)). unfold portata in R1. unfold rimessa.
      destruct (utile (voce_a m d (pg v k))).
      * destruct R1 as [E V]. rewrite E in R2. apply (stabile2_protetta prot (pg v k) m m1 _ m2 _ m2); try done; [apply F1 | apply vista_refl].
      * exists m1, (voce_a m1 d (pg v k)). done.
  - exists (- ENOMEM), m1. split; [done|]. split; [done|]. split; [apply (ferme_weaken _ _ _ _ _ F1); intros s (k & Hk & ->); exists k; split; [lia | done]|].
    split; [intros Hu; discriminate (Hall Hu)|]. right. split; [done|]. intros k Hk Hu. destruct (Z.lt_ge_cases k j).
    + specialize (R1 k ltac:(lia)). unfold portata in R1. destruct (utile (voce_a m d (pg v k))); [done|].
      destruct R1 as [E _], Hu as [Hu|Hu]; [done | congruence].
    + destruct (ferme_voce_a _ _ _ _ d (pg v k) F1 Hd) as (E & _ & V); [by apply (pagina_fascia v n) | apply (fascia_fuori d v n Hf); lia | done].
Qed.

(** ** mprotect, the call *)

Lemma allineato a : 0 <= a < W32 -> ha a (PAGE_SIZE - 1) = negb (a mod 4096 =? 0).
Proof. intros _. unfold ha. change (PAGE_SIZE - 1) with 0xFFF. by rewrite land_fff. Qed.

Lemma sys_mprotect_spec m D ext dma proc addr len prot :
  spazi m D ext dma -> page_directory proc ∈ D -> segmenti_ok proc -> pochi D ext -> 0 <= addr < W32 -> 0 <= len < W32 ->
  let d := page_directory proc in
  let pages := pagine_di len in
  (fascia_ok addr pages -> forall k, 0 <= k < pages -> fissa m (voce_a m d (pg addr k)) = false) ->
  exists r m', sys_mprotect addr len prot (Some proc) m = Ok (r, m') /\ spazi m' D ext dma /\ ferme m D (fascia d addr 0 pages) m' /\
    (m' = m \/ fascia_ok addr pages) /\ (r = 0 -> pages = 0 \/ fascia_ok addr pages) /\
    (fascia_ok addr pages -> addr < USER_SPACE_END -> ha prot (u32 (Z.lnot PROT_TUTTI)) = false ->
       (forall k, 0 <= k < pages -> utile (voce_a m d (pg addr k)) = true) -> r = 0) /\
    (r = 0 /\ (forall k, 0 <= k < pages -> utile (voce_a m d (pg addr k)) || nel_file proc (pg addr k) = true) /\
       (forall k, 0 <= k < pages -> rimessa proc prot (pg addr k) m (voce_a m d (pg addr k)) m' (voce_a m' d (pg addr k))) \/
     r = - EINVAL /\ m' = m \/
     r = - ENOMEM /\ forall k, 0 <= k < pages -> utile (voce_a m d (pg addr k)) = true \/ nel_file proc (pg addr k) = false ->
       voce_a m' d (pg addr k) = voce_a m d (pg addr k) /\ stessa_vista m (voce_a m d (pg addr k)) m' (voce_a m d (pg addr k))).
Proof.
  intros SP Hd Hs Hna Ha Hl d pages Hfx. unfold sys_mprotect. fold pages. rewrite (allineato addr Ha).
  assert (F0 : ferme m D (fascia d addr 0 pages) m) by apply ferme_refl.
  destruct (Z.eqb_spec (addr mod 4096) 0) as [Ea|Ea]; cbn [negb].
  2:{ exists (- EINVAL), m. do 3 (split; [done|]). split; [by left|]. split; [done|]. split; [intros (H & _); done | auto]. }
  destruct (ha prot _) eqn:Ep; [exists (- EINVAL), m; do 3 (split; [done|]); split; [by left|]; split; [done|]; split; [done | auto]|].
  destruct (Z.eqb_spec len 0) as [El|El].
  { assert (E0 : pages = 0) by (unfold pages; by rewrite El). exists 0, m. do 3 (split; [done|]). split; [by left|]. split; [by left|]. split; [done|].
    left. split; [done|]. rewrite E0. split; intros; lia. }
  assert (K : ~ (fascia_ok addr pages /\ addr < USER_SPACE_END) -> exists r m', Ok (- ENOMEM, m) = Ok (r, m') /\ spazi m' D ext dma /\ ferme m D (fascia d addr 0 pages) m' /\
    (m' = m \/ fascia_ok addr pages) /\ (r = 0 -> pages = 0 \/ fascia_ok addr pages) /\
    (fascia_ok addr pages -> addr < USER_SPACE_END -> false = false ->
       (forall k, 0 <= k < pages -> utile (voce_a m d (pg addr k)) = true) -> r = 0) /\
    (r = 0 /\ (forall k, 0 <= k < pages -> utile (voce_a m d (pg addr k)) || nel_file proc (pg addr k) = true) /\
       (forall k, 0 <= k < pages -> rimessa proc prot (pg addr k) m (voce_a m d (pg addr k)) m' (voce_a m' d (pg addr k))) \/
     r = - EINVAL /\ m' = m \/
     r = - ENOMEM /\ forall k, 0 <= k < pages -> utile (voce_a m d (pg addr k)) = true \/ nel_file proc (pg addr k) = false ->
       voce_a m' d (pg addr k) = voce_a m d (pg addr k) /\ stessa_vista m (voce_a m d (pg addr k)) m' (voce_a m d (pg addr k)))).
  { intros Nf. exists (- ENOMEM), m. do 3 (split; [done|]). split; [by left|]. split; [done|]. split; [intros; exfalso; apply Nf; done|].
    right. right. split; [done|]. intros k _ _. split; [done | apply vista_refl]. }
  destruct (Z.ltb_spec addr USER_SPACE_BASE), (Z.leb_spec USER_SPACE_END addr); cbn [orb]; try (apply K; unfold fascia_ok; lia).
  pose proof (pagine_di_range len Hl) as Hp. fold pages in Hp.
  destruct (Z.ltb_spec ((USER_SPACE_END - addr) / PAGE_SIZE) pages) as [Hlt|Hge].
  { apply K. unfold fascia_ok, PAGE_SIZE in *. intros [(_ & _ & _ & Hx) _]. zdm. }
  assert (Hf : fascia_ok addr pages) by (unfold fascia_ok, PAGE_SIZE in *; zdm). clear K.
  destruct (proteggi_spec m D ext dma proc addr pages prot SP Hd Hs Hna Hf (Hfx Hf)) as (r & m' & E & S & F & Hall & Hr). exists r, m'.
  do 3 (split; [done|]). split; [by right|]. split; [by right|]. split; [intros _ _ _; exact Hall|]. destruct Hr as [Hr|Hr]; [by left | right; by right].
Qed.

(** A length that wraps to no page. *)
Lemma sys_mprotect_avvolta m D ext dma proc addr len prot :
  spazi m D ext dma -> page_directory proc ∈ D -> 0 <= addr < W32 -> 0xFFFFF000 < len < W32 ->
  exists r, sys_mprotect addr len prot (Some proc) m = Ok (r, m) /\
    (r = 0 <-> addr mod 4096 = 0 /\ ha prot (u32 (Z.lnot PROT_TUTTI)) = false /\ USER_SPACE_BASE <= addr < USER_SPACE_END).
Proof.
  intros SP Hd Ha Hl. unfold sys_mprotect. rewrite (allineato addr Ha), pagine_di_avvolta, (proj2 (Z.eqb_neq len 0)) by lia.
  destruct (Z.eqb_spec (addr mod 4096) 0); cbn [negb]; [|eexists; split; [reflexivity|]; split; [done | lia]].
  destruct (ha prot _) eqn:Ep; [eexists; split; [reflexivity|]; split; [done | intros (_ & ? & _); done]|].
  destruct (Z.ltb_spec addr USER_SPACE_BASE), (Z.leb_spec USER_SPACE_END addr); cbn [orb]; try (eexists; split; [reflexivity|]; split; [done | lia]).
  rewrite (proj2 (Z.ltb_ge _ 0)) by (apply Z.div_pos; unfold PAGE_SIZE; lia). unfold paging_proteggi.
  rewrite (proj2 (Z.eqb_neq _ 0)) by (pose proof (sp_strutt_pos m D ext dma SP _ (or_introl Hd)); lia). exists 0. split; [done|]. split; [done | done].
Qed.

(** ** Windows on devices *)

(** The pages of a window from the frame [b0], which is not RAM. *)
Lemma finestra_spec m D ext dma d v n b0 flags :
  spazi m D ext dma -> d ∈ D -> fascia_ok v n -> (forall k, 0 <= k < n -> voce_a m d (pg v k) = 0) ->
  0 <= b0 -> pg_totale (pag m) <= b0 -> b0 + n <= 1048576 -> ha flags PG_COW = false ->
  exists b m', tutte n v (dispositivo d v (b0 * PAGE_SIZE) flags) (paging_unmap_page d) m = Ok (b, m') /\ spazi m' D ext dma /\
    if (b : bool) then ferme m D (fascia d v 0 n) m' /\ forall k, 0 <= k < n -> voce_a m' d (pg v k) = voce_mappa ((b0 + k) * PAGE_SIZE) flags else ferme m D nessuno m'.
Proof.
  intros SP Hd Hf H0 Hb Ht Hn H10. set (E := fun a : Z => voce_mappa ((b0 + (a - v) / PAGE_SIZE) * PAGE_SIZE) flags).
  assert (Hr : forall a, pagina_ok a -> v <= a < v + n * PAGE_SIZE -> 0 <= (a - v) / PAGE_SIZE < n /\ a = pg v ((a - v) / PAGE_SIZE)).
  { intros a Ha Hr. destruct (fascia_qui v n a Hf Ha Hr) as (k & Hk & ->). replace (pg v k - v) with (k * PAGE_SIZE) by lia. by rewrite Z.div_mul. }
  pose proof (sp_strutt_pos m D ext dma SP d (or_introl Hd)) as Hpos.
  assert (Hc : forall m1 a, stesso_totale m m1 -> pagina_ok a -> v <= a < v + n * PAGE_SIZE -> contata m1 (E a) = false).
  { intros m1 a Ht1 Ha Hra. destruct (Hr a Ha Hra) as [Hk _]. unfold E. destruct (voce_mappa_ok (b0 + (a - v) / PAGE_SIZE) flags ltac:(lia)) as (R & T & _).
    unfold contata, PMM_OLTRE_RAM. rewrite PG_ADDR_tab, T, Ht1 by done. rewrite u32_small by (unfold PAGE_SIZE, W32; lia).
    rewrite (proj2 (Z.leb_le _ _)) by (unfold PAGE_SIZE in *; lia). by rewrite andb_false_r. }
  destruct (tutte_spec D (fun m1 => spazi m1 D ext dma /\ stesso_totale m m1) d Hd v n Hf (fun a _ e => e = E a)) with
    (fai := dispositivo d v (b0 * PAGE_SIZE) flags) (disfa := paging_unmap_page d) (m := m) as (b & m' & Eb & [S _] & Hb'); try done.
  { intros a. apply stabile_voce. }
  { intros m1 a Ha Hra [S1 T1] V1. destruct (Hr a Ha Hra) as [Hk Ea]. unfold dispositivo.
    replace (u32 (b0 * PAGE_SIZE + (a - v))) with ((b0 + (a - v) / PAGE_SIZE) * PAGE_SIZE).
    2:{ rewrite u32_small; [|unfold PAGE_SIZE, W32 in *; lia]. set (q := (a - v) / PAGE_SIZE) in *. unfold PAGE_SIZE in *. lia. }
    destruct (mappa_fuori_spec D ext dma d Hd a Ha m1 S1 (b0 + (a - v) / PAGE_SIZE) flags V1) as (r & m2 & E2 & S2 & H2); [lia | rewrite T1; lia | done |].
    rewrite E2. cbn [mbind run_bind]. destruct H2 as [[-> F2]|(-> & F2 & V2)]; cbn [Z.eqb].
    - exists false, m2. split; [done|]. split; [split; [done|]|done]. pose proof (ti_totale _ _ _ _ F2) as T2. unfold stesso_totale in *. congruence.
    - exists true, m2. split; [done|]. split; [split; [done|]|done]. pose proof (ti_totale _ _ _ _ F2) as T2. unfold stesso_totale in *. congruence. }
  { intros m1 a Ha Hra [S1 T1] V1. destruct (smappa_spec D ext dma d Hd a Ha m1 S1) as (m2 & E2 & S2 & F2 & V2).
    { rewrite V1. by apply Hc. }
    exists m2. split; [done|]. split; [split; [done|]|done]. pose proof (ti_totale _ _ _ _ F2) as T2. unfold stesso_totale in *. congruence. }
  exists b, m'. split; [done|]. split; [done|]. destruct b; [|done]. destruct Hb' as [F V]. split; [done|]. intros k Hk. rewrite (V k Hk). unfold E.
  replace (pg v k - v) with (k * PAGE_SIZE) by lia. by rewrite Z.div_mul.
Qed.

Lemma sys_mmio_map_spec m D ext dma proc fisico byte :
  spazi m D ext dma -> page_directory proc ∈ D -> heap_ok m proc -> 0 <= fisico < W32 -> 0 <= byte < W32 ->
  let d := page_directory proc in
  exists r z proc' m', sys_mmio_map (Some (fisico, byte)) proc m = Ok (r, z, proc', m') /\ spazi m' D ext dma /\ heap_ok m' proc' /\ page_directory proc' = d /\
    (proc' = proc /\ z = None /\ ferme m D nessuno m' /\ (r = - EINVAL \/ r = - EPERM \/ r = - ENOMEM) \/
     r = 0 /\ e_un_driver proc = true /\ exists virt n, z = Some virt /\ ferme m D (fascia d (heap_end proc) 0 n) m' /\
       heap_end proc' = heap_end proc + n * PAGE_SIZE /\ heap_end proc <= virt /\ virt + byte <= heap_end proc' /\
       forall b, 0 <= b < byte -> paging_get_physical d (virt + b) m' = fisico + b /\ pg_totale (pag m) * PAGE_SIZE <= fisico + b).
Proof.
  intros SP Hd H Hf Hb d. pose proof (ho_ordine _ _ H) as O. unfold sys_mmio_map.
  assert (K : forall r, r = - EINVAL \/ r = - EPERM \/ r = - ENOMEM -> exists r' z proc' m', Ok (r, None, proc, m) = Ok (r', z, proc', m') /\ spazi m' D ext dma /\ heap_ok m' proc' /\ page_directory proc' = d /\
    (proc' = proc /\ z = None /\ ferme m D nessuno m' /\ (r' = - EINVAL \/ r' = - EPERM \/ r' = - ENOMEM) \/
     r' = 0 /\ e_un_driver proc = true /\ exists virt n, z = Some virt /\ ferme m D (fascia d (heap_end proc) 0 n) m' /\
       heap_end proc' = heap_end proc + n * PAGE_SIZE /\ heap_end proc <= virt /\ virt + byte <= heap_end proc' /\
       forall b, 0 <= b < byte -> paging_get_physical d (virt + b) m' = fisico + b /\ pg_totale (pag m) * PAGE_SIZE <= fisico + b)).
  { intros r Hr. exists r, None, proc, m. do 4 (split; [done|]). left. do 2 (split; [done|]). split; [apply ferme_refl | done]. }
  destruct (Z.eqb_spec byte 0) as [|Nz]; [apply K; auto|]. destruct (Z.ltb_spec MMIO_BYTE_MAX byte) as [|Hmax]; [apply K; auto|].
  destruct (e_un_driver proc) eqn:Edr; cbn [negb]; [|apply K; auto].
  change (u32 (Z.lnot (PAGE_SIZE - 1))) with 0xFFFFF000. rewrite land_pagina by done. set (base := fisico - fisico mod 4096).
  set (dentro := fisico - base). assert (Hde : 0 <= dentro < 4096 /\ base mod 4096 = 0 /\ 0 <= base) by (unfold dentro, base, W32 in *; zdm).
  unfold MMIO_BYTE_MAX in *. rewrite (u32_small (dentro + byte)) by (unfold W32; lia). change PAGE_SIZE with 4096 at 1. rewrite align_up_4096 by (unfold W32; lia).
  set (n := (dentro + byte + 4095) / 4096). assert (Hn : 0 < n /\ n * 4096 < dentro + byte + 4096 /\ dentro + byte <= n * 4096 /\ n < 4200) by (unfold n; zdm).
  pose proof (pg_max _ _ (sp_conti _ _ _ _ SP)) as Hmx. unfold PMM_PAGINE_4GB in Hmx. pose proof (sp_strutt_pos m D ext dma SP d (or_introl Hd)) as Hpos.
  rewrite (u32_small (pg_totale (pag m) * PAGE_SIZE)) by (unfold PAGE_SIZE, W32; lia).
  destruct (Z.ltb_spec base (pg_totale (pag m) * PAGE_SIZE)) as [|Hlim]; [apply K; auto|].
  destruct (Z.ltb_spec (u32 (base + n * 4096)) base) as [|Hfine]; [apply K; auto|].
  assert (Hov : base + n * 4096 < W32).
  { destruct (Z.lt_ge_cases (base + n * 4096) W32) as [|Hg]; [done|]. exfalso. unfold u32, W32, base in *. zdm. }
  rewrite (u32_small (base + n * 4096)) by lia. replace (base + n * 4096 - base) with (n * 4096) by lia. rewrite (u32_small (n * 4096)) by (unfold W32 in *; lia).
  replace (n * 4096 / PAGE_SIZE) with n by (unfold PAGE_SIZE; by rewrite Z.div_mul). rewrite (sopra_heap_spec m) by done.
  destruct ((heap_max proc - heap_end proc) / PAGE_SIZE <? n) eqn:El; [apply K; auto|]. clear K. destruct (heap_fascia m proc n H ltac:(lia) El) as [Hfa Hm].
  fold d. rewrite (fascia_fine _ _ Hfa). assert (Eb : base = base / 4096 * PAGE_SIZE) by (unfold PAGE_SIZE; zdm).
  destruct (finestra_spec m D ext dma d (heap_end proc) n (base / 4096) (Z.lor PG_PRESENT (Z.lor PG_USER (Z.lor PG_WRITABLE (Z.lor PG_FISSA (Z.lor PG_CACHE_DIS PG_WRITE_THRU))))) SP Hd Hfa)
    as (b & m' & E & S & Hb'); [intros k Hk; by apply (heap_vuote m proc n) | zdm | unfold PAGE_SIZE in *; zdm | unfold W32 in *; zdm | done |].
  rewrite <- Eb in E. rewrite E. cbn [mbind run_bind]. destruct b.
  2:{ exists (- ENOMEM), None, proc, m'. split; [done|]. split; [done|]. split; [by apply (heap_ok_fermo m D)|]. split; [done|]. left. do 2 (split; [done|]). split; [done | auto]. }
  destruct Hb' as [F V]. eexists 0, _, _, m'. split; [reflexivity|]. split; [done|]. split.
  { destruct (heap_ok_alza m D m' proc (heap_end proc) n H Hd Hfa Hm F) as [Hh _]. unfold alza in Hh.
    rewrite (proj2 (Z.ltb_lt _ _)) in Hh by (unfold PAGE_SIZE; lia). exact Hh. }
  split; [done|]. right. split; [done|]. split; [done|]. rewrite u32_small by (unfold USER_SPACE_BASE, USER_SPACE_END, W32 in *; lia).
  exists (heap_end proc + dentro), n. split; [done|]. split; [done|]. split; [done|]. split; [lia|]. cbn [con_heap_end heap_end].
  split; [unfold PAGE_SIZE; lia|]. intros q Hq. split; [|unfold dentro, PAGE_SIZE in *; lia].
  set (k := (dentro + q) / 4096). set (o := (dentro + q) mod 4096). assert (Hk : 0 <= k < n /\ 0 <= o < 4096 /\ dentro + q = k * 4096 + o) by (unfold k, o; zdm).
  assert (Hpk : pagina_ok (pg (heap_end proc) k)) by (apply (pagina_fascia _ n); [done | lia]).
  replace (heap_end proc + dentro + q) with (pg (heap_end proc) k + o) by (unfold PAGE_SIZE; lia).
  destruct (qui D d Hd _ Hpk) as [Hu Ea]. rewrite <- Ea at 1. rewrite (get_physical_voce m' D ext dma d _ _ o S Hu) by lia.
  fold (voce_a m' d (pg (heap_end proc) k)). rewrite V by lia.
  destruct (voce_mappa_ok (base / 4096 + k) (Z.lor PG_PRESENT (Z.lor PG_USER (Z.lor PG_WRITABLE (Z.lor PG_FISSA (Z.lor PG_CACHE_DIS PG_WRITE_THRU)))))) as (_ & T & B);
    [unfold W32 in *; zdm|]. rewrite ha_P, B, T by lia. rewrite orb_true_r. unfold dentro, PAGE_SIZE in *. lia.
Qed.

(** ** Any sequence of calls *)

(** A thread [io] of the group of [capo]. *)
Definition stesso_gruppo (io capo : Proc) : Prop :=
  page_directory io = page_directory capo /\ heap_start io = heap_start capo /\ heap_max io = heap_max capo.

Lemma heap_ok_campi m p q : heap_ok m p -> page_directory q = page_directory p -> heap_start q = heap_start p -> heap_max q = heap_max p ->
  heap_end q = heap_end p -> heap_ok m q.
Proof. intros [H1 H2 H3] E1 E2 E3 E4. split; rewrite ?E1, ?E2, ?E3, ?E4; done. Qed.

(** What the wrapper lets the call see, and gives back. *)
Lemma con_lo_spazio_heap m D io capo (fai : Proc -> Mondo P -> run (Z * Proc * Mondo P)) r io' capo' m' :
  stesso_gruppo io capo -> con_lo_spazio fai io capo m = Ok (r, io', capo', m') -> heap_ok m capo ->
  (forall r io1 m1, heap_ok m (con_heap_end (heap_end capo) io) -> fai (con_heap_end (heap_end capo) io) m = Ok (r, io1, m1) ->
     heap_ok m1 io1 /\ page_directory io1 = page_directory io /\ heap_start io1 = heap_start io /\ heap_max io1 = heap_max io) ->
  heap_ok m' capo' /\ page_directory capo' = page_directory capo.
Proof.
  intros (E1 & E2 & E3) E H K. unfold con_lo_spazio in E. destruct (fai _ m) as [[[r1 io1] m1]| |] eqn:Ef; cbn [mbind run_bind] in E; try done.
  injection E as <- <- <- <-. destruct (K r1 io1 m1) as (H1 & Q1 & Q2 & Q3); [by apply (heap_ok_campi m capo) | done |]. split; [|done].
  apply (heap_ok_campi m1 io1); cbn [con_heap_end page_directory heap_start heap_max heap_end]; congruence.
Qed.

(** The segments of the executable lie under the heap. *)
Definition segmenti_sotto (p : Proc) : Prop := forall v, v ∈ vma (immagine_di p) -> vend v <= heap_start p.

Lemma nel_file_sotto p a : segmenti_sotto p -> heap_start p <= a -> nel_file p a = false.
Proof.
  intros Hs Ha. unfold nel_file. destruct (cerca_vma a (vma (immagine_di p))) as [v|] eqn:E; [|apply andb_false_r].
  destruct (cerca_vma_in _ _ _ E) as [Hv Hr]. specialize (Hs v Hv). lia.
Qed.

(** A call of a thread of the program of [capo], or a step that is not a call for its
    directory: of another program, of the kernel, or of the program on its own pages.
    The pages that mmap with MAP_FIXED, munmap and sbrk take out, if they are there, are
    ordinary ones; munmap does not run past the space of programs, which the code does
    not check; mprotect does not meet buffers of devices. *)
Inductive mossa (dma : Z -> Prop) : Stato * Proc -> Stato * Proc -> Prop :=
  | mo_mmap m D ext io capo p r io' capo' m' : stesso_gruppo io capo -> 0 <= mp_addr p < W32 -> 0 <= mp_length p < W32 ->
      (ha (mp_flags p) MAP_FIXED = true -> fascia_ok (Z.land (mp_addr p) 0xFFFFF000) (pagine_di (mp_length p)) ->
       forall k, 0 <= k < pagine_di (mp_length p) -> ordinaria m (voce_a m (page_directory io) (pg (Z.land (mp_addr p) 0xFFFFF000) k))) ->
      con_lo_spazio (sys_mmap (Some p)) io capo m = Ok (r, io', capo', m') -> mossa dma (mkStato m D ext, capo) (mkStato m' D ext, capo')
  | mo_munmap m D ext io capo a1 length r io' capo' m' : stesso_gruppo io capo -> 0 <= a1 < W32 -> 0 <= length < W32 ->
      (USER_SPACE_BASE <= Z.land a1 0xFFFFF000 < USER_SPACE_END -> length <> 0 -> fascia_ok (Z.land a1 0xFFFFF000) (pagine_di length) /\
       forall k, 0 <= k < pagine_di length -> ordinaria m (voce_a m (page_directory io) (pg (Z.land a1 0xFFFFF000) k))) ->
      con_lo_spazio (sys_munmap a1 length) io capo m = Ok (r, io', capo', m') -> mossa dma (mkStato m D ext, capo) (mkStato m' D ext, capo')
  | mo_sbrk m D ext io capo a1 r io' capo' m' : stesso_gruppo io capo -> 0 <= a1 < W32 ->
      (forall a, pagina_ok a -> heap_end capo - - s32 a1 / 4096 * PAGE_SIZE <= a < heap_end capo -> heap_start io <= a ->
       ordinaria m (voce_a m (page_directory io) a)) ->
      con_lo_spazio (sys_sbrk a1) io capo m = Ok (r, io', capo', m') -> mossa dma (mkStato m D ext, capo) (mkStato m' D ext, capo')
  | mo_mprotect m D ext io capo addr len prot r m' : stesso_gruppo io capo -> segmenti_ok io -> segmenti_sotto io -> pochi D ext ->
      0 <= addr < W32 -> 0 <= len < W32 ->
      (fascia_ok addr (pagine_di len) -> forall k, 0 <= k < pagine_di len -> fissa m (voce_a m (page_directory io) (pg addr k)) = false) ->
      sys_mprotect addr len prot (Some io) m = Ok (r, m') -> mossa dma (mkStato m D ext, capo) (mkStato m' D ext, capo)
  | mo_mmio m D ext capo fisico byte r z capo' m' : 0 <= fisico < W32 -> 0 <= byte < W32 ->
      sys_mmio_map (Some (fisico, byte)) capo m = Ok (r, z, capo', m') -> mossa dma (mkStato m D ext, capo) (mkStato m' D ext, capo')
  | mo_altri a s s' capo : passo dma a s s' -> a <> Per (page_directory capo) -> mossa dma (s, capo) (s', capo).

Definition retta (dma : Z -> Prop) (x : Stato * Proc) : Prop :=
  bene dma (fst x) /\ heap_ok (st_m (fst x)) (snd x) /\ page_directory (snd x) ∈ st_D (fst x).

Lemma sys_mmap_campi arg p m r p' m' : sys_mmap arg p m = Ok (r, p', m') -> exists e, p' = con_heap_end e p.
Proof.
  assert (K : exists e, p = con_heap_end e p) by (exists (heap_end p); by rewrite con_heap_end_id).
  unfold sys_mmap. destruct arg as [q|]; [|by intros [= <- <- <-]]. destruct (_ =? 0); [by intros [= <- <- <-]|].
  destruct (dove q _ p) as [v|e]; [|by intros [= <- <- <-]]. destruct (if ha _ _ then _ else _) as [m1| |]; cbn [mbind run_bind]; try done.
  destruct (pagine_mmap q _ _ v m1) as [[b m2]| |]; cbn [mbind run_bind]; try done. destruct b; intros [= <- <- <-]; [|done].
  unfold alza. destruct (_ <? _); [by eexists | done].
Qed.

Lemma sys_sbrk_campi a1 p m r p' m' : sys_sbrk a1 p m = Ok (r, p', m') -> heap_start p' = heap_start p /\ heap_max p' = heap_max p.
Proof.
  unfold sys_sbrk. destruct (_ || _); [by intros [= <- <- <-]|]. destruct (_ =? 0); [by intros [= <- <- <-]|]. destruct (0 <? _).
  - destruct (_ || _); [by intros [= <- <- <-]|]. destruct (tutte _ _ _ _ m) as [[b m1]| |]; cbn [mbind run_bind]; try done.
    destruct b; by intros [= <- <- <-].
  - destruct (_ =? 0); [by intros [= <- <- <-]|]. destruct (_ <? _); [by intros [= <- <- <-]|].
    destruct (per_pagine _ _ _ _ m) as [m1| |]; cbn [mbind run_bind]; try done. by intros [= <- <- <-].
Qed.

Lemma con_lo_spazio_ok fai io capo m r io' capo' m' : con_lo_spazio fai io capo m = Ok (r, io', capo', m') ->
  fai (con_heap_end (heap_end capo) io) m = Ok (r, io', m').
Proof. unfold con_lo_spazio. destruct (fai _ m) as [[[? ?] ?]| |]; cbn [mbind run_bind]; [|done..]. by intros [= <- <- <- <-]. Qed.

Lemma mossa_retta dma x y : mossa dma x y -> retta dma x -> retta dma y.
Proof.
  intros M (B & H & Hd). unfold retta, bene in *. destruct M as
    [m D ext io capo p r io' capo' m' G Ha Hl Ho E|m D ext io capo a1 len r io' capo' m' G Ha Hl Ho E|m D ext io capo a1 r io' capo' m' G Ha Ho E
    |m D ext io capo addr len prot r m' G Hs Hso Hna Ha Hl Hfx E|m D ext capo fisico byte r z capo' m' Hfi Hby E|a s s' capo Hp Na]; cbn [fst snd st_m st_D st_ext] in *.
  - pose proof G as (Ed & _). rewrite <- Ed in Hd. pose proof (con_lo_spazio_ok _ _ _ _ _ _ _ _ E) as E1.
    assert (K : heap_ok m (con_heap_end (heap_end capo) io) -> spazi m' D ext dma /\ heap_ok m' io' /\ page_directory io' = page_directory io).
    { intros H1. destruct (sys_mmap_spec m D ext dma (con_heap_end (heap_end capo) io) p B Hd H1 Ha Hl Ho) as (r1 & p1 & m1 & E2 & S & H2 & Q & _).
      rewrite E1 in E2. injection E2 as <- <- <-. done. }
    destruct (con_lo_spazio_heap m D io capo _ r io' capo' m' G E H) as [H1 Q].
    { intros r1 io1 m1 H1 E2. rewrite E1 in E2. injection E2 as <- <- <-. destruct (K H1) as (_ & K2 & K3). split; [done|]. split; [done|].
      destruct (sys_mmap_campi _ _ _ _ _ _ E1) as [e ->]. done. }
    destruct G as (_ & E2 & E3). split; [apply K; by apply (heap_ok_campi m capo)|]. split; [done|]. by rewrite Q, <- Ed.
  - pose proof G as (Ed & _). rewrite <- Ed in Hd. pose proof (con_lo_spazio_ok _ _ _ _ _ _ _ _ E) as E1.
    assert (K : heap_ok m (con_heap_end (heap_end capo) io) -> spazi m' D ext dma /\ heap_ok m' io' /\
      page_directory io' = page_directory io /\ heap_start io' = heap_start io /\ heap_max io' = heap_max io).
    { intros H1. destruct (decide (USER_SPACE_BASE <= Z.land a1 0xFFFFF000 < USER_SPACE_END /\ len <> 0)) as [[Hv Hn]|N].
      - destruct (Ho Hv Hn) as [Hf Ho']. destruct (sys_munmap_spec m D ext dma (con_heap_end (heap_end capo) io) a1 len B Hd H1 Ha ltac:(lia) Hf ltac:(lia) Ho') as (m1 & E2 & S & H2 & _).
        rewrite E1 in E2. injection E2 as -> -> ->. done.
      - rewrite (sys_munmap_errore m _ a1 len N) in E1. injection E1 as <- <- <-. done. }
    destruct (con_lo_spazio_heap m D io capo _ r io' capo' m' G E H) as [H1 Q].
    { intros r1 io1 m1 H1 E2. rewrite E1 in E2. injection E2 as <- <- <-. by apply K. }
    destruct G as (_ & E2 & E3). split; [apply K; by apply (heap_ok_campi m capo)|]. split; [done|]. by rewrite Q, <- Ed.
  - pose proof G as (Ed & _). rewrite <- Ed in Hd. pose proof (con_lo_spazio_ok _ _ _ _ _ _ _ _ E) as E1.
    assert (K : heap_ok m (con_heap_end (heap_end capo) io) -> spazi m' D ext dma /\ heap_ok m' io' /\ page_directory io' = page_directory io).
    { intros H1. destruct (sys_sbrk_spec m D ext dma (con_heap_end (heap_end capo) io) a1 B Hd H1 Ha Ho) as (r1 & p1 & m1 & E2 & S & H2 & Q & _).
      rewrite E1 in E2. injection E2 as <- <- <-. done. }
    destruct (con_lo_spazio_heap m D io capo _ r io' capo' m' G E H) as [H1 Q].
    { intros r1 io1 m1 H1 E2. rewrite E1 in E2. injection E2 as <- <- <-. destruct (K H1) as (_ & K2 & K3). split; [done|]. split; [done|].
      apply (sys_sbrk_campi _ _ _ _ _ _ E1). }
    destruct G as (_ & E2 & E3). split; [apply K; by apply (heap_ok_campi m capo)|]. split; [done|]. by rewrite Q, <- Ed.
  - destruct G as (Ed & Es & _). rewrite <- Ed in Hd. destruct (sys_mprotect_spec m D ext dma io addr len prot B Hd Hs Hna Ha Hl Hfx) as (r1 & m1 & E1 & S & F & Hm & _ & _ & Hr).
    rewrite E in E1. injection E1 as <- <-. split; [done|]. split; [|by rewrite <- Ed]. destruct Hm as [-> | Hf]; [done|]. rewrite <- (con_heap_end_id capo). pose proof (ho_ordine _ _ H).
    rewrite Ed in *. apply (heap_ok_cambia _ _ _ _ _ _ H Hd F); [apply H | lia |]. intros a Hpa Hra.
    destruct (decide (addr <= a < addr + pagine_di len * PAGE_SIZE)) as [Hin|Hout]; [|right; split; [lia|]; intros Hx; by apply (fascia_range _ _ _ _ Hf Hpa) in Hx].
    left. destruct (fascia_qui _ _ a Hf Hpa Hin) as (k & Hk & ->). pose proof (ho_vuoto _ _ H _ (proj1 Hpa) Hra) as V0.
    pose proof (nel_file_sotto io (pg addr k) Hso ltac:(lia)) as Nf. destruct Hr as [(_ & Hr & _)|[(_ & ->)|(_ & Hr)]]; [|done|].
    + specialize (Hr k Hk). rewrite V0, Nf in Hr. discriminate Hr.
    + destruct (Hr k Hk (or_intror Nf)) as [-> _]. exact V0.
  - destruct (sys_mmio_map_spec m D ext dma capo fisico byte B Hd H Hfi Hby) as (r1 & z1 & p1 & m1 & E1 & S & H1 & Q & _). rewrite E in E1. injection E1 as <- <- <- <-.
    split; [done|]. split; [done|]. by rewrite Q.
  - destruct (passo_bene dma a s s' B Hp) as [B1 V]. destruct (V _ Hd Na) as [Hd1 W]. split; [done|]. split; [|done]. destruct H as [H1 H2 H3]. split; [done | done |].
    intros b Hb Hr. specialize (H3 b Hb Hr). assert (Hpb : pagina_ok b) by (split; [done | lia]). destruct (posto_in _ _ b Hd Hpb) as (_ & Hi & Hj).
    unfold voce_a in *. by apply (W _ _ Hi Hj).
Qed.

(** ** Frames used before and after *)

(** Entries that are the same: only page tables can be new. *)
Lemma ferme_usi m D ext dma m' f : spazi m D ext dma -> spazi m' D ext dma -> ferme m D nessuno m' ->
  usi m' D f = usi m D f \/
  usi m D f = 0 /\ usi m' D f = 1 /\ exists d i, d ∈ D /\ utente i = true /\ presente m d i = false /\ presente m' d i = true /\ tab (fis m' d i) = f.
Proof.
  intros SP SP' F. assert (Ht : stesso_totale m m') by apply F.
  assert (U : forall s, in_usi D s -> uso m' f s = uso m f s \/
    exists d i, s = UTab d i /\ presente m d i = false /\ presente m' d i = true /\ tab (fis m' d i) = f).
  { intros [d|d i|d i j] Hs; [by left | |left].
    - destruct Hs as [Hd Hi]. destruct (presente m d i) eqn:Ep.
      + left. destruct (ti_pres _ _ _ _ F d i Hd Hi Ep) as [Ep' Et]. cbn [uso]. by rewrite Ep, Ep', Et.
      + destruct (presente m' d i) eqn:Ep'; [|left; cbn [uso]; by rewrite Ep, Ep']. destruct (Z.eqb_spec (tab (fis m' d i)) f) as [Et|Et]; [right; eauto 6|].
        left. cbn [uso]. by rewrite Ep, Ep', (proj2 (Z.eqb_neq _ _) Et).
    - cbn [uso]. by rewrite (fe_voce _ _ _ _ F d i j Hs), (contata_totale m m' _ Ht) by (by intros []). }
  destruct (decide (Exists (fun s => uso m' f s <> uso m f s) (elenco_usi D))) as [N|N].
  - right. apply Exists_exists in N as (s & Hs%elem_usi & Ns). destruct (U s Hs) as [?|(d & i & -> & Ep & Ep' & Et)]; [done|]. destruct Hs as [Hd Hi].
    assert (U1 : usi m' D f = 1) by (apply (sp_strutt _ _ _ _ SP'); right; eauto 6). split; [|split; [done | exists d, i; done]].
    destruct (Z.eq_dec (usi m D f) 0) as [|Nz]; [done|]. exfalso. destruct (usi_pos m D f) as (s' & Hs' & E'); [pose proof (usi_nonneg m D f); lia|].
    assert (E1 : uso m' f s' = 1).
    { destruct (U s' Hs') as [-> | (d' & i' & -> & Q & _)]; [done|]. apply uso_tab in E' as [E' _]. congruence. }
    rewrite (usi_uno m' D f s' (UTab d i) (sp_nodup _ _ _ _ SP)) in E'; [apply uso_tab in E' as [E' _]; congruence | lia | done | done | done | by apply uso_tab].
  - left. apply usi_ext. intros s Hs. destruct (decide (uso m' f s = uso m f s)) as [|Ne]; [done|]. exfalso. apply N, Exists_exists. exists s. split; [by apply elem_usi | done].
Qed.

(** ** The claims *)

(** C9: mmap of a length up to 0xFFFFF000 (a longer one wraps to no page) always returns.
    With MAP_FIXED the pages that are already in the range must be ordinary: RAM with an
    owner, not buffers nor registers of a device, which the code gives to [pmm_free_page]
    like the others.  The range has the length rounded up to pages.  On success every page
    of it is as asked (reserved without rights, given at once and zeroed for MAP_SHARED,
    promised otherwise), no entry outside the range changed in any space, and the border
    is the higher of the old one and the end of the range.  On -ENOMEM the border stays
    and every page that had been put in is out again: without MAP_FIXED no entry changed
    anywhere.  -EINVAL (no length, or a fixed address out of place) changes nothing.  The
    counts of owners agree with the tables in all these cases. *)
Theorem sys_mmap_correct m D ext dma proc p :
  spazi m D ext dma -> page_directory proc ∈ D -> heap_ok m proc -> 0 <= mp_addr p < W32 -> 0 <= mp_length p <= 0xFFFFF000 ->
  let d := page_directory proc in
  let pages := (mp_length p + 4095) / 4096 in
  let fisso := Z.land (mp_addr p) 0xFFFFF000 in
  (ha (mp_flags p) MAP_FIXED = true -> fascia_ok fisso pages -> forall k, 0 <= k < pages -> ordinaria m (voce_a m d (pg fisso k))) ->
  exists r proc' m', sys_mmap (Some p) proc m = Ok (r, proc', m') /\ spazi m' D ext dma /\ heap_ok m' proc' /\
    (proc' = proc /\ (r = - EINVAL /\ m' = m /\ (mp_length p = 0 \/ ha (mp_flags p) MAP_FIXED = true) \/ r = - ENOMEM /\ ferme m D (if ha (mp_flags p) MAP_FIXED then fascia d fisso 0 pages else nessuno) m') \/
     exists v, r = s32 v /\ v = (if ha (mp_flags p) MAP_FIXED then fisso else heap_end proc) /\ 0 < pages /\ fascia_ok v pages /\
       ferme m D (fascia d v 0 pages) m' /\ (forall k, 0 <= k < pages -> mappata p m' (voce_a m' d (pg v k))) /\
       heap_end proc' = Z.max (heap_end proc) (v + pages * PAGE_SIZE)).
Proof.
  intros SP Hd H Ha Hl d pages fisso Ho. assert (Ep : pagine_di (mp_length p) = pages) by (by apply pagine_di_spec).
  destruct (sys_mmap_spec m D ext dma proc p SP Hd H Ha ltac:(unfold W32; lia)) as (r & p' & m' & E & S & H' & _ & K); rewrite Ep in *; [exact Ho|].
  exists r, p', m'. do 3 (split; [done|]). destruct K as [K|(v & K)]; [by left|]. destruct (Z.eq_dec (mp_length p) 0) as [E0|N0].
  - left. unfold sys_mmap in E. rewrite (proj2 (Z.eqb_eq _ 0) E0) in E. injection E as <- <- <-. split; [done|]. left. auto.
  - right. exists v. assert (0 < pages) by (unfold pages; zdm). destruct K as (K1 & K2 & K3). done.
Qed.

(** C12: munmap of a range of the program (the length rounded up to pages, on 32 bits:
    more than 0xFFFFF000 is none) without buffers nor registers of devices returns 0: the pages
    are out, each frame has lost the owner that the entry was, no other entry of any
    space changed, and the border comes down to the range if the range was at the top
    of the heap, and stays otherwise. *)
Theorem sys_munmap_correct m D ext dma proc a1 length :
  spazi m D ext dma -> page_directory proc ∈ D -> heap_ok m proc -> 0 <= a1 < W32 -> 0 < length < W32 ->
  let d := page_directory proc in
  let v := Z.land a1 0xFFFFF000 in
  let pages := pagine_di length in
  fascia_ok v pages -> v < USER_SPACE_END -> (forall k, 0 <= k < pages -> ordinaria m (voce_a m d (pg v k))) ->
  exists m', let proc' := con_heap_end (abbassa v (v + pages * PAGE_SIZE) proc) proc in
    sys_munmap a1 length proc m = Ok (0, proc', m') /\ spazi m' D ext dma /\ heap_ok m' proc' /\
    ferme m D (fascia d v 0 pages) m' /\ forall k, 0 <= k < pages -> voce_a m' d (pg v k) = 0.
Proof. apply sys_munmap_spec. Qed.

(** C14: sbrk gives the old border, and moves it: up by the bytes asked for, rounded up to
    pages, which are promised writable; down by the bytes, rounded down, so that no
    page with bytes under the new border is lost.  With no memory, or asked to go under
    the start of the heap, it changes nothing.  The pages that a shrinking heap gives up
    must be ordinary ones (RAM with an owner, promised or absent): a buffer or a window
    of a device that lies among them would be given to [pmm_free_page] all the same. *)
Theorem sys_sbrk_correct m D ext dma proc a1 :
  spazi m D ext dma -> page_directory proc ∈ D -> heap_ok m proc -> 0 <= a1 < W32 ->
  let d := page_directory proc in
  let su := (s32 a1 + 4095) / 4096 in
  let giu := - s32 a1 / 4096 in
  (forall a, pagina_ok a -> heap_end proc - giu * PAGE_SIZE <= a < heap_end proc -> heap_start proc <= a -> ordinaria m (voce_a m d a)) ->
  exists r proc' m', sys_sbrk a1 proc m = Ok (r, proc', m') /\ spazi m' D ext dma /\ heap_ok m' proc' /\
    (proc' = proc /\ ferme m D nessuno m' /\ (0 < s32 a1 /\ r = - ENOMEM \/ s32 a1 < 0 /\ r = - EINVAL /\ heap_end proc - heap_start proc < giu * PAGE_SIZE) \/
     r = s32 (heap_end proc) /\
       if 0 <=? s32 a1
       then heap_end proc' = heap_end proc + su * PAGE_SIZE /\ ferme m D (fascia d (heap_end proc) 0 su) m' /\
            forall k, 0 <= k < su -> voce_a m' d (pg (heap_end proc) k) = voce_promessa 7
       else heap_end proc' = heap_end proc - giu * PAGE_SIZE /\ ferme m D (fascia d (heap_end proc') 0 giu) m' /\
            forall k, 0 <= k < giu -> voce_a m' d (pg (heap_end proc') k) = 0).
Proof.
  intros SP Hd H Ha d su giu Ho. destruct (sys_sbrk_spec m D ext dma proc a1 SP Hd H Ha Ho) as (r & p' & m' & E & S & H' & _ & K).
  exists r, p', m'. done.
Qed.

(** The page with its new rights: the one that was there, or the one that the executable
    has for that address. *)
Definition rimessa_dal_file (file : Z -> Z) (proc : Proc) (prot a : Z) m (e : Z) m' (e' : Z) : Prop :=
  if utile e then protetta prot m e m' e' else exists m1 e1, dal_file file proc a m1 e1 /\ protetta prot m1 e1 m' e'.

(** C11: mprotect, of a range without buffers of devices, by a program whose
    executable is as for [pf_carica_da_file] (segments of 32 bits not marked as buffers nor
    to be copied, reads that give the bytes of the file), on a machine where the owners of
    a frame are fewer than 2^32.  A length up to 0xFFFFF000 is rounded up to pages.  After 0 every page
    of the range has the rights asked for: one that is there keeps its frame and its
    words, and becomes writable only if it is shared on purpose or has no other owner, to
    be copied otherwise; a promised or reserved one stays without a frame; one that was
    still in the executable is brought in first, with the bytes of the file.  On an error the pages that were there
    are as they were.  When all are there, and the arguments are right, the result is 0.
    No entry outside the range changes, and the invariant holds in every case.  A longer
    length wraps to no page: mprotect answers 0 if the rest is right and changes
    nothing at all. *)
Theorem sys_mprotect_correct (file : Z -> Z) m D ext dma proc addr len prot :
  spazi m D ext dma -> page_directory proc ∈ D -> segmenti_ok proc -> segmenti_file proc -> legge_il_file (exe_handle (immagine_di proc)) file -> pochi D ext ->
  0 <= addr < W32 -> 0 <= len < W32 ->
  let d := page_directory proc in
  let pages := (len + 4095) / 4096 in
  (fascia_ok addr pages -> forall k, 0 <= k < pages -> fissa m (voce_a m d (pg addr k)) = false) ->
  exists r m', sys_mprotect addr len prot (Some proc) m = Ok (r, m') /\
    if len <=? 0xFFFFF000
    then spazi m' D ext dma /\ ferme m D (fascia d addr 0 pages) m' /\
      (fascia_ok addr pages -> addr < USER_SPACE_END -> ha prot (u32 (Z.lnot PROT_TUTTI)) = false ->
         (forall k, 0 <= k < pages -> utile (voce_a m d (pg addr k)) = true) -> r = 0) /\
      (r = 0 /\ (forall k, 0 <= k < pages -> rimessa_dal_file file proc prot (pg addr k) m (voce_a m d (pg addr k)) m' (voce_a m' d (pg addr k))) \/
       r = - EINVAL /\ m' = m \/
       r = - ENOMEM /\ forall k, 0 <= k < pages -> utile (voce_a m d (pg addr k)) = true ->
         voce_a m' d (pg addr k) = voce_a m d (pg addr k) /\ stessa_vista m (voce_a m d (pg addr k)) m' (voce_a m d (pg addr k)))
    else m' = m /\ (r = 0 <-> addr mod 4096 = 0 /\ ha prot (u32 (Z.lnot PROT_TUTTI)) = false /\ USER_SPACE_BASE <= addr < USER_SPACE_END).
Proof.
  intros SP Hd Hs Hsf Hlf Hna Ha Hl d pages Hfx. destruct (Z.leb_spec len 0xFFFFF000) as [Hle|Hgt].
  - assert (Ep : pagine_di len = pages) by (apply pagine_di_spec; lia). destruct (sys_mprotect_spec m D ext dma proc addr len prot SP Hd Hs Hna Ha Hl) as (r & m' & E & S & F & _ & H0 & H1 & H2);
      rewrite Ep in *; [exact Hfx|]. exists r, m'. split; [done|]. split; [done|]. split; [done|]. split; [done|].
    destruct H2 as [(-> & _ & H)|[H|(-> & H)]]; [left | right; by left | right; right; split; [done|]; auto].
    split; [done|]. intros k Hk. destruct (H0 eq_refl) as [? | Hf]; [lia|]. specialize (H k Hk). unfold rimessa, rimessa_dal_file in *. destruct (utile _); [done|].
    destruct H as (m1 & e1 & Hc & Hp). exists m1, e1. split; [|done]. apply caricata_dal_file; try done. by apply (pagina_fascia addr pages).
  - destruct (sys_mprotect_avvolta m D ext dma proc addr len prot SP Hd Ha ltac:(lia)) as (r & E & Hr). exists r, m. done.
Qed.

(** C16: mmio_map gives a driver of root a window that shows the registers byte by byte,
    none of which is RAM, and nothing else of the memory changes for anybody; anybody
    else, and a request that is not possible, gets an error and no entry changed. *)
Theorem sys_mmio_map_correct m D ext dma proc fisico byte :
  spazi m D ext dma -> page_directory proc ∈ D -> heap_ok m proc -> 0 <= fisico < W32 -> 0 <= byte < W32 ->
  let d := page_directory proc in
  exists r z proc' m', sys_mmio_map (Some (fisico, byte)) proc m = Ok (r, z, proc', m') /\ spazi m' D ext dma /\ heap_ok m' proc' /\ page_directory proc' = d /\
    (proc' = proc /\ z = None /\ ferme m D nessuno m' /\ (r = - EINVAL \/ r = - EPERM \/ r = - ENOMEM) \/
     r = 0 /\ e_un_driver proc = true /\ exists virt n, z = Some virt /\ ferme m D (fascia d (heap_end proc) 0 n) m' /\
       heap_end proc' = heap_end proc + n * PAGE_SIZE /\ heap_end proc <= virt /\ virt + byte <= heap_end proc' /\
       forall b, 0 <= b < byte -> paging_get_physical d (virt + b) m' = fisico + b /\ pg_totale (pag m) * PAGE_SIZE <= fisico + b).
Proof. apply sys_mmio_map_spec. Qed.

(** C13: what mmap gave, munmap takes back: after a mapping above the heap and the
    unmapping of the same length, the border is where it was and every entry of every
    space is as it was.  Every frame has the owners that it had, but for frames that the
    spaces did not use and that have become page tables, one owner each: unmapping does
    not give back the tables that mapping had to make. *)
Theorem mmap_munmap_roundtrip m D ext dma proc p r proc1 m1 :
  spazi m D ext dma -> page_directory proc ∈ D -> heap_ok m proc -> 0 <= mp_addr p < W32 -> 0 < mp_length p <= 0xFFFFF000 ->
  ha (mp_flags p) MAP_FIXED = false -> sys_mmap (Some p) proc m = Ok (r, proc1, m1) -> r <> - ENOMEM ->
  exists m2, sys_munmap (heap_end proc) (mp_length p) proc1 m1 = Ok (0, proc, m2) /\ spazi m2 D ext dma /\ heap_ok m2 proc /\ ferme m D nessuno m2 /\
    pg_stato (pag m2) (fun f => ext f + usi m2 D f) /\
    forall f, usi m2 D f = usi m D f \/
      usi m D f = 0 /\ usi m2 D f = 1 /\
      exists d i, d ∈ D /\ utente i = true /\ presente m d i = false /\ presente m2 d i = true /\ tab (fis m2 d i) = f.
Proof.
  intros SP Hd H Ha Hl Efx E Hr. destruct (sys_mmap_spec m D ext dma proc p SP Hd H Ha ltac:(unfold W32; lia)) as (r1 & p1 & m1' & E1 & S1 & H1 & Q1 & K); [by rewrite Efx|].
  rewrite E in E1. injection E1 as <- <- <-. rewrite Efx in K. destruct K as [(_ & [(_ & _ & [?|?])|[? _]])|(v & -> & Ev & Hf & F1 & V1 & Eh)]; [lia | done | done |].
  destruct (sys_mmap_campi _ _ _ _ _ _ E) as [e1 Ep1]. pose proof (ho_ordine _ _ H) as O. pose proof (ho_pagina _ _ H) as Hp.
  assert (Hn : 0 <= pagine_di (mp_length p)) by apply Hf. rewrite Z.max_r in Eh by (unfold PAGE_SIZE; lia).
  assert (El : Z.land (heap_end proc) 0xFFFFF000 = v) by (rewrite land_pagina by (unfold USER_SPACE_BASE, USER_SPACE_END, W32 in *; lia); lia).
  assert (Hd1 : page_directory proc1 ∈ D) by (by rewrite Q1).
  assert (Hv : v < USER_SPACE_END).
  { rewrite pagine_di_spec in Hf by lia. assert (1 <= (mp_length p + 4095) / 4096) by zdm. unfold fascia_ok, PAGE_SIZE in Hf. lia. }
  destruct (sys_munmap_spec m1 D ext dma proc1 (heap_end proc) (mp_length p) S1 Hd1 H1) as (m2 & E2 & S2 & H2 & F2 & V2); rewrite ?El; try done.
  { unfold USER_SPACE_BASE, USER_SPACE_END, W32 in *; lia. } { unfold W32; lia. } { intros k Hk. rewrite Q1. by apply (mappata_ordinaria p), V1. }
  rewrite El in *. rewrite Q1 in *.
  assert (Ea : con_heap_end (abbassa v (v + pagine_di (mp_length p) * PAGE_SIZE) proc1) proc1 = proc).
  { unfold abbassa. rewrite Eh, Ev, Z.eqb_refl, Ep1. cbn [con_heap_end heap_start andb]. rewrite (proj2 (Z.leb_le _ _)) by lia. by destruct proc. }
  rewrite Ea in *. exists m2. split; [done|]. split; [done|]. split; [done|].
  assert (F : ferme m D nessuno m2); [|split; [done|]; split; [apply S2|]; intros f; by apply (ferme_usi m D ext dma)].
  apply (ferme_vuota D (page_directory proc) v m m2 (pagine_di (mp_length p))); [apply (ferme_trans _ _ _ _ _ _ _ F1 F2); tauto|].
  intros k Hk. split; [|by apply V2]. rewrite Ev. apply (heap_vuote m proc (pagine_di (mp_length p))); [done | by rewrite <- Ev | | done].
  pose proof (ho_ordine _ _ H1). rewrite Ep1 in *. cbn [con_heap_end heap_max heap_end] in *. lia.
Qed.

(** C17: a length of the last page under 4 GB wraps to zero pages: mmap answers with an
    address, as for a mapping that succeeded, and nothing is mapped, promised or
    reserved; the border does not move, and the next mapping gets the same address. *)
Theorem sys_mmap_length_wraps m proc p :
  heap_ok m proc -> 0xFFFFF000 < mp_length p < W32 -> ha (mp_flags p) MAP_FIXED = false ->
  sys_mmap (Some p) proc m = Ok (s32 (heap_end proc), proc, m).
Proof.
  intros H Hl Efx. pose proof (ho_ordine _ _ H) as O. unfold sys_mmap. rewrite (proj2 (Z.eqb_neq (mp_length p) 0)), pagine_di_avvolta by lia.
  unfold dove. rewrite Efx, (sopra_heap_spec m) by done. rewrite (proj2 (Z.ltb_ge _ 0)) by (apply Z.div_pos; unfold PAGE_SIZE; lia).
  cbn [mbind run_bind]. replace (pagine_mmap p (page_directory proc) 0 (heap_end proc) m) with (Ok (true, m)).
  2:{ unfold pagine_mmap. by destruct (negb _), (ha (mp_flags p) MAP_SHARED). }
  cbn [mbind run_bind]. rewrite Z.add_0_r, u32_small by (unfold USER_SPACE_BASE, USER_SPACE_END, W32 in *; lia).
  unfold alza. by rewrite Z.ltb_irrefl.
Qed.



End MemsysThms.

(** ** On the machine of 64 frames

    The program of directory 2 has a page, a promise, and a heap that may grow to 16
    pages; its executable has a segment at [va 20 0]. *)

Module ProvaMem.

#[export] Existing Instance Prova.statiche.

#[export] Instance schermo : SchermoFuori.
Proof.
  intros i Hi. change (PD_INDEX USER_SPACE_END) with 768 in Hi. unfold utente. cbn [g_fb_pde_da g_fb_pde_a Prova.statiche].
  rewrite (proj2 (Z.leb_le 16 i)), (proj2 (Z.ltb_lt i 1024)), (proj2 (Z.leb_gt 960 i)) by lia. done.
Qed.

#[export] Instance sistema : Sistema := { vfs_read h n off := (n, fun b => (off + b) mod 251); proc_get_by_pid _ := None }.

Definition capo : Proc :=
  mkProc 7 7 0 true 2 (va 16 0) (va 16 2) (va 16 16) 5 [mkVma (va 20 0) (va 20 4) 0 (va 20 1 + 100) 7].

Definition m5 := Prova.m5.

Lemma in2 : page_directory capo ∈ ([3; 2] : list Z).
Proof. exact (proj1 Prova.in32). Qed.

(** Entries from [a] on, checked one by one. *)
Lemma vuote (m : Mondo Conti) d v n : v mod 4096 = 0 -> 0 <= n -> forallb (fun k => voce_a m d (v + k * 4096) =? 0) (seqZ 0 n) = true ->
  forall a, a mod 4096 = 0 -> v <= a < v + n * 4096 -> voce_a m d a = 0.
Proof.
  intros Hv Hn H a Ha Hr. rewrite forallb_forall in H. specialize (H ((a - v) / 4096)). rewrite <- list_elem_of_In, elem_of_seqZ in H.
  apply Z.eqb_eq. replace a with (v + (a - v) / 4096 * 4096) at 1 by zdm. apply H. zdm.
Qed.

Lemma heap5 : heap_ok m5 capo.
Proof.
  split; [vm_compute; reflexivity | vm_compute; repeat split; discriminate |].
  intros a Ha Hr. apply (vuote m5 2 (va 16 2) 14); [reflexivity | lia | vm_compute; reflexivity | exact Ha | exact Hr].
Qed.

Lemma ordinarie5 k : 0 <= k < 2 -> ordinaria m5 (voce_a m5 2 (va 16 0 + k * PAGE_SIZE)).
Proof.
  intros Hk. assert (k = 0 \/ k = 1) as [->| ->] by lia; [intros _ | apply ordinaria_assente]; vm_compute; reflexivity.
Qed.

Lemma segmenti : segmenti_ok capo.
Proof. intros v Hv. change (vma (immagine_di capo)) with [mkVma (va 20 0) (va 20 4) 0 (va 20 1 + 100) 7] in Hv. apply list_elem_of_singleton in Hv as ->. done. Qed.

(** Counts of owners do not wrap: there are fewer places than 32 bits count. *)
Lemma pochi32 : pochi [3; 2] Prova.e4.
Proof.
  intros f. pose proof (length_usi [3; 2]) as L. cbn [length] in L.
  assert (He : 0 <= Prova.e4 f <= 1) by (unfold Prova.e4, Prova.e3, piu, Prova.e0; destruct (f =? 4), (f =? 1); lia). unfold W32. lia.
Qed.

(** The bytes of the executable. *)
Definition file (x : Z) : Z := x mod 251.

Lemma legge : legge_il_file (exe_handle (immagine_di capo)) file.
Proof.
  intros n off r buf _ _ [= <- <-]. split; [lia|]. intros b _. unfold file. rewrite (Z.mod_small _ 256); [done|].
  pose proof (Z.mod_pos_bound (off + b) 251). lia.
Qed.

Lemma segmenti_nel_file : segmenti_file capo.
Proof.
  intros v Hv. change (vma (immagine_di capo)) with [mkVma (va 20 0) (va 20 4) 0 (va 20 1 + 100) 7] in Hv.
  apply list_elem_of_singleton in Hv as ->. vm_compute. repeat split; discriminate.
Qed.

Lemma esito_ok {A} (r : run (A * Mondo Conti)) a m b : r = Ok (a, m) -> Prova.esito r = Some b -> a = b.
Proof. intros -> [= ->]. done. Qed.

(** mmap of two pages, and its result. *)
Definition chiede : MmapParams := mkMmapParams 0 8192 3 2 (-1) 0.
Definition capo6 : Proc := con_heap_end (va 16 4) capo.
Definition m6 : Mondo Conti := Prova.dopo m5 (sys_mmap (Some chiede) capo m5).

Lemma mmap6 : sys_mmap (Some chiede) capo m5 = Ok (s32 (va 16 2), capo6, m6).
Proof. apply (Prova.ok_dopo m5). vm_compute. reflexivity. Qed.

Lemma aspetta : 0 <= mp_addr chiede < W32 /\ 0 < mp_length chiede <= 0xFFFFF000.
Proof. unfold W32. cbn. lia. Qed.

Lemma retta5 : retta Prova.niente (mkStato m5 [3; 2] Prova.e4, capo).
Proof. split; [exact Prova.spazi5|]. split; [exact heap5 | exact in2]. Qed.

End ProvaMem.

#[local] Existing Instance Prova.statiche.
#[local] Existing Instance ProvaMem.schermo.
#[local] Existing Instance ProvaMem.sistema.

Import ProvaMem.

Lemma sys_mmap_correct_witness :
  exists proc' m', sys_mmap (Some chiede) capo m5 = Ok (s32 (va 16 2), proc', m') /\ voce_a m' 2 (va 16 3) = voce_promessa 7 /\ heap_end proc' = va 16 4.
Proof.
  destruct (sys_mmap_correct m5 [3; 2] Prova.e4 Prova.niente capo chiede Prova.spazi5 in2 heap5 (proj1 aspetta) ltac:(cbn; lia)
    ltac:(intros H; discriminate H)) as (r & p' & m' & E & _ & _ & H).
  assert (F : Prova.esito (sys_mmap (Some chiede) capo m5) = Some (s32 (va 16 2), capo6)) by (vm_compute; reflexivity).
  pose proof (esito_ok _ _ _ _ E F) as Q. injection Q as -> ->. destruct H as [(H & _)|(v & _ & Ev & _ & _ & _ & V & Eh)]; [discriminate H|].
  exists capo6, m'. split; [exact E|]. split; [|reflexivity]. pose proof (V 1 ltac:(vm_compute; split; [discriminate | reflexivity])) as V1. rewrite Ev in V1. exact V1.
Defined.

Lemma sys_munmap_correct_witness :
  exists m', sys_munmap (va 16 0 + 5) 8000 capo m5 = Ok (0, con_heap_end (va 16 0) capo, m') /\ voce_a m' 2 (va 16 0) = 0 /\ voce_a m' 2 (va 16 1) = 0.
Proof.
  destruct (sys_munmap_correct m5 [3; 2] Prova.e4 Prova.niente capo (va 16 0 + 5) 8000 Prova.spazi5 in2 heap5 ltac:(vm_compute; split; [discriminate | reflexivity])
    ltac:(vm_compute; split; reflexivity) ltac:(vm_compute; repeat split; discriminate) ltac:(vm_compute; reflexivity) ordinarie5) as (m' & E & _ & _ & _ & V).
  exists m'. split; [exact E|]. split; [exact (V 0 ltac:(vm_compute; split; [discriminate | reflexivity])) | exact (V 1 ltac:(vm_compute; split; [discriminate | reflexivity]))].
Defined.

Lemma sys_sbrk_correct_witness :
  exists proc' m', sys_sbrk (W32 - 5000) capo m5 = Ok (s32 (va 16 2), proc', m') /\ heap_end proc' = va 16 1 /\ heap_ok m' proc'.
Proof.
  destruct (sys_sbrk_correct m5 [3; 2] Prova.e4 Prova.niente capo (W32 - 5000) Prova.spazi5 in2 heap5 ltac:(vm_compute; split; [discriminate | reflexivity]))
    as (r & p' & m' & E & _ & Hh & H).
  { intros a Ha Hr Hr0. destruct (fascia_qui (va 16 0) 2 a) as (k & Hk & ->); [vm_compute; repeat split; discriminate | exact Ha | exact (conj Hr0 (proj2 Hr)) | exact (ordinarie5 k Hk)]. }
  assert (F : Prova.esito (sys_sbrk (W32 - 5000) capo m5) = Some (s32 (va 16 2), con_heap_end (va 16 1) capo)) by (vm_compute; reflexivity).
  pose proof (esito_ok _ _ _ _ E F) as Q. injection Q as -> ->. eexists _, m'. split; [exact E|]. split; [reflexivity | exact Hh].
Defined.

Lemma sys_mprotect_correct_witness :
  exists m', sys_mprotect (va 16 0) 8192 1 (Some capo) m5 = Ok (0, m') /\ protetta 1 m5 (voce_a m5 2 (va 16 0)) m' (voce_a m' 2 (va 16 0)) /\
    voce_a m' 2 (va 16 1) = voce_promessa (diritti 1).
Proof.
  destruct (sys_mprotect_correct file m5 [3; 2] Prova.e4 Prova.niente capo (va 16 0) 8192 1 Prova.spazi5 in2 segmenti segmenti_nel_file legge pochi32
    ltac:(vm_compute; split; [discriminate | reflexivity]) ltac:(vm_compute; split; [discriminate | reflexivity])) as (r & m' & E & H0).
  { intros _ k Hk. change ((8192 + 4095) / 4096) with 2 in Hk. assert (k = 0 \/ k = 1) as [->| ->] by lia; vm_compute; reflexivity. }
  destruct H0 as (_ & _ & Hok & H). assert (r = 0) as ->.
  { apply Hok; [vm_compute; repeat split; discriminate | vm_compute; reflexivity | vm_compute; reflexivity |].
    intros k Hk. change ((8192 + 4095) / 4096) with 2 in Hk. assert (k = 0 \/ k = 1) as [->| ->] by lia; vm_compute; reflexivity. }
  destruct H as [(_ & V)|[(H & _)|(H & _)]]; [|discriminate H|discriminate H]. exists m'. split; [exact E|].
  split; [exact (V 0 ltac:(vm_compute; split; [discriminate | reflexivity])) | exact (V 1 ltac:(vm_compute; split; [discriminate | reflexivity]))].
Defined.

Lemma sys_mmio_map_correct_witness :
  exists m' proc', sys_mmio_map (Some (0xFEB00010, 256)) capo m5 = Ok (0, Some (va 16 2 + 16), proc', m') /\ paging_get_physical 2 (va 16 2 + 16 + 4) m' = 0xFEB00014.
Proof.
  destruct (sys_mmio_map_correct m5 [3; 2] Prova.e4 Prova.niente capo 0xFEB00010 256 Prova.spazi5 in2 heap5 ltac:(vm_compute; split; [discriminate | reflexivity])
    ltac:(vm_compute; split; [discriminate | reflexivity])) as (r & z & p' & m' & E & _ & _ & _ & H).
  assert (F : Prova.esito (sys_mmio_map (Some (0xFEB00010, 256)) capo m5) = Some (0, Some (va 16 2 + 16), con_heap_end (va 16 3) capo)) by (vm_compute; reflexivity).
  pose proof (esito_ok _ _ _ _ E F) as Q. injection Q as -> -> ->. destruct H as [(_ & H & _)|(_ & _ & virt & n & [= <-] & _ & _ & _ & _ & V)]; [discriminate H|].
  eexists m', _. split; [exact E|]. exact (proj1 (V 4 ltac:(lia))).
Defined.

Lemma mmap_munmap_roundtrip_witness : exists m2, sys_munmap (va 16 2) 8192 capo6 m6 = Ok (0, capo, m2) /\ ferme m5 [3; 2] nessuno m2.
Proof.
  destruct (mmap_munmap_roundtrip m5 [3; 2] Prova.e4 Prova.niente capo chiede (s32 (va 16 2)) capo6 m6 Prova.spazi5 in2 heap5 (proj1 aspetta) (proj2 aspetta)
    eq_refl mmap6 ltac:(vm_compute; discriminate)) as (m2 & E & _ & _ & F & _).
  exists m2. split; [exact E | exact F].
Defined.

Lemma sys_mmap_length_wraps_witness :
  sys_mmap (Some (mkMmapParams 0 0xFFFFF001 3 2 (-1) 0)) capo m5 = Ok (s32 (va 16 2), capo, m5).
Proof. exact (sys_mmap_length_wraps m5 capo (mkMmapParams 0 0xFFFFF001 3 2 (-1) 0) heap5 ltac:(vm_compute; split; reflexivity) eq_refl). Defined.


